(* ===== verification/_CoqProject ===== *)
-Q . S2P
Prelude.v
PyStr.v
Calendar.v
Cron.v
Catalog.v
Lifecycle.v
LifecycleSafety.v
LifecyclePlan.v
StreamEnvelope.v
StreamProofs.v
PyVal.v
Regex.v
SasCommon.v
ScsiTables.v
LsiTables.v
Scsi.v
LsiLoginfo.v
SasDecoder.v
SasEvents.v
ScsiProofs.v
CdbMessage.v
LsiProofs.v
DecoderProofs.v
SummaryProofs.v
EventsProofs.v
Json.v
JsonProofs.v
JsonHook.v
Dict.v
Journal.v
JournalLines.v
JournalExample.v
JournalRecords.v
JournalStates.v
JournalSafety.v
JournalLengths.v
JournalCompaction.v
JournalLedger.v
JournalHistory.v
JournalProgress.v
Coalescer.v
CoalescerProofs.v
CoalescerJournal.v
ConfigHash.v
Mapping.v
MappingReads.v
MappingStore.v
MappingKeys.v
MappingClassify.v
MappingDocuments.v
MappingRefinement.v
MappingTotality.v
MappingOutcomes.v
MappingRevisions.v
MappingExample.v
ReadBounds.v
ResponseSize.v
ReadService.v
ScopeHistory.v
ReadBoundsProofs.v
ResponseSizeProofs.v
ScopeHistoryProofs.v
ReadServiceProofs.v
UnionFind.v
DiskAccounting.v
DiskAccountingProofs.v
Retention.v
RetentionProofs.v
RetentionRuns.v
RetentionExample.v
SlotRecords.v
SlotChanges.v
SlotDetails.v
SlotPasses.v
SlotHistory.v
SlotTopology.v
SlotConfirmed.v
SlotSteady.v
SlotScans.v
SlotExample.v
