(* ===== verification/Prelude.v ===== *)
(** * TrueNAS JBOD Enclosure UI: a verification library

    The program watches the disk shelves of storage hosts.  The parts of it that
    carry rules of their own are modelled here from the Python source:

    - the backup archive of the history service
      ([src/history_service/backup_archive/]): when backups run, which copies
      exist, which may be deleted, and the format they are encrypted in;
    - the config change journal ([journal.py] of the same package): changes are
      written to a file that several processes share, and a coalescer turns them
      into config backups;
    - bulk reads of the history, from the request document to the SQL of the store
      ([operation_bounds.py], the bundle handler of [main.py], [list_scope_history]
      of [store.py]), and the retention that ages the same tables
      ([maintain_retention] of [store.py]), all in [src/history_service/];
    - the accounting that shows that no disk of a host is lost between its source and
      the rendered inventory ([src/app/services/inventory_accounting.py]);
    - the collector's slot changes: inventories become slot rows and events, unless
      they are not believed ([domain.py], the slot pass of [collector.py] and the slot
      tables of [store.py], in [src/history_service/]);
    - the slot mappings, which say by hand which disk sits in which slot: a JSON file
      with revisions against lost updates ([src/app/services/mapping_store.py]);
    - the SAS diagnostics of the read UI ([src/app/services/sas_diagnostics/]
      and the kernel log parser of [src/app/services/sas_fabric_parsers.py]):
      kernel messages are parsed into events, decoded, bounded, and tallied into
      findings per controller, device and target.

    A component is a file whose definitions keep the names of the source.  Components
    meet in four places.  The coalescer calls the journal file, which calls JSON:
    [CoalescerJournal] puts the three together.  The lifecycle calls the catalog while
    others do ([LifecycleSafety]).  The bundle handler reads through the interface
    [ScopeReader], which the store implements ([store_reader]).  And retention rewrites
    the tables that these reads see ([retention_keeps_recent]).

    ** Conventions

    A Python function is a Gallina function; a method that changes its object takes
    and returns the state. A call that may raise returns [result E A] ([Ok] or
    [Err], below). Integers are [Z]: Python's are unbounded, and where the code
    masks or shifts words the model does the same with [Z.land], [Z.lor] and
    [Z.shiftl]. Texts are Stdlib strings whose characters are the code points below
    256; [PyStr] gives [strip], [split], [lower], [int], [str], formatting and
    [repr] on them (outside ASCII the model is Latin-1, so statements about texts
    are about Latin-1 texts). The journal, the history reads, retention, the slot
    changes and the mappings, whose texts leave and enter the program as bytes, have
    texts of code points instead ([ustr], a list of [Z], surrogates included).
    Times are a day and microseconds. A dict is an association list with its
    insertion order, a set a [gset]. A database table is a list of rows in the
    order of their creation, and an SQL statement the function of the tables it
    denotes.

    ** Shared files

    - [Prelude]: the [result] type and its notation, [inv_ok] and [to_prop], the
      stable sort behind [sorted] and [max], range checks by computation.
    - [PyStr]: characters and texts; numerals are read back ([py_int_numeral],
      [py_int_hex]).
    - [PyVal]: Python values and dicts ([get], [update], [Counter]), tables of
      constants and how a property of every row reaches every lookup.
    - [Regex]: the part of [re] the patterns use, with backtracking order, and
      lemmas that match a text assembled from the parts of a pattern.

    ** Backup archive

    - [Calendar]: proleptic Gregorian dates and minutes, for [datetime].
    - [Cron] ([cron.py], and [_valid_cron] of [policy.py]): [parse] accepts a
      field exactly when it denotes a set of values; [next_after] finds the first
      matching minute ([cron_next_after_first]), and its search of
      [MAX_SEARCH_DAYS] days, a full 400-year cycle of the calendar, is long
      enough: nothing found means the schedule never fires
      ([cron_next_after_decides]).
    - [Catalog] ([catalog.py]): the three tables of [ArtifactCatalog] and every
      method as a function from catalog to result. [run_op] is one call; the
      invariant, the permanence of pins and the append-only audit are proved for
      every sequence of calls.
    - [Lifecycle] ([lifecycle.py], the exception texts of [errors.py]):
      retention rules, [plan], [apply] and [reconcile].  The storage target and
      the other users of the catalog are a [World]: between any two steps of
      [apply] other clients may run catalog operations ([interfere]).
      [LifecyclePlan] gives the plan its specification; [LifecycleSafety] shows
      that a run, whatever others do in between, deletes only objects of copies that
      are planned, claimed and not pinned at that moment, and that every object gone is
      tombstoned or is the failed item the run stopped at, still catalogued and claimed
      ([settled]); and that a run alone on the catalog keeps the newest verified copy.
    - [StreamEnvelope] ([stream_envelope.py]): header, sealer, [encrypt_file],
      [decrypt_file]. AES-GCM and scrypt are the operations of the class [Crypto],
      salts and nonce prefixes are arguments; what is assumed of the cipher (tags
      have 16 bytes, opening undoes sealing, what opens was sealed) is the class
      [CryptoLaws], met by a toy cipher in the witnesses. [StreamProofs] has the
      round trips, the exactness of decryption, and that a modified file decrypts
      only through a record, at its place in the file, that was never sealed
      ([stream_tampering_is_forgery]).

    ** Change journal

    - [Json]: [json.dumps] as [_stable_json] calls it and [json.loads] of bytes, with
      the encoding it detects, the escapes, number syntax and the recursion limit of
      the standard library.  [JsonProofs]: what is printed is printable ASCII and is
      read back ([loads_dumps]), no proper prefix of a printed object is
      ([loads_prefix]), and the fuel of the scanner never decides ([scan_enough]).
    - [Journal] ([ChangeJournal]): every method, from file to file.  The file is its
      bytes; a write may stop anywhere ([write_fault]), a compaction may fail before
      or after it replaces the file ([compact_fault]); [Runtime] and [RuntimeLaws]
      are [datetime.fromisoformat], SHA-256, floats and the recursion limit, and
      [JournalExample] is a runtime that meets the laws.
    - [JournalLines], [JournalRecords], [JournalStates], [JournalLengths]: lines and
      times, records that survive a line, what a file owes ([owed]), and how long a
      line can get.  Two states are equivalent ([sim]) up to the wording of recovered
      entries.
    - [JournalSafety]: an append cut anywhere loses nothing that was pending, and a
      commit closes exactly what it names, for files with any bytes in them.
    - [JournalCompaction], [JournalHistory]: compaction of a file whose lines were
      written here ([good_data], torn ones included) owes what the file owed; over
      any history of calls and faults every acknowledged change is pending, as
      itself or in a merged entry, or was named by a commit
      ([journal_conservation]). [JournalLedger] keeps the account: which changes an
      entry of the file stands for. A call is [manageable] while the file stays
      below 2{^63} bytes; then every line number can be printed.
    - [JournalProgress]: without a fault a valid call returns, and everything
      pending can be committed, since 256 ids fit on a line.
    - [Coalescer] ([ConfigBackupCoalescer]): timers, retries and runs, over the
      interface [CoalescerWorld]: the journal, the callbacks, the clock, the run
      lock, and other threads, which may record changes whenever no lock is held.
      [CoalescerProofs]: a run backs up and commits exactly what it read before its
      snapshot, and a pending change is due within the maximum delay.
    - [CoalescerJournal]: the journal file is an instance of that interface
      ([site_world]); of a coalescer on it, with other processes and every kind of
      failure, each acknowledged change is pending, as itself or in a merged entry, or
      was named by a commit.  Random ids repeat only after 2{^64} calls.
    - [ConfigHash] ([canonicalize_config], [canonical_config_hash]): the hash ignores
      volatile keys and order, and tells different canonical forms apart.

    ** History reads

    - [ReadBounds] ([operation_bounds.py]): the limits, the normalization of a request
      into a plan, the check the storage layer makes again, the admission counter.
      [ReadBoundsProofs] describes every accepted request.
    - [ResponseSize] ([bounded_history_json_response] and what it calls): the size of a
      response is computed without encoding it, and the response states its own size.
      [ResponseSizeProofs]: the size is that of the encoding, and what is sent is
      within the limit ([bounded_response_exact]).  The recursion limit is left out.
    - [ReadService] ([scopes_history_bundle], [_execute_history_plan],
      [_execute_admitted_history_plan], and the document that [history_backend.py]
      sends): the handler over two interfaces, [Framework] for the web framework and
      [ScopeReader] for the store, whose laws are [ReaderLaws].  Starts, ends and
      cancellations of reads are events of a state machine ([service_next]).
    - [ReadServiceProofs]: a request is admitted exactly within the budgets
      ([admitted_plan_exact]), the answer is that of the planned reads
      ([bundle_refines_reads]), places and running reads agree
      ([reads_in_flight_exact]), and the document of a plan is read back.
    - [ScopeHistory] ([list_scope_history], [_append_scope_metric_rollups]): a scope
      from one database.  The clock and the database at each call are the class
      [StoreWorld].  [ScopeHistoryProofs]: the newest rows of each slot, rollups only
      below samples, and coverage texts that agree with what was left out, against a
      reading of the request in terms of columns ([scope_history_newest]).

    ** Retention

    - [Retention] ([maintain_retention] and its helpers): expired samples are rolled up
      by the hour and by the day and deleted, expired events and rollups deleted, in
      batches.  SQLite's own functions are the class [Sqlite], failures, other writers
      and the caller's stop signal the class [RetentionWorld].
    - [RetentionProofs]: what a bucket says over its rollup and its samples is a monoid
      ([merge]), so batches of any size conserve it ([retention_conserves]).
    - [RetentionRuns]: when a batch fails, how many batches finish the work, and that
      reads of recent history do not change.
    - [RetentionExample]: canonical times meet the assumptions on [strftime], and a
      small SQLite runs the theorems.

    ** Slot changes

    - [SlotRecords] ([domain.py]): [SlotStateRecord], [from_snapshot_slot],
      [build_slot_events].  [PyText] is what Python knows of characters beyond ASCII
      and of floats.
    - [SlotChanges]: the slot pass ([_record_slot_changes] and what it calls), the
      topologies it holds back ([Pending]) and when a scope is skipped.  The tables are
      a map and a log, an update of them one transaction that may fail, and [slot_step]
      the calls, with restarts.
    - [SlotDetails]: the details of events are read back ([event_details_roundtrip]).
      [SlotPasses]: a pass treats its slots one by one.  [SlotHistory]: replaying the
      events on a row gives the state of a later row ([slot_state_replayed]).
    - [SlotTopology]: no call raises and all keep the state [sound], when addresses
      are ASCII, texts scalars and the slots of a scope distinct. [SlotConfirmed]:
      a pass that does not backfill replaces a topology only by one seen twice, and
      outside a mass degradation then it does ([topology_change_confirmed],
      [topology_change_recorded]). [SlotSteady]: the same inventory falls silent
      after two passes ([steady_inventory_is_silent]).
    - [SlotScans] (the slots in [_run_once_unlocked]): a Linux or ESXi host whose
      SSH source failed keeps its disks ([degraded_scan_keeps_disks]).
      [SlotExample]: a shelf, an address on which a pass raises, and a sighting
      that is not consecutive.

    ** Slot mappings

    - [JsonHook]: [json.loads] with an [object_pairs_hook], its exceptions told apart;
      [Dict]: dicts as lists of items, equivalent when they agree on every lookup.
    - [Mapping]: [ManualMapping] of [models/domain.py] and its validation, the drawer
      profiles of [profile_registry.py], the keys of both versions of the file, and the
      classification of its rows.  [MappingEnv] is what is called outside: pydantic's
      reading and writing of times, floats, SHA-256, the order of a set.
    - [MappingReads]: snapshots, lookups, revisions, previews of imports.
    - [MappingStore]: [save_mapping], [clear_mapping], [replace_mappings],
      [apply_mapping_import], and a commit through a temporary file, each step of which
      can fail ([commit_script]).  A method holds the lock of its store, so it is one
      operation on the directory ([world]); a call of [record_config_change] is
      noted there.
    - [MappingKeys], [MappingClassify], [MappingDocuments]: keys and identities are one
      to one ([v2_key_roundtrip]), what classification gives, and that a written
      document is read back.
    - [MappingRefinement]: the promised dict of mappings ([effect], [find_mapping]), and
      that the store implements it ([store_refines_dict]).  [MappingTotality],
      [MappingOutcomes]: what a mutation leaves when it raises ([mutation_outcome]),
      and that it returns when nothing fails ([mutation_completes]).
    - [MappingRevisions]: a mutation with a revision issued for the state it meets
      returns ([fresh_revision_accepted]), and a save that returns met the rows it
      replaces as they were when its revision was issued ([no_lost_update]).
      [MappingExample]: a store in use, and two revisions that are stale when they
      are issued.
    - Rows are read back as [reread] has them, since texts are trimmed once more.
      Keys and identities are of texts that can be encoded, slots of at most 4300
      digits, and the recursion limit is at least four.

    ** Disk accounting

    - [UnionFind] ([_Classes]): the root of a token is the least token connected with it
      ([find_least]).
    - [DiskAccounting]: identity tokens of records and slots, scopes of nodes, classes,
      totals; [SetOrder] is the iteration order of a [frozenset].
      [DiskAccountingProofs]: serials decide ([serial_decides_disk],
      [serial_inventory_exact]), otherwise shared names do ([names_decide_disk]), no
      order matters ([accounting_order_irrelevant]), and nothing is unplaced exactly
      when every source disk is rendered ([retention_accounting_exact]).

    ** SAS diagnostics

    - [SasCommon] ([common.py]): fault families, severities, layers.
    - [ScsiTables], [Scsi] ([scsi.py]): command blocks, sense data, status.
      [ScsiProofs]: addresses survive the wire format and are machine sized,
      sense codes are read back, spellings of a status agree.  [CdbMessage]: a
      printed command is decoded from exactly its bytes.
    - [LsiTables], [LsiLoginfo] ([lsi_loginfo.py]): the fields of a loginfo word.
      [LsiProofs]: full confidence exactly on the words the tables spell out.
    - [SasDecoder] ([decoder.py]): one event decoded, its bounded record, the
      summary and its report.  [DecoderProofs]: every decoded event has a known
      family, records are well formed and bounded.  [SummaryProofs]: a summary is
      the tally of its events, whatever they are, and the report ranks it.
    - [SasEvents] ([parse_mpr_dmesg_events]): lines to events to groups.
      [EventsProofs]: the groups hold exactly the events that name them, and a
      printed device line is read back.

    ** Recursion

    Recursion is structural, or takes fuel where the code loops: the cron search has
    the day limit of the code ([search_days]), [digits_of] the bit length of its
    number, [drain] and [copy] the length of the data they consume, the JSON scanner
    [scan_fuel] of its text, [chunks] the number of ids, [find] the number of tokens
    known (parents are never above their children, so that is enough:
    [find_from_enough]), [retention_rounds] the number of batches of the call,
    [write_temp_bytes] the length of the data, [create_temp_file] its 128 attempts.
    [canonicalize_config] recurses on the document, without the interpreter's
    recursion limit, which [dumps] and [loads] do have. The functions of the source
    pass the fuel themselves, and the theorems are about those functions, so they
    also show that it suffices.

    ** Not modelled

    Network and host clients, the web services and their other routes, SQL text and
    database files (statements are modelled by their effect on the tables), segments
    of the history and their readers, the collector's other work (metrics, scopes,
    backups, status), backup and restore of whole systems, inventory assembly, page
    rendering, and the scrapers of command output other than the kernel log. Of the
    journal, locks, directory creation, file modes and log messages are left out; of
    retention, locks, retries and the pages a vacuum frees; of the mapping store,
    the wording of failures and file modes; of slot changes, log lines, stage
    timings and reads that fail. The scheduler's timing and slot layouts are within
    reach and not modelled.*)

From stdpp Require Export base tactics list numbers gmap strings pretty sorting.
From Stdlib Require Export Lia.

(** ** Notations and results *)

Declare Scope py_scope.
Delimit Scope py_scope with py.

(** A call that may raise: [Ok] is a normal return, [Err] the exception. *)
Inductive result (E A : Type) : Type :=
| Ok (a : A)
| Err (e : E).
Arguments Ok {E A} a.
Arguments Err {E A} e.

#[export] Instance result_ret {E} : MRet (result E) := λ A a, Ok a.
#[export] Instance result_bind {E} : MBind (result E) := λ A B f m,
  match m with Ok a => f a | Err e => Err e end.
#[export] Instance result_fmap {E} : FMap (result E) := λ A B f m,
  match m with Ok a => Ok (f a) | Err e => Err e end.

#[export] Instance result_eq_dec {E A} `{EqDecision E} `{EqDecision A} :
  EqDecision (result E A).
Proof. solve_decision. Defined.

(** [raise_if b e ;; k]: the early [raise] of a guard. *)
Definition raise_if {E} (b : bool) (e : E) : result E unit :=
  if b then Err e else Ok tt.

Notation "'raise:' e 'when' b ';' k" := (if b then Err e else k)
  (at level 20, e at level 100, b at level 100, k at level 200,
   format "'[v' 'raise:'  e  'when'  b ';' '/' k ']'") : py_scope.
Open Scope py_scope.

Definition is_ok {E A} (r : result E A) : bool :=
  match r with Ok _ => true | Err _ => false end.

(** [mapM] in evaluation order: the first exception ends the comprehension. *)
Fixpoint res_mapM {E A B} (f : A → result E B) (l : list A) : result E (list B) :=
  match l with
  | [] => Ok []
  | a :: l' =>
      match f a with
      | Err e => Err e
      | Ok b => match res_mapM f l' with Err e => Err e | Ok bs => Ok (b :: bs) end
      end
  end.

(** ** Tactics *)

(** Split on the first stuck [match]/[if] of a hypothesis, closing the
    branches that return the other constructor. *)
Ltac inv_ok H :=
  repeat (progress (simpl in H; cbv [mbind result_bind mret result_ret] in H)
    || match type of H with
       | Ok _ = Ok _ => injection H as H
       | Err _ = Err _ => injection H as H
       | Ok _ = Err _ => discriminate H
       | Err _ = Ok _ => discriminate H
       | context [match ?x with _ => _ end] =>
           let E := fresh "E" in destruct x eqn:E; try discriminate H
       end).

(** Turn boolean tests of the code into propositions. *)
Ltac to_prop :=
  repeat match goal with
  | H : (_ && _) = true |- _ => apply andb_true_iff in H as [? ?]
  | H : (_ || _) = false |- _ => apply orb_false_iff in H as [? ?]
  | H : negb _ = true |- _ => apply negb_true_iff in H
  | H : negb _ = false |- _ => apply negb_false_iff in H
  | H : (_ <=? _)%Z = true |- _ => apply Z.leb_le in H
  | H : (_ <=? _)%Z = false |- _ => apply Z.leb_gt in H
  | H : (_ <? _)%Z = true |- _ => apply Z.ltb_lt in H
  | H : (_ <? _)%Z = false |- _ => apply Z.ltb_ge in H
  | H : (_ =? _)%Z = true |- _ => apply Z.eqb_eq in H
  | H : (_ =? _)%Z = false |- _ => apply Z.eqb_neq in H
  | H : (_ =? _)%string = true |- _ => apply String.eqb_eq in H
  | H : (_ =? _)%string = false |- _ => apply String.eqb_neq in H
  | H : bool_decide _ = true |- _ => apply bool_decide_eq_true in H
  | H : bool_decide _ = false |- _ => apply bool_decide_eq_false in H
  end.

Create HintDb py.
Create Rewrite HintDb pyrw.

Lemma res_mapM_Ok {E A B} (f : A → result E B) l bs :
  res_mapM f l = Ok bs ↔ Forall2 (λ a b, f a = Ok b) l bs.
Proof.
  split.
  - revert bs; induction l as [|a l IH]; intros bs H; simpl in H.
    + injection H as <-. constructor.
    + destruct (f a) eqn:Ea; [|discriminate].
      destruct (res_mapM f l) eqn:El; [|discriminate].
      injection H as <-. constructor; auto.
  - induction 1 as [|a b l bs Hab _ IH]; simpl; [done|].
    by rewrite Hab, IH.
Qed.

Lemma res_mapM_fmap {E A B} (f : A → result E B) l : res_mapM id (f <$> l) = res_mapM f l.
Proof. induction l as [|a l IH]; [done|]. rewrite fmap_cons. cbn [res_mapM]. unfold id at 1. by rewrite IH. Qed.

Lemma res_mapM_Err {E A B} (f : A → result E B) l e :
  res_mapM f l = Err e → ∃ a, a ∈ l ∧ f a = Err e.
Proof.
  induction l as [|a l IH]; simpl; intros H; [discriminate|].
  destruct (f a) eqn:Ea.
  - destruct (res_mapM f l); [discriminate|].
    destruct (IH H) as (x & ? & ?). exists x. split; [by right|done].
  - exists a. split; [by left|congruence].
Qed.

(** ** Lists *)

Lemma forall_list {A} (P : A → Prop) l x : Forall P l → x ∈ l → P x.
Proof. rewrite Forall_forall. auto. Qed.
Lemma Forall2_in_l {A B} (P : A → B → Prop) l k x : Forall2 P l k → x ∈ l → ∃ y, y ∈ k ∧ P x y.
Proof.
  induction 1 as [|a b l k Hab _ IH]; [by intros ?%not_elem_of_nil|].
  intros [->|Hx]%elem_of_cons; [exists b; by split; [left|]|]. destruct (IH Hx) as (y & ? & ?). exists y. by split; [right|].
Qed.
Lemma Forall2_in_r {A B} (P : A → B → Prop) l k y : Forall2 P l k → y ∈ k → ∃ x, x ∈ l ∧ P x y.
Proof. intros H Hy. apply Forall2_flip in H. exact (Forall2_in_l _ _ _ _ H Hy). Qed.
Lemma Forall2_impl_in {A B} (P Q : A → B → Prop) l k : (∀ x y, x ∈ l → P x y → Q x y) → Forall2 P l k → Forall2 Q l k.
Proof.
  intros H HF. induction HF as [|x y l k Hxy HF IH]; constructor.
  - apply H; [by left|done].
  - apply IH. intros x' y' ?. apply H. by right.
Qed.
Lemma fold_left_fmap {A B C} (f : A → B → A) (g : C → B) l a : fold_left f (g <$> l) a = fold_left (λ a x, f a (g x)) l a.
Proof. revert a; induction l as [|x l IH]; intros a; [done|]. apply IH. Qed.

(** ** Filtering *)

Lemma filter_all {A} (f : A → bool) l : Forall (λ x, f x = true) l → List.filter f l = l.
Proof. induction 1 as [|x l Hx _ IH]; simpl; [done|]. by rewrite Hx, IH. Qed.
Lemma filter_none {A} (f : A → bool) l : Forall (λ x, f x = false) l → List.filter f l = [].
Proof. induction 1 as [|x l Hx _ IH]; simpl; [done|]. by rewrite Hx. Qed.
Lemma elem_of_filter_list {A} (f : A → bool) l x : x ∈ List.filter f l ↔ x ∈ l ∧ f x = true.
Proof. by rewrite !list_elem_of_In, List.filter_In. Qed.
Lemma filter_filter {A} (f g : A → bool) l :
  List.filter f (List.filter g l) = List.filter (λ x, g x && f x) l.
Proof.
  induction l as [|x l IH]; simpl; [done|].
  destruct (g x); simpl; [|done]. destruct (f x); [by f_equal|done].
Qed.
Lemma filter_perm {A} (f : A → bool) l1 l2 : l1 ≡ₚ l2 → List.filter f l1 ≡ₚ List.filter f l2.
Proof.
  induction 1 as [|x l1 l2 _ IH|x y l|l1 l2 l3 _ IH1 _ IH2]; simpl; [done| | |by etrans].
  - by destruct (f x); [constructor|].
  - destruct (f x), (f y); try done. apply Permutation_swap.
Qed.
#[export] Instance filter_proper {A} (f : A → bool) : Proper ((≡ₚ) ==> (≡ₚ)) (List.filter f).
Proof. intros l l'. apply filter_perm. Qed.
Lemma list_filter_filter {A} (f g : A → bool) l : List.filter f (List.filter g l) = List.filter (λ x, f x && g x) l.
Proof. induction l as [|x l IH]; [done|]. cbn. destruct (g x) eqn:Eg; cbn; [|by rewrite andb_false_r]. rewrite andb_true_r, IH. done. Qed.
Lemma filter_fmap {A B} (f : B → bool) (g : A → B) l : List.filter f (g <$> l) = g <$> List.filter (λ x, f (g x)) l.
Proof. induction l as [|x l IH]; [done|]. rewrite fmap_cons. cbn [List.filter]. destruct (f (g x)); by rewrite IH. Qed.
Lemma filter_ext_in' {A} (f g : A → bool) l : (∀ x, x ∈ l → f x = g x) → List.filter f l = List.filter g l.
Proof. intros H. apply List.filter_ext_in. intros x Hx. by apply H, list_elem_of_In. Qed.
Lemma length_filter_le {A} (f : A → bool) l : List.length (List.filter f l) ≤ List.length l.
Proof. induction l as [|x l IH]; [done|]. cbn. destruct (f x); cbn; lia. Qed.
Lemma length_remove_dups_le {A} `{EqDecision A} (l : list A) : List.length (remove_dups l) ≤ List.length l.
Proof. induction l as [|x l IH]; [done|]. cbn. case_decide; cbn; lia. Qed.

(** ** Sorting

    [sorted(l, key=...)]: a stable insertion sort, for the boolean order the
    keys induce.  [max_by] is [max(l, key=..., default=None)], which keeps the
    first of several maximal elements. *)

Section sorting.
Context {A : Type} (leb : A → A → bool).

Fixpoint insert_by (x : A) (l : list A) : list A :=
match l with
| [] => [x]
| y :: l' => if leb x y then x :: l else y :: insert_by x l'
end.
Definition sort_by (l : list A) : list A := foldr insert_by [] l.

Fixpoint max_from (best : A) (l : list A) : A :=
match l with
| [] => best
| x :: l' => max_from (if leb x best then best else x) l'
end.
Definition max_by (l : list A) : option A :=
match l with [] => None | x :: l' => Some (max_from x l') end.

Lemma insert_by_perm x l : insert_by x l ≡ₚ x :: l.
Proof.
induction l as [|y l IH]; simpl; [done|].
destruct (leb x y); [done|]. rewrite IH. by constructor.
Qed.
Lemma sort_by_perm l : sort_by l ≡ₚ l.
Proof. induction l as [|x l IH]; simpl; [done|]. by rewrite insert_by_perm, IH. Qed.
Lemma elem_of_sort_by x l : x ∈ sort_by l ↔ x ∈ l.
Proof. by rewrite sort_by_perm. Qed.
Lemma length_sort_by l : length (sort_by l) = length l.
Proof. by rewrite sort_by_perm. Qed.

Definition le_of (x y : A) : Prop := leb x y = true.
Context (Htotal : ∀ x y, leb x y = true ∨ leb y x = true).
Context (Htrans : ∀ x y z, leb x y = true → leb y z = true → leb x z = true).

Lemma insert_by_sorted x l :
StronglySorted le_of l → StronglySorted le_of (insert_by x l).
Proof.
induction 1 as [|y l Hl IH Hy]; simpl; [by repeat constructor|].
destruct (leb x y) eqn:E.
- constructor; [by constructor|]. constructor; [done|].
  eapply Forall_impl; [exact Hy|]. intros z. by apply Htrans.
- constructor; [done|]. rewrite insert_by_perm. constructor; [|done].
  destruct (Htotal x y) as [H|H]; [congruence|exact H].
Qed.
Lemma sort_by_sorted l : StronglySorted le_of (sort_by l).
Proof. induction l; simpl; [constructor|]. by apply insert_by_sorted. Qed.

Lemma max_from_ge best l :
le_of best (max_from best l) ∧ Forall (λ x, le_of x (max_from best l)) l.
Proof.
revert best; induction l as [|x l IH]; intros best; simpl.
- split; [|done]. by destruct (Htotal best best).
- destruct (IH (if leb x best then best else x)) as [H1 H2].
  destruct (leb x best) eqn:E; split_and!; [done| |..].
  + constructor; [by apply (Htrans x best)|done].
  + destruct (Htotal x best) as [H|H]; [congruence|]. by apply (Htrans best x).
  + by constructor.
Qed.
Lemma max_by_ge l m : max_by l = Some m → ∀ x, x ∈ l → le_of x m.
Proof.
destruct l as [|y l]; simpl; [done|]. intros [= <-] x Hx.
destruct (max_from_ge y l) as [H1 H2].
apply elem_of_cons in Hx as [->|Hx]; [done|].
by rewrite Forall_forall in H2; apply H2.
Qed.
End sorting.

Lemma max_from_elem {A} (leb : A → A → bool) best l : max_from leb best l ∈ best :: l.
Proof.
  revert best; induction l as [|x l IH]; intros best; simpl; [by left|].
  destruct (leb x best).
  - specialize (IH best). rewrite !elem_of_cons in *. tauto.
  - specialize (IH x). rewrite !elem_of_cons in *. tauto.
Qed.
Lemma max_by_elem {A} (leb : A → A → bool) l m : max_by leb l = Some m → m ∈ l.
Proof. destruct l; simpl; [done|]. intros [= <-]. apply max_from_elem. Qed.
Lemma max_by_None {A} (leb : A → A → bool) l : max_by leb l = None ↔ l = [].
Proof. by destruct l. Qed.

(** In a sorted list without duplicates of a linear order, what precedes an
    element is strictly below it. *)
Lemma sort_by_ext {A} (leb : A → A → bool) (l1 l2 : list A) :
  (∀ x y, leb x y = true ∨ leb y x = true) →
  (∀ x y z, leb x y = true → leb y z = true → leb x z = true) →
  (∀ x y, x ∈ l1 → y ∈ l1 → leb x y = true → leb y x = true → x = y) →
  l1 ≡ₚ l2 → sort_by leb l1 = sort_by leb l2.
Proof.
  intros Htot Htr Has Hp.
  assert (sort_by leb l1 ≡ₚ sort_by leb l2) as Hp' by by rewrite !sort_by_perm.
  assert (∀ x y, x ∈ sort_by leb l1 → y ∈ sort_by leb l1 →
    leb x y = true → leb y x = true → x = y) as Has' by
    (intros x y; rewrite !elem_of_sort_by; auto).
  pose proof (sort_by_sorted leb Htot Htr l1) as S1.
  pose proof (sort_by_sorted leb Htot Htr l2) as S2.
  revert Hp' Has' S1 S2. generalize (sort_by leb l1) (sort_by leb l2). clear Hp Has l1 l2.
  intros l1; induction l1 as [|x l1 IH]; intros l2 Hp Has S1 S2.
  - by apply Permutation_nil in Hp as ->.
  - destruct l2 as [|y l2]; [by symmetry in Hp; apply Permutation_nil in Hp|].
    inversion S1 as [|?? S1' F1]; inversion S2 as [|?? S2' F2]; subst.
    assert (x = y) as ->.
    { assert (x ∈ y :: l2) as Hx by (rewrite <-Hp; left).
      assert (y ∈ x :: l1) as Hy by (rewrite Hp; left).
      rewrite Forall_forall in F1, F2.
      apply elem_of_cons in Hx as [->|Hx]; [done|].
      apply elem_of_cons in Hy as [->|Hy]; [done|].
      apply Has; [by left|by right| |]; [by apply F1|by apply F2]. }
    f_equal. apply IH; [by eapply Permutation_cons_inv| |done|done].
    intros a b Ha Hb. apply Has; by right.
Qed.

(** What is sorted stays; sorting in two parts, one below the other *)
Lemma sort_by_id {A} (leb : A → A → bool) l : StronglySorted (le_of leb) l → sort_by leb l = l.
Proof.
  induction 1 as [|x l _ IH Hx]; [done|]. change (insert_by leb x (sort_by leb l) = x :: l). rewrite IH.
  destruct Hx as [|y l Hy _]; [done|]. cbn. by rewrite Hy.
Qed.
Lemma sort_by_split {A} (leb : A → A → bool) l l1 l2 :
  (∀ x y, leb x y = true ∨ leb y x = true) → (∀ x y z, leb x y = true → leb y z = true → leb x z = true) →
  (∀ x y, x ∈ l → y ∈ l → leb x y = true → leb y x = true → x = y) →
  l ≡ₚ l1 ++ l2 → (∀ x y, x ∈ l1 → y ∈ l2 → leb x y = true) → sort_by leb l = sort_by leb l1 ++ sort_by leb l2.
Proof.
  intros Htot Htr Has Hp H. rewrite <-(sort_by_id leb (sort_by leb l1 ++ sort_by leb l2)).
  - apply sort_by_ext; [done..|]. by rewrite !sort_by_perm.
  - apply StronglySorted_app. split_and!; [|by apply sort_by_sorted..]. intros x y. rewrite !elem_of_sort_by. apply H.
Qed.

Lemma forallb_take {A} (p : A → bool) n l : forallb p l = true → forallb p (take n l) = true.
Proof.
  revert n; induction l as [|x l IH]; intros [|n]; simpl; [done..|].
  intros [-> H]%andb_true_iff. by apply IH.
Qed.

(** ** Checking a predicate on a range of integers *)

Fixpoint forall_from (P : Z → bool) (n : nat) (lo : Z) : bool :=
  match n with O => true | S n' => P lo && forall_from P n' (lo + 1)%Z end.

Lemma forall_from_spec P n lo :
  forall_from P n lo = true → ∀ z, (lo <= z < lo + Z.of_nat n)%Z → P z = true.
Proof.
  revert lo; induction n as [|n IH]; intros lo H z Hz; [lia|].
  simpl in H. apply andb_true_iff in H as [H1 H2].
  destruct (Z.eq_dec z lo) as [->|]; [done|]. apply (IH (lo + 1)%Z); [done|lia].
Qed.

Lemma strongly_sorted_impl {A} (R R' : A → A → Prop) l :
  (∀ x y, R x y → R' x y) → StronglySorted R l → StronglySorted R' l.
Proof.
  intros HR. induction 1 as [|x l _ IH Hx]; constructor; [done|].
  eapply Forall_impl; [exact Hx|]. auto.
Qed.
