(* ===== verification/PyStr.v ===== *)
(** * Python text operations

    The part of [str], [int] and f-string formatting that the modelled code
    uses.  A Python [str] is a Rocq [string] whose characters are the code
    points 0..255 (Latin-1); two code points ([U+00B5], [U+00FF]) whose upper
    case lies outside that range are left unchanged by [py_upper].  All
    functions are executable. *)

From S2P Require Import Prelude.
From Stdlib Require Import Ascii String.
#[local] Open Scope Z_scope.

(** ** Characters *)

Definition chars (s : string) : list ascii := list_ascii_of_string s.
Definition text (l : list ascii) : string := string_of_list_ascii l.

Definition ord (c : ascii) : Z := Z.of_N (N_of_ascii c).
Definition chr (z : Z) : ascii := ascii_of_N (Z.to_N z).

Definition in_range (lo hi : Z) (c : ascii) : bool := (lo <=? ord c) && (ord c <=? hi).

(** [str.isspace] of one character, which is also the regex class [\s]. *)
Definition is_space (c : ascii) : bool :=
  in_range 9 13 c || in_range 28 32 c || (ord c =? 133) || (ord c =? 160).

(** Decimal digits: the regex class [\d] and what [int] accepts. *)
Definition is_decimal (c : ascii) : bool := in_range 48 57 c.

(** [str.isdigit] also accepts the superscripts two, three and one. *)
Definition is_digit (c : ascii) : bool :=
  is_decimal c || (ord c =? 178) || (ord c =? 179) || (ord c =? 185).

Definition is_upper_ascii (c : ascii) : bool := in_range 65 90 c.
Definition is_lower_ascii (c : ascii) : bool := in_range 97 122 c.
Definition is_alnum_ascii (c : ascii) : bool :=
  is_upper_ascii c || is_lower_ascii c || is_decimal c.

Definition lower_char (c : ascii) : ascii :=
  if is_upper_ascii c || (in_range 192 222 c && negb (ord c =? 215))
  then chr (ord c + 32) else c.

Definition upper_char (c : ascii) : list ascii :=
  if is_lower_ascii c || (in_range 224 254 c && negb (ord c =? 247))
  then [chr (ord c - 32)]
  else if ord c =? 223 then ["S"%char; "S"%char] else [c].

(** ** Strings *)

Definition py_lower (s : string) : string := text (lower_char <$> chars s).
Definition py_upper (s : string) : string := text (chars s ≫= upper_char).
Definition py_len (s : string) : Z := Z.of_nat (String.length s).

Definition py_isdigit (s : string) : bool :=
  match chars s with [] => false | l => forallb is_digit l end.

Fixpoint drop_while {A} (p : A → bool) (l : list A) : list A :=
  match l with x :: l' => if p x then drop_while p l' else l | [] => [] end.
Fixpoint take_while {A} (p : A → bool) (l : list A) : list A :=
  match l with x :: l' => if p x then x :: take_while p l' else [] | [] => [] end.

Definition strip_l (l : list ascii) : list ascii :=
  reverse (drop_while is_space (reverse (drop_while is_space l))).
Definition py_strip (s : string) : string := text (strip_l (chars s)).

(** Split a list at every element satisfying [p] (never empty). *)
Fixpoint split_by {A} (p : A → bool) (l : list A) : list (list A) :=
  match l with
  | [] => [[]]
  | x :: l' =>
      if p x then [] :: split_by p l'
      else match split_by p l' with
           | [] => [[x]]
           | w :: ws => (x :: w) :: ws
           end
  end.

Definition non_empty {A} (l : list A) : bool := match l with [] => false | _ => true end.

(** [s.split()]: maximal runs of non-space characters. *)
Definition words_l (l : list ascii) : list (list ascii) :=
  List.filter non_empty (split_by is_space l).
Definition py_split (s : string) : list string := text <$> words_l (chars s).

Definition char_is (c x : ascii) : bool := Ascii.eqb x c.
#[global] Arguments char_is : simpl never.

(** [s.split(c)] *)
Definition py_split_on (c : ascii) (s : string) : list string :=
  text <$> split_by (char_is c) (chars s).

(** [s.split(c, 1)] where [c] occurs: the part before and the part after. *)
Fixpoint split_first {A} (p : A → bool) (l : list A) : option (list A * list A) :=
  match l with
  | [] => None
  | x :: l' =>
      if p x then Some ([], l')
      else match split_first p l' with
           | Some (a, b) => Some (x :: a, b)
           | None => None
           end
  end.
Definition py_split_once (c : ascii) (s : string) : option (string * string) :=
  match split_first (char_is c) (chars s) with
  | Some (a, b) => Some (text a, text b)
  | None => None
  end.

(** [sep.join(ws)] *)
Fixpoint join_l (sep : list ascii) (ws : list (list ascii)) : list ascii :=
  match ws with
  | [] => []
  | [w] => w
  | w :: ws' => w ++ sep ++ join_l sep ws'
  end.
Definition py_join (sep : string) (ws : list string) : string :=
  text (join_l (chars sep) (chars <$> ws)).

Fixpoint prefix_l (p l : list ascii) : bool :=
  match p, l with
  | [], _ => true
  | x :: p', y :: l' => Ascii.eqb x y && prefix_l p' l'
  | _ :: _, [] => false
  end.
Definition py_startswith (s p : string) : bool := prefix_l (chars p) (chars s).

Fixpoint infix_l (p l : list ascii) : bool :=
  prefix_l p l || match l with [] => false | _ :: l' => infix_l p l' end.
(** [p in s] *)
Definition py_contains (p s : string) : bool := infix_l (chars p) (chars s).

Definition py_has_char (c : ascii) (s : string) : bool := existsb (char_is c) (chars s).

(** [s.removeprefix(p)] *)
Definition py_removeprefix (s p : string) : string :=
  if py_startswith s p then text (drop (String.length p) (chars s)) else s.

(** [s.replace(a, b)] for single characters *)
Definition py_replace_char (a b : ascii) (s : string) : string :=
  text ((λ c, if char_is a c then b else c) <$> chars s).

(** [s[:n]] for [n >= 0] *)
Definition py_take (n : Z) (s : string) : string := text (take (Z.to_nat n) (chars s)).

(** [s.title()], on ASCII text *)
Fixpoint title_l (after_letter : bool) (l : list ascii) : list ascii :=
  match l with
  | [] => []
  | c :: l' =>
      let letter := is_upper_ascii c || is_lower_ascii c in
      (if after_letter then [lower_char c] else upper_char c) ++ title_l letter l'
  end.
Definition py_title (s : string) : string := text (title_l false (chars s)).

(** ** Integers *)

Definition digit_value (c : ascii) : option Z :=
  if is_decimal c then Some (ord c - 48)
  else if is_lower_ascii c then Some (ord c - 87)
  else if is_upper_ascii c then Some (ord c - 55)
  else None.
Definition base_digit (base : Z) (c : ascii) : option Z :=
  match digit_value c with
  | Some d => if d <? base then Some d else None
  | None => None
  end.

Definition underscore : ascii := "_"%char.

(** Digits with single underscores between them. *)
Fixpoint int_digits (base acc : Z) (l : list ascii) : option Z :=
  match l with
  | [] => Some acc
  | c :: l' =>
      match base_digit base c with
      | Some d => int_digits base (acc * base + d) l'
      | None =>
          if char_is underscore c then
            match l' with
            | c2 :: l'' =>
                match base_digit base c2 with
                | Some d => int_digits base (acc * base + d) l''
                | None => None
                end
            | [] => None
            end
          else None
      end
  end.
Definition int_body (base : Z) (l : list ascii) : option Z :=
  match l with
  | c :: l' => match base_digit base c with Some d => int_digits base d l' | None => None end
  | [] => None
  end.
Definition hex_prefix (l : list ascii) : list ascii :=
  match l with
  | z :: x :: l' =>
      if char_is "0"%char z && (char_is "x"%char x || char_is "X"%char x)
      then match l' with u :: l'' => if char_is underscore u then l'' else l' | [] => l' end
      else l
  | _ => l
  end.

(** [int(text)] refuses a decimal numeral of more than 4300 digits. *)
Definition int_max_str_digits : nat := 4300.
Definition digit_count (l : list ascii) : nat := List.length (List.filter is_decimal l).

(** [int(s, base)]; [None] is [ValueError]. *)
Definition py_int (base : Z) (s : string) : option Z :=
  let l := strip_l (chars s) in
  let '(neg, l1) :=
    match l with
    | c :: l' => if char_is "-"%char c then (true, l')
                 else if char_is "+"%char c then (false, l') else (false, l)
    | [] => (false, l)
    end in
  let l2 := if base =? 16 then hex_prefix l1 else l1 in
  if (base =? 10) && Nat.ltb int_max_str_digits (digit_count l2) then None
  else match int_body base l2 with
       | Some v => Some (if neg then - v else v)
       | None => None
       end.

(** ** Formatting *)

Definition digit_char (d : Z) : ascii := if d <? 10 then chr (d + 48) else chr (d + 87).
(** The digits of [z >= 0], most significant first, in front of [acc]. *)
Fixpoint digits_of (base : Z) (fuel : nat) (z : Z) (acc : list ascii) : list ascii :=
  match fuel with
  | O => acc
  | S f => if z <? base then digit_char z :: acc
           else digits_of base f (z / base) (digit_char (z mod base) :: acc)
  end.
Definition numeral (base z : Z) : list ascii :=
  digits_of base (S (Z.to_nat (Z.log2 z))) z [].
Definition zero_pad (width : nat) (ds : list ascii) : string :=
  text (repeat "0"%char (width - List.length ds) ++ ds).

(** [str(z)] *)
Definition py_str_int (z : Z) : string :=
  text (if z <? 0 then "-"%char :: numeral 10 (- z) else numeral 10 z).
(** [f"{z:0{width}x}"] and [f"{z:0{width}d}"] for [z >= 0] *)
Definition py_hex (width : nat) (z : Z) : string := zero_pad width (numeral 16 z).
Definition py_dec (width : nat) (z : Z) : string := zero_pad width (numeral 10 z).

Definition is_printable (c : ascii) : bool :=
  in_range 32 126 c || (in_range 161 255 c && negb (ord c =? 173)).
Definition squote : ascii := "'"%char.
Definition dquote : ascii := chr 34.
Definition backslash : ascii := "\"%char.
Definition repr_char (quote c : ascii) : list ascii :=
  if char_is quote c || char_is backslash c then [backslash; c]
  else if ord c =? 9 then [backslash; "t"%char]
  else if ord c =? 10 then [backslash; "n"%char]
  else if ord c =? 13 then [backslash; "r"%char]
  else if is_printable c then [c]
  else backslash :: "x"%char :: chars (py_hex 2 (ord c)).
(** [repr(s)] *)
Definition py_repr (s : string) : string :=
  let l := chars s in
  let q := if existsb (char_is squote) l && negb (existsb (char_is dquote) l)
           then dquote else squote in
  text ([q] ++ (l ≫= repr_char q) ++ [q]).

(** Lexicographic order by code point, as [<] on Python strings. *)
Fixpoint chars_leb (a b : list ascii) : bool :=
  match a, b with
  | [], _ => true
  | _ :: _, [] => false
  | x :: a', y :: b' =>
      if ord x <? ord y then true
      else if ord y <? ord x then false else chars_leb a' b'
  end.
Definition str_leb (a b : string) : bool := chars_leb (chars a) (chars b).

(** ** Lemmas *)

Lemma chars_text l : chars (text l) = l.
Proof. apply list_ascii_of_string_of_list_ascii. Qed.
Lemma text_chars s : text (chars s) = s.
Proof. apply string_of_list_ascii_of_string. Qed.
#[export] Hint Rewrite chars_text text_chars : pyrw.

Lemma text_inj l1 l2 : text l1 = text l2 → l1 = l2.
Proof. intros H. by rewrite <-(chars_text l1), H, chars_text. Qed.
Lemma chars_inj s1 s2 : chars s1 = chars s2 → s1 = s2.
Proof. intros H. by rewrite <-(text_chars s1), H, text_chars. Qed.

Lemma char_is_true c x : char_is c x = true ↔ x = c.
Proof. apply Ascii.eqb_eq. Qed.

Lemma ord_bounds c : 0 <= ord c < 256.
Proof. unfold ord. pose proof (N_ascii_bounded c). lia. Qed.
Lemma ord_inj a b : ord a = ord b → a = b.
Proof.
  unfold ord. intros H. apply N2Z.inj in H.
  by rewrite <-(ascii_N_embedding a), H, ascii_N_embedding.
Qed.
Lemma ord_chr z : 0 <= z < 256 → ord (chr z) = z.
Proof.
  intros. unfold ord, chr. rewrite N_ascii_embedding by lia. lia.
Qed.

Section splitting.
Context {A : Type} (p : A → bool).

Lemma split_by_ne l : split_by p l ≠ [].
Proof. destruct l; simpl; [done|]. destruct (p a), (split_by p l); done. Qed.

Lemma split_by_clean l : Forall (λ w, forallb (λ x, negb (p x)) w = true) (split_by p l).
Proof.
induction l as [|x l IH]; simpl; [by repeat constructor|].
destruct (p x) eqn:Hx; [by constructor|].
destruct (split_by p l) as [|w ws]; [repeat constructor; simpl; by rewrite Hx|].
inversion IH; subst. constructor; [simpl; by rewrite Hx|done].
Qed.

Lemma split_by_none l : forallb (λ x, negb (p x)) l = true → split_by p l = [l].
Proof.
induction l as [|x l IH]; simpl; [done|].
intros [Hx Hl]%andb_true_iff. apply negb_true_iff in Hx.
by rewrite Hx, IH.
Qed.

Lemma split_by_app w x l :
forallb (λ x, negb (p x)) w = true → p x = true →
split_by p (w ++ x :: l) = w :: split_by p l.
Proof.
intros Hw Hx. induction w as [|y w IH]; simpl in *; [by rewrite Hx|].
apply andb_true_iff in Hw as [Hy Hw]. apply negb_true_iff in Hy.
rewrite Hy. by rewrite IH.
Qed.

Lemma split_by_join x ws :
p x = true → Forall (λ w, forallb (λ x, negb (p x)) w = true) ws → ws ≠ [] →
split_by p (match ws with [] => [] | w :: ws' => w ++ (ws' ≫= cons x) end) = ws.
Proof.
intros Hx H. induction H as [|w ws Hw Hws IH]; [done|]. intros _.
destruct ws as [|w2 ws]; simpl.
- rewrite app_nil_r. by apply split_by_none.
- rewrite split_by_app by done. f_equal. by apply IH.
Qed.
End splitting.

Lemma join_l_bind x ws :
  join_l [x] ws = match ws with [] => [] | w :: ws' => w ++ (ws' ≫= cons x) end.
Proof.
  destruct ws as [|w ws]; [done|].
  revert w; induction ws as [|w2 ws IH]; intros w; [simpl; by rewrite app_nil_r|].
  change (join_l [x] (w :: w2 :: ws)) with (w ++ [x] ++ join_l [x] (w2 :: ws)).
  by rewrite IH.
Qed.

(** Splitting undoes joining, for pieces without the separator. *)
Lemma split_by_join_l p x ws :
  p x = true → Forall (λ w, forallb (λ x, negb (p x)) w = true) ws → ws ≠ [] →
  split_by p (join_l [x] ws) = ws.
Proof. intros. rewrite join_l_bind. by apply split_by_join. Qed.

Lemma words_l_spec l :
  Forall (λ w, non_empty w = true ∧ forallb (λ x, negb (is_space x)) w = true) (words_l l).
Proof.
  unfold words_l. pose proof (split_by_clean is_space l) as H.
  induction H as [|w ws Hw _ IH]; simpl; [done|].
  destruct (non_empty w) eqn:E; [by constructor|done].
Qed.

(** Normalising white space with [" ".join(s.split())] is idempotent. *)
Lemma words_join l : words_l (join_l [" "%char] (words_l l)) = words_l l.
Proof.
  pose proof (words_l_spec l) as H. unfold words_l at 1.
  destruct (words_l l) as [|w ws] eqn:E; [done|].
  rewrite split_by_join_l; [|done| |done].
  - apply filter_all. eapply Forall_impl; [exact H|]. by intros ? [].
  - eapply Forall_impl; [exact H|]. by intros ? [].
Qed.

(** ** The order on strings *)

Lemma chars_leb_refl a : chars_leb a a = true.
Proof. induction a as [|x a IH]; simpl; [done|]. by rewrite Z.ltb_irrefl. Qed.

Lemma chars_leb_total a b : chars_leb a b = true ∨ chars_leb b a = true.
Proof.
  revert b; induction a as [|x a IH]; intros [|y b]; simpl; auto.
  destruct (Z.ltb_spec (ord x) (ord y)), (Z.ltb_spec (ord y) (ord x)); auto; lia.
Qed.

Lemma chars_leb_antisym a b : chars_leb a b = true → chars_leb b a = true → a = b.
Proof.
  revert b; induction a as [|x a IH]; intros [|y b]; simpl; try done.
  destruct (Z.ltb_spec (ord x) (ord y)), (Z.ltb_spec (ord y) (ord x)); try done; try lia.
  intros. rewrite (ord_inj x y) by lia. f_equal. auto.
Qed.

Lemma chars_leb_trans a b c :
  chars_leb a b = true → chars_leb b c = true → chars_leb a c = true.
Proof.
  revert b c; induction a as [|x a IH]; intros [|y b] [|z c]; simpl; try done.
  destruct (Z.ltb_spec (ord x) (ord y)), (Z.ltb_spec (ord y) (ord x)),
    (Z.ltb_spec (ord y) (ord z)), (Z.ltb_spec (ord z) (ord y)),
    (Z.ltb_spec (ord x) (ord z)), (Z.ltb_spec (ord z) (ord x)); try done; try lia.
  apply IH.
Qed.

Lemma str_leb_refl a : str_leb a a = true.
Proof. apply chars_leb_refl. Qed.
Lemma str_leb_total a b : str_leb a b = true ∨ str_leb b a = true.
Proof. apply chars_leb_total. Qed.
Lemma str_leb_antisym a b : str_leb a b = true → str_leb b a = true → a = b.
Proof. intros. by apply chars_inj, chars_leb_antisym. Qed.
Lemma str_leb_trans a b c : str_leb a b = true → str_leb b c = true → str_leb a c = true.
Proof. apply chars_leb_trans. Qed.

(** ** Numerals are read back *)

Lemma digit_chars_checked :
  forall_from (λ d, match digit_value (digit_char d) with
                    | Some v => (v =? d) && is_alnum_ascii (digit_char d)
                                && negb (is_space (digit_char d))
                                && (if d <? 10 then is_decimal (digit_char d) else true)
                    | None => false end) 36 0 = true.
Proof. vm_compute. reflexivity. Qed.

Lemma digit_char_spec d :
  0 <= d < 36 →
  digit_value (digit_char d) = Some d ∧ is_space (digit_char d) = false
  ∧ is_alnum_ascii (digit_char d) = true ∧ (d < 10 → is_decimal (digit_char d) = true).
Proof.
  intros H. pose proof (forall_from_spec _ _ _ digit_chars_checked d ltac:(lia)) as E.
  cbv beta in E. destruct (digit_value _) as [v|]; [|done]. to_prop.
  split_and!; [by subst|done|done|]. intros Hd.
  by rewrite (proj2 (Z.ltb_lt d 10) Hd) in *.
Qed.

Lemma base_digit_char base d : 0 <= d < base → base <= 36 → base_digit base (digit_char d) = Some d.
Proof.
  intros. unfold base_digit. destruct (digit_char_spec d) as (-> & _); [lia|].
  by destruct (Z.ltb_spec d base); [|lia].
Qed.

Section numerals.
Context (base : Z) (Hbase : 2 <= base <= 36).

Definition digit_of_base (c : ascii) : Prop := ∃ d, 0 <= d < base ∧ c = digit_char d.

Lemma digits_of_spec fuel z acc :
0 <= z < 2 ^ Z.of_nat fuel → (0 < fuel)%nat →
∃ ds, digits_of base fuel z acc = ds ++ acc ∧ ds ≠ [] ∧ Forall digit_of_base ds
  ∧ (List.length ds <= fuel)%nat
  ∧ ∀ a l, int_digits base a (ds ++ l) = int_digits base (a * base ^ Z.of_nat (List.length ds) + z) l.
Proof.
revert z acc; induction fuel as [|f IH]; intros z acc Hz Hf; [lia|]. simpl.
destruct (Z.ltb_spec z base).
- exists [digit_char z]. split_and!; [done|done| |simpl; lia|].
  + constructor; [exists z; split; [lia|done]|done].
  + intros a l. simpl. rewrite base_digit_char by lia. f_equal. lia.
- assert (0 <= z / base < 2 ^ Z.of_nat f) as Hq.
  { split; [apply Z.div_pos; lia|]. apply Z.div_lt_upper_bound; [lia|].
    rewrite Nat2Z.inj_succ, Z.pow_succ_r in Hz by lia. nia. }
  assert (0 < f)%nat as Hf'.
  { destruct f; [|lia]. assert (1 <= z / base); [|simpl in *; lia].
    apply Z.div_le_lower_bound; lia. }
  pose proof (Z.mod_pos_bound z base ltac:(lia)) as Hm.
  destruct (IH (z / base) (digit_char (z mod base) :: acc) Hq Hf') as (ds & -> & Hne & HF & Hlen & Hint).
  exists (ds ++ [digit_char (z mod base)]). split_and!.
  + by rewrite <-app_assoc.
  + by destruct ds.
  + apply Forall_app. split; [done|]. constructor; [|done]. by exists (z mod base).
  + rewrite length_app. simpl. lia.
  + intros a l. rewrite <-app_assoc, Hint. simpl. rewrite base_digit_char by lia. f_equal.
    rewrite length_app, Nat2Z.inj_add, Z.pow_add_r by lia. simpl Z.of_nat.
    rewrite Z.pow_1_r. pose proof (Z.div_mod z base ltac:(lia)). nia.
Qed.

Lemma numeral_spec z :
0 <= z →
numeral base z ≠ [] ∧ Forall digit_of_base (numeral base z)
∧ (List.length (numeral base z) <= S (Z.to_nat (Z.log2 z)))%nat
∧ int_digits base 0 (numeral base z) = Some z.
Proof.
intros Hz. unfold numeral.
destruct (digits_of_spec (S (Z.to_nat (Z.log2 z))) z []) as (ds & -> & ? & ? & ? & Hint); [|lia|].
- split; [done|]. rewrite Nat2Z.inj_succ, Z2Nat.id by apply Z.log2_nonneg.
  destruct (Z.eq_dec z 0) as [->|]; [done|]. apply Z.log2_spec. lia.
- rewrite app_nil_r. split_and!; try done.
  specialize (Hint 0 []). rewrite app_nil_r in Hint. by rewrite Hint.
Qed.

Lemma digit_of_base_spec c :
digit_of_base c → is_space c = false ∧ is_alnum_ascii c = true ∧ is_Some (base_digit base c)
∧ (base <= 10 → is_decimal c = true).
Proof.
intros (d & Hd & ->). destruct (digit_char_spec d) as (_ & ? & ? & Hdec); [lia|].
rewrite base_digit_char by lia. split_and!; eauto. intros ?. apply Hdec. lia.
Qed.
End numerals.

Lemma drop_while_none {A} (p : A → bool) l : Forall (λ x, p x = false) l → drop_while p l = l.
Proof. destruct 1 as [|x l Hx]; simpl; [done|]. by rewrite Hx. Qed.

Lemma strip_l_none l : Forall (λ c, is_space c = false) l → strip_l l = l.
Proof.
  intros H. unfold strip_l. rewrite (drop_while_none _ l) by done.
  rewrite drop_while_none; [apply reverse_involutive|]. by apply Forall_reverse.
Qed.

Lemma alnum_not_sign c : is_alnum_ascii c = true → char_is "-"%char c = false ∧ char_is "+"%char c = false.
Proof.
  intros H. split; apply not_true_is_false; intros ->%char_is_true; discriminate.
Qed.

(** [int(str(z)) = z] for the numerals [int] accepts. *)
Lemma py_int_numeral z : 0 <= z < 2 ^ 4000 → py_int 10 (text (numeral 10 z)) = Some z.
Proof.
  intros Hz. destruct (numeral_spec 10 ltac:(lia) z ltac:(lia)) as (Hne & HF & Hlen & Hint).
  unfold py_int. rewrite chars_text.
  assert (Forall (λ c, is_space c = false ∧ is_alnum_ascii c = true ∧ is_Some (base_digit 10 c)
    ∧ (10 <= 10 → is_decimal c = true)) (numeral 10 z)) as HF'.
  { eapply Forall_impl; [exact HF|]. intros c. apply digit_of_base_spec. lia. }
  rewrite strip_l_none by (eapply Forall_impl; [exact HF'|by intros ? (? & _)]).
  assert (Nat.ltb int_max_str_digits (digit_count (numeral 10 z)) = false) as Hcount.
  { apply Nat.ltb_ge. unfold digit_count, int_max_str_digits.
    etrans; [apply List.filter_length_le|]. etrans; [exact Hlen|].
    assert (Z.log2 z < 4000); [|lia].
    destruct (Z.eq_dec z 0) as [->|]; [done|]. apply Z.log2_lt_pow2; lia. }
  destruct (numeral 10 z) as [|c l]; [done|].
  inversion HF' as [|?? (_ & Ha & [d Hd] & _)]; subst.
  destruct (alnum_not_sign c Ha) as [-> ->]. cbn [Z.eqb Pos.eqb andb]. rewrite Hcount.
  simpl in Hint. rewrite Hd in Hint. cbn [int_body]. rewrite Hd.
  change (0 * 10 + d) with d in Hint. by rewrite Hint.
Qed.

Lemma split_first_app {A} (p : A → bool) w x l :
  forallb (λ y, negb (p y)) w = true → p x = true → split_first p (w ++ x :: l) = Some (w, l).
Proof.
  intros Hw Hx. induction w as [|y w IH]; simpl in *; [by rewrite Hx|].
  apply andb_true_iff in Hw as [Hy%negb_true_iff Hw]. by rewrite Hy, IH.
Qed.
Lemma split_first_none {A} (p : A → bool) w :
  forallb (λ y, negb (p y)) w = true → split_first p w = None.
Proof.
  induction w as [|y w IH]; simpl; [done|].
  intros [Hy%negb_true_iff Hw]%andb_true_iff. by rewrite Hy, IH.
Qed.

Lemma py_split_once_text c w l :
  forallb (λ x, negb (char_is c x)) w = true →
  py_split_once c (text (w ++ c :: l)) = Some (text w, text l).
Proof.
  intros H. unfold py_split_once. rewrite chars_text, split_first_app; [done|done|].
  by apply char_is_true.
Qed.
Lemma py_split_once_none c w :
  forallb (λ x, negb (char_is c x)) w = true → py_split_once c (text w) = None.
Proof. intros H. unfold py_split_once. by rewrite chars_text, split_first_none. Qed.

Lemma numeral_decimal z : 0 <= z →
  numeral 10 z ≠ [] ∧ forallb is_decimal (numeral 10 z) = true.
Proof.
  intros Hz. destruct (numeral_spec 10 ltac:(done) z Hz) as (? & HF & _). split; [done|].
  apply forallb_forall. intros c Hc%list_elem_of_In. rewrite Forall_forall in HF.
  eapply digit_of_base_spec; [|by apply HF|done]. done.
Qed.

(** A numeral holds no other character. *)
Lemma numeral_clean c z : 0 <= z → is_decimal c = false →
  forallb (λ x, negb (char_is c x)) (numeral 10 z) = true.
Proof.
  intros [_ H]%numeral_decimal Hc. apply forallb_forall. intros x Hx.
  apply negb_true_iff, not_true_is_false. intros ->%char_is_true.
  eapply forallb_forall in H; [|exact Hx]. congruence.
Qed.

Lemma py_isdigit_numeral z : 0 <= z → py_isdigit (text (numeral 10 z)) = true.
Proof.
  intros [Hne H]%numeral_decimal. unfold py_isdigit. rewrite chars_text.
  destruct (numeral 10 z) as [|c l]; [done|]. apply forallb_forall. intros x Hx.
  unfold is_digit. eapply forallb_forall in H as ->; done.
Qed.

Lemma py_split_normal s : py_split (py_join " " (py_split s)) = py_split s.
Proof.
  unfold py_split, py_join. rewrite chars_text. f_equal.
  rewrite <-(words_join (chars s)) at 2. f_equal. f_equal.
  rewrite <-list_fmap_compose. rewrite <-(list_fmap_id (words_l (chars s))) at 2.
  apply list_fmap_ext. intros i w _. simpl. apply chars_text.
Qed.

(** ** Hexadecimal numerals *)

Definition hex_chars (width : nat) (z : Z) : list ascii :=
  repeat "0"%char (width - List.length (numeral 16 z)) ++ numeral 16 z.

Lemma chars_hex width z : chars (py_hex width z) = hex_chars width z.
Proof. apply chars_text. Qed.

(** What is true of a hexadecimal digit as [py_hex] writes it. *)
Definition hex_digit_ok (c : ascii) : bool :=
  (is_decimal c || in_range 97 102 c) && negb (is_space c) && is_alnum_ascii c
  && bool_decide (lower_char c = c) && negb (char_is "x"%char c) && negb (char_is "X"%char c)
  && match base_digit 16 c with Some _ => true | None => false end.
Lemma hex_digits_checked : forall_from (λ d, hex_digit_ok (digit_char d)) 16 0 = true.
Proof. vm_compute. reflexivity. Qed.
Lemma hex_digit_ok_spec c : digit_of_base 16 c → hex_digit_ok c = true.
Proof. intros (d & Hd & ->). apply (forall_from_spec _ _ _ hex_digits_checked d). lia. Qed.

Lemma hex_chars_spec width z : 0 <= z →
  hex_chars width z ≠ [] ∧ forallb hex_digit_ok (hex_chars width z) = true.
Proof.
  intros Hz. destruct (numeral_spec 16 ltac:(lia) z Hz) as (Hne & HF & _). split.
  - unfold hex_chars. intros [_ ?]%app_nil. done.
  - unfold hex_chars. rewrite forallb_app. apply andb_true_iff. split.
    + apply forallb_forall. intros c ->%repeat_spec. reflexivity.
    + apply forallb_forall. intros c Hc%list_elem_of_In. rewrite Forall_forall in HF.
      by apply hex_digit_ok_spec, HF.
Qed.

Lemma int_digits_zeros n l : int_digits 16 0 (repeat "0"%char n ++ l) = int_digits 16 0 l.
Proof. induction n as [|n IH]; [done|]. cbn [repeat app int_digits]. apply IH. Qed.

Lemma hex_prefix_digits l : forallb hex_digit_ok l = true → hex_prefix l = l.
Proof.
  intros H. destruct l as [|a [|b l]]; [done|done|]. simpl in *.
  assert (char_is "x"%char b = false ∧ char_is "X"%char b = false) as [-> ->].
  { apply andb_true_iff in H as [_ [Hb _]%andb_true_iff]. unfold hex_digit_ok in Hb.
    to_prop. done. }
  by rewrite andb_false_r.
Qed.

Lemma hex_chars_digit width z : 0 <= z → ∀ c, c ∈ hex_chars width z → hex_digit_ok c = true.
Proof. intros [_ H]%(hex_chars_spec width) c Hc%list_elem_of_In. eapply forallb_forall in H; done. Qed.

(** [int(f"{z:0{width}x}", 16) = z] *)
Lemma py_int_hex_chars width z : 0 <= z → py_int 16 (text (hex_chars width z)) = Some z.
Proof.
  intros Hz. destruct (hex_chars_spec width z Hz) as [Hne HF].
  unfold py_int. rewrite chars_text. rewrite strip_l_none.
  2: { apply List.Forall_forall. intros c Hc. apply forallb_forall with (x := c) in HF; [|done].
       unfold hex_digit_ok in HF. by to_prop. }
  assert (int_digits 16 0 (hex_chars width z) = Some z) as Hint.
  { unfold hex_chars. rewrite int_digits_zeros. by apply (numeral_spec 16). }
  destruct (hex_chars width z) as [|c l]; [done|].
  assert (is_alnum_ascii c = true ∧ is_Some (base_digit 16 c)) as [Ha [d Hd]].
  { simpl in HF. apply andb_true_iff in HF as [Hc _]. unfold hex_digit_ok in Hc. to_prop.
    destruct (base_digit 16 c) eqn:E; by eauto. }
  destruct (alnum_not_sign c Ha) as [-> ->]. cbn [Z.eqb Pos.eqb andb].
  rewrite hex_prefix_digits by done. cbn [int_body]. rewrite Hd.
  cbn [int_digits] in Hint. rewrite Hd in Hint. change (0 * 16 + d) with d in Hint. by rewrite Hint.
Qed.
Lemma py_int_hex width z : 0 <= z → py_int 16 (py_hex width z) = Some z.
Proof. apply py_int_hex_chars. Qed.

Lemma chars_app s t : chars (s +:+ t) = chars s ++ chars t.
Proof. induction s as [|c s IH]; [done|]. exact (f_equal (cons c) IH). Qed.
Lemma text_app l1 l2 : text (l1 ++ l2) = text l1 +:+ text l2.
Proof. apply chars_inj. by rewrite chars_app, !chars_text. Qed.

(** Texts that [strip] and [lower] leave alone. *)
Lemma py_lower_id s : Forall (λ c, lower_char c = c) (chars s) → py_lower s = s.
Proof.
  intros H. apply chars_inj. unfold py_lower. rewrite chars_text.
  rewrite <-(list_fmap_id (chars s)) at 2. by apply Forall_fmap_ext.
Qed.
Lemma py_strip_id s : Forall (λ c, is_space c = false) (chars s) → py_strip s = s.
Proof. intros H. unfold py_strip. rewrite strip_l_none by done. apply text_chars. Qed.
Lemma py_strip_hex width z : 0 <= z → py_strip (py_hex width z) = py_hex width z.
Proof.
  intros Hz. apply py_strip_id, Forall_forall. rewrite chars_hex.
  intros c Hc%(hex_chars_digit width z Hz). unfold hex_digit_ok in Hc. by to_prop.
Qed.
Lemma py_lower_hex width z : 0 <= z → py_lower (py_hex width z) = py_hex width z.
Proof.
  intros Hz. apply py_lower_id, Forall_forall. rewrite chars_hex.
  intros c Hc%(hex_chars_digit width z Hz). unfold hex_digit_ok in Hc. by to_prop.
Qed.
Lemma py_lower_app s t : py_lower (s +:+ t) = py_lower s +:+ py_lower t.
Proof. unfold py_lower. by rewrite chars_app, fmap_app, text_app. Qed.
