(* ===== verification/Calendar.v ===== *)
(** * The proleptic Gregorian calendar

    What the scheduler uses of Python's [datetime]: day ordinals (1 is
    0001-01-01), the month, day and weekday of an ordinal, and the range of
    representable days.  [ord2ymd] and [ymd2ord] follow the interpreter's own
    algorithm; [ymd2ord_ord2ymd] shows that they agree on every day. *)

From S2P Require Import Prelude.
#[local] Open Scope Z_scope.

Definition di400y : Z := 146097.
Definition di100y : Z := 36524.
Definition di4y : Z := 1461.
(** [date.max.toordinal()], 9999-12-31. *)
Definition max_ordinal : Z := 3652059.

Definition is_leap (y : Z) : bool :=
  (y mod 4 =? 0) && (negb (y mod 100 =? 0) || (y mod 400 =? 0)).

Definition days_before_month_table : list Z :=
  [0; 0; 31; 59; 90; 120; 151; 181; 212; 243; 273; 304; 334].
Definition days_before_month_common (m : Z) : Z :=
  default 0 (days_before_month_table !! Z.to_nat m).
Definition days_in_month_table : list Z :=
  [0; 31; 28; 31; 30; 31; 30; 31; 31; 30; 31; 30; 31].
Definition days_in_month_leap (leap : bool) (m : Z) : Z :=
  default 0 (days_in_month_table !! Z.to_nat m)
    + (if leap && (m =? 2) then 1 else 0).
Definition days_before_month (leap : bool) (m : Z) : Z :=
  days_before_month_common m + (if leap && (2 <? m) then 1 else 0).

Definition days_before_year (y : Z) : Z :=
  let y := y - 1 in y * 365 + y / 4 - y / 100 + y / 400.
Definition ymd2ord (y m d : Z) : Z :=
  days_before_year y + days_before_month (is_leap y) m + d.

(** Month and day of the 0-based day [n] of a year: an estimate that is exact
    or one month too large. *)
Definition year_md (leap : bool) (n : Z) : Z * Z :=
  let month := Z.shiftr (n + 50) 5 in
  let preceding := days_before_month leap month in
  if n <? preceding
  then (month - 1, n - (preceding - days_in_month_leap leap (month - 1)) + 1)
  else (month, n - preceding + 1).

(** Year within the 400-year cycle, month and day of the 0-based day [n] of a
    cycle. *)
Definition cycle_ymd (n : Z) : Z * Z * Z :=
  let n100 := n / di100y in let n := n mod di100y in
  let n4 := n / di4y in let n := n mod di4y in
  let n1 := n / 365 in let n := n mod 365 in
  let year := n100 * 100 + n4 * 4 + n1 in
  if (n1 =? 4) || (n100 =? 4) then (year - 1, 12, 31)
  else
    let leap := (n1 =? 3) && (negb (n4 =? 24) || (n100 =? 3)) in
    let '(month, day) := year_md leap n in (year, month, day).

Definition ord2ymd (o : Z) : Z * Z * Z :=
  let n := o - 1 in
  let '(y, m, d) := cycle_ymd (n mod di400y) in
  (n / di400y * 400 + 1 + y, m, d).

Definition month_of (o : Z) : Z := snd (fst (ord2ymd o)).
Definition day_of (o : Z) : Z := snd (ord2ymd o).
(** [date.weekday()]: Monday is 0. *)
Definition weekday_of (o : Z) : Z := (o + 6) mod 7.

Example epoch_2000 : ymd2ord 2000 1 1 = 730120 ∧ ord2ymd 730120 = (2000, 1, 1)
  ∧ weekday_of 730120 = 5 ∧ ord2ymd max_ordinal = (9999, 12, 31).
Proof. vm_compute. tauto. Qed.

(** ** The 400-year period *)

Lemma month_of_cycle o : month_of o = snd (fst (cycle_ymd ((o - 1) mod di400y))).
Proof. unfold month_of, ord2ymd. by destruct (cycle_ymd _) as [[??]?]. Qed.
Lemma day_of_cycle o : day_of o = snd (cycle_ymd ((o - 1) mod di400y)).
Proof. unfold day_of, ord2ymd. by destruct (cycle_ymd _) as [[??]?]. Qed.

Lemma sub1_mod_congr a b n : a mod n = b mod n → (a - 1) mod n = (b - 1) mod n.
Proof. intros H. by rewrite Zminus_mod, H, <-Zminus_mod. Qed.

Lemma month_of_period a b : a mod di400y = b mod di400y → month_of a = month_of b.
Proof. intros H. by rewrite !month_of_cycle, (sub1_mod_congr a b). Qed.
Lemma day_of_period a b : a mod di400y = b mod di400y → day_of a = day_of b.
Proof. intros H. by rewrite !day_of_cycle, (sub1_mod_congr a b). Qed.
Lemma weekday_of_period a b : a mod di400y = b mod di400y → weekday_of a = weekday_of b.
Proof.
  unfold weekday_of, di400y. intros H.
  pose proof (Z.div_mod a 146097 ltac:(lia)).
  pose proof (Z.div_mod b 146097 ltac:(lia)).
  replace (a + 6) with (b + 6 + ((a / 146097 - b / 146097) * 20871) * 7) by lia.
  by rewrite Z.mod_add by lia.
Qed.

(** ** The algorithm is right on every day *)

Definition year_day_ok (leap : bool) (n : Z) : bool :=
  let '(m, d) := year_md leap n in
  (1 <=? m) && (m <=? 12) && (1 <=? d) && (d <=? days_in_month_leap leap m)
  && (days_before_month leap m + d =? n + 1).

Lemma year_days_checked :
  forall_from (year_day_ok true) 366 0 && forall_from (year_day_ok false) 365 0 = true.
Proof. vm_compute. reflexivity. Qed.

Lemma year_day leap n m d :
  year_md leap n = (m, d) → 0 <= n < 365 + (if leap then 1 else 0) →
  1 <= m <= 12 ∧ 1 <= d <= days_in_month_leap leap m ∧
  days_before_month leap m + d = n + 1.
Proof.
  intros E Hn. pose proof year_days_checked as [Ht Hf]%andb_true_iff.
  assert (year_day_ok leap n = true) as H.
  { destruct leap; [apply (forall_from_spec _ _ _ Ht)|apply (forall_from_spec _ _ _ Hf)]; lia. }
  unfold year_day_ok in H. rewrite E in H. to_prop. lia.
Qed.

(** Leap years and elapsed days from the digits of the cycle. *)
Lemma cycle_year n100 n4 n1 :
  0 <= n100 <= 3 → 0 <= n4 <= 24 → 0 <= n1 <= 3 →
  is_leap (n100 * 100 + n4 * 4 + n1 + 1) = (n1 =? 3) && (negb (n4 =? 24) || (n100 =? 3)) ∧
  days_before_year (n100 * 100 + n4 * 4 + n1 + 1) = n100 * di100y + n4 * di4y + n1 * 365.
Proof.
  intros H100 H4 H1. unfold is_leap, days_before_year, di100y, di4y. split.
  - destruct (Z.eqb_spec n1 3), (Z.eqb_spec n4 24), (Z.eqb_spec n100 3);
      repeat (match goal with |- context [?a =? 0] => destruct (Z.eqb_spec a 0) end);
      simpl; try done; exfalso; Z.div_mod_to_equations; lia.
  - Z.div_mod_to_equations; lia.
Qed.

Lemma cycle_day n y m d :
  0 <= n < di400y → cycle_ymd n = (y, m, d) →
  1 <= m <= 12 ∧ 1 <= d <= days_in_month_leap (is_leap (y + 1)) m ∧
  days_before_year (y + 1) + days_before_month (is_leap (y + 1)) m + d = n + 1.
Proof.
  unfold cycle_ymd, di400y. intros Hn.
  set (n100 := n / di100y). set (r100 := n mod di100y).
  set (n4 := r100 / di4y). set (r4 := r100 mod di4y).
  set (n1 := r4 / 365). set (r1 := r4 mod 365).
  assert (n = n100 * di100y + n4 * di4y + n1 * 365 + r1 ∧ 0 <= r1 < 365
    ∧ 0 <= n100 <= 4 ∧ 0 <= n4 <= 24 ∧ 0 <= n1 <= 4
    ∧ (n100 = 4 → n4 = 0 ∧ n1 = 0 ∧ r1 = 0)
    ∧ (n1 = 4 → r1 = 0 ∧ (n4 = 24 → n100 = 3))) as (En & Hr1 & H100 & H4 & H1 & E100 & E1).
  { subst r1 n1 r4 n4 r100 n100. unfold di100y, di4y. Z.div_mod_to_equations. lia. }
  clearbody n100 r100 n4 r4 n1 r1. clear r100 r4.
  destruct (Z.eqb_spec n1 4) as [->|Hn1]; [|destruct (Z.eqb_spec n100 4) as [->|Hn100]]; simpl.
  - intros [= <- <- <-].
    destruct (cycle_year n100 n4 3) as [HL HD]; [lia..|].
    replace (n100 * 100 + n4 * 4 + 4 - 1 + 1) with (n100 * 100 + n4 * 4 + 3 + 1) by lia.
    rewrite HL, HD. replace (3 =? 3) with true by done.
    assert (negb (n4 =? 24) || (n100 =? 3) = true) as -> by
      (destruct (Z.eqb_spec n4 24), (Z.eqb_spec n100 3); try done; lia).
    vm_compute (days_in_month_leap _ _). vm_compute (days_before_month _ _). lia.
  - intros [= <- <- <-]. destruct E100 as (-> & -> & ->); [done|].
    subst n. split; [lia|]. split; vm_compute; split; congruence || done.
  - destruct (cycle_year n100 n4 n1) as [HL HD]; [lia..|].
    destruct (year_md _ r1) as [m' d'] eqn:E. intros [= <- <- <-].
    rewrite <-HL in E. rewrite HD. apply year_day in E; [lia|].
    destruct (is_leap _); lia.
Qed.

Lemma is_leap_period y k : is_leap (k * 400 + y) = is_leap y.
Proof.
  unfold is_leap.
  replace ((k * 400 + y) mod 4) with (y mod 4)
    by (rewrite <-(Z.mod_add y (k * 100) 4) by lia; f_equal; lia).
  replace ((k * 400 + y) mod 100) with (y mod 100)
    by (rewrite <-(Z.mod_add y (k * 4) 100) by lia; f_equal; lia).
  replace ((k * 400 + y) mod 400) with (y mod 400)
    by (rewrite <-(Z.mod_add y k 400) by lia; f_equal; lia).
  done.
Qed.

Lemma days_before_year_period y k :
  days_before_year (k * 400 + y) = k * di400y + days_before_year y.
Proof.
  unfold days_before_year, di400y.
  replace (k * 400 + y - 1) with (y - 1 + (k * 100) * 4) by lia.
  rewrite Z.div_add by lia.
  replace (y - 1 + k * 100 * 4) with (y - 1 + (k * 4) * 100) by lia.
  rewrite Z.div_add by lia.
  replace (y - 1 + k * 4 * 100) with (y - 1 + k * 400) by lia.
  rewrite Z.div_add by lia. lia.
Qed.

Lemma ord2ymd_valid o y m d :
  ord2ymd o = (y, m, d) →
  1 <= m <= 12 ∧ 1 <= d <= days_in_month_leap (is_leap y) m ∧ ymd2ord y m d = o.
Proof.
  unfold ord2ymd.
  pose proof (Z.mod_pos_bound (o - 1) di400y ltac:(done)) as Hb.
  destruct (cycle_ymd _) as [[y0 m0] d0] eqn:E. intros [= <- <- <-].
  apply cycle_day in E; [|done]. set (k := (o - 1) / di400y) in *.
  replace (k * 400 + 1 + y0) with (k * 400 + (y0 + 1)) by lia.
  unfold ymd2ord. rewrite is_leap_period, days_before_year_period.
  pose proof (Z.div_mod (o - 1) di400y ltac:(done)). lia.
Qed.

Lemma month_of_bounds o : 1 <= month_of o <= 12.
Proof.
  unfold month_of. destruct (ord2ymd o) as [[y m] d] eqn:E.
  by apply ord2ymd_valid in E as (? & _).
Qed.

(** Every ordinal is the ordinal of the date [ord2ymd] gives. *)
Lemma ymd2ord_ord2ymd o : let '(y, m, d) := ord2ymd o in ymd2ord y m d = o.
Proof.
  destruct (ord2ymd o) as [[y m] d] eqn:E.
  by apply ord2ymd_valid in E as (_ & _ & ?).
Qed.
