(* ===== verification/Cron.v ===== *)
(** * The five-field cron schedule of full backups

    [history_service/backup_archive/cron.py]: parsing a schedule and finding
    the first matching minute strictly after a moment.  A [datetime] is its
    day ordinal and its wall-clock fields; all arithmetic of the source is
    wall-clock arithmetic within one [tzinfo], which the model leaves out. *)

From S2P Require Import Prelude PyStr Calendar.
From Stdlib Require Import String Ascii.
#[local] Open Scope string_scope.
#[local] Open Scope Z_scope.

(** ** Errors *)

(** [CronError] is the module's own error; a bare [ValueError] escapes from
    [int] and [OverflowError] from date arithmetic past 9999-12-31. *)
Inductive cron_error :=
| CronError (message : string)
| ValueError
| OverflowError.
#[export] Instance cron_error_eq_dec : EqDecision cron_error.
Proof. solve_decision. Defined.

Abbreviation cron_result := (result cron_error).

(** ** Fields *)

Definition SHORTCUTS : list (string * string) :=
  [("@hourly", "0 * * * *"); ("@daily", "0 0 * * *"); ("@midnight", "0 0 * * *");
   ("@weekly", "0 0 * * 0"); ("@monthly", "0 0 1 * *")].

Definition FIELDS : list (string * Z * Z) :=
  [("minute", 0, 59); ("hour", 0, 23); ("day of month", 1, 31); ("month", 1, 12);
   ("day of week", 0, 7)].

Definition MAX_SEARCH_DAYS : Z := 146097 + 1.

(** [int(text)] where [text.isdigit()] holds. *)
Definition int_of_digits (s : string) : cron_result Z :=
  match py_int 10 s with Some v => Ok v | None => Err ValueError end.

(** [range(start, stop, step)] for [step >= 1] *)
Definition py_range (start stop step : Z) : list Z :=
  (λ k, start + k * step) <$> seqZ 0 ((stop - start + step - 1) / step).

(** One comma-separated item as [(start, end, step)], before the bounds check. *)
Definition parse_item (part name : string) (low high : Z) : cron_result (Z * Z * Z) :=
  raise: CronError ("empty " +:+ name +:+ " list item") when String.eqb part "";
  '(part, step) ←
    (match py_split_once "/"%char part with
     | None => Ok (part, 1)
     | Some (part, step_text) =>
         raise: CronError (name +:+ " step must be a positive number")
           when negb (py_isdigit step_text);
         step ← int_of_digits step_text;
         raise: CronError (name +:+ " step must be a positive number") when step <? 1;
         Ok (part, step)
     end : cron_result (string * Z));
  if String.eqb part "*" then Ok (low, high, step)
  else match py_split_once "-"%char part with
       | Some (start_text, end_text) =>
           raise: CronError (name +:+ " range must be numeric")
             when negb (py_isdigit start_text && py_isdigit end_text);
           start ← int_of_digits start_text;
           stop ← int_of_digits end_text;
           Ok (start, stop, step)
       | None =>
           if py_isdigit part then
             start ← int_of_digits part;
             Ok (start, if step =? 1 then start else high, step)
           else Err (CronError (name +:+ " value " +:+ py_repr part +:+ " is not a number"))
       end.

Definition item_values (part name : string) (low high : Z) : cron_result (list Z) :=
  '(start, stop, step) ← parse_item part name low high;
  raise: CronError (name +:+ " must be between " +:+ py_str_int low +:+ " and "
                    +:+ py_str_int high)
    when negb ((low <=? start) && (start <=? high) && ((low <=? stop) && (stop <=? high)))
         || (stop <? start);
  Ok (py_range start (stop + 1) step).

Definition parse_field (spec : string * (string * Z * Z)) : cron_result (gset Z) :=
  let '(txt, (name, low, high)) := spec in
  values ← res_mapM (λ part, item_values part name low high) (py_split_on ","%char txt);
  Ok (list_to_set (mjoin values)).

(** ** Schedules *)

Record CronSchedule := mkCronSchedule {
  expression : string;
  minutes : gset Z;
  hours : gset Z;
  days : gset Z;
  months : gset Z;
  weekdays : gset Z;
  day_restricted : bool;
  weekday_restricted : bool;
}.

(** [_SHORTCUTS.get(text.lower(), text)] *)
Definition expand_shortcut (txt : string) : string :=
  match list_find (λ kv, fst kv = py_lower txt) SHORTCUTS with
  | Some (_, (_, expansion)) => expansion
  | None => txt
  end.

Definition parse (expr : string) : cron_result CronSchedule :=
  let txt := py_join " " (py_split expr) in
  let parts := py_split_on " "%char (expand_shortcut txt) in
  raise: CronError "a schedule needs five fields: minute hour day-of-month month day-of-week"
    when negb (Nat.eqb (List.length parts) 5);
  parsed ← res_mapM parse_field (zip parts FIELDS);
  match parsed, parts with
  | [m; h; d; mo; w], [_; _; dtext; _; wtext] =>
      Ok {| expression := txt;
            minutes := m; hours := h; days := d; months := mo;
            weekdays := set_map (λ day, day mod 7) w;
            day_restricted := negb (py_startswith dtext "*");
            weekday_restricted := negb (py_startswith wtext "*") |}
  | _, _ => Err ValueError (* unreachable: five parts give five fields *)
  end.

(** ** Matching minutes *)

Record datetime := mkDatetime {
  dt_day : Z;       (* [toordinal()] *)
  dt_hour : Z;
  dt_minute : Z;
  dt_second : Z;
  dt_microsecond : Z;
}.
#[export] Instance datetime_eq_dec : EqDecision datetime.
Proof. solve_decision. Defined.

Definition datetime_ok (t : datetime) : Prop :=
  1 <= dt_day t <= max_ordinal ∧ 0 <= dt_hour t <= 23 ∧ 0 <= dt_minute t <= 59
  ∧ 0 <= dt_second t <= 59 ∧ 0 <= dt_microsecond t <= 999999.

Definition day_matches (s : CronSchedule) (day : Z) : bool :=
  if negb (bool_decide (month_of day ∈ months s)) then false
  else
    let day_ok := bool_decide (day_of day ∈ days s) in
    let weekday_ok := bool_decide ((weekday_of day + 1) mod 7 ∈ weekdays s) in
    if day_restricted s && weekday_restricted s then day_ok || weekday_ok
    else day_ok && weekday_ok.

(** [moment.replace(second=0, microsecond=0) + timedelta(minutes=1)] *)
Definition next_minute (t : datetime) : cron_result datetime :=
  let total := dt_hour t * 60 + dt_minute t + 1 in
  let day := dt_day t + total / 1440 in
  if max_ordinal <? day then Err OverflowError
  else Ok (mkDatetime day (total mod 1440 / 60) (total mod 60) 0 0).

(** [(candidate + timedelta(days=1)).replace(hour=0, minute=0)] *)
Definition next_day (t : datetime) : cron_result datetime :=
  if max_ordinal <? dt_day t + 1 then Err OverflowError
  else Ok (mkDatetime (dt_day t + 1) 0 0 (dt_second t) (dt_microsecond t)).

Definition sorted_set (s : gset Z) : list Z := sort_by Z.leb (elements s).

(** The inner loops: the first [hour, minute] of the lists not before the
    candidate's. *)
Fixpoint first_minute (hour chour cminute : Z) (ms : list Z) : option Z :=
  match ms with
  | [] => None
  | minute :: ms' =>
      if (hour =? chour) && (minute <? cminute)
      then first_minute hour chour cminute ms' else Some minute
  end.
Fixpoint first_time (chour cminute : Z) (ms hs : list Z) : option (Z * Z) :=
  match hs with
  | [] => None
  | hour :: hs' =>
      if hour <? chour then first_time chour cminute ms hs'
      else match first_minute hour chour cminute ms with
           | Some minute => Some (hour, minute)
           | None => first_time chour cminute ms hs'
           end
  end.

Fixpoint search_days (s : CronSchedule) (fuel : nat) (candidate : datetime) :
    cron_result datetime :=
  match fuel with
  | O => Err (CronError "the schedule never matches a real date")
  | S fuel' =>
      let found :=
        if day_matches s (dt_day candidate)
        then first_time (dt_hour candidate) (dt_minute candidate)
               (sorted_set (minutes s)) (sorted_set (hours s))
        else None in
      match found with
      | Some (hour, minute) =>
          Ok (mkDatetime (dt_day candidate) hour minute
                (dt_second candidate) (dt_microsecond candidate))
      | None =>
          candidate' ← next_day candidate;
          search_days s fuel' candidate'
      end
  end.

Definition next_after (s : CronSchedule) (moment : datetime) : cron_result datetime :=
  candidate ← next_minute moment;
  search_days s (Z.to_nat MAX_SEARCH_DAYS) candidate.

(** ** The policy's check of a schedule
    ([FullClassPolicy._valid_cron] in [backup_archive/policy.py]) *)

Definition CRON_PROBE_FROM : datetime := mkDatetime (ymd2ord 2000 1 1) 0 0 0 0.

Definition valid_cron (value : string) : cron_result string :=
  schedule ← parse value;
  _ ← next_after schedule CRON_PROBE_FROM;
  Ok (expression schedule).

(** ** Well-formed schedules *)

Definition field_ok (lo hi : Z) (s : gset Z) : Prop :=
  s ≠ ∅ ∧ ∀ v, v ∈ s → lo <= v <= hi.

Record schedule_ok (s : CronSchedule) : Prop := {
  ok_minutes : field_ok 0 59 (minutes s);
  ok_hours : field_ok 0 23 (hours s);
  ok_days : field_ok 1 31 (days s);
  ok_months : field_ok 1 12 (months s);
  ok_weekdays : field_ok 0 6 (weekdays s);
}.

Lemma elem_of_py_range a b st x :
  1 <= st → x ∈ py_range a b st ↔ ∃ k, 0 <= k ∧ x = a + k * st ∧ x < b.
Proof.
  intros Hst. unfold py_range. rewrite list_elem_of_fmap. split.
  - intros (k & -> & Hk%elem_of_seqZ). exists k. split_and!; [lia|done|].
    assert (k + 1 <= (b - a + st - 1) / st) as H by lia.
    assert (st * (k + 1) <= b - a + st - 1); [|lia].
    etrans; [apply Z.mul_le_mono_nonneg_l; [lia|exact H]|]. apply Z.mul_div_le. lia.
  - intros (k & Hk & -> & Hlt). exists k. split; [done|]. apply elem_of_seqZ.
    split; [done|]. simpl. apply Z.lt_le_trans with (k + 1); [lia|].
    apply Z.div_le_lower_bound; lia.
Qed.

Lemma parse_item_step part name lo hi a b st :
  parse_item part name lo hi = Ok (a, b, st) → 1 <= st.
Proof.
  unfold parse_item. destruct (String.eqb part ""); [discriminate|].
  destruct (py_split_once "/" part) as [[p1 stext]|].
  - destruct (negb (py_isdigit stext)); [discriminate|]. simpl.
    destruct (int_of_digits stext) as [v|]; simpl; [|discriminate].
    destruct (Z.ltb_spec v 1); simpl; [discriminate|]. intros H0. inv_ok H0; lia.
  - simpl. intros H0. inv_ok H0; lia.
Qed.

Lemma item_values_spec part name lo hi vs :
  item_values part name lo hi = Ok vs →
  ∃ a b st, parse_item part name lo hi = Ok (a, b, st)
    ∧ lo <= a ∧ a <= b ∧ b <= hi ∧ 1 <= st ∧ vs = py_range a (b + 1) st.
Proof.
  unfold item_values. destruct (parse_item _ _ _ _) as [[[a b] st]|] eqn:E; simpl; [|discriminate].
  destruct (_ || _) eqn:G; [discriminate|]. intros [= <-].
  apply parse_item_step in E as Hst. to_prop. exists a, b, st. split_and!; try done; lia.
Qed.

Lemma parsed_items_elem name lo hi parts vss :
  Forall2 (λ part vals, item_values part name lo hi = Ok vals) parts vss →
  ∀ x, x ∈ mjoin vss ↔ ∃ part a b st k, part ∈ parts
      ∧ parse_item part name lo hi = Ok (a, b, st)
      ∧ (lo <= a ∧ a <= b ∧ b <= hi ∧ 1 <= st) ∧ 0 <= k ∧ x = a + k * st ∧ x <= b.
Proof.
  induction 1 as [|part vals parts vss Hv _ IH]; intros x.
  - split; [by intros ?%not_elem_of_nil|].
    by intros (? & ? & ? & ? & ? & ?%not_elem_of_nil & _).
  - change (mjoin (vals :: vss)) with (vals ++ mjoin vss)%list. rewrite elem_of_app, IH.
    destruct (item_values_spec _ _ _ _ _ Hv) as (a & b & st & Ep & ? & ? & ? & ? & ->).
    rewrite elem_of_py_range by done. split.
    + intros [(k & ? & -> & ?)|(p & a' & b' & st' & k & ? & ?)].
      * exists part, a, b, st, k. split_and!; try done; [by left|lia].
      * exists p, a', b', st', k. split; [by right|done].
    + intros (p & a' & b' & st' & k & Hp & Ep' & ? & ? & -> & ?).
      apply elem_of_cons in Hp as [->|Hp].
      * left. rewrite Ep in Ep'. injection Ep' as <- <- <-. exists k. split_and!; [done..|lia].
      * right. by exists p, a', b', st', k.
Qed.

(** The values of a field are the arithmetic progressions of its items. *)
Lemma parse_field_elem txt name lo hi vs :
  parse_field (txt, (name, lo, hi)) = Ok vs →
  (∀ x, x ∈ vs ↔ ∃ part a b st k, part ∈ py_split_on "," txt
      ∧ parse_item part name lo hi = Ok (a, b, st)
      ∧ (lo <= a ∧ a <= b ∧ b <= hi ∧ 1 <= st) ∧ 0 <= k ∧ x = a + k * st ∧ x <= b)
  ∧ field_ok lo hi vs.
Proof.
  unfold parse_field. destruct (res_mapM _ _) as [vss|] eqn:E; simpl; [|discriminate].
  intros [= <-]. apply res_mapM_Ok in E. pose proof (parsed_items_elem _ _ _ _ _ E) as Hx.
  split; [intros x; by rewrite elem_of_list_to_set, Hx|]. split.
  - destruct (py_split_on "," txt) as [|p ps] eqn:Ep.
    { unfold py_split_on in Ep. apply fmap_nil_inv in Ep. by apply split_by_ne in Ep. }
    inversion E as [|? v ? ? Hv]; subst.
    apply item_values_spec in Hv as (a & b & st & Ei & ? & ? & ? & ? & ->).
    intros Hempty. assert (a ∈ (∅ : gset Z)); [|set_solver]. rewrite <-Hempty.
    apply elem_of_list_to_set, Hx. exists p, a, b, st, 0. split_and!; try done; [by left|lia].
  - intros v Hv. apply elem_of_list_to_set, Hx in Hv as (p & a & b & st & k & _ & Ei & ? & ? & -> & ?).
    nia.
Qed.

Lemma parse_fields expr s :
  parse expr = Ok s → ∃ tm th td tmo tw w,
    py_split_on " " (expand_shortcut (expression s)) = [tm; th; td; tmo; tw]
    ∧ parse_field (tm, ("minute", 0, 59)) = Ok (minutes s)
    ∧ parse_field (th, ("hour", 0, 23)) = Ok (hours s)
    ∧ parse_field (td, ("day of month", 1, 31)) = Ok (days s)
    ∧ parse_field (tmo, ("month", 1, 12)) = Ok (months s)
    ∧ parse_field (tw, ("day of week", 0, 7)) = Ok w
    ∧ weekdays s = set_map (λ day, day mod 7) w.
Proof.
  unfold parse. set (txt := py_join _ _).
  destruct (py_split_on _ (expand_shortcut txt)) as [|tm [|th [|td [|tmo [|tw [|]]]]]] eqn:Ep;
    try (simpl; discriminate).
  cbn [List.length Nat.eqb negb zip zip_with FIELDS res_mapM].
  destruct (parse_field (tm, ("minute", 0, 59))) as [m|] eqn:E1; [|simpl; discriminate].
  destruct (parse_field (th, ("hour", 0, 23))) as [h|] eqn:E2; [|simpl; discriminate].
  destruct (parse_field (td, ("day of month", 1, 31))) as [d|] eqn:E3; [|simpl; discriminate].
  destruct (parse_field (tmo, ("month", 1, 12))) as [mo|] eqn:E4; [|simpl; discriminate].
  destruct (parse_field (tw, ("day of week", 0, 7))) as [w|] eqn:E5; [|simpl; discriminate].
  intros [= <-]. by exists tm, th, td, tmo, tw, w.
Qed.

Lemma parse_ok expr s : parse expr = Ok s → schedule_ok s.
Proof.
  intros (tm & th & td & tmo & tw & w & _ & Hm & Hh & Hd & Hmo & [_ [Hne Hw]]%parse_field_elem & E)%parse_fields.
  apply parse_field_elem in Hm as [_ ?], Hh as [_ ?], Hd as [_ ?], Hmo as [_ ?].
  constructor; try done. rewrite E. split.
  - intros H'. apply Hne. apply set_eq. intros x. split; [|set_solver]. intros Hx.
    assert (x mod 7 ∈ (∅ : gset Z)); [|set_solver]. rewrite <-H'. apply elem_of_map. eauto.
  - intros v (x & -> & _)%elem_of_map. pose proof (Z.mod_pos_bound x 7). lia.
Qed.

(** ** The search *)

Definition minute_index (t : datetime) : Z := dt_day t * 1440 + dt_hour t * 60 + dt_minute t.
Definition fires (s : CronSchedule) (t : datetime) : Prop :=
  day_matches s (dt_day t) = true ∧ dt_hour t ∈ hours s ∧ dt_minute t ∈ minutes s.

Lemma elem_of_sorted_set s x : x ∈ sorted_set s ↔ x ∈ s.
Proof. unfold sorted_set. rewrite elem_of_sort_by. apply elem_of_elements. Qed.

Lemma sorted_set_sorted s : StronglySorted Z.le (sorted_set s).
Proof.
  apply (strongly_sorted_impl (le_of Z.leb)); [exact (λ x y, proj1 (Z.leb_le x y))|].
  apply sort_by_sorted; intros *; rewrite !Z.leb_le; lia.
Qed.

Lemma first_minute_spec hour ch cm ms :
  StronglySorted Z.le ms →
  match first_minute hour ch cm ms with
  | Some m => m ∈ ms ∧ (hour = ch → cm <= m) ∧ ∀ m', m' ∈ ms → (hour = ch → cm <= m') → m <= m'
  | None => ∀ m, m ∈ ms → hour = ch ∧ m < cm
  end.
Proof.
  induction 1 as [|m ms _ IH Hm]; simpl; [by intros ? ?%not_elem_of_nil|].
  destruct (Z.eqb_spec hour ch), (Z.ltb_spec m cm); simpl;
    [|split_and!; [by left|done|];
      intros m' [->|Hm']%elem_of_cons ?; [lia|]; rewrite Forall_forall in Hm; auto..].
  destruct (first_minute hour ch cm ms) as [m0|].
  - destruct IH as (? & ? & IH). split_and!; [by right|done|].
    intros m' [->|?]%elem_of_cons ?; [lia|auto].
  - intros m' [->|?]%elem_of_cons; [done|auto].
Qed.

Lemma first_time_spec ch cm ms hs :
  StronglySorted Z.le ms → StronglySorted Z.le hs → (∀ m, m ∈ ms → 0 <= m <= 59) →
  0 <= cm <= 59 →
  match first_time ch cm ms hs with
  | Some (h, m) => h ∈ hs ∧ m ∈ ms ∧ ch * 60 + cm <= h * 60 + m
      ∧ ∀ h' m', h' ∈ hs → m' ∈ ms → ch * 60 + cm <= h' * 60 + m' → h * 60 + m <= h' * 60 + m'
  | None => ∀ h m, h ∈ hs → m ∈ ms → h * 60 + m < ch * 60 + cm
  end.
Proof.
  intros Hms Hhs Hm Hcm.
  induction Hhs as [|h hs Hhs IH Hh]; simpl; [by intros ? ? ?%not_elem_of_nil|].
  rewrite Forall_forall in Hh.
  destruct (Z.ltb_spec h ch).
  { destruct (first_time ch cm ms hs) as [[h0 m0]|].
    - destruct IH as (? & ? & ? & IH). split_and!; [by right|done..|].
      intros h' m' [->|?]%elem_of_cons Hm' ?; [apply Hm in Hm'; lia|auto].
    - intros h' m' [->|?]%elem_of_cons Hm'; [apply Hm in Hm'; lia|auto]. }
  pose proof (first_minute_spec h ch cm ms Hms) as Hf.
  destruct (first_minute h ch cm ms) as [m|].
  - destruct Hf as (Hm0 & ? & Hf). pose proof (Hm _ Hm0). split_and!; [by left|done|nia|].
    intros h' m' Hh' Hm' ?. pose proof (Hm _ Hm').
    apply elem_of_cons in Hh' as [->|Hh'%Hh]; [specialize (Hf m' Hm'); lia|].
    destruct (Z.eq_dec h h') as [<-|]; [specialize (Hf m' Hm'); lia|lia].
  - destruct (first_time ch cm ms hs) as [[h0 m0]|].
    + destruct IH as (? & ? & ? & IH). split_and!; [by right|done..|].
      intros h' m' [->|?]%elem_of_cons Hm' ?; [destruct (Hf m'); [done|lia]|auto].
    + intros h' m' [->|?]%elem_of_cons Hm'; [destruct (Hf m'); [done|lia]|auto].
Qed.

Lemma search_days_error s fuel c e :
  search_days s fuel c = Err e →
  e = OverflowError ∨ e = CronError "the schedule never matches a real date".
Proof.
  revert c; induction fuel as [|fuel IH]; intros c; simpl; [intros [= <-]; auto|].
  destruct (if day_matches s (dt_day c) then _ else None) as [[h m]|]; [discriminate|].
  unfold next_day. destruct (max_ordinal <? dt_day c + 1); simpl; [intros [= <-]; auto|].
  apply IH.
Qed.

(** What a search of [fuel] days from [c] finds. *)
Lemma search_days_spec s fuel c :
  schedule_ok s → 0 <= dt_hour c <= 23 → 0 <= dt_minute c <= 59 →
  match search_days s fuel c with
  | Ok r => fires s r ∧ dt_second r = dt_second c ∧ dt_microsecond r = dt_microsecond c
      ∧ minute_index c <= minute_index r
      ∧ (dt_day c <= dt_day r < dt_day c + Z.of_nat fuel)
      ∧ (dt_day c <= max_ordinal → dt_day r <= max_ordinal)
      ∧ ∀ t, fires s t → minute_index c <= minute_index t → minute_index r <= minute_index t
  | Err OverflowError => max_ordinal < dt_day c + Z.of_nat fuel
  | Err _ => ∀ t, fires s t → minute_index c <= minute_index t → dt_day c + Z.of_nat fuel <= dt_day t
  end.
Proof.
  intros Hs. pose proof (ok_minutes _ Hs) as [_ Hm]. pose proof (ok_hours _ Hs) as [_ Hh].
  assert (∀ t, fires s t → 0 <= dt_hour t <= 23 ∧ 0 <= dt_minute t <= 59) as Ht.
  { intros t (_ & ? & ?). auto. }
  revert c; induction fuel as [|fuel IH]; intros c Hc1 Hc2; cbn [search_days].
  { intros t Hf%Ht. unfold minute_index. lia. }
  pose proof (first_time_spec (dt_hour c) (dt_minute c) (sorted_set (minutes s)) (sorted_set (hours s))
    (sorted_set_sorted _) (sorted_set_sorted _)) as Hft.
  destruct (if day_matches s (dt_day c) then _ else None) as [[h m]|] eqn:Efound.
  - destruct (day_matches s (dt_day c)) eqn:Eday; [|discriminate]. rewrite Efound in Hft.
    destruct Hft as (Hin & Hmin & Hle & Hleast).
    { intros x. rewrite elem_of_sorted_set. auto. } { lia. }
    rewrite elem_of_sorted_set in Hin, Hmin. simpl.
    split_and!; try done; try (unfold minute_index; simpl; lia).
    intros t Hf Hi. pose proof (Ht _ Hf). unfold minute_index in *; simpl.
    pose proof (Hh _ Hin). pose proof (Hm _ Hmin).
    destruct (Z.eq_dec (dt_day t) (dt_day c)) as [E|]; [|lia].
    destruct Hf as (_ & ? & ?). rewrite E in *.
    specialize (Hleast (dt_hour t) (dt_minute t)). rewrite !elem_of_sorted_set in Hleast.
    assert (h * 60 + m <= dt_hour t * 60 + dt_minute t); [|lia]. apply Hleast; auto. lia.
  - assert (∀ t, fires s t → minute_index c <= minute_index t → dt_day c + 1 <= dt_day t) as Hno.
    { intros t Hf Hi. pose proof (Ht _ Hf). unfold minute_index in *.
      destruct (Z.eq_dec (dt_day t) (dt_day c)) as [E|]; [exfalso|lia].
      destruct Hf as (Hd & ? & ?). rewrite E in *. rewrite Hd in Efound. rewrite Efound in Hft.
      specialize (Hft ltac:(intros x; rewrite elem_of_sorted_set; auto) ltac:(lia)
        (dt_hour t) (dt_minute t)). rewrite !elem_of_sorted_set in Hft.
      assert (dt_hour t * 60 + dt_minute t < dt_hour c * 60 + dt_minute c) by auto. lia. }
    unfold next_day. destruct (Z.ltb_spec max_ordinal (dt_day c + 1)); simpl; [lia|].
    set (c' := mkDatetime (dt_day c + 1) 0 0 _ _).
    assert (∀ t, fires s t → minute_index c <= minute_index t → minute_index c' <= minute_index t) as Hnext.
    { intros t Hf Hi. pose proof (Hno _ Hf Hi). pose proof (Ht _ Hf).
      unfold minute_index, c' in *; simpl. lia. }
    specialize (IH c' ltac:(simpl; lia) ltac:(simpl; lia)).
    destruct (search_days s fuel c') as [r|[]].
    + destruct IH as (? & ? & ? & ? & ? & ? & IH). split_and!; try done; try (simpl in *; lia).
      * unfold minute_index, c' in *; simpl in *; lia.
      * intros t ? ?. auto.
    + intros t Hf Hi. specialize (IH t Hf (Hnext _ Hf Hi)). simpl in IH. lia.
    + intros t Hf Hi. specialize (IH t Hf (Hnext _ Hf Hi)). simpl in IH. lia.
    + simpl in IH. lia.
Qed.

#[local] Arguments search_days : simpl never.

Lemma next_minute_spec t c :
  datetime_ok t → next_minute t = Ok c →
  minute_index c = minute_index t + 1 ∧ 0 <= dt_hour c <= 23 ∧ 0 <= dt_minute c <= 59
  ∧ dt_second c = 0 ∧ dt_microsecond c = 0 ∧ dt_day t <= dt_day c <= dt_day t + 1
  ∧ dt_day c <= max_ordinal.
Proof.
  intros (? & Hh & Hmin & _). unfold next_minute.
  destruct (Z.ltb_spec max_ordinal (dt_day t + (dt_hour t * 60 + dt_minute t + 1) / 1440)); [discriminate|].
  intros [= <-]. unfold minute_index. simpl.
  set (n := dt_hour t * 60 + dt_minute t + 1) in *.
  assert (n = dt_hour t * 60 + dt_minute t + 1) as Hn by done.
  assert (0 < n <= 1440) by lia. clearbody n. Z.div_mod_to_equations. lia.
Qed.

Lemma next_minute_fits t e :
  datetime_ok t → dt_day t + MAX_SEARCH_DAYS < max_ordinal → next_minute t ≠ Err e.
Proof.
  intros (? & Hh & Hm & _) Hmax. unfold next_minute.
  destruct (Z.ltb_spec max_ordinal (dt_day t + (dt_hour t * 60 + dt_minute t + 1) / 1440)); [|done].
  assert ((dt_hour t * 60 + dt_minute t + 1) / 1440 <= 1) by (apply Z.div_le_upper_bound; lia).
  unfold MAX_SEARCH_DAYS in *. lia.
Qed.

(** The calendar repeats, so a schedule that fires at all fires within any
    [MAX_SEARCH_DAYS] consecutive days. *)
Lemma day_matches_period s a b :
  a mod di400y = b mod di400y → day_matches s a = day_matches s b.
Proof.
  intros H. unfold day_matches.
  by rewrite (month_of_period a b), (day_of_period a b), (weekday_of_period a b).
Qed.

Lemma fires_again s t lo :
  fires s t → ∃ t', fires s t' ∧ lo <= dt_day t' < lo + di400y.
Proof.
  intros (Hd & Hh & Hm).
  pose proof (Z.mod_pos_bound (dt_day t - lo) di400y ltac:(done)) as Hb.
  exists (mkDatetime (lo + (dt_day t - lo) mod di400y) (dt_hour t) (dt_minute t) 0 0).
  split; [|simpl; lia]. split_and!; simpl; try done. rewrite <-Hd.
  apply day_matches_period. rewrite Zplus_mod_idemp_r. f_equal. lia.
Qed.

Lemma next_after_Ok s t r :
  schedule_ok s → datetime_ok t → next_after s t = Ok r →
  datetime_ok r ∧ dt_second r = 0 ∧ dt_microsecond r = 0 ∧ fires s r
  ∧ minute_index t < minute_index r
  ∧ ∀ u, fires s u → minute_index t < minute_index u → minute_index r <= minute_index u.
Proof.
  intros Hs Ht. unfold next_after.
  destruct (next_minute t) as [c|] eqn:Ec; simpl; [|discriminate]. intros Hr.
  destruct (next_minute_spec t c Ht Ec) as (Hi & Hh & Hm & Hsec & Hus & Hday & Hmax).
  pose proof (search_days_spec s (Z.to_nat MAX_SEARCH_DAYS) c Hs Hh Hm) as H.
  rewrite Hr in H. destruct H as (Hf & Es & Eus & Hci & Hd & Hmax' & Hleast).
  pose proof Hf as (_ & Hfh%(ok_hours _ Hs) & Hfm%(ok_minutes _ Hs)).
  destruct Ht as (? & _). rewrite Es, Eus, Hsec, Hus.
  split_and!; try done; [split_and!; lia|lia|]. intros u Hu ?. apply Hleast; [done|lia].
Qed.

Lemma next_after_total s t u :
  schedule_ok s → datetime_ok t → dt_day t + MAX_SEARCH_DAYS < max_ordinal →
  fires s u → ∃ r, next_after s t = Ok r.
Proof.
  intros Hs Ht Hmax Hu. unfold next_after.
  destruct (next_minute t) as [c|] eqn:Ec; simpl; [|by apply next_minute_fits in Ec].
  destruct (next_minute_spec t c Ht Ec) as (Hi & Hh & Hm & Hsec & Hus & Hday & _).
  pose proof (search_days_spec s (Z.to_nat MAX_SEARCH_DAYS) c Hs Hh Hm) as H.
  destruct (fires_again s u (dt_day c + 1) Hu) as (u' & Hu' & Hr).
  pose proof Hu' as (_ & Hfh%(ok_hours _ Hs) & Hfm%(ok_minutes _ Hs)).
  assert (minute_index c <= minute_index u') as Hle by (unfold minute_index; lia).
  unfold MAX_SEARCH_DAYS, di400y in *. rewrite Z2Nat.id in H by lia.
  destruct (search_days s _ c) as [r|[]]; [by exists r|exfalso..].
  - specialize (H u' Hu' Hle). lia.
  - specialize (H u' Hu' Hle). lia.
  - lia.
Qed.

Lemma next_after_error s t e :
  next_after s t = Err e →
  e = OverflowError ∨ e = CronError "the schedule never matches a real date".
Proof.
  unfold next_after, next_minute. destruct (max_ordinal <? _); simpl; [intros [= <-]; auto|].
  apply search_days_error.
Qed.

Lemma next_after_never s t :
  schedule_ok s → datetime_ok t → dt_day t + MAX_SEARCH_DAYS < max_ordinal →
  (∀ u, ¬ fires s u) → next_after s t = Err (CronError "the schedule never matches a real date").
Proof.
  intros Hs Ht Hmax Hno. destruct (next_after s t) as [r|e] eqn:E.
  { exfalso. apply (Hno r). by apply next_after_Ok in E as (_ & _ & _ & ? & _). }
  destruct (next_after_error _ _ _ E) as [->| ->]; [exfalso|done].
  revert E. unfold next_after. destruct (next_minute t) as [c|] eqn:Ec; simpl.
  - destruct (next_minute_spec t c Ht Ec) as (Hi & Hh & Hm & Hsec & Hus & Hday & _). intros E.
    pose proof (search_days_spec s (Z.to_nat MAX_SEARCH_DAYS) c Hs Hh Hm) as H. rewrite E in H.
    unfold MAX_SEARCH_DAYS in *. lia.
  - intros [= ->]. by apply next_minute_fits in Ec.
Qed.

(** ** Rendering field items

    The grammar of one item, and its text. *)

Inductive cron_item :=
| IStar (step : option Z)
| INumber (a : Z) (step : option Z)
| IRange (a b : Z) (step : option Z).

Definition item_step (i : cron_item) : option Z :=
  match i with IStar s | INumber _ s | IRange _ _ s => s end.
Definition item_body (i : cron_item) : list ascii :=
  match i with
  | IStar _ => ["*"%char]
  | INumber a _ => numeral 10 a
  | IRange a b _ => (numeral 10 a ++ "-"%char :: numeral 10 b)%list
  end.
Definition item_text (i : cron_item) : list ascii :=
  (item_body i ++ match item_step i with
                  | None => []
                  | Some n => "/"%char :: numeral 10 n
                  end)%list.
Definition field_text (items : list cron_item) : string :=
  text (join_l [","%char] (item_text <$> items)).

(** The set an item stands for: a plain number with a step runs to the end of
    the field. *)
Definition item_set (hi lo : Z) (i : cron_item) : list Z :=
  let st := default 1 (item_step i) in
  match i with
  | IStar _ => py_range lo (hi + 1) st
  | INumber a _ => py_range a ((if st =? 1 then a else hi) + 1) st
  | IRange a b _ => py_range a (b + 1) st
  end.
Definition item_valid (lo hi : Z) (i : cron_item) : Prop :=
  1 <= default 1 (item_step i) < 2 ^ 4000 ∧
  match i with
  | IStar _ => True
  | INumber a _ => lo <= a <= hi
  | IRange a b _ => lo <= a ∧ a <= b ∧ b <= hi
  end.

Section render.
Context (lo hi : Z) (Hlo : 0 <= lo) (Hle : lo <= hi) (Hhi : hi < 2 ^ 4000).

Lemma item_body_clean c i :
item_valid lo hi i → is_decimal c = false → c ≠ "*"%char → c ≠ "-"%char →
forallb (λ x, negb (char_is c x)) (item_body i) = true.
Proof using Hlo.
intros [_ Hi] Hc Hs Hd. destruct i as [st|a st|a b st]; simpl.
- rewrite andb_true_r. apply negb_true_iff, not_true_is_false. by intros <-%char_is_true.
- apply numeral_clean; [lia|done].
- rewrite forallb_app. simpl. rewrite !numeral_clean by (done || lia). simpl.
  rewrite andb_true_r. apply negb_true_iff, not_true_is_false. by intros <-%char_is_true.
Qed.

Lemma item_text_clean i :
item_valid lo hi i → forallb (λ x, negb (char_is "," x)) (item_text i) = true.
Proof using Hlo.
intros Hi. unfold item_text. rewrite forallb_app, item_body_clean by done.
destruct Hi as [Hst _]. destruct (item_step i) as [n|]; simpl in *; [|done].
apply numeral_clean; [lia|done].
Qed.

Lemma int_of_numeral z : 0 <= z < 2 ^ 4000 → int_of_digits (text (numeral 10 z)) = Ok z.
Proof. intros. unfold int_of_digits. by rewrite py_int_numeral. Qed.

Lemma text_eqb_false l s : l ≠ chars s → String.eqb (text l) s = false.
Proof.
intros H. apply String.eqb_neq. intros E. apply H. by rewrite <-E, chars_text.
Qed.

Lemma numeral_not_star z : 0 <= z → String.eqb (text (numeral 10 z)) "*" = false.
Proof.
intros [_ H]%numeral_decimal. apply text_eqb_false. intros E. rewrite E in H. done.
Qed.

(** The second half of [parse_item], on the text before a step. *)
Lemma parse_item_body name i :
item_valid lo hi i →
parse_item (text (item_text i)) name lo hi =
  Ok match i with
     | IStar st => (lo, hi, default 1 st)
     | INumber a st => (a, if default 1 st =? 1 then a else hi, default 1 st)
     | IRange a b st => (a, b, default 1 st)
     end.
Proof using Hlo Hhi Hle.
intros Hi. pose proof Hi as [Hst Hb]. unfold parse_item.
rewrite (text_eqb_false (item_text i) ""); cycle 1.
{ unfold item_text. destruct i as [?|a ?|a b ?]; simpl; [done| |].
  - by destruct (numeral 10 a) eqn:E; [destruct (numeral_decimal a ltac:(lia))|].
  - by destruct (numeral 10 a). }
assert ((match py_split_once "/" (text (item_text i)) with
         | None => Ok (text (item_text i), 1)
         | Some (part, step_text) =>
             raise: CronError (name +:+ " step must be a positive number")
               when negb (py_isdigit step_text);
             step ← int_of_digits step_text;
             raise: CronError (name +:+ " step must be a positive number") when step <? 1;
             Ok (part, step)
         end : cron_result (string * Z)) = Ok (text (item_body i), default 1 (item_step i))) as ->.
{ unfold item_text. destruct (item_step i) as [n|]; simpl in *.
  - rewrite py_split_once_text by (by apply item_body_clean).
    rewrite py_isdigit_numeral by lia. simpl. rewrite int_of_numeral by lia. simpl.
    by destruct (Z.ltb_spec n 1); [lia|].
  - rewrite app_nil_r, py_split_once_none by (by apply item_body_clean). done. }
cbn [mbind result_bind]. destruct i as [st|a st|a b st]; simpl in *; [done| |].
- rewrite numeral_not_star, py_split_once_none, py_isdigit_numeral
    by (lia || (apply numeral_clean; [lia|done])).
  by rewrite int_of_numeral by lia.
- rewrite text_eqb_false; cycle 1.
  { destruct (numeral 10 a) as [|c l] eqn:E; [done|]. simpl. intros [= _ E'].
    by destruct l. }
  rewrite py_split_once_text by (apply numeral_clean; [lia|done]).
  rewrite !py_isdigit_numeral by lia. simpl. by rewrite !int_of_numeral by lia.
Qed.

Lemma item_values_text name i :
item_valid lo hi i → item_values (text (item_text i)) name lo hi = Ok (item_set hi lo i).
Proof using Hlo Hhi Hle.
intros Hi. unfold item_values. rewrite parse_item_body by done.
destruct Hi as [Hst Hb]. destruct i as [st|a st|a b st]; simpl in *.
- rewrite !(proj2 (Z.leb_le _ _)) by lia. rewrite (proj2 (Z.ltb_ge _ _)) by lia. done.
- destruct (default 1 st =? 1); simpl; rewrite !(proj2 (Z.leb_le _ _)) by lia;
    rewrite (proj2 (Z.ltb_ge _ _)) by lia; done.
- rewrite !(proj2 (Z.leb_le _ _)) by lia. rewrite (proj2 (Z.ltb_ge _ _)) by lia. done.
Qed.

Lemma parse_field_text name items :
items ≠ [] → Forall (item_valid lo hi) items →
parse_field (field_text items, (name, lo, hi))
  = Ok (list_to_set (mjoin (item_set hi lo <$> items))).
Proof using Hlo Hhi Hle.
intros Hne Hv. unfold parse_field, field_text, py_split_on. rewrite chars_text.
rewrite split_by_join_l; [|by apply char_is_true| |by destruct items]; cycle 1.
{ rewrite Forall_fmap. eapply Forall_impl; [exact Hv|]. intros i. apply item_text_clean. }
assert (res_mapM (λ part, item_values part name lo hi) (text <$> (item_text <$> items))
  = Ok (item_set hi lo <$> items)) as ->; [|done].
apply res_mapM_Ok. rewrite <-list_fmap_compose. clear Hne.
induction Hv; constructor; [by apply item_values_text|done].
Qed.
End render.

(** ** What the schedule promises *)

Lemma parse_expression expr s : parse expr = Ok s → parse (expression s) = Ok s.
Proof.
  intros H. assert (expression s = py_join " " (py_split expr)) as E.
  { revert H. unfold parse.
    destruct (negb _); [discriminate|].
    destruct (res_mapM _ _) as [l|]; [|discriminate]. cbn [mbind result_bind].
    destruct l as [|? [|? [|? [|? [|? [|]]]]]]; try discriminate.
    destruct (py_split_on _ _) as [|? [|? [|? [|? [|? [|]]]]]]; try discriminate.
    by intros [= <-]. }
  rewrite E, <-H. unfold parse. by rewrite py_split_normal.
Qed.

(** [C36] [CronSchedule.next_after] returns the first firing minute strictly
    after the moment: the result is a valid datetime with zero seconds whose
    month, day, weekday, hour and minute match the schedule, it is later than
    the moment, and no minute between the two matches. *)
Theorem cron_next_after_first (expr : string) (s : CronSchedule) (t r : datetime)
  (Hparse : parse expr = Ok s) (Ht : datetime_ok t) (Hr : next_after s t = Ok r) :
  datetime_ok r ∧ dt_second r = 0 ∧ dt_microsecond r = 0 ∧ fires s r
  ∧ minute_index t < minute_index r
  ∧ ∀ u, fires s u → minute_index t < minute_index u → minute_index r <= minute_index u.
Proof. eapply next_after_Ok; [by eapply parse_ok|done|done]. Qed.

Lemma cron_next_after_first_witness :
  let t := mkDatetime (ymd2ord 2023 3 1) 3 0 30 5 in
  let r := mkDatetime (ymd2ord 2024 2 29) 3 0 0 0 in
  minute_index t < minute_index r.
Proof.
  intros t r.
  destruct (parse "*/30 3 29 2 *") as [s|] eqn:E; [|vm_compute in E; discriminate].
  apply (cron_next_after_first "*/30 3 29 2 *" s t r E).
  - vm_compute. intuition congruence.
  - vm_compute in E. injection E as <-. vm_compute. reflexivity.
Defined.

(** The day search of [next_after] always decides the schedule: as long as
    its 146098 days stay before the year 10000, it returns a minute exactly when
    some day of the calendar ever matches, and otherwise raises [CronError]
    (never another exception). *)
Theorem cron_next_after_decides (expr : string) (s : CronSchedule) (t : datetime)
  (Hparse : parse expr = Ok s) (Ht : datetime_ok t)
  (Hmax : dt_day t + MAX_SEARCH_DAYS < max_ordinal) :
  ((∃ u, fires s u) → ∃ r, next_after s t = Ok r)
  ∧ ((∀ u, ¬ fires s u) →
       next_after s t = Err (CronError "the schedule never matches a real date")).
Proof.
  apply parse_ok in Hparse. split.
  - intros [u Hu]. by eapply next_after_total.
  - by apply next_after_never.
Qed.

Lemma cron_next_after_decides_witness :
  match parse "0 3 * * *" with
  | Ok s => ∃ r, next_after s CRON_PROBE_FROM = Ok r
  | Err _ => False
  end.
Proof.
  destruct (parse "0 3 * * *") as [s|] eqn:E; [|vm_compute in E; discriminate].
  apply (cron_next_after_decides "0 3 * * *" s CRON_PROBE_FROM E).
  - vm_compute. intuition congruence.
  - vm_compute. reflexivity.
  - exists (mkDatetime 1 3 0 0 0). vm_compute in E. injection E as <-.
    vm_compute. intuition congruence.
Defined.

(** The policy check is complete: a schedule that [FullClassPolicy]
    accepts after probing it from 2000-01-01 can be parsed again from the stored
    expression, and [next_after] then finds a run from every later (or earlier)
    moment before the year 9600, so the scheduler never meets the error the
    check exists for. *)
Theorem cron_policy_probe_complete (value stored : string)
  (Hvalid : valid_cron value = Ok stored) :
  ∃ s, parse stored = Ok s ∧
    ∀ t, datetime_ok t → dt_day t + MAX_SEARCH_DAYS < max_ordinal →
      ∃ r, next_after s t = Ok r.
Proof.
  revert Hvalid. unfold valid_cron.
  destruct (parse value) as [s|] eqn:Ep; cbn [mbind result_bind]; [|discriminate].
  destruct (next_after s CRON_PROBE_FROM) as [r|] eqn:Er; [|discriminate].
  intros [= <-]. exists s. split; [by eapply parse_expression|].
  intros t Ht Hmax. apply parse_ok in Ep. eapply next_after_total; [done..|].
  eapply (next_after_Ok s CRON_PROBE_FROM r); [done| |done].
  vm_compute. intuition congruence.
Qed.

Lemma cron_policy_probe_complete_witness :
  ∃ s, parse "0 3 * * *" = Ok s ∧
    ∀ t, datetime_ok t → dt_day t + MAX_SEARCH_DAYS < max_ordinal →
      ∃ r, next_after s t = Ok r.
Proof.
  apply (cron_policy_probe_complete "  0 3 *  * * "). vm_compute. reflexivity.
Defined.

(** Rendering and parsing a field are inverse: the text of any non-empty
    list of valid items (stars, numbers and ranges, with or without a step)
    parses to exactly the union of the sets the items stand for. *)
Theorem cron_field_roundtrip (lo hi : Z) (name : string) (items : list cron_item)
  (Hlo : 0 <= lo) (Hle : lo <= hi) (Hhi : hi < 2 ^ 4000)
  (Hne : items ≠ []) (Hitems : Forall (item_valid lo hi) items) :
  parse_field (field_text items, (name, lo, hi))
    = Ok (list_to_set (mjoin (item_set hi lo <$> items))).
Proof. by apply parse_field_text. Qed.

Lemma cron_field_roundtrip_witness :
  field_text [IStar (Some 20); IRange 3 9 (Some 4); INumber 50 None] = "*/20,3-9/4,50" ∧
  parse_field ("*/20,3-9/4,50", ("minute", 0, 59))
    = Ok (list_to_set (mjoin (item_set 59 0 <$>
        [IStar (Some 20); IRange 3 9 (Some 4); INumber 50 None]))).
Proof.
  split; [vm_compute; reflexivity|].
  refine (cron_field_roundtrip 0 59 "minute"
    [IStar (Some 20); IRange 3 9 (Some 4); INumber 50 None] _ _ _ _ _);
    [lia|lia|reflexivity|discriminate|].
  repeat constructor; try (vm_compute; congruence).
Defined.

(** Every schedule [parse] accepts is well formed: each field is a
    non-empty set within its bounds (weekdays folded to 0..6), and re-parsing
    the normalised expression gives the same schedule. *)
Theorem cron_parse_well_formed (expr : string) (s : CronSchedule)
  (Hparse : parse expr = Ok s) :
  schedule_ok s ∧ parse (expression s) = Ok s.
Proof. split; [by eapply parse_ok|by eapply parse_expression]. Qed.

Lemma cron_parse_well_formed_witness :
  match parse "@weekly" with Ok s => schedule_ok s | Err _ => False end.
Proof.
  destruct (parse "@weekly") as [s|] eqn:E; [|vm_compute in E; discriminate].
  apply (cron_parse_well_formed "@weekly" s E).
Defined.

(** A digit that [str.isdigit] accepts and [int] refuses escapes [parse] as a
    bare [ValueError] instead of [CronError]. *)
Example cron_superscript_value_error :
  parse (text [chr 178; " "; "*"; " "; "*"; " "; "*"; " "; "*"]%char) = Err ValueError.
Proof. vm_compute. reflexivity. Qed.
