(* ===== verification/Catalog.v ===== *)
(** * The backup artifact catalog

    [history_service/backup_archive/catalog.py]: the records, their validation
    and every operation of [ArtifactCatalog], as functions on the three tables
    of its SQLite database.  A write operation returns the new database or the
    exception; an exception rolls the transaction back, so the old database is
    kept.  Timestamps are instants in microseconds; the columns hold instants,
    which is what the fixed-width text of [_timestamp_text] orders by. *)

From S2P Require Import Prelude PyStr.
From Stdlib Require Import String Ascii.
#[local] Open Scope string_scope.
#[local] Open Scope Z_scope.

(** ** Records *)

(** A [datetime]: naive (no UTC offset) or aware, given by its instant. *)
Inductive timestamp :=
| Naive (wall_us : Z)
| Aware (instant_us : Z).
#[export] Instance timestamp_eq_dec : EqDecision timestamp.
Proof. solve_decision. Defined.

Inductive catalog_error :=
| CatalogError (message : string)
| IntegrityError.   (* [sqlite3.IntegrityError] not translated by the catalog *)
#[export] Instance catalog_error_eq_dec : EqDecision catalog_error.
Proof. solve_decision. Defined.
Abbreviation catalog_result := (result catalog_error).

Record ArtifactRecord := mkRecord {
  artifact_id : string;
  backup_class : string;
  location : string;
  name : string;
  created_at : timestamp;
  size : Z;
  sha256 : string;
  verified : bool;
  change_ids : list string;
  preserved : bool;
  preserve_reason : string;
  preserved_by : string;
}.
#[export] Instance ArtifactRecord_eq_dec : EqDecision ArtifactRecord.
Proof. solve_decision. Defined.

Record Tombstone := mkTombstone {
  ts_record : ArtifactRecord;
  ts_deleted_at : timestamp;
  ts_reason : string;
  ts_actor : string;
}.

Inductive preserve_action := Preserve | Unpreserve.
#[export] Instance preserve_action_eq_dec : EqDecision preserve_action.
Proof. solve_decision. Defined.

Record PreserveEvent := mkEvent {
  ev_artifact_id : string;
  ev_action : preserve_action;
  ev_reason : string;
  ev_actor : string;
  ev_at : timestamp;
}.

(** ** Validation *)

Definition BACKUP_CLASSES : list string := ["config"; "full"].
Definition LOCAL_LOCATION : string := "local".
Definition MAX_TEXT : Z := 512.
Definition MAX_CHANGE_IDS : Z := 10000.

Definition utc (value : timestamp) : catalog_result timestamp :=
  match value with
  | Naive _ => Err (CatalogError "Timestamps must be timezone-aware.")
  | Aware t => Ok (Aware t)
  end.

Definition is_id_char (c : ascii) : bool :=
  is_alnum_ascii c || char_is "." c || char_is "_" c || char_is "-" c.

(** [[A-Za-z0-9][A-Za-z0-9._-]{0,n}\Z] *)
Definition is_identifier (n : nat) (s : string) : bool :=
  match chars s with
  | c :: l => is_alnum_ascii c && forallb is_id_char l && Nat.leb (List.length l) n
  | [] => false
  end.
Definition is_artifact_id (s : string) : bool := is_identifier 127 s.
Definition is_location (s : string) : bool := is_identifier 63 s.

Definition is_hex_lower (c : ascii) : bool := is_decimal c || in_range 97 102 c.
(** [[0-9a-f]{64}\Z] *)
Definition is_sha256 (s : string) : bool :=
  forallb is_hex_lower (chars s) && Nat.eqb (List.length (chars s)) 64.

Definition nul : ascii := chr 0.

Definition validate_object_name (nm : string) : catalog_result string :=
  let invalid := CatalogError "Artifact name is invalid." in
  raise: invalid when String.eqb nm "" || (1024 <? py_len nm);
  raise: invalid when py_has_char "\" nm || py_has_char nul nm || py_startswith nm "/";
  raise: invalid when existsb (λ part, bool_decide (part ∈ [""; "."; ".."])) (py_split_on "/" nm);
  raise: invalid when existsb (λ c, ord c <? 32) (chars nm);
  Ok nm.

Definition validate_location (loc : string) : catalog_result string :=
  raise: CatalogError "Artifact location is invalid." when negb (is_location loc);
  Ok loc.

Definition validate_backup_class (cls : string) : catalog_result string :=
  raise: CatalogError "Backup class must be 'config' or 'full'."
    when negb (bool_decide (cls ∈ BACKUP_CLASSES));
  Ok cls.

Definition require_text (value label : string) (required : bool) : catalog_result string :=
  raise: CatalogError (label +:+ " is invalid.")
    when (MAX_TEXT <? py_len value) || py_has_char nul value;
  let value := py_strip value in
  raise: CatalogError (label +:+ " is required.") when required && String.eqb value "";
  Ok value.

(** [replace(record, created_at=...)] and the other partial updates *)
Definition with_created_at (t : timestamp) (r : ArtifactRecord) : ArtifactRecord :=
  mkRecord (artifact_id r) (backup_class r) (location r) (name r) t (size r) (sha256 r)
    (verified r) (change_ids r) (preserved r) (preserve_reason r) (preserved_by r).
Definition with_preserve (p : bool) (reason by_ : string) (r : ArtifactRecord) : ArtifactRecord :=
  mkRecord (artifact_id r) (backup_class r) (location r) (name r) (created_at r) (size r)
    (sha256 r) (verified r) (change_ids r) p reason by_.
Definition with_verified (v : bool) (r : ArtifactRecord) : ArtifactRecord :=
  mkRecord (artifact_id r) (backup_class r) (location r) (name r) (created_at r) (size r)
    (sha256 r) v (change_ids r) (preserved r) (preserve_reason r) (preserved_by r).

Definition validate_record (r : ArtifactRecord) : catalog_result ArtifactRecord :=
  raise: CatalogError "Artifact id is invalid." when negb (is_artifact_id (artifact_id r));
  _ ← validate_backup_class (backup_class r);
  _ ← validate_location (location r);
  _ ← validate_object_name (name r);
  raise: CatalogError "Artifact size is invalid." when size r <? 0;
  raise: CatalogError "Artifact sha256 must be 64 lowercase hex characters."
    when negb (is_sha256 (sha256 r));
  raise: CatalogError "Artifact change ids must be a tuple."
    when MAX_CHANGE_IDS <? Z.of_nat (List.length (change_ids r));
  _ ← res_mapM (λ cid, require_text cid "Change id" true) (change_ids r);
  t ← utc (created_at r);
  Ok (with_created_at t r).

(** ** The database *)

Record row := mkRow {
  row_record : ArtifactRecord;
  verified_at : option timestamp;
  preserved_at : option timestamp;
  deletion_claimed_at : option timestamp;
  deletion_claimed_by : string;
  cataloged_at : timestamp;
}.

Record catalog := mkCatalog {
  artifacts : gmap string row;
  tombstone_table : gmap string Tombstone;
  preserve_events : list PreserveEvent;   (* in [event_id] order *)
}.

Definition empty_catalog : catalog := mkCatalog ∅ ∅ [].

Definition update_row (id : string) (r : row) (c : catalog) : catalog :=
  mkCatalog (<[id := r]> (artifacts c)) (tombstone_table c) (preserve_events c).
Definition log_event (e : PreserveEvent) (c : catalog) : catalog :=
  mkCatalog (artifacts c) (tombstone_table c) (preserve_events c ++ [e]).

Definition instant (t : timestamp) : Z := match t with Naive u => u | Aware u => u end.

(** [ORDER BY created_at, artifact_id], also the key of [max] and [sorted] in
    the lifecycle manager. *)
Definition record_leb (a b : ArtifactRecord) : bool :=
  (instant (created_at a) <? instant (created_at b))
  || ((instant (created_at a) =? instant (created_at b))
      && str_leb (artifact_id a) (artifact_id b)).
Definition record_geb (a b : ArtifactRecord) : bool := record_leb b a.

Definition live_records (c : catalog) : list ArtifactRecord :=
  row_record <$> (map_to_list (artifacts c)).*2.

Module ArtifactCatalog.

Definition name_taken (loc nm : string) (c : catalog) : bool :=
existsb (λ r, String.eqb (location r) loc && String.eqb (name r) nm) (live_records c).

Definition add (record : ArtifactRecord) (now : timestamp) (c : catalog) :
  catalog_result (catalog * ArtifactRecord) :=
record ← validate_record record;
reason ← require_text (preserve_reason record) "Preserve reason" false;
by_ ← require_text (preserved_by record) "Preserved by" false;
raise: CatalogError "A preserved artifact needs the actor who preserved it."
  when preserved record && String.eqb by_ "";
raise: CatalogError "Preserve details are only valid on a preserved artifact."
  when negb (preserved record) && (negb (String.eqb reason "") || negb (String.eqb by_ ""));
let record := with_preserve (preserved record) reason by_ record in
stamp ← utc now;
raise: CatalogError "Artifact id was already used by a deleted artifact."
  when bool_decide (is_Some (tombstone_table c !! artifact_id record));
raise: CatalogError "Artifact id or location/name is already catalogued."
  when bool_decide (is_Some (artifacts c !! artifact_id record))
       || name_taken (location record) (name record) c;
let c := update_row (artifact_id record)
  (mkRow record (if verified record then Some stamp else None)
     (if preserved record then Some stamp else None) None "" stamp) c in
Ok (if preserved record
    then log_event (mkEvent (artifact_id record) Preserve (preserve_reason record)
                      (preserved_by record) stamp) c
    else c, record).

Definition get (id : string) (c : catalog) : option ArtifactRecord :=
row_record <$> artifacts c !! id.

(** [list(backup_class=..., location=...)]: live records, oldest first. *)
Definition list_ (cls loc : option string) (c : catalog) :
  catalog_result (list ArtifactRecord) :=
cls ← match cls with None => Ok None | Some v => Some <$> validate_backup_class v end;
loc ← match loc with None => Ok None | Some v => Some <$> validate_location v end;
Ok (sort_by record_leb (List.filter
      (λ r, match cls with None => true | Some v => String.eqb (backup_class r) v end
            && match loc with None => true | Some v => String.eqb (location r) v end)
      (live_records c))).

Definition locations (c : catalog) : list string :=
sort_by str_leb (remove_dups (location <$> live_records c)).

Definition require_live (id : string) (c : catalog) : catalog_result row :=
match artifacts c !! id with
| None => Err (CatalogError "Artifact is not catalogued.")
| Some r => Ok r
end.

Definition set_preserve (id reason actor : string) (now : timestamp) (c : catalog) :
  catalog_result (catalog * ArtifactRecord) :=
reason ← require_text reason "Preserve reason" true;
actor ← require_text actor "Actor" true;
stamp ← utc now;
r ← require_live id c;
raise: CatalogError "Artifact is being deleted and can no longer be preserved."
  when bool_decide (is_Some (deletion_claimed_at r));
let record := with_preserve true reason actor (row_record r) in
Ok (log_event (mkEvent id Preserve reason actor stamp)
      (update_row id (mkRow record (verified_at r) (Some stamp) (deletion_claimed_at r)
                        (deletion_claimed_by r) (cataloged_at r)) c), record).

Definition clear_preserve (id actor reason : string) (now : timestamp) (c : catalog) :
  catalog_result (catalog * ArtifactRecord) :=
reason ← require_text reason "Unpreserve reason" false;
actor ← require_text actor "Actor" true;
stamp ← utc now;
r ← require_live id c;
let record := with_preserve false "" "" (row_record r) in
Ok (log_event (mkEvent id Unpreserve reason actor stamp)
      (update_row id (mkRow record (verified_at r) None (deletion_claimed_at r)
                        (deletion_claimed_by r) (cataloged_at r)) c), record).

Definition preserve_history (id : option string) (c : catalog) : list PreserveEvent :=
match id with
| None | Some "" => preserve_events c
| Some id => List.filter (λ e, String.eqb (ev_artifact_id e) id) (preserve_events c)
end.

Definition mark_verified (id : string) (sha : option string) (sz : option Z)
  (now : timestamp) (c : catalog) : catalog_result (catalog * ArtifactRecord) :=
stamp ← utc now;
r ← require_live id c;
raise: CatalogError "Readback sha256 does not match the catalogued artifact."
  when match sha with Some v => negb (String.eqb v (sha256 (row_record r))) | None => false end;
raise: CatalogError "Readback size does not match the catalogued artifact."
  when match sz with Some v => negb (v =? size (row_record r)) | None => false end;
let record := with_verified true (row_record r) in
Ok (update_row id (mkRow record (Some stamp) (preserved_at r) (deletion_claimed_at r)
                     (deletion_claimed_by r) (cataloged_at r)) c, record).

Definition mark_unverified (id : string) (c : catalog) :
  catalog_result (catalog * ArtifactRecord) :=
r ← require_live id c;
let record := with_verified false (row_record r) in
Ok (update_row id (mkRow record None (preserved_at r) (deletion_claimed_at r)
                     (deletion_claimed_by r) (cataloged_at r)) c, record).

(** [ORDER BY created_at DESC, artifact_id DESC LIMIT 1] *)
Definition newest_verified_id (cls loc : string) (c : catalog) : option string :=
artifact_id <$> head (sort_by record_geb (List.filter
  (λ r, String.eqb (backup_class r) cls && String.eqb (location r) loc && verified r)
  (live_records c))).

Definition claim_deletion (expected : ArtifactRecord) (actor : string) (now : timestamp)
  (protect_newest_verified : bool) (c : catalog) : catalog_result catalog :=
actor ← require_text actor "Actor" true;
stamp ← utc now;
match artifacts c !! artifact_id expected with
| None => Err (CatalogError "Artifact is no longer catalogued.")
| Some r =>
    raise: CatalogError "Artifact deletion is already claimed."
      when bool_decide (is_Some (deletion_claimed_at r));
    let current := row_record r in
    raise: CatalogError "Artifact changed since the plan was made."
      when negb (bool_decide (current = expected));
    raise: CatalogError "Artifact is preserved." when preserved current;
    raise: CatalogError "Artifact is the newest verified copy."
      when protect_newest_verified
           && bool_decide (newest_verified_id (backup_class current) (location current) c
                           = Some (artifact_id current));
    Ok (update_row (artifact_id current)
          (mkRow current (verified_at r) (preserved_at r) (Some stamp) actor (cataloged_at r)) c)
end.

Definition release_deletion (id : string) (c : catalog) : catalog :=
match artifacts c !! id with
| None => c
| Some r => update_row id (mkRow (row_record r) (verified_at r) (preserved_at r) None ""
                             (cataloged_at r)) c
end.

Definition claimed_deletions (c : catalog) :
  list (ArtifactRecord * timestamp * string) :=
sort_by (λ a b, record_leb (fst (fst a)) (fst (fst b)))
  (omap (λ r, match deletion_claimed_at r with
              | Some t => Some (row_record r, t, deletion_claimed_by r)
              | None => None
              end) (map_to_list (artifacts c)).*2).

Definition is_deletion_claimed (id : string) (c : catalog) : bool :=
match artifacts c !! id with
| Some r => bool_decide (is_Some (deletion_claimed_at r))
| None => false
end.

Definition record_deletion (id reason actor : string) (now : timestamp)
  (expected : option ArtifactRecord) (c : catalog) : catalog_result (catalog * Tombstone) :=
reason ← require_text reason "Deletion reason" true;
actor ← require_text actor "Actor" true;
deleted_at ← utc now;
r ← require_live id c;
let record := row_record r in
raise: CatalogError "Artifact changed since it was planned for deletion."
  when match expected with Some e => negb (bool_decide (record = e)) | None => false end;
raise: CatalogError "Artifact is preserved; clear the preserve flag before deleting it."
  when preserved record;
(* the [INSERT] into the tombstones' primary key *)
raise: IntegrityError when bool_decide (is_Some (tombstone_table c !! artifact_id record));
let ts := mkTombstone record deleted_at reason actor in
Ok (mkCatalog (delete id (artifacts c))
      (<[artifact_id record :=
           mkTombstone (with_preserve false "" "" record) deleted_at reason actor]>
         (tombstone_table c))
      (preserve_events c), ts).

Definition tombstone_leb (a b : Tombstone) : bool :=
(instant (ts_deleted_at a) <? instant (ts_deleted_at b))
|| ((instant (ts_deleted_at a) =? instant (ts_deleted_at b))
    && str_leb (artifact_id (ts_record a)) (artifact_id (ts_record b))).

Definition tombstones (cls loc : option string) (c : catalog) :
  catalog_result (list Tombstone) :=
cls ← match cls with None => Ok None | Some v => Some <$> validate_backup_class v end;
loc ← match loc with None => Ok None | Some v => Some <$> validate_location v end;
Ok (sort_by tombstone_leb (List.filter
      (λ t, match cls with None => true | Some v => String.eqb (backup_class (ts_record t)) v end
            && match loc with None => true | Some v => String.eqb (location (ts_record t)) v end)
      (map_to_list (tombstone_table c)).*2)).

End ArtifactCatalog.

(** ** Operations as steps *)

Import ArtifactCatalog.

(** The writing calls of the catalog's public interface. *)
Inductive catalog_op :=
| OpAdd (r : ArtifactRecord) (now : timestamp)
| OpSetPreserve (id reason actor : string) (now : timestamp)
| OpClearPreserve (id actor reason : string) (now : timestamp)
| OpMarkVerified (id : string) (sha : option string) (sz : option Z) (now : timestamp)
| OpMarkUnverified (id : string)
| OpClaimDeletion (expected : ArtifactRecord) (actor : string) (now : timestamp) (protect : bool)
| OpReleaseDeletion (id : string)
| OpRecordDeletion (id reason actor : string) (now : timestamp) (expected : option ArtifactRecord).

Definition drop_value {A} (r : catalog_result (catalog * A)) : catalog_result catalog :=
  match r with Ok (c, _) => Ok c | Err e => Err e end.

Definition run_op (op : catalog_op) (c : catalog) : catalog_result catalog :=
  match op with
  | OpAdd r now => drop_value (add r now c)
  | OpSetPreserve id reason actor now => drop_value (set_preserve id reason actor now c)
  | OpClearPreserve id actor reason now => drop_value (clear_preserve id actor reason now c)
  | OpMarkVerified id sha sz now => drop_value (mark_verified id sha sz now c)
  | OpMarkUnverified id => drop_value (mark_unverified id c)
  | OpClaimDeletion e actor now protect => claim_deletion e actor now protect c
  | OpReleaseDeletion id => Ok (release_deletion id c)
  | OpRecordDeletion id reason actor now e => drop_value (record_deletion id reason actor now e c)
  end.

(** What a sequence of calls leaves: a refused call rolls back. *)
Definition exec_op (c : catalog) (op : catalog_op) : catalog :=
  match run_op op c with Ok c' => c' | Err _ => c end.

Inductive reachable : catalog → Prop :=
| reach_empty : reachable empty_catalog
| reach_step c op c' : reachable c → run_op op c = Ok c' → reachable c'.

(** ** The invariant *)

Definition last_action (id : string) (evs : list PreserveEvent) : option preserve_action :=
  ev_action <$> last (List.filter (λ e, String.eqb (ev_artifact_id e) id) evs).

Record row_ok (id : string) (evs : list PreserveEvent) (r : row) : Prop := {
  ro_id : artifact_id (row_record r) = id;
  ro_valid : validate_record (row_record r) = Ok (row_record r);
  (** a pin names its actor, an unpinned record carries no pin details *)
  ro_preserved : if preserved (row_record r) then preserved_by (row_record r) ≠ ""
                 else preserve_reason (row_record r) = "" ∧ preserved_by (row_record r) = "";
  ro_verified_at : is_Some (verified_at r) ↔ verified (row_record r) = true;
  ro_preserved_at : is_Some (preserved_at r) ↔ preserved (row_record r) = true;
  (** a pin and a deletion claim exclude each other *)
  ro_claimed : is_Some (deletion_claimed_at r) → preserved (row_record r) = false;
  (** the audit trail agrees with the flag *)
  ro_audit : preserved (row_record r) = true ↔ last_action id evs = Some Preserve;
}.

Record catalog_ok (c : catalog) : Prop := {
  co_rows : ∀ id r, artifacts c !! id = Some r → row_ok id (preserve_events c) r;
  co_tombstones : ∀ id t, tombstone_table c !! id = Some t →
    artifact_id (ts_record t) = id ∧ preserved (ts_record t) = false;
  (** an id is live or deleted, never both, and is never reused *)
  co_disjoint : ∀ id, is_Some (artifacts c !! id) → tombstone_table c !! id = None;
  (** no two live records share a location and name *)
  co_unique : ∀ id1 id2 r1 r2,
    artifacts c !! id1 = Some r1 → artifacts c !! id2 = Some r2 →
    location (row_record r1) = location (row_record r2) →
    name (row_record r1) = name (row_record r2) → id1 = id2;
  co_events : ∀ e, e ∈ preserve_events c →
    is_Some (artifacts c !! ev_artifact_id e) ∨ is_Some (tombstone_table c !! ev_artifact_id e);
}.

(** *** Lemmas on the audit trail *)

Lemma last_action_snoc id evs e :
  last_action id (evs ++ [e]) =
    if String.eqb (ev_artifact_id e) id then Some (ev_action e) else last_action id evs.
Proof.
  unfold last_action. rewrite List.filter_app. simpl.
  destruct (String.eqb _ _); [by rewrite last_snoc|by rewrite app_nil_r].
Qed.

Lemma last_action_none id evs :
  (∀ e, e ∈ evs → ev_artifact_id e ≠ id) → last_action id evs = None.
Proof.
  intros H. unfold last_action.
  assert (List.filter (λ e, String.eqb (ev_artifact_id e) id) evs = []) as ->; [|done].
  induction evs as [|e evs IH]; simpl; [done|].
  rewrite (proj2 (String.eqb_neq _ _)) by (apply H; left). apply IH.
  intros e' ?. apply H. by right.
Qed.

(** *** Lemmas on the tables *)

Lemma elem_of_live_records c r :
  r ∈ live_records c ↔ ∃ id rw, artifacts c !! id = Some rw ∧ row_record rw = r.
Proof.
  unfold live_records. rewrite list_elem_of_fmap. split.
  - intros (rw & -> & ([id rw'] & -> & H)%list_elem_of_fmap).
    apply elem_of_map_to_list in H. eauto.
  - intros (id & rw & H & <-). exists rw. split; [done|]. apply list_elem_of_fmap.
    exists (id, rw). split; [done|]. by apply elem_of_map_to_list.
Qed.

Lemma name_taken_false loc nm c :
  name_taken loc nm c = false →
  ∀ id r, artifacts c !! id = Some r → location (row_record r) = loc → name (row_record r) ≠ nm.
Proof.
  intros H id r Hr Hl Hn. apply not_true_iff_false in H. apply H. unfold name_taken.
  apply existsb_exists. exists (row_record r). split.
  - apply list_elem_of_In, elem_of_live_records. eauto.
  - by rewrite Hl, Hn, !String.eqb_refl.
Qed.

Lemma require_live_Ok id c r : require_live id c = Ok r ↔ artifacts c !! id = Some r.
Proof. unfold require_live. by destruct (artifacts c !! id); split; intros [= ->]. Qed.

(** Open one successful catalog call. *)
Ltac open_call H :=
  cbn [mbind result_bind] in H;
  repeat match type of H with
  | context [require_text ?a ?b ?c] =>
      let E := fresh "Etext" in destruct (require_text a b c) eqn:E; [|discriminate H];
      cbn [mbind result_bind] in H
  | context [utc ?t] =>
      let E := fresh "Eutc" in destruct (utc t) eqn:E; [|discriminate H];
      cbn [mbind result_bind] in H
  | context [require_live ?a ?b] =>
      let E := fresh "Elive" in destruct (require_live a b) eqn:E; [|discriminate H];
      cbn [mbind result_bind] in H; apply require_live_Ok in E
  | (if ?b then Err _ else _) = Ok _ =>
      let E := fresh "Eguard" in destruct b eqn:E; [discriminate H|]
  end.

(** *** Validation *)

Lemma validate_record_shape r r' :
  validate_record r = Ok r' → ∃ t, created_at r = Aware t ∧ r' = r.
Proof.
  unfold validate_record, validate_backup_class, validate_location.
  repeat match goal with
  | |- (if ?b then Err _ else _) = _ → _ => destruct b; [discriminate|]
  | |- ((if ?b then Err _ else _) ≫= _) = _ → _ => destruct b; [discriminate|]; cbn [mbind result_bind]
  end.
  destruct (validate_object_name (name r)); [|discriminate]. cbn [mbind result_bind].
  repeat (match goal with |- (if ?b then Err _ else _) = _ → _ => destruct b; [discriminate|] end).
  destruct (res_mapM _ _); [|discriminate]. cbn [mbind result_bind].
  destruct (created_at r) as [u|t] eqn:Et; simpl; [discriminate|].
  intros [= <-]. exists t. split; [done|]. rewrite <-Et. by destruct r.
Qed.

(** Validation looks neither at the pin nor at the verification flag. *)
Lemma validate_with_preserve p a b r r' :
  validate_record r = Ok r' →
  validate_record (with_preserve p a b r) = Ok (with_preserve p a b r).
Proof.
  intros H. destruct (validate_record_shape r r' H) as (t & Et & ->).
  revert H. unfold validate_record. cbn [with_preserve artifact_id backup_class location name
    created_at size sha256 change_ids].
  destruct (negb (is_artifact_id _)); [done|].
  destruct (validate_backup_class _); [|done]. cbn [mbind result_bind].
  destruct (validate_location _); [|done]. cbn [mbind result_bind].
  destruct (validate_object_name _); [|done]. cbn [mbind result_bind].
  destruct (size r <? 0); [done|]. destruct (negb (is_sha256 _)); [done|].
  destruct (MAX_CHANGE_IDS <? _); [done|].
  destruct (res_mapM _ _); [|done]. cbn [mbind result_bind]. intros _.
  unfold with_created_at, with_preserve, with_verified. by rewrite !Et.
Qed.
Lemma validate_with_verified v r r' :
  validate_record r = Ok r' →
  validate_record (with_verified v r) = Ok (with_verified v r).
Proof.
  intros H. destruct (validate_record_shape r r' H) as (t & Et & ->).
  revert H. unfold validate_record. cbn [with_verified artifact_id backup_class location name
    created_at size sha256 change_ids].
  destruct (negb (is_artifact_id _)); [done|].
  destruct (validate_backup_class _); [|done]. cbn [mbind result_bind].
  destruct (validate_location _); [|done]. cbn [mbind result_bind].
  destruct (validate_object_name _); [|done]. cbn [mbind result_bind].
  destruct (size r <? 0); [done|]. destruct (negb (is_sha256 _)); [done|].
  destruct (MAX_CHANGE_IDS <? _); [done|].
  destruct (res_mapM _ _); [|done]. cbn [mbind result_bind]. intros _.
  unfold with_created_at, with_preserve, with_verified. by rewrite !Et.
Qed.

Lemma require_text_required v label x : require_text v label true = Ok x → x ≠ "".
Proof.
  unfold require_text. destruct (_ || _); [discriminate|].
  destruct (String.eqb_spec (py_strip v) ""); simpl; [discriminate|]. by intros [= <-].
Qed.

(** *** Preservation *)

Lemma row_ok_events id evs evs' r :
  last_action id evs' = last_action id evs → row_ok id evs r → row_ok id evs' r.
Proof. intros E []. constructor; try done. by rewrite E. Qed.

Lemma update_ok c id r r' evs' :
  catalog_ok c → artifacts c !! id = Some r →
  location (row_record r') = location (row_record r) →
  name (row_record r') = name (row_record r) →
  row_ok id evs' r' →
  (∀ id', id' ≠ id → last_action id' evs' = last_action id' (preserve_events c)) →
  (∀ e, e ∈ evs' → e ∈ preserve_events c ∨ ev_artifact_id e = id) →
  catalog_ok (mkCatalog (<[id := r']> (artifacts c)) (tombstone_table c) evs').
Proof.
  intros Hc Hr Hl Hn Hrow Hev Hin. constructor; simpl.
  - intros id' r0. destruct (decide (id' = id)) as [->|Hne].
    + rewrite lookup_insert_eq. by intros [= <-].
    + rewrite lookup_insert_ne by done. intros H0%(co_rows _ Hc).
      by eapply row_ok_events; [apply Hev|].
  - apply (co_tombstones _ Hc).
  - intros id' [x Hx]. apply (co_disjoint _ Hc). destruct (decide (id' = id)) as [->|];
      [by rewrite Hr|rewrite lookup_insert_ne in Hx by done; by rewrite Hx].
  - intros id1 id2 r1 r2 H1 H2 El En.
    destruct (decide (id1 = id)) as [->|], (decide (id2 = id)) as [->|]; [done|..];
      simplify_map_eq; eapply (co_unique _ Hc); try done; congruence.
  - intros e He. destruct (Hin e He) as [He'| ->].
    + destruct (co_events _ Hc e He') as [[x Hx]|]; [left|by right].
      destruct (decide (ev_artifact_id e = id)) as [->|];
        [rewrite lookup_insert_eq; eauto|rewrite lookup_insert_ne by done; eauto].
    + left. rewrite lookup_insert_eq. eauto.
Qed.

Lemma update_row_ok c id r r' :
  catalog_ok c → artifacts c !! id = Some r →
  location (row_record r') = location (row_record r) →
  name (row_record r') = name (row_record r) →
  row_ok id (preserve_events c) r' → catalog_ok (update_row id r' c).
Proof. intros. unfold update_row. eapply update_ok; eauto. Qed.

Lemma update_log_ok c id r r' e :
  catalog_ok c → artifacts c !! id = Some r → ev_artifact_id e = id →
  location (row_record r') = location (row_record r) →
  name (row_record r') = name (row_record r) →
  row_ok id (preserve_events c ++ [e]) r' → catalog_ok (log_event e (update_row id r' c)).
Proof.
  intros Hc Hr He Hl Hn Hrow. unfold log_event, update_row; simpl. eapply update_ok; try done.
  - intros id' Hne. rewrite last_action_snoc, He.
    rewrite (proj2 (String.eqb_neq id id')); [done|congruence].
  - intros e' [?| ->%list_elem_of_singleton]%elem_of_app; auto.
Qed.

(** What a successful [add] has checked, and the row it stores. *)
Definition add_events (rec : ArtifactRecord) (stamp : timestamp) (c : catalog) :
    list PreserveEvent :=
  if preserved rec
  then (preserve_events c ++ [mkEvent (artifact_id rec) Preserve (preserve_reason rec)
          (preserved_by rec) stamp])%list
  else preserve_events c.

Lemma add_Ok r now c c' x :
  add r now c = Ok (c', x) →
  ∃ reason by_ stamp, let rec := with_preserve (preserved r) reason by_ r in
    validate_record r = Ok r ∧ x = rec
    ∧ (if preserved r then by_ ≠ "" else reason = "" ∧ by_ = "")
    ∧ tombstone_table c !! artifact_id rec = None ∧ artifacts c !! artifact_id rec = None
    ∧ name_taken (location rec) (name rec) c = false
    ∧ c' = mkCatalog
        (<[artifact_id rec :=
             mkRow rec (if verified rec then Some stamp else None)
               (if preserved rec then Some stamp else None) None "" stamp]> (artifacts c))
        (tombstone_table c) (add_events rec stamp c).
Proof.
  unfold add.
  destruct (validate_record r) as [r0|] eqn:Ev; cbn [mbind result_bind]; [|discriminate].
  destruct (validate_record_shape _ _ Ev) as (t0 & Et0 & ->).
  destruct (require_text (preserve_reason r) _ _) as [reason|]; cbn [mbind result_bind]; [|discriminate].
  destruct (require_text (preserved_by r) _ _) as [by_|]; cbn [mbind result_bind]; [|discriminate].
  destruct (preserved r && String.eqb by_ "") eqn:E1; [discriminate|].
  destruct (negb (preserved r) && _) eqn:E2; [discriminate|].
  destruct (utc now) as [stamp|]; cbn [mbind result_bind]; [|discriminate].
  destruct (bool_decide (is_Some (tombstone_table c !! _))) eqn:E3; [discriminate|].
  destruct (_ || name_taken _ _ _) eqn:E4; [discriminate|]. intros [= <- <-].
  apply bool_decide_eq_false in E3. apply orb_false_iff in E4 as [E4%bool_decide_eq_false E5].
  exists reason, by_, stamp. simpl. split_and!; try done; try by apply eq_None_not_Some.
  - destruct (preserved r); simpl in *; to_prop; [done|].
    by destruct (String.eqb_spec reason ""), (String.eqb_spec by_ "").
  - unfold add_events. simpl. by destruct (preserved r).
Qed.

Lemma add_ok r now c c' x : catalog_ok c → add r now c = Ok (c', x) → catalog_ok c'.
Proof.
  intros Hc (reason & by_ & stamp & Ev & _ & Hpin & E3 & E4 & E5 & ->)%add_Ok.
  set (rec := with_preserve (preserved r) reason by_ r) in *.
  pose proof (name_taken_false _ _ _ E5) as Hfree. set (id := artifact_id rec) in *.
  assert (∀ e, e ∈ preserve_events c → ev_artifact_id e ≠ id) as Hnew.
  { intros e He Hid. destruct (co_events _ Hc e He) as [[y Hy]|[y Hy]]; congruence. }
  set (rw := mkRow rec _ _ None "" stamp).
  set (evs := add_events rec stamp c).
  assert (last_action id evs = if preserved rec then Some Preserve else None) as Hlast.
  { unfold evs, add_events. destruct (preserved rec); [|by apply last_action_none].
    rewrite last_action_snoc; simpl. by rewrite String.eqb_refl. }
  assert (row_ok id evs rw) as Hrow.
  { constructor; simpl; try done.
    - by eapply validate_with_preserve.
    - destruct (verified r); split; try done; by intros [].
    - destruct (preserved r); split; try done; by intros [].
    - rewrite Hlast. simpl. by destruct (preserved r). }
  constructor; simpl.
  - intros id' r0. destruct (decide (id' = id)) as [->|Hne].
    + rewrite lookup_insert_eq. by intros [= <-].
    + rewrite lookup_insert_ne by done. intros H0%(co_rows _ Hc).
      eapply row_ok_events; [|done]. unfold evs, add_events. destruct (preserved rec); [|done].
      rewrite last_action_snoc. cbn [ev_artifact_id]. fold id.
      rewrite (proj2 (String.eqb_neq id id')); [done|congruence].
  - apply (co_tombstones _ Hc).
  - intros id' [y Hy]. destruct (decide (id' = id)) as [->|].
    + done.
    + rewrite lookup_insert_ne in Hy by done. apply (co_disjoint _ Hc). by rewrite Hy.
  - intros id1 id2 r1 r2 H1 H2 El En.
    destruct (decide (id1 = id)) as [->|], (decide (id2 = id)) as [->|]; [done|..];
      simplify_map_eq.
    + by destruct (Hfree id2 r2).
    + by destruct (Hfree id1 r1).
    + by eapply (co_unique _ Hc).
  - intros e He. assert (e ∈ preserve_events c ∨ ev_artifact_id e = id) as [He'|He'].
    { unfold evs, add_events in He. destruct (preserved rec); [|by left].
      apply elem_of_app in He as [?| ->%list_elem_of_singleton]; auto. }
    + destruct (co_events _ Hc e He') as [[y Hy]|]; [left|by right].
      rewrite lookup_insert_ne; [eauto|]. intros E'. by destruct (Hnew e He').
    + left. rewrite He', lookup_insert_eq. eauto.
Qed.

Lemma set_preserve_ok id reason actor now c c' x :
  catalog_ok c → set_preserve id reason actor now c = Ok (c', x) → catalog_ok c'.
Proof.
  intros Hc H. unfold set_preserve in H. open_call H. injection H as <- <-.
  pose proof (co_rows _ Hc _ _ Elive) as Hr. apply bool_decide_eq_false in Eguard.
  eapply update_log_ok; try done. constructor; simpl; try done.
  - apply Hr.
  - by eapply validate_with_preserve, Hr.
  - by eapply require_text_required.
  - apply Hr.
  - rewrite last_action_snoc. cbn [ev_artifact_id]. by rewrite String.eqb_refl.
Qed.

Lemma clear_preserve_ok id actor reason now c c' x :
  catalog_ok c → clear_preserve id actor reason now c = Ok (c', x) → catalog_ok c'.
Proof.
  intros Hc H. unfold clear_preserve in H. open_call H. injection H as <- <-.
  pose proof (co_rows _ Hc _ _ Elive) as Hr.
  eapply update_log_ok; try done. constructor; simpl; try done.
  - apply Hr.
  - by eapply validate_with_preserve, Hr.
  - apply Hr.
  - rewrite last_action_snoc. cbn [ev_artifact_id]. rewrite String.eqb_refl. by split.
Qed.

Lemma mark_verified_ok id sha sz now c c' x :
  catalog_ok c → mark_verified id sha sz now c = Ok (c', x) → catalog_ok c'.
Proof.
  intros Hc H. unfold mark_verified in H. open_call H. injection H as <- <-.
  pose proof (co_rows _ Hc _ _ Elive) as Hr.
  eapply update_row_ok; try done. constructor; simpl; try apply Hr.
  - by eapply validate_with_verified, Hr.
  - split; eauto.
Qed.

Lemma mark_unverified_ok id c c' x :
  catalog_ok c → mark_unverified id c = Ok (c', x) → catalog_ok c'.
Proof.
  intros Hc H. unfold mark_unverified in H. open_call H. injection H as <- <-.
  pose proof (co_rows _ Hc _ _ Elive) as Hr.
  eapply update_row_ok; try done. constructor; simpl; try apply Hr.
  - by eapply validate_with_verified, Hr.
  - split; [by intros []|done].
Qed.

(** What a successful claim has checked. *)
Lemma claim_deletion_Ok e actor now protect c c' :
  claim_deletion e actor now protect c = Ok c' →
  ∃ r actor' stamp, artifacts c !! artifact_id e = Some r ∧ deletion_claimed_at r = None
    ∧ row_record r = e ∧ preserved e = false
    ∧ (protect = true → newest_verified_id (backup_class e) (location e) c ≠ Some (artifact_id e))
    ∧ c' = update_row (artifact_id e)
             (mkRow e (verified_at r) (preserved_at r) (Some stamp) actor' (cataloged_at r)) c.
Proof.
  intros H. unfold claim_deletion in H. open_call H.
  destruct (artifacts c !! artifact_id e) as [r|] eqn:Er; [|discriminate]. open_call H.
  injection H as <-. to_prop. subst e. exists r, a, a0. split_and!; try done.
  - destruct (deletion_claimed_at r); [|done]. by destruct Eguard.
  - intros ->. simpl in *. by to_prop.
Qed.

Lemma claim_deletion_ok e actor now protect c c' :
  catalog_ok c → claim_deletion e actor now protect c = Ok c' → catalog_ok c'.
Proof.
  intros Hc (r & actor' & stamp & Hl & _ & <- & Hp & _ & ->)%claim_deletion_Ok.
  pose proof (co_rows _ Hc _ _ Hl) as Hr.
  eapply update_row_ok; try done. constructor; simpl; try done; apply Hr.
Qed.

Lemma release_deletion_ok id c : catalog_ok c → catalog_ok (release_deletion id c).
Proof.
  intros Hc. unfold release_deletion. destruct (artifacts c !! id) as [r|] eqn:Hl; [|done].
  pose proof (co_rows _ Hc _ _ Hl) as Hr.
  eapply update_row_ok; try done. constructor; simpl; try apply Hr. by intros [].
Qed.

Lemma record_deletion_Ok id reason actor now e c c' x :
  record_deletion id reason actor now e c = Ok (c', x) →
  ∃ r reason' actor' stamp, artifacts c !! id = Some r ∧ preserved (row_record r) = false
    ∧ (∀ e', e = Some e' → row_record r = e')
    ∧ tombstone_table c !! artifact_id (row_record r) = None
    ∧ c' = mkCatalog (delete id (artifacts c))
        (<[artifact_id (row_record r) :=
             mkTombstone (with_preserve false "" "" (row_record r)) stamp reason' actor']>
           (tombstone_table c)) (preserve_events c).
Proof.
  intros H. unfold record_deletion in H. open_call H. injection H as <- <-. to_prop.
  exists a2, a, a0, a1. split_and!; try done.
  - intros e' ->. simpl in *. by to_prop.
  - by apply eq_None_not_Some.
Qed.

Lemma record_deletion_ok id reason actor now e c c' x :
  catalog_ok c → record_deletion id reason actor now e c = Ok (c', x) → catalog_ok c'.
Proof.
  intros Hc (r & reason' & actor' & stamp & Hl & Hp & _ & Ht & ->)%record_deletion_Ok.
  pose proof (co_rows _ Hc _ _ Hl) as Hr. rewrite (ro_id _ _ _ Hr) in *.
  constructor; simpl.
  - intros id' r' [Hne H']%lookup_delete_Some. by apply (co_rows _ Hc).
  - intros id' t. destruct (decide (id' = id)) as [->|].
    + rewrite lookup_insert_eq. intros [= <-]; simpl. split; [apply Hr|done].
    + rewrite lookup_insert_ne by done. apply (co_tombstones _ Hc).
  - intros id' [y [Hne Hy]%lookup_delete_Some]. rewrite lookup_insert_ne by done.
    apply (co_disjoint _ Hc). eauto.
  - intros id1 id2 r1 r2 [? H1]%lookup_delete_Some [? H2]%lookup_delete_Some.
    by apply (co_unique _ Hc).
  - intros e' He'. destruct (decide (ev_artifact_id e' = id)) as [->|].
    + right. rewrite lookup_insert_eq. eauto.
    + destruct (co_events _ Hc e' He'); [left; by rewrite lookup_delete_ne|right].
      by rewrite lookup_insert_ne.
Qed.

Lemma run_op_ok op c c' : catalog_ok c → run_op op c = Ok c' → catalog_ok c'.
Proof.
  intros Hc H. destruct op; simpl in H;
    try (unfold drop_value in H; match type of H with (match ?x with _ => _ end) = _ =>
      destruct x as [[c0 v]|] eqn:E; [|discriminate]; injection H as <- end).
  - by eapply add_ok.
  - by eapply set_preserve_ok.
  - by eapply clear_preserve_ok.
  - by eapply mark_verified_ok.
  - by eapply mark_unverified_ok.
  - by eapply claim_deletion_ok.
  - injection H as <-. by apply release_deletion_ok.
  - by eapply record_deletion_ok.
Qed.

Lemma empty_catalog_ok : catalog_ok empty_catalog.
Proof.
  constructor; simpl.
  - intros id r. by rewrite lookup_empty.
  - intros id t. by rewrite lookup_empty.
  - intros id [x Hx]. by rewrite lookup_empty in Hx.
  - intros id1 id2 r1 r2. by rewrite lookup_empty.
  - by intros e ?%not_elem_of_nil.
Qed.

Lemma reachable_ok c : reachable c → catalog_ok c.
Proof. induction 1; [apply empty_catalog_ok|by eapply run_op_ok]. Qed.

Lemma exec_op_ok c op : catalog_ok c → catalog_ok (exec_op c op).
Proof. intros. unfold exec_op. destruct (run_op op c) eqn:E; [by eapply run_op_ok|done]. Qed.

#[export] Hint Resolve empty_catalog_ok run_op_ok reachable_ok exec_op_ok : py.

(** ** The order of records *)

Lemma record_leb_total a b : record_leb a b = true ∨ record_leb b a = true.
Proof.
  unfold record_leb.
  destruct (Z.ltb_spec (instant (created_at a)) (instant (created_at b))),
    (Z.ltb_spec (instant (created_at b)) (instant (created_at a))); simpl; auto.
  rewrite !(proj2 (Z.eqb_eq _ _)) by lia. simpl. apply str_leb_total.
Qed.

Lemma record_leb_iff a b :
  record_leb a b = true ↔
  instant (created_at a) < instant (created_at b)
  ∨ instant (created_at a) = instant (created_at b) ∧ str_leb (artifact_id a) (artifact_id b) = true.
Proof. unfold record_leb. by rewrite orb_true_iff, andb_true_iff, Z.ltb_lt, Z.eqb_eq. Qed.

Lemma record_leb_trans a b c :
  record_leb a b = true → record_leb b c = true → record_leb a c = true.
Proof.
  rewrite !record_leb_iff. intros [?|[E1 ?]] [?|[E2 ?]]; try (left; lia).
  right. split; [lia|]. by eapply str_leb_trans.
Qed.

Lemma record_leb_antisym a b :
  record_leb a b = true → record_leb b a = true → artifact_id a = artifact_id b.
Proof.
  rewrite !record_leb_iff. intros [?|[E1 ?]] [?|[E2 ?]]; try lia. by apply str_leb_antisym.
Qed.

Lemma record_geb_sorted l : StronglySorted (le_of record_geb) (sort_by record_geb l).
Proof.
  apply sort_by_sorted; unfold record_geb.
  - intros x y. destruct (record_leb_total x y); auto.
  - intros x y z ? ?. by eapply record_leb_trans.
Qed.

(** A live record with a given id is unique. *)
Lemma live_id_unique c r1 r2 :
  catalog_ok c → r1 ∈ live_records c → r2 ∈ live_records c →
  artifact_id r1 = artifact_id r2 → r1 = r2.
Proof.
  intros Hc (i1 & w1 & H1 & <-)%elem_of_live_records (i2 & w2 & H2 & <-)%elem_of_live_records E.
  pose proof (ro_id _ _ _ (co_rows _ Hc _ _ H1)). pose proof (ro_id _ _ _ (co_rows _ Hc _ _ H2)).
  congruence.
Qed.

Lemma live_records_NoDup c : catalog_ok c → NoDup (live_records c).
Proof.
  intros Hc. unfold live_records.
  assert (NoDup (artifact_id <$> (row_record <$> (map_to_list (artifacts c)).*2))) as H;
    [|by apply NoDup_fmap_1 in H].
  assert (artifact_id <$> (row_record <$> (map_to_list (artifacts c)).*2)
    = (map_to_list (artifacts c)).*1) as ->.
  { rewrite <-!list_fmap_compose. apply list_fmap_ext.
    intros i [id w] Hi%list_elem_of_lookup_2. simpl.
    apply elem_of_map_to_list in Hi. apply (ro_id _ _ _ (co_rows _ Hc _ _ Hi)). }
  apply NoDup_fst_map_to_list.
Qed.

(** [_newest_verified_id] is the maximum of the group. *)
Lemma newest_verified_id_spec cls loc c id :
  newest_verified_id cls loc c = Some id →
  ∃ r, artifact_id r = id ∧ r ∈ live_records c ∧ backup_class r = cls ∧ location r = loc
    ∧ verified r = true
    ∧ ∀ r', r' ∈ live_records c → backup_class r' = cls → location r' = loc →
        verified r' = true → record_leb r' r = true.
Proof.
  unfold newest_verified_id. set (l := List.filter _ _).
  assert (∀ r, r ∈ l ↔ r ∈ live_records c ∧ backup_class r = cls ∧ location r = loc ∧ verified r = true) as Hl.
  { intros r. unfold l. rewrite !list_elem_of_In, List.filter_In, !andb_true_iff, !String.eqb_eq. tauto. }
  pose proof (record_geb_sorted l) as Hs. destruct (sort_by record_geb l) as [|r rs] eqn:Es; [done|].
  intros [= <-]. assert (r ∈ l) as Hr by (apply (elem_of_sort_by record_geb); rewrite Es; left).
  exists r. apply Hl in Hr as (? & ? & ? & ?). split_and!; try done.
  intros r' ? ? ? ?. assert (r' ∈ sort_by record_geb l) as Hr' by (apply elem_of_sort_by, Hl; auto).
  rewrite Es in Hr'. apply elem_of_cons in Hr' as [->|Hr'].
  - by destruct (record_leb_total r r).
  - inversion Hs as [|? ? _ HF]; subst. rewrite Forall_forall in HF. by apply HF.
Qed.

Lemma newest_verified_id_None cls loc c :
  newest_verified_id cls loc c = None →
  ∀ r, r ∈ live_records c → backup_class r = cls → location r = loc → verified r = false.
Proof.
  unfold newest_verified_id. set (l := List.filter _ _).
  destruct (sort_by record_geb l) as [|r rs] eqn:Es; [|done]. intros _ r Hr Hc Hl.
  destruct (verified r) eqn:Hv; [|done]. exfalso.
  assert (r ∈ sort_by record_geb l) as H; [|rewrite Es in H; by apply not_elem_of_nil in H].
  apply elem_of_sort_by. unfold l. apply list_elem_of_In, List.filter_In. split; [by apply list_elem_of_In|].
  by rewrite Hc, Hl, Hv, !String.eqb_refl.
Qed.

Definition verified_copy (cls loc : string) (c : catalog) (r : ArtifactRecord) : Prop :=
  r ∈ live_records c ∧ backup_class r = cls ∧ location r = loc ∧ verified r = true.

Lemma newest_verified_id_iff cls loc c id :
  newest_verified_id cls loc c = Some id ↔
  ∃ r, artifact_id r = id ∧ verified_copy cls loc c r
    ∧ ∀ r', verified_copy cls loc c r' → record_leb r' r = true.
Proof.
  unfold verified_copy. split.
  - intros (r & ? & ? & ? & ? & ? & H)%newest_verified_id_spec. exists r. split_and!; try done.
    intros r' (? & ? & ? & ?). by apply H.
  - intros (r & <- & (Hl & Hc & Ho & Hv) & Hmax).
    destruct (newest_verified_id cls loc c) as [id|] eqn:E.
    + apply newest_verified_id_spec in E as (r0 & <- & ? & ? & ? & ? & H0).
      f_equal. apply record_leb_antisym; [apply Hmax|apply H0]; auto.
    + pose proof (newest_verified_id_None _ _ _ E _ Hl Hc Ho). congruence.
Qed.

(** Removing copies other than the newest verified one keeps it. *)
Lemma newest_verified_id_restrict (P : ArtifactRecord → Prop) cls loc c c' :
  (∀ r, r ∈ live_records c' ↔ r ∈ live_records c ∧ P r) →
  (∀ r, r ∈ live_records c → newest_verified_id cls loc c = Some (artifact_id r) → P r) →
  newest_verified_id cls loc c' = newest_verified_id cls loc c.
Proof.
  intros Hl Hk. destruct (newest_verified_id cls loc c) as [id|] eqn:E.
  - apply newest_verified_id_iff. apply newest_verified_id_iff in E as (r & <- & (? & ? & ? & ?) & Hmax).
    exists r. unfold verified_copy in *. split_and!; try done; [apply Hl; auto|].
    intros r' ((? & ?)%Hl & ? & ? & ?). by apply Hmax.
  - destruct (newest_verified_id cls loc c') as [id|] eqn:E'; [|done].
    apply newest_verified_id_iff in E' as (r & <- & (Hr & ? & ? & Hv) & _).
    apply Hl in Hr as [Hr _]. by rewrite (newest_verified_id_None _ _ _ E r) in Hv.
Qed.

(** What a recorded deletion leaves. *)
Lemma record_deletion_moves id reason actor now e c c' x :
  catalog_ok c → record_deletion id reason actor now e c = Ok (c', x) →
  ∃ r, artifacts c !! id = Some r ∧ preserved (row_record r) = false
    ∧ (∀ e', e = Some e' → row_record r = e')
    ∧ artifacts c' = delete id (artifacts c)
    ∧ (∃ t, tombstone_table c' = <[id := t]> (tombstone_table c) ∧ ts_record t = row_record r)
    ∧ preserve_events c' = preserve_events c.
Proof.
  intros Hc (r & ? & ? & ? & Hl & Hp & He & _ & ->)%record_deletion_Ok.
  pose proof (co_rows _ Hc _ _ Hl) as Hr. pose proof (ro_preserved _ _ _ Hr) as Hpin.
  exists r. rewrite Hp in Hpin. split_and!; try done.
  eexists. simpl. rewrite (ro_id _ _ _ Hr). split; [done|]. simpl.
  destruct (row_record r); simpl in *. destruct Hpin as [-> ->]. by subst.
Qed.

(** ** What the catalog promises *)

(** [C17] The catalog invariant holds after every sequence of its calls: records
    are valid and filed under their ids, pins name their actor and agree with
    the audit trail, a pin and a deletion claim exclude each other, tombstones
    are never pinned, ids are never reused and live (location, name) pairs are
    unique. *)
Theorem catalog_invariant (c : catalog) (Hc : reachable c) : catalog_ok c.
Proof. by apply reachable_ok. Qed.

Definition sample_sha : string :=
  "0123456789abcdef0123456789abcdef0123456789abcdef0123456789abcdef".
Definition sample (id nm : string) (t : Z) : ArtifactRecord :=
  mkRecord id "full" "nas" nm (Aware t) 10 sample_sha true [] false "" "".
Definition sample_ops : list catalog_op :=
  [OpAdd (sample "a1" "x/a1" 100) (Aware 1); OpAdd (sample "a2" "x/a2" 200) (Aware 2);
   OpSetPreserve "a2" "keep" "ops" (Aware 3)].
Definition sample_catalog : catalog := foldl exec_op empty_catalog sample_ops.

Lemma exec_op_reachable c op : reachable c → reachable (exec_op c op).
Proof.
  intros H. unfold exec_op. destruct (run_op op c) eqn:E; [by eapply reach_step|done].
Qed.
Lemma exec_ops_reachable ops c : reachable c → reachable (foldl exec_op c ops).
Proof. revert c; induction ops; simpl; auto using exec_op_reachable. Qed.
Lemma sample_reachable : reachable sample_catalog.
Proof. apply exec_ops_reachable, reach_empty. Defined.

Lemma catalog_invariant_witness : catalog_ok sample_catalog.
Proof. apply (catalog_invariant sample_catalog sample_reachable). Defined.

Definition clears (id : string) (op : catalog_op) : Prop :=
  match op with OpClearPreserve id' _ _ _ => id' = id | _ => False end.

Lemma pinned_step c op id r :
  catalog_ok c → artifacts c !! id = Some r → preserved (row_record r) = true → ¬ clears id op →
  ∃ r', artifacts (exec_op c op) !! id = Some r' ∧ preserved (row_record r') = true
    ∧ location (row_record r') = location (row_record r)
    ∧ name (row_record r') = name (row_record r).
Proof.
  intros Hc Hr Hp Hop. unfold exec_op. destruct (run_op op c) as [c'|] eqn:E; [|by exists r].
  destruct op as [r0 now|id0 reason actor now|id0 actor reason now|id0 sha sz now|id0|e actor now pr|id0|id0 reason actor now e];
    simpl in E; try (unfold drop_value in E; match type of E with (match ?x with _ => _ end) = _ =>
      destruct x as [[c0 v]|] eqn:E'; [|discriminate]; injection E as <- end).
  - apply add_Ok in E' as (? & ? & ? & _ & _ & _ & _ & Hn & _ & ->). simpl in *.
    rewrite lookup_insert_ne by congruence. eauto.
  - unfold set_preserve in E'. open_call E'. injection E' as <- <-. simpl.
    destruct (decide (id0 = id)) as [->|]; [rewrite lookup_insert_eq|rewrite lookup_insert_ne by done; eauto].
    simplify_eq. eexists. split_and!; done.
  - unfold clear_preserve in E'. open_call E'. injection E' as <- <-. simpl in *.
    rewrite lookup_insert_ne by done. eauto.
  - unfold mark_verified in E'. open_call E'. injection E' as <- <-. simpl.
    destruct (decide (id0 = id)) as [->|]; [rewrite lookup_insert_eq|rewrite lookup_insert_ne by done; eauto].
    simplify_eq. eexists. split_and!; done.
  - unfold mark_unverified in E'. open_call E'. injection E' as <- <-. simpl.
    destruct (decide (id0 = id)) as [->|]; [rewrite lookup_insert_eq|rewrite lookup_insert_ne by done; eauto].
    simplify_eq. eexists. split_and!; done.
  - apply claim_deletion_Ok in E as (r1 & ? & ? & H1 & _ & <- & Hnp & _ & ->). simpl.
    destruct (decide (artifact_id (row_record r1) = id)) as [Ei|]; [|rewrite lookup_insert_ne by done; eauto].
    exfalso. rewrite Ei in H1. congruence.
  - injection E as <-. unfold release_deletion. destruct (artifacts c !! id0) as [r1|] eqn:H1; [|eauto]. simpl.
    destruct (decide (id0 = id)) as [->|]; [rewrite lookup_insert_eq|rewrite lookup_insert_ne by done; eauto].
    simplify_eq. eexists. split_and!; done.
  - apply record_deletion_Ok in E' as (r1 & ? & ? & ? & H1 & Hnp & _ & _ & ->). simpl.
    destruct (decide (id0 = id)) as [->|]; [congruence|]. rewrite lookup_delete_ne by done. eauto.
Qed.

(** A pinned copy cannot be lost: whatever calls follow (claims, deletions
    and releases by any caller included), as long as none of them clears its pin
    the copy stays in the catalog, pinned, under its location and name. *)
Theorem catalog_pin_is_permanent (c : catalog) (id : string) (r : row) (ops : list catalog_op)
  (Hc : reachable c) (Hr : artifacts c !! id = Some r) (Hp : preserved (row_record r) = true)
  (Hops : Forall (λ op, ¬ clears id op) ops) :
  ∃ r', artifacts (foldl exec_op c ops) !! id = Some r' ∧ preserved (row_record r') = true
    ∧ location (row_record r') = location (row_record r)
    ∧ name (row_record r') = name (row_record r).
Proof.
  apply reachable_ok in Hc. revert c r Hc Hr Hp. induction Hops as [|op ops Hop _ IH]; intros c r Hc Hr Hp.
  - by exists r.
  - destruct (pinned_step c op id r Hc Hr Hp Hop) as (r1 & H1 & Hp1 & El & En).
    destruct (IH (exec_op c op) r1 (exec_op_ok _ _ Hc) H1 Hp1) as (r2 & ? & ? & ? & ?).
    exists r2. split_and!; [done|done|congruence|congruence].
Qed.

Lemma catalog_pin_is_permanent_witness :
  ∃ r', artifacts (foldl exec_op sample_catalog
      [OpClaimDeletion (with_preserve true "keep" "ops" (sample "a2" "x/a2" 200)) "gc" (Aware 4) false;
       OpRecordDeletion "a2" "gc" "gc" (Aware 5) None]) !! "a2" = Some r'
    ∧ preserved (row_record r') = true.
Proof.
  destruct (artifacts sample_catalog !! "a2") as [r|] eqn:E; [|vm_compute in E; discriminate].
  assert (preserved (row_record r) = true) as Hp by (vm_compute in E; injection E as <-; reflexivity).
  destruct (catalog_pin_is_permanent sample_catalog "a2" r
    [OpClaimDeletion (with_preserve true "keep" "ops" (sample "a2" "x/a2" 200)) "gc" (Aware 4) false;
     OpRecordDeletion "a2" "gc" "gc" (Aware 5) None] sample_reachable E Hp) as (r' & H & H' & _).
  - repeat constructor; simpl; tauto.
  - exists r'. split; [exact H|exact H'].
Defined.

(** *** Audit trail *)

Definition audit_extends (c c' : catalog) : Prop :=
  (∃ evs, preserve_events c' = preserve_events c ++ evs)%list
  ∧ ∀ id t, tombstone_table c !! id = Some t → tombstone_table c' !! id = Some t.

Lemma audit_extends_refl c : audit_extends c c.
Proof. split; [exists []; by rewrite app_nil_r|done]. Qed.
Lemma audit_extends_trans c1 c2 c3 :
  audit_extends c1 c2 → audit_extends c2 c3 → audit_extends c1 c3.
Proof.
  intros [[e1 E1] T1] [[e2 E2] T2]. split; [|auto].
  exists (e1 ++ e2)%list. by rewrite E2, E1, app_assoc.
Qed.
#[export] Instance audit_extends_preorder : PreOrder audit_extends.
Proof. split; [exact audit_extends_refl|exact audit_extends_trans]. Qed.

(** Case analysis on a successful call: what it wrote. *)
Lemma run_op_shape op c c' :
  run_op op c = Ok c' →
  (∃ r x now, op = OpAdd r now ∧ add r now c = Ok (c', x))
  ∨ (∃ id r w evs, artifacts c !! id = Some r
      ∧ c' = mkCatalog (<[id := w]> (artifacts c)) (tombstone_table c) (preserve_events c ++ evs)
      ∧ location (row_record w) = location (row_record r)
      ∧ name (row_record w) = name (row_record r)
      ∧ artifact_id (row_record w) = artifact_id (row_record r)
      (* only a claim of a free copy and a release change the claim *)
      ∧ (deletion_claimed_at w = deletion_claimed_at r ∨ deletion_claimed_at r = None
         ∨ op = OpReleaseDeletion id))
  ∨ c' = c
  ∨ (∃ id reason actor now e x, op = OpRecordDeletion id reason actor now e
      ∧ record_deletion id reason actor now e c = Ok (c', x)).
Proof.
  intros E.
  destruct op as [r0 now|id0 reason actor now|id0 actor reason now|id0 sha sz now|id0|e actor now pr|id0|id0 reason actor now e];
    simpl in E; try (unfold drop_value in E; match type of E with (match ?x with _ => _ end) = _ =>
      destruct x as [[c0 v]|] eqn:E'; [|discriminate]; injection E as <- end).
  - left. eauto.
  - right; left. unfold set_preserve in E'. open_call E'. injection E' as <- <-. do 4 eexists. split_and!; try done; try reflexivity; auto.
  - right; left. unfold clear_preserve in E'. open_call E'. injection E' as <- <-. do 4 eexists. split_and!; try done; try reflexivity; auto.
  - right; left. unfold mark_verified in E'. open_call E'. injection E' as <- <-.
    do 3 eexists. exists []. rewrite app_nil_r. split_and!; try done; try reflexivity; auto.
  - right; left. unfold mark_unverified in E'. open_call E'. injection E' as <- <-.
    do 3 eexists. exists []. rewrite app_nil_r. split_and!; try done; try reflexivity; auto.
  - right; left. apply claim_deletion_Ok in E as (r1 & ? & ? & H1 & Hnc & <- & Hnp & _ & ->).
    do 3 eexists. exists []. rewrite app_nil_r. split_and!; try done; try reflexivity; auto.
  - injection E as <-. unfold release_deletion. destruct (artifacts c !! id0) as [r1|] eqn:H1; [|auto].
    right; left. do 3 eexists. exists []. rewrite app_nil_r. split_and!; try done; try reflexivity; auto.
  - right; right; right. eauto 10.
Qed.

Lemma run_op_audit op c c' : catalog_ok c → run_op op c = Ok c' → audit_extends c c'.
Proof.
  intros Hc E. destruct (run_op_shape _ _ _ E) as
    [(r & x & now & _ & Ea)|[(id & r & w & evs & _ & -> & _)|[->|(id & reason & actor & now & e & x & _ & Ed)]]].
  - apply add_Ok in Ea as (? & ? & ? & _ & _ & _ & _ & _ & _ & ->). split; [|done].
    simpl. unfold add_events. destruct (preserved _); [eauto|exists []; by rewrite app_nil_r].
  - split; simpl; eauto.
  - apply audit_extends_refl.
  - apply record_deletion_Ok in Ed as (r & ? & ? & ? & _ & _ & _ & Ht & ->).
    split; simpl; [exists []; by rewrite app_nil_r|]. intros id' t Ht'.
    rewrite lookup_insert_ne; [done|]. congruence.
Qed.

(** What was removed, and every pin and unpin, stays auditable: no call
    ever changes or removes a tombstone or a preserve event, whatever sequence
    of calls runs. *)
Theorem catalog_audit_is_append_only (c : catalog) (ops : list catalog_op) (Hc : reachable c) :
  audit_extends c (foldl exec_op c ops).
Proof.
  apply reachable_ok in Hc. revert c Hc. induction ops as [|op ops IH]; intros c Hc; simpl; [done|].
  etrans; [|by apply IH; auto with py]. unfold exec_op.
  destruct (run_op op c) eqn:E; [by eapply run_op_audit|done].
Qed.

Lemma catalog_audit_is_append_only_witness :
  audit_extends sample_catalog
    (foldl exec_op sample_catalog [OpRecordDeletion "a1" "gone" "gc" (Aware 5) None; OpReleaseDeletion "a1"]).
Proof. apply (catalog_audit_is_append_only sample_catalog _ sample_reachable). Defined.

(** [record_deletion] moves exactly one record: when it succeeds the copy
    was live, unpinned and equal to the expected record; it disappears from the
    live table, its tombstone keeps every field of it with the reason and actor,
    and every other row and tombstone is untouched.  When it fails the catalog
    is unchanged. *)
Theorem catalog_record_deletion_moves (c c' : catalog) (id reason actor : string)
  (now : timestamp) (e : option ArtifactRecord) (ts : Tombstone)
  (Hc : reachable c) (Hrun : record_deletion id reason actor now e c = Ok (c', ts)) :
  ∃ r, artifacts c !! id = Some r ∧ preserved (row_record r) = false
    ∧ (∀ e', e = Some e' → row_record r = e')
    ∧ artifacts c' = delete id (artifacts c)
    ∧ (∃ t, tombstone_table c' = <[id := t]> (tombstone_table c) ∧ ts_record t = row_record r)
    ∧ preserve_events c' = preserve_events c.
Proof.
  eapply record_deletion_moves; [by apply reachable_ok|exact Hrun].
Qed.

Lemma catalog_record_deletion_moves_witness :
  match record_deletion "a1" "old" "gc" (Aware 9) (Some (sample "a1" "x/a1" 100)) sample_catalog with
  | Ok (c', ts) => artifacts c' = delete "a1" (artifacts sample_catalog)
  | Err _ => False
  end.
Proof.
  destruct (record_deletion "a1" "old" "gc" (Aware 9) (Some (sample "a1" "x/a1" 100)) sample_catalog)
    as [[c' ts]|] eqn:E; [|vm_compute in E; discriminate].
  destruct (catalog_record_deletion_moves sample_catalog c' "a1" "old" "gc" (Aware 9)
    (Some (sample "a1" "x/a1" 100)) ts sample_reachable E) as (r & _ & _ & _ & H & _).
  exact H.
Defined.

(** *** Listing *)

Definition in_group (cls loc : option string) (r : ArtifactRecord) : Prop :=
  (∀ v, cls = Some v → backup_class r = v) ∧ (∀ v, loc = Some v → location r = v).

Lemma list_Ok cls loc c rs :
  list_ cls loc c = Ok rs →
  rs = sort_by record_leb (List.filter
          (λ r, match cls with None => true | Some v => String.eqb (backup_class r) v end
                && match loc with None => true | Some v => String.eqb (location r) v end)
          (live_records c)).
Proof.
  unfold list_, validate_backup_class, validate_location.
  destruct cls as [cls|], loc as [loc|]; simpl;
    repeat (match goal with |- context [if ?b then Err _ else _] => destruct b end; simpl; try done);
    by intros [= <-].
Qed.

Lemma opt_filter_iff (o : option string) (s : string) :
  match o with None => true | Some v => String.eqb s v end = true ↔ ∀ v, o = Some v → s = v.
Proof.
  destruct o as [v0|]; [rewrite String.eqb_eq|by split].
  split; [by intros -> v [= ->]|intros H; by apply H].
Qed.

Lemma list_elem cls loc c rs r :
  list_ cls loc c = Ok rs → r ∈ rs ↔ r ∈ live_records c ∧ in_group cls loc r.
Proof.
  intros ->%list_Ok. rewrite elem_of_sort_by, !list_elem_of_In, List.filter_In, andb_true_iff.
  unfold in_group. by rewrite !opt_filter_iff.
Qed.

Lemma list_sorted cls loc c rs :
  list_ cls loc c = Ok rs → StronglySorted (le_of record_leb) rs.
Proof.
  intros ->%list_Ok. apply sort_by_sorted; [exact record_leb_total|].
  intros x y z. apply record_leb_trans.
Qed.

Lemma list_NoDup cls loc c rs : catalog_ok c → list_ cls loc c = Ok rs → NoDup rs.
Proof.
  intros Hc ->%list_Ok. rewrite sort_by_perm.
  apply NoDup_ListNoDup, List.NoDup_filter, NoDup_ListNoDup. by apply live_records_NoDup.
Qed.

(** [list] returns exactly the live records of the requested class and
    location, each once, oldest first with ties broken by id; it refuses only an
    invalid class or location. *)
Theorem catalog_list_spec (c : catalog) (cls loc : option string) (Hc : reachable c) :
  match list_ cls loc c with
  | Ok rs => (∀ r, r ∈ rs ↔ r ∈ live_records c ∧ in_group cls loc r) ∧ NoDup rs
      ∧ StronglySorted (le_of record_leb) rs
  | Err _ => (∃ v, cls = Some v ∧ v ∉ BACKUP_CLASSES) ∨ (∃ v, loc = Some v ∧ is_location v = false)
  end.
Proof.
  apply reachable_ok in Hc. destruct (list_ cls loc c) as [rs|e] eqn:E.
  - split_and!; [intros r; by apply list_elem|by eapply list_NoDup|by eapply list_sorted].
  - revert E. unfold list_, validate_backup_class, validate_location.
    destruct cls as [cls|]; simpl; [destruct (bool_decide (cls ∈ BACKUP_CLASSES)) eqn:Ec; simpl|];
      try (apply bool_decide_eq_false in Ec; eauto; fail);
      destruct loc as [loc|]; simpl; try done; destruct (is_location loc) eqn:El; simpl; eauto; done.
Qed.

Lemma catalog_list_spec_witness :
  match list_ (Some "full") None sample_catalog with Ok rs => NoDup rs | Err _ => False end.
Proof.
  generalize (catalog_list_spec sample_catalog (Some "full") None sample_reachable).
  destruct (list_ (Some "full") None sample_catalog) as [rs|] eqn:E; [|vm_compute in E; discriminate].
  intros (_ & H & _). exact H.
Defined.

(** The (location, name) pair of a deleted copy can be catalogued again under a
    new id: only ids are checked against the tombstones. *)
Example tombstoned_name_is_reusable :
  let c := foldl exec_op sample_catalog [OpRecordDeletion "a1" "old" "gc" (Aware 9) None] in
  is_Some (tombstone_table c !! "a1")
  ∧ is_ok (add (sample "a3" "x/a1" 300) (Aware 10) c) = true
  ∧ is_ok (add (sample "a1" "x/new" 300) (Aware 10) c) = false.
Proof. vm_compute. split_and!; try reflexivity. eauto. Qed.
