(* ===== verification/Lifecycle.v ===== *)
(** * Retention and grooming of backup copies

    [history_service/backup_archive/lifecycle.py]: retention rules, the dry-run
    [plan], [apply] with its claim/delete/tombstone protocol, and [reconcile].
    Storage targets, their resolver, the clock and the other users of the
    catalog are the [World] of a run: an interface the code calls, with no
    definition of its own here. *)

From S2P Require Import Prelude PyStr Catalog.
From Stdlib Require Import String Ascii.
Import ArtifactCatalog.
#[local] Open Scope string_scope.
#[local] Open Scope Z_scope.

(** ** Rules *)

(** Durations are microseconds ([timedelta]). *)
Definition HOUR : Z := 3600000000.
Definition DEFAULT_UNVERIFIED_GRACE : Z := 24 * HOUR.

Inductive lifecycle_error :=
| LcCatalog (e : catalog_error)
| LcValueError (message : string).
Abbreviation lc_result := (result lifecycle_error).

Definition lift_catalog {A} (r : catalog_result A) : lc_result A :=
  match r with Ok a => Ok a | Err e => Err (LcCatalog e) end.

Record RetentionRule := mkRule {
  rule_class : string;
  rule_location : string;
  keep_count : option Z;
  max_age : option Z;
}.

(** [RetentionRule.__post_init__] *)
Definition new_rule (r : RetentionRule) : lc_result RetentionRule :=
  _ ← lift_catalog (validate_backup_class (rule_class r));
  _ ← lift_catalog (validate_location (rule_location r));
  raise: LcValueError "keep_count must be a non-negative integer or None."
    when match keep_count r with Some k => k <? 0 | None => false end;
  raise: LcValueError "max_age must be a positive timedelta or None."
    when match max_age r with Some a => a <=? 0 | None => false end;
  Ok r.

Inductive plan_kind := retention | unverified.
#[export] Instance plan_kind_eq_dec : EqDecision plan_kind.
Proof. solve_decision. Defined.
Definition kind_text (k : plan_kind) : string :=
  match k with retention => "retention" | unverified => "unverified" end.

Record PlanItem := mkItem {
  item_record : ArtifactRecord;
  item_reason : string;
  item_kind : plan_kind;
}.
#[export] Instance PlanItem_eq_dec : EqDecision PlanItem.
Proof. solve_decision. Defined.

Record GroomingPlan := mkPlan {
  generated_at : timestamp;
  items : list PlanItem;
  guarded : list PlanItem;
}.
Definition retention_items (p : GroomingPlan) : list PlanItem :=
  List.filter (λ i, bool_decide (item_kind i = retention)) (items p).
Definition unverified_items (p : GroomingPlan) : list PlanItem :=
  List.filter (λ i, bool_decide (item_kind i = unverified)) (items p).

Record LifecycleManager := mkManager {
  rules : list RetentionRule;      (* one per (class, location) key *)
  unverified_grace : Z;
}.

Definition rule_key_is (cls loc : string) (r : RetentionRule) : bool :=
  String.eqb (rule_class r) cls && String.eqb (rule_location r) loc.

(** [LifecycleManager.__post_init__] *)
Fixpoint collect_rules (rs seen : list RetentionRule) : lc_result (list RetentionRule) :=
  match rs with
  | [] => Ok seen
  | r :: rs' =>
      raise: LcValueError ("Duplicate retention rule for " +:+ rule_class r +:+ " at "
                           +:+ rule_location r +:+ ".")
        when existsb (rule_key_is (rule_class r) (rule_location r)) seen;
      collect_rules rs' (seen ++ [r])%list
  end.
Definition new_manager (rs : list RetentionRule) (grace : Z) : lc_result LifecycleManager :=
  raise: LcValueError "unverified_grace must be a non-negative timedelta." when grace <? 0;
  rs ← collect_rules rs [];
  Ok (mkManager rs grace).

(** ** Planning *)

Definition describe (delta : Z) : string :=
  let seconds := Z.quot delta 1000000 in
  if seconds mod 86400 =? 0 then py_str_int (seconds / 86400) +:+ "d"
  else if seconds mod 3600 =? 0 then py_str_int (seconds / 3600) +:+ "h"
  else py_str_int seconds +:+ "s".

Definition age (now : timestamp) (r : ArtifactRecord) : Z := instant now - instant (created_at r).

(** The limits the [rank]-th newest counted copy is past. *)
Definition retention_reasons (rule : RetentionRule) (now : timestamp) (rank : Z)
    (record : ArtifactRecord) : list string :=
  (match keep_count rule with
   | Some k => if k <? rank
               then ["beyond keep_count " +:+ py_str_int k +:+ " (newest #"
                     +:+ py_str_int rank +:+ ")"] else []
   | None => []
   end ++
   match max_age rule with
   | Some limit => if limit <? age now record
                   then ["older than max_age " +:+ describe limit +:+ " (age "
                         +:+ describe (age now record) +:+ ")"] else []
   | None => []
   end)%list.

(** One pass of the first loop of [_plan_group]: [inl] is an item, [inr] a
    guarded one. *)
Definition retention_item (c : catalog) (rule : RetentionRule) (now : timestamp)
    (newest_verified : option ArtifactRecord) (ranked : Z * ArtifactRecord) :
    list (PlanItem + PlanItem) :=
  let '(rank, record) := ranked in
  let reasons := retention_reasons rule now rank record in
  if negb (non_empty reasons) || is_deletion_claimed (artifact_id record) c then []
  else
    let item := mkItem record (py_join "; " reasons) retention in
    match newest_verified with
    | Some n => if String.eqb (artifact_id record) (artifact_id n) then [inr item] else [inl item]
    | None => [inl item]
    end.

Definition unverified_item (c : catalog) (grace : Z) (now : timestamp) (record : ArtifactRecord) :
    list (PlanItem + PlanItem) :=
  if verified record || preserved record || is_deletion_claimed (artifact_id record) c then []
  else if grace <? age now record then
    [inl (mkItem record ("unverified for longer than grace " +:+ describe grace +:+ " (age "
                         +:+ describe (age now record) +:+ ")") unverified)]
  else [].

(** [enumerate(l, start=1)] *)
Fixpoint enumerate {A} (start : Z) (l : list A) : list (Z * A) :=
  match l with [] => [] | x :: l' => (start, x) :: enumerate (start + 1) l' end.

Definition counted (records : list ArtifactRecord) : list ArtifactRecord :=
  sort_by record_geb (List.filter (λ r, negb (preserved r)) (List.filter verified records)).

Definition plan_group (m : LifecycleManager) (c : catalog) (rule : RetentionRule)
    (records : list ArtifactRecord) (now : timestamp) : list (PlanItem + PlanItem) :=
  let newest_verified := max_by record_leb (List.filter verified records) in
  ((enumerate 1 (counted records) ≫= retention_item c rule now newest_verified)
   ++ (records ≫= unverified_item c (unverified_grace m) now))%list.

Definition rule_leb (a b : RetentionRule) : bool :=
  if String.eqb (rule_class a) (rule_class b)
  then str_leb (rule_location a) (rule_location b)
  else str_leb (rule_class a) (rule_class b).

Definition plan_item_leb (a b : PlanItem) : bool := record_leb (item_record a) (item_record b).

Definition plan (m : LifecycleManager) (now : timestamp) (c : catalog) : catalog_result GroomingPlan :=
  now ← utc now;
  groups ← res_mapM (λ rule,
      records ← list_ (Some (rule_class rule)) (Some (rule_location rule)) c;
      Ok (plan_group m c rule records now)) (sort_by rule_leb (rules m));
  let entries := mjoin groups in
  Ok (mkPlan now
        (sort_by plan_item_leb (omap (λ e, match e with inl i => Some i | inr _ => None end) entries))
        (sort_by plan_item_leb (omap (λ e, match e with inr i => Some i | inl _ => None end) entries))).

(** ** Applying *)

(** What a target's [delete] does: return, raise [FileNotFoundError], raise a
    connection or timeout error, or raise anything else (with the text
    [describe_error] gives). *)
Inductive delete_outcome :=
| Deleted
| Missing
| Unreachable (message : string)
| Failed (message : string).

(** Everything [apply] calls outside the catalog.  [interfere] is what other
    users of the same catalog do between two calls of the run, while the run
    holds the claim on the given id. *)
Class World (W : Type) := {
  resolve : string → W → result string unit * W;
  target_delete : string → string → W → delete_outcome * W;
  clock : W → timestamp * W;
  interfere : option string → W → catalog → W * catalog;
}.

Record ApplyResult := mkApplyResult {
  deleted : list PlanItem;
  already_missing : list PlanItem;
  failed : option PlanItem;
  error : option string;
  not_attempted : list PlanItem;
  failed_locations : list (string * string);
}.
Definition complete (r : ApplyResult) : bool :=
  match failed r with None => negb (non_empty (not_attempted r)) | Some _ => false end.
Definition location_failed (loc : string) (fl : list (string * string)) : bool :=
  existsb (λ kv, String.eqb (fst kv) loc) fl.
Definition location_complete (r : ApplyResult) (loc : string) : bool :=
  if location_failed loc (failed_locations r) then false
  else if match failed r with Some i => String.eqb (location (item_record i)) loc | None => false end
  then false
  else negb (existsb (λ i, String.eqb (location (item_record i)) loc) (not_attempted r)).

(** [describe_error] of the catalog's own exceptions ([errors.py]). *)
Definition clean_text (s : string) : string :=
  py_join " " (py_split (text ((λ c, if is_printable c then c else " "%char) <$> chars s))).
Definition describe_error (e : catalog_error) : string :=
  py_take 300 match e with
              | CatalogError m =>
                  let m := clean_text m in
                  if String.eqb m "" then "CatalogError" else "CatalogError: " +:+ m
              | IntegrityError => "IntegrityError"
              end.

(** One call of a target's [delete]: its arguments, the catalog as it was then
    and what the call did. *)
Record delete_call := mkCall {
  call_location : string;
  call_name : string;
  call_item : PlanItem;
  call_catalog : catalog;
  call_outcome : delete_outcome;
}.

(** The local variables of [apply].  Plan items are identified by their index,
    as the code identifies them by object; [calls] records the deletions. *)
Record run (W : Type) := mkRun {
  r_catalog : catalog;
  r_world : W;
  r_deleted : list PlanItem;
  r_missing : list PlanItem;
  r_targets : list string;
  r_failed : list (string * string);
  r_first : option (nat * PlanItem * string);
  r_skipped : list (nat * PlanItem);
  r_calls : list delete_call;
}.
Arguments mkRun {W}.
Arguments r_catalog {W}. Arguments r_world {W}. Arguments r_deleted {W}.
Arguments r_missing {W}. Arguments r_targets {W}. Arguments r_failed {W}.
Arguments r_first {W}. Arguments r_skipped {W}. Arguments r_calls {W}.

Section apply.
Context {W : Type} {HW : World W}.

Definition set_env (c : catalog) (w : W) (s : run W) : run W :=
mkRun c w (r_deleted s) (r_missing s) (r_targets s) (r_failed s) (r_first s)
  (r_skipped s) (r_calls s).
Definition add_target (loc : string) (s : run W) : run W :=
mkRun (r_catalog s) (r_world s) (r_deleted s) (r_missing s) (loc :: r_targets s) (r_failed s)
  (r_first s) (r_skipped s) (r_calls s).
Definition skip (i : nat) (item : PlanItem) (s : run W) : run W :=
mkRun (r_catalog s) (r_world s) (r_deleted s) (r_missing s) (r_targets s) (r_failed s)
  (r_first s) (r_skipped s ++ [(i, item)])%list (r_calls s).
(** a location that failed: remember it, the first failure, and skip *)
Definition fail_location (i : nat) (item : PlanItem) (message : string) (s : run W) : run W :=
skip i item
  (mkRun (r_catalog s) (r_world s) (r_deleted s) (r_missing s) (r_targets s)
     (r_failed s ++ [(location (item_record item), message)])%list
     (match r_first s with Some f => Some f | None => Some (i, item, message) end)
     (r_skipped s) (r_calls s)).
Definition log_call (item : PlanItem) (outcome : delete_outcome) (s : run W) : run W :=
mkRun (r_catalog s) (r_world s) (r_deleted s) (r_missing s) (r_targets s) (r_failed s)
  (r_first s) (r_skipped s)
  (r_calls s ++ [mkCall (location (item_record item)) (name (item_record item)) item
                   (r_catalog s) outcome])%list.
Definition finish_item (gone : bool) (item : PlanItem) (s : run W) : run W :=
mkRun (r_catalog s) (r_world s)
  (if gone then r_deleted s else (r_deleted s ++ [item])%list)
  (if gone then (r_missing s ++ [item])%list else r_missing s)
  (r_targets s) (r_failed s) (r_first s) (r_skipped s) (r_calls s).

(** Other users of the catalog run. *)
Definition yield_to_others (mine : option string) (s : run W) : run W :=
let '(w, c) := interfere mine (r_world s) (r_catalog s) in set_env c w s.
Definition read_clock (s : run W) : timestamp * run W :=
let '(t, w) := clock (r_world s) in (t, set_env (r_catalog s) w s).

(** The part of the loop body after the object is gone. *)
Definition tombstone_item (actor : string) (gone : bool) (item : PlanItem) (s : run W) :
  run W * option string :=
let record := item_record item in
let s := yield_to_others (Some (artifact_id record)) s in
let reason := kind_text (item_kind item) +:+ ": " +:+ item_reason item
  +:+ (if gone then "; object was already missing" else "") in
let '(now, s) := read_clock s in
match record_deletion (artifact_id record) reason actor now (Some record) (r_catalog s) with
| Err e => (s, Some (describe_error e))
| Ok (c, _) => (finish_item gone item (set_env c (r_world s) s), None)
end.

(** The part after the claim. *)
Definition delete_item (actor : string) (i : nat) (item : PlanItem) (s : run W) :
  run W * option string :=
let record := item_record item in
let s := yield_to_others (Some (artifact_id record)) s in
let '(outcome, w) := target_delete (location record) (name record) (r_world s) in
let s := set_env (r_catalog s) w (log_call item outcome s) in
match outcome with
| Deleted => tombstone_item actor false item s
| Missing => tombstone_item actor true item s
| Unreachable message =>
    let s := yield_to_others (Some (artifact_id record)) s in
    let s := set_env (release_deletion (artifact_id record) (r_catalog s)) (r_world s) s in
    (fail_location i item message s, None)
| Failed message =>
    let s := yield_to_others (Some (artifact_id record)) s in
    let s := set_env (release_deletion (artifact_id record) (r_catalog s)) (r_world s) s in
    (s, Some message)
end.

Definition claim_item (actor : string) (i : nat) (item : PlanItem) (s : run W) :
  run W * option string :=
let record := item_record item in
let s := yield_to_others None s in
let '(now, s) := read_clock s in
match claim_deletion record actor now true (r_catalog s) with
| Err e => (s, Some (describe_error e))
| Ok c => delete_item actor i item (set_env c (r_world s) s)
end.

(** The body of the loop: the new state and, when the run stops, the error. *)
Definition apply_item (actor : string) (i : nat) (item : PlanItem) (s : run W) :
  run W * option string :=
let loc := location (item_record item) in
if location_failed loc (r_failed s) then (skip i item s, None)
else if bool_decide (loc ∈ r_targets s) then claim_item actor i item s
else
  let '(r, w) := resolve loc (r_world s) in
  let s := set_env (r_catalog s) w s in
  match r with
  | Err message => (fail_location i item message s, None)
  | Ok _ => claim_item actor i item (add_target loc s)
  end.

Fixpoint apply_loop (actor : string) (i : nat) (todo : list PlanItem) (s : run W) :
  ApplyResult * run W :=
match todo with
| [] =>
    (mkApplyResult (r_deleted s) (r_missing s)
       (match r_first s with Some (_, item, _) => Some item | None => None end)
       (match r_first s with Some (_, _, message) => Some message | None => None end)
       (snd <$> List.filter (λ e, match r_first s with
                                  | Some (j, _, _) => negb (Nat.eqb (fst e) j)
                                  | None => true
                                  end) (r_skipped s))
       (r_failed s), s)
| item :: rest =>
    let '(s, stop) := apply_item actor i item s in
    match stop with
    | Some message =>
        (mkApplyResult (r_deleted s) (r_missing s) (Some item) (Some message)
           ((snd <$> r_skipped s) ++ rest)%list (r_failed s), s)
    | None => apply_loop actor (S i) rest s
    end
end.

Definition apply (p : GroomingPlan) (actor : string) (w : W) (c : catalog) :
  ApplyResult * run W :=
apply_loop actor 0 (items p) (mkRun c w [] [] [] [] None [] []).
End apply.

(** ** Reconciling *)

Record stored_object := mkObject { obj_name : string; obj_size : Z }.

Record ReconcileReport := mkReport {
  rep_location : string;
  missing : list ArtifactRecord;
  uncatalogued : list stored_object;
  size_mismatch : list (ArtifactRecord * stored_object);
  tombstoned_but_present : list stored_object;
}.
Definition clean (r : ReconcileReport) : bool :=
  negb (non_empty (missing r) || non_empty (uncatalogued r) || non_empty (size_mismatch r)
        || non_empty (tombstoned_but_present r)).

(** [{obj.name: obj for obj in objects}]: the last object of a name wins. *)
Definition by_name (objects : list stored_object) : gmap string stored_object :=
  foldl (λ m o, <[obj_name o := o]> m) ∅ objects.

Definition reconcile (c : catalog) (objects : list stored_object) (loc : string) :
    catalog_result ReconcileReport :=
  loc ← validate_location loc;
  records ← list_ None (Some loc) c;
  tombs ← tombstones None (Some loc) c;
  let objs := by_name objects in
  let catalogued_names : gset string := list_to_set (name <$> records) in
  let tombstoned_names : gset string := list_to_set (name ∘ ts_record <$> tombs) in
  let extra := sort_by (λ a b, str_leb (obj_name a) (obj_name b))
      (List.filter (λ o, negb (bool_decide (obj_name o ∈ catalogued_names))) objects) in
  Ok (mkReport loc
        (List.filter (λ r, bool_decide (objs !! name r = None)) records)
        (List.filter (λ o, negb (bool_decide (obj_name o ∈ tombstoned_names))) extra)
        (omap (λ r, match objs !! name r with
                    | Some o => if obj_size o =? size r then None else Some (r, o)
                    | None => None
                    end) records)
        (List.filter (λ o, bool_decide (obj_name o ∈ tombstoned_names)) extra)).

(** ** Accounting of a run *)

Section accounting.
Context {W : Type} {HW : World W}.

(** How one pass of the loop moves the ledger. *)
Inductive item_effect (i : nat) (item : PlanItem) (s s' : run W) : option string → Prop :=
| effect_deleted :
  r_deleted s' = (r_deleted s ++ [item])%list → r_missing s' = r_missing s →
  r_skipped s' = r_skipped s → r_first s' = r_first s → item_effect i item s s' None
| effect_missing :
  r_deleted s' = r_deleted s → r_missing s' = (r_missing s ++ [item])%list →
  r_skipped s' = r_skipped s → r_first s' = r_first s → item_effect i item s s' None
| effect_skipped :
  r_deleted s' = r_deleted s → r_missing s' = r_missing s →
  r_skipped s' = (r_skipped s ++ [(i, item)])%list →
  (r_first s' = r_first s ∨ ∃ m, r_first s' = Some (i, item, m)) → item_effect i item s s' None
| effect_stopped m :
  r_deleted s' = r_deleted s → r_missing s' = r_missing s →
  r_skipped s' = r_skipped s → r_first s' = r_first s → item_effect i item s s' (Some m).

(** Two states that agree on the ledger. *)
Definition same_ledger (s s' : run W) : Prop :=
r_deleted s' = r_deleted s ∧ r_missing s' = r_missing s
∧ r_skipped s' = r_skipped s ∧ r_first s' = r_first s.

Lemma yield_same mine s : same_ledger s (yield_to_others mine s).
Proof. unfold yield_to_others. by destruct (interfere _ _ _). Qed.
Lemma clock_same s : same_ledger s (snd (read_clock s)).
Proof. unfold read_clock. by destruct (clock _). Qed.

Lemma effect_from i item s0 s s' stop :
same_ledger s0 s → item_effect i item s s' stop → item_effect i item s0 s' stop.
Proof.
intros (E1 & E2 & E3 & E4) H.
destruct H as [H1 H2 H3 H4|H1 H2 H3 H4|H1 H2 H3 H4|m H1 H2 H3 H4];
  rewrite ?E1, ?E2, ?E3, ?E4 in *.
- by apply effect_deleted.
- by apply effect_missing.
- by apply effect_skipped.
- by apply effect_stopped.
Qed.

Lemma fail_location_effect i item m s : item_effect i item s (fail_location i item m s) None.
Proof. apply effect_skipped; simpl; try done. destruct (r_first s); eauto. Qed.

Lemma tombstone_item_effect actor gone i item s s' stop :
tombstone_item actor gone item s = (s', stop) → item_effect i item s s' stop.
Proof.
unfold tombstone_item. pose proof (yield_same (Some (artifact_id (item_record item))) s) as HL.
set (s1 := yield_to_others _ s) in *. clearbody s1.
pose proof (clock_same s1) as HL1. destruct (read_clock s1) as [now s2]. simpl in HL1.
destruct (record_deletion _ _ _ _ _ _) as [[c t]|e]; intros [= <- <-];
  eapply effect_from; try exact HL; eapply effect_from; try exact HL1.
- destruct gone; [by apply effect_missing|by apply effect_deleted].
- by apply effect_stopped.
Qed.

Lemma delete_item_effect actor i item s s' stop :
delete_item actor i item s = (s', stop) → item_effect i item s s' stop.
Proof.
unfold delete_item. pose proof (yield_same (Some (artifact_id (item_record item))) s) as HL.
set (s1 := yield_to_others _ s) in *. clearbody s1.
destruct (target_delete _ _ _) as [o w].
set (s2 := set_env (r_catalog s1) w (log_call item o s1)).
assert (same_ledger s1 s2) as HL2 by done. clearbody s2.
intros H. eapply effect_from; [exact HL|]. eapply effect_from; [exact HL2|]. revert H.
destruct o as [| |m|m]; [apply tombstone_item_effect|apply tombstone_item_effect| |];
  pose proof (yield_same (Some (artifact_id (item_record item))) s2) as HL3;
  set (s3 := yield_to_others _ s2) in *; clearbody s3; intros [= <- <-];
  (eapply effect_from; [exact HL3|]).
- eapply effect_from; [|apply fail_location_effect]. done.
- by apply effect_stopped.
Qed.

Lemma claim_item_effect actor i item s s' stop :
claim_item actor i item s = (s', stop) → item_effect i item s s' stop.
Proof.
unfold claim_item. pose proof (yield_same None s) as HL.
set (s1 := yield_to_others _ s) in *. clearbody s1.
pose proof (clock_same s1) as HL1. destruct (read_clock s1) as [now s2]. simpl in HL1.
intros H. eapply effect_from; [exact HL|]. eapply effect_from; [exact HL1|]. revert H.
destruct (claim_deletion _ _ _ _ _) as [c|e].
- intros H%(delete_item_effect actor i). eapply effect_from; [|exact H]. done.
- intros [= <- <-]. by apply effect_stopped.
Qed.

Lemma apply_item_effect actor i item s s' stop :
apply_item actor i item s = (s', stop) → item_effect i item s s' stop.
Proof.
unfold apply_item. destruct (location_failed _ _).
{ intros [= <- <-]. apply effect_skipped; simpl; auto. }
destruct (bool_decide _); [apply claim_item_effect|].
destruct (resolve _ _) as [[[]|m] w].
- intros H%claim_item_effect. eapply effect_from; [|exact H]. done.
- intros [= <- <-]. eapply effect_from; [|apply fail_location_effect]. done.
Qed.

(** The ledger after the items before index [i]. *)
Record ledger_ok (i : nat) (done_ : list PlanItem) (s : run W) : Prop := {
lg_perm : (done_ ≡ₚ r_deleted s ++ r_missing s ++ (snd <$> r_skipped s))%list;
lg_index : Forall (λ e, (fst e < i)%nat) (r_skipped s);
lg_nodup : NoDup (fst <$> r_skipped s);
lg_first : match r_first s with Some (j, it, _) => (j, it) ∈ r_skipped s | None => True end;
}.

Lemma ledger_step i done_ item s s' :
ledger_ok i done_ s → item_effect i item s s' None → ledger_ok (S i) (done_ ++ [item]) s'.
Proof.
intros [Hp Hi Hn Hf] H. inversion H as [E1 E2 E3 E4|E1 E2 E3 E4|E1 E2 E3 E4|]; subst.
- constructor; rewrite ?E1, ?E2, ?E3, ?E4; try done.
  + rewrite Hp. solve_Permutation.
  + eapply Forall_impl; [exact Hi|]. simpl; lia.
- constructor; rewrite ?E1, ?E2, ?E3, ?E4; try done.
  + rewrite Hp. solve_Permutation.
  + eapply Forall_impl; [exact Hi|]. simpl; lia.
- constructor; rewrite ?E1, ?E2, ?E3.
  + rewrite Hp, fmap_app. simpl. solve_Permutation.
  + apply Forall_app. split; [eapply Forall_impl; [exact Hi|]; simpl; lia|].
    constructor; [simpl; lia|done].
  + rewrite fmap_app. apply NoDup_app. split_and!; [done| |apply NoDup_singleton].
    intros j (e & -> & He)%list_elem_of_fmap Hj%list_elem_of_singleton. simpl in Hj.
    rewrite Forall_forall in Hi. apply Hi in He. simpl in He. lia.
  + destruct E4 as [->|[m ->]].
    * destruct (r_first s) as [[[j it] m]|]; [|done]. apply elem_of_app. by left.
    * apply elem_of_app. right. by apply list_elem_of_singleton.
Qed.

Lemma skipped_without (l : list (nat * PlanItem)) j it :
NoDup (fst <$> l) → (j, it) ∈ l →
(snd <$> l) ≡ₚ it :: (snd <$> List.filter (λ e, negb (Nat.eqb (fst e) j)) l).
Proof.
induction l as [|[k x] l IH]; simpl; intros Hn Hin; [by apply not_elem_of_nil in Hin|].
inversion Hn as [|? ? Hk Hn']; subst. apply elem_of_cons in Hin as [[= -> ->]|Hin].
- rewrite Nat.eqb_refl. simpl.
  assert (List.filter (λ e, negb (Nat.eqb (fst e) k)) l = l) as ->; [|done].
  apply filter_all, Forall_forall. intros [k' x'] H'. simpl.
  apply negb_true_iff, Nat.eqb_neq. intros ->. apply Hk, list_elem_of_fmap. by exists (k, x').
- destruct (Nat.eqb_spec k j) as [->|].
  + exfalso. apply Hk, list_elem_of_fmap. by exists (j, it).
  + simpl. rewrite (IH Hn' Hin). apply Permutation_swap.
Qed.

Lemma apply_loop_accounts actor todo : ∀ i done_ s,
ledger_ok i done_ s →
let r := fst (apply_loop actor i todo s) in
(done_ ++ todo ≡ₚ deleted r ++ already_missing r ++ option_list (failed r) ++ not_attempted r)%list.
Proof.
induction todo as [|item rest IH]; intros i done_ s Hs; simpl.
- rewrite app_nil_r, (lg_perm _ _ _ Hs). do 2 f_equiv.
  pose proof (lg_first _ _ _ Hs) as Hf. destruct (r_first s) as [[[j it] m]|]; simpl.
  + by apply skipped_without; [apply (lg_nodup _ _ _ Hs)|].
  + by rewrite filter_all by (by apply Forall_forall).
- destruct (apply_item actor i item s) as [s' stop] eqn:E.
  apply apply_item_effect in E. destruct stop as [m|]; simpl.
  + inversion E as [| | |? E1 E2 E3 E4]; subst. rewrite (lg_perm _ _ _ Hs), E1, E2, E3.
    solve_Permutation.
  + specialize (IH (S i) (done_ ++ [item])%list s' (ledger_step _ _ _ _ _ Hs E)).
    by rewrite <-app_assoc in IH.
Qed.
End accounting.

(** Grooming accounts for every planned item: after [apply], whatever the
    targets, the clock and other catalog users do, the planned items are, as a
    multiset, exactly those reported deleted, already missing, failed or not
    attempted. *)
Theorem lifecycle_apply_accounts {W : Type} {HW : World W} (p : GroomingPlan) (actor : string)
  (w : W) (c : catalog) :
  let r := fst (apply p actor w c) in
  (items p ≡ₚ deleted r ++ already_missing r ++ option_list (failed r) ++ not_attempted r)%list.
Proof.
  apply (apply_loop_accounts actor (items p) 0 []). by constructor; try constructor.
Qed.
