(* ===== verification/LifecycleSafety.v ===== *)
(** * What grooming may delete

    Safety of [LifecycleManager.apply] against the catalog's contract, with
    other users of the catalog running between any two calls of the run, and
    what a run without interference leaves. *)

From S2P Require Import Prelude PyStr Catalog Lifecycle.
From Stdlib Require Import String Ascii.
Import ArtifactCatalog.
#[local] Open Scope string_scope.
#[local] Open Scope Z_scope.

(** ** Other users of the catalog *)

(** What they may call while a run holds the claim on [mine]: anything but the
    two calls that end the claim of that copy. *)
Definition foreign (mine : option string) (op : catalog_op) : Prop :=
  match mine with
  | None => True
  | Some id =>
      op ≠ OpReleaseDeletion id
      ∧ ∀ reason actor now e, op ≠ OpRecordDeletion id reason actor now e
  end.

Definition interference (mine : option string) (c c' : catalog) : Prop :=
  ∃ ops, Forall (foreign mine) ops ∧ c' = foldl exec_op c ops.

Definition claimed_copy (id loc nm : string) (c : catalog) : Prop :=
  ∃ r, artifacts c !! id = Some r ∧ location (row_record r) = loc ∧ name (row_record r) = nm
    ∧ is_Some (deletion_claimed_at r) ∧ preserved (row_record r) = false.

Lemma run_op_claimed id loc nm op c c' :
  catalog_ok c → run_op op c = Ok c' → foreign (Some id) op →
  claimed_copy id loc nm c → claimed_copy id loc nm c'.
Proof.
  intros Hc E [Hrel Hrec] (r & Hl & Hloc & Hnm & Hcl & Hp).
  pose proof (run_op_ok _ _ _ Hc E) as Hc'.
  cut (∃ r', artifacts c' !! id = Some r' ∧ location (row_record r') = loc
    ∧ name (row_record r') = nm ∧ is_Some (deletion_claimed_at r')).
  { intros (r' & H & ? & ? & Hcl'). exists r'. split_and!; try done.
    by apply (ro_claimed _ _ _ (co_rows _ Hc' _ _ H)). }
  destruct (run_op_shape _ _ _ E) as
    [(r0 & x & now & _ & Ea)|[(id0 & r0 & w & evs & Hl0 & -> & El & En & _ & Ecl)
     |[->|(id0 & reason & actor & now & e & x & -> & Ed)]]].
  - apply add_Ok in Ea as (reason & by_ & stamp & _ & _ & _ & _ & Hfree & _ & ->). simpl.
    exists r. split_and!; try done. rewrite lookup_insert_ne; [done|]. intros Heq.
    rewrite <-Heq in Hl. simpl in *. congruence.
  - simpl. destruct (decide (id0 = id)) as [->|Hne].
    + rewrite Hl in Hl0. injection Hl0 as <-. rewrite lookup_insert_eq. exists w.
      split_and!; [done|congruence|congruence|].
      destruct Ecl as [Ecl|[Ecl|Ecl]]; [by rewrite Ecl|rewrite Ecl in Hcl; by destruct Hcl|congruence].
    + rewrite lookup_insert_ne by done. eauto.
  - eauto.
  - apply record_deletion_Ok in Ed as (r0 & ? & ? & ? & _ & _ & _ & _ & ->). simpl.
    rewrite lookup_delete_ne; [eauto|]. intros ->. by eapply Hrec.
Qed.

Lemma interference_claimed id loc nm c c' :
  catalog_ok c → interference (Some id) c c' → claimed_copy id loc nm c → claimed_copy id loc nm c'.
Proof.
  intros Hc (ops & Hops & ->). revert c Hc. induction Hops as [|op ops Hop _ IH]; simpl; [done|].
  intros c Hc H. apply IH; [by apply exec_op_ok|]. unfold exec_op.
  destruct (run_op op c) eqn:E; [by eapply run_op_claimed|done].
Qed.

Lemma exec_ops_audit ops c : catalog_ok c → audit_extends c (foldl exec_op c ops).
Proof.
  revert c; induction ops as [|op ops IH]; intros c Hc; simpl; [done|].
  etrans; [|by apply IH; auto with py]. unfold exec_op.
  destruct (run_op op c) eqn:E; [by eapply run_op_audit|done].
Qed.

(** A catalog later in a history: reachable and with a longer audit trail. *)
Definition later (c c' : catalog) : Prop := reachable c → reachable c' ∧ audit_extends c c'.
#[export] Instance later_preorder : PreOrder later.
Proof.
  split; [by intros c H|]. intros c1 c2 c3 H12 H23 H1.
  destruct (H12 H1) as [H2 A12]. destruct (H23 H2) as [H3 A23]. split; [done|by etrans].
Qed.
Lemma interference_later mine c c' : interference mine c c' → later c c'.
Proof.
  intros (ops & _ & ->) Hc. split; [by apply exec_ops_reachable|].
  by apply exec_ops_audit, reachable_ok.
Qed.
Lemma run_op_later op c c' : run_op op c = Ok c' → later c c'.
Proof.
  intros E Hc. split; [by eapply reach_step|]. eapply run_op_audit; [by apply reachable_ok|exact E].
Qed.

(** ** Safety of a run *)

Definition item_claimed (i : PlanItem) (c : catalog) : Prop :=
  claimed_copy (artifact_id (item_record i)) (location (item_record i)) (name (item_record i)) c.

Definition safe_call (planned : list PlanItem) (d : delete_call) : Prop :=
  call_item d ∈ planned
  ∧ claimed_copy (artifact_id (item_record (call_item d))) (call_location d) (call_name d)
      (call_catalog d)
  ∧ call_location d = location (item_record (call_item d))
  ∧ call_name d = name (item_record (call_item d)).

(** The object of the call is gone: deleted by it, or already missing. *)
Definition object_gone (d : delete_call) : Prop :=
  call_outcome d = Deleted ∨ call_outcome d = Missing.

Definition recorded (c : catalog) (i : PlanItem) : Prop :=
  ∃ t, tombstone_table c !! artifact_id (item_record i) = Some t ∧ ts_record t = item_record i.

(** A gone object is accounted for in the catalog: by a tombstone, or - for the
    item whose tombstone the catalog refused - by its row, which is still there
    under the same location and name, claimed and not pinned. *)
Definition settled (unrecorded : option PlanItem) (c : catalog) (d : delete_call) : Prop :=
  object_gone d → recorded c (call_item d)
    ∨ (unrecorded = Some (call_item d) ∧ item_claimed (call_item d) c).

Lemma recorded_later c c' i : audit_extends c c' → recorded c i → recorded c' i.
Proof. intros [_ H] (t & ? & ?). exists t. auto. Qed.

Section safety.
Context {W : Type} {HW : World W}.
Context (Hothers : ∀ mine w c, interference mine c (snd (interfere mine w c))).

(** [unrecorded] is the item whose object is gone and whose tombstone is still
  to be written. *)
Record run_safe (c0 : catalog) (planned : list PlanItem) (unrecorded : option PlanItem)
    (s : run W) : Prop := {
rs_reach : reachable (r_catalog s);
rs_audit : audit_extends c0 (r_catalog s);
rs_calls : Forall (safe_call planned) (r_calls s);
rs_gone : Forall (recorded (r_catalog s)) (r_deleted s ++ r_missing s);
rs_settled : Forall (settled unrecorded (r_catalog s)) (r_calls s);
}.

Lemma settled_later u c c' d :
audit_extends c c' → (∀ i, u = Some i → item_claimed i c → item_claimed i c') →
settled u c d → settled u c' d.
Proof.
intros Ha Hi H [Hr|[E Hc]]%H; [left; by eapply recorded_later|right]. split; [done|]. by apply Hi.
Qed.
Lemma settled_weaken u c d : settled None c d → settled u c d.
Proof. intros H [Hr|[E _]]%H; [by left|done]. Qed.
Lemma run_safe_weaken c0 planned u s : run_safe c0 planned None s → run_safe c0 planned u s.
Proof.
intros [H1 H2 H3 H4 H5]. constructor; try done.
eapply Forall_impl; [exact H5|]. intros d. apply settled_weaken.
Qed.

(** A change of the run that touches only the catalog, the world and the
  bookkeeping of failures. *)
Lemma run_safe_later c0 planned u s s' :
run_safe c0 planned u s → later (r_catalog s) (r_catalog s') →
(∀ i, u = Some i → item_claimed i (r_catalog s) → item_claimed i (r_catalog s')) →
r_calls s' = r_calls s → r_deleted s' = r_deleted s → r_missing s' = r_missing s →
run_safe c0 planned u s'.
Proof.
intros [H1 H2 H3 H4 H5] HL Hu E1 E2 E3. destruct (HL H1) as [HL1 HL2].
constructor; rewrite ?E1, ?E2, ?E3; try done.
- by etrans.
- eapply Forall_impl; [exact H4|]. intros i. by apply recorded_later.
- eapply Forall_impl; [exact H5|]. intros d. by apply settled_later.
Qed.

Lemma yield_later mine s : later (r_catalog s) (r_catalog (yield_to_others mine s)).
Proof.
unfold yield_to_others. pose proof (Hothers mine (r_world s) (r_catalog s)) as H.
destruct (interfere _ _ _) as [w c]. simpl in *. by eapply interference_later.
Qed.
Lemma yield_claimed item s :
reachable (r_catalog s) → item_claimed item (r_catalog s) →
item_claimed item (r_catalog (yield_to_others (Some (artifact_id (item_record item))) s)).
Proof.
intros Hc. unfold yield_to_others.
pose proof (Hothers (Some (artifact_id (item_record item))) (r_world s) (r_catalog s)) as H.
destruct (interfere _ _ _) as [w c]. simpl in *.
eapply interference_claimed; [by apply reachable_ok|exact H].
Qed.
Lemma yield_safe c0 planned u mine s :
(∀ i, u = Some i → mine = Some (artifact_id (item_record i))) →
run_safe c0 planned u s → run_safe c0 planned u (yield_to_others mine s).
Proof.
intros Hm H. destruct (yield_same mine s) as (E1 & E2 & _). eapply run_safe_later; try done.
- apply yield_later.
- intros i E. rewrite (Hm _ E). apply yield_claimed, H.
- unfold yield_to_others. by destruct (interfere _ _ _).
Qed.
Lemma clock_safe c0 planned u s now s' :
read_clock s = (now, s') → run_safe c0 planned u s →
run_safe c0 planned u s' ∧ r_catalog s' = r_catalog s.
Proof.
unfold read_clock. destruct (clock _) as [t w]. intros [= <- <-] H. split; [|done].
by eapply run_safe_later.
Qed.

(** What is left unrecorded when a step ends. *)
Definition left_over (item : PlanItem) (stop : option string) : option PlanItem :=
match stop with Some _ => Some item | None => None end.

Lemma finish_safe c0 planned actor (gone : bool) item now s c t :
record_deletion (artifact_id (item_record item))
  (kind_text (item_kind item) +:+ ": " +:+ item_reason item +:+
   (if gone then "; object was already missing" else "")) actor now
  (Some (item_record item)) (r_catalog s) = Ok (c, t) →
run_safe c0 planned (Some item) s →
run_safe c0 planned None (finish_item gone item (set_env c (r_world s) s)).
Proof.
intros Er [R1 R2 R3 R4 R5].
assert (later (r_catalog s) c) as HL.
{ eapply (run_op_later (OpRecordDeletion (artifact_id (item_record item)) _ actor now
    (Some (item_record item)))). simpl. by rewrite Er. }
destruct (HL R1) as [HL1 HL2].
assert (recorded c item) as Hrec.
{ apply record_deletion_moves in Er as (r & _ & _ & He & _ & (t' & Et & Er') & _);
    [|by apply reachable_ok].
  exists t'. rewrite Et, lookup_insert_eq. split; [done|]. rewrite Er'. by apply He. }
assert (∀ i, recorded (r_catalog s) i → recorded c i) as Hl by (intros i; by apply recorded_later).
rewrite Forall_app in R4. destruct R4 as [R4 R6].
apply (Forall_impl _ _ _ R4) in Hl as R4'. apply (Forall_impl _ _ _ R6) in Hl as R6'.
constructor; simpl; try done; [by etrans|destruct gone; rewrite !Forall_app, ?Forall_singleton; auto|].
eapply Forall_impl; [exact R5|]. intros d Hd Hg. left.
destruct (Hd Hg) as [?|[[= <-] _]]; [by apply Hl|done].
Qed.

Lemma tombstone_item_safe c0 planned actor gone item s s' stop :
tombstone_item actor gone item s = (s', stop) → run_safe c0 planned (Some item) s →
run_safe c0 planned (left_over item stop) s'.
Proof.
unfold tombstone_item. intros E H.
apply (yield_safe _ _ _ (Some (artifact_id (item_record item)))) in H; [|by intros i [= <-]].
set (s1 := yield_to_others _ s) in *. clearbody s1.
destruct (read_clock s1) as [now s2] eqn:Ec. destruct (clock_safe _ _ _ _ _ _ Ec H) as [H2 _].
destruct (record_deletion _ _ _ _ _ _) as [[c t]|e] eqn:Er; injection E as <- <-; [|done].
by eapply finish_safe.
Qed.

Lemma log_safe c0 planned item o w s :
item ∈ planned → item_claimed item (r_catalog s) → run_safe c0 planned None s →
run_safe c0 planned (Some item) (set_env (r_catalog s) w (log_call item o s)).
Proof.
intros Hin Hcl [R1 R2 R3 R4 R5]. constructor; try done; simpl; rewrite Forall_app, Forall_singleton.
- split; [done|]. by split_and!.
- split; [|by right].
  eapply Forall_impl; [exact R5|]. intros d. apply settled_weaken.
Qed.

(** A call that does not find its object gone leaves nothing to record. *)
Lemma log_kept_safe c0 planned item o w s :
item ∈ planned → item_claimed item (r_catalog s) → o ≠ Deleted → o ≠ Missing →
run_safe c0 planned None s →
run_safe c0 planned None (set_env (r_catalog s) w (log_call item o s)).
Proof.
intros Hin Hcl N1 N2 H. destruct (log_safe _ _ _ o w _ Hin Hcl H) as [R1 R2 R3 R4 _].
constructor; try done. simpl. rewrite Forall_app, Forall_singleton. split; [apply H|].
by intros [|].
Qed.

Lemma release_safe c0 planned item s :
run_safe c0 planned None s →
run_safe c0 planned None
  (set_env (release_deletion (artifact_id (item_record item))
     (r_catalog (yield_to_others (Some (artifact_id (item_record item))) s)))
     (r_world (yield_to_others (Some (artifact_id (item_record item))) s))
     (yield_to_others (Some (artifact_id (item_record item))) s)).
Proof.
intros H. apply (yield_safe _ _ _ (Some (artifact_id (item_record item)))) in H; [|done].
eapply run_safe_later; [exact H| |done..]. simpl.
by apply (run_op_later (OpReleaseDeletion (artifact_id (item_record item)))).
Qed.

Lemma delete_item_safe c0 planned actor i item s s' stop :
item ∈ planned → item_claimed item (r_catalog s) →
delete_item actor i item s = (s', stop) → run_safe c0 planned None s →
run_safe c0 planned (left_over item stop) s'.
Proof.
intros Hin Hcl E H. unfold delete_item in E.
apply (yield_claimed item _ (rs_reach _ _ _ _ H)) in Hcl.
apply (yield_safe _ _ _ (Some (artifact_id (item_record item)))) in H; [|done].
set (s1 := yield_to_others _ s) in *. clearbody s1.
destruct (target_delete _ _ _) as [o w]. destruct o as [| |m|m] eqn:Eo;
  try (subst o; eapply tombstone_item_safe; [exact E|]; by apply log_safe);
  (assert (run_safe c0 planned None (set_env (r_catalog s1) w (log_call item o s1))) as H2
     by (apply log_kept_safe; subst o; done)); subst o;
  apply (release_safe _ _ item) in H2; injection E as <- <-;
  [by eapply run_safe_later|by apply run_safe_weaken].
Qed.

Lemma claim_item_safe c0 planned actor i item s s' stop :
item ∈ planned → claim_item actor i item s = (s', stop) →
run_safe c0 planned None s → run_safe c0 planned (left_over item stop) s'.
Proof.
intros Hin E H. unfold claim_item in E. apply (yield_safe _ _ _ None) in H; [|done].
set (s1 := yield_to_others _ s) in *. clearbody s1.
destruct (read_clock s1) as [now s2] eqn:Ec. destruct (clock_safe _ _ _ _ _ _ Ec H) as [H2 _].
destruct (claim_deletion _ _ _ _ _) as [c|e] eqn:Er;
  [|injection E as <- <-; by apply run_safe_weaken].
eapply delete_item_safe; [done| |exact E|].
- apply claim_deletion_Ok in Er as (r & a & t & _ & _ & E1 & Hp & _ & ->).
  unfold item_claimed, claimed_copy. simpl.
  eexists. rewrite lookup_insert_eq. by split_and!.
- eapply run_safe_later; [exact H2| |done..].
  by apply (run_op_later (OpClaimDeletion (item_record item) actor now true)).
Qed.

Lemma apply_item_safe c0 planned actor i item s s' stop :
item ∈ planned → apply_item actor i item s = (s', stop) →
run_safe c0 planned None s → run_safe c0 planned (left_over item stop) s'.
Proof.
intros Hin E H. unfold apply_item in E.
destruct (location_failed _ _); [injection E as <- <-; by eapply run_safe_later|].
destruct (bool_decide _); [by eapply claim_item_safe|].
destruct (resolve _ _) as [[[]|m] w]; [|injection E as <- <-; by eapply run_safe_later].
eapply claim_item_safe; [done|exact E|]. by eapply run_safe_later.
Qed.

Lemma apply_loop_safe c0 planned actor todo : ∀ i s,
todo ⊆ planned → run_safe c0 planned None s →
let '(r, s') := apply_loop actor i todo s in
run_safe c0 planned (failed r) s' ∧ deleted r = r_deleted s' ∧ already_missing r = r_missing s'.
Proof.
induction todo as [|item rest IH]; intros i s Hsub H; simpl.
- split; [|done]. by apply run_safe_weaken.
- destruct (apply_item actor i item s) as [s' stop] eqn:E.
  apply apply_item_safe with (c0 := c0) (planned := planned) in E; [|apply Hsub; left|done].
  destruct stop; [done|]. apply IH; [|done]. intros x Hx. apply Hsub. by right.
Qed.
End safety.

(** ** A run without interference *)

Lemma elem_of_live_update id r w c rec :
  artifacts c !! id = Some r → row_record w = row_record r →
  rec ∈ live_records (update_row id w c) ↔ rec ∈ live_records c.
Proof.
  intros Hl Ew. rewrite !elem_of_live_records. simpl. split.
  - intros (id' & r' & H & <-). destruct (decide (id = id')) as [<-|Hne].
    + rewrite lookup_insert_eq in H. injection H as <-. exists id, r. by rewrite Ew.
    + rewrite lookup_insert_ne in H by done. eauto.
  - intros (id' & r' & H & <-). destruct (decide (id = id')) as [<-|Hne].
    + rewrite Hl in H. injection H as <-. exists id, w. by rewrite lookup_insert_eq, Ew.
    + exists id', r'. by rewrite lookup_insert_ne by done.
Qed.

Lemma elem_of_live_delete id r c c' rec :
  catalog_ok c → artifacts c !! id = Some r → artifacts c' = delete id (artifacts c) →
  rec ∈ live_records c' ↔ rec ∈ live_records c ∧ rec ≠ row_record r.
Proof.
  intros Hc Hl E. rewrite !elem_of_live_records, E. split.
  - intros (id' & r' & [Hne H]%lookup_delete_Some & <-). split; [eauto|]. intros Heq.
    apply Hne. rewrite <-(ro_id _ _ _ (co_rows _ Hc _ _ Hl)), <-(ro_id _ _ _ (co_rows _ Hc _ _ H)).
    by rewrite Heq.
  - intros [(id' & r' & H & <-) Hne]. exists id', r'. split; [|done].
    apply lookup_delete_Some. split; [|done]. intros <-. congruence.
Qed.

Section quiet.
Context {W : Type} {HW : World W}.
Context (Hquiet : ∀ mine w c, snd (interfere mine w c) = c).

Lemma yield_quiet mine s : r_catalog (yield_to_others mine s) = r_catalog s.
Proof.
unfold yield_to_others. pose proof (Hquiet mine (r_world s) (r_catalog s)) as H.
by destruct (interfere _ _ _).
Qed.
Lemma clock_quiet s : r_catalog (snd (read_clock s)) = r_catalog s.
Proof. unfold read_clock. by destruct (clock _). Qed.

Definition removed (s : run W) : list ArtifactRecord := item_record <$> (r_deleted s ++ r_missing s)%list.

Record quiet_run (c0 : catalog) (s : run W) : Prop := {
qr_ok : catalog_ok (r_catalog s);
qr_live : ∀ r, r ∈ live_records (r_catalog s) ↔ r ∈ live_records c0 ∧ r ∉ removed s;
qr_removed : ∀ r, r ∈ removed s → r ∈ live_records c0 ∧ preserved r = false;
qr_newest : ∀ cls loc,
  newest_verified_id cls loc (r_catalog s) = newest_verified_id cls loc c0;
}.

(** The catalog may change rows as long as the records stay. *)
Lemma quiet_same_live c0 s s' :
quiet_run c0 s → catalog_ok (r_catalog s') →
(∀ r, r ∈ live_records (r_catalog s') ↔ r ∈ live_records (r_catalog s)) →
r_deleted s' = r_deleted s → r_missing s' = r_missing s → quiet_run c0 s'.
Proof.
intros [H1 H2 H3 H4] Hc Hl E1 E2. unfold removed in *.
constructor; unfold removed; rewrite ?E1, ?E2; try done.
- intros r. by rewrite Hl.
- intros cls loc. rewrite <-H4.
  apply (newest_verified_id_restrict (λ _, True)); [intros r; rewrite Hl; tauto|done].
Qed.

Lemma quiet_same_catalog c0 s s' :
quiet_run c0 s → r_catalog s' = r_catalog s →
r_deleted s' = r_deleted s → r_missing s' = r_missing s → quiet_run c0 s'.
Proof.
intros H E. apply quiet_same_live; rewrite ?E; [done|by apply (qr_ok c0)|done].
Qed.

Lemma quiet_yield c0 mine s : quiet_run c0 s → quiet_run c0 (yield_to_others mine s).
Proof.
intros H. destruct (yield_same mine s) as (? & ? & _).
apply (quiet_same_catalog c0 s); [done|apply yield_quiet|done|done].
Qed.

Definition not_newest (item : PlanItem) (c : catalog) : Prop :=
newest_verified_id (backup_class (item_record item)) (location (item_record item)) c
  ≠ Some (artifact_id (item_record item)).

Lemma tombstone_item_quiet c0 actor gone item s s' stop :
not_newest item (r_catalog s) →
tombstone_item actor gone item s = (s', stop) → quiet_run c0 s → quiet_run c0 s'.
Proof.
unfold tombstone_item. intros Hn E H.
rewrite <-(yield_quiet (Some (artifact_id (item_record item)))) in Hn.
apply (quiet_yield _ (Some (artifact_id (item_record item)))) in H.
set (s1 := yield_to_others _ s) in *. clearbody s1. unfold read_clock in E.
destruct (clock _) as [now w].
assert (quiet_run c0 (set_env (r_catalog s1) w s1)) as H2
  by by apply (quiet_same_catalog c0 s1).
assert (not_newest item (r_catalog (set_env (r_catalog s1) w s1))) as Hn2 by done.
clear H Hn. set (s2 := set_env _ w s1) in *. clearbody s2.
destruct (record_deletion _ _ _ _ _ _) as [[c t]|e] eqn:Er; injection E as <- <-; [|done].
destruct H2 as [H1 Hl Hr Hw].
pose proof (record_deletion_ok _ _ _ _ _ _ _ _ H1 Er) as Hc'.
apply record_deletion_moves in Er as (r & Hrow & Hp & He & Ea & _ & _); [|done].
specialize (He _ eq_refl).
assert (item_record item ∈ live_records (r_catalog s2)) as Hin
  by (apply elem_of_live_records; eauto).
assert (∀ rec, rec ∈ live_records c ↔ rec ∈ live_records (r_catalog s2) ∧ rec ≠ item_record item) as Hlc
  by (intros rec; rewrite <-He; by apply (elem_of_live_delete _ _ _ _ _ H1 Hrow)).
assert (removed (finish_item gone item (set_env c (r_world s2) s2)) ≡ₚ item_record item :: removed s2) as Hrm.
{ unfold removed. destruct gone; simpl; rewrite !fmap_app; simpl; solve_Permutation. }
assert (∀ cls loc, newest_verified_id cls loc c = newest_verified_id cls loc (r_catalog s2)) as Hnw.
{ intros cls loc. apply (newest_verified_id_restrict (.≠ item_record item) _ _ _ _ Hlc).
  intros rec Hrec En ->. apply Hn2.
  pose proof En as (r0 & E0 & (Hl0 & <- & <- & _) & _)%newest_verified_id_iff.
  by rewrite (live_id_unique _ _ _ H1 Hl0 Hrec E0) in En. }
constructor; rewrite ?Hrm; destruct gone; simpl; try done;
  try (by intros; rewrite Hnw); try (intros rec; rewrite Hrm, Hlc, Hl, not_elem_of_cons; tauto);
  intros rec; rewrite Hrm, elem_of_cons; intros [->|Hx]; [|by apply Hr| |by apply Hr];
  rewrite He in Hp; (split; [by apply Hl|done]).
Qed.

Lemma release_quiet c0 id s :
quiet_run c0 s → quiet_run c0 (set_env (release_deletion id (r_catalog s)) (r_world s) s).
Proof.
intros H. apply (quiet_same_live c0 s); [done|apply release_deletion_ok, H| |done|done].
intros r. simpl. unfold release_deletion. destruct (artifacts _ !! id) eqn:El; [|done].
by apply (elem_of_live_update _ _ _ _ _ El).
Qed.

Lemma delete_item_quiet c0 actor i item s s' stop :
not_newest item (r_catalog s) →
delete_item actor i item s = (s', stop) → quiet_run c0 s → quiet_run c0 s'.
Proof.
unfold delete_item. intros Hn E H. set (id := artifact_id (item_record item)) in *.
rewrite <-(yield_quiet (Some id)) in Hn. apply (quiet_yield _ (Some id)) in H.
set (s1 := yield_to_others _ s) in *. clearbody s1.
destruct (target_delete _ _ _) as [o w].
assert (quiet_run c0 (set_env (r_catalog s1) w (log_call item o s1))) as H2
  by by apply (quiet_same_catalog c0 s1).
assert (not_newest item (r_catalog (set_env (r_catalog s1) w (log_call item o s1)))) as Hn2 by done.
set (s2 := set_env _ w _) in *. clearbody s2.
destruct o as [| |m|m]; try (by eapply tombstone_item_quiet);
  injection E as <- <-; apply (quiet_yield _ (Some id)), (release_quiet _ id) in H2;
  [by eapply (quiet_same_catalog _ _ _ H2)|exact H2].
Qed.

Lemma claim_item_quiet c0 actor i item s s' stop :
claim_item actor i item s = (s', stop) → quiet_run c0 s → quiet_run c0 s'.
Proof.
unfold claim_item. intros E H. apply (quiet_yield _ None) in H.
set (s1 := yield_to_others _ s) in *. clearbody s1. unfold read_clock in E.
destruct (clock _) as [now w].
assert (quiet_run c0 (set_env (r_catalog s1) w s1)) as H2
  by by apply (quiet_same_catalog c0 s1).
set (s2 := set_env _ w s1) in *. clearbody s2.
destruct (claim_deletion _ _ _ _ _) as [c|e] eqn:Er; [|by injection E as <- <-].
pose proof (claim_deletion_ok _ _ _ _ _ _ (qr_ok _ _ H2) Er) as Hc.
apply claim_deletion_Ok in Er as (r & a & t & Hrow & _ & E1 & _ & Hn & ->).
specialize (Hn eq_refl). set (c' := update_row _ _ _) in *.
assert (∀ rec, rec ∈ live_records c' ↔ rec ∈ live_records (r_catalog s2)) as Hl
  by (intros rec; by apply (elem_of_live_update _ _ _ _ _ Hrow)).
eapply delete_item_quiet; [|exact E|by eapply quiet_same_live].
unfold not_newest. simpl.
rewrite (newest_verified_id_restrict (λ _, True) _ _ (r_catalog s2)); [done| |done].
intros rec. rewrite Hl. tauto.
Qed.

Lemma apply_item_quiet c0 actor i item s s' stop :
apply_item actor i item s = (s', stop) → quiet_run c0 s → quiet_run c0 s'.
Proof.
unfold apply_item. intros E H.
destruct (location_failed _ _); [injection E as <- <-; by apply (quiet_same_catalog c0 s)|].
destruct (bool_decide _); [by eapply claim_item_quiet|].
destruct (resolve _ _) as [[[]|m] w]; [|injection E as <- <-; by apply (quiet_same_catalog c0 s)].
eapply claim_item_quiet; [exact E|]. by apply (quiet_same_catalog c0 s).
Qed.

Lemma apply_loop_quiet c0 actor todo : ∀ i s,
quiet_run c0 s →
let '(r, s') := apply_loop actor i todo s in
quiet_run c0 s' ∧ deleted r = r_deleted s' ∧ already_missing r = r_missing s'.
Proof.
induction todo as [|item rest IH]; intros i s H; simpl; [done|].
destruct (apply_item actor i item s) as [s' stop] eqn:E.
eapply apply_item_quiet in E; [|exact H]. destruct stop; [done|]. by apply IH.
Qed.
End quiet.

(** ** A concrete world *)

(** Objects by location and name, locations that do not open or time out, a
    clock, and what other users call at each of the run's calls. *)
Record desk := mkDesk {
  objects : list (string * string);
  closed : list string;
  timing_out : list string;
  now_us : Z;
  others : list (list catalog_op);
}.

Definition foreignb (mine : option string) (op : catalog_op) : bool :=
  match mine, op with
  | Some id, OpReleaseDeletion i => negb (String.eqb i id)
  | Some id, OpRecordDeletion i _ _ _ _ => negb (String.eqb i id)
  | _, _ => true
  end.

#[export] Instance desk_world : World desk := {|
  resolve loc d :=
    (if bool_decide (loc ∈ closed d) then Err "LookupError" else Ok tt, d);
  target_delete loc nm d :=
    if bool_decide (loc ∈ timing_out d) then (Unreachable "TimeoutError", d)
    else if bool_decide ((loc, nm) ∈ objects d)
    then (Deleted, mkDesk (List.filter (λ o, negb (bool_decide (o = (loc, nm)))) (objects d))
            (closed d) (timing_out d) (now_us d) (others d))
    else (Missing, d);
  clock d := (Aware (now_us d),
    mkDesk (objects d) (closed d) (timing_out d) (now_us d + 1) (others d));
  interfere mine d c :=
    match others d with
    | [] => (d, c)
    | ops :: rest =>
        (mkDesk (objects d) (closed d) (timing_out d) (now_us d) rest,
         foldl exec_op c (List.filter (foreignb mine) ops))
    end;
|}.

Lemma desk_interference mine (d : desk) c : interference mine c (snd (interfere mine d c)).
Proof.
  simpl. destruct (others d) as [|ops rest]; simpl; [by exists []|].
  exists (List.filter (foreignb mine) ops). split; [|done].
  apply Forall_forall. intros op [_ H]%list_elem_of_In%List.filter_In.
  destruct mine as [id|]; [|done].
  split; [|intros reason actor now e]; intros ->; simpl in H; by rewrite String.eqb_refl in H.
Qed.

(** A world of the same objects that nobody else uses. *)
Record lonely := Lonely { alone : desk }.
#[export] Instance lonely_world : World lonely := {|
  resolve loc d := let '(r, w) := resolve loc (alone d) in (r, Lonely w);
  target_delete loc nm d := let '(r, w) := target_delete loc nm (alone d) in (r, Lonely w);
  clock d := let '(t, w) := clock (alone d) in (t, Lonely w);
  interfere mine d c := (d, c);
|}.

Definition three_copies : catalog := foldl exec_op empty_catalog
  [OpAdd (sample "a1" "x/a1" 100) (Aware 1); OpAdd (sample "a2" "x/a2" 200) (Aware 2);
   OpAdd (sample "a3" "x/a3" 300) (Aware 3)].
Lemma three_copies_reachable : reachable three_copies.
Proof. apply exec_ops_reachable, reach_empty. Qed.
Definition older_copies : GroomingPlan :=
  mkPlan (Aware 400)
    [mkItem (sample "a1" "x/a1" 100) "beyond keep_count 1 (newest #3)" retention;
     mkItem (sample "a2" "x/a2" 200) "beyond keep_count 1 (newest #2)" retention] [].
Definition full_desk (others_ : list (list catalog_op)) : desk :=
  mkDesk [("nas", "x/a1"); ("nas", "x/a3")] [] [] 500 others_.

(** ** The guarantees *)

(** [C1] Only claimed, unpinned, planned copies are deleted.  Whatever other
    users of the catalog do between the calls of a run - short of ending its
    claim - every object the run deletes belongs to a copy that at that very
    moment is catalogued under the planned location and name, claimed for
    deletion and not pinned; no object vanishes unaccounted: of every call that
    deleted its object or found it missing, the item has a tombstone that keeps
    its planned record, or it is the failed item the run stopped at, whose row
    is then still catalogued under that location and name, claimed and not
    pinned; every item reported deleted or missing has its tombstone; the
    catalog stays within its contract and no audit entry is lost. *)
Theorem lifecycle_apply_safe {W : Type} {HW : World W} (p : GroomingPlan) (actor : string)
  (w : W) (c : catalog)
  (Hothers : ∀ mine w c, interference mine c (snd (interfere mine w c)))
  (Hc : reachable c) :
  let '(r, s) := apply p actor w c in
  Forall (safe_call (items p)) (r_calls s)
  ∧ Forall (settled (failed r) (r_catalog s)) (r_calls s)
  ∧ Forall (recorded (r_catalog s)) (deleted r ++ already_missing r)
  ∧ reachable (r_catalog s) ∧ audit_extends c (r_catalog s).
Proof.
  pose proof (apply_loop_safe Hothers c (items p) actor (items p) 0
    (mkRun c w [] [] [] [] None [] [])) as H.
  unfold apply. destruct (apply_loop _ _ _ _) as [r s].
  destruct H as ([H1 H2 H3 H4 H5] & -> & ->); [done|by constructor|]. by split_and!.
Qed.

Lemma lifecycle_apply_safe_witness :
  let d := full_desk [[OpMarkUnverified "a2"; OpMarkVerified "a2" None None (Aware 9)];
                      [OpSetPreserve "a1" "keep" "ops" (Aware 9)]] in
  map call_name (r_calls (snd (apply older_copies "gc" d three_copies))) = ["x/a1"; "x/a2"]
  ∧ Forall (safe_call (items older_copies)) (r_calls (snd (apply older_copies "gc" d three_copies))).
Proof.
  intros d. split; [vm_compute; reflexivity|].
  generalize (lifecycle_apply_safe older_copies "gc" d three_copies desk_interference
    three_copies_reachable).
  destruct (apply older_copies "gc" d three_copies) as [r s]. intros (H & _). exact H.
Defined.

(** The failed item can be one whose object is gone: when another user marks
    the copy unverified after the claim, the object is deleted, the catalog
    refuses the tombstone because the record changed, and the item is reported
    failed with its row still claimed. *)
Example deleted_copy_without_tombstone :
  let d := full_desk [[]; []; [OpMarkUnverified "a1"]] in
  let '(r, s) := apply older_copies "gc" d three_copies in
  map call_outcome (r_calls s) = [Deleted]
  ∧ map name (option_list (item_record <$> failed r)) = ["x/a1"]
  ∧ error r = Some "CatalogError: Artifact changed since it was planned for deletion."
  ∧ tombstone_table (r_catalog s) = ∅
  ∧ is_deletion_claimed "a1" (r_catalog s) = true.
Proof. vm_compute. split_and!; reflexivity. Qed.

(** [C10] Grooming never touches the newest verified copy of any class at any
    location, deletes no pinned copy, and leaves every other copy catalogued:
    for a run alone on a catalog, the live records afterwards are exactly the
    earlier ones minus those reported deleted or missing, all of them unpinned,
    and the newest verified copy of every group is the one it was. *)
Theorem lifecycle_apply_keeps_newest_verified {W : Type} {HW : World W} (p : GroomingPlan)
  (actor : string) (w : W) (c : catalog)
  (Hquiet : ∀ mine (w : W) c, snd (interfere mine w c) = c)
  (Hc : reachable c) :
  let '(r, s) := apply p actor w c in
  let gone := item_record <$> (deleted r ++ already_missing r)%list in
  (∀ cls loc, newest_verified_id cls loc (r_catalog s) = newest_verified_id cls loc c)
  ∧ (∀ rec, rec ∈ live_records (r_catalog s) ↔ rec ∈ live_records c ∧ rec ∉ gone)
  ∧ (∀ rec, rec ∈ gone → rec ∈ live_records c ∧ preserved rec = false).
Proof.
  pose proof (apply_loop_quiet Hquiet c actor (items p) 0 (mkRun c w [] [] [] [] None [] [])) as H.
  unfold apply. destruct (apply_loop _ _ _ _) as [r s].
  destruct H as ([H1 H2 H3 H4] & -> & ->); [|by split_and!].
  constructor; simpl; try done; [by apply reachable_ok| |]; intros rec.
  - split; [intros; split; [done|apply not_elem_of_nil]|by intros []].
  - by intros ?%not_elem_of_nil.
Qed.

Lemma lifecycle_apply_keeps_newest_verified_witness :
  newest_verified_id "full" "nas"
    (r_catalog (snd (apply older_copies "gc" (Lonely (full_desk [])) three_copies))) = Some "a3".
Proof.
  generalize (lifecycle_apply_keeps_newest_verified older_copies "gc" (Lonely (full_desk []))
    three_copies (λ _ _ _, eq_refl) three_copies_reachable).
  destruct (apply older_copies "gc" (Lonely (full_desk [])) three_copies) as [r s].
  intros (H & _). etransitivity; [apply H|]. vm_compute. reflexivity.
Defined.

(** With other users the newest-verified guarantee is weaker than the one for
    pins: a copy claimed as an older one can be the newest verified copy by the
    time its object is deleted, when the copies after it are marked unverified
    in between; nothing re-checks the guard. *)
Example claimed_copy_can_become_newest_verified :
  let d := full_desk [[]; [OpMarkUnverified "a3"]] in
  let p := mkPlan (Aware 400)
    [mkItem (sample "a2" "x/a2" 200) "beyond keep_count 1 (newest #2)" retention] [] in
  let c := exec_op three_copies (OpRecordDeletion "a1" "gone" "gc" (Aware 4) None) in
  let '(r, s) := apply p "gc" d c in
  map (λ k, newest_verified_id "full" "nas" (call_catalog k)) (r_calls s) = [Some "a2"]
  ∧ newest_verified_id "full" "nas" c = Some "a3"
  ∧ newest_verified_id "full" "nas" (r_catalog s) = None.
Proof. vm_compute. split_and!; reflexivity. Qed.
