(* ===== verification/LifecyclePlan.v ===== *)
(** * What grooming plans

    [LifecycleManager.plan] against a rank-based specification of retention,
    and [reconcile] against the two sides it compares. *)

From S2P Require Import Prelude PyStr Catalog Lifecycle LifecycleSafety.
From Stdlib Require Import String Ascii.
Import ArtifactCatalog.
#[local] Open Scope string_scope.
#[local] Open Scope Z_scope.

(** ** Ranks *)

Lemma elem_of_enumerate {A} (l : list A) : ∀ k0 k x,
  (k, x) ∈ enumerate k0 l ↔ ∃ i, l !! i = Some x ∧ k = k0 + Z.of_nat i.
Proof.
  induction l as [|y l IH]; intros k0 k x; simpl.
  - split; [by intros ?%not_elem_of_nil|]. by intros (i & ? & _).
  - rewrite elem_of_cons, IH. split.
    + intros [[= -> ->]|(i & Hi & ->)]; [exists 0%nat|exists (S i)]; (split; [done|lia]).
    + intros ([|i] & Hi & ->); simpl in Hi.
      * left. injection Hi as ->. f_equal. lia.
      * right. exists i. split; [done|lia].
Qed.

(** Position in a list sorted newest first: the copies at least as new. *)
Lemma sorted_position l i x :
  NoDup (artifact_id <$> l) → StronglySorted (le_of record_geb) l → l !! i = Some x →
  List.length (List.filter (λ y, record_leb x y) l) = S i.
Proof.
  intros Hn Hs. revert i. induction Hs as [|y l Hs IH Hy]; intros i; [done|].
  inversion Hn as [|? ? Hni Hn']; subst. rewrite Forall_forall in Hy.
  destruct i as [|i]; simpl.
  - intros [= ->]. assert (record_leb x x = true) as -> by (by destruct (record_leb_total x x)).
    assert (List.filter (λ y, record_leb x y) l = []) as ->; [|done].
    apply filter_none, Forall_forall. intros z Hz. destruct (record_leb x z) eqn:E; [|done].
    exfalso. apply Hni, list_elem_of_fmap. exists z. split; [|done].
    apply record_leb_antisym; [done|by apply Hy].
  - intros Hi. assert (record_leb x y = true) as ->.
    { apply Hy. by eapply list_elem_of_lookup_2. }
    simpl. by rewrite (IH Hn' i Hi).
Qed.

(** The retention rank of a copy: how many unpinned verified copies of its
    group are at least as new, itself included. *)
Definition counted_copy (cls loc : string) (r : ArtifactRecord) : bool :=
  String.eqb (backup_class r) cls && String.eqb (location r) loc && verified r
  && negb (preserved r).
Definition rank_of (cls loc : string) (c : catalog) (r : ArtifactRecord) : Z :=
  Z.of_nat (List.length (List.filter (λ r', counted_copy cls loc r' && record_leb r r')
                           (live_records c))).

Definition past_limit (rule : RetentionRule) (now : timestamp) (rank : Z) (r : ArtifactRecord) : Prop :=
  (∃ k, keep_count rule = Some k ∧ k < rank) ∨ (∃ a, max_age rule = Some a ∧ a < age now r).

Lemma retention_reasons_past rule now rank r :
  non_empty (retention_reasons rule now rank r) = true ↔ past_limit rule now rank r.
Proof.
  unfold retention_reasons, past_limit.
  destruct (keep_count rule) as [k|], (max_age rule) as [a|]; simpl;
    try destruct (Z.ltb_spec k rank); try destruct (Z.ltb_spec a (age now r)); simpl;
    split; try done; naive_solver lia.
Qed.

Definition group_of (rule : RetentionRule) (c : catalog) (rs : list ArtifactRecord) : Prop :=
  list_ (Some (rule_class rule)) (Some (rule_location rule)) c = Ok rs.

Lemma group_elem rule c rs r :
  group_of rule c rs →
  r ∈ rs ↔ r ∈ live_records c ∧ backup_class r = rule_class rule ∧ location r = rule_location rule.
Proof.
  intros H. rewrite (list_elem _ _ _ _ _ H). unfold in_group. naive_solver.
Qed.

(** ** One group *)

Lemma NoDup_filter_list {A} (f : A → bool) l : NoDup l → NoDup (List.filter f l).
Proof. rewrite !NoDup_ListNoDup. apply List.NoDup_filter. Qed.

Lemma live_ids_NoDup c l :
  catalog_ok c → NoDup l → (∀ r, r ∈ l → r ∈ live_records c) → NoDup (artifact_id <$> l).
Proof.
  intros Hc Hn. induction Hn as [|r l Hr Hn IH]; intros Hl; [constructor|].
  rewrite fmap_cons. constructor; [|apply IH; intros r' ?; apply Hl; by right].
  intros (r' & E & Hr')%list_elem_of_fmap. apply Hr.
  rewrite (live_id_unique c r r' Hc); [done|apply Hl; by left|apply Hl; by right|done].
Qed.

Section group.
Context (c : catalog) (rule : RetentionRule) (rs : list ArtifactRecord).
Context (Hc : catalog_ok c) (Hg : group_of rule c rs).
Let cls := rule_class rule.
Let loc := rule_location rule.

Lemma counted_perm : counted rs ≡ₚ List.filter (counted_copy cls loc) (live_records c).
Proof.
unfold counted. rewrite sort_by_perm. etrans; [apply filter_perm, filter_perm|].
- rewrite (list_Ok _ _ _ _ Hg). apply sort_by_perm.
- rewrite !filter_filter. apply reflexive_eq. apply List.filter_ext. intros r.
  unfold counted_copy, cls, loc. by destruct (String.eqb _ _), (String.eqb _ _), (verified r), (preserved r).
Qed.

Lemma counted_elem r :
r ∈ counted rs ↔ r ∈ live_records c ∧ backup_class r = cls ∧ location r = loc
  ∧ verified r = true ∧ preserved r = false.
Proof.
rewrite counted_perm, elem_of_filter_list. unfold counted_copy.
rewrite !andb_true_iff, !String.eqb_eq, negb_true_iff. tauto.
Qed.

Lemma counted_rank k r :
(k, r) ∈ enumerate 1 (counted rs) ↔ r ∈ counted rs ∧ k = rank_of cls loc c r.
Proof.
assert (∀ i, counted rs !! i = Some r → 1 + Z.of_nat i = rank_of cls loc c r) as Hpos.
{ intros i Hi. unfold rank_of. rewrite <-filter_filter.
  rewrite (Permutation_length (filter_perm _ _ _ (symmetry counted_perm))).
  rewrite (sorted_position _ i); [lia| |apply record_geb_sorted|done].
  apply (live_ids_NoDup c); [done| |intros r' H%counted_elem; apply H].
  rewrite counted_perm. by apply NoDup_filter_list, live_records_NoDup. }
rewrite elem_of_enumerate. split.
- intros (i & Hi & ->). split; [by eapply list_elem_of_lookup_2|]. by apply Hpos.
- intros [(i & Hi)%list_elem_of_lookup_1 ->]. exists i. split; [done|]. symmetry. by apply Hpos.
Qed.

(** [max(verified, key=...)] is the catalog's newest verified copy. *)
Lemma newest_in_group r :
r ∈ rs → verified r = true →
(∃ n, max_by record_leb (List.filter verified rs) = Some n ∧ artifact_id r = artifact_id n)
  ↔ newest_verified_id cls loc c = Some (artifact_id r).
Proof.
intros Hr Hv.
destruct (max_by record_leb (List.filter verified rs)) as [n|] eqn:En.
- assert (newest_verified_id cls loc c = Some (artifact_id n)) as ->.
  { apply newest_verified_id_iff. exists n. split; [done|]. unfold verified_copy.
    pose proof (max_by_elem _ _ _ En) as [(? & ? & ?)%(group_elem _ _ _ _ Hg) ?]%elem_of_filter_list.
    split_and!; try done. intros r' (? & ? & ? & ?).
    apply (max_by_ge record_leb record_leb_total record_leb_trans _ _ En).
    apply elem_of_filter_list. split; [|done]. by apply (group_elem _ _ _ _ Hg). }
  split; [by intros (n' & [= <-] & ->)|]. intros [= E]. eauto.
- apply max_by_None in En. exfalso.
  assert (r ∈ List.filter verified rs) as H by (by apply elem_of_filter_list).
  rewrite En in H. by apply not_elem_of_nil in H.
Qed.
End group.

(** ** The specification of a plan *)

Definition deletable (c : catalog) (rule : RetentionRule) (grace : Z) (now : timestamp)
    (k : plan_kind) (r : ArtifactRecord) : Prop :=
  r ∈ live_records c ∧ backup_class r = rule_class rule ∧ location r = rule_location rule
  ∧ preserved r = false ∧ is_deletion_claimed (artifact_id r) c = false
  ∧ match k with
    | retention =>
        verified r = true
        ∧ past_limit rule now (rank_of (rule_class rule) (rule_location rule) c r) r
        ∧ newest_verified_id (rule_class rule) (rule_location rule) c ≠ Some (artifact_id r)
    | unverified => verified r = false ∧ grace < age now r
    end.

Definition held_back (c : catalog) (rule : RetentionRule) (now : timestamp) (r : ArtifactRecord) : Prop :=
  r ∈ live_records c ∧ backup_class r = rule_class rule ∧ location r = rule_location rule
  ∧ preserved r = false ∧ is_deletion_claimed (artifact_id r) c = false ∧ verified r = true
  ∧ past_limit rule now (rank_of (rule_class rule) (rule_location rule) c r) r
  ∧ newest_verified_id (rule_class rule) (rule_location rule) c = Some (artifact_id r).

Definition entry_record (e : PlanItem + PlanItem) : ArtifactRecord :=
  match e with inl i => item_record i | inr i => item_record i end.
Definition entry_kind (e : PlanItem + PlanItem) : plan_kind :=
  match e with inl i => item_kind i | inr i => item_kind i end.

(** The first loop yields, for each counted copy past a limit and unclaimed,
    one entry, guarded exactly for the newest verified copy. *)
Lemma retention_item_elem c rule now n rank r e :
  e ∈ retention_item c rule now n (rank, r) ↔
  past_limit rule now rank r ∧ is_deletion_claimed (artifact_id r) c = false
  ∧ e = (if match n with Some n => String.eqb (artifact_id r) (artifact_id n) | None => false end
         then inr else inl)
        (mkItem r (py_join "; " (retention_reasons rule now rank r)) retention).
Proof.
  unfold retention_item. rewrite <-retention_reasons_past.
  destruct (non_empty (retention_reasons rule now rank r)); simpl;
    [|split; [by intros ?%not_elem_of_nil|by intros [? _]]].
  destruct (is_deletion_claimed _ _); simpl; [split; [by intros ?%not_elem_of_nil|by intros (_ & ? & _)]|].
  destruct n as [n|]; [destruct (String.eqb _ _)|]; rewrite list_elem_of_singleton; naive_solver.
Qed.

Lemma unverified_item_elem c grace now r e :
  e ∈ unverified_item c grace now r ↔
  verified r = false ∧ preserved r = false ∧ is_deletion_claimed (artifact_id r) c = false
  ∧ grace < age now r
  ∧ e = inl (mkItem r ("unverified for longer than grace " +:+ describe grace +:+ " (age "
                         +:+ describe (age now r) +:+ ")") unverified).
Proof.
  unfold unverified_item.
  destruct (verified r), (preserved r), (is_deletion_claimed _ _); simpl;
    try (split; [by intros ?%not_elem_of_nil|by intros (? & ? & ? & _)]).
  destruct (Z.ltb_spec grace (age now r)).
  - rewrite list_elem_of_singleton. naive_solver.
  - split; [by intros ?%not_elem_of_nil|]. intros (_ & _ & _ & ? & _). lia.
Qed.

Lemma plan_group_elem m c rule rs now e :
  catalog_ok c → group_of rule c rs →
  e ∈ plan_group m c rule rs now →
  match e with
  | inl i => deletable c rule (unverified_grace m) now (item_kind i) (item_record i)
  | inr i => held_back c rule now (item_record i) ∧ item_kind i = retention
  end.
Proof.
  intros Hc Hg. unfold plan_group. rewrite elem_of_app, !list_elem_of_bind.
  intros [([k r] & He & Hin)|(r & He & Hin)].
  - apply (counted_rank c rule rs Hc Hg) in Hin as [Hin ->].
    pose proof (proj1 (counted_elem c rule rs Hg r) Hin) as (Hl & Hcl & Hlo & Hv & Hp).
    apply retention_item_elem in He as (Hlim & Hcla & ->).
    assert (r ∈ rs) as Hr by by apply (group_elem _ _ _ _ Hg).
    pose proof (newest_in_group c rule rs Hg r Hr Hv) as Hn.
    destruct (max_by record_leb (List.filter verified rs)) as [n|]; simpl.
    + destruct (String.eqb_spec (artifact_id r) (artifact_id n)); simpl.
      * split; [|done]. split_and!; try done. apply Hn. eauto.
      * split_and!; try done. intros Hn'. apply Hn in Hn' as (? & [= <-] & ?). done.
    + split_and!; try done. intros Hn'. by apply Hn in Hn' as (? & ? & _).
  - apply unverified_item_elem in He as (Hv & Hp & Hcla & Hage & ->). simpl.
    apply (group_elem _ _ _ _ Hg) in Hin as (? & ? & ?). by split_and!.
Qed.

Lemma plan_group_complete m c rule rs now r k :
  catalog_ok c → group_of rule c rs →
  deletable c rule (unverified_grace m) now k r →
  ∃ i, inl i ∈ plan_group m c rule rs now ∧ item_record i = r ∧ item_kind i = k.
Proof.
  intros Hc Hg (Hl & Hcl & Hlo & Hp & Hcla & Hk). unfold plan_group.
  setoid_rewrite elem_of_app. setoid_rewrite list_elem_of_bind.
  assert (r ∈ rs) as Hr by by apply (group_elem _ _ _ _ Hg).
  destruct k; destruct Hk as [Hv Hk].
  - destruct Hk as [Hlim Hn]. eexists. split; [left|].
    + exists (rank_of (rule_class rule) (rule_location rule) c r, r).
      rewrite (counted_rank c rule rs Hc Hg), (counted_elem c rule rs Hg), retention_item_elem.
      split_and!; try done.
      assert (match max_by record_leb (List.filter verified rs) with
              | Some n => String.eqb (artifact_id r) (artifact_id n) | None => false end = false) as ->; [|done].
      destruct (max_by _ _) as [n|] eqn:En; [|done]. apply String.eqb_neq. intros E.
      apply Hn, (newest_in_group c rule rs Hg r Hr Hv). eauto.
    + done.
  - eexists. split; [right; exists r; split; [|done]; apply unverified_item_elem; by split_and!|done].
Qed.

Lemma plan_group_guarded m c rule rs now r :
  catalog_ok c → group_of rule c rs → held_back c rule now r →
  ∃ i, inr i ∈ plan_group m c rule rs now ∧ item_record i = r.
Proof.
  intros Hc Hg (Hl & Hcl & Hlo & Hp & Hcla & Hv & Hlim & Hn). unfold plan_group.
  setoid_rewrite elem_of_app. setoid_rewrite list_elem_of_bind.
  assert (r ∈ rs) as Hr by by apply (group_elem _ _ _ _ Hg).
  eexists. split; [left|].
  - exists (rank_of (rule_class rule) (rule_location rule) c r, r).
    rewrite (counted_rank c rule rs Hc Hg), (counted_elem c rule rs Hg), retention_item_elem.
    split_and!; try done.
    apply (newest_in_group c rule rs Hg r Hr Hv) in Hn as (n & -> & ->).
    by rewrite String.eqb_refl.
  - done.
Qed.

(** ** All groups together *)

Lemma NoDup_bind_key {A B K} (f : A → list B) (ka : A → K) (kb : B → K) l :
  (∀ a b, b ∈ f a → kb b = ka a) → (∀ a, (List.length (f a) <= 1)%nat) →
  NoDup (ka <$> l) → NoDup (kb <$> (l ≫= f)).
Proof.
  intros Hk Hlen. induction l as [|a l IH]; simpl; [by constructor|].
  intros Hn. inversion Hn as [|? ? Ha Hn']; subst. rewrite fmap_app.
  apply NoDup_app. split_and!; [| |by apply IH].
  - specialize (Hlen a). destruct (f a) as [|b [|b' l']]; simpl in *; [constructor|apply NoDup_singleton|lia].
  - intros k (b & -> & Hb)%list_elem_of_fmap (b' & E & (a' & Hb' & Ha')%list_elem_of_bind)%list_elem_of_fmap.
    apply Ha. rewrite <-(Hk a b Hb), E, (Hk a' b' Hb'). by apply list_elem_of_fmap_2.
Qed.

Lemma enumerate_snd {A} k (l : list A) : snd <$> enumerate k l = l.
Proof. revert k; induction l as [|x l IH]; intros k; simpl; [done|]. by f_equal. Qed.

Lemma entry_choice (b : bool) i : entry_record ((if b then inr else inl) i) = item_record i.
Proof. by destruct b. Qed.

Lemma plan_group_NoDup m c rule rs now :
  catalog_ok c → group_of rule c rs → NoDup (entry_record <$> plan_group m c rule rs now).
Proof.
  intros Hc Hg. unfold plan_group. rewrite fmap_app. apply NoDup_app. split_and!.
  - apply (NoDup_bind_key _ snd entry_record).
    + intros [k r] e (_ & _ & ->)%retention_item_elem. by rewrite entry_choice.
    + intros [k r]. unfold retention_item. destruct (_ || _); simpl; [lia|].
      destruct (max_by _ _); [destruct (String.eqb _ _)|]; simpl; lia.
    + rewrite enumerate_snd, (counted_perm c rule rs Hg).
      by apply NoDup_filter_list, live_records_NoDup.
  - intros r (e & -> & ([k r'] & He & Hin)%list_elem_of_bind)%list_elem_of_fmap
      (e' & E & (r'' & He' & _)%list_elem_of_bind)%list_elem_of_fmap.
    apply (counted_rank c rule rs Hc Hg) in Hin as [(_ & _ & _ & Hv & _)%(counted_elem c rule rs Hg) _].
    apply retention_item_elem in He as (_ & _ & ->).
    apply unverified_item_elem in He' as (Hv' & _ & _ & _ & ->).
    rewrite entry_choice in E. simpl in E. congruence.
  - apply (NoDup_bind_key _ id entry_record).
    + by intros r e (_ & _ & _ & _ & ->)%unverified_item_elem.
    + intros r. unfold unverified_item. destruct (_ || _); simpl; [lia|].
      destruct (_ <? _); simpl; lia.
    + rewrite list_fmap_id. by eapply list_NoDup.
Qed.

Definition rule_key (r : RetentionRule) : string * string := (rule_class r, rule_location r).

Lemma collect_rules_Ok rs : ∀ seen rs',
  collect_rules rs seen = Ok rs' → NoDup (rule_key <$> seen) →
  rs' = (seen ++ rs)%list ∧ NoDup (rule_key <$> rs').
Proof.
  induction rs as [|r rs IH]; intros seen rs' H Hn; simpl in H.
  - injection H as <-. by rewrite app_nil_r.
  - destruct (existsb _ seen) eqn:E; [discriminate|]. simpl in H.
    apply IH in H; [by rewrite <-app_assoc in H|].
    rewrite fmap_app. apply NoDup_app. split_and!; [done| |apply NoDup_singleton].
    intros k (r' & -> & Hr')%list_elem_of_fmap [= E1 E2]%list_elem_of_singleton.
    apply not_true_iff_false in E. apply E, existsb_exists. exists r'. split; [by apply list_elem_of_In|].
    unfold rule_key_is. by rewrite E1, E2, !String.eqb_refl.
Qed.

Definition lefts (l : list (PlanItem + PlanItem)) : list PlanItem :=
  omap (λ e, match e with inl i => Some i | inr _ => None end) l.
Definition rights (l : list (PlanItem + PlanItem)) : list PlanItem :=
  omap (λ e, match e with inr i => Some i | inl _ => None end) l.
Lemma elem_of_lefts l i : i ∈ lefts l ↔ inl i ∈ l.
Proof.
  unfold lefts. rewrite list_elem_of_omap. split; [by intros ([j|j] & H & [= ->])|eauto].
Qed.
Lemma elem_of_rights l i : i ∈ rights l ↔ inr i ∈ l.
Proof.
  unfold rights. rewrite list_elem_of_omap. split; [by intros ([j|j] & H & [= ->])|eauto].
Qed.
Lemma lefts_NoDup l : NoDup (entry_record <$> l) → NoDup (item_record <$> lefts l).
Proof.
  induction l as [|e l IH]; intros Hn; [constructor|].
  rewrite fmap_cons in Hn. inversion Hn as [|? ? He Hn']; subst. destruct e as [i|i]; simpl; [|by apply IH].
  constructor; [|by apply IH]. intros (i' & E & Hi')%list_elem_of_fmap. apply He, list_elem_of_fmap.
  exists (inl i'). split; [done|]. by apply elem_of_lefts.
Qed.

(** A rule that passed its constructor lists its group without an error. *)
Lemma group_exists rule c : new_rule rule = Ok rule → ∃ rs, group_of rule c rs.
Proof.
  unfold new_rule, group_of, list_, validate_backup_class, validate_location, lift_catalog.
  destruct (bool_decide _); simpl; [|discriminate]. destruct (is_location _); simpl; [|discriminate].
  eauto.
Qed.

Definition group_entries (m : LifecycleManager) (c : catalog) (now : timestamp)
    (rule : RetentionRule) (g : list (PlanItem + PlanItem)) : Prop :=
  ∃ rs, group_of rule c rs ∧ g = plan_group m c rule rs now.

Lemma plan_Ok m now c p :
  plan m now c = Ok p →
  generated_at p = now ∧
  ∃ gs, Forall2 (group_entries m c now) (sort_by rule_leb (rules m)) gs
    ∧ items p = sort_by plan_item_leb (lefts (mjoin gs))
    ∧ guarded p = sort_by plan_item_leb (rights (mjoin gs)).
Proof.
  unfold plan. destruct now as [u|u]; simpl; [discriminate|].
  destruct (res_mapM _ _) as [gs|] eqn:E; simpl; [|discriminate]. intros [= <-]. simpl.
  split; [done|]. exists gs. split_and!; try done. apply res_mapM_Ok in E.
  eapply Forall2_impl; [exact E|]. intros rule g. simpl. intros H.
  destruct (list_ _ _ _) as [rs|] eqn:El; simpl in H; [|discriminate]. injection H as <-.
  by exists rs.
Qed.

Lemma groups_elem m c now rls gs e :
  Forall2 (group_entries m c now) rls gs →
  e ∈ mjoin gs ↔ ∃ rule rs, rule ∈ rls ∧ group_of rule c rs ∧ e ∈ plan_group m c rule rs now.
Proof.
  intros HF. rewrite list_elem_of_join. split.
  - intros (g & He & Hg). apply list_elem_of_lookup_1 in Hg as [i Hi].
    destruct (Forall2_lookup_r _ _ _ _ _ HF Hi) as (rule & Hr & rs & Hrs & ->).
    exists rule, rs. split_and!; try done. by eapply list_elem_of_lookup_2.
  - intros (rule & rs & [i Hi]%list_elem_of_lookup_1 & Hrs & He).
    destruct (Forall2_lookup_l _ _ _ _ _ HF Hi) as (g & Hg & rs' & Hrs' & ->).
    unfold group_of in *. assert (rs' = rs) as -> by congruence.
    eexists. split; [exact He|]. by eapply list_elem_of_lookup_2.
Qed.

Lemma groups_NoDup m c now rls gs :
  catalog_ok c → Forall2 (group_entries m c now) rls gs → NoDup (rule_key <$> rls) →
  NoDup (entry_record <$> mjoin gs).
Proof.
  intros Hc HF. assert (∀ rule rs e, group_of rule c rs → e ∈ plan_group m c rule rs now →
    (backup_class (entry_record e), location (entry_record e)) = rule_key rule) as Hkey.
  { intros rule rs e Hg He%plan_group_elem; [|done..].
    destruct e as [i|i]; simpl; [destruct He as (_ & -> & -> & _)|destruct He as [(_ & -> & -> & _) _]]; done. }
  induction HF as [|rule g rls gs (rs & Hg & ->) HF IH]; simpl; [constructor|].
  intros Hn. inversion Hn as [|? ? Hr Hn']; subst. rewrite fmap_app.
  apply NoDup_app. split_and!; [by apply plan_group_NoDup| |by apply IH].
  intros r (e & -> & He)%list_elem_of_fmap (e' & E & He')%list_elem_of_fmap.
  apply (groups_elem _ _ _ _ _ _ HF) in He' as (rule' & rs' & Hin & Hg' & He').
  apply Hr, list_elem_of_fmap. exists rule'. split; [|done].
  by rewrite <-(Hkey _ _ _ Hg He), <-(Hkey _ _ _ Hg' He'), E.
Qed.

Lemma plan_item_leb_sorted l : StronglySorted (le_of plan_item_leb) (sort_by plan_item_leb l).
Proof.
  apply sort_by_sorted; unfold plan_item_leb.
  - intros x y. apply record_leb_total.
  - intros x y z. apply record_leb_trans.
Qed.

(** [C34] A plan is exactly what the retention policy says.  A copy is planned as
    a retention deletion iff a rule covers its group, it is verified, unpinned,
    unclaimed, not the newest verified copy of the group, and either ranks
    beyond [keep_count] among the unpinned verified copies or is older than
    [max_age]; it is planned as an unverified deletion iff a rule covers it, it
    is unverified, unpinned, unclaimed and older than the grace period; it is
    guarded iff only being the newest verified copy saves it.  No copy is
    planned twice and the order is oldest first.  Planning fails only for a
    naive clock. *)
Theorem lifecycle_plan_spec (rs : list RetentionRule) (grace : Z) (m : LifecycleManager)
  (now : timestamp) (c : catalog)
  (Hm : new_manager rs grace = Ok m) (Hrules : ∀ r, r ∈ rs → new_rule r = Ok r)
  (Hc : reachable c) :
  match plan m now c with
  | Ok p =>
      (∀ r k, (∃ i, i ∈ items p ∧ item_record i = r ∧ item_kind i = k)
              ↔ ∃ rule, rule ∈ rs ∧ deletable c rule grace now k r)
      ∧ (∀ r, (∃ i, i ∈ guarded p ∧ item_record i = r) ↔ ∃ rule, rule ∈ rs ∧ held_back c rule now r)
      ∧ NoDup (item_record <$> items p)
      ∧ StronglySorted (le_of plan_item_leb) (items p)
  | Err _ => ∃ wall, now = Naive wall
  end.
Proof.
  apply reachable_ok in Hc. unfold new_manager in Hm.
  destruct (grace <? 0); [discriminate|]. simpl in Hm.
  destruct (collect_rules rs []) as [rs'|] eqn:Ecr; [|discriminate]. injection Hm as <-.
  apply collect_rules_Ok in Ecr as [-> Hnd]; [|constructor]. simpl in Hnd.
  destruct (plan _ now c) as [p|e] eqn:E.
  - apply plan_Ok in E as (_ & gs & HF & Ei & Eg). simpl in HF.
    assert (∀ rule, rule ∈ sort_by rule_leb rs ↔ rule ∈ rs) as Hin by (intros; apply elem_of_sort_by).
    split_and!.
    + intros r k. rewrite Ei. setoid_rewrite elem_of_sort_by. setoid_rewrite elem_of_lefts.
      setoid_rewrite (groups_elem _ _ _ _ _ _ HF). setoid_rewrite Hin. split.
      * intros (i & (rule & rls & Hrule & Hg & Hi%plan_group_elem) & <- & <-); [|done..]. eauto.
      * intros (rule & Hrule & Hd). pose proof (Hrules _ Hrule) as Hv.
        destruct (group_exists rule c Hv) as [rls Hg].
        destruct (plan_group_complete (mkManager rs grace) c rule rls now r k Hc Hg Hd) as (i & ? & ? & ?). eauto 10.
    + intros r. rewrite Eg. setoid_rewrite elem_of_sort_by. setoid_rewrite elem_of_rights.
      setoid_rewrite (groups_elem _ _ _ _ _ _ HF). setoid_rewrite Hin. split.
      * intros (i & (rule & rls & Hrule & Hg & [Hi _]%plan_group_elem) & <-); [|done..]. eauto.
      * intros (rule & Hrule & Hd). pose proof (Hrules _ Hrule) as Hv.
        destruct (group_exists rule c Hv) as [rls Hg].
        destruct (plan_group_guarded (mkManager rs grace) c rule rls now r Hc Hg Hd) as (i & ? & ?). eauto 10.
    + rewrite Ei, sort_by_perm. apply lefts_NoDup, (groups_NoDup _ _ _ _ _ Hc HF).
      by rewrite sort_by_perm.
    + rewrite Ei. apply plan_item_leb_sorted.
  - destruct now as [wall|u]; [eauto|]. exfalso. unfold plan in E. simpl in E.
    destruct (res_mapM _ _) as [gs|e'] eqn:Er; simpl in E; [discriminate|].
    apply res_mapM_Err in Er as (rule & Hrule & Hr). apply elem_of_sort_by in Hrule.
    destruct (group_exists rule c (Hrules _ Hrule)) as [rls Hg].
    unfold group_of in Hg. rewrite Hg in Hr. discriminate.
Qed.

Definition sample_rule : RetentionRule := mkRule "full" "nas" (Some 1) (Some (3 * HOUR)).
Definition sample_manager : LifecycleManager := mkManager [sample_rule] DEFAULT_UNVERIFIED_GRACE.

Lemma lifecycle_plan_spec_witness :
  match plan sample_manager (Aware 400) three_copies with
  | Ok p => items p = items older_copies ∧ NoDup (item_record <$> items p)
  | Err _ => False
  end.
Proof.
  assert (∀ r, r ∈ [sample_rule] → new_rule r = Ok r) as Hr
    by (intros r ->%list_elem_of_singleton; vm_compute; reflexivity).
  generalize (lifecycle_plan_spec [sample_rule] DEFAULT_UNVERIFIED_GRACE sample_manager (Aware 400)
    three_copies eq_refl Hr three_copies_reachable).
  destruct (plan sample_manager (Aware 400) three_copies) as [p|e] eqn:E; vm_compute in E; [|discriminate].
  injection E as <-. intros (_ & _ & H & _). split; [vm_compute; reflexivity|exact H].
Defined.

(** ** Reconciling *)

Lemma by_name_spec objs nm o :
  by_name objs !! nm = Some o ↔
  ∃ l1 l2, objs = (l1 ++ o :: l2)%list ∧ obj_name o = nm ∧ Forall (λ x, obj_name x ≠ nm) l2.
Proof.
  induction objs as [|x objs IH] using rev_ind; unfold by_name in *; simpl.
  - rewrite lookup_empty. split; [done|]. by intros ([] & l2 & ? & _).
  - rewrite foldl_app. simpl. destruct (decide (obj_name x = nm)) as [<-|Hne].
    + rewrite lookup_insert_eq. split.
      * intros [= <-]. exists objs, []. by split_and!.
      * intros (l1 & l2 & E & Ho & HF). destruct l2 as [|y l2 _] using rev_ind.
        -- apply app_inj_tail in E as [_ ->]. done.
        -- rewrite app_comm_cons, app_assoc in E. apply app_inj_tail in E as [_ <-].
           apply Forall_app in HF as [_ [H _]%Forall_cons]. by destruct H.
    + rewrite lookup_insert_ne by done. rewrite IH. split.
      * intros (l1 & l2 & -> & Ho & HF). exists l1, (l2 ++ [x])%list.
        split_and!; [by rewrite <-app_assoc|done|]. apply Forall_app. split; [done|by apply Forall_singleton].
      * intros (l1 & l2 & E & Ho & HF). destruct l2 as [|y l2 _] using rev_ind.
        -- apply app_inj_tail in E as [_ ->]. done.
        -- rewrite app_comm_cons, app_assoc in E. apply app_inj_tail in E as [-> ->].
           apply Forall_app in HF as [HF _]. eauto.
Qed.

Lemma by_name_None objs nm : by_name objs !! nm = None ↔ nm ∉ obj_name <$> objs.
Proof.
  split.
  - intros H (o & -> & Ho)%list_elem_of_fmap.
    assert (is_Some (by_name objs !! obj_name o)) as [x Hx]; [|congruence]. clear H.
    induction objs as [|y objs IH] using rev_ind; [by apply not_elem_of_nil in Ho|].
    unfold by_name in *. rewrite foldl_app. simpl. destruct (decide (obj_name y = obj_name o)) as [->|Hne].
    + rewrite lookup_insert_eq. eauto.
    + rewrite lookup_insert_ne by done. apply IH. apply elem_of_app in Ho as [Ho|Ho]; [done|].
      apply list_elem_of_singleton in Ho as ->. done.
  - intros H. destruct (by_name objs !! nm) as [o|] eqn:E; [|done].
    apply by_name_spec in E as (l1 & l2 & -> & <- & _). exfalso. apply H, list_elem_of_fmap.
    exists o. split; [done|]. apply elem_of_app. right. by left.
Qed.

Definition catalogued (c : catalog) (loc nm : string) : Prop :=
  ∃ r, r ∈ live_records c ∧ location r = loc ∧ name r = nm.
Definition tombstoned (c : catalog) (loc nm : string) : Prop :=
  ∃ id t, tombstone_table c !! id = Some t ∧ location (ts_record t) = loc ∧ name (ts_record t) = nm.
(** [o] is the object [by_name] holds for its name: the last one listed. *)
Definition last_listed (objs : list stored_object) (o : stored_object) : Prop :=
  ∃ l1 l2, objs = (l1 ++ o :: l2)%list ∧ Forall (λ x, obj_name x ≠ obj_name o) l2.

Lemma by_name_last objs nm o : by_name objs !! nm = Some o ↔ last_listed objs o ∧ obj_name o = nm.
Proof.
  rewrite by_name_spec. unfold last_listed. split.
  - intros (l1 & l2 & -> & <- & H). eauto.
  - intros [(l1 & l2 & -> & H) <-]. eauto.
Qed.

Lemma tombstones_elem loc c ts t :
  tombstones None (Some loc) c = Ok ts →
  t ∈ ts ↔ (∃ id, tombstone_table c !! id = Some t) ∧ location (ts_record t) = loc.
Proof.
  unfold tombstones, validate_location. simpl. destruct (is_location loc); simpl; [|discriminate].
  intros [= <-]. rewrite elem_of_sort_by, elem_of_filter_list, String.eqb_eq, list_elem_of_fmap. simpl.
  assert ((∃ y : string * Tombstone, t = y.2 ∧ y ∈ map_to_list (tombstone_table c))
    ↔ ∃ id, tombstone_table c !! id = Some t) as ->; [|done]. split.
  - intros ([id t'] & -> & H%elem_of_map_to_list). eauto.
  - intros (id & H). exists (id, t). split; [done|]. by apply elem_of_map_to_list.
Qed.

Lemma name_set_elem rs nm :
  nm ∈ (list_to_set (name <$> rs) : gset string) ↔ ∃ r, r ∈ rs ∧ name r = nm.
Proof. rewrite elem_of_list_to_set, list_elem_of_fmap. naive_solver. Qed.

(** What the two computed sets of names contain. *)
Lemma reconcile_sets c loc records tombs nm :
  list_ None (Some loc) c = Ok records → tombstones None (Some loc) c = Ok tombs →
  (nm ∈ (list_to_set (name <$> records) : gset string) ↔ catalogued c loc nm)
  ∧ (nm ∈ (list_to_set (name ∘ ts_record <$> tombs) : gset string) ↔ tombstoned c loc nm).
Proof.
  intros Hr Ht. unfold catalogued, tombstoned. rewrite name_set_elem. split.
  - setoid_rewrite (list_elem _ _ _ _ _ Hr). unfold in_group. naive_solver.
  - rewrite elem_of_list_to_set, list_elem_of_fmap.
    setoid_rewrite (tombstones_elem _ _ _ _ Ht). simpl. naive_solver.
Qed.

(** [reconcile] reports exactly the differences between a location and the
    catalog: a copy is missing iff it is live there and no object has its name;
    an object is uncatalogued iff no live copy there has its name, split by
    whether a tombstone there has it; a size mismatch pairs each live copy with
    the last object of its name when the sizes differ.  It fails only for an
    invalid location name. *)
Theorem lifecycle_reconcile_spec (c : catalog) (objs : list stored_object) (loc : string) :
  match reconcile c objs loc with
  | Ok rep =>
      (∀ r, r ∈ missing rep ↔ r ∈ live_records c ∧ location r = loc ∧ name r ∉ (obj_name <$> objs))
      ∧ (∀ o, o ∈ uncatalogued rep ↔
           o ∈ objs ∧ ¬ catalogued c loc (obj_name o) ∧ ¬ tombstoned c loc (obj_name o))
      ∧ (∀ o, o ∈ tombstoned_but_present rep ↔
           o ∈ objs ∧ ¬ catalogued c loc (obj_name o) ∧ tombstoned c loc (obj_name o))
      ∧ (∀ r o, (r, o) ∈ size_mismatch rep ↔
           r ∈ live_records c ∧ location r = loc ∧ last_listed objs o ∧ obj_name o = name r
           ∧ obj_size o ≠ size r)
  | Err _ => is_location loc = false
  end.
Proof.
  unfold reconcile. destruct (validate_location loc) as [l|e] eqn:El; unfold validate_location in El;
    destruct (is_location loc) eqn:Eloc; simpl in El; try discriminate; simpl; [|done].
  injection El as <-.
  destruct (list_ None (Some loc) c) as [records|] eqn:Er;
    [|unfold list_, validate_location in Er; rewrite Eloc in Er; discriminate].
  destruct (tombstones None (Some loc) c) as [tombs|] eqn:Et;
    [|unfold tombstones, validate_location in Et; rewrite Eloc in Et; discriminate].
  simpl. pose proof (λ nm, reconcile_sets c loc records tombs nm Er Et) as Hsets.
  assert (∀ r, r ∈ records ↔ r ∈ live_records c ∧ location r = loc) as Hrec.
  { intros r. rewrite (list_elem _ _ _ _ _ Er). unfold in_group. naive_solver. }
  split_and!.
  - intros r. rewrite elem_of_filter_list, Hrec, bool_decide_eq_true, by_name_None. tauto.
  - intros o. rewrite elem_of_filter_list, elem_of_sort_by, elem_of_filter_list.
    rewrite !negb_true_iff, !bool_decide_eq_false, (proj1 (Hsets _)), (proj2 (Hsets _)). tauto.
  - intros o. rewrite elem_of_filter_list, elem_of_sort_by, elem_of_filter_list.
    rewrite !negb_true_iff, !bool_decide_eq_false, bool_decide_eq_true, (proj1 (Hsets _)), (proj2 (Hsets _)). tauto.
  - intros r o. rewrite list_elem_of_omap. split.
    + intros (r' & [Hr' Hl]%Hrec & H). destruct (by_name objs !! name r') as [o'|] eqn:Eo; [|discriminate].
      destruct (Z.eqb_spec (obj_size o') (size r')); [discriminate|]. injection H as -> ->.
      apply by_name_last in Eo as [? ?]. by split_and!.
    + intros (? & ? & ? & ? & ?). exists r. split; [by apply Hrec|].
      assert (by_name objs !! name r = Some o) as -> by (by apply by_name_last).
      by rewrite (proj2 (Z.eqb_neq _ _)).
Qed.
