(* ===== verification/StreamEnvelope.v ===== *)
(** * The streamed encryption envelope

    [history_service/backup_archive/stream_envelope.py]: the [TJBENC02] header,
    [StreamSealer], [encrypt_file], [read_header] and [decrypt_file].  AES-GCM,
    scrypt and [os.urandom] are third-party code: the first two are the
    operations of the class [Crypto], whose documented behaviour is
    [CryptoLaws]; random bytes are arguments. *)

From S2P Require Import Prelude PyStr.
From Stdlib Require Import String Ascii Strings.Byte.
#[local] Open Scope string_scope.
#[local] Open Scope Z_scope.

(** ** Bytes *)

Abbreviation bytes := (list byte).
#[export] Instance byte_eq_dec : EqDecision byte := Byte.byte_eq_dec.

Definition bz (b : byte) : Z := Z.of_N (Byte.to_N b).
Definition zb (z : Z) : byte := match Byte.of_N (Z.to_N z) with Some b => b | None => x00 end.
Definition blen (b : bytes) : Z := Z.of_nat (List.length b).
Definition of_text (s : string) : bytes := list_byte_of_string s.

(** [z.to_bytes(n, "big")] *)
Fixpoint to_bytes_be (n : nat) (z : Z) : bytes :=
  match n with
  | O => []
  | S n' => (to_bytes_be n' (z / 256) ++ [zb (z mod 256)])%list
  end.

(** A read of [n] bytes from an unbuffered regular file. *)
Definition bread (n : Z) (rest : bytes) : bytes * bytes :=
  (take (Z.to_nat n) rest, drop (Z.to_nat n) rest).

(** ** Constants *)

Definition MAGIC : bytes := of_text "TJBENC02".
Definition FORMAT_VERSION : Z := 1.
Definition HEADER_BYTES : Z := 48.
Definition TAG_BYTES : Z := 16.
Definition SALT_BYTES : Z := 16.
Definition NONCE_PREFIX_BYTES : Z := 7.
Definition DEFAULT_CHUNK_LOG2 : Z := 20.
Definition DEFAULT_SCRYPT : Z * Z * Z := (15, 8, 1).
Definition in_py_range (lo hi z : Z) : bool := (lo <=? z) && (z <? hi).
Definition CHUNK_LOG2_RANGE : Z → bool := in_py_range 16 25.
Definition SCRYPT_LOG2_N_RANGE : Z → bool := in_py_range 14 21.
Definition SCRYPT_R_RANGE : Z → bool := in_py_range 1 17.
Definition SCRYPT_P_RANGE : Z → bool := in_py_range 1 5.
Definition SCRYPT_MAX_MEMORY : Z := 512 * 1024 * 1024.
Definition MAX_RECORDS : Z := 2 ^ 32 - 1.
Definition DECRYPT_FAILED : string :=
  "The backup could not be decrypted. Check the passphrase; if it is right, the file is damaged or incomplete.".
Definition CORRUPT : string := "The encrypted backup file is damaged or incomplete.".

Inductive stream_error :=
| StreamEnvelopeError (message : string)
| StructError          (* [struct.error]: a header byte out of range *)
| KdfError             (* scrypt refused its parameters *)
| FileExists.          (* [O_EXCL] *)
Abbreviation stream_result := (result stream_error).

Definition is_stream_envelope (prefix : bytes) : bool :=
  bool_decide (take 8 prefix = MAGIC).

(** ** The header: [struct.Struct(">8sBBBBB3s16s7s9s")] *)

(** A [B] field raises outside a byte; an [s] field pads or truncates. *)
Definition pack_B (z : Z) : stream_result bytes :=
  raise: StructError when negb ((0 <=? z) && (z <? 256));
  Ok [zb z].
Definition pack_s (n : nat) (b : bytes) : bytes := take n (b ++ replicate n x00).

Record header_fields := mkHeader {
  h_magic : bytes; h_version : Z; h_log2_n : Z; h_r : Z; h_p : Z; h_chunk_log2 : Z;
  h_reserved : bytes; h_salt : bytes; h_prefix : bytes; h_padding : bytes;
}.

Definition pack_header (h : header_fields) : stream_result bytes :=
  version ← pack_B (h_version h);
  log2_n ← pack_B (h_log2_n h);
  r ← pack_B (h_r h);
  p ← pack_B (h_p h);
  chunk_log2 ← pack_B (h_chunk_log2 h);
  Ok (pack_s 8 (h_magic h) ++ version ++ log2_n ++ r ++ p ++ chunk_log2
      ++ pack_s 3 (h_reserved h) ++ pack_s 16 (h_salt h) ++ pack_s 7 (h_prefix h)
      ++ pack_s 9 (h_padding h))%list.

Definition slice (from n : nat) (b : bytes) : bytes := take n (drop from b).
Definition byte_at (i : nat) (b : bytes) : Z := match b !! i with Some x => bz x | None => 0 end.
Definition unpack_header (b : bytes) : header_fields :=
  mkHeader (slice 0 8 b) (byte_at 8 b) (byte_at 9 b) (byte_at 10 b) (byte_at 11 b) (byte_at 12 b)
    (slice 13 3 b) (slice 16 16 b) (slice 32 7 b) (slice 39 9 b).

(** [read_header]: the header bytes, the fields the reader uses, and what is
    left to read. *)
Definition read_header (source : bytes) : stream_result (bytes * header_fields * bytes) :=
  let '(header, rest) := bread HEADER_BYTES source in
  raise: StreamEnvelopeError CORRUPT when negb (blen header =? HEADER_BYTES);
  let h := unpack_header header in
  raise: StreamEnvelopeError CORRUPT when negb (bool_decide (h_magic h = MAGIC));
  raise: StreamEnvelopeError
      "This encrypted backup was made by a newer version of the app. Update the app, then restore it."
    when negb (h_version h =? FORMAT_VERSION);
  raise: StreamEnvelopeError CORRUPT
    when negb (bool_decide (h_reserved h = replicate 3 x00))
         || negb (bool_decide (h_padding h = replicate 9 x00))
         || negb (CHUNK_LOG2_RANGE (h_chunk_log2 h))
         || negb (SCRYPT_LOG2_N_RANGE (h_log2_n h))
         || negb (SCRYPT_R_RANGE (h_r h))
         || negb (SCRYPT_P_RANGE (h_p h))
         || (SCRYPT_MAX_MEMORY <? 128 * h_r h * 2 ^ h_log2_n h * h_p h);
  Ok (header, h, rest).
Definition chunk_size (h : header_fields) : Z := Z.shiftl 1 (h_chunk_log2 h).

(** ** The primitives *)

Class Crypto := {
  aead_encrypt : bytes → bytes → bytes → bytes → bytes;          (* key nonce data ad *)
  aead_decrypt : bytes → bytes → bytes → bytes → option bytes;   (* [None]: [InvalidTag] *)
  derive_key : string → bytes → Z → Z → Z → option bytes;         (* passphrase salt log2_n r p *)
}.

(** AES-GCM as documented: a 16-byte tag follows the ciphertext, decryption
    undoes encryption, and accepts only what encryption produces (the tag is
    recomputed and compared). *)
Class CryptoLaws (C : Crypto) : Prop := {
  aead_tag_length : ∀ k n d a,
    List.length (aead_encrypt k n d a) = (List.length d + 16)%nat;
  aead_open : ∀ k n d a, aead_decrypt k n (aead_encrypt k n d a) a = Some d;
  aead_exact : ∀ k n c d a, aead_decrypt k n c a = Some d → c = aead_encrypt k n d a;
}.

Definition nonce (prefix : bytes) (index : Z) (last : bool) : stream_result bytes :=
  raise: StreamEnvelopeError "The backup is too large for one encrypted file."
    when MAX_RECORDS <? index;
  Ok (prefix ++ to_bytes_be 4 index ++ [if last then x01 else x00])%list.

(** ** Sealing *)

Record StreamSealer := mkSealer {
  s_prefix : bytes;
  s_header : bytes;
  s_key : bytes;
  s_chunk : Z;
  s_buffer : bytes;
  s_index : Z;
  s_output : bytes;
  s_closed : bool;
  bytes_in : Z;
  bytes_out : Z;
}.

Section sealing.
Context `{Crypto}.

Definition new_sealer (passphrase : string) (chunk_log2 : Z) (scrypt : Z * Z * Z)
  (salt prefix : bytes) : stream_result StreamSealer :=
raise: StreamEnvelopeError "A passphrase is required when encryption is enabled."
  when String.eqb passphrase "";
raise: StreamEnvelopeError "Unsupported encryption chunk size."
  when negb (CHUNK_LOG2_RANGE chunk_log2);
let '(log2_n, r, p) := scrypt in
header ← pack_header (mkHeader MAGIC FORMAT_VERSION log2_n r p chunk_log2 (replicate 3 x00)
                        salt prefix (replicate 9 x00));
match derive_key passphrase salt log2_n r p with
| None => Err KdfError
| Some key =>
    Ok (mkSealer prefix header key (Z.shiftl 1 chunk_log2) [] 0 header false 0 HEADER_BYTES)
end.

Definition seal (chunk : bytes) (last : bool) (s : StreamSealer) : stream_result StreamSealer :=
n ← nonce (s_prefix s) (s_index s) last;
let record := aead_encrypt (s_key s) n chunk (s_header s) in
Ok (mkSealer (s_prefix s) (s_header s) (s_key s) (s_chunk s) (s_buffer s) (s_index s + 1)
      (s_output s ++ record)%list (s_closed s) (bytes_in s) (bytes_out s + blen record)).

Definition with_buffer (b : bytes) (s : StreamSealer) : StreamSealer :=
mkSealer (s_prefix s) (s_header s) (s_key s) (s_chunk s) b (s_index s) (s_output s)
  (s_closed s) (bytes_in s) (bytes_out s).
Definition add_in (n : Z) (s : StreamSealer) : StreamSealer :=
mkSealer (s_prefix s) (s_header s) (s_key s) (s_chunk s) (s_buffer s) (s_index s) (s_output s)
  (s_closed s) (bytes_in s + n) (bytes_out s).
Definition set_closed (s : StreamSealer) : StreamSealer :=
mkSealer (s_prefix s) (s_header s) (s_key s) (s_chunk s) [] (s_index s) (s_output s)
  true (bytes_in s) (bytes_out s).

(** [while len(self._buffer) > self._chunk]: each turn removes a chunk. *)
Fixpoint drain (fuel : nat) (s : StreamSealer) : stream_result StreamSealer :=
if blen (s_buffer s) <=? s_chunk s then Ok s
else match fuel with
     | O => Ok s
     | S fuel' =>
         s' ← seal (take (Z.to_nat (s_chunk s)) (s_buffer s)) false s;
         drain fuel' (with_buffer (drop (Z.to_nat (s_chunk s)) (s_buffer s)) s')
     end.

Definition write (data : bytes) (s : StreamSealer) : stream_result StreamSealer :=
raise: StreamEnvelopeError "The encrypted backup was already sealed." when s_closed s;
let s := add_in (blen data) s in
let s := with_buffer (s_buffer s ++ data)%list s in
drain (List.length (s_buffer s)) s.

Definition close (s : StreamSealer) : stream_result StreamSealer :=
if s_closed s then Ok s
else
  s ← seal (s_buffer s) true s;
  Ok (set_closed s).

Fixpoint write_all (datas : list bytes) (s : StreamSealer) : stream_result StreamSealer :=
match datas with
| [] => Ok s
| d :: ds => s ← write d s; write_all ds s
end.

(** [while chunk := source.read(read_bytes)] *)
Fixpoint copy (fuel : nat) (read_bytes : Z) (source : bytes) (s : StreamSealer) :
  stream_result StreamSealer :=
match fuel with
| O => Ok s
| S fuel' =>
    let '(chunk, rest) := bread read_bytes source in
    match chunk with
    | [] => Ok s
    | _ => s ← write chunk s; copy fuel' read_bytes rest s
    end
end.

(** The size returned or the exception, and what is at [output_path] after:
  a file made by the call is removed on an exception. *)
Definition encrypt_file (source : bytes) (output : option bytes) (passphrase : string)
  (read_bytes : Z) (salt prefix : bytes) : stream_result Z * option bytes :=
match output with
| Some _ => (Err FileExists, output)
| None =>
    match (s ← new_sealer passphrase DEFAULT_CHUNK_LOG2 DEFAULT_SCRYPT salt prefix;
           s ← copy (S (List.length source)) read_bytes source s;
           close s) with
    | Ok s => (Ok (bytes_out s), Some (s_output s))
    | Err e => (Err e, None)
    end
end.

(** ** Opening *)

(** The loop of [decrypt_file] over the records from [index]: what it wrote
  and, unless it failed, what is left to read. *)
Fixpoint open_records (todo : nat) (index : Z) (key header prefix : bytes)
  (record_size remainder : Z) (rest written : bytes) : stream_result bytes * bytes :=
match todo with
| O => (Ok rest, written)
| S todo' =>
    let last := Nat.eqb todo' 0 in
    let wanted := if negb last || (remainder =? 0) then record_size else remainder in
    let '(record, rest) := bread wanted rest in
    if negb (blen record =? wanted) then (Err (StreamEnvelopeError CORRUPT), written)
    else
      match nonce prefix index last with
      | Err e => (Err e, written)
      | Ok n =>
          match aead_decrypt key n record header with
          | None => (Err (StreamEnvelopeError (if index =? 0 then DECRYPT_FAILED else CORRUPT)),
                     written)
          | Some plaintext =>
              open_records todo' (index + 1) key header prefix record_size remainder rest
                (written ++ plaintext)%list
          end
      end
end.

(** How many records a body of [body] bytes holds. *)
Definition record_count (body record_size : Z) : stream_result Z :=
raise: StreamEnvelopeError CORRUPT when body <? TAG_BYTES;
let full_records := body / record_size in
let remainder := body mod record_size in
if remainder =? 0 then Ok full_records
else if remainder <? TAG_BYTES then Err (StreamEnvelopeError CORRUPT)
else Ok (full_records + 1).

(** [total_size] is what [stat] reported, [contents] what reading yields. *)
Definition decrypt_file (total_size : Z) (contents : bytes) (output : option bytes)
  (passphrase : option string) (max_output_bytes : Z) : stream_result Z * option bytes :=
match passphrase with
| None | Some "" =>
    (Err (StreamEnvelopeError "A passphrase is required for this encrypted backup."), output)
| Some passphrase =>
    match read_header contents with
    | Err e => (Err e, output)
    | Ok (header, h, rest) =>
        let body := total_size - HEADER_BYTES in
        let record_size := chunk_size h + TAG_BYTES in
        match record_count body record_size with
        | Err e => (Err e, output)
        | Ok records =>
            let plaintext_size := body - records * TAG_BYTES in
            if max_output_bytes <? plaintext_size then
              (Err (StreamEnvelopeError "The encrypted backup is larger than this app accepts."), output)
            else
              match derive_key passphrase (h_salt h) (h_log2_n h) (h_r h) (h_p h), output with
              | None, _ => (Err KdfError, output)
              | Some _, Some _ => (Err FileExists, output)
              | Some key, None =>
                  match open_records (Z.to_nat records) 0 key header (h_prefix h) record_size
                          (body mod record_size) rest [] with
                  | (Err e, _) => (Err e, None)
                  | (Ok rest, written) =>
                      if negb (bool_decide (fst (bread 1 rest) = [])) then
                        (Err (StreamEnvelopeError CORRUPT), None)
                      else if negb (blen written =? plaintext_size) then
                        (Err (StreamEnvelopeError CORRUPT), None)
                      else (Ok (blen written), Some written)
                  end
              end
        end
    end
end.
End sealing.
