(* ===== verification/StreamProofs.v ===== *)
(** * Theorems on the encryption envelope

    Header round trip, the sealer against a reference that splits the plain
    text, the round trip, and what a successful decryption implies. *)

From S2P Require Import Prelude PyStr StreamEnvelope.
From Stdlib Require Import String Ascii Strings.Byte.
#[local] Open Scope string_scope.
#[local] Open Scope list_scope.
#[local] Open Scope Z_scope.

#[local] Abbreviation concat := List.concat.

(** ** Bytes *)

Lemma bz_range b : 0 <= bz b < 256.
Proof. unfold bz. pose proof (Byte.to_N_bounded b). lia. Qed.
Lemma zb_bz b : zb (bz b) = b.
Proof. unfold zb, bz. by rewrite N2Z.id, Byte.of_to_N. Qed.
Lemma bz_zb z : 0 <= z < 256 → bz (zb z) = z.
Proof.
  intros Hz. unfold zb, bz. destruct (Byte.of_N (Z.to_N z)) as [b|] eqn:E.
  - apply Byte.to_of_N in E. rewrite E. lia.
  - apply Byte.of_N_None_iff in E. lia.
Qed.

Lemma length_to_bytes_be n z : List.length (to_bytes_be n z) = n.
Proof. revert z; induction n as [|n IH]; intros z; simpl; [done|]. rewrite length_app, IH. simpl. lia. Qed.

Lemma to_bytes_be_inj n : ∀ x y,
  0 <= x < 256 ^ Z.of_nat n → 0 <= y < 256 ^ Z.of_nat n →
  to_bytes_be n x = to_bytes_be n y → x = y.
Proof.
  induction n as [|n IH]; intros x y Hx Hy E; [simpl in *; lia|].
  rewrite Nat2Z.inj_succ, Z.pow_succ_r in Hx, Hy by lia. simpl in E.
  apply app_inj_tail in E as [E1 E2].
  assert (x mod 256 = y mod 256) as Em.
  { rewrite <-(bz_zb (x mod 256)), <-(bz_zb (y mod 256)) by (apply Z.mod_pos_bound; lia).
    by rewrite E2. }
  apply IH in E1; [|split; [apply Z.div_pos; lia|apply Z.div_lt_upper_bound; lia]..].
  rewrite (Z.div_mod x 256), (Z.div_mod y 256) by lia. by rewrite E1, Em.
Qed.

Lemma blen_nonneg b : 0 <= blen b.
Proof. unfold blen. lia. Qed.
Lemma blen_app a b : blen (a ++ b) = blen a + blen b.
Proof. unfold blen. rewrite length_app. lia. Qed.
Lemma blen_nil : blen [] = 0.
Proof. done. Qed.
Lemma blen_0 b : blen b = 0 ↔ b = [].
Proof. unfold blen. destruct b; simpl; split; done || lia. Qed.
#[export] Hint Rewrite blen_app blen_nil : pyrw.

Lemma bread_app a rest : bread (blen a) (a ++ rest) = (a, rest).
Proof. unfold bread, blen. rewrite Nat2Z.id. by rewrite take_app_length, drop_app_length. Qed.
Lemma bread_split n rest a b : bread n rest = (a, b) → rest = a ++ b.
Proof. unfold bread. intros [= <- <-]. by rewrite take_drop. Qed.

(** ** The header *)

Lemma pack_B_bz b : pack_B (bz b) = Ok [b].
Proof.
  unfold pack_B. pose proof (bz_range b).
  rewrite (proj2 (Z.leb_le _ _)), (proj2 (Z.ltb_lt _ _)) by lia. simpl. by rewrite zb_bz.
Qed.
Lemma pack_B_Ok z b : pack_B z = Ok b → 0 <= z < 256 ∧ b = [zb z].
Proof.
  unfold pack_B. destruct (Z.leb_spec 0 z), (Z.ltb_spec z 256); simpl; try discriminate.
  intros [= <-]. split; [lia|done].
Qed.
Lemma pack_s_id n b : List.length b = n → pack_s n b = b.
Proof. intros <-. unfold pack_s. by rewrite take_app_length. Qed.

Lemma slice_segment segs : ∀ i m from n,
  segs !! i = Some m → List.length (concat (take i segs)) = from → List.length m = n →
  slice from n (concat segs) = m.
Proof.
  intros i m from n Hi <- <-. unfold slice.
  rewrite <-(take_drop_middle segs i m Hi) at 2. rewrite concat_app, drop_app_length. simpl.
  apply take_app_length.
Qed.
Lemma byte_at_slice i b x : slice i 1 b = [x] → byte_at i b = bz x.
Proof.
  unfold slice, byte_at. intros H.
  assert ((take 1 (drop i b)) !! 0%nat = Some x) as E by (by rewrite H).
  rewrite lookup_take_lt, lookup_drop, Nat.add_0_r in E by lia. by rewrite E.
Qed.

Definition header_sizes (h : header_fields) : Prop :=
  List.length (h_magic h) = 8%nat ∧ List.length (h_reserved h) = 3%nat
  ∧ List.length (h_salt h) = 16%nat ∧ List.length (h_prefix h) = 7%nat
  ∧ List.length (h_padding h) = 9%nat.

Lemma pack_unpack h b :
  header_sizes h → pack_header h = Ok b → List.length b = 48%nat ∧ unpack_header b = h.
Proof.
  destruct h as [magic v n r p cl res salt prefix pad].
  intros (L1 & L2 & L3 & L4 & L5) H. unfold pack_header in H. simpl in *.
  destruct (pack_B v) as [bv|] eqn:Ev; [|discriminate]. apply pack_B_Ok in Ev as [Hv ->].
  destruct (pack_B n) as [bn|] eqn:En; [|discriminate]. apply pack_B_Ok in En as [Hn ->].
  destruct (pack_B r) as [br|] eqn:Er; [|discriminate]. apply pack_B_Ok in Er as [Hr ->].
  destruct (pack_B p) as [bp|] eqn:Ep; [|discriminate]. apply pack_B_Ok in Ep as [Hp ->].
  destruct (pack_B cl) as [bc|] eqn:Ec; [|discriminate]. apply pack_B_Ok in Ec as [Hc ->].
  simpl in H. injection H as <-. rewrite !pack_s_id by done.
  set (segs := [magic; [zb v]; [zb n]; [zb r]; [zb p]; [zb cl]; res; salt; prefix; pad]).
  match goal with |- context [unpack_header ?x] => assert (x = concat segs) as -> end.
  { unfold segs. simpl. by rewrite app_nil_r. }
  split.
  { unfold segs. simpl. repeat (rewrite length_app; simpl). lia. }
  assert (∀ i x from, segs !! i = Some [zb x] → List.length (concat (take i segs)) = from →
    0 <= x < 256 → byte_at from (concat segs) = x) as Hb.
  { intros i x from Hi Hf Hx.
    rewrite (byte_at_slice _ _ (zb x)) by (by apply (slice_segment _ i)). by apply bz_zb. }
  assert (∀ i from k x, segs !! i = Some x → List.length (concat (take i segs)) = from →
    List.length x = k → slice from k (concat segs) = x) as Hs by (intros; by apply (slice_segment _ i)).
  assert (Hlen : ∀ i, List.length (concat (take i segs)) = sum_list (List.length <$> take i segs)).
  { intros i. generalize (take i segs). intros l. induction l as [|y l IH]; simpl; [done|].
    by rewrite length_app, IH. }
  unfold unpack_header. f_equal;
    [eapply (Hs 0%nat)|eapply (Hb 1%nat)|eapply (Hb 2%nat)|eapply (Hb 3%nat)|eapply (Hb 4%nat)
    |eapply (Hb 5%nat)|eapply (Hs 6%nat)|eapply (Hs 7%nat)|eapply (Hs 8%nat)|eapply (Hs 9%nat)];
    try done; rewrite Hlen; simpl; lia.
Qed.

(** Forty-eight bytes are what packing their fields gives. *)
Lemma unpack_pack b : List.length b = 48%nat → pack_header (unpack_header b) = Ok b.
Proof.
  intros Hb. do 48 (destruct b as [|? b]; [discriminate Hb|]).
  destruct b; [|discriminate Hb].
  unfold pack_header, unpack_header, byte_at, slice. simpl. rewrite !pack_B_bz. reflexivity.
Qed.

(** The fields a reader accepts. *)
Record header_ok (h : header_fields) : Prop := {
  ok_magic : h_magic h = MAGIC;
  ok_version : h_version h = FORMAT_VERSION;
  ok_reserved : h_reserved h = replicate 3 x00;
  ok_padding : h_padding h = replicate 9 x00;
  ok_chunk : 16 <= h_chunk_log2 h <= 24;
  ok_n : 14 <= h_log2_n h <= 20;
  ok_r : 1 <= h_r h <= 16;
  ok_p : 1 <= h_p h <= 4;
  ok_memory : 128 * h_r h * 2 ^ h_log2_n h * h_p h <= 512 * 2 ^ 20;
}.

Lemma in_py_range_iff lo hi z : in_py_range lo hi z = true ↔ lo <= z < hi.
Proof. unfold in_py_range. by rewrite andb_true_iff, Z.leb_le, Z.ltb_lt. Qed.

Lemma read_header_iff source header h rest :
  read_header source = Ok (header, h, rest) ↔
  source = header ++ rest ∧ List.length header = 48%nat ∧ h = unpack_header header ∧ header_ok h.
Proof.
  unfold read_header. destruct (bread HEADER_BYTES source) as [hd rs] eqn:Eb.
  assert (SCRYPT_MAX_MEMORY = 512 * 2 ^ 20) as Hmem by reflexivity.
  split.
  - intros H. pose proof (bread_split _ _ _ _ Eb) as ->.
    repeat (match type of H with (if ?b then _ else _) = _ => destruct b eqn:? end; [discriminate|]).
    injection H as <- <- <-. to_prop.
    assert (List.length hd = 48%nat) as Hl by (unfold blen, HEADER_BYTES in *; lia). unfold CHUNK_LOG2_RANGE, SCRYPT_LOG2_N_RANGE, SCRYPT_R_RANGE, SCRYPT_P_RANGE in *.
    repeat match goal with H : in_py_range _ _ _ = true |- _ => apply in_py_range_iff in H end.
    split_and!; [done|lia|done|]. constructor; try done; lia.
  - intros (-> & Hl & -> & [H1 H2 H3 H4 H5 H6 H7 H8 H9]).
    assert (bread HEADER_BYTES (header ++ rest) = (header, rest)) as E'.
    { replace HEADER_BYTES with (blen header); [apply bread_app|]. unfold blen. by rewrite Hl. }
    rewrite E' in Eb. injection Eb as <- <-.
    replace (blen header =? HEADER_BYTES) with true
      by (symmetry; apply Z.eqb_eq; unfold blen; by rewrite Hl).
    cbn [negb]. rewrite H2, H1, H3, H4, !bool_decide_eq_true_2, Z.eqb_refl by done. cbn [negb orb].
    unfold CHUNK_LOG2_RANGE, SCRYPT_LOG2_N_RANGE, SCRYPT_R_RANGE, SCRYPT_P_RANGE.
    rewrite !(proj2 (in_py_range_iff _ _ _)) by lia. cbn [negb orb].
    rewrite (proj2 (Z.ltb_ge _ _)) by lia. reflexivity.
Qed.

(** ** The reference: split, then seal *)

Definition raw_nonce (prefix : bytes) (index : Z) (last : bool) : bytes :=
  prefix ++ to_bytes_be 4 index ++ [if last then x01 else x00].

Lemma nonce_Ok prefix index last n :
  nonce prefix index last = Ok n ↔ index <= MAX_RECORDS ∧ n = raw_nonce prefix index last.
Proof.
  unfold nonce. destruct (Z.ltb_spec MAX_RECORDS index).
  - split; [done|lia].
  - split; [intros [= <-]; done|by intros [_ ->]].
Qed.

Lemma nonce_within prefix index last :
  index <= MAX_RECORDS → nonce prefix index last = Ok (raw_nonce prefix index last).
Proof. intros. by apply nonce_Ok. Qed.

Lemma raw_nonce_inj prefix i j a b :
  0 <= i <= MAX_RECORDS → 0 <= j <= MAX_RECORDS →
  raw_nonce prefix i a = raw_nonce prefix j b → i = j ∧ a = b.
Proof.
  unfold raw_nonce. intros Hi Hj E%app_inv_head. apply app_inj_tail in E as [E1 E2].
  split; [|by destruct a, b].
  apply (to_bytes_be_inj 4); [unfold MAX_RECORDS in *; lia..|done].
Qed.

(** Cut off chunks of [n] bytes while more than [n] bytes are left. *)
Fixpoint split_fuel (fuel : nat) (n : Z) (d : bytes) : list bytes :=
  match fuel with
  | O => [d]
  | S fuel' => if blen d <=? n then [d]
               else take (Z.to_nat n) d :: split_fuel fuel' n (drop (Z.to_nat n) d)
  end.
Definition split_chunks (n : Z) (d : bytes) : list bytes := split_fuel (List.length d) n d.

(** Whole chunks and the last one, as the sealer keeps them. *)
Definition chunked (n : Z) (full : list bytes) (last : bytes) : Prop :=
  Forall (λ c, blen c = n) full ∧ blen last <= n.

Lemma concat_app_list (l1 l2 : list bytes) : concat (l1 ++ l2) = concat l1 ++ concat l2.
Proof. apply List.concat_app. Qed.

Lemma split_fuel_unique n full buf : ∀ fuel,
  0 < n → chunked n full buf → (full ≠ [] → buf ≠ []) →
  (List.length (concat full ++ buf) <= fuel)%nat →
  split_fuel fuel n (concat full ++ buf) = full ++ [buf].
Proof.
  intros fuel Hn [Hf Hb]. revert fuel. induction Hf as [|c full Hc Hf IH]; intros fuel Hne Hfuel.
  - simpl. destruct fuel as [|fuel]; simpl; [done|]. by rewrite (proj2 (Z.leb_le _ _)).
  - specialize (Hne ltac:(done)). cbn [List.concat app] in *. rewrite <-app_assoc in *.
    assert (0 < blen buf) as Hb0 by (destruct buf; [done|unfold blen; simpl; lia]).
    pose proof (blen_nonneg (concat full)). rewrite <-Hc in *.
    rewrite length_app in Hfuel. destruct fuel as [|fuel].
    { unfold blen in *. lia. }
    simpl. rewrite (proj2 (Z.leb_gt _ _)) by (autorewrite with pyrw; lia).
    pose proof (bread_app c (concat full ++ buf)) as Hr. unfold bread in Hr. injection Hr as -> ->.
    f_equal. apply IH; [done|]. unfold blen in Hn. lia.
Qed.

Lemma split_chunks_unique n full buf :
  0 < n → chunked n full buf → (full ≠ [] → buf ≠ []) →
  split_chunks n (concat full ++ buf) = full ++ [buf].
Proof. intros. by apply split_fuel_unique. Qed.

(** The length of [k] chunks. *)
Lemma blen_concat n full :
  Forall (λ c, blen c = n) full → blen (concat full) = Z.of_nat (List.length full) * n.
Proof. induction 1 as [|c full Hc _ IH]; simpl; [done|]. rewrite blen_app, IH, Hc. lia. Qed.

Section laws.
Context `{Laws : CryptoLaws}.

Lemma blen_encrypt k n d a : blen (aead_encrypt k n d a) = blen d + TAG_BYTES.
Proof. unfold blen, TAG_BYTES. rewrite aead_tag_length. lia. Qed.

(** The records of consecutive chunks, none of them marked last. *)
Fixpoint seal_full (key header prefix : bytes) (index : Z) (cs : list bytes) : bytes :=
match cs with
| [] => []
| c :: cs' => aead_encrypt key (raw_nonce prefix index false) c header
              ++ seal_full key header prefix (index + 1) cs'
end.
(** ... and with the last one marked. *)
Definition seal_records (key header prefix : bytes) (full : list bytes) (last : bytes) : bytes :=
seal_full key header prefix 0 full
++ aead_encrypt key (raw_nonce prefix (Z.of_nat (List.length full)) true) last header.

Lemma seal_full_app key header prefix cs1 : ∀ index cs2,
seal_full key header prefix index (cs1 ++ cs2) =
seal_full key header prefix index cs1
++ seal_full key header prefix (index + Z.of_nat (List.length cs1)) cs2.
Proof.
induction cs1 as [|c cs1 IH]; intros index cs2; simpl; [by rewrite Z.add_0_r|].
rewrite IH, <-app_assoc. do 3 f_equal. lia.
Qed.

Lemma blen_seal_full key header prefix n cs : ∀ index,
Forall (λ c, blen c = n) cs →
blen (seal_full key header prefix index cs) = Z.of_nat (List.length cs) * (n + TAG_BYTES).
Proof.
intros index H. revert index. induction H as [|c cs Hc _ IH]; intros index; simpl; [done|].
rewrite blen_app, IH, blen_encrypt. lia.
Qed.

(** *** The sealer *)

(** A sealer that has sealed [full] and holds back [buf]. *)
Record sealing (s0 : StreamSealer) (full : list bytes) (buf : bytes) (s : StreamSealer) : Prop := {
se_prefix : s_prefix s = s_prefix s0;
se_header : s_header s = s_header s0;
se_key : s_key s = s_key s0;
se_chunk : s_chunk s = s_chunk s0;
se_buffer : s_buffer s = buf;
se_index : s_index s = Z.of_nat (List.length full);
se_output : s_output s
  = s_header s0 ++ seal_full (s_key s0) (s_header s0) (s_prefix s0) 0 full;
se_closed : s_closed s = false;
se_out : bytes_out s = blen (s_output s);
se_full : Forall (λ c, blen c = s_chunk s0) full;
se_held : full ≠ [] → buf ≠ [];
se_limit : Z.of_nat (List.length full) <= 2 ^ 32;
}.

Lemma seal_sealing s0 full buf s c :
0 < s_chunk s0 → sealing s0 full buf s → blen c = s_chunk s0 → ∀ buf', buf' ≠ [] →
match seal c false s with
| Ok s' => sealing s0 (full ++ [c]) buf' (with_buffer buf' s') ∧ bytes_in s' = bytes_in s
| Err _ => Z.of_nat (List.length full) = 2 ^ 32
end.
Proof.
intros Hn [E1 E2 E3 E4 E5 E6 E7 E8 E9 Hf Hh Hl] Hc buf' Hb'. unfold seal.
destruct (nonce (s_prefix s) (s_index s) false) as [n|e] eqn:En; simpl.
- apply nonce_Ok in En as [Hmax ->]. split; [|done]. unfold MAX_RECORDS in Hmax.
  constructor; simpl; try done.
  + rewrite length_app. simpl. lia.
  + rewrite E7, seal_full_app, <-app_assoc, E1, E2, E3, E6. simpl. by rewrite app_nil_r, Z.add_0_l.
  + rewrite E9. by autorewrite with pyrw.
  + rewrite Forall_app, Forall_singleton. done.
  + rewrite length_app. simpl. lia.
- unfold nonce in En. destruct (Z.ltb_spec MAX_RECORDS (s_index s)); [|discriminate].
  unfold MAX_RECORDS in *. lia.
Qed.

Lemma drain_sealing s0 : 0 < s_chunk s0 → ∀ fuel full buf s,
sealing s0 full buf s → (List.length buf <= fuel)%nat →
match drain fuel s with
| Ok s' => ∃ full' buf', concat full ++ buf = concat full' ++ buf' ∧ blen buf' <= s_chunk s0
    ∧ sealing s0 full' buf' s' ∧ bytes_in s' = bytes_in s
| Err _ => 2 ^ 32 * s_chunk s0 < blen (concat full ++ buf)
end.
Proof.
intros Hn. induction fuel as [|fuel IH]; intros full buf s Hs Hfuel;
  pose proof (se_buffer _ _ _ _ Hs) as Eb; pose proof (se_chunk _ _ _ _ Hs) as Ec;
  simpl; rewrite Eb, Ec; destruct (Z.leb_spec (blen buf) (s_chunk s0)) as [Hle|Hgt].
1,3: exists full, buf; by split_and!.
{ unfold blen in Hgt. lia. }
set (k := Z.to_nat (s_chunk s0)).
assert (blen (take k buf) = s_chunk s0) as Hk
  by (unfold blen in *; rewrite length_take; unfold k; lia).
assert (drop k buf ≠ []) as Hd.
{ intros E. apply (f_equal List.length) in E. rewrite length_drop in E. unfold blen in *.
  simpl in E. unfold k in E. lia. }
pose proof (seal_sealing _ _ _ _ _ Hn Hs Hk _ Hd) as Hseal.
destruct (seal (take k buf) false s) as [s'|e]; simpl.
- destruct Hseal as [Hs' Ein].
  assert (List.length (drop k buf) <= fuel)%nat as Hfuel' by (rewrite length_drop; unfold k; lia).
  specialize (IH _ _ _ Hs' Hfuel').
  assert (concat (full ++ [take k buf]) ++ drop k buf = concat full ++ buf) as Econ.
  { rewrite concat_app_list. simpl. by rewrite app_nil_r, <-app_assoc, take_drop. }
  rewrite Econ in IH. destruct (drain fuel _); [|done].
  destruct IH as (f' & b' & ? & ? & ? & Ein'). exists f', b'. by rewrite Ein'.
- rewrite blen_app, (blen_concat _ _ (se_full _ _ _ _ Hs)), Hseal. lia.
Qed.

Lemma write_sealing s0 full buf s d :
0 < s_chunk s0 → sealing s0 full buf s →
match write d s with
| Ok s' => ∃ full' buf', concat full ++ buf ++ d = concat full' ++ buf'
    ∧ blen buf' <= s_chunk s0 ∧ sealing s0 full' buf' s' ∧ bytes_in s' = bytes_in s + blen d
| Err _ => 2 ^ 32 * s_chunk s0 < blen (concat full ++ buf ++ d)
end.
Proof.
intros Hn Hs. unfold write. rewrite (se_closed _ _ _ _ Hs).
set (s1 := with_buffer (s_buffer (add_in (blen d) s) ++ d) (add_in (blen d) s)).
assert (sealing s0 full (buf ++ d) s1) as Hs1.
{ destruct Hs as [E1 E2 E3 E4 E5 E6 E7 E8 E9 Hf Hh Hl]. constructor; simpl; try done.
  - by rewrite E5.
  - intros Hne [-> _]%app_eq_nil. by apply Hh. }
pose proof (drain_sealing s0 Hn (List.length (s_buffer s1)) _ _ _ Hs1) as Hd.
rewrite (se_buffer _ _ _ _ Hs1) in Hd at 1. exact (Hd (le_n _)).
Qed.

Lemma write_all_sealing s0 datas : ∀ full buf s,
0 < s_chunk s0 → sealing s0 full buf s → blen buf <= s_chunk s0 →
match write_all datas s with
| Ok s' => ∃ full' buf', concat full ++ buf ++ concat datas = concat full' ++ buf'
    ∧ blen buf' <= s_chunk s0 ∧ sealing s0 full' buf' s'
    ∧ bytes_in s' = bytes_in s + blen (concat datas)
| Err _ => 2 ^ 32 * s_chunk s0 < blen (concat full ++ buf ++ concat datas)
end.
Proof.
induction datas as [|d ds IH]; intros full buf s Hn Hs Hb; simpl.
- exists full, buf. rewrite app_nil_r, blen_nil, Z.add_0_r. by split_and!.
- pose proof (write_sealing _ _ _ _ d Hn Hs) as Hw. destruct (write d s) as [s'|e]; simpl.
  + destruct Hw as (f' & b' & E & Hb' & Hs' & Ein). specialize (IH _ _ _ Hn Hs' Hb').
    assert (concat full ++ buf ++ d ++ concat ds = concat f' ++ b' ++ concat ds) as ->
      by (by rewrite !app_assoc, <-(app_assoc (concat full)), E).
    destruct (write_all ds s'); [|done]. destruct IH as (f2 & b2 & ? & ? & ? & Ein2).
    exists f2, b2. split_and!; try done. rewrite Ein2, Ein, blen_app. lia.
  + rewrite !app_assoc, blen_app, <-app_assoc. pose proof (blen_nonneg (concat ds)). lia.
Qed.

Lemma close_sealing s0 full buf s :
sealing s0 full buf s →
match close s with
| Ok s' => s_output s' = s_header s0 ++ seal_records (s_key s0) (s_header s0) (s_prefix s0) full buf
    ∧ bytes_in s' = bytes_in s ∧ bytes_out s' = blen (s_output s') ∧ s_closed s' = true
    ∧ Z.of_nat (List.length full) <= MAX_RECORDS
| Err _ => Z.of_nat (List.length full) = 2 ^ 32
end.
Proof.
intros [E1 E2 E3 E4 E5 E6 E7 E8 E9 Hf Hh Hl]. unfold close. rewrite E8. unfold seal.
destruct (nonce (s_prefix s) (s_index s) true) as [n|e] eqn:En; simpl.
- apply nonce_Ok in En as [Hmax ->]. split_and!; try done.
  + unfold seal_records. by rewrite E7, <-app_assoc, E1, E2, E3, E5, E6.
  + rewrite E9. by autorewrite with pyrw.
  + lia.
- unfold nonce in En. destruct (Z.ltb_spec MAX_RECORDS (s_index s)); [|discriminate].
  unfold MAX_RECORDS in *. lia.
Qed.

(** *** The reader *)

Lemma open_sealed key header prefix c tail last full : ∀ index w,
0 < c → chunked c full last → 0 <= index → index + Z.of_nat (List.length full) <= MAX_RECORDS →
open_records (S (List.length full)) index key header prefix (c + TAG_BYTES)
  (if blen last =? c then 0 else blen last + TAG_BYTES)
  (seal_full key header prefix index full
   ++ aead_encrypt key (raw_nonce prefix (index + Z.of_nat (List.length full)) true) last header
   ++ tail) w
= (Ok tail, w ++ concat full ++ last).
Proof.
intros index w Hc [Hf Hl]. revert index w. pose proof (blen_nonneg last) as Hl0.
assert (TAG_BYTES = 16) as Htag by reflexivity.
induction Hf as [|d full Hd Hf IH]; intros index w Hi Hmax.
- cbn [open_records List.length seal_full app]. cbn [Nat.eqb negb orb].
  set (enc := aead_encrypt _ _ _ _).
  match goal with |- context [bread ?x _] => replace x with (blen enc) end;
    [|unfold enc; rewrite blen_encrypt; destruct (Z.eqb_spec (blen last) c);
      simpl; [lia|rewrite (proj2 (Z.eqb_neq _ 0)) by lia; lia]].
  rewrite bread_app, Z.eqb_refl. cbn [negb].
  rewrite nonce_within by (simpl in Hmax; lia).
  unfold enc. rewrite Z.add_0_r, aead_open. by rewrite app_nil_l.
- cbn [List.length] in *. remember (S (List.length full)) as todo eqn:Et.
  assert (Nat.eqb todo 0 = false) as E0 by by rewrite Et.
  cbn [open_records seal_full]. rewrite !E0. cbn [negb orb].
  set (enc := aead_encrypt key (raw_nonce prefix index false) d header).
  assert (blen enc = c + TAG_BYTES) as Ee by (unfold enc; rewrite blen_encrypt; lia).
  rewrite <-Ee at 1. rewrite <-app_assoc, bread_app. cbv beta iota. rewrite Ee, Z.eqb_refl. cbn [negb].
  rewrite nonce_within by lia.
  unfold enc. rewrite aead_open.
  replace (index + Z.of_nat todo) with (index + 1 + Z.of_nat (List.length full)) by lia.
  rewrite IH by lia. cbn [List.concat]. by rewrite <-!app_assoc.
Qed.

Lemma open_exact key header prefix rs rem tail w' n : ∀ index rest w,
open_records (S n) index key header prefix rs rem rest w = (Ok tail, w') →
∃ full last, List.length full = n ∧ w' = w ++ concat full ++ last
  ∧ rest = seal_full key header prefix index full
      ++ aead_encrypt key (raw_nonce prefix (index + Z.of_nat n) true) last header ++ tail
  ∧ Forall (λ c, blen c = rs - TAG_BYTES) full
  ∧ blen last = (if rem =? 0 then rs else rem) - TAG_BYTES
  ∧ index + Z.of_nat n <= MAX_RECORDS.
Proof.
induction n as [|n IH]; intros index rest w.
- cbn [open_records]. cbn [Nat.eqb negb orb].
  destruct (bread _ rest) as [record rest'] eqn:Eb.
  destruct (Z.eqb_spec (blen record) (if rem =? 0 then rs else rem)) as [El|]; [|discriminate].
  cbn [negb]. destruct (nonce prefix index true) as [nn|] eqn:En; [|discriminate].
  apply nonce_Ok in En as [Hmax ->].
  destruct (aead_decrypt _ _ _ _) as [d|] eqn:Ed; [|discriminate]. intros [= <- <-].
  exists [], d. apply aead_exact in Ed. rewrite Z.add_0_r. simpl. split_and!; try done.
  + rewrite (bread_split _ _ _ _ Eb). by rewrite Ed.
  + rewrite <-El, Ed, blen_encrypt. lia.
- remember (S n) as todo eqn:Et. assert (Nat.eqb todo 0 = false) as E0 by by rewrite Et.
  cbn [open_records]. rewrite !E0. cbn [negb orb].
  destruct (bread rs rest) as [record rest'] eqn:Eb.
  destruct (Z.eqb_spec (blen record) rs) as [El|]; [|discriminate].
  cbn [negb].
  destruct (nonce prefix index false) as [nn|] eqn:En; [|discriminate].
  apply nonce_Ok in En as [Hmax ->].
  destruct (aead_decrypt _ _ _ _) as [d|] eqn:Ed; [|discriminate].
  intros (full & last & Hn & -> & -> & Hf & Hl & Hm)%IH. apply aead_exact in Ed.
  exists (d :: full), last. subst todo. split_and!.
  + simpl. lia.
  + simpl. by rewrite <-!app_assoc.
  + rewrite (bread_split _ _ _ _ Eb), Ed. cbn [seal_full].
    replace (index + Z.of_nat (S n)) with (index + 1 + Z.of_nat n) by lia.
    by rewrite <-!app_assoc.
  + constructor; [|done]. rewrite <-El, Ed, blen_encrypt. lia.
  + done.
  + lia.
Qed.

Lemma record_count_sealed c k l :
0 < c → 0 <= k → 0 <= l <= c →
record_count (k * (c + TAG_BYTES) + (l + TAG_BYTES)) (c + TAG_BYTES) = Ok (k + 1)
∧ (k * (c + TAG_BYTES) + (l + TAG_BYTES)) mod (c + TAG_BYTES) = (if l =? c then 0 else l + TAG_BYTES).
Proof.
intros Hc Hk Hl. unfold record_count. unfold TAG_BYTES in *.
rewrite (proj2 (Z.ltb_ge _ _)) by nia. cbn [negb].
destruct (Z.eqb_spec l c) as [->|Hne].
- replace (k * (c + 16) + (c + 16)) with ((k + 1) * (c + 16)) by lia.
  rewrite Z.mod_mul, Z.div_mul by lia. done.
- assert ((k * (c + 16) + (l + 16)) mod (c + 16) = l + 16) as Em
    by (rewrite Z.add_comm, Z.mod_add by lia; apply Z.mod_small; lia).
  rewrite Em. rewrite (proj2 (Z.eqb_neq _ 0)), (proj2 (Z.ltb_ge _ _)) by lia.
  split; [|done]. f_equal. rewrite Z.div_add_l, Z.div_small by lia. lia.
Qed.

Lemma record_count_Ok body rs records :
TAG_BYTES < rs → record_count body rs = Ok records →
let rem := body mod rs in
1 <= records ∧ body = (records - 1) * rs + (if rem =? 0 then rs else rem)
∧ TAG_BYTES <= (if rem =? 0 then rs else rem) <= rs.
Proof.
unfold record_count, TAG_BYTES. intros Hrs.
destruct (Z.ltb_spec body 16) as [|Hb]; [discriminate|].
pose proof (Z.div_mod body rs ltac:(lia)) as Hd. pose proof (Z.mod_pos_bound body rs ltac:(lia)) as Hm.
pose proof (Z.div_pos body rs ltac:(lia) ltac:(lia)) as Hp.
destruct (Z.eqb_spec (body mod rs) 0) as [E0|E0].
- intros [= <-]. simpl. split_and!; lia.
- destruct (Z.ltb_spec (body mod rs) 16); [discriminate|]. intros [= <-]. simpl.
  split_and!; lia.
Qed.

(** *** A whole file *)

Definition sealer_header (chunk_log2 : Z) (scrypt : Z * Z * Z) (salt prefix : bytes) : header_fields :=
mkHeader MAGIC FORMAT_VERSION (fst (fst scrypt)) (snd (fst scrypt)) (snd scrypt) chunk_log2
  (replicate 3 x00) salt prefix (replicate 9 x00).

Lemma sealer_header_sizes cl scrypt salt prefix :
List.length salt = 16%nat → List.length prefix = 7%nat →
header_sizes (sealer_header cl scrypt salt prefix).
Proof. intros. by repeat split. Qed.

Lemma new_sealer_Ok passphrase cl scrypt salt prefix s0 :
List.length salt = 16%nat → List.length prefix = 7%nat →
new_sealer passphrase cl scrypt salt prefix = Ok s0 →
passphrase ≠ "" ∧ 16 <= cl <= 24 ∧ s_chunk s0 = Z.shiftl 1 cl ∧ 0 < s_chunk s0
∧ s_prefix s0 = prefix
∧ pack_header (sealer_header cl scrypt salt prefix) = Ok (s_header s0)
∧ derive_key passphrase salt (fst (fst scrypt)) (snd (fst scrypt)) (snd scrypt) = Some (s_key s0)
∧ bytes_in s0 = 0 ∧ sealing s0 [] [] s0.
Proof.
intros Hsalt Hpre. unfold new_sealer. destruct (String.eqb_spec passphrase "") as [|Hne]; [discriminate|].
destruct (CHUNK_LOG2_RANGE cl) eqn:Ecl; [|discriminate]. destruct scrypt as [[n1 r1] p1]. cbn [negb].
destruct (pack_header _) as [hd|] eqn:Eh; [|discriminate]. cbn [mbind result_bind].
destruct (derive_key _ _ _ _ _) as [key|] eqn:Ek; [|discriminate]. intros [= <-].
apply in_py_range_iff in Ecl.
assert (0 < Z.shiftl 1 cl) as Hpos by (rewrite Z.shiftl_1_l; apply Z.pow_pos_nonneg; lia).
split_and!; try done; [lia|lia|]. constructor; simpl; try done; [by rewrite app_nil_r|].
apply pack_unpack in Eh as [Hl _]; [unfold blen, HEADER_BYTES; lia|by repeat split].
Qed.

(** Reading back what a sealer writes. *)
Lemma decrypt_sealed passphrase cl scrypt salt prefix header key full last max :
let h := sealer_header cl scrypt salt prefix in
let file := header ++ seal_records key header prefix full last in
let data := concat full ++ last in
passphrase ≠ "" → header_sizes h → header_ok h → pack_header h = Ok header →
derive_key passphrase salt (fst (fst scrypt)) (snd (fst scrypt)) (snd scrypt) = Some key →
chunked (Z.shiftl 1 cl) full last → Z.of_nat (List.length full) <= MAX_RECORDS →
decrypt_file (blen file) file None (Some passphrase) max =
  if max <? blen data
  then (Err (StreamEnvelopeError "The encrypted backup is larger than this app accepts."), None)
  else (Ok (blen data), Some data).
Proof.
intros h file data Hpw Hsz Hok Hpack Hkey Hch Hmax.
destruct (pack_unpack _ _ Hsz Hpack) as [Hlen Hun].
assert (0 < Z.shiftl 1 cl) as Hc
  by (rewrite Z.shiftl_1_l; apply Z.pow_pos_nonneg; pose proof (ok_chunk _ Hok); simpl in *; lia).
set (c := Z.shiftl 1 cl) in *. pose proof (blen_nonneg last) as Hl0.
assert (read_header file = Ok (header, h, seal_records key header prefix full last)) as Hrd
  by by apply read_header_iff.
assert (blen file - HEADER_BYTES
  = Z.of_nat (List.length full) * (c + TAG_BYTES) + (blen last + TAG_BYTES)) as Hbody.
{ unfold file, seal_records. rewrite !blen_app, (blen_seal_full _ _ _ c), blen_encrypt by apply Hch.
  unfold blen at 1, HEADER_BYTES. rewrite Hlen. lia. }
destruct (record_count_sealed c (Z.of_nat (List.length full)) (blen last) Hc ltac:(lia)
  (conj Hl0 (proj2 Hch))) as [Hcount Hrem].
assert (blen data = Z.of_nat (List.length full) * c + blen last) as Hdata
  by (unfold data; rewrite blen_app, (blen_concat c) by apply Hch; done).
unfold decrypt_file. destruct passphrase as [|a passphrase]; [done|].
rewrite Hrd. unfold chunk_size. change (h_chunk_log2 h) with cl. fold c.
rewrite Hbody, Hcount, Hrem. rewrite <-Hbody.
replace (blen file - HEADER_BYTES - (Z.of_nat (List.length full) + 1) * TAG_BYTES) with (blen data) by lia.
destruct (max <? blen data); [done|]. simpl h_salt. simpl h_log2_n. simpl h_r. simpl h_p.
rewrite Hkey. replace (Z.to_nat (Z.of_nat (List.length full) + 1)) with (S (List.length full)) by lia.
pose proof (open_sealed key header prefix c [] last full 0 [] Hc Hch ltac:(lia) ltac:(lia)) as Ho.
rewrite app_nil_r in Ho. unfold seal_records. rewrite Z.add_0_l in Ho.
change (h_prefix h) with prefix. rewrite Ho. rewrite app_nil_l. fold data.
by rewrite Z.eqb_refl.
Qed.
End laws.

(** ** A concrete instance of the primitives *)

(** A checksum of everything as the tag: it satisfies the laws (which say
    nothing about secrecy or forgery). *)
Definition toy_tag (k n d a : bytes) : bytes :=
  replicate 16 (zb (foldl (λ acc b, (acc * 31 + bz b) mod 251) 7 (k ++ n ++ a ++ d) )).
#[export] Instance toy_crypto : Crypto := {|
  aead_encrypt k n d a := d ++ toy_tag k n d a;
  aead_decrypt k n c a :=
    let d := take (List.length c - 16) c in
    if bool_decide (c = d ++ toy_tag k n d a) then Some d else None;
  derive_key passphrase salt log2_n r p :=
    Some (to_bytes_be 4 (log2_n * 65536 + r * 256 + p) ++ salt ++ of_text passphrase);
|}.
#[export] Instance toy_laws : CryptoLaws toy_crypto.
Proof.
  assert (∀ k n d a, List.length (d ++ toy_tag k n d a) = (List.length d + 16)%nat) as Hlen
    by (intros; rewrite length_app; unfold toy_tag; by rewrite length_replicate).
  constructor; intros k n; simpl; [apply Hlen| |].
  - intros d a. rewrite Hlen. replace (List.length d + 16 - 16)%nat with (List.length d) by lia.
    rewrite take_app_length. by rewrite bool_decide_eq_true_2.
  - intros c d a. destruct (bool_decide _) eqn:E; [|discriminate].
    apply bool_decide_eq_true in E. by intros [= <-].
Qed.

Definition sample_salt : bytes := replicate 16 x41.
Definition sample_prefix : bytes := of_text "nonce-7".

(** ** What the envelope promises *)

(** The header format: reading accepts exactly 48 bytes that the writer's
    packing produces from fields within the reader's bounds (magic, version,
    zero padding, chunk size, scrypt cost and its memory), whatever follows
    them. *)
Theorem stream_header_strict (source header rest : bytes) (h : header_fields) :
  read_header source = Ok (header, h, rest) ↔
  source = header ++ rest ∧ pack_header h = Ok header ∧ header_sizes h ∧ header_ok h.
Proof.
  rewrite read_header_iff. split.
  - intros (-> & Hl & -> & Hok). split_and!; try done; [by apply unpack_pack|].
    do 48 (destruct header as [|? header]; [discriminate Hl|]).
    destruct header; [|discriminate Hl]. by repeat split.
  - intros (-> & Hp & Hs & Hok). destruct (pack_unpack _ _ Hs Hp) as [Hl <-]. by split_and!.
Qed.

(** Sealing depends only on the plain text, not on how it was cut into
    writes: the output is the header followed by one record per chunk of the
    reference split, numbered from 0 with only the final record marked last;
    the counters are the sizes of the two sides.  Sealing fails only beyond
    2^32 chunks. *)
Theorem stream_sealer_output `{Laws : CryptoLaws} (passphrase : string) (chunk_log2 : Z)
  (scrypt : Z * Z * Z) (salt prefix : bytes) (s0 : StreamSealer) (writes : list bytes)
  (Hsalt : List.length salt = 16%nat) (Hprefix : List.length prefix = 7%nat)
  (Hnew : new_sealer passphrase chunk_log2 scrypt salt prefix = Ok s0) :
  let data := concat writes in
  match (s ← write_all writes s0; close s) with
  | Ok s =>
      (∃ full last, split_chunks (Z.shiftl 1 chunk_log2) data = full ++ [last]
         ∧ s_output s = s_header s0 ++ seal_records (s_key s0) (s_header s0) prefix full last)
      ∧ bytes_in s = blen data ∧ bytes_out s = blen (s_output s)
  | Err _ => 2 ^ 32 * Z.shiftl 1 chunk_log2 <= blen data
  end.
Proof.
  intros data. apply new_sealer_Ok in Hnew as (_ & _ & Ec & Hc & Ep & _ & _ & Ein & Hs); [|done..].
  pose proof (write_all_sealing s0 writes [] [] s0 Hc Hs ltac:(unfold blen; simpl; lia)) as Hw.
  cbn [List.concat app] in Hw. fold data in Hw. rewrite Ec in *.
  destruct (write_all writes s0) as [s|e]; [|simpl; lia]. cbn [mbind result_bind].
  destruct Hw as (full & buf & Ed & Hb & Hs' & Ein').
  assert (Forall (λ c, blen c = Z.shiftl 1 chunk_log2) full) as Hf
    by (rewrite <-Ec; apply (se_full _ _ _ _ Hs')).
  pose proof (close_sealing _ _ _ _ Hs') as Hcl. destruct (close s) as [s'|e].
  - destruct Hcl as (Eo & Ei & Eb & _ & _). split_and!; [|by rewrite Ei, Ein', Ein|done].
    exists full, buf. split; [|by rewrite Eo, Ep].
    rewrite Ed. apply split_chunks_unique; [done|done|apply (se_held _ _ _ _ Hs')].
  - rewrite Ed, blen_app, (blen_concat _ _ Hf), Hcl. pose proof (blen_nonneg buf). lia.
Qed.

Lemma stream_sealer_output_witness :
  match new_sealer "secret" 16 DEFAULT_SCRYPT sample_salt sample_prefix with
  | Ok s0 =>
      match (s ← write_all [of_text "he"; []; of_text "llo"] s0; close s) with
      | Ok s => bytes_in s = 5 ∧ bytes_out s = blen (s_output s)
      | Err _ => False
      end
  | Err _ => False
  end.
Proof.
  destruct (new_sealer "secret" 16 DEFAULT_SCRYPT sample_salt sample_prefix) as [s0|e] eqn:E;
    [|vm_compute in E; discriminate].
  generalize (stream_sealer_output "secret" 16 DEFAULT_SCRYPT sample_salt sample_prefix s0
    [of_text "he"; []; of_text "llo"] eq_refl eq_refl E).
  destruct (s ← write_all _ s0; close s) as [s|e]; intros H.
  - split; [transitivity (blen (of_text "hello")); [apply H|reflexivity]|apply H].
  - exfalso. vm_compute in H. apply H. reflexivity.
Defined.

(** Round trip: whatever was written to a sealer in whatever pieces, the
    reader with the same passphrase returns exactly that plain text, unless it
    is larger than the reader accepts; the chunk size and scrypt cost may be
    any the reader's bounds allow. *)
Theorem stream_seal_open_roundtrip `{Laws : CryptoLaws} (passphrase : string) (chunk_log2 : Z)
  (scrypt : Z * Z * Z) (salt prefix : bytes) (s0 s : StreamSealer) (writes : list bytes) (max : Z)
  (Hsalt : List.length salt = 16%nat) (Hprefix : List.length prefix = 7%nat)
  (Hscrypt : header_ok (sealer_header chunk_log2 scrypt salt prefix))
  (Hnew : new_sealer passphrase chunk_log2 scrypt salt prefix = Ok s0)
  (Hseal : (s ← write_all writes s0; close s) = Ok s) :
  let data := concat writes in
  decrypt_file (blen (s_output s)) (s_output s) None (Some passphrase) max =
    if max <? blen data
    then (Err (StreamEnvelopeError "The encrypted backup is larger than this app accepts."), None)
    else (Ok (blen data), Some data).
Proof.
  intros data. apply new_sealer_Ok in Hnew as (Hpw & _ & Ec & Hc & Ep & Hpk & Hk & Ein & Hs); [|done..].
  pose proof (write_all_sealing s0 writes [] [] s0 Hc Hs ltac:(unfold blen; simpl; lia)) as Hw.
  cbn [List.concat app] in Hw. fold data in Hw.
  destruct (write_all writes s0) as [s1|e]; [|discriminate]. cbn [mbind result_bind] in Hseal.
  destruct Hw as (full & buf & Ed & Hb & Hs' & _).
  pose proof (close_sealing _ _ _ _ Hs') as Hcl. rewrite Hseal in Hcl.
  destruct Hcl as (-> & _ & _ & _ & Hmax). rewrite Ed, Ep.
  apply (decrypt_sealed passphrase chunk_log2 scrypt salt prefix); try done.
  split; rewrite <-Ec; [apply (se_full _ _ _ _ Hs')|done].
Qed.

Lemma stream_seal_open_roundtrip_witness :
  match new_sealer "secret" 16 DEFAULT_SCRYPT sample_salt sample_prefix with
  | Ok s0 =>
      match (s ← write_all [of_text "he"; []; of_text "llo"] s0; close s) with
      | Ok s => decrypt_file (blen (s_output s)) (s_output s) None (Some "secret") 100
                = (Ok 5, Some (of_text "hello"))
      | Err _ => False
      end
  | Err _ => False
  end.
Proof.
  destruct (new_sealer "secret" 16 DEFAULT_SCRYPT sample_salt sample_prefix) as [s0|e] eqn:E;
    [|vm_compute in E; discriminate].
  destruct (s ← write_all [of_text "he"; []; of_text "llo"] s0; close s) as [s|e] eqn:Es.
  - assert (header_ok (sealer_header 16 DEFAULT_SCRYPT sample_salt sample_prefix)) as Hok
      by (constructor; simpl; try reflexivity; lia).
    exact (stream_seal_open_roundtrip "secret" 16 DEFAULT_SCRYPT sample_salt sample_prefix s0 s
      [of_text "he"; []; of_text "llo"] 100 eq_refl eq_refl Hok E Es).
  - vm_compute in E. injection E as <-. vm_compute in Es. discriminate.
Defined.

(** [copy] hands the file to [write] in non-empty pieces. *)
Lemma copy_pieces `{Crypto} read_bytes : ∀ fuel source s,
  0 < read_bytes → (List.length source < fuel)%nat →
  ∃ pieces, concat pieces = source ∧ copy fuel read_bytes source s = write_all pieces s.
Proof.
  induction fuel as [|fuel IH]; intros source s Hr Hf; [lia|]. cbn [copy].
  destruct (bread read_bytes source) as [chunk rest] eqn:Eb.
  pose proof (bread_split _ _ _ _ Eb) as Es. destruct chunk as [|b chunk].
  - exists []. split; [|done]. unfold bread in Eb. injection Eb as Et Ed.
    destruct source as [|x source]; [done|]. destruct (Z.to_nat read_bytes) eqn:En; [lia|discriminate].
  - rewrite Es in Hf. rewrite length_app in Hf. simpl in Hf.
    destruct (write (b :: chunk) s) as [s'|e] eqn:Ew.
    + destruct (IH rest s' Hr ltac:(lia)) as (pieces & Ep & Ec).
      exists ((b :: chunk) :: pieces). simpl. by rewrite Ep, Ew, Ec.
    + exists [b :: chunk; rest]. simpl. rewrite app_nil_r. by rewrite Ew.
Qed.

(** [encrypt_file] and [decrypt_file] are inverse: encrypting to a fresh
    path either fails and leaves no file (only for an empty passphrase, a key
    derivation error or a source of at least 2^52 bytes), or leaves a file whose
    size it returns and from which decryption restores exactly the source. *)
Theorem encrypt_decrypt_file_roundtrip `{Laws : CryptoLaws} (source : bytes) (passphrase : string)
  (read_bytes : Z) (salt prefix : bytes) (max : Z)
  (Hsalt : List.length salt = 16%nat) (Hprefix : List.length prefix = 7%nat)
  (Hread : 0 < read_bytes) (Hmax : blen source <= max) :
  match encrypt_file source None passphrase read_bytes salt prefix with
  | (Ok size, out) => ∃ file, out = Some file ∧ size = blen file
      ∧ decrypt_file size file None (Some passphrase) max = (Ok (blen source), Some source)
  | (Err e, out) => out = None
      ∧ (passphrase = "" ∨ derive_key passphrase salt 15 8 1 = None ∨ 2 ^ 52 <= blen source)
  end.
Proof.
  unfold encrypt_file.
  destruct (new_sealer passphrase DEFAULT_CHUNK_LOG2 DEFAULT_SCRYPT salt prefix) as [s0|e] eqn:En.
  - apply new_sealer_Ok in En as (Hpw & _ & Ec & Hc & Ep & Hpk & Hk & Ein & Hs); [|done..].
    cbn [mbind result_bind].
    destruct (copy_pieces read_bytes (S (List.length source)) source s0 Hread (Nat.lt_succ_diag_r _))
      as (pieces & Epi & ->).
    pose proof (write_all_sealing s0 pieces [] [] s0 Hc Hs ltac:(unfold blen; simpl; lia)) as Hw.
    cbn [List.concat app] in Hw. rewrite Epi in Hw.
    change (Z.shiftl 1 DEFAULT_CHUNK_LOG2) with (2 ^ 20) in Ec.
    destruct (write_all pieces s0) as [s|e]; cbn [mbind result_bind]; [|split; [done|right; right; lia]].
    destruct Hw as (full & buf & Ed & Hb & Hs' & _).
    assert (Forall (λ c, blen c = 2 ^ 20) full) as Hf by (rewrite <-Ec; apply (se_full _ _ _ _ Hs')).
    pose proof (close_sealing _ _ _ _ Hs') as Hcl. destruct (close s) as [s'|e].
    + destruct Hcl as (Eo & _ & Eb & _ & Hlim). eexists. split_and!; [done|done|].
      rewrite Eb, Eo, Ep. etransitivity;
        [apply (decrypt_sealed passphrase DEFAULT_CHUNK_LOG2 DEFAULT_SCRYPT salt prefix)|]; try done.
      * change (Z.shiftl 1 DEFAULT_CHUNK_LOG2) with (2 ^ 20). split; [exact Hf|by rewrite <-Ec].
      * rewrite <-Ed. by rewrite (proj2 (Z.ltb_ge _ _)).
    + split; [done|]. right. right. rewrite Ed, blen_app, (blen_concat _ _ Hf), Hcl.
      pose proof (blen_nonneg buf). lia.
  - cbn [mbind result_bind]. split; [done|]. unfold new_sealer in En.
    destruct (String.eqb_spec passphrase ""); [auto|]. right. left.
    cbn -[pack_header] in En. destruct (pack_header _) eqn:Eh; [|vm_compute in Eh; discriminate].
    cbn [mbind result_bind] in En. by destruct (derive_key passphrase salt 15 8 1).
Qed.

Lemma encrypt_decrypt_file_roundtrip_witness :
  match encrypt_file (of_text "config") None "secret" 4 sample_salt sample_prefix with
  | (Ok size, Some file) => decrypt_file size file None (Some "secret") 100 = (Ok 6, Some (of_text "config"))
  | _ => False
  end.
Proof.
  generalize (encrypt_decrypt_file_roundtrip (of_text "config") "secret" 4 sample_salt sample_prefix
    100 eq_refl eq_refl eq_refl (proj1 (Z.leb_le (blen (of_text "config")) 100) eq_refl)).
  destruct (encrypt_file _ _ _ _ _ _) as [[size|e] out] eqn:E.
  - intros (file & -> & _ & H). exact H.
  - vm_compute in E. discriminate.
Defined.

(** Whatever [decrypt_file] accepts. *)
Lemma decrypt_file_Ok `{Laws : CryptoLaws} total contents output passphrase max n out :
  decrypt_file total contents output (Some passphrase) max = (Ok n, out) →
  ∃ header h key full last,
    header_sizes h ∧ header_ok h ∧ pack_header h = Ok header
    ∧ derive_key passphrase (h_salt h) (h_log2_n h) (h_r h) (h_p h) = Some key
    ∧ chunked (chunk_size h) full last
    ∧ Z.of_nat (List.length full) <= MAX_RECORDS
    ∧ contents = header ++ seal_records key header (h_prefix h) full last
    ∧ output = None ∧ out = Some (concat full ++ last) ∧ n = blen (concat full ++ last)
    ∧ n <= max ∧ total = blen contents.
Proof.
  unfold decrypt_file. destruct passphrase as [|a passphrase]; [done|].
  set (pw := String a passphrase).
  destruct (read_header contents) as [[[header h] rest]|e] eqn:Eh; [|done].
  apply read_header_iff in Eh as (-> & Hl & Hu & Hok).
  pose proof (ok_chunk _ Hok) as Hcl.
  assert (0 < chunk_size h) as Hc
    by (unfold chunk_size; rewrite Z.shiftl_1_l; apply Z.pow_pos_nonneg; lia).
  set (c := chunk_size h) in *.
  destruct (record_count _ _) as [records|e] eqn:Er; [|done].
  apply record_count_Ok in Er as (Hr1 & Hbody & Hrem); [|lia].
  set (rem := (total - HEADER_BYTES) mod (c + TAG_BYTES)) in *.
  destruct (Z.ltb_spec max (total - HEADER_BYTES - records * TAG_BYTES)) as [|Hmax]; [done|].
  destruct (derive_key _ _ _ _ _) as [key|] eqn:Ek; [|done]. destruct output; [done|].
  destruct (open_records _ _ _ _ _ _ _ _ _) as [[tail|e] written] eqn:Eo; [|done].
  replace (Z.to_nat records) with (S (Z.to_nat (records - 1))) in Eo by lia.
  apply open_exact in Eo as (full & last & Hn & Hw & Hrest & Hf & Hlast & Hlim).
  destruct (bool_decide _) eqn:Et; [|done]. apply bool_decide_eq_true in Et. cbn [negb].
  assert (tail = []) as -> by (by destruct tail).
  rewrite app_nil_l in Hw. subst written.
  destruct (Z.eqb_spec (blen (concat full ++ last)) (total - HEADER_BYTES - records * TAG_BYTES)) as [El|];
    [|done]. intros [= <- <-]. rewrite app_nil_r in Hrest.
  assert (chunked c full last) as Hch.
  { split; [eapply Forall_impl; [exact Hf|]; simpl; intros; lia|]. lia. }
  assert (header_sizes h ∧ pack_header h = Ok header) as [Hs Hp].
  { subst h. split; [|by apply unpack_pack].
    clear -Hl. do 48 (destruct header as [|? header]; [discriminate Hl|]).
    destruct header; [|discriminate Hl]. by repeat split. }
  exists header, h, key, full, last. split_and!; try done.
  - lia.
  - rewrite Hrest. unfold seal_records. by rewrite Z.add_0_l, Hn.
  - lia.
  - rewrite blen_app, Hrest, blen_app, (blen_seal_full _ _ _ c), blen_encrypt by apply Hch.
    unfold blen at 1. rewrite Hl. unfold HEADER_BYTES in *.
    replace (Z.of_nat (List.length full)) with (records - 1) by lia. lia.
Qed.

(** [C14] Decryption is all or nothing, and strict.  When it fails, the output
    path is as it was: no file, or the file that was already there.  When it
    succeeds there was no file, the plain text is at most the allowed size, and
    the whole input was exactly what sealing these chunks under this header and
    passphrase gives: nothing truncated, reordered, edited or trailing, whatever
    size [stat] had reported. *)
Theorem stream_decrypt_exact `{Laws : CryptoLaws} (total : Z) (contents : bytes)
  (output : option bytes) (passphrase : option string) (max : Z) :
  match decrypt_file total contents output passphrase max with
  | (Err _, out) => out = output
  | (Ok n, out) => ∃ pw header h key full last,
      passphrase = Some pw ∧ pack_header h = Ok header ∧ header_ok h
      ∧ derive_key pw (h_salt h) (h_log2_n h) (h_r h) (h_p h) = Some key
      ∧ chunked (chunk_size h) full last
      ∧ contents = header ++ seal_records key header (h_prefix h) full last
      ∧ total = blen contents
      ∧ output = None ∧ out = Some (concat full ++ last) ∧ n = blen (concat full ++ last) ∧ n <= max
  end.
Proof.
  destruct (decrypt_file total contents output passphrase max) as [[n|e] out] eqn:E.
  - destruct passphrase as [pw|]; [|discriminate].
    apply decrypt_file_Ok in E as (header & h & key & full & last & ? & ? & ? & ? & ? & ? & ? & ? & ? & ? & ? & ?).
    exists pw, header, h, key, full, last. by split_and!.
  - unfold decrypt_file in E. destruct passphrase as [[|a pw]|]; try congruence.
    destruct (read_header contents) as [[[header h] rest]|]; [|congruence].
    destruct (record_count _ _); [|congruence]. destruct (_ <? _); [congruence|].
    destruct (derive_key _ _ _ _ _); [|congruence]. destruct output; [congruence|].
    destruct (open_records _ _ _ _ _ _ _ _ _) as [[?|?] ?]; [|congruence].
    destruct (negb _); [congruence|]. destruct (negb _); congruence.
Qed.

Definition sample_file : bytes :=
  match encrypt_file (of_text "config") None "secret" 4 sample_salt sample_prefix with
  | (Ok _, Some file) => file
  | _ => []
  end.

Lemma stream_decrypt_exact_witness :
  match decrypt_file (blen sample_file) sample_file None (Some "secret") 100 with
  | (Ok n, out) => out = Some (of_text "config") ∧ n <= 100
  | (Err _, _) => False
  end
  ∧ match decrypt_file (blen sample_file) (take 60 sample_file) (Some []) (Some "secret") 100 with
    | (Ok _, _) => False
    | (Err _, out) => out = Some []
    end.
Proof.
  split.
  - generalize (stream_decrypt_exact (blen sample_file) sample_file None (Some "secret") 100).
    destruct (decrypt_file (blen sample_file) sample_file None (Some "secret") 100) as [[n|e] out] eqn:E.
    + intros (pw & header & h & key & full & last & _ & _ & _ & _ & _ & _ & _ & _ & _ & _ & Hn).
      split; [|exact Hn]. vm_compute in E. injection E as _ <-. reflexivity.
    + vm_compute in E. discriminate.
  - generalize (stream_decrypt_exact (blen sample_file) (take 60 sample_file) (Some []) (Some "secret") 100).
    destruct (decrypt_file (blen sample_file) (take 60 sample_file) (Some []) (Some "secret") 100)
      as [[n|e] out] eqn:E; [vm_compute in E; discriminate|].
    intros H. exact H.
Defined.

(** ** Tampering *)

Section tampering.
Context `{Laws : CryptoLaws}.

(** What the sealer encrypted: key, nonce, record and associated data. *)
Fixpoint log_full (key header prefix : bytes) (index : Z) (cs : list bytes) :
  list (bytes * bytes * bytes * bytes) :=
match cs with
| [] => []
| c :: cs' =>
    (key, raw_nonce prefix index false,
     aead_encrypt key (raw_nonce prefix index false) c header, header)
    :: log_full key header prefix (index + 1) cs'
end.
Definition sealed_log (key header prefix : bytes) (full : list bytes) (last : bytes) :
  list (bytes * bytes * bytes * bytes) :=
let n := raw_nonce prefix (Z.of_nat (List.length full)) true in
log_full key header prefix 0 full ++ [(key, n, aead_encrypt key n last header, header)].

Lemma log_full_lookup key header prefix cs : ∀ index i x,
log_full key header prefix index cs !! i = Some x →
(i < List.length cs)%nat ∧ ∃ c, cs !! i = Some c
∧ x = (key, raw_nonce prefix (index + Z.of_nat i) false,
    aead_encrypt key (raw_nonce prefix (index + Z.of_nat i) false) c header, header).
Proof.
induction cs as [|c cs IH]; intros index i x; [done|]. destruct i as [|i]; simpl.
- intros [= <-]. split; [lia|]. exists c. by rewrite Z.add_0_r.
- intros H%IH. destruct H as (Hlt & c' & Hc & ->). split; [lia|]. exists c'.
  replace (index + Z.of_nat (S i)) with (index + 1 + Z.of_nat i) by lia. done.
Qed.

(** An entry of a log carries its index and whether it is the last. *)
Lemma sealed_log_elem key header prefix full last k n r a :
(k, n, r, a) ∈ sealed_log key header prefix full last →
k = key ∧ a = header ∧ ∃ i c b, 0 <= i <= Z.of_nat (List.length full)
  ∧ n = raw_nonce prefix i b ∧ r = aead_encrypt key n c header
  ∧ (full ++ [last]) !! Z.to_nat i = Some c
  ∧ b = (i =? Z.of_nat (List.length full)).
Proof.
unfold sealed_log. intros [H|H%list_elem_of_singleton]%elem_of_app.
- apply list_elem_of_lookup_1 in H as [i Hi].
  apply log_full_lookup in Hi as (Hlt & c & Hc & [= -> -> -> ->]).
  split_and!; [done..|]. exists (Z.of_nat i), c, false. rewrite Z.add_0_l, Nat2Z.id.
  split_and!; try done; [lia|lia|by apply lookup_app_l_Some|].
  symmetry. apply Z.eqb_neq. lia.
- injection H as -> -> -> ->. split_and!; [done..|].
  exists (Z.of_nat (List.length full)), last, true. rewrite Nat2Z.id, Z.eqb_refl.
  split_and!; try done; [lia|]. apply list_lookup_middle. done.
Qed.

Lemma log_full_sub key header prefix full1 full2 : ∀ index,
(∀ i c, full1 !! i = Some c → ∃ c', full2 !! i = Some c' ∧
   aead_encrypt key (raw_nonce prefix (index + Z.of_nat i) false) c header
   = aead_encrypt key (raw_nonce prefix (index + Z.of_nat i) false) c' header) →
List.length full1 = List.length full2 →
seal_full key header prefix index full1 = seal_full key header prefix index full2.
Proof.
revert full2. induction full1 as [|c full1 IH]; intros [|c2 full2] index H Hl; try done.
simpl in *. f_equal.
- destruct (H 0%nat c eq_refl) as (c' & [= ->] & E). by rewrite Z.add_0_r in E.
- apply IH; [|lia]. intros i d Hd. specialize (H (S i) d Hd).
  replace (index + 1 + Z.of_nat i) with (index + Z.of_nat (S i)) by lia. done.
Qed.

Lemma log_full_elem key header prefix cs i c index :
cs !! i = Some c →
(key, raw_nonce prefix (index + Z.of_nat i) false,
   aead_encrypt key (raw_nonce prefix (index + Z.of_nat i) false) c header, header)
∈ log_full key header prefix index cs.
Proof.
revert i index. induction cs as [|d cs IH]; intros [|i] index; simpl; try done.
- intros [= ->]. rewrite Z.add_0_r. by left.
- intros H. right. specialize (IH i (index + 1) H).
  by replace (index + Z.of_nat (S i)) with (index + 1 + Z.of_nat i) by lia.
Qed.

(** Two files under one header whose records are all known are equal. *)
Lemma sealed_log_determines key header prefix full1 last1 full2 last2 :
Z.of_nat (List.length full1) <= MAX_RECORDS → Z.of_nat (List.length full2) <= MAX_RECORDS →
Forall (λ x, x ∈ sealed_log key header prefix full2 last2)
  (sealed_log key header prefix full1 last1) →
seal_records key header prefix full1 last1 = seal_records key header prefix full2 last2.
Proof.
intros H1 H2 Hall. rewrite Forall_forall in Hall.
assert (List.length full1 = List.length full2) as Hlen.
{ assert ((key, raw_nonce prefix (Z.of_nat (List.length full1)) true,
    aead_encrypt key (raw_nonce prefix (Z.of_nat (List.length full1)) true) last1 header, header)
    ∈ sealed_log key header prefix full1 last1) as Hin by (apply elem_of_app; right; by left).
  apply Hall, sealed_log_elem in Hin as (_ & _ & i & c & b & Hi & En & _ & _ & Eb).
  apply raw_nonce_inj in En as [<- <-]; [|lia..]. symmetry in Eb. apply Z.eqb_eq in Eb. lia. }
unfold seal_records. f_equal.
- apply log_full_sub; [|done]. intros i c Hc.
  pose proof (log_full_elem key header prefix full1 i c 0 Hc) as Hin.
  assert (i < List.length full1)%nat as Hlt by (by eapply lookup_lt_Some).
  specialize (Hall _ (proj2 (elem_of_app _ _ _) (or_introl Hin))).
  apply sealed_log_elem in Hall as (_ & _ & j & c' & b & Hj & En & Er & Hc' & Eb).
  rewrite Z.add_0_l in *. apply raw_nonce_inj in En as [<- <-]; [|lia..].
  rewrite Nat2Z.id in Hc'. exists c'. split; [|done].
  rewrite lookup_app_l in Hc' by lia. done.
- assert ((key, raw_nonce prefix (Z.of_nat (List.length full1)) true,
    aead_encrypt key (raw_nonce prefix (Z.of_nat (List.length full1)) true) last1 header, header)
    ∈ sealed_log key header prefix full1 last1) as Hin by (apply elem_of_app; right; by left).
  apply Hall, sealed_log_elem in Hin as (_ & _ & i & c & b & Hi & En & Er & Hc & Eb).
  pose proof En as [<- _]%raw_nonce_inj; [|lia..]. rewrite Nat2Z.id, Hlen in Hc.
  rewrite lookup_app_r, Nat.sub_diag in Hc by lia. injection Hc as <-. rewrite Er. by rewrite Hlen.
Qed.

Lemma sealed_log_names key header prefix full last key' header' prefix' full' last' :
Forall (λ x, x ∈ sealed_log key header prefix full last) (sealed_log key' header' prefix' full' last') →
key' = key ∧ header' = header.
Proof.
intros Hall. unfold sealed_log at 2 in Hall. apply Forall_app in Hall as [_ Hall]. apply Forall_inv in Hall.
by apply sealed_log_elem in Hall as (-> & -> & _).
Qed.

(** *** Where the records of a file are *)

Definition record_at (size i : Z) (file : bytes) : bytes :=
take (Z.to_nat size) (drop (Z.to_nat (HEADER_BYTES + i * size)) file).

Lemma drop_past a b n : n = blen a → drop (Z.to_nat n) (a ++ b) = b.
Proof. intros ->. unfold blen. by rewrite Nat2Z.id, drop_app_length. Qed.
Lemma take_within a b n : n = blen a → take (Z.to_nat n) (a ++ b) = a.
Proof. intros ->. unfold blen. by rewrite Nat2Z.id, take_app_length. Qed.

Lemma sealed_record_at key header prefix c full last d i :
0 < c → blen header = HEADER_BYTES → chunked c full last → 0 <= i →
(full ++ [last]) !! Z.to_nat i = Some d →
record_at (c + TAG_BYTES) i (header ++ seal_records key header prefix full last)
= aead_encrypt key (raw_nonce prefix i (i =? Z.of_nat (List.length full))) d header.
Proof.
intros Hc Hh [Hf Hl] Hi Hd. unfold record_at, seal_records.
apply lookup_app_Some in Hd as [Hd|[Hge Hd]].
- apply lookup_lt_Some in Hd as Hlt. rewrite (proj2 (Z.eqb_neq _ _)) by lia.
  rewrite <-(take_drop_middle full (Z.to_nat i) d Hd) at 1. rewrite seal_full_app. cbn [seal_full].
  rewrite <-!app_assoc, (app_assoc header), length_take, Nat.min_l, Z.add_0_l, Z2Nat.id by lia.
  rewrite drop_past; [|autorewrite with pyrw; rewrite Hh, (blen_seal_full _ _ _ c) by (by apply Forall_take);
    rewrite length_take, Nat.min_l, Z2Nat.id by lia; lia].
  apply take_within. rewrite blen_encrypt. rewrite Forall_forall in Hf. rewrite Hf; [done|]. by eapply list_elem_of_lookup_2.
- assert (i = Z.of_nat (List.length full)) as ->.
  { apply lookup_lt_Some in Hd. cbn in Hd. lia. }
  rewrite Nat2Z.id, Nat.sub_diag in Hd. injection Hd as <-. rewrite Z.eqb_refl, app_assoc.
  rewrite drop_past by (autorewrite with pyrw; rewrite Hh, (blen_seal_full _ _ _ c) by done; lia).
  apply take_ge. pose proof (blen_encrypt key (raw_nonce prefix (Z.of_nat (List.length full)) true) last header). unfold blen in *. lia.
Qed.
Lemma blen_sealed key header prefix c full last : blen header = HEADER_BYTES → chunked c full last →
blen (header ++ seal_records key header prefix full last)
= HEADER_BYTES + Z.of_nat (List.length full) * (c + TAG_BYTES) + blen last + TAG_BYTES.
Proof.
intros Hh [Hf _]. unfold seal_records. autorewrite with pyrw. rewrite Hh, (blen_seal_full _ _ _ c), blen_encrypt by done. lia.
Qed.
Lemma last_record_at key header prefix c full last i : 0 < c → blen header = HEADER_BYTES → chunked c full last →
0 <= i <= Z.of_nat (List.length full) →
HEADER_BYTES + i * (c + TAG_BYTES) < blen (header ++ seal_records key header prefix full last)
∧ (blen (header ++ seal_records key header prefix full last) <=? HEADER_BYTES + (i + 1) * (c + TAG_BYTES))
  = (i =? Z.of_nat (List.length full)).
Proof.
intros Hc Hh Hch Hi. rewrite (blen_sealed _ _ _ c) by done. destruct Hch as [_ Hl]. pose proof (blen_nonneg last) as Hn.
unfold TAG_BYTES in *. split; [nia|]. destruct (Z.eqb_spec i (Z.of_nat (List.length full))) as [->|Hne].
- apply Z.leb_le. lia.
- apply Z.leb_gt. nia.
Qed.
Lemma middle_of (full : list bytes) last i d : (full ++ [last]) !! i = Some d →
∃ front back, concat full ++ last = front ++ d ++ back.
Proof.
intros H. exists (concat (take i (full ++ [last]))), (concat (drop (S i) (full ++ [last]))).
assert (concat full ++ last = concat (full ++ [last])) as -> by (rewrite concat_app_list; cbn; by rewrite app_nil_r).
rewrite <-(take_drop_middle _ _ _ H) at 1. by rewrite concat_app_list.
Qed.
End tampering.

(** [C39] Tampering with an encrypted file means forging AES-GCM.  If a file other
    than the sealed one decrypts under the same passphrase - truncated at a
    record boundary, with records reordered, dropped or repeated, with trailing
    data, or with an edited header - then one of the records it is read in, at its
    place in the file and under the key, header and nonce its place gives, was
    accepted and its plain text is part of the output, although the sealer never
    produced that record for that key, nonce and header. *)
Theorem stream_tampering_is_forgery `{Laws : CryptoLaws} (passphrase : string)
  (h : header_fields) (header key : bytes) (full : list bytes) (last : bytes)
  (total : Z) (other : bytes) (max n : Z) (out : option bytes)
  (Hh : header_sizes h) (Hpack : pack_header h = Ok header)
  (Hkey : derive_key passphrase (h_salt h) (h_log2_n h) (h_r h) (h_p h) = Some key)
  (Hlimit : Z.of_nat (List.length full) <= MAX_RECORDS)
  (Hdec : decrypt_file total other None (Some passphrase) max = (Ok n, out))
  (Hother : other ≠ header ++ seal_records key header (h_prefix h) full last) :
  let header' := take 48 other in let h' := unpack_header header' in
  let size := chunk_size h' + TAG_BYTES in
  ∃ key' i nc d front back,
    derive_key passphrase (h_salt h') (h_log2_n h') (h_r h') (h_p h') = Some key'
    ∧ 0 <= i ∧ HEADER_BYTES + i * size < blen other
    ∧ nonce (h_prefix h') i (blen other <=? HEADER_BYTES + (i + 1) * size) = Ok nc
    ∧ aead_decrypt key' nc (record_at size i other) header' = Some d
    ∧ out = Some (front ++ d ++ back)
    ∧ (key', nc, record_at size i other, header') ∉ sealed_log key header (h_prefix h) full last.
Proof.
  apply decrypt_file_Ok in Hdec as (header' & h' & key' & full' & last' & Hs' & Hok' & Hp' & Hk' & Hch'
    & Hlim' & -> & _ & -> & _ & _ & _).
  pose proof (pack_unpack _ _ Hs' Hp') as [Hl' Hu'].
  assert (take 48 (header' ++ seal_records key' header' (h_prefix h') full' last') = header') as Htake
    by (rewrite <-Hl'; apply take_app_length).
  cbv zeta. rewrite Htake, Hu'. assert (0 < chunk_size h') as Hc.
  { unfold chunk_size. rewrite Z.shiftl_1_l. apply Z.pow_pos_nonneg; [lia|]. pose proof (ok_chunk _ Hok'). lia. }
  destruct (decide (Forall (λ x, x ∈ sealed_log key header (h_prefix h) full last)
    (sealed_log key' header' (h_prefix h') full' last'))) as [Hall|Hnot].
  - exfalso. apply Hother. assert (key' = key ∧ header' = header) as [-> ->] by (by eapply sealed_log_names).
    assert (h' = h) as -> by (by destruct (pack_unpack _ _ Hh Hpack) as [_ <-]).
    f_equal. by apply sealed_log_determines.
  - apply not_Forall_Exists, Exists_exists in Hnot as ([[[k nc] r] a] & Hin & Hx); [|apply _].
    apply sealed_log_elem in Hin as (-> & -> & i & d & b & Hi & -> & -> & Hd & ->).
    assert (blen header' = HEADER_BYTES) as Hb by (unfold blen; by rewrite Hl').
    destruct (last_record_at key' header' (h_prefix h') _ full' last' i Hc Hb Hch' Hi) as [Hlt Hlast].
    destruct (middle_of _ _ _ _ Hd) as (front & back & ->). eexists key', i, _, d, front, back.
    rewrite Hlast, (sealed_record_at _ _ _ _ _ _ d) by (done || lia).
    split_and!; [done|lia|done|apply nonce_within; lia|apply aead_open|done|done].
Qed.

(** The checksum tag can be forged: another plain text under the same header. *)
Lemma stream_tampering_is_forgery_witness :
  ∃ key' i nc d, 0 <= i
    ∧ aead_decrypt key' nc (record_at (2 ^ 20 + TAG_BYTES) i sample_file) (take 48 sample_file) = Some d
    ∧ decrypt_file (blen sample_file) sample_file None (Some "secret") 100
      = (Ok 6, Some (of_text "config")).
Proof.
  set (h := sealer_header 20 DEFAULT_SCRYPT sample_salt sample_prefix).
  destruct (pack_header h) as [header|e] eqn:Ep; [|vm_compute in Ep; discriminate].
  destruct (derive_key "secret" (h_salt h) (h_log2_n h) (h_r h) (h_p h)) as [key|] eqn:Ek;
    [|vm_compute in Ek; discriminate].
  assert (decrypt_file (blen sample_file) sample_file None (Some "secret") 100
    = (Ok 6, Some (of_text "config"))) as Ed by (vm_compute; reflexivity).
  assert (sample_file ≠ header ++ seal_records key header (h_prefix h) [] (of_text "other!")) as Hne.
  { vm_compute in Ep, Ek. injection Ep as <-. injection Ek as <-.
    apply (bool_decide_unpack _). vm_compute. exact I. }
  destruct (stream_tampering_is_forgery "secret" h header key [] (of_text "other!")
    (blen sample_file) sample_file 100 6 (Some (of_text "config"))
    ltac:(repeat split) Ep Ek ltac:(discriminate) Ed Hne) as (key' & i & nc & d & _ & _ & _ & H1 & _ & _ & H2 & _).
  exists key', i, nc, d. split; [exact H1|]. split; [exact H2|exact Ed].
Defined.
