(* ===== verification/PyVal.v ===== *)
(** * Python values, dicts and lookup tables

    The values that flow through the diagnostics code: [None], booleans,
    integers, text, lists and dicts with string keys in insertion order.  Dict
    literals that are constants of the source are association tables. *)

From S2P Require Import Prelude PyStr.
From Stdlib Require Import String Ascii.
#[local] Open Scope string_scope.
#[local] Open Scope Z_scope.

(** ** Values *)

Inductive pyval :=
| PNone
| PBool (b : bool)
| PInt (z : Z)
| PStr (s : string)
| PList (l : list pyval)
| PDict (d : list (string * pyval)).
Abbreviation pydict := (list (string * pyval)).

Section pyval_induction.
Context (P : pyval → Prop).
Context (HNone : P PNone) (HBool : ∀ b, P (PBool b)) (HInt : ∀ z, P (PInt z))
(HStr : ∀ s, P (PStr s)) (HList : ∀ l, Forall P l → P (PList l))
(HDict : ∀ d, Forall (λ kv, P (snd kv)) d → P (PDict d)).

Fixpoint pyval_rect' (v : pyval) : P v :=
match v with
| PNone => HNone
| PBool b => HBool b
| PInt z => HInt z
| PStr s => HStr s
| PList l => HList l ((fix go l : Forall P l :=
    match l with [] => Forall_nil_2 _ | x :: l' => Forall_cons_2 _ _ _ (pyval_rect' x) (go l') end) l)
| PDict d => HDict d ((fix go d : Forall (λ kv, P (snd kv)) d :=
    match d with
    | [] => Forall_nil_2 _
    | kv :: d' => Forall_cons_2 _ _ _ (pyval_rect' (snd kv)) (go d')
    end) d)
end.
End pyval_induction.

(** [bool(v)] *)
Definition truthy (v : pyval) : bool :=
  match v with
  | PNone => false
  | PBool b => b
  | PInt z => negb (z =? 0)
  | PStr s => negb (String.eqb s "")
  | PList l => non_empty l
  | PDict d => non_empty d
  end.
(** [v or w] *)
Definition py_or (v w : pyval) : pyval := if truthy v then v else w.

Fixpoint py_repr_val (v : pyval) : string :=
  match v with
  | PNone => "None"
  | PBool b => if b then "True" else "False"
  | PInt z => py_str_int z
  | PStr s => py_repr s
  | PList l => "[" +:+ py_join ", " (py_repr_val <$> l) +:+ "]"
  | PDict d =>
      "{" +:+ py_join ", " ((λ kv, py_repr (fst kv) +:+ ": " +:+ py_repr_val (snd kv)) <$> d) +:+ "}"
  end.
(** [str(v)] *)
Definition py_str (v : pyval) : string := match v with PStr s => s | _ => py_repr_val v end.
(** [str(v or s)] *)
Definition str_or (v : pyval) (s : string) : string := py_str (py_or v (PStr s)).

Definition is_none (v : pyval) : bool := match v with PNone => true | _ => false end.
(** An optional text as a value. *)
Definition of_opt (o : option string) : pyval :=
  match o with Some s => PStr s | None => PNone end.

(** ** Dicts *)

Fixpoint d_lookup {A} (k : string) (d : list (string * A)) : option A :=
  match d with
  | [] => None
  | (k', v) :: d' => if String.eqb k' k then Some v else d_lookup k d'
  end.
(** [d[k] = v]: replaces in place or appends *)
Fixpoint d_set {A} (k : string) (v : A) (d : list (string * A)) : list (string * A) :=
  match d with
  | [] => [(k, v)]
  | (k', v') :: d' => if String.eqb k' k then (k, v) :: d' else (k', v') :: d_set k v d'
  end.
(** [d.get(k)] *)
Definition py_get (k : string) (d : pydict) : pyval :=
  match d_lookup k d with Some v => v | None => PNone end.
(** [d.update(e)] *)
Definition d_update {A} (d e : list (string * A)) : list (string * A) :=
  foldl (λ d kv, d_set (fst kv) (snd kv) d) d e.
(** [Counter]: [c[k] += n] *)
Definition counter_add (k : string) (c : list (string * Z)) : list (string * Z) :=
  d_set k (match d_lookup k c with Some n => n | None => 0 end + 1) c.

(** ** Tables of constants *)

Abbreviation table A := (list (Z * A)).
Abbreviation pair_table A := (list (Z * Z * A)).
Abbreviation text_table A := (list (string * A)).

Fixpoint t_lookup {A} (k : Z) (t : table A) : option A :=
  match t with
  | [] => None
  | (k', v) :: t' => if k' =? k then Some v else t_lookup k t'
  end.
Fixpoint p_lookup {A} (k : Z * Z) (t : pair_table A) : option A :=
  match t with
  | [] => None
  | (k', v) :: t' =>
      if (fst k' =? fst k) && (snd k' =? snd k) then Some v else p_lookup k t'
  end.

(** ** Lemmas *)

Section dict.
Context {A : Type}.
Implicit Types d : list (string * A).

Lemma d_lookup_set k k' v d :
d_lookup k' (d_set k v d) = if String.eqb k k' then Some v else d_lookup k' d.
Proof.
induction d as [|[k0 v0] d IH]; simpl; [done|].
destruct (String.eqb_spec k0 k) as [->|H0]; simpl.
- by destruct (String.eqb_spec k k').
- rewrite IH. destruct (String.eqb_spec k0 k') as [->|]; [|done].
  destruct (String.eqb_spec k k') as [->|]; done.
Qed.
Lemma d_lookup_set_eq k v d : d_lookup k (d_set k v d) = Some v.
Proof. by rewrite d_lookup_set, String.eqb_refl. Qed.
Lemma d_lookup_set_ne k k' v d : k ≠ k' → d_lookup k' (d_set k v d) = d_lookup k' d.
Proof. intros H. rewrite d_lookup_set. by apply String.eqb_neq in H as ->. Qed.

Lemma d_lookup_elem k v d : d_lookup k d = Some v → (k, v) ∈ d.
Proof.
induction d as [|[k0 v0] d IH]; simpl; [done|].
destruct (String.eqb_spec k0 k) as [->|]; [intros [= ->]; by left|right; auto].
Qed.
Lemma d_lookup_None k d : d_lookup k d = None ↔ k ∉ d.*1.
Proof.
induction d as [|[k0 v0] d IH]; simpl; [split; [intros _; apply not_elem_of_nil|done]|].
rewrite not_elem_of_cons. destruct (String.eqb_spec k0 k) as [->|Hne].
- split; [done|]. by intros [? _].
- rewrite IH. split; [intros ?; split; [congruence|done]|by intros [_ ?]].
Qed.
Lemma d_lookup_NoDup k v d : NoDup d.*1 → (k, v) ∈ d → d_lookup k d = Some v.
Proof.
induction d as [|[k0 v0] d IH]; simpl; [by intros _ ?%not_elem_of_nil|].
intros [Hk Hn]%NoDup_cons [[= -> ->]|Hin]%elem_of_cons; [by rewrite String.eqb_refl|].
destruct (String.eqb_spec k0 k) as [->|]; [|auto].
exfalso. apply Hk, list_elem_of_fmap. by exists (k, v).
Qed.

Lemma d_set_keys k v d :
(d_set k v d).*1 = if bool_decide (k ∈ d.*1) then d.*1 else (d.*1 ++ [k])%list.
Proof.
induction d as [|[k0 v0] d IH]; [done|]. cbn [d_set]. rewrite fmap_cons. cbn [fst].
destruct (String.eqb_spec k0 k) as [->|Hne]; rewrite fmap_cons; cbn [fst].
- by rewrite bool_decide_eq_true_2 by (by left).
- rewrite IH. destruct (decide (k ∈ d.*1)) as [Hin|Hin].
  + by rewrite !bool_decide_eq_true_2 by (try right; done).
  + rewrite !bool_decide_eq_false_2; [done| |done]. rewrite not_elem_of_cons. split; congruence.
Qed.
Lemma d_set_NoDup k v d : NoDup d.*1 → NoDup (d_set k v d).*1.
Proof.
intros Hn. rewrite d_set_keys. case_bool_decide; [done|].
apply NoDup_app. split_and!; [done| |apply NoDup_singleton].
by intros x Hx ->%list_elem_of_singleton.
Qed.
End dict.

Lemma py_get_set_ne k k' v (d : pydict) : k ≠ k' → py_get k' (d_set k v d) = py_get k' d.
Proof. intros H. unfold py_get. by rewrite d_lookup_set_ne. Qed.
Lemma py_get_set_eq k v (d : pydict) : py_get k (d_set k v d) = v.
Proof. unfold py_get. by rewrite d_lookup_set_eq. Qed.

(** [update] leaves other keys alone and takes the last value of its own. *)
Lemma py_get_update_ne k (d e : pydict) : k ∉ e.*1 → py_get k (d_update d e) = py_get k d.
Proof.
  unfold d_update. revert d; induction e as [|[k' v] e IH]; intros d; [done|].
  rewrite fmap_cons, not_elem_of_cons. intros [Hk He]. cbn [foldl fst snd].
  rewrite IH by done. apply py_get_set_ne. by intros ->.
Qed.
Lemma py_get_update_eq k v (d e : pydict) :
  NoDup e.*1 → d_lookup k e = Some v → py_get k (d_update d e) = v.
Proof.
  unfold d_update. revert d; induction e as [|[k' v'] e IH]; intros d; [done|].
  rewrite fmap_cons. intros [Hk Hn]%NoDup_cons. cbn [foldl d_lookup fst snd] in *.
  destruct (String.eqb_spec k' k) as [->|Hne]; [|by apply IH].
  intros [= ->]. fold (d_update (d_set k v d) e). rewrite py_get_update_ne by done. apply py_get_set_eq.
Qed.

Lemma t_lookup_elem {A} k (v : A) t : t_lookup k t = Some v → (k, v) ∈ t.
Proof.
  induction t as [|[k0 v0] t IH]; simpl; [done|].
  destruct (Z.eqb_spec k0 k) as [->|]; [intros [= ->]; by left|right; auto].
Qed.
Lemma p_lookup_elem {A} k (v : A) t : p_lookup k t = Some v → (k, v) ∈ t.
Proof.
  induction t as [|[[a b] v0] t IH]; simpl; [done|].
  destruct (Z.eqb_spec a (fst k)), (Z.eqb_spec b (snd k)); simpl; try (right; auto; fail).
  destruct k. simpl in *. subst. intros [= ->]. by left.
Qed.

(** A property of every row of a table, checked by evaluation, holds of every
    successful lookup. *)
Lemma t_lookup_all {A} (P : A → bool) t k v :
  forallb (λ r, P (snd r)) t = true → t_lookup k t = Some v → P v = true.
Proof.
  intros H Hl%t_lookup_elem. rewrite forallb_forall in H.
  apply (H (k, v)). by apply list_elem_of_In.
Qed.
Lemma p_lookup_all {A} (P : A → bool) t k v :
  forallb (λ r, P (snd r)) t = true → p_lookup k t = Some v → P v = true.
Proof.
  intros H Hl%p_lookup_elem. rewrite forallb_forall in H.
  apply (H (k, v)). by apply list_elem_of_In.
Qed.
Lemma d_lookup_all {A} (P : A → bool) t k (v : A) :
  forallb (λ r, P (snd r)) t = true → d_lookup k t = Some v → P v = true.
Proof.
  intros H Hl%d_lookup_elem. rewrite forallb_forall in H.
  apply (H (k, v)). by apply list_elem_of_In.
Qed.
