(* ===== verification/Regex.v ===== *)
(** * Regular expressions

    The part of Python's [re] the modelled patterns use: character classes,
    greedy and lazy repetition of a class, greedy options, alternatives, named
    groups and [$], with Python's backtracking order. *)

From S2P Require Import Prelude PyStr PyVal.
From Stdlib Require Import String Ascii.
#[local] Open Scope string_scope.
#[local] Open Scope Z_scope.

Inductive regex :=
| REps
| RChar (p : ascii → bool)
| RStar (p : ascii → bool)          (* greedy [p*] *)
| RLazy (p : ascii → bool)          (* lazy [p*?] *)
| RSeq (r1 r2 : regex)
| ROpt (r : regex)                  (* greedy [(?:r)?] *)
| RAlt (r1 r2 : regex)
| RGroup (name : string) (r : regex)
| RDollar.                          (* [$]: the end, or before a final newline *)

Definition captures := list (string * string).

Definition newline : ascii := chr 10.
Definition at_end (l : list ascii) : bool :=
  match l with [] => true | [c] => char_is newline c | _ => false end.

Section matching.
Context {R : Type}.
Definition cont := captures → list ascii → option R.

Fixpoint greedy (p : ascii → bool) (k : list ascii → option R) (l : list ascii) : option R :=
match l with
| c :: l' =>
    if p c then match greedy p k l' with Some r => Some r | None => k l end else k l
| [] => k []
end.
Fixpoint lazy (p : ascii → bool) (k : list ascii → option R) (l : list ascii) : option R :=
match k l with
| Some r => Some r
| None => match l with c :: l' => if p c then lazy p k l' else None | [] => None end
end.

Fixpoint rmatch (r : regex) (k : cont) (env : captures) (l : list ascii) : option R :=
match r with
| REps => k env l
| RChar p => match l with c :: l' => if p c then k env l' else None | [] => None end
| RStar p => greedy p (k env) l
| RLazy p => lazy p (k env) l
| RSeq r1 r2 => rmatch r1 (rmatch r2 k) env l
| ROpt r1 => match rmatch r1 k env l with Some x => Some x | None => k env l end
| RAlt r1 r2 => match rmatch r1 k env l with Some x => Some x | None => rmatch r2 k env l end
| RGroup name r1 =>
    rmatch r1 (λ env' l',
      k (d_set name (text (take (List.length l - List.length l') l)) env') l') env l
| RDollar => if at_end l then k env l else None
end.
End matching.

(** [re.match] *)
Definition re_match_l (r : regex) (l : list ascii) : option captures :=
  rmatch r (λ env _, Some env) [] l.
Definition re_match (r : regex) (s : string) : option captures := re_match_l r (chars s).
(** [re.search] *)
Fixpoint re_search_l (r : regex) (l : list ascii) : option captures :=
  match re_match_l r l with
  | Some m => Some m
  | None => match l with _ :: l' => re_search_l r l' | [] => None end
  end.
Definition re_search (r : regex) (s : string) : option captures := re_search_l r (chars s).
(** [re.fullmatch] *)
Definition re_fullmatch (r : regex) (s : string) : option captures :=
  rmatch r (λ env l, match l with [] => Some env | _ => None end) [] (chars s).

(** [match.group(name)] *)
Definition group (name : string) (m : captures) : option string := d_lookup name m.
Definition group_text (name : string) (m : captures) : string :=
  match group name m with Some s => s | None => "" end.

(** ** Patterns *)

Definition seq (rs : list regex) : regex := foldr RSeq REps rs.
Definition lit (s : string) : regex := seq ((λ c, RChar (char_is c)) <$> chars s).
(** a literal under [re.IGNORECASE] *)
Definition lit_i (s : string) : regex :=
  seq ((λ c, RChar (λ x, char_is (lower_char c) (lower_char x))) <$> chars s).
Definition plus (p : ascii → bool) : regex := RSeq (RChar p) (RStar p).
Definition plus_lazy (p : ascii → bool) : regex := RSeq (RChar p) (RLazy p).
Definition times (n : nat) (p : ascii → bool) : regex := seq (repeat (RChar p) n).
(** [p{n,m}] *)
Definition between (n m : nat) (p : ascii → bool) : regex :=
  RSeq (times n p) (Nat.iter (m - n) (λ r, ROpt (RSeq (RChar p) r)) REps).
Definition dot (c : ascii) : bool := negb (char_is newline c).
Definition not_space (c : ascii) : bool := negb (is_space c).
Definition one_of (s : string) (c : ascii) : bool := existsb (char_is c) (chars s).
Definition is_hex (c : ascii) : bool := is_decimal c || in_range 97 102 c || in_range 65 70 c.

(** ** Lemmas *)

Section matching_lemmas.
Context {R : Type} (p : ascii → bool) (k : list ascii → option R).

(** A greedy class takes everything it can when the rest then matches. *)
Lemma greedy_all w l r :
forallb p w = true → match l with c :: _ => p c = false | [] => True end →
k l = Some r → greedy p k (w ++ l)%list = Some r.
Proof.
intros Hw Hl Hk. induction w as [|c w IH]; simpl in *.
- destruct l as [|c l]; simpl; [done|]. by rewrite Hl.
- apply andb_true_iff in Hw as [-> Hw]. by rewrite IH.
Qed.
Lemma greedy_sound l r : greedy p k l = Some r → ∃ w l', l = (w ++ l')%list ∧ forallb p w = true ∧ k l' = Some r.
Proof.
induction l as [|c l IH]; simpl; [by exists [], []|].
destruct (p c) eqn:Hc; [|by exists [], (c :: l)].
destruct (greedy p k l) as [r'|] eqn:E.
- intros [= ->]. destruct (IH eq_refl) as (w & l' & -> & Hw & Hk).
  exists (c :: w), l'. simpl. by rewrite Hc.
- by exists [], (c :: l).
Qed.
End matching_lemmas.

Lemma fullmatch_plus p s :
  re_fullmatch (plus p) s = (if non_empty (chars s) && forallb p (chars s) then Some [] else None).
Proof.
  unfold re_fullmatch, plus. simpl. generalize (chars s) as l. intros [|c l]; simpl; [done|].
  destruct (p c); [|done]. simpl. induction l as [|d l IH]; simpl; [done|].
  destruct (p d) eqn:Hd; simpl; [|done].
  by rewrite IH; destruct (forallb p l).
Qed.

(** ** Matching texts built from the parts of a pattern *)

(** The next character, if any, is outside the class. *)
Definition stops (p : ascii → bool) (l : list ascii) : Prop :=
  match l with c :: _ => p c = false | [] => True end.

Lemma take_before {A} (w l : list A) : take (List.length (w ++ l)%list - List.length l) (w ++ l)%list = w.
Proof.
  rewrite length_app. replace (List.length w + List.length l - List.length l)%nat with (List.length w) by lia.
  apply take_app_length.
Qed.

Section rmatch_lemmas.
Context {R : Type}.
Implicit Types (k : captures → list ascii → option R) (env : captures).

Lemma rmatch_seq r1 r2 k env l : rmatch (RSeq r1 r2) k env l = rmatch r1 (rmatch r2 k) env l.
Proof. reflexivity. Qed.
Lemma rmatch_lit s k env l : rmatch (lit s) k env (chars s ++ l)%list = k env l.
Proof.
unfold lit. induction (chars s) as [|c cs IH]; [done|].
cbn. unfold char_is at 1. rewrite Ascii.eqb_refl. apply IH.
Qed.
Lemma rmatch_plus p k env w l r :
w ≠ [] → forallb p w = true → stops p l → k env l = Some r →
rmatch (plus p) k env (w ++ l)%list = Some r.
Proof.
intros Hne Hw Hl Hk. destruct w as [|c w]; [done|]. simpl in Hw. apply andb_true_iff in Hw as [Hc Hw].
simpl. rewrite Hc. by apply greedy_all.
Qed.
Lemma rmatch_group nm r0 k env w l r :
(∀ k', k' env l = Some r → rmatch r0 k' env (w ++ l)%list = Some r) →
k (d_set nm (text w) env) l = Some r →
rmatch (RGroup nm r0) k env (w ++ l)%list = Some r.
Proof. intros H Hk. cbn [rmatch]. apply H. by rewrite take_before. Qed.
End rmatch_lemmas.
