(* ===== verification/SasCommon.v ===== *)
(** * Fault families

    [app/services/sas_diagnostics/common.py]: the families every decoder sorts
    its events into, with their labels, severities, priorities and the layer
    they point at. *)

From S2P Require Import Prelude PyStr PyVal.
From Stdlib Require Import String.
#[local] Open Scope string_scope.
#[local] Open Scope Z_scope.

(** the fault families and their labels *)
Definition FAULT_FAMILY_LABELS : text_table string := [
  ("sas_protocol", "SAS protocol error");
  ("link_loss", "SAS link loss");
  ("timeout", "SAS timeout");
  ("bus_reset", "SCSI bus reset");
  ("controller_terminated_io", "Controller terminated IO");
  ("controller_configuration", "Controller configuration error");
  ("sas_transport", "SAS transport error");
  ("device_path_exception", "Device/path exception");
  ("ses_enclosure", "SES/enclosure management error");
  ("logical_unit_communication", "Logical unit communication error");
  ("target_failure", "Target/device failure");
  ("protection_error", "Block protection error");
  ("data_buffer_error", "Data buffer transfer error");
  ("pcie_fabric", "PCIe fabric error");
  ("cam_error", "CAM transport error");
  ("scsi_status", "SCSI status");
  ("retry", "Command retry");
  ("recovered_data", "Recovered data/media error");
  ("write_protect", "Write protection");
  ("failure_prediction", "Failure prediction");
  ("log_exception", "SCSI log exception");
  ("power_condition", "SCSI power condition");
  ("unit_attention", "Device state change");
  ("medium_format", "Medium format/defect error");
  ("enclosure_warning", "SES/enclosure warning");
  ("write_error", "Write error");
  ("read_error", "Read error");
  ("write_io", "Write IO affected");
  ("read_io", "Read IO affected");
  ("capacity_query", "Capacity query");
  ("log_sense", "LOG SENSE diagnostic page");
  ("maintenance", "SCSI maintenance command");
  ("aborted_command", "Aborted command");
  ("scsi_sense", "SCSI sense event");
  ("scsi_command", "SCSI command")
].

Definition FAULT_FAMILY_SEVERITIES : text_table string := [
  ("sas_protocol", "error");
  ("link_loss", "error");
  ("timeout", "error");
  ("controller_terminated_io", "error");
  ("controller_configuration", "error");
  ("sas_transport", "error");
  ("ses_enclosure", "error");
  ("logical_unit_communication", "error");
  ("target_failure", "error");
  ("pcie_fabric", "error");
  ("data_buffer_error", "error");
  ("write_error", "error");
  ("read_error", "error");
  ("medium_format", "error");
  ("cam_error", "warning");
  ("bus_reset", "warning");
  ("scsi_status", "warning");
  ("retry", "warning");
  ("aborted_command", "warning");
  ("device_path_exception", "warning");
  ("protection_error", "warning");
  ("recovered_data", "warning");
  ("write_protect", "warning");
  ("failure_prediction", "warning");
  ("log_exception", "warning");
  ("power_condition", "warning");
  ("unit_attention", "warning");
  ("enclosure_warning", "warning")
].

Definition fault_priorities : text_table Z := [
  ("link_loss", 0);
  ("sas_protocol", 1);
  ("timeout", 2);
  ("sas_transport", 3);
  ("controller_terminated_io", 4);
  ("device_path_exception", 5);
  ("ses_enclosure", 6);
  ("logical_unit_communication", 7);
  ("target_failure", 8);
  ("pcie_fabric", 9);
  ("data_buffer_error", 10);
  ("controller_configuration", 11);
  ("cam_error", 12);
  ("bus_reset", 13);
  ("aborted_command", 14);
  ("protection_error", 15);
  ("scsi_sense", 16);
  ("scsi_status", 17);
  ("retry", 18);
  ("failure_prediction", 19);
  ("medium_format", 20);
  ("write_error", 21);
  ("read_error", 22);
  ("enclosure_warning", 23);
  ("recovered_data", 24);
  ("write_protect", 25);
  ("log_exception", 26);
  ("power_condition", 26);
  ("unit_attention", 27);
  ("write_io", 30);
  ("read_io", 31);
  ("log_sense", 32);
  ("capacity_query", 33);
  ("maintenance", 34);
  ("scsi_command", 35)
].

Definition fault_family_priority (family : string) : Z :=
  match d_lookup family fault_priorities with Some p => p | None => 20 end.

Definition fault_family_severity (family : string) : string :=
  match d_lookup family FAULT_FAMILY_SEVERITIES with Some s => s | None => "info" end.

Definition severity_rank (severity : pyval) : Z :=
  match d_lookup (py_lower (str_or severity "info")) [("error", 0); ("warning", 1); ("info", 2)] with
  | Some r => r
  | None => 3
  end.

Definition is_in (s : string) (l : list string) : bool := existsb (String.eqb s) l.

Definition fault_family_likely_layer (family : string) : string :=
  if is_in family ["sas_protocol"; "link_loss"; "timeout"; "sas_transport"] then "SAS link/path"
  else if String.eqb family "controller_terminated_io" then "HBA path or downstream fabric"
  else if String.eqb family "controller_configuration" then "HBA firmware/configuration"
  else if String.eqb family "ses_enclosure" then "SES/enclosure management path"
  else if String.eqb family "enclosure_warning" then "SES/enclosure health"
  else if String.eqb family "logical_unit_communication" then "Target communication path"
  else if String.eqb family "target_failure" then "SCSI target/device"
  else if String.eqb family "medium_format" then "Target medium/defect management"
  else if String.eqb family "failure_prediction" then "Target health prediction"
  else if String.eqb family "recovered_data" then "Target media recovery"
  else if String.eqb family "write_protect" then "Target write protection"
  else if String.eqb family "log_exception" then "SCSI diagnostic log"
  else if String.eqb family "power_condition" then "SCSI target power condition"
  else if String.eqb family "unit_attention" then "SCSI target state change"
  else if String.eqb family "pcie_fabric" then "Host PCIe fabric or endpoint"
  else if String.eqb family "data_buffer_error" then "SCSI data buffer transfer"
  else if String.eqb family "protection_error" then "Block protection metadata"
  else if is_in family ["write_error"; "read_error"] then "Target media or command data path"
  else if String.eqb family "bus_reset" then "SCSI/SAS recovery"
  else if String.eqb family "aborted_command" then "Target or transport aborted command"
  else if String.eqb family "device_path_exception" then "Target device or path state"
  else if is_in family ["write_io"; "read_io"] then "Workload IO context"
  else if String.eqb family "cam_error" then "FreeBSD CAM transport layer"
  else if String.eqb family "scsi_status" then "SCSI target status"
  else if String.eqb family "log_sense" then "SCSI diagnostic log page"
  else "SCSI/SAS fabric".

(** ** The known families *)

Definition known_family (family : string) : bool := is_in family FAULT_FAMILY_LABELS.*1.

Lemma is_in_iff s l : is_in s l = true ↔ s ∈ l.
Proof.
  unfold is_in. rewrite existsb_exists. split.
  - intros (x & Hx & ->%String.eqb_eq). by apply list_elem_of_In.
  - intros H. exists s. split; [by apply list_elem_of_In|apply String.eqb_refl].
Qed.

Lemma likely_layer_ne family : fault_family_likely_layer family ≠ "".
Proof.
  unfold fault_family_likely_layer.
  repeat match goal with |- (if ?b then _ else _) ≠ _ => destruct b; [discriminate|] end.
  discriminate.
Qed.
