(* ===== verification/ScsiTables.v ===== *)
(** * Tables of the SCSI standards

    The lookup tables of [app/services/sas_diagnostics/scsi.py], row by row, as
    association lists in the order of the source. *)

From S2P Require Import Prelude PyStr PyVal.
From Stdlib Require Import String.
#[local] Open Scope string_scope.
#[local] Open Scope Z_scope.

(** operation codes *)
Definition SCSI_CDB_OPCODE_NAMES : table string := [
  (0x00, "TEST UNIT READY");
  (0x03, "REQUEST SENSE");
  (0x04, "FORMAT UNIT");
  (0x07, "REASSIGN BLOCKS");
  (0x08, "READ(6)");
  (0x0A, "WRITE(6)");
  (0x12, "INQUIRY");
  (0x15, "MODE SELECT(6)");
  (0x1A, "MODE SENSE(6)");
  (0x1B, "START STOP UNIT");
  (0x1C, "RECEIVE DIAGNOSTIC RESULTS");
  (0x1D, "SEND DIAGNOSTIC");
  (0x1E, "PREVENT ALLOW MEDIUM REMOVAL");
  (0x23, "READ FORMAT CAPACITIES");
  (0x25, "READ CAPACITY(10)");
  (0x28, "READ(10)");
  (0x2A, "WRITE(10)");
  (0x2B, "SEEK(10)");
  (0x2E, "WRITE AND VERIFY(10)");
  (0x2F, "VERIFY(10)");
  (0x34, "PRE-FETCH(10)");
  (0x35, "SYNCHRONIZE CACHE(10)");
  (0x36, "LOCK UNLOCK CACHE(10)");
  (0x37, "READ DEFECT DATA(10)");
  (0x38, "MEDIUM SCAN");
  (0x3B, "WRITE BUFFER");
  (0x3C, "READ BUFFER");
  (0x3E, "READ LONG(10)");
  (0x3F, "WRITE LONG(10)");
  (0x41, "WRITE SAME(10)");
  (0x42, "UNMAP");
  (0x48, "SANITIZE");
  (0x4C, "LOG SELECT");
  (0x4D, "LOG SENSE");
  (0x55, "MODE SELECT(10)");
  (0x56, "RESERVE(10)");
  (0x57, "RELEASE(10)");
  (0x5A, "MODE SENSE(10)");
  (0x5E, "PERSISTENT RESERVE IN");
  (0x5F, "PERSISTENT RESERVE OUT");
  (0x7E, "EXTENDED CDB");
  (0x7F, "VARIABLE LENGTH CDB");
  (0x83, "THIRD-PARTY COPY OUT");
  (0x84, "THIRD-PARTY COPY IN");
  (0x85, "ATA PASS-THROUGH(16)");
  (0x88, "READ(16)");
  (0x89, "COMPARE AND WRITE");
  (0x8A, "WRITE(16)");
  (0x8B, "ORWRITE");
  (0x8C, "READ ATTRIBUTE");
  (0x8D, "WRITE ATTRIBUTE");
  (0x8E, "WRITE AND VERIFY(16)");
  (0x8F, "VERIFY(16)");
  (0x90, "PRE-FETCH(16)");
  (0x91, "SYNCHRONIZE CACHE(16)");
  (0x93, "WRITE SAME(16)");
  (0x94, "ZBC OUT");
  (0x95, "ZBC IN");
  (0x9A, "WRITE STREAM(16)");
  (0x9B, "READ BUFFER(16)");
  (0x9C, "WRITE ATOMIC(16)");
  (0x9D, "SERVICE ACTION BIDIRECTIONAL");
  (0x9E, "SERVICE ACTION IN(16)");
  (0x9F, "SERVICE ACTION OUT(16)");
  (0xA0, "REPORT LUNS");
  (0xA1, "ATA PASS-THROUGH(12)");
  (0xA2, "SECURITY PROTOCOL IN");
  (0xA3, "MAINTENANCE IN");
  (0xA4, "MAINTENANCE OUT");
  (0xA5, "MOVE MEDIUM");
  (0xA7, "MOVE MEDIUM ATTACHED");
  (0xA8, "READ(12)");
  (0xA9, "SERVICE ACTION OUT(12)");
  (0xAA, "WRITE(12)");
  (0xAB, "SERVICE ACTION IN(12)");
  (0xAE, "WRITE AND VERIFY(12)");
  (0xAF, "VERIFY(12)");
  (0xB5, "SECURITY PROTOCOL OUT");
  (0xB6, "SEND VOLUME TAG");
  (0xB7, "READ DEFECT DATA(12)");
  (0xB8, "READ ELEMENT STATUS");
  (0xBA, "REDUNDANCY GROUP (IN)");
  (0xBB, "REDUNDANCY GROUP (OUT)");
  (0xBC, "SPARE (IN)");
  (0xBD, "SPARE (OUT)");
  (0xBE, "VOLUME SET (IN)");
  (0xBF, "VOLUME SET (OUT)")
].

(** service actions by operation code and action *)
Definition SCSI_SERVICE_ACTION_NAMES : pair_table string := [
  ((0x5E, 0x00), "READ KEYS");
  ((0x5E, 0x01), "READ RESERVATION");
  ((0x5E, 0x02), "REPORT CAPABILITIES");
  ((0x5E, 0x03), "READ FULL STATUS");
  ((0x5F, 0x00), "REGISTER");
  ((0x5F, 0x01), "RESERVE");
  ((0x5F, 0x02), "RELEASE");
  ((0x5F, 0x03), "CLEAR");
  ((0x5F, 0x04), "PREEMPT");
  ((0x5F, 0x05), "PREEMPT AND ABORT");
  ((0x5F, 0x06), "REGISTER AND IGNORE EXISTING KEY");
  ((0x5F, 0x07), "REGISTER AND MOVE");
  ((0x84, 0x00), "COPY STATUS");
  ((0x84, 0x01), "RECEIVE DATA");
  ((0x84, 0x03), "OPERATING PARAMETERS");
  ((0x84, 0x04), "FAILED SEGMENT DETAILS");
  ((0x9E, 0x10), "READ CAPACITY(16)");
  ((0x9E, 0x11), "READ LONG(16)");
  ((0x9E, 0x12), "GET LBA STATUS");
  ((0x9F, 0x11), "WRITE LONG(16)");
  ((0xA3, 0x05), "REPORT DEVICE IDENTIFIER");
  ((0xA3, 0x0A), "REPORT TARGET PORT GROUPS");
  ((0xA3, 0x0B), "REPORT ALIASES");
  ((0xA3, 0x0C), "REPORT SUPPORTED OPERATION CODES");
  ((0xA3, 0x0D), "REPORT SUPPORTED TASK MANAGEMENT FUNCTIONS");
  ((0xA3, 0x0E), "REPORT PRIORITY");
  ((0xA3, 0x0F), "REPORT TIMESTAMP");
  ((0xA4, 0x06), "SET DEVICE IDENTIFIER");
  ((0xA4, 0x0A), "SET TARGET PORT GROUPS");
  ((0xA4, 0x0B), "CHANGE ALIASES");
  ((0xA4, 0x0E), "SET PRIORITY");
  ((0xA4, 0x0F), "SET TIMESTAMP")
].

(** sense keys *)
Definition SCSI_SENSE_KEY_LABELS : text_table string := [
  ("NO SENSE", "No specific sense key");
  ("RECOVERED ERROR", "Recovered target error");
  ("NOT READY", "Device not ready");
  ("MEDIUM ERROR", "Disk media error");
  ("HARDWARE ERROR", "Hardware reported an error");
  ("ILLEGAL REQUEST", "Unsupported or invalid command");
  ("UNIT ATTENTION", "Device state changed");
  ("DATA PROTECT", "Data protection prevented the command");
  ("BLANK CHECK", "Blank or unwritten medium");
  ("COPY ABORTED", "Copy operation aborted");
  ("ABORTED COMMAND", "Command aborted below the OS");
  ("VOLUME OVERFLOW", "Volume overflow");
  ("MISCOMPARE", "Compare operation mismatch")
].

(** additional sense codes, first half *)
Definition ASC_LABELS_LOW : pair_table string := [
  ((0x00, 0x00), "No additional sense information");
  ((0x00, 0x06), "I/O process terminated");
  ((0x00, 0x16), "Operation in progress");
  ((0x00, 0x1D), "ATA pass through information available");
  ((0x03, 0x00), "Peripheral device write fault");
  ((0x03, 0x01), "No write current");
  ((0x03, 0x02), "Excessive write errors");
  ((0x04, 0x00), "Logical unit not ready");
  ((0x04, 0x01), "Logical unit is becoming ready");
  ((0x04, 0x02), "Logical unit not ready, initializing command required");
  ((0x04, 0x03), "Logical unit not ready, manual intervention required");
  ((0x04, 0x05), "Logical unit not ready, rebuild in progress");
  ((0x04, 0x06), "Logical unit not ready, recalculation in progress");
  ((0x04, 0x07), "Logical unit not ready, operation in progress");
  ((0x04, 0x09), "Logical unit not ready, self-test in progress");
  ((0x04, 0x0A), "Logical unit not accessible, asymmetric access state transition");
  ((0x04, 0x0B), "Logical unit not accessible, target port in standby state");
  ((0x04, 0x0C), "Logical unit not accessible, target port in unavailable state");
  ((0x04, 0x1A), "Logical unit not ready, START STOP UNIT command in progress");
  ((0x04, 0x1B), "Logical unit not ready, sanitize in progress");
  ((0x04, 0x20), "Logical unit not ready, logical unit reset required");
  ((0x04, 0x21), "Logical unit not ready, hard reset required");
  ((0x04, 0x22), "Logical unit not ready, power cycle required");
  ((0x05, 0x00), "Logical unit does not respond to selection");
  ((0x08, 0x00), "Logical unit communication failure");
  ((0x08, 0x01), "Logical unit communication timeout");
  ((0x08, 0x02), "Logical unit communication parity error");
  ((0x08, 0x03), "Logical unit communication CRC error");
  ((0x08, 0x04), "Unreachable copy target");
  ((0x09, 0x00), "Track following error");
  ((0x09, 0x01), "Tracking servo failure");
  ((0x09, 0x02), "Focus servo failure");
  ((0x09, 0x03), "Spindle servo failure");
  ((0x09, 0x04), "Head select fault");
  ((0x0B, 0x00), "Warning");
  ((0x0B, 0x01), "Warning - specified temperature exceeded");
  ((0x0B, 0x02), "Warning - enclosure degraded");
  ((0x0B, 0x03), "Warning - background self-test failed");
  ((0x0B, 0x04), "Warning - background pre-scan detected medium error");
  ((0x0B, 0x05), "Warning - background medium scan detected medium error");
  ((0x0B, 0x06), "Warning - non-volatile cache now volatile");
  ((0x0C, 0x00), "Write error");
  ((0x0C, 0x01), "Write error, recovered with auto reallocation");
  ((0x0C, 0x02), "Write error, auto reallocation failed");
  ((0x0C, 0x03), "Write error, recommend reassignment");
  ((0x0C, 0x07), "Write error, recovery needed");
  ((0x0C, 0x08), "Write error, recovery failed");
  ((0x0C, 0x0C), "Write error, unexpected unsolicited data");
  ((0x0C, 0x0D), "Write error, not enough unsolicited data");
  ((0x0C, 0x0E), "Multiple write errors");
  ((0x0E, 0x00), "Invalid information unit");
  ((0x0E, 0x01), "Information unit too short");
  ((0x0E, 0x02), "Information unit too long");
  ((0x0E, 0x03), "Invalid field in command information unit");
  ((0x10, 0x00), "ID CRC or ECC error");
  ((0x10, 0x01), "Logical block guard check failed");
  ((0x10, 0x02), "Logical block application tag check failed");
  ((0x10, 0x03), "Logical block reference tag check failed");
  ((0x11, 0x00), "Unrecovered read error");
  ((0x14, 0x00), "Recorded entity not found");
  ((0x14, 0x01), "Record not found");
  ((0x14, 0x05), "Record not found, recommend reassignment");
  ((0x15, 0x00), "Random positioning error");
  ((0x15, 0x01), "Mechanical positioning error");
  ((0x15, 0x02), "Positioning error detected by read of medium");
  ((0x16, 0x00), "Data synchronization mark error");
  ((0x17, 0x00), "Recovered data with no error correction applied");
  ((0x17, 0x01), "Recovered data with retries");
  ((0x17, 0x02), "Recovered data with positive head offset");
  ((0x17, 0x03), "Recovered data with negative head offset");
  ((0x17, 0x05), "Recovered data using previous sector id");
  ((0x17, 0x06), "Recovered data without ECC, data auto-reallocated");
  ((0x17, 0x07), "Recovered data without ECC, recommend reassignment");
  ((0x17, 0x08), "Recovered data without ECC, recommend rewrite");
  ((0x18, 0x00), "Recovered data with error correction applied");
  ((0x18, 0x01), "Recovered data with error correction and retries applied");
  ((0x18, 0x02), "Recovered data, data auto-reallocated");
  ((0x18, 0x05), "Recovered data, recommend reassignment");
  ((0x18, 0x06), "Recovered data, recommend rewrite");
  ((0x19, 0x00), "Defect list error");
  ((0x19, 0x01), "Defect list not available");
  ((0x19, 0x02), "Defect list error in primary list");
  ((0x19, 0x03), "Defect list error in grown list");
  ((0x1A, 0x00), "Parameter list length error");
  ((0x1B, 0x00), "Synchronous data transfer error");
  ((0x20, 0x00), "Invalid command operation code");
  ((0x21, 0x00), "Logical block address out of range");
  ((0x24, 0x00), "Invalid field in CDB");
  ((0x25, 0x00), "Logical unit not supported");
  ((0x27, 0x00), "Write protected");
  ((0x27, 0x01), "Hardware write protected");
  ((0x27, 0x02), "Logical unit software write protected");
  ((0x27, 0x07), "Space allocation failed write protect");
  ((0x28, 0x00), "Not ready to ready change, medium may have changed");
  ((0x28, 0x01), "Import or export element accessed");
  ((0x29, 0x00), "Power on, reset, or bus device reset occurred");
  ((0x29, 0x01), "Power on occurred");
  ((0x29, 0x02), "SCSI bus reset occurred");
  ((0x29, 0x03), "Bus device reset function occurred");
  ((0x29, 0x04), "Device internal reset");
  ((0x29, 0x05), "Transceiver mode changed to single-ended");
  ((0x29, 0x06), "Transceiver mode changed to LVD");
  ((0x29, 0x07), "I_T nexus loss occurred");
  ((0x2A, 0x01), "Mode parameters changed");
  ((0x2A, 0x02), "Log parameters changed");
  ((0x2A, 0x03), "Reservations preempted");
  ((0x2A, 0x04), "Reservations released");
  ((0x2A, 0x05), "Registrations preempted");
  ((0x2A, 0x06), "Asymmetric access state changed");
  ((0x2A, 0x07), "Implicit asymmetric access state transition failed");
  ((0x2A, 0x09), "Capacity data has changed")
].

(** additional sense codes, second half *)
Definition ASC_LABELS_HIGH : pair_table string := [
  ((0x2A, 0x0A), "Error history I_T nexus cleared");
  ((0x2A, 0x0B), "Error history snapshot released");
  ((0x2C, 0x00), "Command sequence error");
  ((0x2F, 0x00), "Commands cleared by another initiator");
  ((0x31, 0x00), "Medium format corrupted");
  ((0x31, 0x01), "Format command failed");
  ((0x31, 0x02), "Zoned formatting failed due to spare linking");
  ((0x32, 0x00), "No defect spare location available");
  ((0x32, 0x01), "Defect list update failure");
  ((0x3A, 0x00), "Medium not present");
  ((0x3E, 0x00), "Logical unit has not self-configured yet");
  ((0x3E, 0x01), "Logical unit failure");
  ((0x3E, 0x02), "Timeout on logical unit");
  ((0x3E, 0x03), "Logical unit failed self-test");
  ((0x3E, 0x04), "Logical unit unable to update self-test log");
  ((0x3F, 0x00), "Target operating conditions have changed");
  ((0x3F, 0x01), "Microcode has been changed");
  ((0x3F, 0x03), "Inquiry data has changed");
  ((0x3F, 0x04), "Component device attached");
  ((0x3F, 0x05), "Device identifier changed");
  ((0x3F, 0x06), "Redundancy group created or modified");
  ((0x3F, 0x07), "Redundancy group deleted");
  ((0x3F, 0x08), "Spare created or modified");
  ((0x3F, 0x09), "Spare deleted");
  ((0x3F, 0x0A), "Volume set created or modified");
  ((0x3F, 0x0B), "Volume set deleted");
  ((0x3F, 0x0E), "Reported LUNs data has changed");
  ((0x3F, 0x0F), "Echo buffer overwritten");
  ((0x3F, 0x16), "Microcode has been changed without reset");
  ((0x34, 0x00), "Enclosure failure");
  ((0x35, 0x00), "Enclosure services failure");
  ((0x35, 0x01), "Unsupported enclosure function");
  ((0x35, 0x02), "Enclosure services unavailable");
  ((0x40, 0x00), "RAM failure");
  ((0x41, 0x00), "Data path failure");
  ((0x42, 0x00), "Power-on or self-test failure");
  ((0x43, 0x00), "Message error");
  ((0x44, 0x00), "Internal target failure");
  ((0x45, 0x00), "Select or reselect failure");
  ((0x46, 0x00), "Unsuccessful soft reset");
  ((0x47, 0x00), "SCSI parity error");
  ((0x47, 0x01), "Data phase CRC error detected");
  ((0x47, 0x02), "SCSI parity error detected during ST data phase");
  ((0x47, 0x03), "Information unit iuCRC error detected");
  ((0x47, 0x04), "Asynchronous information protection error detected");
  ((0x47, 0x05), "Protocol service CRC error");
  ((0x47, 0x06), "PHY test function in progress");
  ((0x48, 0x00), "Initiator detected error message received");
  ((0x49, 0x00), "Invalid message error");
  ((0x4A, 0x00), "Command phase error");
  ((0x4B, 0x00), "Data phase error");
  ((0x4B, 0x01), "Invalid target port transfer tag received");
  ((0x4B, 0x02), "Too much write data");
  ((0x4B, 0x03), "ACK/NAK timeout");
  ((0x4B, 0x04), "NAK received");
  ((0x4B, 0x05), "Data offset error");
  ((0x4B, 0x06), "Initiator response timeout");
  ((0x4B, 0x07), "Connection lost");
  ((0x4B, 0x08), "Data-in buffer overflow, data buffer size");
  ((0x4B, 0x09), "Data-in buffer overflow, data buffer descriptor area");
  ((0x4B, 0x0A), "Data-in buffer error");
  ((0x4B, 0x0B), "Data-out buffer overflow, data buffer size");
  ((0x4B, 0x0C), "Data-out buffer overflow, data buffer descriptor area");
  ((0x4B, 0x0D), "Data-out buffer error");
  ((0x4B, 0x0E), "PCIe fabric error");
  ((0x4B, 0x0F), "PCIe completion timeout");
  ((0x4B, 0x10), "PCIe completer abort");
  ((0x4B, 0x11), "PCIe poisoned TLP received");
  ((0x4B, 0x12), "PCIe ECRC check failed");
  ((0x4B, 0x13), "PCIe unsupported request");
  ((0x4B, 0x14), "PCIe ACS violation");
  ((0x4B, 0x15), "PCIe TLP prefix blocked");
  ((0x4C, 0x00), "Logical unit failed self-configuration");
  ((0x55, 0x00), "System resource failure");
  ((0x55, 0x01), "System buffer full");
  ((0x55, 0x03), "Insufficient resources");
  ((0x55, 0x0B), "Insufficient power for operation");
  ((0x5B, 0x00), "Log exception");
  ((0x5B, 0x01), "Threshold condition met");
  ((0x5B, 0x02), "Log counter at maximum");
  ((0x5B, 0x03), "Log list codes exhausted");
  ((0x5E, 0x00), "Low power condition on");
  ((0x5E, 0x01), "Idle condition activated by timer");
  ((0x5E, 0x02), "Standby condition activated by timer");
  ((0x5E, 0x03), "Idle condition activated by command");
  ((0x5E, 0x04), "Standby condition activated by command");
  ((0x5D, 0x00), "Failure prediction threshold exceeded");
  ((0x5D, 0x01), "Media failure prediction threshold exceeded");
  ((0x5D, 0x02), "Logical unit failure prediction threshold exceeded");
  ((0x5D, 0x03), "Spare area exhaustion prediction threshold exceeded");
  ((0x5D, 0x10), "Hardware impending failure, general hard drive failure");
  ((0x5D, 0x11), "Hardware impending failure, drive error rate too high");
  ((0x5D, 0x12), "Hardware impending failure, data error rate too high");
  ((0x5D, 0x13), "Hardware impending failure, seek error rate too high");
  ((0x5D, 0x14), "Hardware impending failure, too many block reassigns");
  ((0x5D, 0x15), "Hardware impending failure, access times too high");
  ((0x5D, 0x16), "Hardware impending failure, start unit times too high");
  ((0x5D, 0x17), "Hardware impending failure, channel parametrics");
  ((0x5D, 0x18), "Hardware impending failure, controller detected");
  ((0x5D, 0x19), "Hardware impending failure, throughput performance");
  ((0x5D, 0x1A), "Hardware impending failure, seek time performance");
  ((0x5D, 0x1B), "Hardware impending failure, spin-up retry count");
  ((0x5D, 0x1C), "Hardware impending failure, drive calibration retry count");
  ((0x67, 0x00), "Configuration failure");
  ((0x68, 0x00), "Logical unit not configured");
  ((0x69, 0x00), "Data loss on logical unit");
  ((0x6B, 0x00), "State change has occurred");
  ((0x6B, 0x01), "A redundancy level got better");
  ((0x6B, 0x02), "A redundancy level got worse");
  ((0x6C, 0x00), "Rebuild failure occurred");
  ((0x6D, 0x00), "Recalculate failure occurred")
].

Definition SCSI_ASC_ASCQ_LABELS : pair_table string := ASC_LABELS_LOW ++ ASC_LABELS_HIGH.

(** status labels *)
Definition SCSI_STATUS_LABELS : text_table string := [
  ("GOOD", "GOOD");
  ("CHECK CONDITION", "CHECK CONDITION");
  ("CONDITION MET", "CONDITION MET");
  ("BUSY", "BUSY");
  ("RESERVATION CONFLICT", "RESERVATION CONFLICT");
  ("TASK SET FULL", "TASK SET FULL");
  ("ACA ACTIVE", "ACA ACTIVE");
  ("TASK ABORTED", "TASK ABORTED")
].

(** status codes *)
Definition SCSI_STATUS_CODES : table string := [
  (0x00, "GOOD");
  (0x02, "CHECK CONDITION");
  (0x04, "CONDITION MET");
  (0x08, "BUSY");
  (0x18, "RESERVATION CONFLICT");
  (0x28, "TASK SET FULL");
  (0x30, "ACA ACTIVE");
  (0x40, "TASK ABORTED")
].

(** log pages *)
Definition LOG_SENSE_PAGE_NAMES : table string := [
  (0x00, "Supported Log Pages");
  (0x02, "Write Error Counter");
  (0x03, "Read Error Counter");
  (0x05, "Verify Error Counter");
  (0x0D, "Temperature");
  (0x0E, "Start-Stop Cycle Counter");
  (0x10, "Self-Test Results");
  (0x15, "Background Scan Results");
  (0x18, "Protocol-Specific Port");
  (0x19, "General Statistics and Performance");
  (0x1A, "Power Condition Transitions");
  (0x2F, "Informational Exceptions");
  (0x3F, "All Log Pages")
].

(** page control values *)
Definition LOG_SENSE_PAGE_CONTROL_LABELS : table string := [
  (0x00, "Current threshold values");
  (0x01, "Current cumulative values");
  (0x02, "Default threshold values");
  (0x03, "Default cumulative values")
].

(** what a link-layer sense code means *)
Definition LINK_SENSE_DESCRIPTIONS : pair_table string := [
  ((0x4B, 0x04), "The other end of a SAS link rejected a frame because it arrived with a bad CRC, an invalid dword or an ERROR (SPL-4 6.20.3.1). A disk returns this code when a frame it sent was rejected and it stopped resending it (SPL-4 8.2.4). It does not say which link or hop on the path corrupted the frame.");
  ((0x4B, 0x03), "A frame got neither ACK nor NAK within the 1 ms a receiver is allowed (SPL-4 6.20.3.1). The sender closed the connection, then resent the frame or aborted the command (SPL-4 8.2.4). It does not say where the frame or its reply was lost.");
  ((0x4B, 0x06), "The disk waited past its initiator response timeout (SPL-4 9.2.7.4) for the next frame from the host, such as write data, and aborted the command. It does not say which side or link stalled.");
  ((0x47, 0x03), "A transferred information unit failed its CRC check. For a SATA disk behind a SAS HBA, this is how the disk's own ATA INTERFACE CRC error is reported (SAT-4 table 162); compare its Interface CRC Errors count in SMART details. It does not say which cable or connector.")
].
