(* ===== verification/Scsi.v ===== *)
(** * SCSI commands, sense data and status

    [app/services/sas_diagnostics/scsi.py]: decoding of CDB, sense and status
    messages.  The tables are in [ScsiTables]; each function returns the dict
    the source builds, key by key. *)

From S2P Require Import Prelude PyStr PyVal Regex SasCommon ScsiTables.
From Stdlib Require Import String Ascii.
#[local] Open Scope string_scope.
#[local] Open Scope Z_scope.

Definition source_of (nm url : string) : pydict := [("name", PStr nm); ("url", PStr url)].
Definition T10_OPCODE_SOURCE : pydict :=
  source_of "INCITS T10 SCSI Operation Codes numeric list" "https://www.t10.org/lists/op-num.htm".
Definition T10_ASC_ASCQ_SOURCE : pydict :=
  source_of "INCITS T10 SCSI ASC/ASCQ numeric list" "https://www.t10.org/lists/asc-num.htm".
Definition T10_LOG_SENSE_SOURCE : pydict :=
  source_of "INCITS T10 SPC/SBC LOG SENSE page assignments" "https://www.t10.org/lists/1spc-lst.htm".
Definition T10_STATUS_SOURCE : pydict :=
  source_of "INCITS T10 SCSI status codes list" "https://www.t10.org/lists/2status.htm".
Definition KERNEL_MESSAGE_SOURCE : pydict :=
  [("name", PStr "FreeBSD CAM/MPR kernel message"); ("url", PNone)].

(** [opcode in SCSI_SERVICE_ACTION_OPCODES] *)
Definition service_action_opcode (opcode : Z) : bool :=
  existsb (λ row, fst (fst row) =? opcode) SCSI_SERVICE_ACTION_NAMES
  || existsb (Z.eqb opcode) [0x9D; 0x9E; 0x9F; 0xA3; 0xA4; 0xA9; 0xAB].

Definition phy_log_parameter (code nm : string) : pyval :=
  PDict [("code", PStr code); ("name", PStr nm)].
Definition SAS_PHY_LOG_PARAMETERS : pyval := PList [
  phy_log_parameter "0x0001" "Invalid dword count";
  phy_log_parameter "0x0002" "Running disparity error count";
  phy_log_parameter "0x0003" "Loss of dword synchronization count";
  phy_log_parameter "0x0004" "PHY reset problem count"
].

(** ** Bytes of a CDB *)

(** [_int_from_bytes] *)
Definition int_from_bytes (values : list Z) : Z :=
  foldl (λ result value, Z.lor (Z.shiftl result 8) value) 0 values.

(** [l[a:b]] *)
Definition span (a b : nat) (l : list Z) : list Z := take (b - a) (drop a l).
(** [l[i]] where [i] is within the list *)
Definition nth_byte (i : nat) (l : list Z) : Z := nth i l 0.
Definition at_least (n : nat) (l : list Z) : bool := Nat.leb n (List.length l).
Definition z_in (z : Z) (l : list Z) : bool := existsb (Z.eqb z) l.

(** [_decode_cdb_address] *)
Definition decode_cdb_address (cdb : list Z) : pydict :=
  let address lba blocks := [("lba", PInt lba); ("transfer_blocks", PInt blocks)] in
  if at_least 16 cdb && z_in (nth_byte 0 cdb) [0x88; 0x8A; 0x8E; 0x8F; 0x91; 0x93] then
    address (int_from_bytes (span 2 10 cdb)) (int_from_bytes (span 10 14 cdb))
  else if at_least 12 cdb && z_in (nth_byte 0 cdb) [0xA8; 0xAA; 0xAE; 0xAF] then
    address (int_from_bytes (span 2 6 cdb)) (int_from_bytes (span 6 10 cdb))
  else if at_least 10 cdb && z_in (nth_byte 0 cdb) [0x28; 0x2A; 0x2E; 0x2F; 0x35; 0x41] then
    address (int_from_bytes (span 2 6 cdb)) (int_from_bytes (span 7 9 cdb))
  else if at_least 6 cdb && z_in (nth_byte 0 cdb) [0x08; 0x0A] then
    let transfer_blocks := if nth_byte 4 cdb =? 0 then 256 else nth_byte 4 cdb in
    address (Z.lor (Z.lor (Z.shiftl (Z.land (nth_byte 1 cdb) 0x1F) 16) (Z.shiftl (nth_byte 2 cdb) 8))
               (nth_byte 3 cdb)) transfer_blocks
  else [].

(** [_decode_cdb_lengths] *)
Definition decode_cdb_lengths (cdb : list Z) : pydict :=
  let allocation v := [("allocation_length", PInt v)] in
  let parameters v := [("parameter_list_length", PInt v)] in
  match cdb with
  | [] => []
  | opcode :: _ =>
      if (opcode =? 0x12) && at_least 5 cdb then allocation (int_from_bytes (span 3 5 cdb))
      else if z_in opcode [0x03; 0x1A] && at_least 5 cdb then allocation (nth_byte 4 cdb)
      else if z_in opcode [0x15] && at_least 5 cdb then parameters (nth_byte 4 cdb)
      else if z_in opcode [0x4C; 0x55; 0x5F] && at_least 9 cdb then
        parameters (int_from_bytes (span 7 9 cdb))
      else if z_in opcode [0x42] && at_least 9 cdb then parameters (int_from_bytes (span 7 9 cdb))
      else if z_in opcode [0x4D; 0x5A; 0x5E] && at_least 9 cdb then
        allocation (int_from_bytes (span 7 9 cdb))
      else if (opcode =? 0xA0) && at_least 10 cdb then allocation (int_from_bytes (span 6 10 cdb))
      else if z_in opcode [0x84] && at_least 14 cdb then allocation (int_from_bytes (span 10 14 cdb))
      else if (opcode =? 0xA3) && at_least 10 cdb then allocation (int_from_bytes (span 6 10 cdb))
      else if (opcode =? 0xA4) && at_least 10 cdb then parameters (int_from_bytes (span 6 10 cdb))
      else if (opcode =? 0x9E) && at_least 14 cdb
              && z_in (Z.land (nth_byte 1 cdb) 0x1F) [0x10; 0x12] then
        allocation (int_from_bytes (span 10 14 cdb))
      else []
  end.

(** [_decode_log_sense_cdb] *)
Definition decode_log_sense_cdb (cdb : list Z) : pydict :=
  if negb (at_least 3 cdb) then []
  else
    let page_code := Z.land (nth_byte 2 cdb) 0x3F in
    let page_control := Z.land (Z.shiftr (nth_byte 2 cdb) 6) 0x03 in
    let decoded := [
      ("log_page_code", PStr ("0x" +:+ py_hex 2 page_code));
      ("log_page", PStr (match t_lookup page_code LOG_SENSE_PAGE_NAMES with
                         | Some nm => nm | None => "Unknown log page" end));
      ("log_page_control", PStr ("0x" +:+ py_hex 1 page_control));
      ("log_page_control_label", of_opt (t_lookup page_control LOG_SENSE_PAGE_CONTROL_LABELS));
      ("log_save_parameters", PBool (negb (Z.land (nth_byte 1 cdb) 0x01 =? 0)));
      ("log_page_source", PDict T10_LOG_SENSE_SOURCE)
    ] in
    let decoded :=
      if at_least 4 cdb
      then d_set "log_subpage_code" (PStr ("0x" +:+ py_hex 2 (nth_byte 3 cdb))) decoded
      else decoded in
    if page_code =? 0x18 then d_set "sas_phy_log_concepts" SAS_PHY_LOG_PARAMETERS decoded else decoded.

(** ** Families of operations *)

(** [_cdb_direction] *)
Definition cdb_direction (operation : string) : string :=
  let upper := py_upper operation in
  if py_startswith upper "WRITE" || py_contains " WRITE" upper then "write"
  else if py_startswith upper "READ" || py_contains " READ" upper then "read"
  else "other".

(** [_cdb_fault_family] *)
Definition cdb_fault_family (operation : string) : string :=
  let upper := py_upper operation in
  if py_startswith upper "READ CAPACITY" then "capacity_query"
  else
    let direction := cdb_direction operation in
    if String.eqb direction "write" then "write_io"
    else if String.eqb direction "read" then "read_io"
    else if String.eqb upper "LOG SENSE" then "log_sense"
    else if py_contains "PERSISTENT RESERVE" upper
         || is_in upper ["READ KEYS"; "READ RESERVATION"; "REPORT CAPABILITIES"; "READ FULL STATUS";
              "REGISTER"; "RESERVE"; "RELEASE"; "CLEAR"; "PREEMPT"; "PREEMPT AND ABORT";
              "REGISTER AND IGNORE EXISTING KEY"; "REGISTER AND MOVE"] then "maintenance"
    else if py_contains "DIAGNOSTIC" upper || py_contains "ENCLOSURE" upper then "ses_enclosure"
    else if py_contains "MAINTENANCE" upper then "maintenance"
    else "scsi_command".

(** ** CDB messages *)

Definition op_char (c : ascii) : bool := is_upper_ascii c || is_decimal c || one_of " _/-" c.
Definition upper_or_digit (c : ascii) : bool := is_upper_ascii c || is_decimal c.
Definition CDB_PATTERN : regex := seq [
  RGroup "operation" (seq [RChar is_upper_ascii; RStar op_char;
    ROpt (seq [lit "("; plus upper_or_digit; lit ")"])]);
  lit "."; plus is_space; lit "CDB:"; plus is_space;
  RGroup "cdb" (plus (λ c, is_hex c || char_is " " c))
].

(** The tokens that are two hex digits, as numbers. *)
Definition hex_byte (token : string) : option Z :=
  match re_fullmatch (times 2 is_hex) token with
  | Some _ => py_int 16 token
  | None => None
  end.

Definition hex_text (value : Z) : string := "0x" +:+ py_hex 2 value.

(** The dict returned for the bytes of a message. *)
Definition cdb_report (reported_operation : string) (cdb : list Z) : pydict :=
  let opcode := head cdb in
  let table_name := match opcode with Some o => t_lookup o SCSI_CDB_OPCODE_NAMES | None => None end in
  let operation_from_table := bool_decide (is_Some table_name) in
  let operation := match table_name with Some nm => nm | None => reported_operation end in
  let service_action :=
    match opcode with
    | Some o => if service_action_opcode o && at_least 2 cdb
                then Some (Z.land (nth_byte 1 cdb) 0x1F) else None
    | None => None
    end in
  let service_action_operation :=
    match opcode, service_action with
    | Some o, Some a => p_lookup (o, a) SCSI_SERVICE_ACTION_NAMES
    | _, _ => None
    end in
  let service_action_known := bool_decide (is_Some service_action_operation) in
  let operation :=
    match service_action_operation with Some nm => nm | None => operation end in
  let family := cdb_fault_family operation in
  let '(confidence, decoder_note) :=
    if bool_decide (is_Some service_action) && negb service_action_known then
      ("standard-partial",
       Some "Opcode is standard, but this service action is not in the current local lookup table.")
    else if negb operation_from_table then
      ("observed",
       Some "Kernel message supplied the operation name; opcode is not in the current local standards table.")
    else ("standard", None) in
  let decoded := [
    ("label", PStr operation);
    ("family", PStr family);
    ("operation", PStr operation);
    ("reported_operation", PStr reported_operation);
    ("direction", PStr (cdb_direction operation));
    ("cdb_hex", PStr (py_join " " (py_hex 2 <$> cdb)));
    ("byte_count", PInt (Z.of_nat (List.length cdb)));
    ("likely_layer", PStr (fault_family_likely_layer family));
    ("description", PStr (operation +:+ " was active when the path error was reported."));
    ("decode_confidence", PStr confidence);
    ("decode_source", PStr (if operation_from_table then "t10_scsi_operation_codes" else "kernel_message"));
    ("source_attribution", PDict (if operation_from_table then T10_OPCODE_SOURCE else KERNEL_MESSAGE_SOURCE))
  ] in
  let decoded := match decoder_note with
                 | Some note => d_set "decoder_note" (PStr note) decoded | None => decoded end in
  let decoded := match opcode with
                 | Some o => d_set "opcode" (PStr (hex_text o)) decoded | None => decoded end in
  let decoded := match service_action with
                 | Some a =>
                     let decoded := d_set "service_action" (PStr (hex_text a)) decoded in
                     if service_action_known
                     then d_set "service_action_label" (PStr operation) decoded else decoded
                 | None => decoded
                 end in
  let decoded := d_update decoded (decode_cdb_address cdb) in
  let decoded := d_update decoded (decode_cdb_lengths cdb) in
  if bool_decide (opcode = Some 0x4D) then d_update decoded (decode_log_sense_cdb cdb) else decoded.

Definition decode_scsi_cdb_message (message : string) : pydict :=
  match re_search CDB_PATTERN message with
  | None => []
  | Some m =>
      cdb_report (py_strip (group_text "operation" m)) (omap hex_byte (py_split (group_text "cdb" m)))
  end.

(** ** Sense data *)

Definition parse_asc_ascq (value : string) : option (Z * Z) :=
  match py_split_once "," value with
  | None => None
  | Some (a, b) =>
      match py_int 16 (py_strip a), py_int 16 (py_strip b) with
      | Some asc, Some ascq => Some (asc, ascq)
      | _, _ => None
      end
  end.

(** [_sense_fault_family], by additional sense code *)
Definition asc_fault_family (asc ascq : Z) : option string :=
  if asc =? 0x03 then Some "write_error"
  else if asc =? 0x04 then
    (if z_in ascq [0x0A; 0x0B; 0x0C] then Some "device_path_exception"
     else if z_in ascq [0x20; 0x21; 0x22] then Some "target_failure"
     else Some "target_failure")
  else if asc =? 0x08 then Some "logical_unit_communication"
  else if asc =? 0x09 then Some "target_failure"
  else if asc =? 0x0B then
    (if ascq =? 0x02 then Some "enclosure_warning" else Some "device_path_exception")
  else if asc =? 0x0C then Some "write_error"
  else if asc =? 0x10 then Some "protection_error"
  else if asc =? 0x11 then Some "read_error"
  else if asc =? 0x14 then Some "device_path_exception"
  else if z_in asc [0x15; 0x16] then Some "target_failure"
  else if z_in asc [0x17; 0x18] then Some "recovered_data"
  else if asc =? 0x19 then Some "medium_format"
  else if asc =? 0x1B then Some "sas_protocol"
  else if asc =? 0x27 then Some "write_protect"
  else if z_in asc [0x28; 0x29; 0x2A; 0x2F; 0x6B] then
    (if (asc =? 0x29) && (ascq =? 0x07) then Some "link_loss"
     else if (asc =? 0x29) && z_in ascq [0x02; 0x03; 0x04] then Some "bus_reset"
     else if (asc =? 0x29) && z_in ascq [0x05; 0x06] then Some "sas_protocol"
     else if (asc =? 0x2A) && (ascq =? 0x07) then Some "device_path_exception"
     else Some "unit_attention")
  else if z_in asc [0x31; 0x32] then Some "medium_format"
  else if z_in asc [0x34; 0x35] then Some "ses_enclosure"
  else if asc =? 0x3E then (if ascq =? 0x02 then Some "timeout" else Some "target_failure")
  else if asc =? 0x3F then Some "unit_attention"
  else if z_in asc [0x40; 0x41; 0x42; 0x44] then Some "target_failure"
  else if z_in asc [0x45; 0x46; 0x47; 0x48; 0x49; 0x4A] then Some "sas_protocol"
  else if asc =? 0x4B then
    (if z_in ascq [0x03; 0x06; 0x0F] then Some "timeout"
     else if ascq =? 0x07 then Some "link_loss"
     else if (0x08 <=? ascq) && (ascq <=? 0x0D) then Some "data_buffer_error"
     else if (0x0E <=? ascq) && (ascq <=? 0x15) then Some "pcie_fabric"
     else Some "sas_protocol")
  else if asc =? 0x4C then Some "target_failure"
  else if asc =? 0x55 then Some "device_path_exception"
  else if asc =? 0x5B then Some "log_exception"
  else if asc =? 0x5D then Some "failure_prediction"
  else if asc =? 0x5E then Some "power_condition"
  else if z_in asc [0x67; 0x68; 0x69; 0x6C; 0x6D] then Some "target_failure"
  else None.

(** ... and, for the remaining codes, by the words of the message. *)
Definition sense_fault_family (reason sense_key : string) (asc : option (Z * Z)) : string :=
  let lowered := py_lower (reason +:+ " " +:+ sense_key) in
  let by_words :=
    if bool_decide (asc = Some (0x4B, 0x03)) then "timeout"
    else if bool_decide (asc = Some (0x4B, 0x04)) then "sas_protocol"
    else if bool_decide (asc = Some (0x4B, 0x07)) then "link_loss"
    else if py_contains "nak" lowered then "sas_protocol"
    else if py_contains "connection lost" lowered then "link_loss"
    else if py_contains "timeout" lowered then "timeout"
    else if py_contains "bus reset" lowered || py_contains "reset occurred" lowered then "bus_reset"
    else if py_contains "aborted" lowered then "aborted_command"
    else "scsi_sense" in
  match asc with
  | Some (code, ascq) => match asc_fault_family code ascq with Some f => f | None => by_words end
  | None => by_words
  end.

(** [_sense_description] *)
Definition sense_description (label family : string) (asc : option (Z * Z)) : string :=
  let fam f := String.eqb family f in
  match (match asc with Some a => p_lookup a LINK_SENSE_DESCRIPTIONS | None => None end) with
  | Some d => d
  | None =>
      if fam "sas_protocol" then label +:+ " is a SAS protocol/link symptom, often path or signal related."
      else if fam "link_loss" then "The OS reported that the link to this target was lost."
      else if fam "timeout" then "The command waited too long for SAS acknowledgement or completion."
      else if fam "bus_reset" then "The bus was reset while recovering from transport errors."
      else if fam "logical_unit_communication" then
        label +:+ " indicates the target stopped responding cleanly on the communication path."
      else if fam "target_failure" then
        label +:+ " points at a target/device-side failure reported through SCSI sense data."
      else if fam "medium_format" then
        label +:+ " points at target medium formatting or defect-list management."
      else if fam "failure_prediction" then label +:+ " is a target-reported health prediction condition."
      else if fam "recovered_data" then
        label +:+ " means the target recovered data after media or correction work."
      else if fam "write_protect" then
        label +:+ " means the target refused the command because write protection is active."
      else if fam "log_exception" then
        label +:+ " points at a SCSI diagnostic log threshold or counter condition."
      else if fam "power_condition" then label +:+ " reports a target power-condition transition."
      else if fam "unit_attention" then label +:+ " is a SCSI target state-change notification."
      else if fam "enclosure_warning" then
        label +:+ " is an enclosure/SES health warning reported through SCSI sense data."
      else if fam "pcie_fabric" then
        label +:+ " is a host PCIe fabric or endpoint error surfaced through SCSI sense data."
      else if fam "data_buffer_error" then
        label +:+ " indicates a data buffer transfer problem during the SCSI command."
      else if fam "write_error" then
        label +:+ " indicates the target reported a write-path error through SCSI sense data."
      else if fam "read_error" then
        label +:+ " indicates the target reported a read-path error through SCSI sense data."
      else if fam "ses_enclosure" then
        label +:+ " came from an enclosure services or SES-related sense condition."
      else if fam "protection_error" then
        label +:+ " indicates block protection metadata did not validate."
      else "The target returned SCSI sense data: " +:+ label +:+ "."
  end.

(** [a or b or ...] on optional texts, where the empty text is false *)
Definition text_or (o : option string) (s : string) : string :=
  match o with Some t => if String.eqb t "" then s else t | None => s end.

Definition decode_scsi_sense_event (event : pydict) : pydict :=
  let reason := py_strip (str_or (py_get "reason" event) "") in
  let sense_key := py_upper (str_or (py_or (py_get "sense_key" event) (py_get "sense" event)) "") in
  let asc := py_lower (str_or (py_get "asc" event) "") in
  let asc_tuple := parse_asc_ascq asc in
  let asc_label := match asc_tuple with Some a => p_lookup a SCSI_ASC_ASCQ_LABELS | None => None end in
  let family := sense_fault_family reason sense_key asc_tuple in
  let sense_label := d_lookup sense_key SCSI_SENSE_KEY_LABELS in
  let has_asc_label := bool_decide (is_Some asc_label) in
  let label := text_or (Some reason) (text_or asc_label (text_or sense_label "SCSI sense event")) in
  let confidence :=
    if has_asc_label then "standard"
    else if negb (String.eqb reason "") || bool_decide (is_Some sense_label) then "observed"
    else "unconfirmed" in
  let unlisted := bool_decide (is_Some asc_tuple) && negb has_asc_label in
  let label := if unlisted && String.eqb reason "" then "Unconfirmed ASC/ASCQ " +:+ asc else label in
  let decoded := [
    ("label", PStr label);
    ("family", PStr family);
    ("sense_key", PStr sense_key);
    ("sense_label", of_opt sense_label);
    ("asc", PStr asc);
    ("asc_label", of_opt asc_label);
    ("likely_layer", PStr (fault_family_likely_layer family));
    ("description", PStr (sense_description label family asc_tuple));
    ("decode_confidence", PStr confidence);
    ("decode_source", PStr (if has_asc_label then "t10_scsi_asc_ascq" else "kernel_message"));
    ("source_attribution", PDict (if has_asc_label then T10_ASC_ASCQ_SOURCE else KERNEL_MESSAGE_SOURCE))
  ] in
  if unlisted then
    d_set "decoder_note"
      (PStr "ASC/ASCQ was observed in kernel output but is not in the current local lookup table.") decoded
  else decoded.

(** ** Status *)

(** [_display_scsi_status_label] *)
Definition display_scsi_status_label (label : string) : string :=
  py_join " " ((λ token, if String.eqb token "ACA" then "ACA" else py_title token) <$> py_split label).

Definition STATUS_PATTERN : regex := seq [
  ROpt (lit "0x"); RGroup "value" (between 1 2 is_hex); ROpt (lit "h")
].

Definition decode_scsi_status_value (value : string) : pydict :=
  let raw_status := py_strip value in
  if String.eqb raw_status "" then [
    ("label", PStr "SCSI status event");
    ("family", PStr "scsi_status");
    ("likely_layer", PStr "SCSI target status");
    ("description", PStr "The target returned a SCSI status response for this command.")
  ]
  else
    let normalized := py_replace_char "-" " " (py_replace_char "_" " " (py_upper raw_status)) in
    let status_code :=
      match re_fullmatch STATUS_PATTERN raw_status with
      | Some m => py_int 16 (group_text "value" m)
      | None => None
      end in
    let normalized :=
      match status_code with
      | Some code => match t_lookup code SCSI_STATUS_CODES with Some nm => nm | None => normalized end
      | None => normalized
      end in
    match d_lookup normalized SCSI_STATUS_LABELS with
    | Some label =>
        let family := if String.eqb label "TASK ABORTED" then "aborted_command" else "scsi_status" in
        let description :=
          if String.eqb label "CHECK CONDITION" then
            "The target returned Check Condition; following sense data should explain the failure."
          else if is_in label ["BUSY"; "TASK SET FULL"] then
            "The target or command queue could not accept the command at that moment."
          else if String.eqb label "RESERVATION CONFLICT" then
            "The command conflicted with a SCSI reservation or persistent reservation state."
          else if String.eqb label "TASK ABORTED" then "The target reported that the task was aborted."
          else "The target returned a standard SCSI status response for this command." in
        let display_label := display_scsi_status_label label in
        let decoded := [
          ("label", PStr ("SCSI status: " +:+ display_label));
          ("family", PStr family);
          ("likely_layer", PStr (if String.eqb family "scsi_status" then "SCSI target status"
                                 else fault_family_likely_layer family));
          ("description", PStr description);
          ("scsi_status", PStr display_label);
          ("decode_confidence", PStr "standard");
          ("decode_source", PStr "t10_scsi_status");
          ("source_attribution", PDict T10_STATUS_SOURCE)
        ] in
        match status_code with
        | Some code => d_set "scsi_status_code" (PStr (hex_text code)) decoded
        | None => decoded
        end
    | None => [
        ("label", PStr ("SCSI status: " +:+ raw_status));
        ("family", PStr "scsi_status");
        ("likely_layer", PStr "SCSI target status");
        ("description", PStr
          "The target returned a SCSI status response that is not in the current local status-code table.");
        ("scsi_status", PStr raw_status);
        ("decode_confidence", PStr "observed");
        ("decode_source", PStr "kernel_message");
        ("source_attribution", PDict KERNEL_MESSAGE_SOURCE);
        ("decoder_note", PStr
          "Kernel message supplied the SCSI status text; value is not in the current local status-code table.")
      ]
    end.
