(* ===== verification/LsiLoginfo.v ===== *)
(** * Broadcom/LSI loginfo words

    [app/services/sas_diagnostics/lsi_loginfo.py]: [decode_lsi_loginfo].  The
    function is split where the source assigns its local variables: the table
    lookups ([loginfo_fields], whose record holds those variables) and the dict
    it builds from them. *)

From S2P Require Import Prelude PyStr PyVal Regex SasCommon LsiTables.
From Stdlib Require Import String Ascii.
#[local] Open Scope string_scope.
#[local] Open Scope Z_scope.

Definition LSI_LOGINFO_SOURCE : pydict := [
  ("name", PStr "baruch/lsi_decode_loginfo");
  ("url", PStr "https://github.com/baruch/lsi_decode_loginfo");
  ("license", PStr "MIT")
].

(** ** The fields of the word *)

Definition type_bits (value : Z) : Z := Z.land value 0xF0000000.
Definition origin_bits (value : Z) : Z := Z.land value 0x0F000000.
Definition code_bits (value : Z) : Z := Z.land value 0x00FF0000.
Definition sub_code_bits (value : Z) : Z := Z.land value 0x0000FF00.
Definition sub_detail_bits (value : Z) : Z := Z.land value 0x000000FF.
Definition low_16_bits (value : Z) : Z := Z.land value 0x0000FFFF.

(** [unparsed &= ~mask] *)
Definition clear_bits (mask unparsed : Z) : Z := Z.land unparsed (Z.lnot mask).

(** A row of a sub-code or detail table, or three [None]s. *)
Record entry := mkEntry {
  e_symbol : option string;
  e_label : option string;
  e_family : option string;
}.
Definition no_entry : entry := mkEntry None None None.
Definition entry_of (row : option (string * string * string)) : entry :=
  match row with Some (sy, la, fa) => mkEntry (Some sy) (Some la) (Some fa) | None => no_entry end.
Definition found (e : entry) : bool := bool_decide (is_Some (e_symbol e)).

(** The local variables of [decode_lsi_loginfo]. *)
Record loginfo := mkLoginfo {
  type_label : string;
  type_key : string;
  origin_label : string;
  origin_key : string;
  decode_path : string;
  code_symbol : option string;
  code_label : string;
  code_family : string;
  code_note : string;
  sub : entry;
  detail : entry;
  unparsed : Z;
}.

Definition code_entry (row : option (string * string * string * string)) (unknown : string) :
    option string * string * string * string :=
  match row with
  | Some (sy, la, fa, no) => (Some sy, la, fa, no)
  | None => (None, unknown, "controller_terminated_io", "")
  end.

(** A detail looked up by the low 16 bits, and what it leaves unparsed. *)
Definition low_detail (t : table (string * string * string)) (value u : Z) : entry * Z :=
  let d := entry_of (t_lookup (low_16_bits value) t) in
  (d, if found d then clear_bits 0x0000FFFF u else u).
Definition byte_detail (t : table (string * string * string)) (value u : Z) : entry * Z :=
  let d := entry_of (t_lookup (sub_detail_bits value) t) in
  (d, if found d then clear_bits 0x000000FF u else u).

(** The sub-code and detail of a physical-layer word. *)
Definition pl_details (value u : Z) : entry * entry * Z :=
  let code := code_bits value in
  if existsb (Z.eqb code) [0x00010000; 0x00110000; 0x00120000] then
    let s := entry_of (t_lookup (sub_code_bits value) LSI_SAS_PL_SUBCODES) in
    let u := if found s then clear_bits 0x0000FF00 u else u in
    if (sub_code_bits value =? 0x00000100) && negb (sub_detail_bits value =? 0) then
      let '(d, u) := byte_detail LSI_SAS_PL_OPEN_FAILURE_DETAILS value u in (s, d, u)
    else if sub_code_bits value =? 0x00000E00 then
      let '(d, u) := byte_detail LSI_SAS_PL_DISCOVERY_SATA_DETAILS value u in (s, d, u)
    else (s, no_entry, u)
  else if code =? 0x000F0000 then
    let '(d, u) := low_detail LSI_SAS_PL_CONFIG_ERRORS value u in (no_entry, d, u)
  else if code =? 0x00200000 then
    let '(d, u) := low_detail LSI_SAS_PL_ENCLOSURE_MGMT_ERRORS value u in (no_entry, d, u)
  else (no_entry, no_entry, u).

(** The detail of a controller (IOP) word. *)
Definition iop_detail (value u : Z) : entry * Z :=
  let code := code_bits value in
  if code =? 0x00010000 then low_detail LSI_SAS_IOP_BOOT_DETAILS value u
  else if code =? 0x00030000 then low_detail LSI_SAS_IOP_INVALID_PAGE_DETAILS value u
  else if code =? 0x00060000 then low_detail LSI_SAS_IOP_ENCLOSURE_MGMT_DETAILS value u
  else if code =? 0x00070000 then low_detail LSI_SAS_IOP_TARGET_DETAILS value u
  else (no_entry, u).

Definition loginfo_fields (value : Z) : loginfo :=
  let '(tlabel, tkey) :=
    match t_lookup (type_bits value) LSI_LOGINFO_TYPE_NAMES with
    | Some r => r | None => ("Unknown", "unknown") end in
  let '(olabel, okey) :=
    match t_lookup (origin_bits value) LSI_SAS_ORIGIN_NAMES with
    | Some r => r | None => ("Unknown", "unknown") end in
  let u := Z.land value 0x00FFFFFF in
  if String.eqb tkey "sas" && String.eqb okey "physical_layer" then
    let '(csym, clabel, cfam, cnote) :=
      code_entry (t_lookup (code_bits value) LSI_SAS_PL_CODES) "Unknown SAS physical-layer code" in
    let '(s, d, u) := pl_details value (clear_bits 0x00FF0000 u) in
    mkLoginfo tlabel tkey olabel okey "sas_physical_layer" csym clabel cfam cnote s d u
  else if String.eqb tkey "sas" && String.eqb okey "iop" then
    let '(csym, clabel, cfam, cnote) :=
      code_entry (t_lookup (code_bits value) LSI_SAS_IOP_CODES) "Unknown SAS IOP code" in
    let '(d, u) := iop_detail value (clear_bits 0x00FF0000 u) in
    mkLoginfo tlabel tkey olabel okey "sas_iop" csym clabel cfam cnote no_entry d u
  else if String.eqb tkey "sas" && String.eqb okey "integrated_raid" then
    let '(csym, clabel, cfam) :=
      match t_lookup (Z.land value 0x00FFFFFF) LSI_SAS_IR_CODES with
      | Some (sy, la, fa) => (Some sy, la, fa)
      | None => (None, "Unknown integrated RAID code", "device_path_exception")
      end in
    mkLoginfo tlabel tkey olabel okey "sas_integrated_raid" csym clabel cfam "" no_entry no_entry
      (if bool_decide (is_Some csym) then 0 else u)
  else
    mkLoginfo tlabel tkey olabel okey "generic" None "Unknown code" "controller_terminated_io" ""
      no_entry no_entry u.

(** ** What is reported *)

(** [a or b] where both are text or [None] *)
Definition opt_or (a b : option string) : option string :=
  match a with Some s => if String.eqb s "" then b else Some s | None => b end.
Definition hex8 (z : Z) : string := "0x" +:+ py_hex 8 z.
(** [f"0x{z:08x}" if z else None] *)
Definition hex8_or_none (z : Z) : pyval := if z =? 0 then PNone else PStr (hex8 z).

Definition loginfo_family (i : loginfo) : string :=
  match opt_or (e_family (detail i)) (opt_or (e_family (sub i)) (Some (code_family i))) with
  | Some f => f | None => code_family i end.

Definition loginfo_label (i : loginfo) : string :=
  let label := "LSI " +:+ type_label i in
  let label := if String.eqb (origin_label i) "Unknown" then label
               else label +:+ " " +:+ origin_label i in
  let label := label +:+ " " +:+ code_label i in
  match opt_or (e_label (detail i)) (e_label (sub i)) with
  | Some d => if String.eqb d "" || String.eqb (py_lower d) (py_lower (code_label i)) then label
              else label +:+ ": " +:+ d
  | None => label
  end.

Definition loginfo_components (value : Z) (i : loginfo) : list string :=
  let components := [
    "type " +:+ type_label i;
    "origin " +:+ origin_label i;
    match opt_or (code_symbol i) None with Some s => s | None => "code " +:+ hex8 (code_bits value) end
  ] in
  let components := (components ++ option_list (e_symbol (sub i)))%list in
  let components := (components ++ option_list (e_symbol (detail i)))%list in
  let components :=
    match e_label (detail i) with
    | Some d => if String.eqb d "" || is_in d components then components else (components ++ [d])%list
    | None => components
    end in
  let components := if String.eqb (code_note i) "" then components
                    else (components ++ [code_note i])%list in
  if unparsed i =? 0 then components else (components ++ ["unparsed " +:+ hex8 (unparsed i)])%list.

Definition loginfo_confidence (i : loginfo) : string * option string :=
  if String.eqb (type_key i) "unknown" then
    ("unconfirmed", Some "Loginfo type is not in the current local LSI lookup table.")
  else if negb (String.eqb (type_key i) "sas") then
    ("unconfirmed",
     Some "Loginfo type is known, but the current local decoder only expands SAS loginfo entries.")
  else if String.eqb (origin_key i) "unknown" then
    ("unconfirmed", Some "SAS loginfo origin is not in the current local LSI lookup table.")
  else if negb (bool_decide (is_Some (code_symbol i))) then
    ("unconfirmed", Some "SAS loginfo code is not in the current local LSI lookup table.")
  else if negb (unparsed i =? 0) then
    ("vendor-reference-partial",
     Some "Reference code matched, but some low-order loginfo bits are not decoded by the current local table.")
  else ("vendor-reference", None).

(** [str(loginfo or "").strip().lower().removeprefix("0x")] *)
Definition raw_loginfo (word : string) : string :=
  py_removeprefix (py_lower (py_strip word)) "0x".
Definition is_hex_lower (c : ascii) : bool := is_decimal c || in_range 97 102 c.

(** The dict returned for a word of value [value]. *)
Definition loginfo_report (raw : string) (value : Z) : pydict :=
  let i := loginfo_fields value in
  let family := loginfo_family i in
  let '(confidence, decoder_note) := loginfo_confidence i in
  let decoded := [
    ("label", PStr (loginfo_label i));
    ("family", PStr family);
    ("likely_layer", PStr (fault_family_likely_layer family));
    ("description", PStr ("Decoded Broadcom/LSI loginfo " +:+ raw +:+ ": "
                          +:+ py_join ", " (loginfo_components value i) +:+ "."));
    ("loginfo", PStr raw);
    ("vendor", PStr "Broadcom/LSI");
    ("decode_confidence", PStr confidence);
    ("decode_source", PStr "baruch_lsi_decode_loginfo");
    ("source_attribution", PDict LSI_LOGINFO_SOURCE);
    ("lsi_loginfo", PDict [
      ("type", PStr (type_key i));
      ("type_label", PStr (type_label i));
      ("origin", PStr (origin_key i));
      ("origin_label", PStr (origin_label i));
      ("decode_path", PStr (decode_path i));
      ("code", PStr (hex8 (code_bits value)));
      ("code_symbol", of_opt (code_symbol i));
      ("code_label", PStr (code_label i));
      ("sub_code", hex8_or_none (sub_code_bits value));
      ("sub_code_symbol", of_opt (e_symbol (sub i)));
      ("sub_code_label", of_opt (e_label (sub i)));
      ("detail_code", hex8_or_none (sub_detail_bits value));
      ("detail_symbol", of_opt (e_symbol (detail i)));
      ("detail_label", of_opt (e_label (detail i)));
      ("unparsed", hex8_or_none (unparsed i))
    ])
  ] in
  match decoder_note with
  | Some note => d_set "decoder_note" (PStr note) decoded
  | None => decoded
  end.

Definition decode_lsi_loginfo (word : string) : option pydict :=
  let raw := raw_loginfo word in
  match re_fullmatch (plus is_hex_lower) raw, py_int 16 raw with
  | Some _, Some value => Some (loginfo_report raw value)
  | _, _ => None
  end.
