(* ===== verification/SasDecoder.v ===== *)
(** * Decoded kernel events and their summaries

    [app/services/sas_diagnostics/decoder.py]: decoding of one event, the
    bounded record made of it, and the summary that accumulates records.  An
    event is a dict whose values are text or [None], as the log parser builds
    it; the sets and counters of a summary are keyed by that text. *)

From S2P Require Import Prelude PyStr PyVal Regex SasCommon Scsi LsiLoginfo.
From Stdlib Require Import String Ascii.
#[local] Open Scope string_scope.
#[local] Open Scope Z_scope.

Definition DEFAULT_EVENT_TABLE_PAGE_SIZE : nat := 25.
Definition MAX_DIAGNOSTIC_TEXT_LENGTH : Z := 384.
Definition MAX_DIAGNOSTIC_COLLECTION_ITEMS : nat := 64.
Definition MAX_DIAGNOSTIC_NUMERIC_TOKEN_LENGTH : Z := 32.

Definition SCSI_STATUS_SEVERITIES : text_table string := [
  ("GOOD", "info");
  ("CHECK CONDITION", "warning");
  ("CONDITION MET", "info");
  ("BUSY", "warning");
  ("RESERVATION CONFLICT", "warning");
  ("TASK SET FULL", "warning");
  ("ACA ACTIVE", "warning");
  ("TASK ABORTED", "error")
].

Definition FREEBSD_ERRNO_SOURCE : pydict :=
  source_of "FreeBSD intro(2) errno list"
    "https://man.freebsd.org/cgi/man.cgi?apropos=0&manpath=freebsd&query=intro&sektion=2".
Definition FREEBSD_ERRNO_LABELS : table (string * string) := [(5, ("EIO", "Input/output error"))].

(** ** Bounding *)

(** [f"{s[: n - 3]}..."] for a text longer than [n] *)
Definition clip (n : Z) (s : string) : string :=
  if py_len s <=? n then s else py_take (n - 3) s +:+ "...".

Fixpoint bound_diagnostic_value (value : pyval) : pyval :=
  match value with
  | PStr s => PStr (clip MAX_DIAGNOSTIC_TEXT_LENGTH s)
  | PDict d =>
      PDict (take MAX_DIAGNOSTIC_COLLECTION_ITEMS
               ((λ kv, (fst kv, bound_diagnostic_value (snd kv))) <$> d))
  | PList l => PList (take MAX_DIAGNOSTIC_COLLECTION_ITEMS (bound_diagnostic_value <$> l))
  | _ => value
  end.

(** ** Decoding one event *)

(** [_message_value_after_colon] *)
Definition message_value_after_colon (message : string) : string :=
  match py_split_once ":" message with
  | None => py_strip message
  | Some (_, rest) => py_strip rest
  end.

(** [_decode_cam_status_event] *)
Definition decode_cam_status_event (message : string) : pydict :=
  let status := message_value_after_colon message in
  let lowered := py_lower status in
  let '(label, description) :=
    if String.eqb lowered "ccb request completed with an error" then
      ("CAM completed command with an error",
       "The FreeBSD CAM layer saw the CCB complete with a failed command status.")
    else if String.eqb lowered "scsi status error" then
      ("CAM reported SCSI status error",
       "The FreeBSD CAM layer reported that target SCSI status, not clean transport completion, drove the failure.")
    else
      (if String.eqb status "" then "CAM transport status" else "CAM status: " +:+ status,
       "The FreeBSD CAM layer reported a non-clean command status.") in
  [("label", PStr label);
   ("family", PStr "cam_error");
   ("likely_layer", PStr "OS CAM transport layer");
   ("description", PStr description);
   ("cam_status", if String.eqb status "" then PNone else PStr status)].

Definition CAM_ERROR_PATTERN : regex := seq [
  lit_i "Error"; plus is_space; RGroup "code" (plus is_decimal); RStar is_space; lit ",";
  RStar is_space; RGroup "state" (plus dot); RDollar
].

(** [_decode_cam_error_event] *)
Definition decode_cam_error_event (message : string) : pydict :=
  match re_search CAM_ERROR_PATTERN message with
  | None => [
      ("label", PStr (if String.eqb (py_strip message) "" then "CAM error"
                      else "CAM error: " +:+ py_strip message));
      ("family", PStr "cam_error");
      ("likely_layer", PStr "FreeBSD CAM transport layer");
      ("description", PStr "The FreeBSD CAM layer reported a command error.")
    ]
  | Some m =>
      let code_token := group_text "code" m in
      let state := py_strip (group_text "state" m) in
      if MAX_DIAGNOSTIC_NUMERIC_TOKEN_LENGTH <? py_len code_token then [
        ("label", PStr "CAM error: numeric code too long to decode");
        ("family", PStr "cam_error");
        ("likely_layer", PStr "FreeBSD CAM transport layer");
        ("description", PStr
          "The FreeBSD CAM layer reported a command error with an oversized numeric code.");
        ("cam_error_code_raw", PStr (py_take (MAX_DIAGNOSTIC_NUMERIC_TOKEN_LENGTH - 3) code_token +:+ "..."));
        ("cam_retry_state", bound_diagnostic_value (PStr state));
        ("decode_confidence", PStr "unconfirmed");
        ("decode_source", PStr "freebsd_cam_errno");
        ("source_attribution", PDict FREEBSD_ERRNO_SOURCE);
        ("decoder_note", PStr
          "CAM numeric error code was too long to decode safely; bounded raw evidence was retained.")
      ]
      else
        let code := match py_int 10 code_token with Some c => c | None => 0 end in
        let errno := t_lookup code FREEBSD_ERRNO_LABELS in
        let label_head := match errno with
                          | Some (nm, _) => "CAM " +:+ nm
                          | None => "CAM error " +:+ py_str_int code
                          end in
        let decoded := [
          ("label", PStr (label_head +:+ ": " +:+ state));
          ("family", PStr "cam_error");
          ("likely_layer", PStr "FreeBSD CAM transport layer");
          ("description", PStr
            "The FreeBSD CAM layer reported an OS-level command failure for this disk/path.");
          ("cam_error_code", PInt code);
          ("cam_retry_state", PStr state);
          ("decode_confidence", PStr "observed");
          ("decode_source", PStr "freebsd_cam_errno");
          ("source_attribution", PDict FREEBSD_ERRNO_SOURCE)
        ] in
        match errno with
        | Some (nm, la) =>
            let decoded := d_set "errno_name" (PStr nm) decoded in
            let decoded := d_set "errno_label" (PStr la) decoded in
            d_set "description"
              (PStr ("The FreeBSD CAM layer reported " +:+ nm +:+ " (" +:+ la +:+ ") and "
                     +:+ py_lower state +:+ " for this disk/path.")) decoded
        | None =>
            d_set "decoder_note"
              (PStr "CAM reported a numeric error code that is not in the current local errno table.")
              decoded
        end
  end.

(** [_decode_scsi_status_event] *)
Definition decode_scsi_status_event (message : string) : pydict :=
  decode_scsi_status_value (message_value_after_colon message).

Definition decode_mpr_dmesg_event (event : pydict) : pydict :=
  let event_type := str_or (py_get "event_type" event) "" in
  let message := str_or (py_get "message" event) "" in
  if String.eqb event_type "cdb" then decode_scsi_cdb_message message
  else if String.eqb event_type "scsi_sense" then decode_scsi_sense_event event
  else if String.eqb event_type "cam_status" then decode_cam_status_event message
  else if String.eqb event_type "cam_error" then decode_cam_error_event message
  else if String.eqb event_type "scsi_status" then decode_scsi_status_event message
  else if String.eqb event_type "retry" then [
    ("label", PStr "Command retry scheduled");
    ("family", PStr "retry");
    ("likely_layer", PStr "OS retry path");
    ("description", PStr
      "The OS is retrying a command after transport or sense data indicated failure.")
  ]
  else if String.eqb event_type "ioc_terminated" then
    let loginfo := py_lower (str_or (py_get "loginfo" event) "") in
    match decode_lsi_loginfo loginfo with
    | Some decoded => decoded
    | None => [
        ("label", PStr "Controller terminated SCSI IO");
        ("family", PStr "controller_terminated_io");
        ("likely_layer", PStr "HBA path or downstream SAS fabric");
        ("description", PStr "The HBA reported an IO terminated before normal completion.");
        ("loginfo", if String.eqb loginfo "" then PNone else PStr loginfo)
      ]
    end
  else [].

(** ** The record of an event *)

(** [_finding_fingerprint] *)
Definition finding_fingerprint (record : pydict) : option string :=
  if negb (truthy (py_get "family" record)) then None
  else
    let part k := str_or (py_get k record) "" in
    Some (py_join "|" (List.filter (λ p, negb (String.eqb p ""))
      (py_str (py_get "family" record) ::
       (part <$> ["label"; "loginfo"; "asc"; "opcode"; "service_action"; "operation"; "controller";
                  "device"; "target"])))).

(** [for key in keys: if d.get(key) is not None: record[key] = d.get(key)] *)
Definition copy_keys (keys : list string) (d record : pydict) : pydict :=
  foldl (λ record k, if is_none (py_get k d) then record else d_set k (py_get k d) record) record keys.

Definition EVENT_KEYS : list string :=
  ["bus"; "lun"; "smid"; "loginfo"; "asc"; "reason"; "timestamp_raw"].
Definition DECODED_KEYS : list string := [
  "label"; "family"; "likely_layer"; "description"; "operation"; "direction"; "opcode";
  "service_action"; "cdb_hex"; "byte_count"; "lba"; "transfer_blocks"; "allocation_length";
  "parameter_list_length"; "sense_key"; "sense_label"; "asc_label"; "log_page_code"; "log_page";
  "log_page_control"; "log_page_control_label"; "log_save_parameters"; "log_page_source";
  "log_subpage_code"; "sas_phy_log_concepts"; "vendor"; "source_attribution"; "decode_confidence";
  "decode_source"; "decoder_note"; "reported_operation"; "cam_status"; "scsi_status";
  "scsi_status_code"; "cam_error_code"; "cam_error_code_raw"; "cam_retry_state"; "errno_name";
  "errno_label"; "service_action_label"
].

Definition is_text (s : string) (v : pyval) : bool :=
  match v with PStr t => String.eqb t s | _ => false end.

(** The steps of [make_decoded_event_record], in their order: a label from the
    event, the severity of a sense family, the severity of a status, a layer
    from the family, the fingerprint. *)
Definition with_label (event record : pydict) : pydict :=
  if truthy (py_get "label" record) then record
  else d_set "label" (py_or (py_get "reason" event)
                        (py_or (py_get "message" event) (PStr "Kernel event"))) record.
Definition with_sense_severity (record : pydict) : pydict :=
  match py_get "family" record with
  | PStr family =>
      if is_text "scsi_sense" (py_get "event_type" record)
         && bool_decide (is_Some (d_lookup family FAULT_FAMILY_SEVERITIES))
      then d_set "severity" (PStr (fault_family_severity family)) record
      else record
  | _ => record
  end.
Definition with_status_severity (decoded record : pydict) : pydict :=
  if is_text "scsi_status" (py_get "event_type" record) then
    let status := py_upper (str_or (py_get "scsi_status" decoded) "") in
    d_set "severity" (match d_lookup status SCSI_STATUS_SEVERITIES with
                      | Some s => PStr s | None => py_get "severity" record end) record
  else record.
Definition with_layer (record : pydict) : pydict :=
  if negb (truthy (py_get "likely_layer" record)) && truthy (py_get "family" record)
  then d_set "likely_layer" (PStr (fault_family_likely_layer (py_str (py_get "family" record)))) record
  else record.
Definition with_fingerprint (record : pydict) : pydict :=
  match finding_fingerprint record with
  | Some f => if String.eqb f "" then record else d_set "fingerprint" (PStr f) record
  | None => record
  end.

Definition make_decoded_event_record (event : pydict) (event_id : string) (sequence : Z) : pydict :=
  let decoded := decode_mpr_dmesg_event event in
  let record := [
    ("id", PStr event_id);
    ("event_id", PStr event_id);
    ("sequence", PInt sequence);
    ("source", py_get "source" event);
    ("controller", py_get "controller" event);
    ("device", py_get "device" event);
    ("target", py_get "target" event);
    ("message", py_get "message" event);
    ("event_type", py_get "event_type" event);
    ("severity", py_or (py_get "severity" event) (PStr "info"));
    ("raw_line", py_get "line" event);
    ("decoded", PDict decoded)
  ] in
  let record := copy_keys EVENT_KEYS event record in
  let record := copy_keys DECODED_KEYS decoded record in
  let record := with_label event record in
  let record := with_sense_severity record in
  let record := with_status_severity decoded record in
  let record := with_layer record in
  let record := with_fingerprint record in
  (λ kv, (fst kv, bound_diagnostic_value (snd kv)))
    <$> List.filter (λ kv, negb (is_none (snd kv))) record.

(** ** The summary *)

Record finding := mkFinding {
  f_fingerprint : string;
  f_family : pyval;
  f_label : pyval;
  f_severity : pyval;
  f_likely_layer : pyval;
  f_count : Z;
  f_controllers : gset string;
  f_devices : gset string;
  f_targets : gset string;
  f_loginfo : pyval;
  f_asc : pyval;
  f_asc_label : pyval;
  f_opcode : pyval;
  f_operation : pyval;
  f_last_event_id : pyval;
}.

Record event_summary := mkSummary {
  event_count : Z;
  error_count : Z;
  retry_count : Z;
  sense_count : Z;
  ioc_terminated_count : Z;
  devices : gset string;
  targets : gset string;
  loginfo_counts : list (string * Z);
  sense_counts : list (string * Z);
  cam_status_counts : list (string * Z);
  fault_family_counts : list (string * Z);
  operation_counts : list (string * Z);
  finding_records : list (string * finding);
  decoded_records : list pydict;
  recent_events : list pydict;
}.

Definition new_mpr_event_summary : event_summary :=
  mkSummary 0 0 0 0 0 ∅ ∅ [] [] [] [] [] [] [] [].

(** The text under a key, when there is any. *)
Definition text_at (k : string) (d : pydict) : option string :=
  match py_get k d with PStr s => if String.eqb s "" then None else Some s | _ => None end.
Definition set_add (o : option string) (X : gset string) : gset string :=
  match o with Some s => {[ s ]} ∪ X | None => X end.
Definition count_if (b : bool) : Z := if b then 1 else 0.
Definition counter_add_opt (o : option string) (c : list (string * Z)) : list (string * Z) :=
  match o with Some k => counter_add k c | None => c end.
Definition non_empty_text (s : string) : option string := if String.eqb s "" then None else Some s.

(** [record.get("severity") or fault_family_severity(...)] *)
Definition record_severity (record : pydict) : pyval :=
  py_or (py_get "severity" record)
    (PStr (fault_family_severity (str_or (py_get "family" record) ""))).

Definition new_finding (fingerprint : string) (record : pydict) : finding :=
  mkFinding fingerprint (py_get "family" record)
    (py_or (py_get "label" record)
       (of_opt (d_lookup (str_or (py_get "family" record) "") FAULT_FAMILY_LABELS)))
    (record_severity record) (py_get "likely_layer" record) 0 ∅ ∅ ∅
    (py_get "loginfo" record) (py_get "asc" record) (py_get "asc_label" record)
    (py_get "opcode" record) (py_get "operation" record) (py_get "event_id" record).

Definition update_finding (record : pydict) (f : finding) : finding :=
  mkFinding (f_fingerprint f) (f_family f) (f_label f)
    (if severity_rank (record_severity record) <? severity_rank (f_severity f)
     then record_severity record else f_severity f)
    (f_likely_layer f) (f_count f + 1)
    (set_add (text_at "controller" record) (f_controllers f))
    (set_add (text_at "device" record) (f_devices f))
    (set_add (text_at "target" record) (f_targets f))
    (f_loginfo f) (f_asc f) (f_asc_label f) (f_opcode f) (f_operation f) (py_get "event_id" record).

(** [_record_finding] *)
Definition record_finding (record : pydict) (findings : list (string * finding)) :
    list (string * finding) :=
  match text_at "fingerprint" record with
  | None => findings
  | Some fingerprint =>
      let f := match d_lookup fingerprint findings with
               | Some f => f | None => new_finding fingerprint record end in
      d_set fingerprint (update_finding record f) findings
  end.

Definition COMPACT_KEYS : list string :=
  ["event_id"; "controller"; "device"; "target"; "message"; "event_type"; "severity"; "loginfo";
   "asc"; "reason"; "timestamp_raw"].
Definition compact_event (event : pydict) : pydict :=
  (λ kv, (fst kv, bound_diagnostic_value (snd kv)))
    <$> List.filter (λ kv, is_in (fst kv) COMPACT_KEYS && truthy (snd kv)) event.

(** [l[-n:]] *)
Definition last_n {A} (n : nat) (l : list A) : list A := drop (List.length l - n) l.

Definition record_mpr_event_summary (s : event_summary) (event record : pydict) : event_summary :=
  let event_type := str_or (py_get "event_type" event) "message" in
  let typed ty := String.eqb event_type ty in
  let cam_status := message_value_after_colon (str_or (py_get "message" event) "") in
  let family := str_or (py_get "family" record) "" in
  mkSummary
    (event_count s + 1)
    (error_count s + count_if (is_text "error" (py_get "severity" record)))
    (retry_count s + count_if (typed "retry"))
    (sense_count s + count_if (typed "scsi_sense"))
    (ioc_terminated_count s + count_if (typed "ioc_terminated"))
    (set_add (text_at "device" event) (devices s))
    (set_add (text_at "target" event) (targets s))
    (counter_add_opt (text_at "loginfo" event) (loginfo_counts s))
    (if typed "scsi_sense" then counter_add_opt (text_at "reason" event) (sense_counts s)
     else sense_counts s)
    (if typed "cam_status" then counter_add_opt (non_empty_text cam_status) (cam_status_counts s)
     else cam_status_counts s)
    (counter_add_opt (non_empty_text family) (fault_family_counts s))
    (counter_add_opt (non_empty_text (str_or (py_get "operation" record) "")) (operation_counts s))
    (if String.eqb family "" then finding_records s else record_finding record (finding_records s))
    (decoded_records s ++ [record])%list
    (last_n 12 (recent_events s ++ [compact_event event])%list).

(** ** Reporting a summary *)

(** [_mpr_target_sort_key] of a text; the other keys of the tuple order [None]
    last. *)
Definition target_sort_key (t : string) : Z * Z * string :=
  if non_empty (chars t) && forallb is_decimal (chars t)
  then (0, match int_digits 10 0 (chars t) with Some n => n | None => 0 end, t)
  else (1, 0, t).
Definition key_leb (a b : Z * Z * string) : bool :=
  let '(a1, a2, a3) := a in
  let '(b1, b2, b3) := b in
  if a1 <? b1 then true else if b1 <? a1 then false
  else if a2 <? b2 then true else if b2 <? a2 then false else str_leb a3 b3.
Definition target_leb (a b : string) : bool := key_leb (target_sort_key a) (target_sort_key b).

Definition sorted_texts (X : gset string) : list string := sort_by str_leb (elements X).
Definition sorted_targets (X : gset string) : list string := sort_by target_leb (elements X).

Record finding_row := mkRow {
  row_fingerprint : string;
  row_family : string;
  row_label : pyval;
  row_count : Z;
  row_severity : pyval;
  row_likely_layer : pyval;
  row_controllers : list string;
  row_devices : list string;
  row_targets : list string;
  row_loginfo : pyval;
  row_asc : pyval;
  row_asc_label : pyval;
  row_opcode : pyval;
  row_operation : pyval;
  row_last_event_id : pyval;
}.

Definition finding_row_of (f : finding) : finding_row :=
  let family := str_or (f_family f) "" in
  mkRow (f_fingerprint f) family
    (py_or (f_label f)
       (PStr (match d_lookup family FAULT_FAMILY_LABELS with
              | Some la => la | None => py_title (py_replace_char "_" " " family) end)))
    (f_count f)
    (py_or (f_severity f) (PStr (fault_family_severity family)))
    (py_or (f_likely_layer f) (PStr (fault_family_likely_layer family)))
    (sorted_texts (f_controllers f)) (sorted_texts (f_devices f)) (sorted_targets (f_targets f))
    (f_loginfo f) (f_asc f) (f_asc_label f) (f_opcode f) (f_operation f) (f_last_event_id f).

(** The sort key of [_top_mpr_findings]. *)
Definition row_leb (a b : finding_row) : bool :=
  let sa := severity_rank (row_severity a) in
  let sb := severity_rank (row_severity b) in
  let pa := fault_family_priority (row_family a) in
  let pb := fault_family_priority (row_family b) in
  if sa <? sb then true else if sb <? sa then false
  else if row_count b <? row_count a then true else if row_count a <? row_count b then false
  else if pa <? pb then true else if pb <? pa then false
  else str_leb (str_or (row_label a) "") (str_or (row_label b) "").

(** [_top_mpr_findings] *)
Definition ranked_findings (s : event_summary) : list finding_row :=
  sort_by row_leb ((finding_row_of ∘ snd) <$> finding_records s).
Definition top_mpr_findings (s : event_summary) : list finding_row := take 6 (ranked_findings s).

(** [_mpr_operator_summary] *)
Definition operator_scope (prefix : string) (names : list string) : string :=
  let n := List.length names in
  prefix +:+ py_join ", " (take 4 names)
  +:+ (if Nat.ltb 4 n then " +" +:+ py_str_int (Z.of_nat (n - 4)) else "").
Definition mpr_operator_summary (s : event_summary) (primary_fault : option finding_row) :
    option string :=
  if event_count s =? 0 then None
  else
    let ds := sorted_texts (devices s) in
    let ts := sorted_targets (targets s) in
    let scope :=
      if non_empty ds then operator_scope " on " ds
      else if non_empty ts then operator_scope " on target " ts
      else "" in
    Some match primary_fault with
         | Some row => py_str (row_label row) +:+ scope +:+ ": " +:+ py_str_int (error_count s)
             +:+ " errors, " +:+ py_str_int (retry_count s) +:+ " retries"
         | None => "Kernel reported " +:+ py_str_int (event_count s) +:+ " MPR/CAM events" +:+ scope
         end.

Record event_table := mkTable {
  total_count : Z;
  page_size : nat;
  sample_count : Z;
  truncated : bool;
  rows : list pydict;
}.

Record final_summary := mkFinal {
  fin_event_count : Z;
  fin_error_count : Z;
  fin_retry_count : Z;
  fin_sense_count : Z;
  fin_ioc_terminated_count : Z;
  fin_devices : list string;
  fin_targets : list string;
  fin_loginfo_counts : list (string * Z);
  fin_sense_counts : list (string * Z);
  fin_cam_status_counts : list (string * Z);
  fin_fault_family_counts : list (string * Z);
  fin_operation_counts : list (string * Z);
  top_findings : list finding_row;
  primary_fault : option finding_row;
  operator_summary : option string;
  fin_recent_events : list pydict;
  table_ : event_table;
}.

Definition finalize_mpr_event_summary (s : event_summary) : final_summary :=
  let top := top_mpr_findings s in
  let primary := head top in
  let sampled := last_n DEFAULT_EVENT_TABLE_PAGE_SIZE (decoded_records s) in
  mkFinal (event_count s) (error_count s) (retry_count s) (sense_count s) (ioc_terminated_count s)
    (sorted_texts (devices s)) (sorted_targets (targets s))
    (loginfo_counts s) (sense_counts s) (cam_status_counts s) (fault_family_counts s)
    (operation_counts s) top primary (mpr_operator_summary s primary) (recent_events s)
    (mkTable (Z.of_nat (List.length (decoded_records s))) DEFAULT_EVENT_TABLE_PAGE_SIZE
       (Z.of_nat (List.length sampled))
       (Nat.ltb (List.length sampled) (List.length (decoded_records s))) sampled).
