(* ===== verification/SasEvents.v ===== *)
(** * Parsing the kernel log

    [parse_mpr_dmesg_events] of [app/services/sas_fabric_parsers.py] and its
    helpers: time stamps, message types and severities, the two line patterns,
    and the loop that files every event under its controller, device and
    target. *)

From S2P Require Import Prelude PyStr PyVal Regex SasCommon Scsi LsiLoginfo SasDecoder.
From Stdlib Require Import String Ascii.
#[local] Open Scope string_scope.
#[local] Open Scope Z_scope.

(** ** Lines *)

(** [str.splitlines] on Latin-1 text *)
Definition line_break (c : ascii) : bool := in_range 10 13 c || in_range 28 30 c || (ord c =? 133).
Fixpoint splitlines_l (cur l : list ascii) : list (list ascii) :=
  match l with
  | [] => match cur with [] => [] | _ => [reverse cur] end
  | c :: l' =>
      if line_break c then
        match l' with
        | n :: l'' =>
            if char_is (chr 13) c && char_is (chr 10) n then reverse cur :: splitlines_l [] l''
            else reverse cur :: splitlines_l [] l'
        | [] => [reverse cur]
        end
      else splitlines_l (c :: cur) l'
  end.
Definition py_splitlines (s : string) : list string := text <$> splitlines_l [] (chars s).

(** ** Time stamps *)

Definition BRACKETED_PATTERN : regex := seq [
  lit "["; RGroup "timestamp" (seq [RStar is_space; plus is_decimal; ROpt (seq [lit "."; plus is_decimal])]);
  lit "]"; plus is_space; RGroup "rest" (plus dot); RDollar
].
Definition digits (n : nat) : regex := times n is_decimal.
Definition ISO_PATTERN : regex := seq [
  RGroup "timestamp" (seq [digits 4; lit "-"; digits 2; lit "-"; digits 2;
    RChar (λ c, char_is "T" c || is_space c);
    digits 2; lit ":"; digits 2; lit ":"; digits 2;
    ROpt (seq [lit "."; plus is_decimal]);
    ROpt (RAlt (lit "Z") (seq [RChar (one_of "+-"); digits 2; ROpt (lit ":"); digits 2]))]);
  plus is_space; RGroup "rest" (plus dot); RDollar
].
Definition SYSLOG_PATTERN : regex := seq [
  RGroup "timestamp" (seq [RChar is_upper_ascii; times 2 is_lower_ascii; plus is_space;
    between 1 2 is_decimal; plus is_space; digits 2; lit ":"; digits 2; lit ":"; digits 2]);
  plus is_space; RGroup "rest" (plus dot); RDollar
].
Definition KERNEL_PATTERN : regex := seq [
  ROpt (RSeq (plus not_space) (plus is_space)); lit "kernel:"; plus is_space;
  RGroup "rest" (plus dot); RDollar
].
Definition HOST_PATTERN : regex := seq [
  plus not_space; plus is_space;
  RGroup "rest" (seq [
    RAlt (seq [lit "mpr"; plus is_decimal; lit ":"])
         (seq [lit "(da"; plus is_decimal; lit ":mpr"; plus is_decimal; lit ":"]);
    plus dot]);
  RDollar
].

(** [_strip_syslog_kernel_prefix] *)
Definition strip_syslog_kernel_prefix (line : string) : string :=
  match re_match KERNEL_PATTERN line with
  | Some m => py_strip (group_text "rest" m)
  | None =>
      match re_match HOST_PATTERN line with
      | Some m => py_strip (group_text "rest" m)
      | None => line
      end
  end.

(** [_split_mpr_dmesg_timestamp] *)
Definition split_mpr_dmesg_timestamp (line : string) : option string * string :=
  match re_match BRACKETED_PATTERN line with
  | Some m => (Some ("[" +:+ py_strip (group_text "timestamp" m) +:+ "]"), py_strip (group_text "rest" m))
  | None =>
      match re_match ISO_PATTERN line with
      | Some m => (Some (group_text "timestamp" m),
                   strip_syslog_kernel_prefix (py_strip (group_text "rest" m)))
      | None =>
          match re_match SYSLOG_PATTERN line with
          | Some m => (Some (group_text "timestamp" m),
                       strip_syslog_kernel_prefix (py_strip (group_text "rest" m)))
          | None => (None, line)
          end
      end
  end.

(** ** Messages *)

Definition ERROR_CODE_PATTERN : regex :=
  seq [lit "error"; plus is_space; plus is_decimal; RStar is_space; lit ","].

(** [_mpr_dmesg_event_type] *)
Definition mpr_dmesg_event_type (message : string) : string :=
  let lowered := py_lower message in
  if py_contains "controller reported" lowered || py_contains "ioc terminated" lowered
  then "ioc_terminated"
  else if py_startswith lowered "cam status:" then "cam_status"
  else if bool_decide (is_Some (re_match ERROR_CODE_PATTERN lowered)) then "cam_error"
  else if py_startswith lowered "scsi sense:" then "scsi_sense"
  else if py_startswith lowered "scsi status:" then "scsi_status"
  else if py_startswith lowered "retrying" then "retry"
  else if py_contains ". cdb:" lowered || py_contains " cdb:" lowered then "cdb"
  else "message".

(** [_mpr_dmesg_severity] *)
Definition mpr_dmesg_severity (message : string) : string :=
  let lowered := py_lower message in
  if existsb (λ token, py_contains token lowered)
       ["error"; "aborted"; "nak"; "timeout"; "connection lost"; "terminated"] then "error"
  else if py_startswith lowered "scsi status:"
       && existsb (λ token, py_contains token lowered)
            ["check condition"; "busy"; "reservation conflict"; "task set full"; "aca active"]
  then "warning"
  else if py_startswith lowered "retrying" then "warning"
  else "info".

Definition SENSE_PATTERN : regex := seq [
  lit "SCSI sense:"; RStar is_space; RGroup "sense" (plus_lazy dot); plus is_space; lit "asc:";
  RGroup "asc" (seq [plus is_hex; lit ","; plus is_hex]); plus is_space;
  lit "("; RGroup "reason" (plus dot); lit ")"
].

(** [_parse_mpr_sense_message] *)
Definition parse_mpr_sense_message (message : string) : pydict :=
  match re_search SENSE_PATTERN message with
  | None => []
  | Some m => [
      ("sense", PStr (py_strip (group_text "sense" m)));
      ("sense_key", PStr (py_upper (py_strip (group_text "sense" m))));
      ("asc", PStr (py_lower (group_text "asc" m)));
      ("reason", PStr (py_strip (group_text "reason" m)))
    ]
  end.

(** [_bounded_numeric_token] *)
Definition bounded_numeric_token (value : option string) : option string :=
  clip MAX_DIAGNOSTIC_NUMERIC_TOKEN_LENGTH <$> value.

(** ** Events *)

Definition DISK_PATTERN : regex := seq [
  lit "("; RGroup "device" (RSeq (lit "da") (plus is_decimal)); lit ":";
  RGroup "controller" (RSeq (lit "mpr") (plus is_decimal)); lit ":";
  RGroup "bus" (plus is_decimal); lit ":"; RGroup "target" (plus is_decimal); lit ":";
  RGroup "lun" (plus is_decimal); lit "):"; plus is_space; RGroup "message" (plus dot); RDollar
].
Definition CONTROLLER_PATTERN : regex := seq [
  RGroup "controller" (RSeq (lit "mpr") (plus is_decimal)); lit ":"; plus is_space;
  RGroup "message" (plus_lazy dot);
  ROpt (seq [plus is_space; lit "tgt"; plus is_space; RGroup "target" (plus is_decimal);
    plus is_space; lit "SMID"; plus is_space; RGroup "smid" (plus is_decimal);
    plus is_space; lit "loginfo"; plus is_space; RGroup "loginfo" (plus is_hex)]);
  RDollar
].

Definition with_timestamp (stamp : option string) (event : pydict) : pydict :=
  match stamp with
  | Some t => if String.eqb t "" then event else d_set "timestamp_raw" (PStr t) event
  | None => event
  end.

(** The event of a line of [/var/log/messages]-like output, if it is one. *)
Definition line_event (line : string) : option pydict :=
  let stripped := py_strip line in
  if String.eqb stripped "" then None
  else
    let '(stamp, source_line) := split_mpr_dmesg_timestamp stripped in
    match re_match DISK_PATTERN source_line with
    | Some m =>
        let message := py_strip (group_text "message" m) in
        let target := bounded_numeric_token (group "target" m) in
        let event := [
          ("source", PStr "cam");
          ("controller", PStr (group_text "controller" m));
          ("device", PStr (group_text "device" m));
          ("bus", PStr (group_text "bus" m));
          ("target", of_opt target);
          ("lun", PStr (group_text "lun" m));
          ("message", PStr message);
          ("event_type", PStr (mpr_dmesg_event_type message));
          ("severity", PStr (mpr_dmesg_severity message));
          ("line", PStr stripped)
        ] in
        Some (d_update (with_timestamp stamp event) (parse_mpr_sense_message message))
    | None =>
        match re_match CONTROLLER_PATTERN source_line with
        | Some m =>
            let message := py_strip (group_text "message" m) in
            let target := bounded_numeric_token (group "target" m) in
            Some (with_timestamp stamp [
              ("source", PStr "controller");
              ("controller", PStr (group_text "controller" m));
              ("target", of_opt target);
              ("smid", of_opt (group "smid" m));
              ("loginfo", of_opt (group "loginfo" m));
              ("message", PStr message);
              ("event_type", PStr (mpr_dmesg_event_type message));
              ("severity", PStr "error");
              ("line", PStr stripped)
            ])
        | None => None
        end
    end.

(** ** The loop *)

Record parse_state := mkState {
  ps_recent : list pydict;
  ps_controllers : list (string * event_summary);
  ps_devices : list (string * event_summary);
  ps_targets : list (string * event_summary);
}.
Definition initial_state : parse_state := mkState [] [] [] [].

(** [record_mpr_event_summary(summaries[...][key], event, record)] on a
    [defaultdict] *)
Definition record_under (key : string) (event record : pydict)
    (t : list (string * event_summary)) : list (string * event_summary) :=
  let s := match d_lookup key t with Some s => s | None => new_mpr_event_summary end in
  d_set key (record_mpr_event_summary s event record) t.
Definition record_under_opt (key : option string) (event record : pydict)
    (t : list (string * event_summary)) : list (string * event_summary) :=
  match key with Some k => record_under k event record t | None => t end.

Definition event_id_of (n : nat) : string := "mpr-dmesg-" +:+ py_dec 4 (Z.of_nat n + 1).

(** An event with its id and the record decoded from it. *)
Definition numbered_event (n : nat) (event : pydict) : pydict * pydict :=
  let event_id := event_id_of n in
  let event := d_set "event_id" (PStr event_id) event in
  let record := make_decoded_event_record event event_id (Z.of_nat n) in
  let event := if is_text "scsi_status" (py_get "event_type" event)
               then d_set "severity" (py_get "severity" record) event else event in
  (event, record).

Definition controller_of (event : pydict) : string := py_str (py_get "controller" event).
Definition target_key (event : pydict) : option string :=
  (λ t, controller_of event +:+ ":" +:+ t) <$> text_at "target" event.

Definition file_event (s : parse_state) (event : pydict) : parse_state :=
  let '(event, record) := numbered_event (List.length (ps_recent s)) event in
  mkState (ps_recent s ++ [match bound_diagnostic_value (PDict event) with PDict d => d | _ => event end])%list
    (record_under (controller_of event) event record (ps_controllers s))
    (record_under_opt (text_at "device" event) event record (ps_devices s))
    (record_under_opt (target_key event) event record (ps_targets s)).

Definition parse_line (s : parse_state) (line : string) : parse_state :=
  match line_event line with Some event => file_event s event | None => s end.

Record parsed_events := mkParsed {
  pe_event_count : Z;
  pe_recent_events : list pydict;
  by_controller : list (string * final_summary);
  by_device : list (string * final_summary);
  by_controller_target : list (string * final_summary);
}.

(** [{key: finalize(summary) for key, summary in sorted(items)}] *)
Definition finalize_all (t : list (string * event_summary)) : list (string * final_summary) :=
  (λ kv, (fst kv, finalize_mpr_event_summary (snd kv)))
    <$> sort_by (λ a b, str_leb (fst a) (fst b)) t.

Definition parse_mpr_dmesg_events (log : string) : parsed_events :=
  let s := foldl parse_line initial_state (py_splitlines log) in
  mkParsed (Z.of_nat (List.length (ps_recent s))) (last_n 40 (ps_recent s))
    (finalize_all (ps_controllers s)) (finalize_all (ps_devices s)) (finalize_all (ps_targets s)).
