(* ===== verification/ScsiProofs.v ===== *)
(** * Theorems on the SCSI decoders

    Addresses of command blocks, sense code text, status spellings and the
    families of operations. *)

From S2P Require Import Prelude PyStr PyVal Regex SasCommon ScsiTables Scsi.
From Stdlib Require Import String Ascii.
#[local] Open Scope string_scope.
#[local] Open Scope list_scope.
#[local] Open Scope Z_scope.

(** ** Big-endian fields *)

Definition is_byte (z : Z) : Prop := 0 <= z < 256.

(** The reference encoding of a field of [n] bytes. *)
Fixpoint field (n : nat) (z : Z) : list Z :=
  match n with O => [] | S n' => field n' (z / 256) ++ [z mod 256] end.

Lemma length_field n z : List.length (field n z) = n.
Proof. revert z; induction n as [|n IH]; intros z; simpl; [done|]. rewrite length_app, IH. simpl. lia. Qed.

Lemma lor_byte r v : is_byte v → Z.lor (Z.shiftl r 8) v = r * 256 + v.
Proof.
  intros Hv. assert (Z.land (Z.shiftl r 8) v = 0) as Hl.
  { replace v with (Z.land v (Z.ones 8)) by (rewrite Z.land_ones by lia; apply Z.mod_small; exact Hv).
    rewrite (Z.land_comm v), Z.land_assoc, Z.land_ones by lia.
    rewrite Z.shiftl_mul_pow2, Z.mod_mul by lia. apply Z.land_0_l. }
  pose proof (Z.add_lor_land (Z.shiftl r 8) v). rewrite Hl in *.
  rewrite Z.shiftl_mul_pow2 in * by lia. change (2 ^ 8) with 256 in *. lia.
Qed.

Lemma int_from_bytes_app l1 l2 :
  int_from_bytes (l1 ++ l2) = foldl (λ r v, Z.lor (Z.shiftl r 8) v) (int_from_bytes l1) l2.
Proof. unfold int_from_bytes. by rewrite foldl_app. Qed.

Lemma int_from_bytes_snoc l v : is_byte v → int_from_bytes (l ++ [v]) = int_from_bytes l * 256 + v.
Proof. intros Hv. rewrite int_from_bytes_app. simpl. by apply lor_byte. Qed.

Lemma int_from_bytes_field n : ∀ z, 0 <= z < 256 ^ Z.of_nat n → int_from_bytes (field n z) = z.
Proof.
  induction n as [|n IH]; intros z Hz; [simpl in *; unfold int_from_bytes; simpl; lia|].
  rewrite Nat2Z.inj_succ, Z.pow_succ_r in Hz by lia. cbn [field].
  rewrite int_from_bytes_snoc by (unfold is_byte; apply Z.mod_pos_bound; lia).
  rewrite IH by (split; [apply Z.div_pos; lia|apply Z.div_lt_upper_bound; lia]).
  pose proof (Z.div_mod z 256). lia.
Qed.

Lemma int_from_bytes_bound l :
  Forall is_byte l → 0 <= int_from_bytes l < 256 ^ Z.of_nat (List.length l).
Proof.
  induction l as [|v l IH] using rev_ind; intros H.
  - unfold int_from_bytes. simpl. lia.
  - apply Forall_app in H as [Hl [Hv _]%Forall_cons]. specialize (IH Hl).
    rewrite int_from_bytes_snoc by exact Hv. rewrite length_app. simpl List.length.
    rewrite Nat.add_1_r, Nat2Z.inj_succ, Z.pow_succ_r by lia. unfold is_byte in Hv. nia.
Qed.

(** ** Layouts *)

(** The command blocks that carry an address, as the standards lay them out:
    [flags], [group] and [control] are the bytes the address does not use. *)
Inductive cdb_layout := Cdb6 | Cdb10 | Cdb12 | Cdb16.
Definition layout_opcodes (y : cdb_layout) : list Z :=
  match y with
  | Cdb6 => [0x08; 0x0A]
  | Cdb10 => [0x28; 0x2A; 0x2E; 0x2F; 0x35; 0x41]
  | Cdb12 => [0xA8; 0xAA; 0xAE; 0xAF]
  | Cdb16 => [0x88; 0x8A; 0x8E; 0x8F; 0x91; 0x93]
  end.
Definition lba_limit (y : cdb_layout) : Z :=
  match y with Cdb6 => 2 ^ 21 | Cdb10 | Cdb12 => 2 ^ 32 | Cdb16 => 2 ^ 64 end.
Definition block_counts (y : cdb_layout) (blocks : Z) : Prop :=
  match y with
  | Cdb6 => 1 <= blocks <= 256
  | Cdb10 => 0 <= blocks < 2 ^ 16
  | Cdb12 | Cdb16 => 0 <= blocks < 2 ^ 32
  end.
Definition encode_cdb (y : cdb_layout) (opcode flags lba blocks group control : Z) : list Z :=
  match y with
  | Cdb6 => [opcode; flags * 32 + lba / 65536; lba / 256 mod 256; lba mod 256; blocks mod 256; control]
  | Cdb10 => [opcode; flags] ++ field 4 lba ++ [group] ++ field 2 blocks ++ [control]
  | Cdb12 => [opcode; flags] ++ field 4 lba ++ field 4 blocks ++ [group; control]
  | Cdb16 => [opcode; flags] ++ field 8 lba ++ field 4 blocks ++ [group; control]
  end.

(** [span] of a concatenation of parts of known length. *)
Lemma span_middle l1 l2 l3 a b :
  List.length l1 = a → (a + List.length l2)%nat = b → span a b (l1 ++ l2 ++ l3) = l2.
Proof.
  intros <- <-. unfold span. rewrite drop_app_length.
  replace (List.length l1 + List.length l2 - List.length l1)%nat with (List.length l2) by lia.
  apply take_app_length.
Qed.

Lemma z_in_true z l : z ∈ l → z_in z l = true.
Proof.
  intros H. unfold z_in. apply existsb_exists. exists z.
  split; [by apply list_elem_of_In|apply Z.eqb_refl].
Qed.

(** An operation code belongs to one layout only. *)
Lemma layout_disjoint y opcode : opcode ∈ layout_opcodes y →
  ∀ y', y' ≠ y → z_in opcode (layout_opcodes y') = false.
Proof.
  intros H y' Hne. destruct y, y'; try done; simpl in H;
    repeat (apply elem_of_cons in H as [->|H]; [done|]); by apply not_elem_of_nil in H.
Qed.

Lemma shift_or a b n : 0 <= n → 0 <= a → 0 <= b < 2 ^ n → Z.lor (Z.shiftl a n) b = a * 2 ^ n + b.
Proof.
  intros Hn Ha Hb. pose proof (Z.add_lor_land (Z.shiftl a n) b) as H.
  assert (Z.land (Z.shiftl a n) b = 0) as Hl.
  { replace b with (Z.land b (Z.ones n)) by (rewrite Z.land_ones by lia; apply Z.mod_small; lia).
    rewrite (Z.land_comm b), Z.land_assoc, Z.land_ones by lia.
    rewrite Z.shiftl_mul_pow2, Z.mod_mul by lia. apply Z.land_0_l. }
  rewrite Hl, Z.shiftl_mul_pow2 in * by lia. lia.
Qed.

Lemma cdb6_address flags lba :
  0 <= flags → 0 <= lba < 2 ^ 21 →
  Z.lor (Z.lor (Z.shiftl (Z.land (flags * 32 + lba / 65536) 0x1F) 16)
    (Z.shiftl (lba / 256 mod 256) 8)) (lba mod 256) = lba.
Proof.
  intros Hf Hl. change 0x1F with (Z.ones 5). rewrite Z.land_ones by lia. change (2 ^ 5) with 32.
  assert (0 <= lba / 65536 < 32) as Hq
    by (split; [apply Z.div_pos; lia|apply Z.div_lt_upper_bound; lia]).
  rewrite Z.add_comm, Z.mod_add, (Z.mod_small (lba / 65536)) by lia.
  pose proof (Z.mod_pos_bound (lba / 256) 256 ltac:(lia)) as H1.
  pose proof (Z.mod_pos_bound lba 256 ltac:(lia)) as H2.
  rewrite <-Z.lor_assoc, (shift_or (lba / 256 mod 256) (lba mod 256) 8) by (change (2 ^ 8) with 256; lia).
  rewrite shift_or by (change (2 ^ 8) with 256; change (2 ^ 16) with 65536; lia).
  change (2 ^ 16) with 65536. change (2 ^ 8) with 256.
  assert (lba / 65536 = lba / 256 / 256) as -> by (rewrite Z.div_div by lia; done).
  pose proof (Z.div_mod (lba / 256) 256 ltac:(lia)). pose proof (Z.div_mod lba 256 ltac:(lia)). lia.
Qed.

(** Addresses survive the wire format: for every READ, WRITE, VERIFY and
    related command block of 6, 10, 12 or 16 bytes, laid out as the standards
    say with any flags, group and control bytes, the decoder returns exactly the
    logical block address and block count it was built from (a 6-byte count of
    256 is sent as 0). *)
Theorem scsi_cdb_address_roundtrip (y : cdb_layout) (opcode flags lba blocks grp control : Z)
  (Hop : opcode ∈ layout_opcodes y) (Hflags : 0 <= flags) (Hlba : 0 <= lba < lba_limit y)
  (Hblocks : block_counts y blocks) :
  decode_cdb_address (encode_cdb y opcode flags lba blocks grp control)
  = [("lba", PInt lba); ("transfer_blocks", PInt blocks)].
Proof.
  pose proof (layout_disjoint y opcode Hop) as Hd. pose proof (z_in_true _ _ Hop) as Hin.
  unfold decode_cdb_address. destruct y; cbn [lba_limit block_counts layout_opcodes] in *.
  - cbn [encode_cdb at_least List.length Nat.leb andb nth_byte nth]. rewrite Hin.
    rewrite cdb6_address by done. do 3 f_equal.
    destruct (Z.eqb_spec (blocks mod 256) 0) as [E|E].
    + assert (blocks = 256) as ->; [|done]. destruct (Z.eq_dec blocks 256); [done|].
      rewrite Z.mod_small in E by lia. lia.
    + rewrite Z.mod_small; [done|]. split; [lia|]. destruct (Z.eq_dec blocks 256) as [->|]; [done|lia].
  - pose proof (Hd Cdb16 ltac:(done)) as H16. pose proof (Hd Cdb12 ltac:(done)) as H12.
    cbn [layout_opcodes] in *.
    replace (nth_byte 0 _) with opcode by done. rewrite H16, H12, Hin, !andb_false_r, andb_true_r.
    assert (at_least 10 (encode_cdb Cdb10 opcode flags lba blocks grp control) = true) as ->
      by (unfold at_least, encode_cdb; rewrite !length_app, !length_field; done).
    cbn [encode_cdb].
    rewrite (span_middle [opcode; flags] (field 4 lba)) by (by rewrite ?length_field).
    rewrite (app_assoc (field 4 lba)), (app_assoc [opcode; flags]).
    rewrite (span_middle ([opcode; flags] ++ field 4 lba ++ [grp]) (field 2 blocks))
      by (by rewrite ?length_app, ?length_field).
    by rewrite !int_from_bytes_field.
  - pose proof (Hd Cdb16 ltac:(done)) as H16. cbn [layout_opcodes] in *.
    replace (nth_byte 0 _) with opcode by done. rewrite H16, Hin, !andb_false_r, andb_true_r.
    assert (at_least 12 (encode_cdb Cdb12 opcode flags lba blocks grp control) = true) as ->
      by (unfold at_least, encode_cdb; rewrite !length_app, !length_field; done).
    cbn [encode_cdb].
    rewrite (span_middle [opcode; flags] (field 4 lba)) by (by rewrite ?length_field).
    rewrite (app_assoc [opcode; flags]).
    rewrite (span_middle ([opcode; flags] ++ field 4 lba) (field 4 blocks))
      by (by rewrite ?length_app, ?length_field).
    by rewrite !int_from_bytes_field.
  - replace (nth_byte 0 _) with opcode by done. rewrite Hin, andb_true_r.
    assert (at_least 16 (encode_cdb Cdb16 opcode flags lba blocks grp control) = true) as ->
      by (unfold at_least, encode_cdb; rewrite !length_app, !length_field; done).
    cbn [encode_cdb].
    rewrite (span_middle [opcode; flags] (field 8 lba)) by (by rewrite ?length_field).
    rewrite (app_assoc [opcode; flags]).
    rewrite (span_middle ([opcode; flags] ++ field 8 lba) (field 4 blocks))
      by (by rewrite ?length_app, ?length_field).
    by rewrite !int_from_bytes_field.
Qed.

Lemma scsi_cdb_address_roundtrip_witness :
  decode_cdb_address (encode_cdb Cdb16 0x88 0 0x123456789A 0x80 0 0)
  = [("lba", PInt 0x123456789A); ("transfer_blocks", PInt 0x80)].
Proof.
  apply (scsi_cdb_address_roundtrip Cdb16 0x88 0 0x123456789A 0x80 0 0); simpl; [by left|lia|lia|lia].
Defined.

(** ** Bounds on any input *)

Lemma span_bytes a b l : Forall is_byte l → Forall is_byte (span a b l).
Proof. intros. unfold span. by apply Forall_take, Forall_drop. Qed.
Lemma span_value a b l :
  Forall is_byte l → 0 <= int_from_bytes (span a b l) < 256 ^ Z.of_nat (b - a).
Proof.
  intros H. pose proof (int_from_bytes_bound _ (span_bytes a b l H)) as Hb.
  split; [lia|]. eapply Z.lt_le_trans; [apply Hb|]. apply Z.pow_le_mono_r; [lia|].
  unfold span. rewrite length_take. lia.
Qed.
Lemma nth_byte_bound i l : Forall is_byte l → 0 <= nth_byte i l < 256.
Proof.
  intros H. unfold nth_byte. revert i. induction H as [|v l Hv _ IH]; intros [|i]; simpl; try lia; auto.
Qed.
Lemma byte_land z m : 0 <= z → 0 <= m → 0 <= Z.land z m <= m.
Proof.
  intros Hz Hm. split; [apply Z.land_nonneg; auto|].
  destruct (Z.eq_dec m 0) as [->|]; [by rewrite Z.land_0_r|].
  apply Z.le_trans with (Z.land m m); [|by rewrite Z.land_diag].
  rewrite (Z.land_comm z m). rewrite <-(Z.land_diag m) at 1. rewrite <-Z.land_assoc.
  assert (m = Z.land m z + Z.ldiff m z) as E.
  { rewrite Z.add_nocarry_lxor; [|apply Z.bits_inj; intros k; rewrite Z.land_spec, Z.land_spec, Z.ldiff_spec, Z.bits_0;
      by destruct (Z.testbit m k), (Z.testbit z k)].
    apply Z.bits_inj. intros k. rewrite Z.lxor_spec, Z.land_spec, Z.ldiff_spec.
    by destruct (Z.testbit m k), (Z.testbit z k). }
  rewrite Z.land_assoc, Z.land_diag. assert (0 <= Z.ldiff m z) by (apply Z.ldiff_nonneg; auto). lia.
Qed.

Definition address_ok (address : pydict) : Prop :=
  address = [] ∨ ∃ lba blocks,
    address = [("lba", PInt lba); ("transfer_blocks", PInt blocks)]
    ∧ 0 <= lba < 2 ^ 64 ∧ 0 <= blocks < 2 ^ 32.

Lemma span_address a b c d cdb :
  Forall is_byte cdb → (b - a <= 8)%nat → (d - c <= 4)%nat →
  address_ok [("lba", PInt (int_from_bytes (span a b cdb)));
              ("transfer_blocks", PInt (int_from_bytes (span c d cdb)))].
Proof.
  intros H Hab Hcd. right. do 2 eexists. split; [done|].
  pose proof (span_value a b cdb H). pose proof (span_value c d cdb H).
  assert (256 ^ Z.of_nat (b - a) <= 256 ^ 8) by (apply Z.pow_le_mono_r; lia).
  assert (256 ^ Z.of_nat (d - c) <= 256 ^ 4) by (apply Z.pow_le_mono_r; lia).
  change (2 ^ 64) with (256 ^ 8). change (2 ^ 32) with (256 ^ 4). lia.
Qed.

(** Addresses are machine sized: whatever bytes a command block holds, and
    however many, the decoder reports no address, or a logical block address
    below 2^64 with a block count below 2^32. *)
Theorem scsi_cdb_address_bounds (cdb : list Z) (Hcdb : Forall is_byte cdb) :
  address_ok (decode_cdb_address cdb).
Proof.
  unfold decode_cdb_address.
  do 3 (case_match; [apply span_address; [done|simpl; lia|simpl; lia]|]).
  case_match; [|by left]. right. do 2 eexists. split; [done|].
  pose proof (nth_byte_bound 1 cdb Hcdb). pose proof (nth_byte_bound 2 cdb Hcdb).
  pose proof (nth_byte_bound 3 cdb Hcdb). pose proof (nth_byte_bound 4 cdb Hcdb).
  pose proof (byte_land (nth_byte 1 cdb) 0x1F ltac:(lia) ltac:(lia)).
  rewrite <-Z.lor_assoc, (shift_or _ (nth_byte 3 cdb) 8) by lia.
  rewrite shift_or by lia. split; [lia|]. case_match; lia.
Qed.
Lemma scsi_cdb_address_bounds_witness : address_ok (decode_cdb_address [0x0A; 0xFF; 1; 2; 0; 0]).
Proof. apply scsi_cdb_address_bounds. repeat constructor; done. Defined.

(** ** Additional sense codes *)

Definition asc_text (w1 w2 : nat) (asc ascq : Z) : string := py_hex w1 asc +:+ "," +:+ py_hex w2 ascq.

Lemma parse_asc_text w1 w2 asc ascq : 0 <= asc → 0 <= ascq →
  parse_asc_ascq (asc_text w1 w2 asc ascq) = Some (asc, ascq).
Proof.
  intros Ha Hb. unfold parse_asc_ascq, asc_text.
  replace (py_hex w1 asc +:+ "," +:+ py_hex w2 ascq)
    with (text (hex_chars w1 asc ++ ","%char :: hex_chars w2 ascq)) by (rewrite text_app; done).
  rewrite py_split_once_text.
  - change (text (hex_chars w1 asc)) with (py_hex w1 asc).
    change (text (hex_chars w2 ascq)) with (py_hex w2 ascq).
    by rewrite !py_strip_hex, !py_int_hex by done.
  - apply forallb_forall. intros c Hc%list_elem_of_In%(hex_chars_digit w1 asc Ha).
    apply negb_true_iff, not_true_is_false. intros ->%char_is_true. discriminate.
Qed.
Lemma asc_text_lower w1 w2 asc ascq : 0 <= asc → 0 <= ascq →
  py_lower (asc_text w1 w2 asc ascq) = asc_text w1 w2 asc ascq.
Proof. intros. unfold asc_text. by rewrite !py_lower_app, !py_lower_hex. Qed.

Lemma str_or_text s : str_or (PStr s) "" = s.
Proof. unfold str_or, py_or. simpl. destruct (String.eqb_spec s "") as [->|]; done. Qed.

(** A sense code is read as the kernel prints it: when an event carries the
    additional sense code [asc,ascq] in hex (zero padded to any width), the
    decoder keeps the text, names it exactly by the row of the ASC/ASCQ table,
    calls itself "standard" exactly when there is such a row, adds its note
    exactly when there is none, and takes the fault family from the code
    whatever the rest of the message says, when the code decides it. *)
Theorem scsi_sense_code_decoded (event : pydict) (w1 w2 : nat) (asc ascq : Z)
  (Hevent : py_get "asc" event = PStr (asc_text w1 w2 asc ascq)) (Hasc : 0 <= asc) (Hascq : 0 <= ascq) :
  let decoded := decode_scsi_sense_event event in
  let row := p_lookup (asc, ascq) SCSI_ASC_ASCQ_LABELS in
  py_get "asc" decoded = PStr (asc_text w1 w2 asc ascq)
  ∧ py_get "asc_label" decoded = of_opt row
  ∧ (py_get "decode_confidence" decoded = PStr "standard" ↔ is_Some row)
  ∧ (is_none (py_get "decoder_note" decoded) = true ↔ is_Some row)
  ∧ (∀ family, asc_fault_family asc ascq = Some family → py_get "family" decoded = PStr family).
Proof.
  cbv zeta. unfold decode_scsi_sense_event.
  rewrite Hevent, str_or_text, asc_text_lower, parse_asc_text by done.
  assert (∀ reason key family, asc_fault_family asc ascq = Some family →
    sense_fault_family reason key (Some (asc, ascq)) = family) as Hfam
    by (intros reason key family E; unfold sense_fault_family; by rewrite E).
  destruct (p_lookup (asc, ascq) SCSI_ASC_ASCQ_LABELS) as [la|];
    rewrite ?bool_decide_eq_true_2, ?(bool_decide_eq_false_2 (is_Some None)) by (eauto || by intros [? ?]);
    cbn [andb negb].
  - split_and!; [done|done| | |intros f E; cbn; f_equal; by apply Hfam]; by split; eauto.
  - split_and!; [done|done| | |intros f E; cbn; f_equal; by apply Hfam].
    + split; [|by intros [? ?]]. cbn. by case_match.
    + split; [|by intros [? ?]]. done.
Qed.
Lemma scsi_sense_code_decoded_witness :
  let event := [("asc", PStr "4b,03")] in
  py_get "asc_label" (decode_scsi_sense_event event) = of_opt (p_lookup (0x4B, 0x03) SCSI_ASC_ASCQ_LABELS)
  ∧ py_get "family" (decode_scsi_sense_event event) = PStr "timeout".
Proof.
  destruct (scsi_sense_code_decoded [("asc", PStr "4b,03")] 2 2 0x4B 0x03) as (_ & Hl & _ & _ & Hf);
    [done|lia|lia|]. split; [exact Hl|by apply Hf].
Defined.

(** ** Status *)

(** The ways a log spells a status: by code, with or without prefix or suffix,
    or by name, in any case and with spaces, underscores or hyphens. *)
Definition status_spellings (code : Z) (nm : string) : list string := [
  py_hex 2 code; "0x" +:+ py_hex 2 code; "0x" +:+ py_upper (py_hex 2 code); py_hex 2 code +:+ "h";
  nm; py_lower nm; py_title nm; py_replace_char " " "_" nm; py_replace_char " " "-" (py_lower nm);
  " " +:+ nm +:+ "  "
].
Definition status_ok (nm spelling : string) : bool :=
  let decoded := decode_scsi_status_value spelling in
  let label := match d_lookup nm SCSI_STATUS_LABELS with Some l => l | None => "" end in
  is_in (py_str (py_get "decode_confidence" decoded)) ["standard"]
  && String.eqb (py_str (py_get "scsi_status" decoded)) (display_scsi_status_label label)
  && String.eqb (py_str (py_get "family" decoded))
       (if String.eqb label "TASK ABORTED" then "aborted_command" else "scsi_status").

Lemma status_checked :
  forallb (λ r, forallb (status_ok (snd r)) (status_spellings (fst r) (snd r))) SCSI_STATUS_CODES = true.
Proof. vm_compute. reflexivity. Qed.

(** The spelling of a status does not matter: the standard codes, written
    with or without "0x" or "h", and their names, in any case and with spaces,
    underscores or hyphens, are all decoded as the same standard status, with
    the same display text and the same fault family. *)
Theorem scsi_status_spelling_irrelevant (code : Z) (nm spelling : string)
  (Hcode : (code, nm) ∈ SCSI_STATUS_CODES) (Hspelling : spelling ∈ status_spellings code nm) :
  let decoded := decode_scsi_status_value spelling in
  ∃ label, d_lookup nm SCSI_STATUS_LABELS = Some label
    ∧ py_str (py_get "decode_confidence" decoded) = "standard"
    ∧ py_str (py_get "scsi_status" decoded) = display_scsi_status_label label
    ∧ py_str (py_get "family" decoded)
      = if String.eqb label "TASK ABORTED" then "aborted_command" else "scsi_status".
Proof.
  cbv zeta. pose proof status_checked as H. rewrite forallb_forall in H.
  apply list_elem_of_In, H in Hcode as Hs. cbn [fst snd] in Hs. rewrite forallb_forall in Hs.
  apply list_elem_of_In, Hs in Hspelling. clear H Hs. unfold status_ok in Hspelling.
  assert (is_Some (d_lookup nm SCSI_STATUS_LABELS)) as [label Hl].
  { assert (forallb (λ r, bool_decide (is_Some (d_lookup (snd r) SCSI_STATUS_LABELS))) SCSI_STATUS_CODES
      = true) as E by reflexivity.
    rewrite forallb_forall in E. apply E in Hcode. cbn [snd] in Hcode.
    by to_prop. }
  rewrite Hl in Hspelling. to_prop. exists label. split_and!; try done.
  match goal with H : is_in _ _ = true |- _ => apply is_in_iff in H end.
  by match goal with H : _ ∈ ["standard"] |- _ => apply list_elem_of_singleton in H end.
Qed.
Lemma scsi_status_spelling_irrelevant_witness :
  ∃ label, d_lookup "TASK SET FULL" SCSI_STATUS_LABELS = Some label
    ∧ py_str (py_get "scsi_status" (decode_scsi_status_value "task-set-full"))
      = display_scsi_status_label label.
Proof.
  destruct (scsi_status_spelling_irrelevant 0x28 "TASK SET FULL" "task-set-full") as (l & Hl & _ & Hd & _);
    [by do 5 right; left|by do 8 right; left|]. by exists l.
Defined.

(** ** Persistent reservations *)

(** Persistent reservation reads are filed as data reads: of the four
    service actions of PERSISTENT RESERVE IN that have names, "READ KEYS", "READ
    RESERVATION" and "READ FULL STATUS" are listed among the maintenance
    operations, but their names start with READ, so the direction test that
    comes first classifies them, and a whole command that carries one, as
    "read_io"; only "REPORT CAPABILITIES" reaches the list. *)
Theorem persistent_reserve_reads_are_read_io :
  (λ action, cdb_fault_family <$> p_lookup (0x5E, action) SCSI_SERVICE_ACTION_NAMES) <$> [0; 1; 2; 3]
    = [Some "read_io"; Some "read_io"; Some "maintenance"; Some "read_io"]
  ∧ (λ action, py_get "family" (decode_scsi_cdb_message
       ("PERSISTENT RESERVE IN. CDB: 5e " +:+ py_hex 2 action +:+ " 00 00 00 00 00 01 00 00"))) <$> [0; 1; 2; 3]
    = [PStr "read_io"; PStr "read_io"; PStr "maintenance"; PStr "read_io"].
Proof. split; vm_compute; reflexivity. Qed.
