(* ===== verification/CdbMessage.v ===== *)
(** * Command messages

    The kernel prints a command as its operation, [. CDB: ] and the bytes of the
    command block in hex.  A message printed that way is read back: the decoder
    works on exactly the bytes that were sent. *)

From S2P Require Import Prelude PyStr PyVal Regex SasCommon ScsiTables Scsi ScsiProofs.
From Stdlib Require Import String Ascii.
#[local] Open Scope string_scope.
#[local] Open Scope list_scope.
#[local] Open Scope Z_scope.

(** ** Bytes in hex *)

Definition cdb_tokens (cdb : list Z) : list string := py_hex 2 <$> cdb.
Definition cdb_text (cdb : list Z) : string := py_join " " (cdb_tokens cdb).

Lemma hex_byte_checked :
  forall_from (λ b, bool_decide (hex_byte (py_hex 2 b) = Some b)
                    && non_empty (chars (py_hex 2 b))) 256 0 = true.
Proof. vm_compute. reflexivity. Qed.

Lemma hex_byte_spec b : is_byte b → hex_byte (py_hex 2 b) = Some b ∧ chars (py_hex 2 b) ≠ [].
Proof.
  intros Hb. pose proof (forall_from_spec _ _ _ hex_byte_checked b Hb) as E. cbv beta in E.
  to_prop. split; [done|]. by destruct (chars (py_hex 2 b)).
Qed.

Lemma hex_chars_clean w z c : 0 <= z → c ∈ hex_chars w z → is_hex c = true ∧ is_space c = false.
Proof.
  intros Hz Hc%(hex_chars_digit w z Hz). unfold hex_digit_ok, is_hex in *. to_prop.
  split; [|done]. apply orb_true_iff. by left.
Qed.

Lemma cdb_words cdb : Forall is_byte cdb → py_split (cdb_text cdb) = cdb_tokens cdb.
Proof.
  intros Hb. unfold py_split, cdb_text, py_join. rewrite chars_text. unfold words_l.
  change (chars " ") with [" "%char]. destruct cdb as [|b0 cdb0]; [done|]. set (cdb := b0 :: cdb0) in *.
  rewrite split_by_join_l; [|done| |done].
  - rewrite filter_all.
    + rewrite <-list_fmap_compose. rewrite <-(list_fmap_id (cdb_tokens cdb)) at 2.
      apply list_fmap_ext. intros i w _. apply text_chars.
    + apply Forall_forall. intros w (s & -> & (b & -> & Hin)%list_elem_of_fmap)%list_elem_of_fmap.
      rewrite Forall_forall in Hb. destruct (hex_byte_spec b (Hb b Hin)) as [_ H].
      by destruct (chars (py_hex 2 b)).
  - apply Forall_forall. intros w (s & -> & (b & -> & Hin)%list_elem_of_fmap)%list_elem_of_fmap.
    rewrite chars_hex. apply forallb_forall. intros c Hc%list_elem_of_In.
    rewrite Forall_forall in Hb. specialize (Hb b Hin). unfold is_byte in Hb.
    by destruct (hex_chars_clean 2 b c) as [_ ->]; [lia| |].
Qed.

Lemma cdb_bytes cdb : Forall is_byte cdb → omap hex_byte (py_split (cdb_text cdb)) = cdb.
Proof.
  intros Hb. rewrite cdb_words by done. unfold cdb_tokens.
  induction Hb as [|b cdb Hbb _ IH]; [done|]. rewrite fmap_cons. cbn [omap list_omap].
  destruct (hex_byte_spec b Hbb) as [-> _]. by rewrite IH.
Qed.

(** ** The message *)

(** An operation as printed: capitals, digits and a few signs, then an optional
    size in parentheses, as in [READ(10)]. *)
Record operation_text := mkOperation { op_base : string; op_size : option string }.
Definition operation_ok (o : operation_text) : bool :=
  match chars (op_base o) with
  | c :: l => is_upper_ascii c && forallb op_char l
  | [] => false
  end
  && match op_size o with
     | Some s => non_empty (chars s) && forallb upper_or_digit (chars s)
     | None => true
     end.
Definition operation_chars (o : operation_text) : list ascii :=
  chars (op_base o) ++ match op_size o with Some s => chars "(" ++ chars s ++ chars ")" | None => [] end.

Definition cdb_message (o : operation_text) (cdb : list Z) : string :=
  text (operation_chars o ++ chars "." ++ chars " " ++ chars "CDB:" ++ chars " " ++ chars (cdb_text cdb)).

Definition cdb_char (c : ascii) : bool := is_hex c || char_is " "%char c.
Lemma cdb_text_chars cdb : Forall is_byte cdb → forallb cdb_char (chars (cdb_text cdb)) = true.
Proof.
  intros Hb. unfold cdb_text, py_join. rewrite chars_text. change (chars " ") with [" "%char].
  rewrite join_l_bind. apply forallb_forall. intros c Hc%list_elem_of_In.
  assert (∀ w, w ∈ chars <$> cdb_tokens cdb → c ∈ w → cdb_char c = true) as Hw.
  { intros w (s & -> & (b & -> & Hin)%list_elem_of_fmap)%list_elem_of_fmap Hcw.
    rewrite Forall_forall in Hb. specialize (Hb b Hin). unfold is_byte in Hb.
    rewrite chars_hex in Hcw. unfold cdb_char.
    by destruct (hex_chars_clean 2 b c) as [-> _]; [lia| |]. }
  destruct (chars <$> cdb_tokens cdb) as [|w ws]; [by apply not_elem_of_nil in Hc|].
  apply elem_of_app in Hc as [Hc|(w' & Hc & Hw')%list_elem_of_bind].
  - apply (Hw w); [by left|done].
  - apply elem_of_cons in Hc as [->|Hc]; [reflexivity|]. apply (Hw w'); [by right|done].
Qed.

Lemma cdb_text_head cdb : Forall is_byte cdb → cdb ≠ [] →
  ∃ c l, chars (cdb_text cdb) = c :: l ∧ is_space c = false.
Proof.
  intros Hb Hne. destruct Hb as [|b cdb Hb _]; [done|].
  unfold cdb_text, py_join. rewrite chars_text. change (chars " ") with [" "%char].
  rewrite join_l_bind. unfold cdb_tokens. rewrite !fmap_cons, chars_hex.
  pose proof (hex_chars_clean 2 b) as H. destruct (hex_chars_spec 2 b) as [Hn _]; [by apply Hb|].
  destruct (hex_chars 2 b) as [|c l]; [done|]. cbn [app]. do 2 eexists. split; [done|].
  apply H; [by apply Hb|by left].
Qed.

Definition operation_regex : regex := seq [RChar is_upper_ascii; RStar op_char;
  ROpt (seq [lit "("; plus upper_or_digit; lit ")"])].

Lemma operation_match {R} o (k : captures → list ascii → option R) env l r :
  operation_ok o = true → k env (chars "." ++ l) = Some r →
  rmatch operation_regex k env (operation_chars o ++ chars "." ++ l) = Some r.
Proof.
  intros [Hb Hs]%andb_true_iff Hk. unfold operation_regex, seq, operation_chars. cbn [foldr].
  destruct (chars (op_base o)) as [|c w]; [done|]. apply andb_true_iff in Hb as [Hc Hw].
  rewrite rmatch_seq. rewrite <-!app_assoc. cbn [rmatch app]. rewrite Hc.
  apply greedy_all; [done|by destruct (op_size o)|].
  destruct (op_size o) as [s|]; [|exact Hk]. to_prop.
  cbn [seq foldr]. rewrite <-!app_assoc. cbn [rmatch]. rewrite rmatch_lit.
  erewrite rmatch_plus; [done|by destruct (chars s)|done|done|].
  by rewrite rmatch_lit.
Qed.

(** The pattern finds the operation and the bytes. *)
Lemma cdb_message_match o cdb :
  operation_ok o = true → Forall is_byte cdb → cdb ≠ [] →
  re_search CDB_PATTERN (cdb_message o cdb)
  = Some [("operation", text (operation_chars o)); ("cdb", cdb_text cdb)].
Proof.
  intros Ho Hb Hne. unfold re_search, cdb_message. rewrite chars_text.
  destruct (cdb_text_head cdb Hb Hne) as (h & t & Hhead & Hspace).
  set (tail := chars "." ++ _).
  assert (re_match_l CDB_PATTERN (operation_chars o ++ tail)
    = Some [("operation", text (operation_chars o)); ("cdb", cdb_text cdb)]) as E.
  { unfold re_match_l, CDB_PATTERN. fold operation_regex. unfold seq. cbn [foldr].
    rewrite rmatch_seq. subst tail. apply rmatch_group.
    { intros k' Hk. by apply operation_match. }
    rewrite !rmatch_seq, rmatch_lit, rmatch_seq. apply rmatch_plus; [done..|].
    rewrite rmatch_seq, rmatch_lit, rmatch_seq. apply rmatch_plus; [done|done| |].
    { by rewrite Hhead. }
    rewrite rmatch_seq. rewrite <-(app_nil_r (chars (cdb_text cdb))). apply rmatch_group.
    { intros k' Hk. apply rmatch_plus; [by rewrite Hhead|by apply cdb_text_chars|done|done]. }
    cbn [rmatch]. by rewrite text_chars. }
  destruct (operation_chars o ++ tail) as [|c l]; cbn [re_search_l]; by rewrite E.
Qed.

(** ** What is decoded *)

Lemma address_cases cdb :
  decode_cdb_address cdb = []
  ∨ ∃ lba blocks, decode_cdb_address cdb = [("lba", lba); ("transfer_blocks", blocks)].
Proof.
  unfold decode_cdb_address.
  repeat match goal with |- context [if ?b then _ else _] => destruct b end; eauto.
Qed.
Lemma address_keys cdb k : k ∈ (decode_cdb_address cdb).*1 → k ∈ ["lba"; "transfer_blocks"].
Proof.
  destruct (address_cases cdb) as [->|(l & b & ->)]; cbn; [intros H; by apply not_elem_of_nil in H|done].
Qed.
Lemma address_update base cdb key :
  key ∈ ["lba"; "transfer_blocks"] → py_get key base = PNone →
  py_get key (d_update base (decode_cdb_address cdb)) = py_get key (decode_cdb_address cdb).
Proof.
  intros Hkey Hb. destruct (address_cases cdb) as [->|(l & b & ->)]; [exact Hb|].
  assert (NoDup ["lba"; "transfer_blocks"]) as Hn by (by apply (bool_decide_unpack _)).
  apply elem_of_cons in Hkey as [->|[->|?%not_elem_of_nil]%elem_of_cons];
    [by apply py_get_update_eq..|done].
Qed.
Lemma lengths_keys cdb k : k ∈ (decode_cdb_lengths cdb).*1 → k ∈ ["allocation_length"; "parameter_list_length"].
Proof.
  unfold decode_cdb_lengths. destruct cdb as [|o cdb]; [intros H; by apply not_elem_of_nil in H|].
  repeat match goal with |- context [if ?b then _ else _] => destruct b end;
    cbn; rewrite ?elem_of_cons; tauto.
Qed.

Lemma log_sense_keys cdb k : k ∈ (decode_log_sense_cdb cdb).*1 →
  k ∈ ["log_page_code"; "log_page"; "log_page_control"; "log_page_control_label"; "log_save_parameters";
       "log_page_source"; "log_subpage_code"; "sas_phy_log_concepts"].
Proof.
  unfold decode_log_sense_cdb. destruct (negb _); [intros H; by apply not_elem_of_nil in H|].
  cbv zeta. destruct (at_least 4 cdb), (Z.land (nth_byte 2 cdb) 0x3F =? 0x18); cbn [d_set String.eqb Ascii.eqb Bool.eqb];
    cbn [fmap list_fmap fst]; rewrite !elem_of_cons; tauto.
Qed.

Lemma keys_disjoint ks l key :
  forallb (λ k, negb (is_in k l)) ks = true → key ∈ ks → key ∉ l.
Proof.
  intros H Hk Hin. rewrite forallb_forall in H. apply list_elem_of_In, H, negb_true_iff in Hk.
  apply is_in_iff in Hin. congruence.
Qed.
Ltac keys_differ Hkey keys :=
  let H := fresh in
  intros H; apply keys in H; revert H; refine (keys_disjoint _ _ _ _ Hkey); reflexivity.

(** The parts of the dict, each under keys of its own. *)
Lemma parts_lookup (base : pydict) (opcode : option Z) cdb key :
  let parts := d_update (d_update base (decode_cdb_address cdb)) (decode_cdb_lengths cdb) in
  let decoded := if bool_decide (opcode = Some 0x4D) then d_update parts (decode_log_sense_cdb cdb) else parts in
  (key ∈ ["cdb_hex"; "byte_count"; "opcode"; "operation"; "family"; "likely_layer"] →
     py_get key decoded = py_get key base)
  ∧ (key ∈ ["lba"; "transfer_blocks"] → py_get key base = PNone →
     py_get key decoded = py_get key (decode_cdb_address cdb)).
Proof.
  cbv zeta.
  assert (∀ e : pydict, key ∉ (decode_log_sense_cdb cdb).*1 →
    py_get key (if bool_decide (opcode = Some 0x4D) then d_update e (decode_log_sense_cdb cdb) else e)
    = py_get key e) as Hlog by (intros e He; case_bool_decide; [by apply py_get_update_ne|done]).
  split; intros Hkey; [|intros Hbase]; rewrite Hlog by (keys_differ Hkey (log_sense_keys cdb));
    rewrite py_get_update_ne by (keys_differ Hkey (lengths_keys cdb)).
  - by rewrite py_get_update_ne by (keys_differ Hkey (address_keys cdb)).
  - by apply address_update.
Qed.

Lemma parts_conclude (base : pydict) opcode rest (row : option string) :
  let cdb := opcode :: rest in
  let parts := d_update (d_update base (decode_cdb_address cdb)) (decode_cdb_lengths cdb) in
  let decoded :=
    if bool_decide (Some opcode = Some 0x4D) then d_update parts (decode_log_sense_cdb cdb) else parts in
  py_get "cdb_hex" base = PStr (cdb_text cdb) →
  py_get "byte_count" base = PInt (Z.of_nat (List.length cdb)) →
  py_get "opcode" base = PStr (hex_text opcode) →
  py_get "lba" base = PNone → py_get "transfer_blocks" base = PNone →
  (∀ nm, row = Some nm → service_action_opcode opcode = false →
     py_get "operation" base = PStr nm ∧ py_get "family" base = PStr (cdb_fault_family nm)) →
  py_get "cdb_hex" decoded = PStr (cdb_text cdb)
  ∧ py_get "byte_count" decoded = PInt (Z.of_nat (List.length cdb))
  ∧ py_get "opcode" decoded = PStr (hex_text opcode)
  ∧ (∀ nm, row = Some nm → service_action_opcode opcode = false →
     py_get "operation" decoded = PStr nm ∧ py_get "family" decoded = PStr (cdb_fault_family nm))
  ∧ ∀ key, key ∈ ["lba"; "transfer_blocks"] →
      py_get key decoded = py_get key (decode_cdb_address cdb).
Proof.
  cbv zeta. intros H1 H2 H3 Hl Ht Hn.
  assert (∀ key, is_in key ["cdb_hex"; "byte_count"; "opcode"; "operation"; "family"; "likely_layer"] = true →
    py_get key (if bool_decide (Some opcode = Some 0x4D)
      then d_update (d_update (d_update base (decode_cdb_address (opcode :: rest)))
        (decode_cdb_lengths (opcode :: rest))) (decode_log_sense_cdb (opcode :: rest))
      else d_update (d_update base (decode_cdb_address (opcode :: rest))) (decode_cdb_lengths (opcode :: rest)))
    = py_get key base) as Hp.
  { intros key Hk%is_in_iff. by apply (proj1 (parts_lookup base (Some opcode) (opcode :: rest) key)). }
  rewrite !Hp by reflexivity. split_and!; try done.
  intros key Hkey. apply (proj2 (parts_lookup base (Some opcode) (opcode :: rest) key)); [done|].
  by apply elem_of_cons in Hkey as [->|[->|?%not_elem_of_nil]%elem_of_cons].
Qed.

(** A command is decoded from the bytes it was printed from: for every
    operation name and every command block (one byte or more), the message
    "<operation>. CDB: <bytes in hex>" is recognised, the record quotes the same
    bytes and counts them, the operation code is the first byte, and the address
    fields are those of the block itself, so by
    [scsi_cdb_address_roundtrip] the address the initiator put on the wire. *)
Theorem scsi_cdb_message_decoded (o : operation_text) (opcode : Z) (rest : list Z)
  (Ho : operation_ok o = true) (Hcdb : Forall is_byte (opcode :: rest)) :
  let cdb := opcode :: rest in
  let decoded := decode_scsi_cdb_message (cdb_message o cdb) in
  py_get "cdb_hex" decoded = PStr (cdb_text cdb)
  ∧ py_get "byte_count" decoded = PInt (Z.of_nat (List.length cdb))
  ∧ py_get "opcode" decoded = PStr (hex_text opcode)
  ∧ (∀ nm, t_lookup opcode SCSI_CDB_OPCODE_NAMES = Some nm → service_action_opcode opcode = false →
     py_get "operation" decoded = PStr nm ∧ py_get "family" decoded = PStr (cdb_fault_family nm))
  ∧ ∀ key, key ∈ ["lba"; "transfer_blocks"] →
      py_get key decoded = py_get key (decode_cdb_address cdb).
Proof.
  cbv zeta. unfold decode_scsi_cdb_message. rewrite cdb_message_match by done.
  cbn [group_text group d_lookup String.eqb Ascii.eqb Bool.eqb]. rewrite cdb_bytes by done.
  unfold cdb_report. cbn [head].
  destruct (service_action_opcode opcode && at_least 2 (opcode :: rest)) eqn:Esa.
  all: try destruct (p_lookup _ SCSI_SERVICE_ACTION_NAMES) as [act|] eqn:Eact.
  all: destruct (t_lookup opcode SCSI_CDB_OPCODE_NAMES) as [nm0|] eqn:Enm.
  all: rewrite ?bool_decide_eq_true_2, ?(bool_decide_eq_false_2 (is_Some None)) by (eauto || by intros [? ?]).
  all: cbn [andb negb]; apply parts_conclude; try reflexivity.
  all: intros nm Hnm Hsa; try discriminate Hnm; rewrite Hsa in Esa; try discriminate Esa.
  all: injection Hnm as <-; by split.
Qed.
Lemma scsi_cdb_message_decoded_witness :
  py_get "lba" (decode_scsi_cdb_message
    (cdb_message (mkOperation "READ" (Some "10")) [0x28; 0; 0; 0; 0x12; 0x34; 0; 0; 8; 0])) = PInt 0x1234.
Proof.
  destruct (scsi_cdb_message_decoded (mkOperation "READ" (Some "10")) 0x28 [0; 0; 0; 0x12; 0x34; 0; 0; 8; 0])
    as (_ & _ & _ & _ & H); [reflexivity|repeat constructor; done|].
  etrans; [apply H; by left|reflexivity].
Defined.
