(* ===== verification/LsiProofs.v ===== *)
(** * Theorems on loginfo words

    Which words are decoded with full confidence, and how a word's digits are
    read. *)

From S2P Require Import Prelude PyStr PyVal Regex SasCommon LsiTables LsiLoginfo.
From Stdlib Require Import String Ascii.
#[local] Open Scope string_scope.
#[local] Open Scope list_scope.
#[local] Open Scope Z_scope.

(** ** The words of the reference tables

    Every word a table entry describes, built by adding the keys of the type,
    origin, code, sub-code and detail tables. *)

Definition pl_low_words (code : Z) : list Z :=
  if existsb (Z.eqb code) [0x00010000; 0x00110000; 0x00120000] then
    0 :: List.flat_map (λ s,
      s :: ((λ d, s + d) <$>
        (if s =? 0x00000100 then LSI_SAS_PL_OPEN_FAILURE_DETAILS.*1
         else if s =? 0x00000E00 then LSI_SAS_PL_DISCOVERY_SATA_DETAILS.*1 else [])))
      LSI_SAS_PL_SUBCODES.*1
  else if code =? 0x000F0000 then 0 :: LSI_SAS_PL_CONFIG_ERRORS.*1
  else if code =? 0x00200000 then 0 :: LSI_SAS_PL_ENCLOSURE_MGMT_ERRORS.*1
  else [0].
Definition iop_low_words (code : Z) : list Z :=
  if code =? 0x00010000 then 0 :: LSI_SAS_IOP_BOOT_DETAILS.*1
  else if code =? 0x00030000 then 0 :: LSI_SAS_IOP_INVALID_PAGE_DETAILS.*1
  else if code =? 0x00060000 then 0 :: LSI_SAS_IOP_ENCLOSURE_MGMT_DETAILS.*1
  else if code =? 0x00070000 then 0 :: LSI_SAS_IOP_TARGET_DETAILS.*1
  else [0].
Definition coded_words (base : Z) (codes : list Z) (lows : Z → list Z) : list Z :=
  List.flat_map (λ c, (λ l, base + c + l) <$> lows c) codes.
Definition vendor_words : list Z :=
  coded_words 0x31000000 LSI_SAS_PL_CODES.*1 pl_low_words
  ++ coded_words 0x30000000 LSI_SAS_IOP_CODES.*1 iop_low_words
  ++ ((λ c, 0x32000000 + c) <$> LSI_SAS_IR_CODES.*1).

Lemma elem_of_flat_map {A B} (f : A → list B) l y :
  y ∈ List.flat_map f l ↔ ∃ x, x ∈ l ∧ y ∈ f x.
Proof.
  rewrite list_elem_of_In, in_flat_map.
  split; intros (x & ? & ?); exists x; by rewrite ?list_elem_of_In in *.
Qed.
Lemma coded_words_intro base codes lows c l :
  c ∈ codes → l ∈ lows c → base + c + l ∈ coded_words base codes lows.
Proof.
  intros Hc Hl. apply elem_of_flat_map. exists c. split; [done|]. apply list_elem_of_fmap. by exists l.
Qed.

(** ** Fields of a word *)

Lemma land_split v m1 m2 : Z.land m1 m2 = 0 →
  Z.land v (Z.lor m1 m2) = Z.land v m1 + Z.land v m2.
Proof.
  intros H. rewrite Z.land_lor_distr_r. pose proof (Z.add_lor_land (Z.land v m1) (Z.land v m2)) as E.
  assert (Z.land (Z.land v m1) (Z.land v m2) = 0) as E0.
  { rewrite Z.land_assoc, (Z.land_comm (Z.land v m1)), Z.land_assoc, Z.land_diag, <-Z.land_assoc, H.
    apply Z.land_0_r. }
  lia.
Qed.

Lemma land_low32 v m : Z.land (Z.ones 32) m = m → Z.land (v mod 2 ^ 32) m = Z.land v m.
Proof. intros H. by rewrite <-Z.land_ones, <-Z.land_assoc, H by lia. Qed.

Lemma word_fields v :
  v mod 2 ^ 32 = type_bits v + origin_bits v + code_bits v + low_16_bits v.
Proof.
  rewrite <-Z.land_ones by lia. unfold type_bits, origin_bits, code_bits, low_16_bits.
  change (Z.ones 32) with (Z.lor (Z.lor (Z.lor 0xF0000000 0x0F000000) 0x00FF0000) 0x0000FFFF).
  by rewrite !land_split.
Qed.
Lemma low_16_fields v : low_16_bits v = sub_code_bits v + sub_detail_bits v.
Proof. unfold low_16_bits. change 0x0000FFFF with (Z.lor 0x0000FF00 0x000000FF). by apply land_split. Qed.
Lemma low_24_fields v : Z.land v 0x00FFFFFF = code_bits v + low_16_bits v.
Proof. change 0x00FFFFFF with (Z.lor 0x00FF0000 0x0000FFFF). by apply land_split. Qed.

Lemma clear_land mask m v : clear_bits mask (Z.land v m) = Z.land v (Z.land m (Z.lnot mask)).
Proof. unfold clear_bits. by rewrite Z.land_assoc. Qed.

(** ** Lookups *)

Lemma t_lookup_key {A} k (v : A) t : t_lookup k t = Some v → k ∈ t.*1.
Proof. intros H%t_lookup_elem. apply list_elem_of_fmap. by exists (k, v). Qed.
Lemma found_entry k t : found (entry_of (t_lookup k t)) = true → k ∈ t.*1.
Proof.
  destruct (t_lookup k t) as [[[sy la] fa]|] eqn:E; [intros _; by eapply t_lookup_key|done].
Qed.

Lemma low_detail_none t v u d : low_detail t v u = (d, 0) →
  u = low_16_bits v → low_16_bits v ∈ 0 :: t.*1.
Proof.
  unfold low_detail. intros [= _ H] ->. destruct (found _) eqn:E; [by right; apply found_entry|].
  rewrite H. by left.
Qed.

Lemma byte_detail_none t v u d : byte_detail t v u = (d, 0) →
  (∃ k, k ∈ t.*1 ∧ k = sub_detail_bits v ∧ clear_bits 0xFF u = 0) ∨ u = 0.
Proof.
  unfold byte_detail. destruct (found _) eqn:E; intros [= _ H]; [left|by right].
  exists (sub_detail_bits v). split_and!; [by apply found_entry|done|done].
Qed.

Lemma clear_sub_code v : clear_bits 0xFF00 (low_16_bits v) = sub_detail_bits v.
Proof. unfold low_16_bits. by rewrite clear_land. Qed.
Lemma clear_sub_detail v : clear_bits 0xFF (low_16_bits v) = sub_code_bits v.
Proof. unfold low_16_bits. by rewrite clear_land. Qed.

(** The words whose code carries a sub-code. *)
Definition sub_words : list Z :=
  0 :: List.flat_map (λ s,
    s :: ((λ d, s + d) <$>
      (if s =? 0x00000100 then LSI_SAS_PL_OPEN_FAILURE_DETAILS.*1
       else if s =? 0x00000E00 then LSI_SAS_PL_DISCOVERY_SATA_DETAILS.*1 else [])))
    LSI_SAS_PL_SUBCODES.*1.

Lemma sub_words_plain s : s ∈ LSI_SAS_PL_SUBCODES.*1 → s + 0 ∈ sub_words.
Proof.
  intros Hs. rewrite Z.add_0_r. right. apply elem_of_flat_map. exists s. split; [done|by left].
Qed.
Lemma sub_words_detail s d :
  s ∈ LSI_SAS_PL_SUBCODES.*1 →
  d ∈ (if s =? 0x00000100 then LSI_SAS_PL_OPEN_FAILURE_DETAILS.*1
       else if s =? 0x00000E00 then LSI_SAS_PL_DISCOVERY_SATA_DETAILS.*1 else []) →
  s + d ∈ sub_words.
Proof.
  intros Hs Hd. right. apply elem_of_flat_map. exists s. split; [done|]. right.
  apply list_elem_of_fmap. by exists d.
Qed.

Lemma pl_sub_complete v s d :
  (let s := entry_of (t_lookup (sub_code_bits v) LSI_SAS_PL_SUBCODES) in
   let u := if found s then clear_bits 0xFF00 (low_16_bits v) else low_16_bits v in
   if (sub_code_bits v =? 0x100) && negb (sub_detail_bits v =? 0) then
     let '(d, u) := byte_detail LSI_SAS_PL_OPEN_FAILURE_DETAILS v u in (s, d, u)
   else if sub_code_bits v =? 0xE00 then
     let '(d, u) := byte_detail LSI_SAS_PL_DISCOVERY_SATA_DETAILS v u in (s, d, u)
   else (s, no_entry, u)) = (s, d, 0) →
  low_16_bits v ∈ sub_words.
Proof.
  cbv zeta. pose proof (low_16_fields v) as Hlow.
  destruct (found _) eqn:Ef.
  - apply found_entry in Ef. rewrite clear_sub_code, Hlow.
    destruct ((sub_code_bits v =? 0x100) && negb (sub_detail_bits v =? 0)) eqn:E1.
    { destruct (byte_detail _ _ _) as [d' u'] eqn:Eb. intros [= _ _ ->].
      apply andb_true_iff in E1 as [E1%Z.eqb_eq _].
      apply byte_detail_none in Eb as [(k & Hk & -> & _)| ->];
        [apply sub_words_detail; [done|by rewrite E1]|by apply sub_words_plain]. }
    destruct (sub_code_bits v =? 0xE00) eqn:E2.
    { destruct (byte_detail _ _ _) as [d' u'] eqn:Eb. intros [= _ _ ->].
      apply Z.eqb_eq in E2.
      apply byte_detail_none in Eb as [(k & Hk & -> & _)| ->];
        [apply sub_words_detail; [done|by rewrite E2]|by apply sub_words_plain]. }
    intros [= _ _ ->]. by apply sub_words_plain.
  - assert (sub_code_bits v =? 0x100 = false ∧ sub_code_bits v =? 0xE00 = false) as [-> ->].
    { split; apply Z.eqb_neq; intros E; rewrite E in Ef; discriminate. }
    cbn [andb]. intros [= _ _ ->]. by left.
Qed.

Lemma pl_details_complete v s d :
  pl_details v (low_16_bits v) = (s, d, 0) → low_16_bits v ∈ pl_low_words (code_bits v).
Proof.
  unfold pl_details, pl_low_words. destruct (existsb _ _); [apply pl_sub_complete|].
  destruct (code_bits v =? 0xF0000).
  { destruct (low_detail _ _ _) as [d' u'] eqn:E. intros [= _ _ ->]. by eapply low_detail_none. }
  destruct (code_bits v =? 0x200000).
  { destruct (low_detail _ _ _) as [d' u'] eqn:E. intros [= _ _ ->]. by eapply low_detail_none. }
  intros [= _ _ ->]. by left.
Qed.

Lemma iop_detail_complete v d :
  iop_detail v (low_16_bits v) = (d, 0) → low_16_bits v ∈ iop_low_words (code_bits v).
Proof.
  unfold iop_detail, iop_low_words.
  repeat match goal with
  | |- context [code_bits v =? ?k] =>
      destruct (code_bits v =? k); [intros H; by eapply low_detail_none|]
  end.
  intros [= _ ->]. by left.
Qed.

(** ** Full confidence *)

Definition full_confidence (i : loginfo) : bool :=
  bool_decide (loginfo_confidence i = ("vendor-reference", None)).

Lemma full_confidence_true i :
  full_confidence i = true →
  type_key i = "sas" ∧ origin_key i ≠ "unknown" ∧ is_Some (code_symbol i) ∧ unparsed i = 0.
Proof.
  intros H. apply bool_decide_eq_true in H. unfold loginfo_confidence in H.
  destruct (String.eqb_spec (type_key i) "unknown"); [done|].
  destruct (String.eqb_spec (type_key i) "sas"); [|done]. cbn [negb] in H.
  destruct (String.eqb_spec (origin_key i) "unknown"); [done|].
  case_bool_decide; [|done]. cbn [negb] in H.
  destruct (Z.eqb_spec (unparsed i) 0); done.
Qed.

Lemma type_sas v r : t_lookup v LSI_LOGINFO_TYPE_NAMES = Some r → snd r = "sas" → v = 0x30000000.
Proof.
  intros H%t_lookup_elem E. unfold LSI_LOGINFO_TYPE_NAMES in H.
  repeat (apply elem_of_cons in H as [[= -> ->]|H]; [done|]). by apply not_elem_of_nil in H.
Qed.

Lemma origin_cases v r : t_lookup v LSI_SAS_ORIGIN_NAMES = Some r →
  v = 0 ∧ snd r = "iop" ∨ v = 0x01000000 ∧ snd r = "physical_layer"
  ∨ v = 0x02000000 ∧ snd r = "integrated_raid".
Proof.
  intros H%t_lookup_elem. unfold LSI_SAS_ORIGIN_NAMES in H.
  repeat (apply elem_of_cons in H as [[= -> ->]|H]; [auto|]). by apply not_elem_of_nil in H.
Qed.

Lemma code_entry_some row la sy l f n :
  code_entry row la = (sy, l, f, n) → is_Some sy → is_Some row.
Proof. destruct row as [[[[? ?] ?] ?]|]; simpl; [eauto|]. intros [= <- _ _ _] [? ?]. done. Qed.

Lemma loginfo_explained v : full_confidence (loginfo_fields v) = true → v mod 2 ^ 32 ∈ vendor_words.
Proof.
  intros (Ht & Ho & Hc & Hu)%full_confidence_true. revert Ht Ho Hc Hu.
  rewrite word_fields. unfold loginfo_fields.
  destruct (t_lookup (type_bits v) _) as [[tl tk]|] eqn:Et; [|by repeat case_match].
  destruct (t_lookup (origin_bits v) _) as [[ol ok]|] eqn:Eo.
  2: { intros _ Ho. revert Ho. by repeat case_match. }
  pose proof (type_sas _ _ Et) as Hsas. cbn [snd] in Hsas.
  destruct (String.eqb_spec tk "sas") as [->|Hne]; [|by cbn [andb]; intros ?].
  rewrite Hsas by done. cbn [andb].
  unfold vendor_words. rewrite !elem_of_app.
  rewrite clear_land. change (Z.land 0xFFFFFF (Z.lnot 0xFF0000)) with 0xFFFF. fold (low_16_bits v).
  destruct (origin_cases _ _ Eo) as [[-> E]|[[-> E]|[-> E]]]; cbn [snd] in E; subst ok;
    cbn [String.eqb Ascii.eqb Bool.eqb andb].
  - destruct (code_entry _ _) as [[[sy la] fa] no] eqn:Ec.
    destruct (iop_detail v _) as [d u] eqn:Ed. cbn [type_key origin_key code_symbol unparsed].
    intros _ _ Hs ->. right; left. destruct (code_entry_some _ _ _ _ _ _ Ec Hs) as [r Hr].
    rewrite Z.add_0_r. apply coded_words_intro; [by eapply t_lookup_key|by eapply iop_detail_complete].
  - destruct (code_entry _ _) as [[[sy la] fa] no] eqn:Ec.
    destruct (pl_details v _) as [[s d] u] eqn:Ed. cbn [type_key origin_key code_symbol unparsed].
    intros _ _ Hs ->. left. destruct (code_entry_some _ _ _ _ _ _ Ec Hs) as [r Hr].
    apply coded_words_intro; [by eapply t_lookup_key|by eapply pl_details_complete].
  - destruct (t_lookup (Z.land v 0xFFFFFF) _) as [[[sy la] fa]|] eqn:Er; [|by intros _ _ [? ?]].
    intros _ _ _ _. right; right. apply t_lookup_key in Er. rewrite low_24_fields in Er.
    apply list_elem_of_fmap. exists (code_bits v + low_16_bits v). split; [lia|done].
Qed.

(** The other direction is a computation on the words themselves. *)
Lemma vendor_words_checked : forallb (λ v, full_confidence (loginfo_fields v)) vendor_words = true.
Proof. vm_compute. reflexivity. Qed.

Lemma loginfo_fields_low v : loginfo_fields (v mod 2 ^ 32) = loginfo_fields v.
Proof.
  unfold loginfo_fields, pl_details, iop_detail, low_detail, byte_detail,
    type_bits, origin_bits, code_bits, sub_code_bits, sub_detail_bits, low_16_bits.
  by rewrite !land_low32.
Qed.

Lemma full_confidence_iff v :
  full_confidence (loginfo_fields v) = true ↔ v mod 2 ^ 32 ∈ vendor_words.
Proof.
  split; [apply loginfo_explained|]. intros H%list_elem_of_In.
  rewrite <-loginfo_fields_low. pose proof vendor_words_checked as E. rewrite forallb_forall in E.
  by apply E.
Qed.

(** ** The decoder *)

Lemma raw_loginfo_hex v : 0 <= v → raw_loginfo (py_hex 8 v) = py_hex 8 v.
Proof.
  intros Hv. unfold raw_loginfo. rewrite py_strip_hex, py_lower_hex by done.
  pose proof (hex_chars_digit 8 v Hv) as Hd.
  unfold py_removeprefix, py_startswith. rewrite chars_hex in *.
  destruct (hex_chars 8 v) as [|a [|b l]]; [done|by cbn; rewrite andb_false_r|].
  assert (hex_digit_ok b = true) as Hb by (apply Hd; right; left).
  assert (char_is "x"%char b = false) as Hx by (unfold hex_digit_ok in Hb; by to_prop).
  change (prefix_l (chars "0x") (a :: b :: l))
    with (char_is "0"%char a && (char_is "x"%char b && true)).
  by rewrite Hx, andb_false_r.
Qed.

Lemma decode_lsi_loginfo_hex v : 0 <= v →
  decode_lsi_loginfo (py_hex 8 v) = Some (loginfo_report (py_hex 8 v) v).
Proof.
  intros Hv. unfold decode_lsi_loginfo. rewrite raw_loginfo_hex, py_int_hex by done.
  rewrite fullmatch_plus, chars_hex. destruct (hex_chars_spec 8 v Hv) as [Hne HF].
  assert (forallb is_hex_lower (hex_chars 8 v) = true) as ->.
  { apply forallb_forall. intros c Hc. eapply forallb_forall in HF; [|exact Hc].
    unfold hex_digit_ok in HF. by to_prop. }
  by destruct (hex_chars 8 v).
Qed.

Lemma report_confidence raw v :
  py_get "decode_confidence" (loginfo_report raw v) = PStr (loginfo_confidence (loginfo_fields v)).1.
Proof.
  unfold loginfo_report. by destruct (loginfo_confidence (loginfo_fields v)) as [c [n|]].
Qed.
Lemma confidence_full i : (loginfo_confidence i).1 = "vendor-reference" ↔ full_confidence i = true.
Proof.
  unfold full_confidence. rewrite bool_decide_eq_true. unfold loginfo_confidence.
  by repeat case_match.
Qed.

(** Full confidence means fully explained: the decoder reads the eight (or
    more) hex digits of any word and reports it with confidence
    "vendor-reference" exactly when the low 32 bits of the word are one of the
    words the reference tables spell out, that is a sum of a listed type,
    origin, code and, where the code has them, a listed sub-code and detail.
    No bit of a fully confident word is unaccounted for, and no listed word is
    reported with less. *)
Theorem lsi_full_confidence_exact (value : Z) (Hvalue : 0 <= value) :
  ∃ decoded, decode_lsi_loginfo (py_hex 8 value) = Some decoded
    ∧ (py_get "decode_confidence" decoded = PStr "vendor-reference"
       ↔ value mod 2 ^ 32 ∈ vendor_words).
Proof.
  exists (loginfo_report (py_hex 8 value) value). split; [by apply decode_lsi_loginfo_hex|].
  rewrite report_confidence, <-full_confidence_iff, <-confidence_full. split; [congruence|by intros ->].
Qed.
Lemma lsi_full_confidence_exact_witness :
  ∃ decoded, decode_lsi_loginfo (py_hex 8 0x31120302) = Some decoded
    ∧ (py_get "decode_confidence" decoded = PStr "vendor-reference"
       ↔ 0x31120302 mod 2 ^ 32 ∈ vendor_words).
Proof. apply (lsi_full_confidence_exact 0x31120302). lia. Defined.

(** A word wider than 32 bits is decoded as its low 32 bits: every field of
    the report but the quoted digits and the description is that of the
    truncated word, the confidence included, so the extra digits never show in
    "unparsed". *)
Theorem lsi_wide_word_aliases (value : Z) (key : string) (Hvalue : 0 <= value)
  (Hkey : key ∈ ["label"; "family"; "likely_layer"; "decode_confidence"; "decoder_note"; "lsi_loginfo"]) :
  ∃ wide low,
    decode_lsi_loginfo (py_hex 8 value) = Some wide
    ∧ decode_lsi_loginfo (py_hex 8 (value mod 2 ^ 32)) = Some low
    ∧ py_get key wide = py_get key low.
Proof.
  assert (0 <= value mod 2 ^ 32) as Hlow by (apply Z.mod_pos_bound; lia).
  exists (loginfo_report (py_hex 8 value) value),
    (loginfo_report (py_hex 8 (value mod 2 ^ 32)) (value mod 2 ^ 32)).
  split_and!; [by apply decode_lsi_loginfo_hex..|].
  unfold loginfo_report. rewrite loginfo_fields_low.
  unfold code_bits, sub_code_bits, sub_detail_bits. rewrite !land_low32 by done.
  destruct (loginfo_confidence _) as [c [n|]];
    repeat (apply elem_of_cons in Hkey as [->|Hkey]; [done|]); by apply not_elem_of_nil in Hkey.
Qed.
Lemma lsi_wide_word_aliases_witness :
  ∃ wide low,
    decode_lsi_loginfo (py_hex 8 0xF31110D00) = Some wide
    ∧ decode_lsi_loginfo (py_hex 8 (0xF31110D00 mod 2 ^ 32)) = Some low
    ∧ py_get "decode_confidence" wide = py_get "decode_confidence" low.
Proof. apply (lsi_wide_word_aliases 0xF31110D00 "decode_confidence"); [lia|by do 3 right; left]. Defined.
