(* ===== verification/DecoderProofs.v ===== *)
(** * Theorems on decoded events

    Every decoded event belongs to a known fault family, diagnostic values are
    bounded, and a record holds bounded values under distinct keys. *)

From S2P Require Import Prelude PyStr PyVal Regex SasCommon ScsiTables.
From S2P Require Import Scsi LsiTables LsiLoginfo SasDecoder ScsiProofs CdbMessage LsiProofs.
From Stdlib Require Import String Ascii.
#[local] Open Scope string_scope.
#[local] Open Scope list_scope.
#[local] Open Scope Z_scope.

(** ** Families *)

(** A decoded event: nothing, or a dict with a known family and a layer. *)
Definition family_ok (d : pydict) : Prop :=
  ∃ family layer, py_get "family" d = PStr family ∧ known_family family = true
    ∧ py_get "likely_layer" d = PStr layer ∧ layer ≠ "".

Ltac by_branches :=
  repeat match goal with |- context [if ?b then _ else _] => destruct b end; reflexivity.

Lemma cdb_family_known operation : known_family (cdb_fault_family operation) = true.
Proof. unfold cdb_fault_family. cbv zeta. by_branches. Qed.

Lemma asc_family_known asc ascq f : asc_fault_family asc ascq = Some f → known_family f = true.
Proof.
  unfold asc_fault_family.
  repeat match goal with |- context [if ?b then _ else _] => destruct b end;
    first [intros [= <-]; reflexivity|discriminate].
Qed.

Lemma sense_family_known reason key asc : known_family (sense_fault_family reason key asc) = true.
Proof.
  unfold sense_fault_family. cbv zeta.
  destruct asc as [[a b]|]; [destruct (asc_fault_family a b) eqn:E; [by eapply asc_family_known|]|];
    by_branches.
Qed.

(** Families of the loginfo tables. *)
Definition row_known (r : string * string * string) : bool := known_family r.2.
Definition code_known (r : string * string * string * string) : bool := known_family r.1.2.
Definition entry_known (e : entry) : Prop :=
  match e_family e with Some f => known_family f = true | None => True end.

Lemma entry_known_of t k : forallb (λ r, row_known (snd r)) t = true → entry_known (entry_of (t_lookup k t)).
Proof.
  intros H. unfold entry_known. destruct (t_lookup k t) as [[[sy la] fa]|] eqn:E; [|done].
  exact (t_lookup_all row_known _ _ _ H E).
Qed.
Lemma low_detail_known t v u :
  forallb (λ r, row_known (snd r)) t = true → entry_known (low_detail t v u).1.
Proof. apply entry_known_of. Qed.
Lemma byte_detail_known t v u :
  forallb (λ r, row_known (snd r)) t = true → entry_known (byte_detail t v u).1.
Proof. apply entry_known_of. Qed.
Lemma pl_details_known v u : entry_known (pl_details v u).1.1 ∧ entry_known (pl_details v u).1.2.
Proof.
  unfold pl_details.
  repeat match goal with
  | |- context [if ?b then _ else _] => destruct b
  | |- context [byte_detail ?t v ?u] =>
      pose proof (byte_detail_known t v u eq_refl); destruct (byte_detail t v u) as [? ?]
  | |- context [low_detail ?t v ?u] =>
      pose proof (low_detail_known t v u eq_refl); destruct (low_detail t v u) as [? ?]
  end; cbn [fst snd] in *; split; try done; by apply entry_known_of.
Qed.
Lemma iop_detail_known v u : entry_known (iop_detail v u).1.
Proof.
  unfold iop_detail.
  repeat match goal with |- context [if ?b then _ else _] => destruct b; [by apply low_detail_known|] end.
  done.
Qed.
Lemma code_entry_known t k la :
  forallb (λ r, code_known (snd r)) t = true →
  known_family (code_entry (t_lookup k t) la).1.2 = true.
Proof.
  intros H. destruct (t_lookup k t) as [[[[sy l] fa] no]|] eqn:E; [|done].
  exact (t_lookup_all code_known _ _ _ H E).
Qed.

Lemma opt_or_known a b : 
  match a with Some f => known_family f = true | None => True end →
  match b with Some f => known_family f = true | None => True end →
  match opt_or a b with Some f => known_family f = true | None => True end.
Proof. intros Ha Hb. destruct a as [s|]; simpl; [|done]. by destruct (String.eqb s ""). Qed.

Lemma loginfo_family_known v : known_family (loginfo_family (loginfo_fields v)) = true.
Proof.
  assert (entry_known (detail (loginfo_fields v)) ∧ entry_known (sub (loginfo_fields v))
    ∧ known_family (code_family (loginfo_fields v)) = true) as (Hd & Hs & Hc).
  { unfold loginfo_fields.
    destruct (match t_lookup (type_bits v) LSI_LOGINFO_TYPE_NAMES with
      Some r => r | None => ("Unknown", "unknown") end) as [tl tk].
    destruct (match t_lookup (origin_bits v) LSI_SAS_ORIGIN_NAMES with
      Some r => r | None => ("Unknown", "unknown") end) as [ol ok].
    cbv zeta. destruct (String.eqb tk "sas" && String.eqb ok "physical_layer").
    { pose proof (code_entry_known LSI_SAS_PL_CODES (code_bits v) "Unknown SAS physical-layer code" eq_refl).
      destruct (code_entry _ _) as [[[? ?] ?] ?]. 
      pose proof (pl_details_known v (clear_bits 0xFF0000 (Z.land v 0xFFFFFF))) as [H1 H2].
      destruct (pl_details _ _) as [[? ?] ?]. by cbn in *. }
    destruct (String.eqb tk "sas" && String.eqb ok "iop").
    { pose proof (code_entry_known LSI_SAS_IOP_CODES (code_bits v) "Unknown SAS IOP code" eq_refl).
      destruct (code_entry _ _) as [[[? ?] ?] ?]. 
      pose proof (iop_detail_known v (clear_bits 0xFF0000 (Z.land v 0xFFFFFF))) as H1.
      destruct (iop_detail _ _) as [? ?]. by cbn in *. }
    destruct (String.eqb tk "sas" && String.eqb ok "integrated_raid"); [|done].
    destruct (t_lookup _ LSI_SAS_IR_CODES) as [[[? ?] ?]|] eqn:E; [|done].
    split_and!; [done|done|]. exact (t_lookup_all row_known LSI_SAS_IR_CODES _ _ eq_refl E). }
  unfold loginfo_family.
  pose proof (opt_or_known (e_family (detail (loginfo_fields v)))
    (opt_or (e_family (sub (loginfo_fields v))) (Some (code_family (loginfo_fields v)))) Hd
    (opt_or_known _ (Some _) Hs Hc)) as H.
  by destruct (opt_or _ _).
Qed.

(** ** Every decoder *)

Lemma cdb_report_family reported cdb : family_ok (cdb_report reported cdb).
Proof.
  assert (∃ (base : pydict) operation,
    py_get "family" base = PStr (cdb_fault_family operation)
    ∧ py_get "likely_layer" base = PStr (fault_family_likely_layer (cdb_fault_family operation))
    ∧ cdb_report reported cdb =
      let parts := d_update (d_update base (decode_cdb_address cdb)) (decode_cdb_lengths cdb) in
      if bool_decide (head cdb = Some 0x4D) then d_update parts (decode_log_sense_cdb cdb) else parts)
    as (base & operation & Hf & Hl & ->).
  { unfold cdb_report. destruct (head cdb) as [o|]; [|by do 2 eexists; split_and!; [..|reflexivity]].
    destruct (service_action_opcode o && at_least 2 cdb);
      [destruct (p_lookup _ SCSI_SERVICE_ACTION_NAMES) as [act|]|];
      destruct (t_lookup o SCSI_CDB_OPCODE_NAMES) as [nm0|];
      rewrite ?bool_decide_eq_true_2, ?(bool_decide_eq_false_2 (is_Some None)) by (eauto || by intros [? ?]);
      by do 2 eexists; split_and!; [..|reflexivity]. }
  exists (cdb_fault_family operation), (fault_family_likely_layer (cdb_fault_family operation)).
  pose proof (λ key, proj1 (parts_lookup base (head cdb) cdb key)) as Hp. cbv zeta in *.
  rewrite !Hp by (by apply is_in_iff). split_and!; [done|apply cdb_family_known|done|apply likely_layer_ne].
Qed.

Lemma sense_event_family event : family_ok (decode_scsi_sense_event event).
Proof.
  unfold decode_scsi_sense_event. cbv zeta.
  set (family := sense_fault_family _ _ _).
  exists family, (fault_family_likely_layer family).
  split_and!; [by case_match|apply sense_family_known|by case_match|apply likely_layer_ne].
Qed.

Lemma known_layer_ok d f : py_get "family" d = PStr f → known_family f = true →
  (∃ l, py_get "likely_layer" d = PStr l ∧ l ≠ "") → family_ok d.
Proof. intros H1 H2 (l & H3 & H4). by exists f, l. Qed.

Lemma cam_status_family message : family_ok (decode_cam_status_event message).
Proof.
  unfold decode_cam_status_event. cbv zeta.
  repeat match goal with |- context [if ?b then _ else _] => destruct b end;
    (eapply known_layer_ok; [reflexivity|reflexivity|by eexists]).
Qed.
Lemma cam_error_family message : family_ok (decode_cam_error_event message).
Proof.
  unfold decode_cam_error_event. destruct (re_search _ _) as [m|]; cbv zeta.
  - destruct (_ <? _); [eapply known_layer_ok; [reflexivity|reflexivity|by eexists]|].
    destruct (t_lookup _ FREEBSD_ERRNO_LABELS) as [[nm la]|];
      (eapply known_layer_ok; [reflexivity|reflexivity|by eexists]).
  - eapply known_layer_ok; [reflexivity|reflexivity|by eexists].
Qed.
Lemma status_value_family value : family_ok (decode_scsi_status_value value).
Proof.
  unfold decode_scsi_status_value. cbv zeta.
  destruct (String.eqb (py_strip value) ""); [eapply known_layer_ok; [reflexivity|reflexivity|by eexists]|].
  destruct (d_lookup _ SCSI_STATUS_LABELS) as [label|];
    [|eapply known_layer_ok; [reflexivity|reflexivity|by eexists]].
  destruct (String.eqb label "TASK ABORTED");
    destruct (match re_fullmatch STATUS_PATTERN (py_strip value) with Some _ => _ | None => _ end);
    (eapply known_layer_ok; [reflexivity|reflexivity|by eexists]).
Qed.
Lemma loginfo_report_family raw v : family_ok (loginfo_report raw v).
Proof.
  exists (loginfo_family (loginfo_fields v)),
    (fault_family_likely_layer (loginfo_family (loginfo_fields v))).
  unfold loginfo_report. destruct (loginfo_confidence _) as [c [n|]];
    (split_and!; [done|apply loginfo_family_known|done|apply likely_layer_ne]).
Qed.

Lemma decoded_family_ok event : decode_mpr_dmesg_event event = [] ∨ family_ok (decode_mpr_dmesg_event event).
Proof.
  unfold decode_mpr_dmesg_event. cbv zeta.
  repeat match goal with |- context [if String.eqb ?a ?b then _ else _] =>
    lazymatch a with str_or (py_get "event_type" event) "" => destruct (String.eqb a b) end end.
  - unfold decode_scsi_cdb_message. destruct (re_search _ _); [right; apply cdb_report_family|by left].
  - right. apply sense_event_family.
  - right. apply cam_status_family.
  - right. apply cam_error_family.
  - right. apply status_value_family.
  - right. eapply known_layer_ok; [reflexivity|reflexivity|by eexists].
  - right. unfold decode_lsi_loginfo.
    destruct (re_fullmatch _ _); [destruct (py_int _ _); [apply loginfo_report_family|]|];
      (eapply known_layer_ok; [reflexivity|reflexivity|by eexists]).
  - by left.
Qed.

(** Every decoded event belongs to a known family: whatever text the kernel
    printed, the decoder returns nothing at all or a dict whose family is one of
    the 35 families of the label table and whose likely layer is a non-empty
    text.  So every family a page shows has a label, and no decoder falls
    outside the table. *)
Theorem decoded_event_known_family (event : pydict) :
  decode_mpr_dmesg_event event = []
  ∨ ∃ family layer,
      py_get "family" (decode_mpr_dmesg_event event) = PStr family
      ∧ is_Some (d_lookup family FAULT_FAMILY_LABELS)
      ∧ py_get "likely_layer" (decode_mpr_dmesg_event event) = PStr layer
      ∧ layer ≠ "".
Proof.
  destruct (decoded_family_ok event) as [H|(f & l & Hf & Hk & Hl & Hne)]; [by left|right].
  exists f, l. split_and!; try done. apply is_in_iff in Hk.
  destruct (d_lookup f FAULT_FAMILY_LABELS) eqn:E; [done|]. by apply d_lookup_None in E.
Qed.

(** ** Bounded values *)

Fixpoint bounded (v : pyval) : bool :=
  match v with
  | PStr s => py_len s <=? MAX_DIAGNOSTIC_TEXT_LENGTH
  | PDict d => Nat.leb (List.length d) MAX_DIAGNOSTIC_COLLECTION_ITEMS
               && forallb (λ kv, bounded (snd kv)) d
  | PList l => Nat.leb (List.length l) MAX_DIAGNOSTIC_COLLECTION_ITEMS && forallb bounded l
  | _ => true
  end.

Lemma py_len_chars s : py_len s = Z.of_nat (List.length (chars s)).
Proof. unfold py_len. f_equal. induction s as [|c s IH]; [done|]. cbn. by f_equal. Qed.

Lemma clip_bound n s : 3 <= n → py_len (clip n s) <= n.
Proof.
  intros Hn. unfold clip. destruct (Z.leb_spec (py_len s) n); [done|].
  rewrite py_len_chars, chars_app, length_app. unfold py_take. rewrite chars_text, length_take.
  change (List.length (chars "...")) with 3%nat. lia.
Qed.
Lemma clip_id n s : py_len s <= n → clip n s = s.
Proof. intros H. unfold clip. by rewrite (proj2 (Z.leb_le _ _) H). Qed.

Lemma bound_bounded v : bounded (bound_diagnostic_value v) = true.
Proof.
  induction v as [| | |s|l IH|d IH] using pyval_rect'; cbn [bounded bound_diagnostic_value]; try done.
  - apply Z.leb_le, clip_bound. done.
  - apply andb_true_iff. split; [apply Nat.leb_le; rewrite length_take; lia|].
    apply forallb_take. induction IH as [|x l Hx _ IHl]; simpl; [done|]. by rewrite Hx.
  - apply andb_true_iff. split; [apply Nat.leb_le; rewrite length_take; lia|].
    apply forallb_take. induction IH as [|x l Hx _ IHl]; simpl; [done|]. by rewrite Hx.
Qed.

Lemma bound_id v : bounded v = true → bound_diagnostic_value v = v.
Proof.
  induction v as [| | |s|l IH|d IH] using pyval_rect'; cbn [bounded bound_diagnostic_value];
    try done; intros H.
  - f_equal. apply clip_id. by to_prop.
  - apply andb_true_iff in H as [Hl H]. apply Nat.leb_le in Hl. f_equal.
    rewrite take_ge by (by rewrite length_fmap). clear Hl. 
    induction IH as [|x l Hx _ IHl]; [done|]. cbn [forallb snd] in *. apply andb_true_iff in H as [H1 H2].
    rewrite fmap_cons. cbn [fst snd] in *. by rewrite Hx, IHl.
  - apply andb_true_iff in H as [Hl H]. apply Nat.leb_le in Hl. f_equal.
    rewrite take_ge by (by rewrite length_fmap). clear Hl. 
    induction IH as [|[k x] l Hx _ IHl]; [done|]. cbn [forallb snd] in *. apply andb_true_iff in H as [H1 H2].
    rewrite fmap_cons. cbn [fst snd] in *. by rewrite Hx, IHl.
Qed.

(** Diagnostic values are bounded: at every level of nesting a bounded
    value holds texts of at most 384 characters and lists and dicts of at most
    64 items, and bounding changes nothing exactly when the value was bounded
    already; so bounding twice is bounding once. *)
Theorem bound_diagnostic_value_spec (value : pyval) :
  bounded (bound_diagnostic_value value) = true
  ∧ (bound_diagnostic_value value = value ↔ bounded value = true)
  ∧ bound_diagnostic_value (bound_diagnostic_value value) = bound_diagnostic_value value.
Proof.
  split_and!; [apply bound_bounded| |apply bound_id, bound_bounded].
  split; [intros <-; apply bound_bounded|apply bound_id].
Qed.

(** ** Records *)

Lemma copy_keys_NoDup keys d record : NoDup record.*1 → NoDup (copy_keys keys d record).*1.
Proof.
  unfold copy_keys. revert record; induction keys as [|k keys IH]; intros record H; [done|].
  cbn [foldl]. apply IH. destruct (is_none _); [done|by apply d_set_NoDup].
Qed.
Lemma copy_keys_get keys d record k :
  py_get k (copy_keys keys d record)
  = if is_in k keys && negb (is_none (py_get k d)) then py_get k d else py_get k record.
Proof.
  unfold copy_keys. revert record; induction keys as [|k' keys IH]; intros record; [done|].
  cbn [foldl is_in existsb]. rewrite IH. fold (is_in k keys).
  destruct (is_in k keys && negb (is_none (py_get k d))) eqn:E.
  - apply andb_true_iff in E as [-> ->]. by rewrite orb_true_r.
  - destruct (String.eqb_spec k k') as [->|Hne]; cbn [orb].
    + destruct (is_none (py_get k' d)) eqn:En; [done|]. cbn [andb negb]. by rewrite py_get_set_eq.
    + rewrite E. destruct (is_none (py_get k' d)); [done|]. by apply py_get_set_ne.
Qed.

(** The final pass drops [None] and bounds the rest. *)
Definition bounded_items (record : pydict) : pydict :=
  (λ kv, (fst kv, bound_diagnostic_value (snd kv)))
    <$> List.filter (λ kv, negb (is_none (snd kv))) record.

Lemma bounded_items_keys record : NoDup record.*1 → NoDup (bounded_items record).*1.
Proof.
  unfold bounded_items. rewrite <-list_fmap_compose.
  change (fst ∘ (λ kv : string * pyval, (fst kv, bound_diagnostic_value (snd kv)))) with (@fst string pyval).
  induction record as [|[k v] record IH]; [done|]. rewrite fmap_cons. intros [Hk Hn]%NoDup_cons.
  cbn [List.filter snd]. destruct (is_none v); cbn [negb]; [auto|]. rewrite fmap_cons.
  constructor; [|auto]. intros (x & Hx & [Hin _]%elem_of_filter_list)%list_elem_of_fmap.
  apply Hk, list_elem_of_fmap. by exists x.
Qed.

Lemma bound_none v : is_none v = false → is_none (bound_diagnostic_value v) = false.
Proof. by destruct v. Qed.

Lemma bounded_items_get record k : NoDup record.*1 →
  py_get k (bounded_items record) = bound_diagnostic_value (py_get k record).
Proof.
  induction record as [|[k' v] record IH]; [done|]. rewrite fmap_cons. intros [Hk Hn]%NoDup_cons.
  unfold bounded_items. cbn [List.filter snd]. destruct (is_none v) eqn:Ev; cbn [negb].
  - fold (bounded_items record). rewrite IH by done. unfold py_get at 2. cbn [d_lookup].
    destruct (String.eqb_spec k' k) as [->|]; [|done]. destruct v; try done.
    apply d_lookup_None in Hk. cbn [fst] in Hk. unfold py_get. by rewrite Hk.
  - rewrite fmap_cons. fold (bounded_items record). cbn [fst snd].
    unfold py_get. cbn [d_lookup]. destruct (String.eqb_spec k' k) as [->|]; [done|by apply IH].
Qed.

(** What every step of [make_decoded_event_record] keeps of a record. *)
Definition keeps (keys : list string) (r r' : pydict) : Prop :=
  (NoDup r.*1 → NoDup r'.*1) ∧ ∀ k, k ∈ keys → py_get k r' = py_get k r.

Lemma keeps_refl keys r : keeps keys r r.
Proof. by split. Qed.
Lemma keeps_trans keys r1 r2 r3 : keeps keys r1 r2 → keeps keys r2 r3 → keeps keys r1 r3.
Proof. intros [H1 G1] [H2 G2]. split; [tauto|]. intros k Hk. by rewrite G2, G1. Qed.
Lemma keeps_set keys k v r : is_in k keys = false → keeps keys r (d_set k v r).
Proof.
  intros H. split; [apply d_set_NoDup|]. intros k' Hk'. apply py_get_set_ne. intros ->.
  apply is_in_iff in Hk'. congruence.
Qed.

(** The keys the later steps do not touch. *)
Definition kept_keys : list string :=
  ["id"; "event_id"; "sequence"; "controller"; "device"; "target"; "message"; "event_type"; "decoded"; "family"].

Lemma label_keeps event r : keeps kept_keys r (with_label event r).
Proof. unfold with_label. destruct (truthy _); [apply keeps_refl|by apply keeps_set]. Qed.
Lemma sense_severity_keeps r : keeps kept_keys r (with_sense_severity r).
Proof.
  unfold with_sense_severity. destruct (py_get "family" r); try apply keeps_refl.
  destruct (_ && _); [by apply keeps_set|apply keeps_refl].
Qed.
Lemma status_severity_keeps decoded r : keeps kept_keys r (with_status_severity decoded r).
Proof. unfold with_status_severity. destruct (is_text _ _); [by apply keeps_set|apply keeps_refl]. Qed.
Lemma layer_keeps r : keeps kept_keys r (with_layer r).
Proof. unfold with_layer. destruct (_ && _); [by apply keeps_set|apply keeps_refl]. Qed.
Lemma fingerprint_keeps r : keeps kept_keys r (with_fingerprint r).
Proof.
  unfold with_fingerprint. destruct (finding_fingerprint _) as [f|]; [|apply keeps_refl].
  destruct (String.eqb f ""); [apply keeps_refl|by apply keeps_set].
Qed.
#[export] Hint Resolve label_keeps sense_severity_keeps status_severity_keeps layer_keeps fingerprint_keeps : py.

Lemma steps_keep event decoded r :
  keeps kept_keys r (with_fingerprint (with_layer (with_status_severity decoded
    (with_sense_severity (with_label event r))))).
Proof. repeat (eapply keeps_trans; [|solve [eauto with py]]). apply keeps_refl. Qed.

(** The record before its late steps. *)
Definition first_record (event d : pydict) (event_id : string) (sequence : Z) : pydict :=
  copy_keys DECODED_KEYS d (copy_keys EVENT_KEYS event [
    ("id", PStr event_id);
    ("event_id", PStr event_id);
    ("sequence", PInt sequence);
    ("source", py_get "source" event);
    ("controller", py_get "controller" event);
    ("device", py_get "device" event);
    ("target", py_get "target" event);
    ("message", py_get "message" event);
    ("event_type", py_get "event_type" event);
    ("severity", py_or (py_get "severity" event) (PStr "info"));
    ("raw_line", py_get "line" event);
    ("decoded", PDict d)
  ]).
Definition late_steps (event d record : pydict) : pydict :=
  with_fingerprint (with_layer (with_status_severity d (with_sense_severity (with_label event record)))).

Lemma make_record_steps event event_id sequence :
  let d := decode_mpr_dmesg_event event in
  make_decoded_event_record event event_id sequence
  = bounded_items (late_steps event d (first_record event d event_id sequence)).
Proof.
  cbv beta delta [make_decoded_event_record bounded_items late_steps first_record] zeta. reflexivity.
Qed.

Lemma first_record_NoDup event d event_id sequence : NoDup (first_record event d event_id sequence).*1.
Proof.
  unfold first_record. do 2 apply copy_keys_NoDup. cbn [fmap list_fmap fst].
  apply (bool_decide_unpack _). vm_compute. exact I.
Qed.
Lemma first_record_get event d event_id sequence :
  let r := first_record event d event_id sequence in
  py_get "event_id" r = PStr event_id ∧ py_get "sequence" r = PInt sequence
  ∧ py_get "family" r = py_get "family" d
  ∧ ∀ k, k ∈ ["controller"; "device"; "target"; "message"; "event_type"] → py_get k r = py_get k event.
Proof.
  cbv zeta. unfold first_record. split_and!; [by rewrite !copy_keys_get..| |].
  - rewrite !copy_keys_get. cbn [is_in existsb DECODED_KEYS String.eqb Ascii.eqb Bool.eqb orb andb].
    by destruct (py_get "family" d).
  - intros k Hin. rewrite !copy_keys_get.
    repeat (apply elem_of_cons in Hin as [->|Hin]; [done|]). by apply not_elem_of_nil in Hin.
Qed.

Lemma record_keys (event : pydict) event_id sequence :
  ∃ r, make_decoded_event_record event event_id sequence = bounded_items r
    ∧ NoDup r.*1
    ∧ py_get "event_id" r = PStr event_id ∧ py_get "sequence" r = PInt sequence
    ∧ py_get "family" r = py_get "family" (decode_mpr_dmesg_event event)
    ∧ ∀ k, k ∈ ["controller"; "device"; "target"; "message"; "event_type"] → py_get k r = py_get k event.
Proof.
  rewrite make_record_steps. cbv zeta. generalize (decode_mpr_dmesg_event event) as d. intros d.
  exists (late_steps event d (first_record event d event_id sequence)). split; [done|].
  destruct (first_record_get event d event_id sequence) as (H1 & H2 & H3 & H4).
  pose proof (first_record_NoDup event d event_id sequence) as H0.
  generalize dependent (first_record event d event_id sequence). intros r0 H1 H2 H3 H4 H0.
  destruct (steps_keep event d r0) as [Hn Hk]. fold (late_steps event d r0) in *.
  split_and!; [by apply Hn|by rewrite Hk by (by apply is_in_iff)..|].
  intros k Hin. rewrite <-(H4 k Hin). apply Hk.
  repeat (apply elem_of_cons in Hin as [->|Hin]; [by apply is_in_iff|]). by apply not_elem_of_nil in Hin.
Qed.

(** [C40] The record of an event is well formed: its keys are distinct, no value
    is [None], every value is bounded, and it carries the id and the sequence
    number it was made with, the fault family the decoder found, and the
    controller, device, target, message and type of its event (each bounded). *)
Theorem decoded_record_well_formed (event : pydict) (event_id : string) (sequence : Z) :
  let record := make_decoded_event_record event event_id sequence in
  NoDup record.*1
  ∧ Forall (λ kv, is_none (snd kv) = false ∧ bounded (snd kv) = true) record
  ∧ py_get "event_id" record = bound_diagnostic_value (PStr event_id)
  ∧ py_get "sequence" record = PInt sequence
  ∧ py_get "family" record = bound_diagnostic_value (py_get "family" (decode_mpr_dmesg_event event))
  ∧ ∀ k, k ∈ ["controller"; "device"; "target"; "message"; "event_type"] →
      py_get k record = bound_diagnostic_value (py_get k event).
Proof.
  cbv zeta. destruct (record_keys event event_id sequence) as (r & -> & Hn & Hid & Hseq & Hf & Hk).
  rewrite !bounded_items_get, Hid, Hseq, Hf by done. split_and!; [by apply bounded_items_keys| |done..|].
  - apply Forall_forall. intros kv ([k v] & -> & [_ Hv]%elem_of_filter_list)%list_elem_of_fmap.
    cbn [fst snd] in *. apply negb_true_iff in Hv. split; [by apply bound_none|apply bound_bounded].
  - intros k Hin. by rewrite bounded_items_get, Hk.
Qed.
