(* ===== verification/SummaryProofs.v ===== *)
(** * Theorems on summaries

    A summary is the tally of the events recorded in it: its counts, counters,
    sets and findings are those of the list of events, whatever their order. *)

From S2P Require Import Prelude PyStr PyVal Regex SasCommon Scsi LsiLoginfo SasDecoder.
From Stdlib Require Import String Ascii.
#[local] Open Scope string_scope.
#[local] Open Scope list_scope.
#[local] Open Scope Z_scope.

(** ** The reference tallies *)

(** An event with its record. *)
Abbreviation recorded := (pydict * pydict)%type.

Definition summarise (l : list recorded) : event_summary :=
  foldl (λ s er, record_mpr_event_summary s (fst er) (snd er)) new_mpr_event_summary l.

Definition number {A} (p : A → bool) (l : list A) : Z := Z.of_nat (List.length (List.filter p l)).
Definition is_key (k : string) (o : option string) : bool := bool_decide (o = Some k).
(** The entries of a [Counter] of the keys [f x]: positive and complete. *)
Definition tallies {A} (f : A → option string) (l : list A) (c : list (string * Z)) : Prop :=
  NoDup c.*1 ∧ ∀ k,
    d_lookup k c = if number (λ x, is_key k (f x)) l =? 0 then None
                   else Some (number (λ x, is_key k (f x)) l).
Definition collects {A} (f : A → option string) (l : list A) (X : gset string) : Prop :=
  ∀ k, k ∈ X ↔ ∃ x, x ∈ l ∧ f x = Some k.

Definition event_type_of (er : recorded) : string := str_or (py_get "event_type" (fst er)) "message".
Definition is_type (ty : string) (er : recorded) : bool := String.eqb (event_type_of er) ty.
Definition is_error (er : recorded) : bool := is_text "error" (py_get "severity" (snd er)).
Definition event_text (k : string) (er : recorded) : option string := text_at k (fst er).
Definition only_if (b : bool) (o : option string) : option string := if b then o else None.
Definition sense_reason (er : recorded) : option string := only_if (is_type "scsi_sense" er) (event_text "reason" er).
Definition cam_status_of (er : recorded) : option string :=
  only_if (is_type "cam_status" er)
    (non_empty_text (message_value_after_colon (str_or (py_get "message" (fst er)) ""))).
Definition record_text (k : string) (er : recorded) : option string :=
  non_empty_text (str_or (py_get k (snd er)) "").
Definition finding_key (er : recorded) : option string :=
  only_if (bool_decide (is_Some (record_text "family" er))) (text_at "fingerprint" (snd er)).

(** ** Counters and sets *)

Lemma number_snoc {A} (p : A → bool) l x : number p (l ++ [x]) = number p l + count_if (p x).
Proof.
  unfold number. rewrite List.filter_app, length_app. simpl. destruct (p x); simpl; lia.
Qed.
Lemma number_nonneg {A} (p : A → bool) l : 0 <= number p l.
Proof. unfold number. lia. Qed.
Lemma number_pos {A} (p : A → bool) l : number p l ≠ 0 ↔ ∃ x, x ∈ l ∧ p x = true.
Proof.
  unfold number. split.
  - intros H. destruct (List.filter p l) as [|x l'] eqn:E; [done|]. exists x.
    apply elem_of_filter_list. rewrite E. by left.
  - intros (x & Hx). apply elem_of_filter_list in Hx. destruct (List.filter p l); [by apply not_elem_of_nil in Hx|done].
Qed.

Lemma is_key_some k k' : is_key k (Some k') = String.eqb k' k.
Proof.
  unfold is_key. destruct (String.eqb_spec k' k) as [->|Hne]; [by apply bool_decide_eq_true_2|].
  apply bool_decide_eq_false_2. congruence.
Qed.

Section tallies.
Context {A : Type} (f : A → option string).

Lemma tallies_nil : tallies f [] [].
Proof. split; [by constructor|done]. Qed.

Lemma tallies_snoc l c x : tallies f l c → tallies f (l ++ [x]) (counter_add_opt (f x) c).
Proof.
intros [Hn Hc]. unfold counter_add_opt. split.
- destruct (f x); [by apply d_set_NoDup|done].
- intros k. rewrite number_snoc. destruct (f x) as [k'|].
  + rewrite is_key_some. unfold counter_add. rewrite d_lookup_set, !Hc.
    destruct (String.eqb_spec k' k) as [->|Hne]; simpl count_if; [|by rewrite Z.add_0_r].
    pose proof (number_nonneg (λ x, is_key k (f x)) l).
    rewrite (proj2 (Z.eqb_neq (number _ l + 1) 0)) by lia.
    destruct (Z.eqb_spec (number (λ x, is_key k (f x)) l) 0) as [->|]; done.
  + simpl count_if. by rewrite Z.add_0_r.
Qed.

Lemma collects_nil : collects f [] ∅.
Proof. intros k. split; [set_solver|]. intros (x & Hx & _). by apply not_elem_of_nil in Hx. Qed.
Lemma collects_snoc l X x : collects f l X → collects f (l ++ [x]) (set_add (f x) X).
Proof.
intros H k. unfold collects in H. setoid_rewrite elem_of_app.
setoid_rewrite list_elem_of_singleton. unfold set_add. destruct (f x) as [s|] eqn:E.
- rewrite elem_of_union, elem_of_singleton, H. split.
  + intros [->|(y & ? & ?)]; eauto.
  + intros (y & [Hy| ->] & Hf); [right; eauto|left; congruence].
- rewrite H. split; [intros (y & ? & ?); eauto|]. intros (y & [Hy| ->] & Hf); [eauto|congruence].
Qed.
End tallies.

(** ** Findings *)

(** A finding over the records filed under it, oldest first. *)
Definition finding_of (fingerprint : string) (l : list recorded) (f : finding) : Prop :=
  f_fingerprint f = fingerprint
  ∧ f_count f = Z.of_nat (List.length l)
  ∧ collects (text_at "controller" ∘ snd) l (f_controllers f)
  ∧ collects (text_at "device" ∘ snd) l (f_devices f)
  ∧ collects (text_at "target" ∘ snd) l (f_targets f)
  ∧ (∃ er, er ∈ l ∧ f_severity f = record_severity (snd er))
  ∧ (∀ er, er ∈ l → severity_rank (f_severity f) <= severity_rank (record_severity (snd er)))
  ∧ f_last_event_id f = match last l with Some er => py_get "event_id" (snd er) | None => PNone end.

Lemma finding_of_new k er : finding_of k [er] (update_finding (snd er) (new_finding k (snd er))).
Proof.
  unfold finding_of, update_finding, new_finding. cbn [f_fingerprint f_count f_controllers f_devices f_targets
    f_severity f_last_event_id]. rewrite Z.ltb_irrefl. split_and!; try done.
  - apply (collects_snoc (text_at "controller" ∘ snd) []), collects_nil.
  - apply (collects_snoc (text_at "device" ∘ snd) []), collects_nil.
  - apply (collects_snoc (text_at "target" ∘ snd) []), collects_nil.
  - exists er. split; [by left|done].
  - intros er' ->%list_elem_of_singleton. lia.
Qed.

Lemma finding_of_snoc k l f er :
  finding_of k l f → finding_of k (l ++ [er]) (update_finding (snd er) f).
Proof.
  intros (Hk & Hc & H1 & H2 & H3 & (er0 & Hin & Hs) & Hmin & Hlast).
  unfold finding_of, update_finding. cbn [f_fingerprint f_count f_controllers f_devices f_targets
    f_severity f_last_event_id]. split_and!.
  - done.
  - rewrite length_app. simpl. lia.
  - by apply (collects_snoc (text_at "controller" ∘ snd)).
  - by apply (collects_snoc (text_at "device" ∘ snd)).
  - by apply (collects_snoc (text_at "target" ∘ snd)).
  - destruct (_ <? _); [exists er|exists er0]; (split; [|done]); apply elem_of_app; [right; by left|by left].
  - intros er' [Hin'| ->%list_elem_of_singleton]%elem_of_app.
    + destruct (Z.ltb_spec (severity_rank (record_severity (snd er))) (severity_rank (f_severity f)));
        [|by apply Hmin]. specialize (Hmin er' Hin'). lia.
    + destruct (Z.ltb_spec (severity_rank (record_severity (snd er))) (severity_rank (f_severity f))); lia.
  - by rewrite last_snoc.
Qed.

(** The findings of a list: one per fingerprint, over the records it names. *)
Definition filed (k : string) (l : list recorded) : list recorded :=
  List.filter (λ er, is_key k (finding_key er)) l.
Definition findings_of (l : list recorded) (fs : list (string * finding)) : Prop :=
  NoDup fs.*1 ∧ ∀ k, match d_lookup k fs with
                     | Some f => finding_of k (filed k l) f
                     | None => filed k l = []
                     end.

Lemma filed_snoc k l er :
  filed k (l ++ [er]) = if is_key k (finding_key er) then filed k l ++ [er] else filed k l.
Proof.
  unfold filed. rewrite List.filter_app. simpl. destruct (is_key k (finding_key er)); [done|apply app_nil_r].
Qed.

Lemma findings_snoc l fs er : findings_of l fs →
  findings_of (l ++ [er])
    (match finding_key er with Some _ => record_finding (snd er) fs | None => fs end).
Proof.
  intros [Hn Hf]. destruct (finding_key er) as [fp|] eqn:Ek.
  - assert (text_at "fingerprint" (snd er) = Some fp) as Hfp
      by (unfold finding_key, only_if in Ek; by case_bool_decide).
    unfold record_finding. rewrite Hfp. split; [by apply d_set_NoDup|].
    intros k. rewrite d_lookup_set, filed_snoc, Ek, is_key_some. specialize (Hf k).
    destruct (String.eqb_spec fp k) as [->|Hne]; [|done].
    destruct (d_lookup k fs) as [f|]; [by apply finding_of_snoc|]. rewrite Hf. apply finding_of_new.
  - split; [done|]. intros k. rewrite filed_snoc, Ek. simpl. apply Hf.
Qed.

(** ** The last few *)

Lemma last_n_all {A} n (l : list A) : (List.length l <= n)%nat → last_n n l = l.
Proof. intros H. unfold last_n. by replace (List.length l - n)%nat with 0%nat by lia. Qed.
Lemma last_n_length {A} n (l : list A) : List.length (last_n n l) = (n `min` List.length l)%nat.
Proof. unfold last_n. rewrite length_drop. lia. Qed.
Lemma last_n_snoc {A} n (l : list A) x : last_n n (last_n n l ++ [x]) = last_n n (l ++ [x]).
Proof.
  unfold last_n. rewrite !length_app, length_drop. simpl.
  destruct (Nat.le_gt_cases (List.length l) n) as [H|H].
  - by replace (List.length l - n)%nat with 0%nat by lia; rewrite drop_0, Nat.sub_0_r.
  - replace (List.length l - (List.length l - n) + 1 - n)%nat with 1%nat by lia.
    destruct n as [|n].
    + rewrite !drop_ge; [done|rewrite ?length_app, ?length_drop; simpl; lia..].
    + rewrite <-(drop_app_le l [x] (List.length l - S n)) by lia. rewrite drop_drop. f_equal. lia.
Qed.

(** ** The summary of a list *)

Definition summary_of (l : list recorded) (s : event_summary) : Prop :=
  event_count s = Z.of_nat (List.length l)
  ∧ error_count s = number is_error l
  ∧ retry_count s = number (is_type "retry") l
  ∧ sense_count s = number (is_type "scsi_sense") l
  ∧ ioc_terminated_count s = number (is_type "ioc_terminated") l
  ∧ collects (event_text "device") l (devices s)
  ∧ collects (event_text "target") l (targets s)
  ∧ tallies (event_text "loginfo") l (loginfo_counts s)
  ∧ tallies sense_reason l (sense_counts s)
  ∧ tallies cam_status_of l (cam_status_counts s)
  ∧ tallies (record_text "family") l (fault_family_counts s)
  ∧ tallies (record_text "operation") l (operation_counts s)
  ∧ findings_of l (finding_records s)
  ∧ decoded_records s = snd <$> l
  ∧ recent_events s = last_n 12 ((compact_event ∘ fst) <$> l).

(** A counter that only some events reach. *)
Lemma tallies_only_if {A} (f : A → option string) l c x b o :
  f x = only_if b o → tallies f l c → tallies f (l ++ [x]) (if b then counter_add_opt o c else c).
Proof. intros E H. pose proof (tallies_snoc f l c x H) as H'. rewrite E in H'. by destruct b. Qed.

Lemma findings_family l fs er : findings_of l fs →
  findings_of (l ++ [er])
    (if String.eqb (str_or (py_get "family" (snd er)) "") "" then fs else record_finding (snd er) fs).
Proof.
  intros H. pose proof (findings_snoc l fs er H) as H'. revert H'.
  unfold finding_key, only_if, record_text, non_empty_text.
  destruct (String.eqb (str_or (py_get "family" (snd er)) "") ""); cbn; [done|].
  unfold record_finding. by destruct (text_at "fingerprint" (snd er)).
Qed.

Lemma summary_snoc l s er :
  summary_of l s → summary_of (l ++ [er]) (record_mpr_event_summary s (fst er) (snd er)).
Proof.
  intros (H1 & H2 & H3 & H4 & H5 & H6 & H7 & H8 & H9 & H10 & H11 & H12 & H13 & H14 & H15).
  unfold summary_of, record_mpr_event_summary. cbn [event_count error_count retry_count sense_count
    ioc_terminated_count devices targets loginfo_counts sense_counts cam_status_counts
    fault_family_counts operation_counts finding_records decoded_records recent_events].
  rewrite !number_snoc. split_and!.
  - rewrite H1, length_app. simpl. lia.
  - by rewrite H2.
  - by rewrite H3.
  - by rewrite H4.
  - by rewrite H5.
  - by apply (collects_snoc (event_text "device")).
  - by apply (collects_snoc (event_text "target")).
  - by apply (tallies_snoc (event_text "loginfo")).
  - by apply (tallies_only_if sense_reason).
  - by apply (tallies_only_if cam_status_of).
  - by apply (tallies_snoc (record_text "family")).
  - by apply (tallies_snoc (record_text "operation")).
  - by apply findings_family.
  - by rewrite H14, fmap_app.
  - rewrite H15, last_n_snoc, fmap_app. done.
Qed.

Lemma summary_nil : summary_of [] new_mpr_event_summary.
Proof.
  unfold summary_of, new_mpr_event_summary. cbn.
  split_and!; try done; first [apply collects_nil|apply tallies_nil|split; [by constructor|done]].
Qed.

Lemma summary_of_summarise l : summary_of l (summarise l).
Proof.
  induction l as [|er l IH] using rev_ind; [apply summary_nil|].
  unfold summarise. rewrite foldl_app. by apply summary_snoc.
Qed.

(** [C25] A summary is the tally of its events: after recording any list of
    events with their records, the event, error, retry, sense and termination
    counts are the numbers of such events; every counter holds, under exactly
    the texts that occur, how often they occur; the device and target sets hold
    what the events name; there is one finding per fingerprint, counting the
    records filed under it, with their controllers, devices and targets, their
    worst severity and the id of the last of them; all records are kept in
    order, and the compact forms of the last twelve events. *)
Theorem summary_is_tally (l : list recorded) : summary_of l (summarise l).
Proof. apply summary_of_summarise. Qed.

(** ** Orders *)

Lemma lex_true (a b : Z) (k : bool) :
  (if a <? b then true else if b <? a then false else k) = true ↔ a < b ∨ a = b ∧ k = true.
Proof. destruct (Z.ltb_spec a b), (Z.ltb_spec b a); intuition (try discriminate; try lia). Qed.

Ltac lex_trans :=
  match goal with
  | |- _ ∨ _ => first [left; lia|right; split; [lia|lex_trans]]
  | |- _ => by eapply str_leb_trans
  end.

Lemma row_leb_true a b :
  row_leb a b = true ↔
    severity_rank (row_severity a) < severity_rank (row_severity b)
    ∨ severity_rank (row_severity a) = severity_rank (row_severity b)
      ∧ (row_count b < row_count a ∨ row_count b = row_count a
         ∧ (fault_family_priority (row_family a) < fault_family_priority (row_family b)
            ∨ fault_family_priority (row_family a) = fault_family_priority (row_family b)
              ∧ str_leb (str_or (row_label a) "") (str_or (row_label b) "") = true)).
Proof. unfold row_leb. cbv zeta. by rewrite !lex_true. Qed.
Lemma row_leb_trans a b c : row_leb a b = true → row_leb b c = true → row_leb a c = true.
Proof.
  rewrite !row_leb_true. intros [H1|[H1 [H2|[H2 [H3|[H3 H4]]]]]] [G1|[G1 [G2|[G2 [G3|[G3 G4]]]]]]; lex_trans.
Qed.
Lemma row_leb_total a b : row_leb a b = true ∨ row_leb b a = true.
Proof.
  rewrite !row_leb_true. pose proof (str_leb_total (str_or (row_label a) "") (str_or (row_label b) "")).
  destruct (Z.lt_total (severity_rank (row_severity a)) (severity_rank (row_severity b))) as [|[|]];
    destruct (Z.lt_total (row_count a) (row_count b)) as [|[|]];
    destruct (Z.lt_total (fault_family_priority (row_family a)) (fault_family_priority (row_family b))) as [|[|]];
    intuition lia.
Qed.

Lemma key_leb_true a b :
  key_leb a b = true ↔
    a.1.1 < b.1.1 ∨ a.1.1 = b.1.1 ∧ (a.1.2 < b.1.2 ∨ a.1.2 = b.1.2 ∧ str_leb a.2 b.2 = true).
Proof. destruct a as [[a1 a2] a3], b as [[b1 b2] b3]. cbn. by rewrite !lex_true. Qed.
Lemma target_leb_trans a b c : target_leb a b = true → target_leb b c = true → target_leb a c = true.
Proof.
  unfold target_leb. rewrite !key_leb_true.
  intros [H1|[H1 [H2|[H2 H3]]]] [G1|[G1 [G2|[G2 G3]]]]; lex_trans.
Qed.
Lemma target_leb_total a b : target_leb a b = true ∨ target_leb b a = true.
Proof.
  unfold target_leb. rewrite !key_leb_true.
  pose proof (str_leb_total (target_sort_key a).2 (target_sort_key b).2).
  destruct (Z.lt_total (target_sort_key a).1.1 (target_sort_key b).1.1) as [|[|]];
    destruct (Z.lt_total (target_sort_key a).1.2 (target_sort_key b).1.2) as [|[|]]; intuition lia.
Qed.

(** ** Reports *)

Lemma strongly_sorted_take {A} (R : A → A → Prop) n l : StronglySorted R l → StronglySorted R (take n l).
Proof.
  intros H. revert n. induction H as [|x l _ IH Hx]; intros [|n]; simpl; [constructor..|].
  constructor; [apply IH|by apply Forall_take].
Qed.

(** The rows of all findings of a summary. *)
Definition all_rows (s : event_summary) : list finding_row := (finding_row_of ∘ snd) <$> finding_records s.

Lemma ranked_sorted s : StronglySorted (le_of row_leb) (ranked_findings s).
Proof. apply sort_by_sorted; [apply row_leb_total|apply row_leb_trans]. Qed.
Lemma ranked_perm s : ranked_findings s ≡ₚ all_rows s.
Proof. apply sort_by_perm. Qed.

Lemma sorted_split {A} (R : A → A → Prop) l1 l2 :
  StronglySorted R (l1 ++ l2) → ∀ x y, x ∈ l1 → y ∈ l2 → R x y.
Proof.
  induction l1 as [|z l1 IH]; intros H x y Hx Hy; [by apply not_elem_of_nil in Hx|].
  inversion H as [|? ? Hs Hz]; subst. apply elem_of_cons in Hx as [->|Hx]; [|by apply IH].
  rewrite Forall_forall in Hz. apply Hz, elem_of_app. by right.
Qed.

Lemma sorted_texts_spec X :
  StronglySorted (le_of str_leb) (sorted_texts X) ∧ ∀ k, k ∈ sorted_texts X ↔ k ∈ X.
Proof.
  split; [apply sort_by_sorted; [apply str_leb_total|apply str_leb_trans]|].
  intros k. unfold sorted_texts. by rewrite elem_of_sort_by, elem_of_elements.
Qed.
Lemma sorted_targets_spec X :
  StronglySorted (le_of target_leb) (sorted_targets X) ∧ ∀ k, k ∈ sorted_targets X ↔ k ∈ X.
Proof.
  split; [apply sort_by_sorted; [apply target_leb_total|apply target_leb_trans]|].
  intros k. unfold sorted_targets. by rewrite elem_of_sort_by, elem_of_elements.
Qed.

(** What a summary reports: the top findings are, in rank order (severity,
    then count, then family priority, then label), the six best of all its
    findings, each ranking no lower than any left out; the primary fault is the
    first of them, and is missing only when there are no findings; the event
    table holds the last 25 records, counts all of them, and is marked
    truncated exactly when there are more; devices and targets are listed
    sorted, without loss. *)
Theorem final_summary_spec (s : event_summary) :
  let f := finalize_mpr_event_summary s in
  (∃ rest, top_findings f ++ rest ≡ₚ all_rows s
     ∧ ∀ x y, x ∈ top_findings f → y ∈ rest → row_leb x y = true)
  ∧ StronglySorted (le_of row_leb) (top_findings f)
  ∧ List.length (top_findings f) = (6 `min` List.length (finding_records s))%nat
  ∧ primary_fault f = head (top_findings f)
  ∧ (primary_fault f = None ↔ finding_records s = [])
  ∧ rows (table_ f) = last_n 25 (decoded_records s)
  ∧ total_count (table_ f) = Z.of_nat (List.length (decoded_records s))
  ∧ sample_count (table_ f) = Z.of_nat (25 `min` List.length (decoded_records s))
  ∧ (truncated (table_ f) = true ↔ (25 < List.length (decoded_records s))%nat)
  ∧ (StronglySorted (le_of str_leb) (fin_devices f) ∧ ∀ k, k ∈ fin_devices f ↔ k ∈ devices s)
  ∧ (StronglySorted (le_of target_leb) (fin_targets f) ∧ ∀ k, k ∈ fin_targets f ↔ k ∈ targets s).
Proof.
  cbv zeta. unfold finalize_mpr_event_summary, DEFAULT_EVENT_TABLE_PAGE_SIZE.
  cbn [top_findings primary_fault table_ rows total_count sample_count truncated fin_devices fin_targets].
  pose proof (ranked_sorted s) as Hs. pose proof (ranked_perm s) as Hp.
  assert (List.length (ranked_findings s) = List.length (finding_records s)) as Hl
    by (rewrite Hp; apply length_fmap).
  unfold top_mpr_findings. split_and!; try done.
  - exists (drop 6 (ranked_findings s)). rewrite take_drop. split; [done|].
    intros x y. apply (sorted_split (le_of row_leb)). by rewrite take_drop.
  - by apply strongly_sorted_take.
  - by rewrite length_take, Hl.
  - destruct (ranked_findings s), (finding_records s); try done; simpl in *; try lia. 
  - by rewrite last_n_length.
  - rewrite last_n_length, Nat.ltb_lt. lia.
  - apply sorted_texts_spec.
  - apply sorted_texts_spec.
  - apply sorted_targets_spec.
  - apply sorted_targets_spec.
Qed.
