(* ===== verification/EventsProofs.v ===== *)
(** * Theorems on log parsing

    Every line that is an event is filed exactly once under its controller, its
    device and its target, and a line printed in the kernel's format is read
    back. *)

From S2P Require Import Prelude PyStr PyVal Regex SasCommon.
From S2P Require Import Scsi LsiLoginfo SasDecoder SasEvents SummaryProofs.
From Stdlib Require Import String Ascii.
#[local] Open Scope string_scope.
#[local] Open Scope list_scope.
#[local] Open Scope Z_scope.

(** ** The events of a log *)

Definition log_events (log : string) : list pydict := omap line_event (py_splitlines log).
(** ... numbered from 0, each with its record. *)
Definition log_records (log : string) : list recorded := imap numbered_event (log_events log).

Definition stored_event (er : recorded) : pydict :=
  match bound_diagnostic_value (PDict (fst er)) with PDict d => d | _ => fst er end.

(** ** Grouping *)

Definition group_by (key : recorded → option string) (k : string) (l : list recorded) : list recorded :=
  List.filter (λ er, is_key k (key er)) l.
(** [t] holds the summary of every non-empty group. *)
Definition groups (key : recorded → option string) (l : list recorded)
    (t : list (string * event_summary)) : Prop :=
  NoDup t.*1 ∧ ∀ k,
    d_lookup k t = match group_by key k l with [] => None | g => Some (summarise g) end.

Lemma group_by_snoc key k l er :
  group_by key k (l ++ [er]) = if is_key k (key er) then group_by key k l ++ [er] else group_by key k l.
Proof.
  unfold group_by. rewrite List.filter_app. simpl. destruct (is_key k (key er)); [done|apply app_nil_r].
Qed.

Lemma groups_nil key : groups key [] [].
Proof. split; [by constructor|done]. Qed.

Lemma summarise_snoc l er :
  summarise (l ++ [er]) = record_mpr_event_summary (summarise l) (fst er) (snd er).
Proof. unfold summarise. by rewrite foldl_app. Qed.

Lemma groups_snoc key l t er :
  groups key l t → groups key (l ++ [er]) (record_under_opt (key er) (fst er) (snd er) t).
Proof.
  intros [Hn Hg]. unfold record_under_opt. destruct (key er) as [k0|] eqn:Ek.
  - split; [by apply d_set_NoDup|]. intros k. rewrite group_by_snoc, Ek, is_key_some.
    unfold record_under. rewrite d_lookup_set. destruct (String.eqb_spec k0 k) as [->|]; [|apply Hg].
    rewrite Hg. destruct (group_by key k l) as [|e g] eqn:Eg; [done|].
    rewrite <-summarise_snoc. done.
  - split; [done|]. intros k. rewrite group_by_snoc, Ek. apply Hg.
Qed.

(** ** The loop *)

Definition controller_key (er : recorded) : option string := Some (controller_of (fst er)).
Definition device_key (er : recorded) : option string := text_at "device" (fst er).
Definition target_key_of (er : recorded) : option string := target_key (fst er).

Definition state_of (l : list recorded) (s : parse_state) : Prop :=
  ps_recent s = stored_event <$> l
  ∧ groups controller_key l (ps_controllers s)
  ∧ groups device_key l (ps_devices s)
  ∧ groups target_key_of l (ps_targets s).

Lemma state_snoc l s event :
  state_of l s → state_of (l ++ [numbered_event (List.length l) event]) (file_event s event).
Proof.
  intros (H1 & H2 & H3 & H4). unfold file_event. rewrite H1, length_fmap.
  destruct (numbered_event (List.length l) event) as [e r] eqn:E.
  split_and!; cbn [ps_recent ps_controllers ps_devices ps_targets].
  - by rewrite fmap_app.
  - by apply (groups_snoc controller_key _ _ (e, r)).
  - by apply (groups_snoc device_key _ _ (e, r)).
  - by apply (groups_snoc target_key_of _ _ (e, r)).
Qed.

Lemma parse_lines_events lines s :
  foldl parse_line s lines = foldl file_event s (omap line_event lines).
Proof.
  revert s; induction lines as [|line lines IH]; intros s; [done|]. cbn [foldl omap list_omap].
  unfold parse_line at 2. rewrite IH. by destruct (line_event line).
Qed.

Lemma file_events_state es : state_of (imap numbered_event es) (foldl file_event initial_state es).
Proof.
  induction es as [|e es IH] using rev_ind.
  - by split_and!; try apply groups_nil.
  - rewrite foldl_app, imap_app. cbn [foldl imap].
    pose proof (state_snoc _ _ e IH) as H. rewrite length_imap in H.
    unfold compose. rewrite Nat.add_0_r. exact H.
Qed.

(** ** The report *)

Lemma d_lookup_perm {A} (d1 d2 : list (string * A)) k :
  NoDup d1.*1 → d1 ≡ₚ d2 → d_lookup k d1 = d_lookup k d2.
Proof.
  intros Hn Hp. assert (NoDup d2.*1) as Hn2 by by rewrite <-Hp.
  destruct (d_lookup k d1) as [v|] eqn:E1.
  - apply d_lookup_elem in E1. rewrite Hp in E1. symmetry. by apply d_lookup_NoDup.
  - apply d_lookup_None in E1. rewrite Hp in E1. symmetry. by apply d_lookup_None.
Qed.
Lemma d_lookup_fmap {A B} (f : A → B) (d : list (string * A)) k :
  d_lookup k ((λ kv, (fst kv, f (snd kv))) <$> d) = f <$> d_lookup k d.
Proof.
  induction d as [|[k' v] d IH]; [done|]. rewrite fmap_cons. cbn [d_lookup fst snd].
  by destruct (String.eqb k' k).
Qed.

Lemma finalize_all_lookup t k :
  NoDup t.*1 → d_lookup k (finalize_all t) = finalize_mpr_event_summary <$> d_lookup k t.
Proof.
  intros Hn. unfold finalize_all. rewrite d_lookup_fmap. f_equal.
  apply d_lookup_perm; [by rewrite sort_by_perm|apply sort_by_perm].
Qed.
Lemma finalize_all_sorted t : StronglySorted (le_of str_leb) (finalize_all t).*1.
Proof.
  unfold finalize_all. rewrite <-list_fmap_compose.
  pose proof (sort_by_sorted (λ a b : string * event_summary, str_leb (fst a) (fst b))) as H.
  specialize (H (λ a b, str_leb_total _ _) (λ a b c, str_leb_trans _ _ _) t).
  induction H as [|x l _ IH Hx]; [constructor|]. rewrite fmap_cons. constructor; [done|].
  apply Forall_fmap. eapply Forall_impl; [exact Hx|]. done.
Qed.

(** [C24] The log is filed without loss or duplication: the events are the lines
    that parse, each with its number; the event count is theirs, the recent
    events the last forty of them; and under every controller, device and
    controller:target, in sorted order, stands the final summary of exactly the
    events that name it, so a key is absent just when no event names it. *)
Theorem parse_groups_events (log : string) :
  let p := parse_mpr_dmesg_events log in
  let l := log_records log in
  let filed_under key (groups : list (string * final_summary)) :=
    StronglySorted (le_of str_leb) groups.*1
    ∧ ∀ k, d_lookup k groups
           = match group_by key k l with [] => None
             | g => Some (finalize_mpr_event_summary (summarise g)) end in
  pe_event_count p = Z.of_nat (List.length (log_events log))
  ∧ pe_recent_events p = last_n 40 (stored_event <$> l)
  ∧ filed_under controller_key (by_controller p)
  ∧ filed_under device_key (by_device p)
  ∧ filed_under target_key_of (by_controller_target p).
Proof.
  cbv zeta. unfold parse_mpr_dmesg_events. rewrite parse_lines_events.
  destruct (file_events_state (log_events log)) as (H1 & H2 & H3 & H4). fold (log_events log).
  fold (log_records log) in *. cbn [pe_event_count pe_recent_events by_controller by_device by_controller_target].
  rewrite H1. assert (∀ key t, groups key (log_records log) t →
    StronglySorted (le_of str_leb) (finalize_all t).*1
    ∧ ∀ k, d_lookup k (finalize_all t)
           = match group_by key k (log_records log) with [] => None
             | g => Some (finalize_mpr_event_summary (summarise g)) end) as Hg.
  { intros key t [Hn Hk]. split; [apply finalize_all_sorted|]. intros k.
    rewrite finalize_all_lookup, Hk by done. by destruct (group_by key k (log_records log)). }
  split; [|split; [done|split; [by apply Hg|split; by apply Hg]]].
  rewrite length_fmap. unfold log_records. by rewrite length_imap.
Qed.

(** ** Lines *)

Definition numeric (s : string) : bool := non_empty (chars s) && forallb is_decimal (chars s).
(** A message as the kernel prints it: one line, no blanks around it. *)
Definition message_ok (s : string) : bool :=
  forallb dot (chars s)
  && match chars s with c :: _ => not_space c | [] => false end
  && match last (chars s) with Some c => not_space c | None => false end.

Definition disk_line (dev ctl bus tgt lun message : string) : string :=
  "(da" +:+ dev +:+ ":mpr" +:+ ctl +:+ ":" +:+ bus +:+ ":" +:+ tgt +:+ ":" +:+ lun +:+ "): " +:+ message.

Lemma strip_l_ends c l :
  is_space c = false → match last (c :: l) with Some e => is_space e = false | None => True end →
  strip_l (c :: l) = c :: l.
Proof.
  intros Hc Hl. unfold strip_l. cbn [drop_while]. rewrite Hc.
  destruct (reverse (c :: l)) as [|e r] eqn:E.
  - apply (f_equal reverse) in E. by rewrite reverse_involutive in E.
  - assert (c :: l = reverse r ++ [e]) as E'
      by (rewrite <-(reverse_involutive (c :: l)), E; apply reverse_cons).
    rewrite E', last_snoc in Hl. cbn [drop_while]. rewrite Hl.
    by rewrite <-E, reverse_involutive.
Qed.

Lemma plus_digits {R} s (k : captures → list ascii → option R) env l r :
  numeric s = true → stops is_decimal l → k env l = Some r →
  rmatch (plus is_decimal) k env (chars s ++ l) = Some r.
Proof. intros [Hn Hd]%andb_true_iff Hs Hk. apply rmatch_plus; try done. by destruct (chars s). Qed.

Lemma disk_line_match dev ctl bus tgt lun message :
  numeric dev = true → numeric ctl = true → numeric bus = true → numeric tgt = true →
  numeric lun = true → message_ok message = true →
  re_match DISK_PATTERN (disk_line dev ctl bus tgt lun message)
  = Some [("device", "da" +:+ dev); ("controller", "mpr" +:+ ctl); ("bus", bus); ("target", tgt);
          ("lun", lun); ("message", message)].
Proof.
  intros Hdev Hctl Hbus Htgt Hlun Hm. unfold message_ok in Hm.
  apply andb_true_iff in Hm as [[Hdot Hfirst]%andb_true_iff _].
  assert (chars (disk_line dev ctl bus tgt lun message)
    = chars "(" ++ (chars "da" ++ chars dev) ++ chars ":" ++ (chars "mpr" ++ chars ctl) ++ chars ":"
      ++ chars bus ++ chars ":" ++ chars tgt ++ chars ":" ++ chars lun ++ chars "):" ++ chars " "
      ++ chars message ++ []) as E.
  { unfold disk_line. rewrite !chars_app, app_nil_r, <-!app_assoc. done. }
  unfold re_match. rewrite E. clear E. unfold re_match_l, DISK_PATTERN, seq. cbn [foldr].
  assert (∀ (R : Type) (pre s : string) (k : captures → list ascii → option R) env l r,
    numeric s = true → stops is_decimal l → k env l = Some r →
    rmatch (RSeq (lit pre) (plus is_decimal)) k env ((chars pre ++ chars s) ++ l) = Some r) as Hpre.
  { intros. rewrite rmatch_seq, <-app_assoc, rmatch_lit. by apply plus_digits. }
  rewrite rmatch_seq, rmatch_lit, rmatch_seq.
  apply rmatch_group; [intros k' Hk; by apply Hpre|].
  rewrite rmatch_seq, rmatch_lit, rmatch_seq.
  apply rmatch_group; [intros k' Hk; by apply Hpre|].
  rewrite rmatch_seq, rmatch_lit, rmatch_seq.
  apply rmatch_group; [intros k' Hk; by apply plus_digits|].
  rewrite rmatch_seq, rmatch_lit, rmatch_seq.
  apply rmatch_group; [intros k' Hk; by apply plus_digits|].
  rewrite rmatch_seq, rmatch_lit, rmatch_seq.
  apply rmatch_group; [intros k' Hk; by apply plus_digits|].
  rewrite rmatch_seq, rmatch_lit, rmatch_seq. apply rmatch_plus; [done|done| |].
  { destruct (chars message); [done|]. cbn. unfold not_space in Hfirst. by to_prop. }
  rewrite rmatch_seq. apply rmatch_group.
  { intros k' Hk. apply rmatch_plus; [by destruct (chars message)|done|done|done]. }
  cbn [rmatch at_end]. rewrite !text_app, !text_chars. done.
Qed.

Lemma last_app_some {A} (l1 l2 : list A) e : last l2 = Some e → last (l1 ++ l2) = Some e.
Proof.
  intros H. destruct l2 as [|x l2 _] using rev_ind; [done|].
  rewrite last_snoc in H. by rewrite app_assoc, last_snoc.
Qed.

Lemma disk_line_strip dev ctl bus tgt lun message :
  message_ok message = true →
  py_strip (disk_line dev ctl bus tgt lun message) = disk_line dev ctl bus tgt lun message.
Proof.
  intros [_ Hl]%andb_true_iff. unfold py_strip.
  assert (chars (disk_line dev ctl bus tgt lun message)
    = "("%char :: chars ("da" +:+ dev +:+ ":mpr" +:+ ctl +:+ ":" +:+ bus +:+ ":" +:+ tgt +:+ ":" +:+ lun
        +:+ "): " +:+ message)) as E by done.
  rewrite E, strip_l_ends; [by rewrite <-E, text_chars|done|].
  rewrite <-E. unfold disk_line. rewrite !chars_app.
  destruct (last (chars message)) as [e|] eqn:El; [|done].
  rewrite !app_assoc, (last_app_some _ _ e El).
  unfold not_space in Hl. by to_prop.
Qed.

(** A line that starts with a parenthesis carries no time stamp. *)
Lemma no_timestamp l : split_mpr_dmesg_timestamp (text ("("%char :: l)) = (None, text ("("%char :: l)).
Proof.
  unfold split_mpr_dmesg_timestamp, re_match. rewrite chars_text. reflexivity.
Qed.

Lemma sense_message_keys message k :
  k ∈ (parse_mpr_sense_message message).*1 → k ∈ ["sense"; "sense_key"; "asc"; "reason"].
Proof.
  unfold parse_mpr_sense_message. destruct (re_search _ _); [done|].
  intros H. by apply not_elem_of_nil in H.
Qed.

(** A device line is read back: a line printed by the CAM layer as
    "(da<n>:mpr<m>:<bus>:<target>:<lun>): <message>", with any digits in the five
    places and any one-line message without blanks around it, is an event whose
    device, controller, bus, target, unit and message are the ones printed (the
    target cut at 32 characters), typed and graded by its message, with the
    line itself kept. *)
Theorem disk_line_event (dev ctl bus tgt lun message : string)
  (Hdev : numeric dev = true) (Hctl : numeric ctl = true) (Hbus : numeric bus = true)
  (Htgt : numeric tgt = true) (Hlun : numeric lun = true) (Hmessage : message_ok message = true) :
  let line := disk_line dev ctl bus tgt lun message in
  ∃ event, line_event line = Some event
    ∧ py_get "device" event = PStr ("da" +:+ dev)
    ∧ py_get "controller" event = PStr ("mpr" +:+ ctl)
    ∧ py_get "bus" event = PStr bus
    ∧ py_get "target" event = PStr (clip 32 tgt)
    ∧ py_get "lun" event = PStr lun
    ∧ py_get "message" event = PStr message
    ∧ py_get "event_type" event = PStr (mpr_dmesg_event_type message)
    ∧ py_get "severity" event = PStr (mpr_dmesg_severity message)
    ∧ py_get "line" event = PStr line.
Proof.
  cbv zeta. unfold line_event. rewrite disk_line_strip by done.
  assert (split_mpr_dmesg_timestamp (disk_line dev ctl bus tgt lun message)
    = (None, disk_line dev ctl bus tgt lun message)) as ->
    by (rewrite <-(text_chars (disk_line dev ctl bus tgt lun message)); apply no_timestamp).
  change (String.eqb (disk_line dev ctl bus tgt lun message) "") with false. cbv iota.
  rewrite disk_line_match by done.
  assert (py_strip message = message) as Hs.
  { unfold message_ok in Hmessage. apply andb_true_iff in Hmessage as [[_ Hf]%andb_true_iff Hl].
    unfold py_strip. destruct (chars message) as [|c l] eqn:Ec; [done|]. unfold not_space in *. to_prop.
    rewrite strip_l_ends; [by rewrite <-Ec, text_chars|done|].
    destruct (last (c :: l)); [|done]. by to_prop. }
  eexists. split; [reflexivity|].
  cbn [group group_text d_lookup String.eqb Ascii.eqb Bool.eqb with_timestamp]. rewrite Hs.
  assert (∀ k d, is_in k ["sense"; "sense_key"; "asc"; "reason"] = false →
    py_get k (d_update d (parse_mpr_sense_message message)) = py_get k d) as Hk.
  { intros k d H. apply py_get_update_ne. intros Hin%sense_message_keys%is_in_iff. congruence. }
  rewrite !Hk by done. done.
Qed.
Lemma disk_line_event_witness :
  ∃ event, line_event "(da12:mpr0:0:47:0): CAM status: SCSI Status Error" = Some event
    ∧ py_get "target" event = PStr "47"
    ∧ py_get "event_type" event = PStr "cam_status".
Proof.
  destruct (disk_line_event "12" "0" "0" "47" "0" "CAM status: SCSI Status Error")
    as (e & He & _ & _ & _ & Ht & _ & _ & Hty & _); [reflexivity..|].
  exists e. split; [exact He|]. split; [exact Ht|]. rewrite Hty. reflexivity.
Defined.
