(* ===== verification/Json.v ===== *)
(** * JSON texts

    What the journal uses of Python's [json]: [dumps] with sorted keys, compact
    separators, [ensure_ascii] and no NaN, and [loads] of the bytes of a line.
    A text is the list of its code points, bytes are the integers 0..255.

    [loads] follows the C scanner: the first match decides, duplicate keys keep
    the last value, numerals of more than 4300 digits are refused, control
    characters must be escaped, and every array or object costs a level of the
    recursion limit.  A float is kept as the literal it was written as; how it
    is printed and whether it is zero are the class [Floats]. *)

From S2P Require Import Prelude PyStr.
#[local] Open Scope Z_scope.
#[local] Open Scope list_scope.

(** ** Texts *)

Definition ustr : Type := list Z.
Definition u (s : string) : ustr := ord <$> chars s.

Definition between (lo hi c : Z) : bool := (lo <=? c) && (c <=? hi).
Definition is_dig (c : Z) : bool := between 48 57 c.

Fixpoint ustr_leb (a b : ustr) : bool :=
  match a, b with
  | [], _ => true
  | _ :: _, [] => false
  | x :: a', y :: b' => (x <? y) || ((x =? y) && ustr_leb a' b')
  end.

(** Exceptions. *)
Inductive py_exn := ValueError | TypeError | OverflowError | RecursionError | RuntimeError | JournalError | OSError.
#[export] Instance py_exn_eq_dec : EqDecision py_exn.
Proof. solve_decision. Defined.

(** ** Values *)

Inductive json :=
| JNull
| JBool (b : bool)
| JInt (z : Z)
| JFloat (literal : ustr)
| JStr (s : ustr)
| JList (l : list json)
| JObj (d : list (ustr * json)).

(** [d.get(k)] and [d[k] = v] *)
Fixpoint jget {A} (k : ustr) (d : list (ustr * A)) : option A :=
  match d with
  | [] => None
  | (k', v) :: d' => if decide (k = k') then Some v else jget k d'
  end.
Fixpoint jset {A} (k : ustr) (v : A) (d : list (ustr * A)) : list (ustr * A) :=
  match d with
  | [] => [(k, v)]
  | (k', v') :: d' => if decide (k = k') then (k, v) :: d' else (k', v') :: jset k v d'
  end.

Class Floats := {
  float_repr : ustr → option ustr;       (* [None]: NaN or infinite *)
  float_true : ustr → bool;
}.

(** ** Printing *)

Fixpoint dec_digits (fuel : nat) (z : Z) (acc : ustr) : ustr :=
  match fuel with
  | O => acc
  | S f => if z <? 10 then (48 + z) :: acc else dec_digits f (z / 10) ((48 + z mod 10) :: acc)
  end.
Definition dec (z : Z) : ustr := dec_digits (S (Z.to_nat (Z.log2 z))) z [].
Definition print_int (z : Z) : ustr := if z <? 0 then 45 :: dec (- z) else dec z.

Definition hex_char (d : Z) : Z := if d <? 10 then 48 + d else 87 + d.
Definition u4 (c : Z) : ustr :=
  [92; 117; hex_char (c / 4096); hex_char (c / 256 mod 16); hex_char (c / 16 mod 16); hex_char (c mod 16)].
Definition escape (c : Z) : ustr :=
  if c =? 34 then [92; 34]
  else if c =? 92 then [92; 92]
  else if c =? 10 then [92; 110]
  else if c =? 13 then [92; 114]
  else if c =? 9 then [92; 116]
  else if c =? 12 then [92; 102]
  else if c =? 8 then [92; 98]
  else if between 32 126 c then [c]
  else if c <? 65536 then u4 c
  else u4 (55296 + (c - 65536) / 1024) ++ u4 (56320 + (c - 65536) mod 1024).
Definition quote (s : ustr) : ustr := [34] ++ (s ≫= escape) ++ [34].

Fixpoint join_comma (l : list ustr) : ustr :=
  match l with
  | [] => []
  | [x] => x
  | x :: l' => x ++ [44] ++ join_comma l'
  end.
Definition member (kv : ustr * ustr) : ustr := quote (kv.1) ++ [58] ++ kv.2.
Definition key_leb {A} (a b : ustr * A) : bool := ustr_leb a.1 b.1.

Section printing.
Context {FL : Floats}.

Fixpoint dumps (d : nat) (v : json) {struct v} : result py_exn ustr :=
match v with
| JNull => Ok (u "null")
| JBool b => Ok (if b then u "true" else u "false")
| JInt z => if Nat.ltb int_max_str_digits (length (dec (Z.abs z))) then Err ValueError else Ok (print_int z)
| JFloat lit => match float_repr lit with Some s => Ok s | None => Err ValueError end
| JStr s => Ok (quote s)
| JList l =>
    match d with
    | O => Err RecursionError
    | S d' => (λ xs, [91] ++ join_comma xs ++ [93]) <$> res_mapM id (dumps d' <$> l)
    end
| JObj m =>
    match d with
    | O => Err RecursionError
    | S d' =>
        (λ xs, [123] ++ join_comma xs ++ [125]) <$>
        res_mapM (λ kv, (λ s, member (kv.1, s)) <$> kv.2)
          (sort_by key_leb ((λ kv, (kv.1, dumps d' kv.2)) <$> m))
    end
end.
End printing.

(** ** Reading *)

Definition is_ws (c : Z) : bool := (c =? 32) || (c =? 9) || (c =? 10) || (c =? 13).
Definition skip (s : ustr) : ustr := drop_while is_ws s.

Definition hex_value (c : Z) : option Z :=
  if is_dig c then Some (c - 48)
  else if between 97 102 c then Some (c - 87)
  else if between 65 70 c then Some (c - 55)
  else None.
Definition hex4 (a b c d : Z) : option Z :=
  match hex_value a, hex_value b, hex_value c, hex_value d with
  | Some a, Some b, Some c, Some d => Some (a * 4096 + b * 256 + c * 16 + d)
  | _, _, _, _ => None
  end.
Definition is_high (c : Z) : bool := between 55296 56319 c.
Definition is_low (c : Z) : bool := between 56320 57343 c.
Definition join_surrogates (hi lo : Z) : Z := 65536 + (hi - 55296) * 1024 + (lo - 56320).

Definition unescape (c : Z) : option Z :=
  if (c =? 34) || (c =? 92) || (c =? 47) then Some c
  else if c =? 98 then Some 8
  else if c =? 102 then Some 12
  else if c =? 110 then Some 10
  else if c =? 114 then Some 13
  else if c =? 116 then Some 9
  else None.

Definition cons_to (c : Z) (r : option (ustr * ustr)) : option (ustr * ustr) :=
  match r with Some (s, rest) => Some (c :: s, rest) | None => None end.

(** The rest of a string after its opening quote. *)
Fixpoint scan_string (s : ustr) : option (ustr * ustr) :=
  match s with
  | [] => None
  | c :: s1 =>
      if c =? 34 then Some ([], s1)
      else if c =? 92 then
        match s1 with
        | [] => None
        | e :: s2 =>
            if e =? 117 then
              match s2 with
              | a :: b :: x :: y :: s3 =>
                  match hex4 a b x y with
                  | None => None
                  | Some hi =>
                      match s3 with
                      | c1 :: c2 :: a' :: b' :: x' :: y' :: s4 =>
                          if is_high hi && (c1 =? 92) && (c2 =? 117) then
                            match hex4 a' b' x' y' with
                            | None => None
                            | Some lo =>
                                if is_low lo then cons_to (join_surrogates hi lo) (scan_string s4)
                                else cons_to hi (scan_string s3)
                            end
                          else cons_to hi (scan_string s3)
                      | _ => cons_to hi (scan_string s3)
                      end
                  end
              | _ => None
              end
            else
              match unescape e with
              | Some c' => cons_to c' (scan_string s2)
              | None => None
              end
        end
      else if c <? 32 then None
      else cons_to c (scan_string s1)
  end.

Definition digits_value (ds : ustr) : Z := fold_left (λ a c, 10 * a + (c - 48)) ds 0.

(** An optional sign, [0] or digits that do not start with [0], then a
    fraction, then an exponent. *)
Definition scan_int_part (s : ustr) : option (ustr * ustr) :=
  match s with
  | c :: r =>
      if c =? 48 then Some ([48], r)
      else if is_dig c then Some (take_while is_dig s, drop_while is_dig s)
      else None
  | [] => None
  end.
Definition scan_frac (s : ustr) : ustr * ustr :=
  match s with
  | c :: r =>
      if c =? 46 then match take_while is_dig r with [] => ([], s) | ds => (c :: ds, drop_while is_dig r) end
      else ([], s)
  | [] => ([], s)
  end.
Definition scan_exp (s : ustr) : ustr * ustr :=
  match s with
  | c :: r =>
      if (c =? 101) || (c =? 69) then
        let '(sign, r') := match r with
                           | x :: r' => if (x =? 43) || (x =? 45) then ([x], r') else ([], r)
                           | [] => ([], r)
                           end in
        match take_while is_dig r' with [] => ([], s) | ds => (c :: sign ++ ds, drop_while is_dig r') end
      else ([], s)
  | [] => ([], s)
  end.
Definition scan_sign (s : ustr) : ustr * ustr :=
  match s with
  | c :: r => if c =? 45 then ([45], r) else ([], s)
  | [] => ([], s)
  end.
Definition scan_number (s : ustr) : option (json * ustr) :=
  let '(sign, s1) := scan_sign s in
  match scan_int_part s1 with
  | None => None
  | Some (ds, s2) =>
      let '(frac, s3) := scan_frac s2 in
      let '(exp, s4) := scan_exp s3 in
      if bool_decide (frac = [] ∧ exp = []) then
        if Nat.ltb int_max_str_digits (length ds) then None
        else Some (JInt (match sign with [] => digits_value ds | _ => - digits_value ds end), s4)
      else Some (JFloat (sign ++ ds ++ frac ++ exp), s4)
  end.

Fixpoint strip_prefix (p s : ustr) : option ustr :=
  match p, s with
  | [], _ => Some s
  | x :: p', y :: s' => if x =? y then strip_prefix p' s' else None
  | _ :: _, [] => None
  end.
(** The constants, and otherwise a number. *)
Definition constants : list (ustr * json) :=
  [(u "null", JNull); (u "true", JBool true); (u "false", JBool false); (u "NaN", JFloat (u "NaN"));
   (u "Infinity", JFloat (u "Infinity")); (u "-Infinity", JFloat (u "-Infinity"))].
Fixpoint scan_atom (cs : list (ustr * json)) (s : ustr) : option (json * ustr) :=
  match cs with
  | [] => scan_number s
  | (p, v) :: cs' =>
      match strip_prefix p s with
      | Some r => Some (v, r)
      | None => scan_atom cs' s
      end
  end.

(** A value; [elements] and [members] are the rest of an array or object whose
    next element starts at [s]. *)
Fixpoint scan (fuel d : nat) (s : ustr) : option (json * ustr) :=
  match fuel with
  | O => None
  | S f =>
      match s with
      | [] => None
      | c :: r =>
          if c =? 34 then match scan_string r with Some (t, r') => Some (JStr t, r') | None => None end
          else if c =? 123 then
            match d with
            | O => None
            | S d' => match skip r with
                      | x :: r' => if x =? 125 then Some (JObj [], r') else members f d' [] (x :: r')
                      | [] => None
                      end
            end
          else if c =? 91 then
            match d with
            | O => None
            | S d' => match skip r with
                      | x :: r' => if x =? 93 then Some (JList [], r') else elements f d' [] (x :: r')
                      | [] => None
                      end
            end
          else scan_atom constants s
      end
  end
with members (fuel d : nat) (acc : list (ustr * json)) (s : ustr) : option (json * ustr) :=
  match fuel with
  | O => None
  | S f =>
      match s with
      | q :: r =>
          if q =? 34 then
            match scan_string r with
            | None => None
            | Some (k, r1) =>
                match skip r1 with
                | colon :: r2 =>
                    if colon =? 58 then
                      match scan f d (skip r2) with
                      | None => None
                      | Some (v, r3) =>
                          match skip r3 with
                          | x :: r4 =>
                              if x =? 125 then Some (JObj (jset k v acc), r4)
                              else if x =? 44 then members f d (jset k v acc) (skip r4)
                              else None
                          | [] => None
                          end
                      end
                    else None
                | [] => None
                end
            end
          else None
      | [] => None
      end
  end
with elements (fuel d : nat) (acc : list json) (s : ustr) : option (json * ustr) :=
  match fuel with
  | O => None
  | S f =>
      match scan f d s with
      | None => None
      | Some (v, r3) =>
          match skip r3 with
          | x :: r4 =>
              if x =? 93 then Some (JList (acc ++ [v]), r4)
              else if x =? 44 then elements f d (acc ++ [v]) (skip r4)
              else None
          | [] => None
          end
      end
  end.

(** Enough for a text: every recursive call but one leaves a character behind
    ([scan_enough]). *)
Definition scan_fuel (s : ustr) : nat := 2 * length s + 2.

(** [JSONDecoder.decode] *)
Definition decode (limit : nat) (s : ustr) : option json :=
  let s := skip s in
  match scan (scan_fuel s) limit s with
  | Some (v, rest) => match skip rest with [] => Some v | _ => None end
  | None => None
  end.

(** [str.strip()] of a text of code points *)
Definition is_uspace (c : Z) : bool :=
  between 9 13 c || between 28 32 c || (c =? 133) || (c =? 160) || (c =? 5760) || between 8192 8202 c
  || (c =? 8232) || (c =? 8233) || (c =? 8239) || (c =? 8287) || (c =? 12288).
Definition ustrip (s : ustr) : ustr := rev (drop_while is_uspace (rev (drop_while is_uspace s))).

(** ** Bytes *)

Definition is_cont (b : Z) : bool := between 128 191 b.
(** UTF-8 with [surrogatepass]: surrogates may be encoded like other characters. *)
Fixpoint utf8_decode (b : list Z) : option ustr :=
  match b with
  | [] => Some []
  | b0 :: r =>
      if b0 <? 128 then (b0 ::.) <$> utf8_decode r
      else if between 194 223 b0 then
        match r with
        | b1 :: r' => if is_cont b1 then ((b0 - 192) * 64 + (b1 - 128) ::.) <$> utf8_decode r' else None
        | _ => None
        end
      else if between 224 239 b0 then
        match r with
        | b1 :: b2 :: r' =>
            let c := (b0 - 224) * 4096 + (b1 - 128) * 64 + (b2 - 128) in
            if is_cont b1 && is_cont b2 && (2048 <=? c) then (c ::.) <$> utf8_decode r' else None
        | _ => None
        end
      else if between 240 244 b0 then
        match r with
        | b1 :: b2 :: b3 :: r' =>
            let c := (b0 - 240) * 262144 + (b1 - 128) * 4096 + (b2 - 128) * 64 + (b3 - 128) in
            if is_cont b1 && is_cont b2 && is_cont b3 && between 65536 1114111 c
            then (c ::.) <$> utf8_decode r' else None
        | _ => None
        end
      else None
  end.

(** The words of an encoding with words of two or four bytes. *)
Definition word (big : bool) (bs : list Z) : Z :=
  fold_left (λ a b, a * 256 + b) (if big then bs else reverse bs) 0.
Fixpoint words16 (big : bool) (b : list Z) : option (list Z) :=
  match b with
  | [] => Some []
  | b0 :: b1 :: r => (word big [b0; b1] ::.) <$> words16 big r
  | _ => None
  end.
Fixpoint join_utf16 (ws : list Z) : ustr :=
  match ws with
  | hi :: ((lo :: ws') as rest) =>
      if is_high hi && is_low lo then join_surrogates hi lo :: join_utf16 ws' else hi :: join_utf16 rest
  | _ => ws
  end.
Definition utf16_decode (big : bool) (b : list Z) : option ustr := join_utf16 <$> words16 big b.
Fixpoint utf32_decode (big : bool) (b : list Z) : option ustr :=
  match b with
  | [] => Some []
  | b0 :: b1 :: b2 :: b3 :: r =>
      let c := word big [b0; b1; b2; b3] in
      if c <? 1114112 then (c ::.) <$> utf32_decode big r else None
  | _ => None
  end.

(** [json.detect_encoding], then the decoding *)
Definition starts (p b : list Z) : bool := bool_decide (take (length p) b = p).
Definition decode_bytes (b : list Z) : option ustr :=
  if starts [0; 0; 254; 255] b then utf32_decode true (drop 4 b)
  else if starts [255; 254; 0; 0] b then utf32_decode false (drop 4 b)
  else if starts [254; 255] b then utf16_decode true (drop 2 b)
  else if starts [255; 254] b then utf16_decode false (drop 2 b)
  else if starts [239; 187; 191] b then utf8_decode (drop 3 b)
  else match b with
       | b0 :: b1 :: b2 :: b3 :: _ =>
           if b0 =? 0 then (if b1 =? 0 then utf32_decode true b else utf16_decode true b)
           else if b1 =? 0
           then (if (b2 =? 0) && (b3 =? 0) then utf32_decode false b else utf16_decode false b)
           else utf8_decode b
       | [b0; b1] =>
           if b0 =? 0 then utf16_decode true b
           else if b1 =? 0 then utf16_decode false b
           else utf8_decode b
       | _ => utf8_decode b
       end.

(** [json.loads] of bytes, with [limit] levels of recursion left; [None] is
    [ValueError] or [RecursionError]. *)
Definition loads (limit : nat) (b : list Z) : option json :=
  match decode_bytes b with
  | Some s => decode limit s
  | None => None
  end.

#[local] Instance no_floats : Floats := {| float_repr := Some; float_true := λ _, true |}.
Example json_prints :
  dumps 2 (JObj [(u "b", JInt (-3)); (u "a", JList [JStr [233; 34]; JNull])])
  = Ok (u "{" ++ [34; 97; 34] ++ u ":[" ++ [34] ++ u "\u00e9\" ++ [34; 34] ++ u ",null]," ++ [34; 98; 34] ++ u ":-3}").
Proof. vm_compute. reflexivity. Qed.
Example json_reads :
  loads 2 (u " [1 , {} ,-0.5e2,[ ]]") = Some (JList [JInt 1; JObj []; JFloat (u "-0.5e2"); JList []])
  ∧ loads 1 (u "[[]]") = None ∧ loads 9 (u "[01]") = None ∧ loads 9 (u "1 2") = None
  ∧ loads 9 ([34] ++ u "\ud83d\ude00" ++ [34]) = Some (JStr [128512]).
Proof. vm_compute. auto. Qed.
