(* ===== verification/JsonProofs.v ===== *)
(** * JSON texts are read back

    [json_roundtrip]: what [dumps] prints, [loads] reads back, up to the order
    of object keys.  [loads_prefix]: no proper prefix of a printed object is an
    object, so a torn line is never taken for a record.  [scan_enough]: the fuel
    of the scanner never decides. *)

From S2P Require Import Prelude PyStr Json.
#[local] Open Scope Z_scope.
#[local] Open Scope list_scope.

(** ** Texts are ordered by their code points *)

Lemma ustr_leb_total a b : ustr_leb a b = true ∨ ustr_leb b a = true.
Proof.
  revert b; induction a as [|x a IH]; intros [|y b]; cbn; auto.
  destruct (Z.ltb_spec x y), (Z.ltb_spec y x), (Z.eqb_spec x y), (Z.eqb_spec y x); cbn; auto; lia.
Qed.
Lemma ustr_leb_trans a b c : ustr_leb a b = true → ustr_leb b c = true → ustr_leb a c = true.
Proof.
  revert b c; induction a as [|x a IH]; intros [|y b] [|z c]; cbn; try done.
  destruct (Z.ltb_spec x y), (Z.ltb_spec y z), (Z.ltb_spec x z), (Z.eqb_spec x y), (Z.eqb_spec y z), (Z.eqb_spec x z);
    cbn; try done; try lia. apply IH.
Qed.

(** Keys in order. *)
Lemma key_leb_total {A} (x y : ustr * A) : key_leb x y = true ∨ key_leb y x = true.
Proof. apply ustr_leb_total. Qed.
Lemma key_leb_trans {A} (x y z : ustr * A) : key_leb x y = true → key_leb y z = true → key_leb x z = true.
Proof. apply ustr_leb_trans. Qed.

Lemma ustr_leb_antisym a b : ustr_leb a b = true → ustr_leb b a = true → a = b.
Proof.
  revert b; induction a as [|x a IH]; intros [|y b]; cbn; try done.
  destruct (Z.ltb_spec x y), (Z.ltb_spec y x), (Z.eqb_spec x y), (Z.eqb_spec y x); cbn; try done; try lia.
  intros. subst. f_equal. by apply IH.
Qed.

Lemma between_true lo hi c : between lo hi c = true ↔ lo <= c <= hi.
Proof. unfold between. rewrite andb_true_iff, !Z.leb_le. done. Qed.
Lemma between_false lo hi c : between lo hi c = false ↔ ¬ lo <= c <= hi.
Proof. rewrite <-between_true. by destruct (between lo hi c). Qed.

(** Decide the character tests of a goal. *)
Ltac test_chars :=
  repeat match goal with
  | |- context [?a =? ?b] => first
      [ rewrite (proj2 (Z.eqb_eq a b)) by lia | rewrite (proj2 (Z.eqb_neq a b)) by lia ]
  | |- context [?a <? ?b] => first
      [ rewrite (proj2 (Z.ltb_lt a b)) by lia | rewrite (proj2 (Z.ltb_ge a b)) by lia ]
  | |- context [between ?a ?b ?c] => first
      [ rewrite (proj2 (between_true a b c)) by lia | rewrite (proj2 (between_false a b c)) by lia ]
  end.

(** ** Strings *)

Definition is_scalar (c : Z) : bool := between 0 55295 c || between 57344 1114111 c.

Lemma is_scalar_spec c : is_scalar c = true ↔ 0 <= c <= 55295 ∨ 57344 <= c <= 1114111.
Proof. unfold is_scalar. by rewrite orb_true_iff, !between_true. Qed.

Lemma hex_chars_checked : forall_from (λ d, bool_decide (hex_value (hex_char d) = Some d)) 16 0 = true.
Proof. vm_compute. reflexivity. Qed.
Lemma hex_value_char d : 0 <= d < 16 → hex_value (hex_char d) = Some d.
Proof. intros Hd. by apply (forall_from_spec _ _ _ hex_chars_checked), bool_decide_eq_true in Hd. Qed.

Lemma hex4_u4 c : 0 <= c < 65536 →
  hex4 (hex_char (c / 4096)) (hex_char (c / 256 mod 16)) (hex_char (c / 16 mod 16)) (hex_char (c mod 16))
  = Some c.
Proof.
  intros Hc. unfold hex4. rewrite !hex_value_char by (Z.div_mod_to_equations; lia).
  f_equal. Z.div_mod_to_equations. lia.
Qed.

Lemma scan_u4_alone c r : 0 <= c < 65536 → is_high c = false →
  scan_string (u4 c ++ r) = cons_to c (scan_string r).
Proof.
  intros Hc Hh. unfold u4. cbn [app scan_string]. cbn -[hex4 hex_char Z.div Z.modulo is_high scan_string].
  cbn [scan_string]. cbn -[hex4 hex_char Z.div Z.modulo is_high scan_string].
  rewrite hex4_u4 by done. do 6 (destruct r as [|? r]; [done|]). by rewrite Hh.
Qed.
Lemma scan_u4_pair hi lo r : is_high hi = true → is_low lo = true →
  scan_string (u4 hi ++ u4 lo ++ r) = cons_to (join_surrogates hi lo) (scan_string r).
Proof.
  intros Hh Hl. pose proof Hh as Hh'. pose proof Hl as Hl'.
  apply between_true in Hh', Hl'. unfold u4. cbn [app].
  cbn -[hex4 hex_char Z.div Z.modulo is_high is_low join_surrogates].
  rewrite hex4_u4 by lia. rewrite Hh. cbn [andb]. rewrite hex4_u4 by lia. by rewrite Hl.
Qed.

Lemma scan_escape c r : is_scalar c = true → scan_string (escape c ++ r) = cons_to c (scan_string r).
Proof.
  intros Hc%is_scalar_spec. unfold escape.
  repeat match goal with
  | |- context [if ?a =? ?b then _ else _] => destruct (Z.eqb_spec a b) as [->|]; [reflexivity|]
  end.
  destruct (between 32 126 c) eqn:E.
  { apply between_true in E. cbn [app scan_string]. by test_chars. }
  destruct (Z.ltb_spec c 65536).
  { apply scan_u4_alone; [lia|]. apply between_false. lia. }
  rewrite <-app_assoc, scan_u4_pair.
  - f_equal. unfold join_surrogates. pose proof (Z.div_mod (c - 65536) 1024). lia.
  - apply between_true. Z.div_mod_to_equations. lia.
  - apply between_true. Z.div_mod_to_equations. lia.
Qed.

Lemma scan_string_quote s r : Forall (λ c, is_scalar c = true) s →
  scan_string ((s ≫= escape) ++ [34] ++ r) = Some (s, r).
Proof.
  induction 1 as [|c s Hc _ IH]; [done|].
  change ((c :: s) ≫= escape) with (escape c ++ (s ≫= escape)).
  by rewrite <-app_assoc, scan_escape, IH by done.
Qed.

(** ** Numbers *)

Definition number_char (c : Z) : bool := is_dig c || (c =? 46) || (c =? 101) || (c =? 69).
(** What follows a number that ends here. *)
Definition ends_number (r : ustr) : Prop := match r with [] => True | c :: _ => number_char c = false end.

Lemma take_drop_digits ds r : forallb is_dig ds = true → ends_number r →
  take_while is_dig (ds ++ r) = ds ∧ drop_while is_dig (ds ++ r) = r.
Proof.
  intros Hds Hr. induction ds as [|d ds IH]; simpl in *.
  - destruct r as [|c r]; [done|]. simpl in *. unfold number_char in Hr.
    destruct (is_dig c); [done|done].
  - to_prop. rewrite H. destruct (IH H0) as [-> ->]. done.
Qed.

Lemma dec_digits_spec fuel z acc : 0 <= z < 2 ^ Z.of_nat fuel → (0 < fuel)%nat →
  ∃ d ds, dec_digits fuel z acc = (d :: ds) ++ acc ∧ forallb is_dig (d :: ds) = true
    ∧ (d = 48 → ds = [] ∧ z = 0)
    ∧ ∀ a, fold_left (λ a c, 10 * a + (c - 48)) (d :: ds) a = a * 10 ^ Z.of_nat (length (d :: ds)) + z.
Proof.
  revert z acc; induction fuel as [|f IH]; intros z acc Hz Hf; [lia|]. cbn [dec_digits].
  destruct (Z.ltb_spec z 10).
  - exists (48 + z), []. split_and!; [done| |intros; split; [done|lia]|].
    + cbn. rewrite andb_true_r. apply between_true. lia.
    + intros a. cbn. lia.
  - assert (0 <= z / 10 < 2 ^ Z.of_nat f) as Hq.
    { split; [apply Z.div_pos; lia|]. apply Z.div_lt_upper_bound; [lia|].
      rewrite Nat2Z.inj_succ, Z.pow_succ_r in Hz by lia. lia. }
    assert (0 < f)%nat as Hf'.
    { destruct f; [|lia]. assert (1 <= z / 10) by (apply Z.div_le_lower_bound; lia). simpl in *. lia. }
    pose proof (Z.mod_pos_bound z 10 ltac:(lia)) as Hm.
    destruct (IH (z / 10) ((48 + z mod 10) :: acc) Hq Hf') as (d & ds & E & HF & H0 & Hv).
    exists d, (ds ++ [48 + z mod 10]). rewrite E. split_and!.
    + rewrite app_comm_cons, <-app_assoc. done.
    + rewrite app_comm_cons, forallb_app, HF. cbn. rewrite andb_true_r. apply between_true. lia.
    + intros [-> Hd]%H0. exfalso. assert (1 <= z / 10) by (apply Z.div_le_lower_bound; lia). lia.
    + intros a. rewrite app_comm_cons, fold_left_app, Hv. cbn [fold_left].
      rewrite length_app. cbn [length]. rewrite Nat2Z.inj_add, Z.pow_add_r by lia.
      pose proof (Z.div_mod z 10 ltac:(lia)). change (10 ^ Z.of_nat 1) with 10. nia.
Qed.

Lemma dec_spec z : 0 <= z →
  ∃ d ds, dec z = d :: ds ∧ forallb is_dig (d :: ds) = true ∧ (d = 48 → ds = [])
    ∧ digits_value (d :: ds) = z.
Proof.
  intros Hz. unfold dec.
  destruct (dec_digits_spec (S (Z.to_nat (Z.log2 z))) z []) as (d & ds & E & HF & H0 & Hv); [|lia|].
  - split; [done|]. rewrite Nat2Z.inj_succ, Z2Nat.id by apply Z.log2_nonneg.
    destruct (Z.eq_dec z 0) as [->|]; [done|]. apply Z.log2_spec. lia.
  - exists d, ds. rewrite E, app_nil_r. split_and!; [done|done| |].
    + intros [? _]%H0. done.
    + unfold digits_value. by rewrite Hv.
Qed.

Lemma scan_int_part_dec z r : 0 <= z → ends_number r → scan_int_part (dec z ++ r) = Some (dec z, r).
Proof.
  intros Hz Hr. destruct (dec_spec z Hz) as (d & ds & -> & HF & H0 & _). cbn [app scan_int_part].
  destruct (Z.eqb_spec d 48) as [->|Hd].
  - by rewrite H0.
  - destruct (take_drop_digits (d :: ds) r HF Hr) as [Ht Hdr]. cbn [app] in *. rewrite Ht, Hdr.
    simpl in HF. to_prop. by rewrite H.
Qed.

Lemma scan_no_frac r : ends_number r → scan_frac r = ([], r).
Proof.
  destruct r as [|c r]; [done|]. cbn. unfold number_char. intros H. by destruct (c =? 46); [rewrite orb_true_r in H|].
Qed.
Lemma scan_no_exp r : ends_number r → scan_exp r = ([], r).
Proof.
  destruct r as [|c r]; [done|]. cbn. unfold number_char. intros H. rewrite <-orb_assoc in H.
  by destruct ((c =? 101) || (c =? 69)); [rewrite orb_true_r in H|].
Qed.

Lemma scan_number_int z r : (length (dec (Z.abs z)) <= int_max_str_digits)%nat → ends_number r →
  scan_number (print_int z ++ r) = Some (JInt z, r).
Proof.
  intros Hl Hr. unfold print_int, scan_number, scan_sign.
  assert (∀ w sign, 0 <= w → w = Z.abs z →
    (match scan_int_part (dec w ++ r) with
     | None => None
     | Some (ds, s2) =>
         let '(frac, s3) := scan_frac s2 in
         let '(exp, s4) := scan_exp s3 in
         if bool_decide (frac = [] ∧ exp = []) then
           if Nat.ltb int_max_str_digits (length ds) then None
           else Some (JInt (match sign with [] => digits_value ds | _ => - digits_value ds end), s4)
         else Some (JFloat (sign ++ ds ++ frac ++ exp), s4)
     end) = Some (JInt (match sign with [] => w | _ => - w end), r)) as Hbody.
  { intros w sign Hw Ew. rewrite scan_int_part_dec, scan_no_frac, scan_no_exp by done.
    rewrite bool_decide_eq_true_2 by done. subst w. rewrite (proj2 (Nat.ltb_ge _ _)) by done.
    destruct (dec_spec (Z.abs z) Hw) as (d & ds & -> & _ & _ & ->). done. }
  destruct (Z.ltb_spec z 0).
  - cbn [app]. change (45 =? 45) with true. cbv iota. rewrite (Hbody (- z) [45]) by lia. f_equal. f_equal.
    f_equal. lia.
  - destruct (dec_spec z ltac:(lia)) as (d & ds & E & HF & _ & _).
    specialize (Hbody z [] ltac:(lia) ltac:(lia)). rewrite E in Hbody |- *. cbn [app] in Hbody |- *.
    cbn in HF. to_prop. apply between_true in H0. test_chars. exact Hbody.
Qed.

(** ** Stripped texts *)

Definition stripped (s : ustr) : Prop := s ≠ [] ∧ ustrip s = s.
Lemma drop_while_stop {A} (p : A → bool) l :
  drop_while p l = [] ∨ ∃ x l', drop_while p l = x :: l' ∧ p x = false.
Proof. induction l as [|x l IH]; cbn; [by left|]. destruct (p x) eqn:E; [done|]. right. by exists x, l. Qed.
Lemma drop_while_suffix {A} (p : A → bool) l : ∃ k, l = k ++ drop_while p l.
Proof.
  induction l as [|x l [k IH]]; cbn; [by exists []|]. destruct (p x); [exists (x :: k); cbn; by f_equal|by exists []].
Qed.
Lemma ustrip_ends c s e : is_uspace c = false → is_uspace e = false → ustrip (c :: s ++ [e]) = c :: s ++ [e].
Proof.
  intros Hc He. unfold ustrip. cbn [drop_while]. rewrite Hc, app_comm_cons, rev_unit. cbn [drop_while]. rewrite He.
  by rewrite <-rev_unit, rev_involutive.
Qed.
Lemma ustrip_stripped s : ustrip s ≠ [] → stripped (ustrip s).
Proof.
  intros Hne. split; [done|]. remember (ustrip s) as t eqn:E. unfold ustrip in E.
  destruct (drop_while_stop is_uspace s) as [E1|(c & s1 & E1 & Hc)]; rewrite E1 in E; [by rewrite E in Hne|].
  destruct (drop_while_stop is_uspace (rev (c :: s1))) as [E2|(e & s2 & E2 & He)]; rewrite E2 in E; [by rewrite E in Hne|].
  destruct (drop_while_suffix is_uspace (rev (c :: s1))) as [k Hk]. rewrite E2 in Hk.
  assert (c :: s1 = rev (e :: s2) ++ rev k) as Hs by (by rewrite <-rev_app_distr, <-Hk, rev_involutive).
  subst t. cbn [rev] in *. destruct (rev s2) as [|c' s3] eqn:E3; cbn in Hs |- *; injection Hs as -> Hs.
  - unfold ustrip. cbn. rewrite Hc. cbn. by rewrite Hc.
  - by apply ustrip_ends.
Qed.

(** ** Values *)

Section json_ind.
Context (P : json → Prop).
Context (Hnull : P JNull) (Hbool : ∀ b, P (JBool b)) (Hint : ∀ z, P (JInt z)) (Hfloat : ∀ l, P (JFloat l)).
Context (Hstr : ∀ s, P (JStr s)) (Hlist : ∀ l, Forall P l → P (JList l)).
Context (Hobj : ∀ d : list (ustr * json), Forall (λ kv, P kv.2) d → P (JObj d)).
Fixpoint json_ind' (v : json) : P v :=
match v with
| JNull => Hnull
| JBool b => Hbool b
| JInt z => Hint z
| JFloat l => Hfloat l
| JStr s => Hstr s
| JList l =>
    Hlist l ((fix go l := match l return Forall P l with
                          | [] => Forall_nil_2 _
                          | v :: l' => Forall_cons_2 _ _ _ (json_ind' v) (go l')
                          end) l)
| JObj d =>
    Hobj d ((fix go d := match d return Forall (λ kv, P kv.2) d with
                         | [] => Forall_nil_2 _
                         | kv :: d' => Forall_cons_2 _ _ _ (json_ind' kv.2) (go d')
                         end) d)
end.
End json_ind.

(** What the code builds: no floats, no surrogates, distinct keys. *)
Definition scalars (s : ustr) : bool := forallb is_scalar s.
Fixpoint plain (v : json) : bool :=
  match v with
  | JFloat _ => false
  | JStr s => scalars s
  | JList l => forallb plain l
  | JObj d => bool_decide (NoDup d.*1) && forallb (λ kv, scalars kv.1 && plain kv.2) d
  | _ => true
  end.

(** Keys in the order they are printed. *)
Fixpoint normal (v : json) : json :=
  match v with
  | JList l => JList (normal <$> l)
  | JObj d => JObj (sort_by key_leb ((λ kv, (kv.1, normal kv.2)) <$> d))
  | _ => v
  end.

Lemma insert_by_fmap {A B} (leb1 : A → A → bool) (leb2 : B → B → bool) (g : A → B) x l :
  (∀ x y, leb2 (g x) (g y) = leb1 x y) → insert_by leb2 (g x) (g <$> l) = g <$> insert_by leb1 x l.
Proof.
  intros H. induction l as [|y l IH]; [done|]. cbn. rewrite H. destruct (leb1 x y); [done|].
  cbn. by rewrite IH.
Qed.
Lemma sort_by_fmap {A B} (leb1 : A → A → bool) (leb2 : B → B → bool) (g : A → B) l :
  (∀ x y, leb2 (g x) (g y) = leb1 x y) → sort_by leb2 (g <$> l) = g <$> sort_by leb1 l.
Proof.
  intros H. induction l as [|x l IH]; [done|].
  change (insert_by leb2 (g x) (sort_by leb2 (g <$> l)) = g <$> insert_by leb1 x (sort_by leb1 l)).
  rewrite IH. by apply insert_by_fmap.
Qed.

Lemma scalars_Forall s : scalars s = true ↔ Forall (λ c, is_scalar c = true) s.
Proof.
  unfold scalars. rewrite forallb_forall, Forall_forall. setoid_rewrite list_elem_of_In. done.
Qed.
Lemma scan_quote s r : scalars s = true → scan_string (drop 1 (quote s) ++ r) = Some (s, r).
Proof.
  intros Hs%scalars_Forall. change (drop 1 (quote s)) with ((s ≫= escape) ++ [34]).
  rewrite <-app_assoc. by apply scan_string_quote.
Qed.

(** [s] is the text of [v]. *)
Definition starts_value (s : ustr) : Prop :=
  match s with c :: _ => is_ws c = false ∧ c ≠ 93 ∧ c ≠ 125 | [] => False end.
Definition reads (d : nat) (s : ustr) (v : json) : Prop :=
  starts_value s ∧
  ∀ f r, ends_number r → (2 * length (s ++ r) + 1 <= f)%nat → scan f d (s ++ r) = Some (v, r).

Lemma skip_value s r : starts_value s → skip (s ++ r) = s ++ r.
Proof. destruct s as [|c s]; [done|]. intros (H & _). cbn. by rewrite H. Qed.
Lemma ends_comma (r : ustr) c : (c = 44 ∨ c = 93 ∨ c = 125) → ends_number (c :: r).
Proof. by intros [->|[->| ->]]. Qed.

Lemma elements_reads d vs ts acc f r :
  vs ≠ [] → Forall2 (λ v t, reads d t v) vs ts →
  (2 * length (join_comma ts ++ 93%Z :: r) + 2 <= f)%nat →
  elements f d acc (join_comma ts ++ 93 :: r) = Some (JList (acc ++ vs), r).
Proof.
  intros Hne H. revert acc f Hne. induction H as [|v t vs ts [Ht Hr] Hts IH]; intros acc f Hne Hf; [done|].
  destruct f as [|f]; [lia|]. cbn [elements]. destruct ts as [|t' ts].
  - inversion Hts; subst. cbn [join_comma] in *. rewrite Hr by (try apply ends_comma; auto; lia). done.
  - change (join_comma (t :: t' :: ts)) with (t ++ 44 :: join_comma (t' :: ts)) in *.
    rewrite <-app_assoc in Hf |- *. cbn [app] in Hf |- *.
    rewrite Hr by (try apply ends_comma; auto; lia). cbn [skip drop_while is_ws].
    change (is_ws 44) with false. cbv iota. change (44 =? 93) with false. change (44 =? 44) with true. cbv iota.
    destruct vs as [|v' vs]; [by inversion Hts|]. change (drop_while is_ws ?x) with (skip x).
    assert (starts_value (join_comma (t' :: ts))) as Hs.
    { inversion Hts as [|?? ?? [Hs _] _]; subst. destruct t' as [|c t']; [done|]. by destruct ts. }
    rewrite (skip_value _ _ Hs), IH; [|done|rewrite length_app in Hf; cbn [length] in Hf; lia].
    by rewrite <-app_assoc.
Qed.

Lemma quote_cons s : quote s = 34 :: drop 1 (quote s).
Proof. done. Qed.

Lemma members_reads d (kvs : list (ustr * json)) ts acc f r :
  kvs ≠ [] →
  Forall2 (λ kv t, scalars kv.1 = true ∧ ∃ s, t = member (kv.1, s) ∧ reads d s kv.2) kvs ts →
  (2 * length (join_comma ts ++ 125%Z :: r) + 2 <= f)%nat →
  members f d acc (join_comma ts ++ 125 :: r)
  = Some (JObj (fold_left (λ a kv, jset kv.1 kv.2 a) kvs acc), r).
Proof.
  intros Hne H. revert acc f Hne.
  induction H as [|[k v] t kvs ts (Hk & s & -> & [Hs Hr]) Hts IH]; intros acc f Hne Hf; [done|].
  destruct f as [|f]; [lia|]. cbn [fst snd] in *.
  assert (∃ x more, (x = 44 ∨ x = 125) ∧ join_comma (member (k, s) :: ts) ++ 125 :: r = member (k, s) ++ x :: more
    ∧ (x = 125 → ts = [] ∧ more = r) ∧ (x = 44 → ts ≠ [] ∧ more = join_comma ts ++ 125 :: r)) as (x & more & Hx & E & Hnil & Hcons).
  { destruct ts as [|t' ts].
    - exists 125, r. split_and!; auto. done.
    - exists 44, (join_comma (t' :: ts) ++ 125 :: r). split_and!; auto; [|done].
      cbn [join_comma]. by rewrite <-!app_assoc. }
  rewrite E in Hf |- *. unfold member in Hf |- *. cbn [fst snd] in Hf |- *. rewrite <-!app_assoc in Hf |- *.
  rewrite quote_cons in Hf |- *. cbn [app] in Hf |- *. cbn [members].
  change (34 =? 34) with true. cbv iota. rewrite scan_quote by done. cbn [skip drop_while].
  change (is_ws 58) with false. cbv iota. change (58 =? 58) with true. cbv iota.
  change (drop_while is_ws ?x) with (skip x).
  rewrite (skip_value _ _ Hs). cbn [length] in Hf. rewrite length_app in Hf. cbn [length] in Hf.
  rewrite Hr; [|apply ends_comma; tauto|lia].
  destruct Hx as [-> | ->].
  - destruct (Hcons eq_refl) as [Hts' ->]. cbn. change (drop_while is_ws ?x) with (skip x).
    destruct kvs as [|kv kvs]; [by inversion Hts; subst|].
    assert (starts_value (join_comma ts)) as Hj.
    { inversion Hts as [|?? ? ? (_ & ? & -> & _)]; subst. unfold member. by destruct l'. }
    rewrite (skip_value _ _ Hj). apply IH; [done|]. rewrite length_app in Hf. cbn [length] in Hf. lia.
  - destruct (Hnil eq_refl) as [-> ->]. inversion Hts; subst. done.
Qed.

Lemma jget_elem {A} k (v : A) d : NoDup d.*1 → jget k d = Some v ↔ (k, v) ∈ d.
Proof.
  induction d as [|[k' v'] d IH]; cbn; intros Hnd; [split; [done|by intros ?%not_elem_of_nil]|].
  apply NoDup_cons in Hnd as [Hk Hnd]. rewrite elem_of_cons. destruct (decide (k = k')) as [->|Hne].
  - split; [by intros [= ->]; left|]. intros [[= ->]|Hin]; [done|]. destruct Hk.
    apply list_elem_of_fmap. by exists (k', v).
  - rewrite IH by done. split; [by right|]. intros [[= ? ?]|?]; [done|done].
Qed.
Lemma jget_jset {A} k k' (v : A) d : jget k (jset k' v d) = if decide (k = k') then Some v else jget k d.
Proof.
  induction d as [|[k0 v0] d IH]; cbn.
  - by destruct (decide (k = k')).
  - destruct (decide (k' = k0)) as [->|Hne]; cbn.
    + by destruct (decide (k = k0)).
    + rewrite IH. destruct (decide (k = k0)) as [->|]; [|done]. by rewrite decide_False by done.
Qed.
Lemma jset_fresh {A} k (v : A) d : k ∉ d.*1 → jset k v d = d ++ [(k, v)].
Proof.
  induction d as [|[k' v'] d IH]; intros Hk; [done|]. cbn in *. apply not_elem_of_cons in Hk as [Hne Hk].
  rewrite decide_False by done. by rewrite IH.
Qed.
Lemma fold_jset {A} (kvs d : list (ustr * A)) : NoDup (d ++ kvs).*1 →
  fold_left (λ a kv, jset kv.1 kv.2 a) kvs d = d ++ kvs.
Proof.
  revert d; induction kvs as [|[k v] kvs IH]; intros d Hd; [by rewrite app_nil_r|]. cbn.
  rewrite jset_fresh.
  - rewrite (assoc_L (++)) in Hd || idtac. rewrite IH; rewrite <-app_assoc; done.
  - rewrite fmap_app in Hd. cbn in Hd. apply NoDup_app in Hd as (_ & Hd & _). intros Hin.
    apply (Hd _ Hin). left.
Qed.

Definition sorted_obj {A} (d : list (ustr * A)) : list (ustr * A) := sort_by key_leb d.
Lemma sorted_obj_keys {A} (d : list (ustr * A)) : NoDup d.*1 → NoDup (sorted_obj d).*1.
Proof. unfold sorted_obj. by rewrite sort_by_perm. Qed.

Lemma atom_reads d c s v :
  is_ws c = false → c ≠ 93 → c ≠ 125 → c ≠ 34 → c ≠ 123 → c ≠ 91 →
  (∀ r, ends_number r → scan_atom constants ((c :: s) ++ r) = Some (v, r)) → reads d (c :: s) v.
Proof.
  intros Hws ? ? ? ? ? H. split; [done|]. intros f r Hr Hf. cbn [app length] in Hf.
  destruct f as [|f]; [lia|]. cbn [app scan]. test_chars. by apply H.
Qed.

Lemma strip_prefix_ne x p c s : x ≠ c → strip_prefix (x :: p) (c :: s) = None.
Proof. intros H. cbn. by rewrite (proj2 (Z.eqb_neq _ _)). Qed.
Lemma scan_constants c s : (c ≠ 110 ∧ c ≠ 116 ∧ c ≠ 102 ∧ c ≠ 78 ∧ c ≠ 73) →
  (c = 45 → match s with x :: _ => x ≠ 73 | [] => True end) →
  scan_atom constants (c :: s) = scan_number (c :: s).
Proof.
  intros (? & ? & ? & ? & ?) Hs.
  let x := eval vm_compute in constants in change constants with x. cbn [scan_atom].
  rewrite !strip_prefix_ne by auto. destruct (Z.eq_dec 45 c) as [<-|Hc].
  - specialize (Hs eq_refl). destruct s as [|x s]; [done|].
    change (strip_prefix (45 :: ?p) (45 :: x :: s)) with (strip_prefix p (x :: s)).
    by rewrite strip_prefix_ne by auto.
  - by rewrite strip_prefix_ne by done.
Qed.

Lemma print_int_reads d z : (length (dec (Z.abs z)) <= int_max_str_digits)%nat → reads d (print_int z) (JInt z).
Proof.
  intros Hl. pose proof (scan_number_int z) as Hn. unfold print_int in *.
  destruct (Z.ltb_spec z 0) as [Hz|Hz].
  - destruct (dec_spec (- z) ltac:(lia)) as (x & ds & E & HF & _). rewrite E in *. cbn in HF.
    to_prop. apply between_true in H. apply atom_reads; try done. intros r Hr.
    cbn [app]. rewrite scan_constants by (try done; intros; lia). by apply Hn.
  - destruct (dec_spec z ltac:(lia)) as (x & ds & E & HF & _). rewrite E in *. cbn in HF.
    to_prop. apply between_true in H. apply atom_reads; try lia.
    { unfold is_ws. test_chars. done. }
    intros r Hr. cbn [app]. rewrite scan_constants by lia. by apply Hn.
Qed.

Lemma quote_reads d s : scalars s = true → reads d (quote s) (JStr s).
Proof.
  intros Hs. split; [done|]. intros f r _ Hf. destruct f as [|f]; [lia|].
  rewrite quote_cons. cbn [app scan]. change (34 =? 34) with true. cbv iota. by rewrite scan_quote.
Qed.

Lemma list_reads d vs ts : Forall2 (λ v t, reads d t v) vs ts →
  reads (S d) ([91] ++ join_comma ts ++ [93]) (JList vs).
Proof.
  intros H. split; [done|]. intros f r _ Hf. rewrite <-!app_assoc in Hf |- *. cbn [app length] in Hf |- *.
  destruct f as [|f]; [lia|]. cbn [scan]. change (91 =? 34) with false. change (91 =? 123) with false.
  change (91 =? 91) with true. cbv iota. destruct H as [|v t vs ts Ht Hts]; [done|].
  assert (starts_value (join_comma (t :: ts))) as Hs.
  { destruct Ht as [Ht _]. destruct t as [|c t]; [done|]. by destruct ts. }
  rewrite (skip_value _ _ Hs). destruct (join_comma (t :: ts)) as [|c j] eqn:E; [done|].
  destruct Hs as (_ & Hc & _). cbn [app]. rewrite (proj2 (Z.eqb_neq c 93)) by done.
  pose proof (elements_reads d (v :: vs) (t :: ts) [] f r) as He. rewrite E in He. cbn [app length] in He.
  apply He; [done|by constructor|]. cbn [app length] in Hf. lia.
Qed.

Lemma obj_reads d (kvs : list (ustr * json)) ts : NoDup kvs.*1 →
  Forall2 (λ kv t, scalars kv.1 = true ∧ ∃ s, t = member (kv.1, s) ∧ reads d s kv.2) kvs ts →
  reads (S d) ([123] ++ join_comma ts ++ [125]) (JObj kvs).
Proof.
  intros Hnd H. split; [done|]. intros f r _ Hf. rewrite <-!app_assoc in Hf |- *. cbn [app length] in Hf |- *.
  destruct f as [|f]; [lia|]. cbn [scan]. change (123 =? 34) with false.
  change (123 =? 123) with true. cbv iota. destruct H as [|kv t kvs ts Ht Hts]; [done|].
  assert (starts_value (join_comma (t :: ts)) ∧ ∃ j, join_comma (t :: ts) = 34 :: j) as [Hs (j & E)].
  { destruct Ht as (_ & s & -> & _). unfold member. rewrite quote_cons.
    destruct ts; split; try done; by eexists. }
  rewrite (skip_value _ _ Hs), E. rewrite E in Hf. cbn [app]. change (34 =? 125) with false. cbv iota.
  pose proof (members_reads d (kv :: kvs) (t :: ts) [] f r) as He. rewrite E in He. cbn [app length] in He.
  rewrite fold_jset in He by done. apply He; [done|by constructor|]. cbn [app length] in Hf. lia.
Qed.

Section roundtrip.
Context {FL : Floats}.

Lemma dumps_reads v d s : plain v = true → dumps d v = Ok s → reads d s (normal v).
Proof.
  revert d s. induction v as [|b|z|l|t|l IH|m IH] using json_ind'; intros d s Hp Hs; cbn [dumps] in Hs.
  - injection Hs as <-. by apply atom_reads.
  - injection Hs as <-. destruct b; by apply atom_reads.
  - destruct (Nat.ltb_spec int_max_str_digits (length (dec (Z.abs z)))); [done|]. injection Hs as <-.
    by apply print_int_reads.
  - done.
  - injection Hs as <-. by apply quote_reads.
  - destruct d as [|d]; [done|]. destruct (res_mapM id (dumps d <$> l)) as [xs|] eqn:E; [|done].
    injection Hs as <-. apply list_reads. apply res_mapM_Ok in E. cbn [plain] in Hp.
    revert xs E. induction IH as [|v l Hv _ IH]; intros xs E; [inversion E; constructor|].
    cbn in Hp. to_prop. inversion E; subst. constructor; [by apply Hv|by apply IH].
  - destruct d as [|d]; [done|]. cbn [plain] in Hp. to_prop.
    destruct (res_mapM _ _) as [xs|] eqn:E; [|done]. injection Hs as <-. apply res_mapM_Ok in E.
    cbn [normal].
    rewrite (sort_by_fmap (A := ustr * json) key_leb key_leb (λ kv, (kv.1, normal kv.2))) by done.
    rewrite (sort_by_fmap (A := ustr * json) key_leb key_leb (λ kv, (kv.1, dumps d kv.2))) in E by done. apply obj_reads.
    { rewrite <-list_fmap_compose. rewrite (list_fmap_ext _ fst); [|done]. by apply sorted_obj_keys. }
    assert (Forall (λ kv, (scalars kv.1 && plain kv.2 = true) ∧
      ∀ d s, plain kv.2 = true → dumps d kv.2 = Ok s → reads d s (normal kv.2)) (sort_by key_leb m)) as Hall.
    { rewrite sort_by_perm. apply Forall_and; split; [|done].
      rewrite forallb_forall in H0. rewrite Forall_forall. intros kv Hkv%list_elem_of_In. by apply H0. }
    revert xs E. induction Hall as [|kv kvs [Hkv Hr] _ IHl]; intros xs E; [inversion E; constructor|].
    inversion E as [|? x ? xs' Hx Hxs]; subst. cbn [fst snd] in Hx. cbn. constructor; [|by apply IHl].
    destruct (dumps d kv.2) as [t|] eqn:Et; [|done]. injection Hx as <-. to_prop.
    split; [done|]. exists t. split; [done|by apply Hr].
Qed.

(** *** The output is printable ASCII *)

Definition printable (c : Z) : Prop := 32 <= c <= 126.

Lemma hex_char_printable d : 0 <= d < 16 → printable (hex_char d).
Proof. unfold printable, hex_char. intros Hd. destruct (Z.ltb_spec d 10); lia. Qed.
Lemma u4_printable c : 0 <= c < 65536 → Forall printable (u4 c).
Proof.
  intros Hc. unfold u4. repeat constructor; try (unfold printable; lia);
    apply hex_char_printable; Z.div_mod_to_equations; lia.
Qed.
Lemma escape_printable c : is_scalar c = true → Forall printable (escape c).
Proof.
  intros Hc%is_scalar_spec. unfold escape.
  repeat match goal with
  | |- context [if ?a =? ?b then _ else _] => destruct (a =? b); [by repeat constructor|]
  end.
  destruct (between 32 126 c) eqn:E; [apply between_true in E; by constructor|].
  destruct (Z.ltb_spec c 65536); [apply u4_printable; lia|].
  apply Forall_app; split; apply u4_printable; Z.div_mod_to_equations; lia.
Qed.
Lemma quote_printable s : scalars s = true → Forall printable (quote s).
Proof.
  intros Hs%scalars_Forall. unfold quote. apply Forall_app; split; [by repeat constructor|].
  apply Forall_app; split; [|by repeat constructor]. apply Forall_bind.
  eapply Forall_impl; [exact Hs|]. by apply escape_printable.
Qed.
Lemma dec_printable z : 0 <= z → Forall printable (dec z).
Proof.
  intros Hz. destruct (dec_spec z Hz) as (d & ds & -> & HF & _).
  rewrite forallb_forall in HF. rewrite Forall_forall. intros c Hc%list_elem_of_In.
  apply HF, between_true in Hc. unfold printable. lia.
Qed.
Lemma join_comma_printable ts : Forall (Forall printable) ts → Forall printable (join_comma ts).
Proof.
  induction 1 as [|t ts Ht Hts IH]; [constructor|]. destruct ts as [|t' ts]; [done|].
  cbn [join_comma]. apply Forall_app; split; [done|]. constructor; [unfold printable; lia|done].
Qed.

Lemma brackets_printable a s b : printable a → printable b → Forall printable s →
  Forall printable ([a] ++ s ++ [b]).
Proof. intros. constructor; [done|]. apply Forall_app; split; [done|by constructor]. Qed.
Lemma dumps_printable v d s : plain v = true → dumps d v = Ok s → Forall printable s.
Proof.
  revert d s. induction v as [|b|z|l|t|l IH|m IH] using json_ind'; intros d s Hp Hs; cbn [dumps] in Hs.
  - injection Hs as <-. by repeat constructor.
  - injection Hs as <-. destruct b; by repeat constructor.
  - destruct (Nat.ltb _ _); [done|]. injection Hs as <-. unfold print_int.
    destruct (Z.ltb_spec z 0); [constructor; [unfold printable; lia|]|]; apply dec_printable; lia.
  - done.
  - injection Hs as <-. by apply quote_printable.
  - destruct d as [|d]; [done|]. destruct (res_mapM id (dumps d <$> l)) as [xs|] eqn:E; [|done].
    injection Hs as <-. apply res_mapM_Ok in E. cbn [plain] in Hp.
    apply brackets_printable; [unfold printable; lia..|]. apply join_comma_printable.
    revert xs E. induction IH as [|v l Hv _ IH]; intros xs E; [inversion E; constructor|].
    cbn in Hp. to_prop. inversion E; subst. constructor; [by eapply Hv|by apply IH].
  - destruct d as [|d]; [done|]. cbn [plain] in Hp. to_prop.
    destruct (res_mapM _ _) as [xs|] eqn:E; [|done]. injection Hs as <-. apply res_mapM_Ok in E.
    rewrite (sort_by_fmap (A := ustr * json) key_leb key_leb (λ kv, (kv.1, dumps d kv.2))) in E by done.
    apply brackets_printable; [unfold printable; lia..|]. apply join_comma_printable.
    assert (Forall (λ kv, (scalars kv.1 && plain kv.2 = true) ∧
      ∀ d s, plain kv.2 = true → dumps d kv.2 = Ok s → Forall printable s) (sort_by key_leb m)) as Hall.
    { rewrite sort_by_perm. apply Forall_and; split; [|done].
      rewrite forallb_forall in H0. rewrite Forall_forall. intros kv Hkv%list_elem_of_In. by apply H0. }
    revert xs E. induction Hall as [|kv kvs [Hkv Hr] _ IHl]; intros xs E; [inversion E; constructor|].
    inversion E as [|? x ? xs' Hx Hxs]; subst. cbn [fst snd] in Hx. constructor; [|by apply IHl].
    destruct (dumps d kv.2) as [t|] eqn:Et; [|done]. injection Hx as <-. to_prop. unfold member.
    apply Forall_app; split; [by apply quote_printable|].
    constructor; [unfold printable; cbn; lia|]. by eapply Hr.
Qed.

Lemma utf8_printable s : Forall printable s → utf8_decode s = Some s.
Proof.
  induction 1 as [|c s Hc _ IH]; [done|]. unfold printable in Hc. cbn [utf8_decode]. rewrite IH. by test_chars.
Qed.
Lemma starts_ne x p c s : x ≠ c → starts (x :: p) (c :: s) = false.
Proof. intros H. apply bool_decide_eq_false. cbn. congruence. Qed.
Lemma decode_bytes_printable s : Forall printable s → decode_bytes s = Some s.
Proof.
  intros H. pose proof (utf8_printable s H) as Hu. unfold decode_bytes.
  destruct H as [|c s Hc Hs]; [done|]. unfold printable in *.
  rewrite !starts_ne by lia. destruct Hs as [|c1 s Hc1 Hs]; [done|].
  destruct Hs as [|c2 s Hc2 Hs]; [by test_chars|]. destruct Hs as [|c3 s Hc3 Hs]; [done|]. by test_chars.
Qed.

Lemma skip_nil_end s : starts_value s → skip s = s.
Proof. intros H. pose proof (skip_value s [] H) as E. by rewrite app_nil_r in E. Qed.
Lemma loads_dumps v limit s : plain v = true → dumps limit v = Ok s → loads limit s = Some (normal v).
Proof.
  intros Hp Hs. unfold loads. rewrite decode_bytes_printable by (by eapply dumps_printable).
  pose proof (dumps_reads v limit s Hp Hs) as [Hst Hr]. unfold decode. rewrite skip_nil_end by done.
  specialize (Hr (scan_fuel s) []). rewrite app_nil_r in Hr. rewrite Hr; [done|done|].
  unfold scan_fuel. lia.
Qed.
End roundtrip.

(** ** Reading a longer text *)

(** [m] on a text that goes on after what it read. *)
Definition extends {A} (m : ustr → option (A * ustr)) (s : ustr) : Prop :=
  ∀ v r, m s = Some (v, r) → (length r < length s)%nat ∧ ∀ t, m (s ++ t) = Some (v, r ++ t).

Lemma cons_to_Some c r v rest : cons_to c r = Some (v, rest) → ∃ v', v = c :: v' ∧ r = Some (v', rest).
Proof. destruct r as [[v' rest']|]; [|done]. intros [= <- <-]. by eexists. Qed.

(** An escape of a high surrogate that is not complete ends in an error. *)
Lemma scan_string_torn s : (length s < 6)%nat → (∃ t, take 2 (s ++ t) = [92; 117]) → scan_string s = None.
Proof.
  intros Hs (t & Ht).
  do 6 (destruct s as [|? s]; [try done; cbn in Ht; injection Ht; intros; subst; done|]).
  cbn in Hs. lia.
Qed.

Lemma scan_string_extends n s : (length s <= n)%nat → extends scan_string s.
Proof.
  revert s; induction n as [|n IH]; intros [|c s] Hn v r; try done; cbn in Hn; [lia|].
  cbn [scan_string app length]. destruct (c =? 34); [intros [= <- <-]; split; [lia|done]|].
  destruct (c =? 92).
  2: { destruct (c <? 32); [done|]. intros (v' & -> & H)%cons_to_Some.
    apply IH in H as [Hl Ht]; [|lia]. split; [lia|]. intros t. by rewrite Ht. }
  destruct s as [|e s]; [done|]. cbn in Hn. cbn [app length]. destruct (e =? 117).
  2: { destruct (unescape e); [|done]. intros (v' & -> & H)%cons_to_Some.
    apply IH in H as [Hl Ht]; [|lia]. split; [lia|]. intros t. by rewrite Ht. }
  do 4 (destruct s as [|? s]; [done|]). cbn in Hn. cbn [app length]. destruct (hex4 _ _ _ _) as [hi|]; [|done].
  assert (cons_to hi (scan_string s) = Some (v, r) → (length r < S (S (S (S (S (S (length s)))))))%nat
    ∧ ∀ t, cons_to hi (scan_string (s ++ t)) = Some (v, r ++ t)) as Halone.
  { intros (v' & -> & H)%cons_to_Some. apply IH in H as [Hl Ht]; [|lia]. split; [lia|]. intros t. by rewrite Ht. }
  destruct (Nat.lt_ge_cases (length s) 6) as [Hs|Hs].
  - intros H. assert (cons_to hi (scan_string s) = Some (v, r)) as H' by (do 6 (destruct s as [|? s]; [exact H|]); cbn in Hs; lia).
    destruct (Halone H') as [Hl Ht]. split; [done|]. intros t. specialize (Ht t).
    assert (∀ c1 c2 l, s ++ t = c1 :: c2 :: l → is_high hi && (c1 =? 92) && (c2 =? 117) = false) as Hno.
    { intros c1 c2 l E. apply not_true_is_false. intros Hb. to_prop. subst. apply cons_to_Some in H' as (v' & _ & H').
      rewrite scan_string_torn in H'; [done|done|]. exists t. by rewrite E. }
    destruct (s ++ t) as [|c1 [|c2 [|x1 [|x2 [|x3 [|x4 l]]]]]] eqn:E; try exact Ht. by rewrite (Hno _ _ _ eq_refl).
  - do 6 (destruct s as [|? s]; [cbn in Hs; lia|]). cbn [app]. destruct (is_high hi && _ && _).
    2: exact Halone.
    destruct (hex4 _ _ _ _) as [lo|]; [|done]. destruct (is_low lo); [|exact Halone].
    intros (v' & -> & H)%cons_to_Some. cbn in Hn. apply IH in H as [Hl Ht]; [|lia]. cbn [length]. split; [lia|].
    intros t. by rewrite Ht.
Qed.

Lemma drop_while_length {A} (p : A → bool) l : (length (drop_while p l) <= length l)%nat.
Proof. induction l as [|x l IH]; cbn; [lia|]. destruct (p x); cbn; lia. Qed.
Lemma skip_extends s c r t : skip s = c :: r → skip (s ++ t) = c :: r ++ t.
Proof.
  unfold skip. induction s as [|x s IH]; [done|]. cbn. destruct (is_ws x); [exact IH|]. by intros [= -> ->].
Qed.
Lemma skip_length s c r : skip s = c :: r → (length r < length s)%nat.
Proof. intros H. pose proof (drop_while_length is_ws s) as Hl. unfold skip in H. rewrite H in Hl. cbn in Hl. lia. Qed.
Lemma while_extends {A} (p : A → bool) s c r t : drop_while p s = c :: r →
  take_while p (s ++ t) = take_while p s ∧ drop_while p (s ++ t) = c :: r ++ t.
Proof.
  induction s as [|x s IH]; [done|]. cbn. destruct (p x) eqn:E.
  - intros H. by destruct (IH H) as [-> ->].
  - by intros [= -> ->].
Qed.

(** A number is read the same if what follows it cannot belong to it. *)
Definition proper_end (r : ustr) : Prop := match r with c :: _ => number_char c = false | [] => False end.

Lemma scan_exp_extends s x r t : scan_exp s = (x, r) → proper_end r →
  scan_exp (s ++ t) = (x, r ++ t) ∧ (length r <= length s)%nat
  ∧ match s with c :: _ => c ≠ 46 | [] => False end.
Proof.
  intros H Hr. destruct s as [|c s]; [injection H as <- <-; done|]. cbn [scan_exp app] in *.
  destruct ((c =? 101) || (c =? 69)) eqn:Ec.
  2: { injection H as <- <-. split_and!; [done|lia|]. cbn in Hr. unfold number_char in Hr. to_prop. lia. }
  destruct (match s with x :: r' => if (x =? 43) || (x =? 45) then ([x], r') else ([], s) | [] => ([], s) end)
    as [sign r'] eqn:Es.
  destruct (take_while is_dig r') as [|d ds] eqn:Ed; injection H as <- <-.
  { exfalso. cbn in Hr. unfold number_char in Hr. apply orb_true_iff in Ec as [Ec|Ec]; rewrite Ec in Hr;
      rewrite ?orb_true_r in Hr; done. }
  destruct (drop_while is_dig r') as [|e r0] eqn:Er; [done|].
  destruct (while_extends _ _ _ _ t Er) as [Et Ed']. pose proof (drop_while_length is_dig r') as Hl. rewrite Er in Hl.
  assert ((length r' <= length s)%nat ∧
    match s ++ t with x :: r' => if (x =? 43) || (x =? 45) then ([x], r') else ([], s ++ t) | [] => ([], s ++ t) end
    = (sign, r' ++ t)) as [Hl' ->].
  { destruct s as [|x s]; [injection Es as <- <-; done|]. cbn. destruct ((x =? 43) || (x =? 45));
      injection Es as <- <-; cbn; split; (lia || done). }
  rewrite Et, Ed, Ed'. split_and!; [done|cbn in *; lia|]. intros ->. done.
Qed.

Lemma scan_frac_extends s x r t : scan_frac s = (x, r) → match r with c :: _ => c ≠ 46 | [] => False end →
  scan_frac (s ++ t) = (x, r ++ t) ∧ (length r <= length s)%nat ∧ s ≠ [].
Proof.
  intros H Hr. destruct s as [|c s]; [injection H as <- <-; done|]. cbn [scan_frac app] in *.
  destruct (Z.eqb_spec c 46) as [->|].
  2: { injection H as <- <-. split_and!; [done|lia|done]. }
  destruct (take_while is_dig s) as [|d ds] eqn:Ed; injection H as <- <-; [done|].
  destruct (drop_while is_dig s) as [|e r0] eqn:Er; [done|].
  destruct (while_extends _ _ _ _ t Er) as [-> ->]. rewrite Ed. pose proof (drop_while_length is_dig s) as Hl.
  rewrite Er in Hl. split_and!; [done|cbn in *; lia|done].
Qed.

Lemma scan_int_part_extends s x r t : scan_int_part s = Some (x, r) → r ≠ [] →
  scan_int_part (s ++ t) = Some (x, r ++ t) ∧ (length r < length s)%nat
  ∧ match s with c :: _ => is_dig c = true | [] => False end.
Proof.
  intros H Hr. destruct s as [|c s]; [done|]. cbn [scan_int_part app] in *. destruct (Z.eqb_spec c 48) as [->|].
  { injection H as <- <-. split_and!; [done|cbn; lia|done]. }
  destruct (is_dig c) eqn:Ec; [|done].
  assert (x = take_while is_dig (c :: s) ∧ r = drop_while is_dig (c :: s)) as [-> ->] by (split; congruence).
  destruct (drop_while is_dig (c :: s)) as [|e r0] eqn:Er; [done|].
  destruct (while_extends _ _ _ _ t Er) as [Et Ed]. cbn [app] in Et, Ed. rewrite Et, Ed.
  split_and!; [done| |done]. cbn in Er. rewrite Ec in Er. pose proof (drop_while_length is_dig s) as Hl.
  rewrite Er in Hl. cbn in *. lia.
Qed.

Lemma scan_number_extends (s : ustr) v (r t : ustr) : scan_number s = Some (v, r) → proper_end r →
  scan_number (s ++ t) = Some (v, r ++ t) ∧ (length r < length s)%nat
  ∧ match s with c :: s' => is_dig c = true ∨ c = 45 ∧ match s' with c' :: _ => is_dig c' = true | [] => False end
    | [] => False end.
Proof.
  intros H Hr. unfold scan_number in *.
  destruct (scan_sign s) as [sign s1] eqn:Es.
  destruct (scan_int_part s1) as [[ds s2]|] eqn:E2; [|done].
  destruct (scan_frac s2) as [frac s3] eqn:E3. destruct (scan_exp s3) as [exp s4] eqn:E4.
  assert (s4 = r) as ->.
  { destruct (bool_decide _); [destruct (Nat.ltb _ _); [done|]|]; by injection H. }
  destruct (scan_exp_extends _ _ _ t E4 Hr) as (E4' & Hl4 & H46).
  destruct (scan_frac_extends _ _ _ t E3 H46) as (E3' & Hl3 & Hne).
  destruct (scan_int_part_extends _ _ _ t E2 Hne) as (E2' & Hl2 & Hd).
  assert (scan_sign (s ++ t) = (sign, s1 ++ t) ∧ (length s1 <= length s)%nat) as [-> Hl1].
  { destruct s as [|c s]; [injection Es as <- <-; done|]. cbn in *. destruct (c =? 45); injection Es as <- <-;
      cbn; split; (lia || done). }
  rewrite E2', E3', E4'. split_and!.
  - destruct (bool_decide _); [destruct (Nat.ltb _ _); [done|]|]; by injection H as <-.
  - lia.
  - destruct s as [|c s]; [injection Es as <- <-; done|]. cbn in Es.
    destruct (Z.eqb_spec c 45); injection Es as <- <-; auto.
Qed.

Lemma strip_prefix_app p r : strip_prefix p (p ++ r) = Some r.
Proof. induction p as [|x p IH]; [done|]. cbn. by rewrite Z.eqb_refl. Qed.
Lemma strip_prefix_Some p s r : strip_prefix p s = Some r → s = p ++ r.
Proof.
  revert s; induction p as [|x p IH]; intros s; cbn; [by intros [= ->]|].
  destruct s as [|y s]; [done|]. destruct (Z.eqb_spec x y) as [->|]; [|done]. intros H. by rewrite (IH _ H).
Qed.
Lemma scan_atom_inv cs s v r : scan_atom cs s = Some (v, r) →
  (∃ p, (p, v) ∈ cs ∧ s = p ++ r) ∨ scan_number s = Some (v, r).
Proof.
  induction cs as [|[p w] cs IH]; [by right|]. cbn. destruct (strip_prefix p s) as [r'|] eqn:E.
  - intros [= <- <-]. left. exists p. split; [left|by apply strip_prefix_Some].
  - intros H. destruct (IH H) as [(p' & Hp & ->)|Hn]; [left|by right]. exists p'. split; [by right|done].
Qed.
Lemma scan_atom_constant p v r : (p, v) ∈ constants → scan_atom constants (p ++ r) = Some (v, r).
Proof.
  unfold constants. intros H. repeat (apply elem_of_cons in H as [[= -> ->]|H]; [done|]).
  by apply not_elem_of_nil in H.
Qed.
Lemma constants_nonempty p v : (p, v) ∈ constants → p ≠ [].
Proof.
  unfold constants. intros H. repeat (apply elem_of_cons in H as [[= -> ->]|H]; [done|]).
  by apply not_elem_of_nil in H.
Qed.

Lemma scan_atom_extends s v r t : scan_atom constants s = Some (v, r) → proper_end r →
  scan_atom constants (s ++ t) = Some (v, r ++ t) ∧ (length r < length s)%nat.
Proof.
  intros [(p & Hp & ->)|H]%scan_atom_inv Hr.
  - rewrite <-app_assoc. split; [by apply scan_atom_constant|]. rewrite length_app.
    pose proof (constants_nonempty _ _ Hp). destruct p; [done|]. cbn. lia.
  - destruct (scan_number_extends _ _ _ t H Hr) as (Ht & Hl & Hs). split; [|done].
    destruct s as [|c s]; [done|]. cbn [app] in *. rewrite scan_constants; [done| |].
    + destruct Hs as [Hc|[-> _]]; [apply between_true in Hc; lia|lia].
    + intros ->. destruct Hs as [Hc|[_ Hs]]; [done|]. destruct s as [|x s]; [done|]. apply between_true in Hs.
      cbn. lia.
Qed.

Definition container (v : json) : Prop := match v with JStr _ | JList _ | JObj _ => True | _ => False end.
Lemma scan_atom_length s v r : scan_atom constants s = Some (v, r) → (length r < length s)%nat.
Proof.
  intros [(p & Hp & ->)|H]%scan_atom_inv.
  { rewrite length_app. pose proof (constants_nonempty _ _ Hp). destruct p; [done|]. cbn. lia. }
  unfold scan_number in H. destruct (scan_sign s) as [sign s1] eqn:Es.
  destruct (scan_int_part s1) as [[ds s2]|] eqn:E2; [|done].
  destruct (scan_frac s2) as [frac s3] eqn:E3. destruct (scan_exp s3) as [exp s4] eqn:E4.
  assert (s4 = r) as ->.
  { destruct (bool_decide _); [destruct (Nat.ltb _ _); [done|]|]; by injection H. }
  clear H. pose proof (drop_while_length is_dig) as Hdw.
  assert (length s1 <= length s)%nat.
  { unfold scan_sign in Es. destruct s as [|c s]; [by injection Es as <- <-|].
    destruct (c =? 45); injection Es as <- <-; cbn; lia. }
  assert (length s2 < length s1)%nat.
  { unfold scan_int_part in E2. destruct s1 as [|c s1]; [done|]. destruct (c =? 48); [injection E2 as <- <-; cbn; lia|].
    destruct (is_dig c) eqn:Ec; [|done]. assert (s2 = drop_while is_dig (c :: s1)) as -> by congruence.
    cbn. rewrite Ec. specialize (Hdw s1). lia. }
  assert (length s3 <= length s2)%nat.
  { unfold scan_frac in E3. destruct s2 as [|c s2]; [by injection E3 as <- <-|]. destruct (c =? 46); [|by injection E3 as <- <-].
    specialize (Hdw s2). destruct (take_while is_dig s2); injection E3 as <- <-; cbn; lia. }
  assert (length r <= length s3)%nat; [|lia].
  unfold scan_exp in E4. destruct s3 as [|c s3]; [by injection E4 as <- <-|].
  destruct (_ || _); [|by injection E4 as <- <-].
  destruct (match s3 with x :: r' => _ | [] => _ end) as [sg r'] eqn:Er.
  assert (length r' <= length s3)%nat.
  { destruct s3 as [|x s3]; [by injection Er as <- <-|]. destruct (_ || _); injection Er as <- <-; cbn; lia. }
  specialize (Hdw r'). destruct (take_while is_dig r'); injection E4 as <- <-; cbn; lia.
Qed.

Lemma skip_proper r x r' : skip r = x :: r' → number_char x = false → proper_end r.
Proof.
  destruct r as [|c r]; [done|]. cbn. destruct (is_ws c) eqn:E; [|by intros [= -> ->]]. intros _ _.
  unfold is_ws in E. repeat (apply orb_true_iff in E as [E|E]); apply Z.eqb_eq in E as ->; done.
Qed.
Lemma skip_app s t : skip s ≠ [] → skip (s ++ t) = skip s ++ t.
Proof. intros H. destruct (skip s) as [|c r] eqn:E; [done|]. by apply skip_extends. Qed.

Lemma scan_extends f :
  (∀ d s v r, scan f d s = Some (v, r) →
     (length r < length s)%nat ∧ (proper_end r ∨ container v → ∀ t, scan f d (s ++ t) = Some (v, r ++ t)))
  ∧ (∀ d acc s v r, members f d acc s = Some (v, r) →
       (length r < length s)%nat ∧ container v ∧ ∀ t, members f d acc (s ++ t) = Some (v, r ++ t))
  ∧ (∀ d acc s v r, elements f d acc s = Some (v, r) →
       (length r < length s)%nat ∧ container v ∧ ∀ t, elements f d acc (s ++ t) = Some (v, r ++ t)).
Proof.
  induction f as [|f (IHs & IHm & IHe)]; [by split_and!|].
  assert (∀ d r3 s v, scan f d s = Some (v, r3) → ∀ x r4, skip r3 = x :: r4 → number_char x = false →
    (length r4 < length s)%nat ∧ ∀ t, scan f d (s ++ t) = Some (v, r3 ++ t) ∧ skip (r3 ++ t) = x :: r4 ++ t) as Hval.
  { intros d r3 s v H x r4 Hx Hn. destruct (IHs _ _ _ _ H) as [Hl Ht]. pose proof (skip_length _ _ _ Hx).
    split; [lia|]. intros t. split; [apply Ht; left; by eapply skip_proper|by apply skip_extends]. }
  split_and!.
  - intros d [|c s] v r; [done|]. cbn [scan app length]. destruct (c =? 34).
    { destruct (scan_string s) as [[k r']|] eqn:E; [|done]. intros [= <- <-].
      destruct (scan_string_extends _ s (Nat.le_refl _) _ _ E) as [Hl Ht]. split; [lia|]. intros _ t. by rewrite Ht. }
    destruct (c =? 123).
    { destruct d as [|d]; [done|]. destruct (skip s) as [|x r'] eqn:E; [done|].
      pose proof (skip_length _ _ _ E). destruct (x =? 125) eqn:Ex.
      - intros [= <- <-]. split; [lia|]. intros _ t. by rewrite (skip_extends _ _ _ t E), Ex.
      - intros H'. apply IHm in H' as (Hl & _ & Ht). cbn in Hl. split; [lia|]. intros _ t.
        by rewrite (skip_extends _ _ _ t E), Ex, <-Ht. }
    destruct (c =? 91).
    { destruct d as [|d]; [done|]. destruct (skip s) as [|x r'] eqn:E; [done|].
      pose proof (skip_length _ _ _ E). destruct (x =? 93) eqn:Ex.
      - intros [= <- <-]. split; [lia|]. intros _ t. by rewrite (skip_extends _ _ _ t E), Ex.
      - intros H'. apply IHe in H' as (Hl & _ & Ht). cbn in Hl. split; [lia|]. intros _ t.
        by rewrite (skip_extends _ _ _ t E), Ex, <-Ht. }
    intros H. split; [by apply scan_atom_length in H|]. intros [Hr|Hc] t.
    + exact (proj1 (scan_atom_extends _ _ _ t H Hr)).
    + apply scan_atom_inv in H as [(p & Hp & _)|H].
      * unfold constants in Hp. repeat (apply elem_of_cons in Hp as [[= -> ->]|Hp]; [done|]).
        by apply not_elem_of_nil in Hp.
      * unfold scan_number in H. repeat case_match; by simplify_eq.
  - intros d acc [|q s] v r; [done|]. cbn [members app length]. destruct (q =? 34); [|done].
    destruct (scan_string s) as [[k r1]|] eqn:E; [|done].
    destruct (scan_string_extends _ s (Nat.le_refl _) _ _ E) as [Hl1 Ht1].
    destruct (skip r1) as [|colon r2] eqn:E1; [done|]. pose proof (skip_length _ _ _ E1).
    destruct (colon =? 58) eqn:Ec; [|done]. destruct (scan f d (skip r2)) as [[w r3]|] eqn:E2; [|done].
    destruct (skip r3) as [|x r4] eqn:E3; [done|]. pose proof (drop_while_length is_ws r2) as Hl2. fold (skip r2) in Hl2.
    assert (skip r2 ≠ []) as Hne by (intros Hn; rewrite Hn in E2; by destruct f).
    destruct (x =? 125) eqn:Ex; [|destruct (x =? 44) eqn:Ex'; [|done]].
    + intros [= <- <-]. destruct (Hval _ _ _ _ E2 _ _ E3) as [Hl Ht]; [by apply Z.eqb_eq in Ex as ->|].
      split_and!; [lia|done|]. intros t. destruct (Ht t) as [Ha Hb].
      by rewrite Ht1, (skip_extends _ _ _ t E1), Ec, skip_app, Ha, Hb, Ex.
    + intros Hm. destruct (Hval _ _ _ _ E2 _ _ E3) as [Hl Ht]; [by apply Z.eqb_eq in Ex' as ->|].
      assert (skip r4 ≠ []) as Hne4 by (intros Hn; rewrite Hn in Hm; by destruct f).
      destruct (IHm _ _ _ _ _ Hm) as (Hl4 & Hc & Ht4). pose proof (drop_while_length is_ws r4) as Hl5. fold (skip r4) in Hl5.
      split_and!; [lia|done|]. intros t. destruct (Ht t) as [Ha Hb].
      by rewrite Ht1, (skip_extends _ _ _ t E1), Ec, skip_app, Ha, Hb, Ex, Ex', skip_app, Ht4.
  - intros d acc s v r. cbn [elements]. destruct (scan f d s) as [[w r3]|] eqn:E2; [|done].
    destruct (skip r3) as [|x r4] eqn:E3; [done|].
    destruct (x =? 93) eqn:Ex; [|destruct (x =? 44) eqn:Ex'; [|done]].
    + intros [= <- <-]. destruct (Hval _ _ _ _ E2 _ _ E3) as [Hl Ht]; [by apply Z.eqb_eq in Ex as ->|].
      split_and!; [lia|done|]. intros t. destruct (Ht t) as [Ha Hb]. by rewrite Ha, Hb, Ex.
    + intros Hm. destruct (Hval _ _ _ _ E2 _ _ E3) as [Hl Ht]; [by apply Z.eqb_eq in Ex' as ->|].
      assert (skip r4 ≠ []) as Hne4 by (intros Hn; rewrite Hn in Hm; by destruct f as [|[|f]]).
      destruct (IHe _ _ _ _ _ Hm) as (Hl4 & Hc & Ht4). pose proof (drop_while_length is_ws r4) as Hl5. fold (skip r4) in Hl5.
      split_and!; [lia|done|]. intros t. destruct (Ht t) as [Ha Hb].
      by rewrite Ha, Hb, Ex, Ex', skip_app, Ht4.
Qed.

(** *** The fuel never decides *)

Lemma scan_enough_all f :
  (∀ d s, (2 * length s + 1 <= f)%nat → scan (S f) d s = scan f d s)
  ∧ (∀ d acc s, (2 * length s + 2 <= f)%nat → members (S f) d acc s = members f d acc s)
  ∧ (∀ d acc s, (2 * length s + 2 <= f)%nat → elements (S f) d acc s = elements f d acc s).
Proof.
  induction f as [|f (IHs & IHm & IHe)]; [split_and!; intros; lia|].
  assert (Hdw : ∀ l, (length (skip l) <= length l)%nat) by (intros; apply drop_while_length).
  destruct (scan_extends f) as (Hlen & _ & _). split_and!.
  - intros d [|c s] Hf; [done|]. cbn [length] in Hf. remember (S f) as g. rewrite Heqg at 2. cbn [scan].
    subst g. destruct (c =? 34); [done|]. destruct (c =? 123); [|destruct (c =? 91); [|done]].
    all: destruct d as [|d]; [done|]; destruct (skip s) as [|x r] eqn:E; [done|];
      destruct (_ =? _); [done|]; pose proof (skip_length _ _ _ E).
    + apply IHm. cbn. lia.
    + apply IHe. cbn. lia.
  - intros d acc [|q s] Hf; [done|]. cbn [length] in Hf. remember (S f) as g. rewrite Heqg at 2. cbn [members].
    subst g. destruct (q =? 34); [|done]. destruct (scan_string s) as [[k r1]|] eqn:E; [|done].
    destruct (scan_string_extends _ s (Nat.le_refl _) _ _ E) as [Hl1 _].
    destruct (skip r1) as [|colon r2] eqn:E1; [done|]. pose proof (skip_length _ _ _ E1).
    destruct (colon =? 58); [|done]. pose proof (Hdw r2). rewrite IHs by lia.
    destruct (scan f d (skip r2)) as [[w r3]|] eqn:E2; [|done]. destruct (Hlen _ _ _ _ E2) as [Hl2 _].
    destruct (skip r3) as [|x r4] eqn:E3; [done|]. pose proof (skip_length _ _ _ E3). pose proof (Hdw r4).
    destruct (x =? 125); [done|]. destruct (x =? 44); [|done]. apply IHm. lia.
  - intros d acc s Hf. remember (S f) as g. rewrite Heqg at 2. cbn [elements]. subst g. rewrite IHs by lia.
    destruct (scan f d s) as [[w r3]|] eqn:E2; [|done]. destruct (Hlen _ _ _ _ E2) as [Hl2 _].
    destruct (skip r3) as [|x r4] eqn:E3; [done|]. pose proof (skip_length _ _ _ E3). pose proof (Hdw r4).
    destruct (x =? 93); [done|]. destruct (x =? 44); [|done]. apply IHe. lia.
Qed.
Lemma scan_enough d s f : (scan_fuel s <= f)%nat → scan f d s = scan (scan_fuel s) d s.
Proof.
  induction 1 as [|f Hf IH]; [done|]. etrans; [|exact IH]. apply (proj1 (scan_enough_all f)).
  unfold scan_fuel in Hf. lia.
Qed.
Lemma decode_enough limit s f : (scan_fuel (skip s) <= f)%nat →
  decode limit s = match scan f limit (skip s) with
                   | Some (v, rest) => match skip rest with [] => Some v | _ => None end
                   | None => None
                   end.
Proof. intros Hf. unfold decode. by rewrite (scan_enough limit (skip s) f). Qed.

(** *** Torn objects *)

Section prefixes.
Context {FL : Floats}.

Lemma starts_object d m s : dumps d (JObj m) = Ok s → ∃ j, s = 123 :: j.
Proof.
  destruct d as [|d]; cbn [dumps]; [done|]. destruct (res_mapM _ _); [|done]. intros [= <-]. by eexists.
Qed.

(** No proper prefix of a printed object is read as a value at all. *)
Lemma loads_prefix limit m p q : plain (JObj m) = true → dumps limit (JObj m) = Ok (p ++ q) → q ≠ [] →
  loads limit p = None.
Proof.
  intros Hp Hs Hq. pose proof (dumps_printable _ _ _ Hp Hs) as Hpr. apply Forall_app in Hpr as [Hpr _].
  unfold loads. rewrite decode_bytes_printable by done. destruct (decode limit p) as [v|] eqn:E; [|done]. exfalso.
  destruct p as [|c p]; [done|]. destruct (starts_object _ _ _ Hs) as (j & Ej). cbn in Ej. injection Ej as -> Ej.
  destruct (dumps_reads _ _ _ Hp Hs) as [_ Hr]. set (f := scan_fuel ((123 :: p) ++ q)).
  rewrite (decode_enough _ _ f) in E.
  2: { unfold f, scan_fuel. change (skip (123 :: p)) with (123 :: p). rewrite length_app. lia. }
  change (skip (123 :: p)) with (123 :: p) in E.
  destruct (scan f limit (123 :: p)) as [[w rest]|] eqn:Es; [|done].
  assert (container w) as Hw.
  { unfold f, scan_fuel in Es. destruct (scan_extends (2 * length ((123 :: p) ++ q) + 1)) as (_ & Hm & _).
    rewrite Nat.add_succ_r in Es. cbn [scan] in Es. change (123 =? 34) with false in Es.
    change (123 =? 123) with true in Es. cbv iota in Es. destruct limit as [|d]; [done|].
    destruct (skip p) as [|x r']; [done|]. destruct (x =? 125); [by inversion Es|]. by apply Hm in Es as (_ & ? & _). }
  destruct (scan_extends f) as (Hx & _). destruct (Hx _ _ _ _ Es) as [_ Ht]. specialize (Ht (or_intror Hw) q).
  specialize (Hr f []). rewrite app_nil_r in Hr. rewrite Hr in Ht; [|done|unfold f, scan_fuel; lia].
  injection Ht as _ Ht. symmetry in Ht. by apply app_nil in Ht as [_ ->].
Qed.
End prefixes.
