(* ===== verification/JsonHook.v ===== *)
(** * Reading JSON with an object hook

    [json.loads(text, object_pairs_hook=...)] as it fails: the exceptions of
    the scanner are told apart, and the hook sees the pairs of every object, the
    inner ones first, and may raise.  [rscan] takes the steps of [Json.scan];
    the lemmas say that it reads what [Json.scan] reads, that a printed value is
    read back under any hook that leaves distinct keys alone, and that the fuel
    is enough. *)

From S2P Require Import Prelude PyStr Json JsonProofs.
#[local] Open Scope Z_scope.
#[local] Open Scope list_scope.

Inductive load_error :=
| JSONDecodeError
| DecodeRecursion        (* RecursionError *)
| DigitsError            (* ValueError of a numeral of more than 4300 digits *)
| HookRaised
| OutOfFuel.
#[export] Instance load_error_eq_dec : EqDecision load_error.
Proof. solve_decision. Defined.

(** [dict(pairs)], what an object is without a hook *)
Definition pairs_dict {A} (pairs : list (ustr * A)) : list (ustr * A) := fold_left (λ d kv, jset kv.1 kv.2 d) pairs [].

Definition too_many_digits (s : ustr) : bool :=
  match scan_int_part (scan_sign s).2 with
  | Some (ds, rest) =>
      let '(frac, s3) := scan_frac rest in
      bool_decide (frac = [] ∧ (scan_exp s3).1 = []) && Nat.ltb int_max_str_digits (length ds)
  | None => false
  end.
Definition rscan_atom (s : ustr) : result load_error (json * ustr) :=
  match scan_atom constants s with
  | Some vr => Ok vr
  | None => Err (if too_many_digits s then DigitsError else JSONDecodeError)
  end.

Section hook.
Context (hook : list (ustr * json) → option (list (ustr * json))).

Definition close_object (pairs : list (ustr * json)) (rest : ustr) : result load_error (json * ustr) :=
match hook pairs with Some d => Ok (JObj d, rest) | None => Err HookRaised end.

Fixpoint rscan (fuel d : nat) (s : ustr) : result load_error (json * ustr) :=
match fuel with
| O => Err OutOfFuel
| S f =>
    match s with
    | [] => Err JSONDecodeError
    | c :: r =>
        if c =? 34 then match scan_string r with Some (t, r') => Ok (JStr t, r') | None => Err JSONDecodeError end
        else if c =? 123 then
          match d with
          | O => Err DecodeRecursion
          | S d' => match skip r with
                    | x :: r' => if x =? 125 then close_object [] r' else rmembers f d' [] (x :: r')
                    | [] => Err JSONDecodeError
                    end
          end
        else if c =? 91 then
          match d with
          | O => Err DecodeRecursion
          | S d' => match skip r with
                    | x :: r' => if x =? 93 then Ok (JList [], r') else relements f d' [] (x :: r')
                    | [] => Err JSONDecodeError
                    end
          end
        else rscan_atom s
    end
end
with rmembers (fuel d : nat) (acc : list (ustr * json)) (s : ustr) : result load_error (json * ustr) :=
match fuel with
| O => Err OutOfFuel
| S f =>
    match s with
    | q :: r =>
        if q =? 34 then
          match scan_string r with
          | None => Err JSONDecodeError
          | Some (k, r1) =>
              match skip r1 with
              | colon :: r2 =>
                  if colon =? 58 then
                    match rscan f d (skip r2) with
                    | Err e => Err e
                    | Ok (v, r3) =>
                        match skip r3 with
                        | x :: r4 =>
                            if x =? 125 then close_object (acc ++ [(k, v)]) r4
                            else if x =? 44 then rmembers f d (acc ++ [(k, v)]) (skip r4)
                            else Err JSONDecodeError
                        | [] => Err JSONDecodeError
                        end
                    end
                  else Err JSONDecodeError
              | [] => Err JSONDecodeError
              end
          end
        else Err JSONDecodeError
    | [] => Err JSONDecodeError
    end
end
with relements (fuel d : nat) (acc : list json) (s : ustr) : result load_error (json * ustr) :=
match fuel with
| O => Err OutOfFuel
| S f =>
    match rscan f d s with
    | Err e => Err e
    | Ok (v, r3) =>
        match skip r3 with
        | x :: r4 =>
            if x =? 93 then Ok (JList (acc ++ [v]), r4)
            else if x =? 44 then relements f d (acc ++ [v]) (skip r4)
            else Err JSONDecodeError
        | [] => Err JSONDecodeError
        end
    end
end.

(** [json.loads] of a [str] *)
Definition loads_text (limit : nat) (s : ustr) : result load_error json :=
let s := skip s in
match rscan (scan_fuel s) limit s with
| Ok (v, rest) => match skip rest with [] => Ok v | _ => Err JSONDecodeError end
| Err e => Err e
end.
End hook.

(** Without a hook, and the hook that refuses a repeated key. *)
Definition dict_hook (pairs : list (ustr * json)) : option (list (ustr * json)) := Some (pairs_dict pairs).
Fixpoint distinct_pairs (result pairs : list (ustr * json)) : option (list (ustr * json)) :=
  match pairs with
  | [] => Some result
  | (key, value) :: pairs' =>
      match jget key result with
      | Some _ => None
      | None => distinct_pairs (jset key value result) pairs'
      end
  end.
Definition reject_duplicate_object_keys (pairs : list (ustr * json)) : option (list (ustr * json)) := distinct_pairs [] pairs.

Example hooked :
  loads_text reject_duplicate_object_keys 3 (u "[{}, {" ++ quote (u "a") ++ u ":1," ++ quote (u "a") ++ u ":[}") = Err JSONDecodeError
  ∧ loads_text reject_duplicate_object_keys 3 (u "[{" ++ quote (u "a") ++ u ":1," ++ quote (u "a") ++ u ":2}, [[[[")
    = Err HookRaised
  ∧ loads_text dict_hook 3 (u "[{" ++ quote (u "a") ++ u ":1," ++ quote (u "a") ++ u ":2}]") = Ok (JList [JObj [(u "a", JInt 2)]])
  ∧ loads_text dict_hook 3 (u "[[[[") = Err DecodeRecursion ∧ loads_text dict_hook 3 (u "[[[}") = Err JSONDecodeError.
Proof. vm_compute. auto. Qed.

Lemma drop_while_all {A} (p : A → bool) l : forallb p l = true → drop_while p l = [].
Proof. induction l as [|x l IH]; [done|]. cbn. intros [-> H]%andb_true_iff. by apply IH. Qed.

Lemma dict_hook_distinct pairs : NoDup pairs.*1 → dict_hook pairs = Some pairs.
Proof. intros H. unfold dict_hook, pairs_dict. by rewrite fold_jset. Qed.
Lemma jget_None {A} k (d : list (ustr * A)) : jget k d = None ↔ k ∉ d.*1.
Proof.
  induction d as [|[k' v] d IH]; cbn; [split; [intros _; apply not_elem_of_nil|done]|].
  rewrite not_elem_of_cons. case_decide; [split; [done|tauto]|]. rewrite IH. tauto.
Qed.
(** The refusing hook returns its pairs, or nothing. *)
Lemma distinct_pairs_spec result pairs : NoDup result.*1 →
  distinct_pairs result pairs = if decide (NoDup (result ++ pairs).*1) then Some (result ++ pairs) else None.
Proof.
  revert result; induction pairs as [|[k v] pairs IH]; intros result Hr; cbn [distinct_pairs].
  { rewrite app_nil_r. by rewrite decide_True. }
  destruct (jget k result) eqn:E.
  - rewrite decide_False; [done|]. rewrite fmap_app. cbn. intros (_ & Hd & _)%NoDup_app.
    assert (k ∈ result.*1) as Hk.
    { destruct (decide (k ∈ result.*1)) as [|Hn]; [done|]. apply jget_None in Hn. congruence. }
    apply (Hd _ Hk). left.
  - apply jget_None in E. rewrite jset_fresh by done. rewrite IH.
    + by rewrite <-app_assoc.
    + rewrite fmap_app. apply NoDup_app. split_and!; [done| |apply NoDup_singleton].
      intros x Hx ->%list_elem_of_singleton. done.
Qed.
Lemma reject_duplicate_object_keys_spec pairs :
  reject_duplicate_object_keys pairs = if decide (NoDup pairs.*1) then Some pairs else None.
Proof. apply (distinct_pairs_spec [] pairs). constructor. Qed.
Lemma reject_distinct pairs : NoDup pairs.*1 → reject_duplicate_object_keys pairs = Some pairs.
Proof. intros H. rewrite reject_duplicate_object_keys_spec. by rewrite decide_True. Qed.

(** ** Equality of values *)

Fixpoint json_eqb (a b : json) : bool :=
  match a, b with
  | JNull, JNull => true
  | JBool x, JBool y => Bool.eqb x y
  | JInt x, JInt y => x =? y
  | JFloat x, JFloat y | JStr x, JStr y => bool_decide (x = y)
  | JList l, JList l' =>
      (fix go l l' := match l, l' with
                      | [], [] => true
                      | x :: l, y :: l' => json_eqb x y && go l l'
                      | _, _ => false
                      end) l l'
  | JObj d, JObj d' =>
      (fix go d d' := match d, d' with
                      | [], [] => true
                      | (k, x) :: d, (k', y) :: d' => bool_decide (k = k') && json_eqb x y && go d d'
                      | _, _ => false
                      end) d d'
  | _, _ => false
  end.
Lemma json_eqb_spec a b : json_eqb a b = true ↔ a = b.
Proof.
  revert b. induction a as [|x|z|t|t|l IH|d IH] using json_ind'; intros [|y|z'|t'|t'|l'|d'];
    cbn; try (split; [done|by intros [=]]).
  - rewrite Bool.eqb_true_iff. naive_solver.
  - rewrite Z.eqb_eq. naive_solver.
  - rewrite bool_decide_eq_true. naive_solver.
  - rewrite bool_decide_eq_true. naive_solver.
  - transitivity (l = l'); [|naive_solver].
    revert l'. induction IH as [|x l Hx _ IH]; intros [|y l']; try (split; [done|by intros [=]]).
    rewrite andb_true_iff, Hx, IH. naive_solver.
  - transitivity (d = d'); [|naive_solver].
    revert d'. induction IH as [|[k x] d Hx _ IH]; intros [|[k' y] d']; try (split; [done|by intros [=]]).
    cbn in Hx. rewrite !andb_true_iff, bool_decide_eq_true, Hx, IH. naive_solver.
Qed.
#[export] Instance json_eq_dec : EqDecision json.
Proof.
  intros a b. destruct (json_eqb a b) eqn:E; [left; by apply json_eqb_spec|right].
  intros ->. rewrite (proj2 (json_eqb_spec b b) eq_refl) in E. done.
Defined.

(** ** What is read *)

Section hook_proofs.
Context (hook : list (ustr * json) → option (list (ustr * json))).
Context (hook_distinct : ∀ pairs, NoDup pairs.*1 → hook pairs = Some pairs).

(** Up to the values, [rscan] goes the way of [Json.scan]. *)
Definition rest_of {E A} (r : result E (A * ustr)) (o : option (A * ustr)) : Prop :=
match r with Ok (_, rest) => ∃ v, o = Some (v, rest) | Err _ => True end.
Lemma rscan_rest f :
  (∀ d s, rest_of (rscan hook f d s) (scan f d s))
  ∧ (∀ d acc acc' s, rest_of (rmembers hook f d acc s) (members f d acc' s))
  ∧ (∀ d acc acc' s, rest_of (relements hook f d acc s) (elements f d acc' s)).
Proof.
  induction f as [|f (IHs & IHm & IHe)]; [done|].
  assert (Hclose : ∀ ps r d, rest_of (close_object hook ps r) (Some (JObj d, r))).
  { intros ps r d. unfold close_object. destruct (hook ps); [by eexists|done]. }
  split_and!.
  - intros d [|c r]; [done|]. cbn [rscan scan]. destruct (c =? 34).
    { destruct (scan_string r) as [[t r']|]; [by eexists|done]. }
    destruct (c =? 123); [|destruct (c =? 91)].
    + destruct d as [|d]; [done|]. destruct (skip r) as [|x r']; [done|]. destruct (x =? 125); [apply Hclose|apply IHm].
    + destruct d as [|d]; [done|]. destruct (skip r) as [|x r']; [done|]. destruct (x =? 93); [by eexists|apply IHe].
    + unfold rscan_atom. destruct (scan_atom constants (c :: r)) as [[v r']|]; [by eexists|done].
  - intros d acc acc' [|q r]; [done|]. cbn [rmembers members]. destruct (q =? 34); [|done].
    destruct (scan_string r) as [[k r1]|]; [|done]. destruct (skip r1) as [|colon r2]; [done|].
    destruct (colon =? 58); [|done]. pose proof (IHs d (skip r2)) as H.
    destruct (rscan hook f d (skip r2)) as [[v r3]|e]; [|done]. destruct H as [v' ->].
    destruct (skip r3) as [|x r4]; [done|]. destruct (x =? 125); [apply Hclose|]. destruct (x =? 44); [apply IHm|done].
  - intros d acc acc' s. cbn [relements elements]. pose proof (IHs d s) as H.
    destruct (rscan hook f d s) as [[v r3]|e]; [|done]. destruct H as [v' ->].
    destruct (skip r3) as [|x r4]; [done|]. destruct (x =? 93); [by eexists|]. destruct (x =? 44); [apply IHe|done].
Qed.
Lemma rscan_length f d s v r : rscan hook f d s = Ok (v, r) → (length r < length s)%nat.
Proof.
  intros H. pose proof (proj1 (rscan_rest f) d s) as Hr. rewrite H in Hr. destruct Hr as [v' Hr].
  by apply (proj1 (scan_extends f)) in Hr as [? _].
Qed.

(** The fuel never runs out. *)
Lemma rscan_enough f :
  (∀ d s, (2 * length s + 1 <= f)%nat → rscan hook f d s ≠ Err OutOfFuel)
  ∧ (∀ d acc s, (2 * length s + 2 <= f)%nat → rmembers hook f d acc s ≠ Err OutOfFuel)
  ∧ (∀ d acc s, (2 * length s + 2 <= f)%nat → relements hook f d acc s ≠ Err OutOfFuel).
Proof.
  induction f as [|f (IHs & IHm & IHe)]; [split_and!; intros; lia|].
  assert (Hdw : ∀ l, (length (skip l) <= length l)%nat) by (intros; apply drop_while_length).
  assert (Hclose : ∀ ps r, close_object hook ps r ≠ Err OutOfFuel).
  { intros ps r. unfold close_object. by destruct (hook ps). }
  split_and!.
  - intros d [|c s] Hf; [done|]. cbn [length] in Hf. cbn [rscan].
    destruct (c =? 34); [by destruct (scan_string s) as [[]|]|].
    destruct (c =? 123); [|destruct (c =? 91)].
    + destruct d as [|d]; [done|]. destruct (skip s) as [|x r] eqn:E; [done|]. pose proof (skip_length _ _ _ E).
      destruct (x =? 125); [apply Hclose|]. apply IHm. cbn. lia.
    + destruct d as [|d]; [done|]. destruct (skip s) as [|x r] eqn:E; [done|]. pose proof (skip_length _ _ _ E).
      destruct (x =? 93); [done|]. apply IHe. cbn. lia.
    + unfold rscan_atom. destruct (scan_atom constants (c :: s)); [done|]. by destruct (too_many_digits _).
  - intros d acc [|q s] Hf; [done|]. cbn [length] in Hf. cbn [rmembers]. destruct (q =? 34); [|done].
    destruct (scan_string s) as [[k r1]|] eqn:E; [|done].
    destruct (scan_string_extends _ s (Nat.le_refl _) _ _ E) as [Hl1 _].
    destruct (skip r1) as [|colon r2] eqn:E1; [done|]. pose proof (skip_length _ _ _ E1).
    destruct (colon =? 58); [|done]. pose proof (Hdw r2). pose proof (IHs d (skip r2) ltac:(lia)) as Hs.
    destruct (rscan hook f d (skip r2)) as [[v r3]|e] eqn:E2; [|congruence]. apply rscan_length in E2.
    destruct (skip r3) as [|x r4] eqn:E3; [done|]. pose proof (skip_length _ _ _ E3). pose proof (Hdw r4).
    destruct (x =? 125); [apply Hclose|]. destruct (x =? 44); [|done]. apply IHm. lia.
  - intros d acc s Hf. cbn [relements]. pose proof (IHs d s ltac:(lia)) as Hs.
    destruct (rscan hook f d s) as [[v r3]|e] eqn:E2; [|congruence]. apply rscan_length in E2.
    destruct (skip r3) as [|x r4] eqn:E3; [done|]. pose proof (skip_length _ _ _ E3). pose proof (Hdw r4).
    destruct (x =? 93); [done|]. destruct (x =? 44); [|done]. apply IHe. lia.
Qed.
Lemma loads_text_fuel limit s : loads_text hook limit s ≠ Err OutOfFuel.
Proof.
  unfold loads_text. pose proof (proj1 (rscan_enough (scan_fuel (skip s))) limit (skip s)) as H.
  destruct (rscan hook (scan_fuel (skip s)) limit (skip s)) as [[v r]|e]; [by destruct (skip r)|].
  intros [= ->]. apply H; [|done]. unfold scan_fuel. lia.
Qed.

(** ** Reading what was printed *)

Definition hreads (d : nat) (s : ustr) (v : json) : Prop :=
starts_value s ∧
∀ f r, ends_number r → (2 * length (s ++ r) + 1 <= f)%nat → rscan hook f d (s ++ r) = Ok (v, r).

Lemma relements_reads d vs ts acc f r :
  vs ≠ [] → Forall2 (λ v t, hreads d t v) vs ts →
  (2 * length (join_comma ts ++ 93%Z :: r) + 2 <= f)%nat →
  relements hook f d acc (join_comma ts ++ 93 :: r) = Ok (JList (acc ++ vs), r).
Proof.
  intros Hne H. revert acc f Hne. induction H as [|v t vs ts [Ht Hr] Hts IH]; intros acc f Hne Hf; [done|].
  destruct f as [|f]; [lia|]. cbn [relements]. destruct ts as [|t' ts].
  - inversion Hts; subst. cbn [join_comma] in *. rewrite Hr by (try apply ends_comma; auto; lia). done.
  - change (join_comma (t :: t' :: ts)) with (t ++ 44 :: join_comma (t' :: ts)) in *.
    rewrite <-app_assoc in Hf |- *. cbn [app] in Hf |- *.
    rewrite Hr by (try apply ends_comma; auto; lia). change (skip (44 :: ?x)) with (44 :: x). cbv iota.
    change (44 =? 93) with false. change (44 =? 44) with true. cbv iota.
    destruct vs as [|v' vs]; [by inversion Hts|].
    assert (starts_value (join_comma (t' :: ts))) as Hs.
    { inversion Hts as [|?? ?? [Hs _] _]; subst. destruct t' as [|c t']; [done|]. by destruct ts. }
    rewrite (skip_value _ _ Hs), IH; [|done|rewrite length_app in Hf; cbn [length] in Hf; lia].
    by rewrite <-app_assoc.
Qed.

Lemma rmembers_reads d (kvs : list (ustr * json)) ts acc f r : kvs ≠ [] → NoDup (acc ++ kvs).*1 →
  Forall2 (λ kv t, scalars kv.1 = true ∧ ∃ s, t = member (kv.1, s) ∧ hreads d s kv.2) kvs ts →
  (2 * length (join_comma ts ++ 125%Z :: r) + 2 <= f)%nat →
  rmembers hook f d acc (join_comma ts ++ 125 :: r) = Ok (JObj (acc ++ kvs), r).
Proof.
  intros Hne Hnd H. revert acc f Hne Hnd.
  induction H as [|[k v] t kvs ts (Hk & s & -> & [Hs Hr]) Hts IH]; intros acc f Hne Hnd Hf; [done|].
  destruct f as [|f]; [lia|]. cbn [fst snd] in *.
  assert (∃ x more, (x = 44 ∨ x = 125) ∧ join_comma (member (k, s) :: ts) ++ 125 :: r = member (k, s) ++ x :: more
    ∧ (x = 125 → ts = [] ∧ more = r) ∧ (x = 44 → ts ≠ [] ∧ more = join_comma ts ++ 125 :: r)) as (x & more & Hx & E & Hnil & Hcons).
  { destruct ts as [|t' ts].
    - exists 125, r. split_and!; auto. done.
    - exists 44, (join_comma (t' :: ts) ++ 125 :: r). split_and!; auto; [|done].
      cbn [join_comma]. by rewrite <-!app_assoc. }
  rewrite E in Hf |- *. unfold member in Hf |- *. cbn [fst snd] in Hf |- *. rewrite <-!app_assoc in Hf |- *.
  rewrite quote_cons in Hf |- *. cbn [app] in Hf |- *. cbn [rmembers].
  change (34 =? 34) with true. cbv iota. rewrite scan_quote by done. change (skip (58 :: ?x)) with (58 :: x).
  cbv iota. change (58 =? 58) with true. cbv iota.
  rewrite (skip_value _ _ Hs). cbn [length] in Hf. rewrite length_app in Hf. cbn [length] in Hf.
  rewrite Hr; [|apply ends_comma; tauto|lia].
  destruct Hx as [-> | ->].
  - destruct (Hcons eq_refl) as [Hts' ->]. change (skip (44 :: ?x)) with (44 :: x). cbv iota.
    change (44 =? 125) with false. change (44 =? 44) with true. cbv iota.
    destruct kvs as [|kv kvs]; [by inversion Hts; subst|].
    assert (starts_value (join_comma ts)) as Hj.
    { inversion Hts as [|?? ? ? (_ & ? & -> & _)]; subst. unfold member. by destruct l'. }
    rewrite (skip_value _ _ Hj), IH; [by rewrite <-app_assoc|done|by rewrite <-app_assoc|].
    rewrite length_app in Hf. cbn [length] in Hf. lia.
  - destruct (Hnil eq_refl) as [-> ->]. inversion Hts; subst. change (skip (125 :: ?x)) with (125 :: x). cbv iota.
    change (125 =? 125) with true. cbv iota. unfold close_object. by rewrite hook_distinct.
Qed.

Lemma atom_hreads d c s v : c ≠ 34 → c ≠ 123 → c ≠ 91 → reads d (c :: s) v → hreads d (c :: s) v.
Proof.
  intros ? ? ? [Hst Hr]. split; [done|]. intros f r Hend Hf. specialize (Hr f r Hend Hf).
  destruct f as [|f]; [lia|]. cbn [app rscan]. cbn [app scan] in Hr. rewrite !(proj2 (Z.eqb_neq c _)) in Hr |- * by done.
  unfold rscan_atom. by rewrite Hr.
Qed.
Lemma quote_hreads d s : scalars s = true → hreads d (quote s) (JStr s).
Proof.
  intros Hs. split; [done|]. intros f r _ Hf. destruct f as [|f]; [lia|].
  rewrite quote_cons. cbn [app rscan]. change (34 =? 34) with true. cbv iota. by rewrite scan_quote.
Qed.

Lemma list_hreads d vs ts : Forall2 (λ v t, hreads d t v) vs ts →
  hreads (S d) ([91] ++ join_comma ts ++ [93]) (JList vs).
Proof.
  intros H. split; [done|]. intros f r _ Hf. rewrite <-!app_assoc in Hf |- *. cbn [app length] in Hf |- *.
  destruct f as [|f]; [lia|]. cbn [rscan]. change (91 =? 34) with false. change (91 =? 123) with false.
  change (91 =? 91) with true. cbv iota. destruct H as [|v t vs ts Ht Hts]; [done|].
  assert (starts_value (join_comma (t :: ts))) as Hs.
  { destruct Ht as [Ht _]. destruct t as [|c t]; [done|]. by destruct ts. }
  rewrite (skip_value _ _ Hs). destruct (join_comma (t :: ts)) as [|c j] eqn:E; [done|].
  destruct Hs as (_ & Hc & _). cbn [app]. rewrite (proj2 (Z.eqb_neq c 93)) by done.
  pose proof (relements_reads d (v :: vs) (t :: ts) [] f r) as He. rewrite E in He. cbn [app length] in He.
  apply He; [done|by constructor|]. cbn [app length] in Hf. lia.
Qed.
Lemma obj_hreads d (kvs : list (ustr * json)) ts : NoDup kvs.*1 →
  Forall2 (λ kv t, scalars kv.1 = true ∧ ∃ s, t = member (kv.1, s) ∧ hreads d s kv.2) kvs ts →
  hreads (S d) ([123] ++ join_comma ts ++ [125]) (JObj kvs).
Proof.
  intros Hnd H. split; [done|]. intros f r _ Hf. rewrite <-!app_assoc in Hf |- *. cbn [app length] in Hf |- *.
  destruct f as [|f]; [lia|]. cbn [rscan]. change (123 =? 34) with false.
  change (123 =? 123) with true. cbv iota.
  destruct H as [|kv t kvs ts Ht Hts]; [cbn; unfold close_object; by rewrite hook_distinct|].
  assert (starts_value (join_comma (t :: ts)) ∧ ∃ j, join_comma (t :: ts) = 34 :: j) as [Hs (j & E)].
  { destruct Ht as (_ & s & -> & _). unfold member. rewrite quote_cons.
    destruct ts; split; try done; by eexists. }
  rewrite (skip_value _ _ Hs), E. rewrite E in Hf. cbn [app]. change (34 =? 125) with false. cbv iota.
  pose proof (rmembers_reads d (kv :: kvs) (t :: ts) [] f r) as He. rewrite E in He. cbn [app length] in He.
  apply He; [done|done|by constructor|]. cbn [app length] in Hf. lia.
Qed.

Context {FL : Floats}.
Lemma print_int_starts z : ∃ c s, print_int z = c :: s ∧ c ≠ 34 ∧ c ≠ 123 ∧ c ≠ 91.
Proof.
  unfold print_int. destruct (Z.ltb_spec z 0); [by eexists _, _|].
  destruct (dec_spec z ltac:(lia)) as (x & ds & -> & HF & _). cbn in HF. to_prop. apply between_true in H0.
  eexists _, _. split; [done|]. lia.
Qed.
Lemma dumps_hreads v d s : plain v = true → dumps d v = Ok s → hreads d s (normal v).
Proof.
  revert d s. induction v as [|b|z|l|t|l IH|m IH] using json_ind'; intros d s Hp Hs; cbn [dumps] in Hs.
  - injection Hs as <-. by apply atom_hreads, atom_reads.
  - injection Hs as <-. destruct b; by apply atom_hreads, atom_reads.
  - destruct (Nat.ltb_spec int_max_str_digits (length (dec (Z.abs z)))); [done|]. injection Hs as <-.
    pose proof (print_int_reads d z) as Hr. destruct (print_int_starts z) as (c & s & E & ? & ? & ?). rewrite E in *.
    apply atom_hreads; auto.
  - done.
  - injection Hs as <-. by apply quote_hreads.
  - destruct d as [|d]; [done|]. destruct (res_mapM id (dumps d <$> l)) as [xs|] eqn:E; [|done].
    injection Hs as <-. apply list_hreads. apply res_mapM_Ok in E. cbn [plain] in Hp.
    revert xs E. induction IH as [|v l Hv _ IH]; intros xs E; [inversion E; constructor|].
    cbn in Hp. to_prop. inversion E; subst. constructor; [by apply Hv|by apply IH].
  - destruct d as [|d]; [done|]. cbn [plain] in Hp. to_prop.
    destruct (res_mapM _ _) as [xs|] eqn:E; [|done]. injection Hs as <-. apply res_mapM_Ok in E.
    cbn [normal].
    rewrite (sort_by_fmap (A := ustr * json) key_leb key_leb (λ kv, (kv.1, normal kv.2))) by done.
    rewrite (sort_by_fmap (A := ustr * json) key_leb key_leb (λ kv, (kv.1, dumps d kv.2))) in E by done. apply obj_hreads.
    { rewrite <-list_fmap_compose. rewrite (list_fmap_ext _ fst); [|done]. by apply sorted_obj_keys. }
    assert (Forall (λ kv, (scalars kv.1 && plain kv.2 = true) ∧
      ∀ d s, plain kv.2 = true → dumps d kv.2 = Ok s → hreads d s (normal kv.2)) (sort_by key_leb m)) as Hall.
    { rewrite sort_by_perm. apply Forall_and; split; [|done].
      rewrite forallb_forall in H0. rewrite Forall_forall. intros kv Hkv%list_elem_of_In. by apply H0. }
    revert xs E. induction Hall as [|kv kvs [Hkv Hr] _ IHl]; intros xs E; [inversion E; constructor|].
    inversion E as [|? x ? xs' Hx Hxs]; subst. cbn [fst snd] in Hx. cbn. constructor; [|by apply IHl].
    destruct (dumps d kv.2) as [t|] eqn:Et; [|done]. injection Hx as <-. to_prop.
    split; [done|]. exists t. split; [done|by apply Hr].
Qed.
(** Trailing white space, such as the newline of a file, is skipped. *)
Lemma loads_text_dumps v limit s w : plain v = true → dumps limit v = Ok s → forallb is_ws w = true →
  ends_number w → loads_text hook limit (s ++ w) = Ok (normal v).
Proof.
  intros Hp Hs Hw Hend. destruct (dumps_hreads v limit s Hp Hs) as [Hst Hr]. unfold loads_text.
  rewrite (skip_value _ _ Hst). rewrite Hr by (try done; unfold scan_fuel; lia).
  unfold skip. by rewrite drop_while_all.
Qed.
End hook_proofs.

(** ** Printing succeeds, and does not depend on the order of keys *)

(** At most [d] levels, numerals that can be printed, no floats *)
Fixpoint printable_at (d : nat) (v : json) {struct v} : bool :=
  match v with
  | JInt z => Nat.leb (length (dec (Z.abs z))) int_max_str_digits
  | JFloat _ => false
  | JList l => match d with O => false | S d' => forallb (printable_at d') l end
  | JObj m => match d with O => false | S d' => forallb (λ kv, printable_at d' kv.2) m end
  | _ => true
  end.

Lemma is_ok_Ok {E A} (r : result E A) : is_ok r = true ↔ ∃ a, r = Ok a.
Proof. destruct r; naive_solver. Qed.
Lemma res_mapM_ok {E A B} (f : A → result E B) l : (∀ x, x ∈ l → is_ok (f x) = true) → ∃ bs, res_mapM f l = Ok bs.
Proof.
  induction l as [|x l IH]; intros H; [by eexists|]. cbn.
  destruct (proj1 (is_ok_Ok (f x))) as [b ->]; [apply H; left|].
  destruct IH as [bs ->]; [intros y Hy; apply H; by right|]. by eexists.
Qed.
Lemma forallb_elem {A} (p : A → bool) l x : forallb p l = true → x ∈ l → p x = true.
Proof. rewrite forallb_forall. intros H Hx%list_elem_of_In. auto. Qed.

Section print_proofs.
Context {FL : Floats}.

Lemma dumps_ok v d : printable_at d v = true → is_ok (dumps d v) = true.
Proof.
  revert d. induction v as [|b|z|l|t|l IH|m IH] using json_ind'; intros d H; try done; cbn [printable_at dumps] in *.
  - destruct (Nat.ltb_spec int_max_str_digits (length (dec (Z.abs z)))); [|done]. apply Nat.leb_le in H. lia.
  - destruct d as [|d]; [done|]. destruct (res_mapM_ok id (dumps d <$> l)) as [xs ->]; [|done].
    intros r (v & -> & Hv)%list_elem_of_fmap. rewrite Forall_forall in IH. apply (IH v Hv).
    by apply (forallb_elem _ _ _ H).
  - destruct d as [|d]; [done|]. match goal with |- is_ok (_ <$> res_mapM ?f ?l) = _ => destruct (res_mapM_ok f l) as [xs ->] end; [|done].
    intros r Hr%elem_of_sort_by. apply list_elem_of_fmap in Hr as (kv & -> & Hkv). cbn [fst snd].
    rewrite Forall_forall in IH. pose proof (IH kv Hkv d (forallb_elem _ _ _ H Hkv)) as Ho. by destruct (dumps d kv.2).
Qed.

Lemma dumps_normal v d : dumps d (normal v) = dumps d v.
Proof.
  revert d. induction v as [|b|z|l|t|l IH|m IH] using json_ind'; intros d; try done; cbn [normal dumps].
  - destruct d as [|d]; [done|]. rewrite <-list_fmap_compose. f_equal. f_equal. apply list_fmap_ext.
    intros n v Hv. rewrite Forall_lookup in IH. cbn. by eapply IH.
  - destruct d as [|d]; [done|].
    assert ((λ kv : ustr * json, (kv.1, dumps d kv.2)) <$> ((λ kv, (kv.1, normal kv.2)) <$> m) = (λ kv, (kv.1, dumps d kv.2)) <$> m) as E.
    { rewrite <-list_fmap_compose. apply list_fmap_ext. intros n kv Hkv. cbn. f_equal. rewrite Forall_lookup in IH. by eapply IH. }
    rewrite <-(sort_by_fmap key_leb key_leb (λ kv : ustr * json, (kv.1, dumps d kv.2))) by done. rewrite E.
    rewrite (sort_by_id key_leb (sort_by key_leb _)); [done|]. apply sort_by_sorted; [apply key_leb_total|apply key_leb_trans].
Qed.
(** Values that print alike are alike. *)
Lemma dumps_inj v v' d t : plain v = true → plain v' = true → dumps d v = Ok t → dumps d v' = Ok t → normal v = normal v'.
Proof. intros H H' E E'. pose proof (loads_dumps _ _ _ H E). pose proof (loads_dumps _ _ _ H' E'). congruence. Qed.
End print_proofs.
