(* ===== verification/Dict.v ===== *)
(** * Dicts

    A Python dict as the list of its items in insertion order: lookup, item
    assignment (in place when the key is there), comprehension with a condition
    on the key, [dict.fromkeys], and the grouping loop
    [groups.setdefault(key, []).append(x)].  [≡] is agreement on every lookup,
    which the order of insertion does not matter for. *)

From S2P Require Import Prelude Json JsonProofs.
#[local] Open Scope list_scope.

Section dict.
Context {K V : Type} {EK : EqDecision K}.

Fixpoint dget (k : K) (d : list (K * V)) : option V :=
match d with
| [] => None
| (k', v) :: d' => if decide (k = k') then Some v else dget k d'
end.
Fixpoint dset (k : K) (v : V) (d : list (K * V)) : list (K * V) :=
match d with
| [] => [(k, v)]
| (k', v') :: d' => if decide (k = k') then (k', v) :: d' else (k', v') :: dset k v d'
end.
(** [{k: v for k, v in d.items() if p(k)}] *)
Definition dkeep (p : K → bool) (d : list (K * V)) : list (K * V) := List.filter (λ kv, p kv.1) d.
(** [d.update(items)] *)
Definition dupdate (d items : list (K * V)) : list (K * V) := fold_left (λ d kv, dset kv.1 kv.2 d) items d.
End dict.

(** [tuple(dict.fromkeys(l))] *)
Definition fromkeys {A} `{EqDecision A} (l : list A) : list A :=
  fold_left (λ seen x, if decide (x ∈ seen) then seen else seen ++ [x]) l [].
(** [for x in l: groups.setdefault(key(x), []).append(x)] *)
Definition group_by {A K} `{EqDecision K} (key : A → K) (l : list A) : list (K * list A) :=
  fold_left (λ g x, dset (key x) (default [] (dget (key x) g) ++ [x]) g) l [].

Section lookups.
Context {K V : Type} {EK : EqDecision K}.
Implicit Types (d : list (K * V)) (k : K) (v : V).

Lemma dget_dset k k' v d : dget k (dset k' v d) = if decide (k = k') then Some v else dget k d.
Proof.
  induction d as [|[k1 v1] d IH]; cbn; [done|]. destruct (decide (k' = k1)) as [->|Hn]; cbn.
  - by case_decide.
  - rewrite IH. repeat case_decide; subst; done.
Qed.
Lemma dget_dkeep p k d : dget k (dkeep p d) = if p k then dget k d else None.
Proof.
  induction d as [|[k1 v1] d IH]; cbn; [by destruct (p k)|]. destruct (p k1) eqn:E; cbn; rewrite ?IH.
  - case_decide; [subst; by rewrite E|done].
  - destruct (p k) eqn:Ek; [|done]. rewrite decide_False; [done|]. intros ->. congruence.
Qed.
Lemma dget_None k d : dget k d = None ↔ k ∉ d.*1.
Proof.
  induction d as [|[k' v] d IH]; cbn; [split; [intros _; apply not_elem_of_nil|done]|].
  rewrite not_elem_of_cons. case_decide; [split; [done|tauto]|]. rewrite IH. tauto.
Qed.
Lemma dget_in k v d : dget k d = Some v → (k, v) ∈ d.
Proof.
  induction d as [|[k' v'] d IH]; cbn; [done|]. case_decide; [intros [= ->]; subst; left|]. intros Hv. right. auto.
Qed.
Lemma dget_key k v d : dget k d = Some v → k ∈ d.*1.
Proof. intros H%dget_in. by apply list_elem_of_fmap_2' with (x := (k, v)). Qed.
Lemma dget_elem k v d : NoDup d.*1 → dget k d = Some v ↔ (k, v) ∈ d.
Proof.
  intros Hd. split; [apply dget_in|]. induction d as [|[k' v'] d IH]; [by intros ?%not_elem_of_nil|]. cbn in *.
  apply NoDup_cons in Hd as [Hk Hd]. intros [[= -> ->]|Hin]%elem_of_cons; [by rewrite decide_True|].
  rewrite decide_False; [auto|]. intros ->. apply Hk. by apply list_elem_of_fmap_2' with (x := (k', v)).
Qed.
Lemma dset_keys k v d : (dset k v d).*1 = if decide (k ∈ d.*1) then d.*1 else d.*1 ++ [k].
Proof.
  induction d as [|[k' v'] d IH]; cbn; [done|]. destruct (decide (k = k')) as [->|Hn]; cbn.
  - rewrite decide_True; [done|left].
  - rewrite IH. destruct (decide (k ∈ d.*1)) as [Hi|Hi].
    + rewrite decide_True; [done|by right].
    + rewrite decide_False; [done|]. rewrite not_elem_of_cons. done.
Qed.
Lemma dset_NoDup k v d : NoDup d.*1 → NoDup (dset k v d).*1.
Proof.
  intros H. rewrite dset_keys. case_decide as Hk; [done|]. apply NoDup_app. split_and!; [done| |apply NoDup_singleton].
  intros x Hx ->%list_elem_of_singleton. done.
Qed.
Lemma dkeep_NoDup p d : NoDup d.*1 → NoDup (dkeep p d).*1.
Proof.
  intros H. induction d as [|[k v] d IH]; cbn in *; [done|]. apply NoDup_cons in H as [Hk Hd].
  destruct (p k); cbn; [|auto]. apply NoDup_cons. split; [|auto]. intros (kv & Hkv & Hin)%list_elem_of_fmap.
  apply elem_of_filter_list in Hin as [Hin _]. apply Hk. rewrite Hkv. by apply list_elem_of_fmap_2.
Qed.
Lemma dset_elem k v d k' v' : NoDup d.*1 →
  (k', v') ∈ dset k v d ↔ (k' = k ∧ v' = v) ∨ (k' ≠ k ∧ (k', v') ∈ d).
Proof.
  intros H. rewrite <-!dget_elem by auto using dset_NoDup. rewrite dget_dset. case_decide; naive_solver.
Qed.
Lemma dupdate_NoDup items d : NoDup d.*1 → NoDup (dupdate d items).*1.
Proof. revert d; induction items as [|[k v] items IH]; intros d Hd; [done|]. cbn. apply IH. by apply dset_NoDup. Qed.
Lemma dget_dupdate items d k : NoDup items.*1 →
  dget k (dupdate d items) = match dget k items with Some v => Some v | None => dget k d end.
Proof.
  revert d; induction items as [|[k1 v1] items IH]; intros d Hd; [done|]. cbn in *.
  apply NoDup_cons in Hd as [Hk Hd]. unfold dupdate in *. cbn. rewrite IH by done. rewrite dget_dset.
  destruct (decide (k = k1)) as [->|]; [|done]. by rewrite (proj2 (dget_None k1 items)).
Qed.

(** ** Dicts with the same items *)

#[export] Instance dict_equiv : Equiv (list (K * V)) := λ d d', ∀ k, dget k d = dget k d'.
#[export] Instance dict_equivalence : Equivalence (≡@{list (K * V)}).
Proof. split; [by intros ? ?|by intros ?? H k; rewrite H|by intros ??? H1 H2 k; rewrite H1, H2]. Qed.
#[export] Instance dget_proper k : Proper ((≡) ==> (=)) (dget (V := V) k).
Proof. by intros d d' H. Qed.
#[export] Instance dset_proper k v : Proper ((≡) ==> (≡)) (dset (V := V) k v).
Proof. intros d d' H k'. by rewrite !dget_dset, H. Qed.
#[export] Instance dkeep_proper p : Proper ((≡) ==> (≡)) (dkeep (V := V) p).
Proof. intros d d' H k'. by rewrite !dget_dkeep, H. Qed.
Lemma dict_perm d d' : NoDup d.*1 → d ≡ₚ d' → d ≡ d'.
Proof.
  intros Hd Hp k. assert (NoDup d'.*1) by (by rewrite <-Hp). apply option_eq. intros v.
  rewrite !dget_elem by done. by rewrite Hp.
Qed.
Lemma dict_equiv_perm d d' : NoDup d.*1 → NoDup d'.*1 → d ≡ d' → d ≡ₚ d'.
Proof.
  intros Hd Hd' H. apply NoDup_Permutation; [by eapply NoDup_fmap_1|by eapply NoDup_fmap_1|].
  intros [k v]. rewrite <-!dget_elem by done. by rewrite (H k).
Qed.
End lookups.

Lemma jget_dget {A} k (d : list (ustr * A)) : jget k d = dget k d.
Proof. induction d as [|[k' v] d IH]; [done|]. cbn. by rewrite IH. Qed.

(** ** Keys and groups *)

Section groups.
Context {A : Type}.
Lemma fromkeys_aux `{EqDecision A} (l seen : list A) : NoDup seen →
  NoDup (fold_left (λ seen x, if decide (x ∈ seen) then seen else seen ++ [x]) l seen) ∧
  ∀ x, x ∈ fold_left (λ seen x, if decide (x ∈ seen) then seen else seen ++ [x]) l seen ↔ x ∈ seen ∨ x ∈ l.
Proof.
  revert seen; induction l as [|y l IH]; intros seen Hs; cbn; [split; [done|intros x; rewrite elem_of_nil; tauto]|].
  destruct (decide (y ∈ seen)) as [Hy|Hy].
  - destruct (IH seen Hs) as [H1 H2]. split; [done|]. intros x. rewrite H2, elem_of_cons. naive_solver.
  - destruct (IH (seen ++ [y])) as [H1 H2].
    { apply NoDup_app. split_and!; [done| |apply NoDup_singleton]. by intros x Hx ->%list_elem_of_singleton. }
    split; [done|]. intros x. rewrite H2, elem_of_app, list_elem_of_singleton, elem_of_cons. tauto.
Qed.
Lemma fromkeys_NoDup `{EqDecision A} (l : list A) : NoDup (fromkeys l).
Proof. apply fromkeys_aux. constructor. Qed.
Lemma elem_of_fromkeys `{EqDecision A} (l : list A) x : x ∈ fromkeys l ↔ x ∈ l.
Proof.
  destruct (fromkeys_aux l [] (NoDup_nil_2)) as [_ H]. unfold fromkeys. rewrite H, elem_of_nil. tauto.
Qed.

Context {K : Type} {EK : EqDecision K} (key : A → K).
Definition group_of (k : K) (l : list A) : list A := List.filter (λ x, bool_decide (key x = k)) l.
Lemma group_aux l g : NoDup g.*1 →
  let g' := fold_left (λ g x, dset (key x) (default [] (dget (key x) g) ++ [x]) g) l g in
  NoDup g'.*1 ∧ ∀ k, dget k g' = match dget k g, group_of k l with
                               | None, [] => None
                               | o, xs => Some (default [] o ++ xs)
                               end.
Proof.
  revert g; induction l as [|x l IH]; intros g Hg; cbn.
  { split; [done|]. intros k. destruct (dget k g); [cbn; by rewrite app_nil_r|done]. }
  destruct (IH (dset (key x) (default [] (dget (key x) g) ++ [x]) g)) as [H1 H2]; [by apply dset_NoDup|].
  split; [done|]. intros k. rewrite H2, dget_dset. destruct (decide (k = key x)) as [->|Hn].
  - rewrite bool_decide_eq_true_2 by done. cbn. destruct (dget (key x) g); cbn; by rewrite <-?app_assoc.
  - rewrite bool_decide_eq_false_2 by done. done.
Qed.
(** The groups are the members of each key that occurs. *)
Lemma group_by_NoDup l : NoDup (group_by key l).*1.
Proof. apply (group_aux l []). constructor. Qed.
Lemma dget_group_by l k : dget k (group_by key l) = match group_of k l with [] => None | xs => Some xs end.
Proof. unfold group_by. rewrite (proj2 (group_aux l [] (NoDup_nil_2))). cbn. by destruct (group_of k l). Qed.
Lemma elem_of_group_by l k xs : (k, xs) ∈ group_by key l ↔ xs = group_of k l ∧ xs ≠ [].
Proof.
  rewrite <-dget_elem by apply group_by_NoDup. rewrite dget_group_by. destruct (group_of k l); naive_solver.
Qed.
Lemma elem_of_group k l x : x ∈ group_of k l ↔ x ∈ l ∧ key x = k.
Proof. unfold group_of. rewrite elem_of_filter_list. by rewrite bool_decide_eq_true. Qed.
(** Distinct keys make groups of one. *)
Lemma group_of_one l x : NoDup (key <$> l) → x ∈ l → group_of (key x) l = [x].
Proof.
  induction l as [|y l IH]; [by intros _ ?%not_elem_of_nil|]. cbn. intros [Hy Hl]%NoDup_cons Hx.
  apply elem_of_cons in Hx as [->|Hx].
  - rewrite bool_decide_eq_true_2 by done. f_equal. apply filter_none. apply Forall_forall. intros z Hz.
    apply bool_decide_eq_false. intros E. apply Hy. rewrite <-E. by apply list_elem_of_fmap_2.
  - rewrite bool_decide_eq_false_2; [by apply IH|]. intros E. apply Hy. rewrite E. by apply list_elem_of_fmap_2.
Qed.
Lemma dset_fresh {V} (k : K) (v : V) d : k ∉ d.*1 → dset k v d = d ++ [(k, v)].
Proof.
  induction d as [|[k' v'] d IH]; [done|]. cbn. rewrite not_elem_of_cons. intros [Hn Hd].
  rewrite decide_False by done. by rewrite IH.
Qed.
Lemma group_by_distinct l : NoDup (key <$> l) → group_by key l = (λ x, (key x, [x])) <$> l.
Proof.
  intros Hl. unfold group_by.
  assert (∀ g : list (K * list A), NoDup (g.*1 ++ (key <$> l)) →
    fold_left (λ g x, dset (key x) (default [] (dget (key x) g) ++ [x]) g) l g = g ++ ((λ x, (key x, [x])) <$> l)) as Hgen.
  { clear Hl. induction l as [|x l IH]; intros g Hg; [by rewrite app_nil_r|]. cbn in Hg |- *.
    apply NoDup_app in Hg as (H1 & H2 & H3). apply NoDup_cons in H3 as [H3 H4].
    assert (key x ∉ g.*1) as Hx by (intros Hin; apply (H2 _ Hin); left).
    rewrite (proj2 (dget_None _ _) Hx). cbn. rewrite dset_fresh by done. rewrite IH.
    - by rewrite <-app_assoc.
    - rewrite fmap_app. cbn. rewrite <-app_assoc. apply NoDup_app. split_and!; [done|done|].
      cbn. by apply NoDup_cons. }
  apply Hgen. cbn. done.
Qed.
End groups.
