(* ===== verification/Journal.v ===== *)
(** * The change journal

    [ChangeJournal] of [history_service/backup_archive/journal.py]: a file of
    JSON lines that names every configuration change and every commit of changes
    to a backup.

    The file is its bytes.  Every method runs under the file lock, so it is one
    function from file to file; what the operating system may do in between is
    an argument ([write_fault], [compact_fault]): a write that stops after some
    bytes, as on a crash or a full disk, leaves those bytes behind.  [Runtime]
    holds what the code calls outside: [datetime.fromisoformat], SHA-256, floats
    and the recursion limit of the interpreter. *)

From S2P Require Import Prelude PyStr Calendar Json.
#[local] Open Scope Z_scope.
#[local] Open Scope list_scope.

(** ** Times *)

(** A [datetime]: day ordinal, microseconds of the day, and the offset from UTC
    in microseconds ([None]: naive). *)
Record datetime := mkDatetime { dt_day : Z; dt_micros : Z; dt_offset : option Z }.
#[export] Instance datetime_eq_dec : EqDecision datetime.
Proof. solve_decision. Defined.

Definition DAY_MICROS : Z := 86400000000.
Definition valid_datetime (d : datetime) : bool :=
  (1 <=? dt_day d) && (dt_day d <=? max_ordinal) && (0 <=? dt_micros d) && (dt_micros d <? DAY_MICROS).
Definition is_utc (d : datetime) : Prop := valid_datetime d = true ∧ dt_offset d = Some 0.

(** [value.astimezone(timezone.utc)] of an aware time *)
Definition astimezone_utc (d : datetime) (offset : Z) : result py_exn datetime :=
  let micros := dt_micros d - offset in
  let day := dt_day d + micros / DAY_MICROS in
  if (1 <=? day) && (day <=? max_ordinal) then Ok (mkDatetime day (micros mod DAY_MICROS) (Some 0))
  else Err OverflowError.

Definition pad (width : nat) (z : Z) : ustr :=
  let ds := dec z in repeat 48 (width - length ds) ++ ds.
(** [isoformat()] of a time in UTC, without and with its offset *)
Definition iso_body (d : datetime) : ustr :=
  let '(y, mo, dd) := ord2ymd (dt_day d) in
  let seconds := dt_micros d / 1000000 in
  let micros := dt_micros d mod 1000000 in
  pad 4 y ++ [45] ++ pad 2 mo ++ [45] ++ pad 2 dd ++ [84]
  ++ pad 2 (seconds / 3600) ++ [58] ++ pad 2 (seconds / 60 mod 60) ++ [58] ++ pad 2 (seconds mod 60)
  ++ (if micros =? 0 then [] else [46] ++ pad 6 micros).
Definition UTC_OFFSET : ustr := u "+00:00".
Definition isoformat_utc (d : datetime) : ustr := iso_body d ++ UTC_OFFSET.

(** [s.replace(old, new)] for a non-empty [old]: [n] characters of a match are
    still to be passed over. *)
Fixpoint replace_from (old new : ustr) (n : nat) (s : ustr) : ustr :=
  match s with
  | [] => []
  | c :: s' =>
      match n with
      | S n' => replace_from old new n' s'
      | O => match strip_prefix old s with
             | Some _ => new ++ replace_from old new (length old - 1) s'
             | None => c :: replace_from old new 0 s'
             end
      end
  end.
Definition py_replace (old new s : ustr) : ustr := replace_from old new 0 s.

(** ** Outside the code *)

Class Runtime := {
  rt_floats :: Floats;
  recursion_limit : nat;
  fromisoformat : ustr → option datetime;
  sha256_hex : list Z → ustr;
}.
(** [fromisoformat] gives valid times and undoes [isoformat] in UTC; a digest is
    64 lower-case hexadecimal digits; the interpreter can nest two levels. *)
Definition is_hex_lower (c : Z) : bool := is_dig c || between 97 102 c.
Class RuntimeLaws (RT : Runtime) : Prop := {
  fromisoformat_isoformat : ∀ d, is_utc d → fromisoformat (isoformat_utc d) = Some d;
  fromisoformat_valid : ∀ s d, fromisoformat s = Some d → valid_datetime d = true;
  sha256_hex_length : ∀ b, length (sha256_hex b) = 64%nat;
  sha256_hex_digits : ∀ b, forallb is_hex_lower (sha256_hex b) = true;
  recursion_limit_two : (2 <= recursion_limit)%nat;
}.

(** ** Data *)

Definition JOURNAL_FORMAT_VERSION : Z := 1.
Definition MAX_LINE_BYTES : Z := 64 * 1024.
Definition MAX_SUBJECT_CHARS : Z := 256.
Definition COMMIT_IDS_PER_RECORD : nat := 256.

Definition ulen {A} (l : list A) : Z := Z.of_nat (length l).
Definition is_lower_letter (c : Z) : bool := between 97 122 c.
Definition is_upper_letter (c : Z) : bool := between 65 90 c.
Definition among (l : ustr) (c : Z) : bool := bool_decide (c ∈ l).

(** [_ACTION_PATTERN], [_SHA256_PATTERN], [_CHANGE_ID_PATTERN] and
    [_BACKUP_ID_PATTERN] *)
Definition is_action (s : ustr) : bool :=
  match s with
  | c :: l => is_lower_letter c && Nat.leb (length l) 63
              && forallb (λ c, is_lower_letter c || is_dig c || among (u "_.-") c) l
  | [] => false
  end.
Definition is_sha256 (s : ustr) : bool := forallb is_hex_lower s && Nat.eqb (length s) 64.
Definition is_change_id (s : ustr) : bool :=
  match strip_prefix (u "chg_") s with
  | Some l => forallb (λ c, is_dig c || is_lower_letter c || among (u "_") c) l
              && Nat.leb 8 (length l) && Nat.leb (length l) 64
  | None => false
  end.
Definition is_backup_id (s : ustr) : bool :=
  match s with
  | c :: l => (is_upper_letter c || is_lower_letter c || is_dig c) && Nat.leb (length l) 127
              && forallb (λ c, is_upper_letter c || is_lower_letter c || is_dig c || among (u "._:-") c) l
  | [] => false
  end.

Inductive CommitOutcome := backup | noop.
Inductive entry_status := pending_status | committed_as (outcome : CommitOutcome).
#[export] Instance CommitOutcome_eq_dec : EqDecision CommitOutcome.
Proof. solve_decision. Defined.
#[export] Instance entry_status_eq_dec : EqDecision entry_status.
Proof. solve_decision. Defined.

Record JournalEntry := mkEntry {
  change_id : ustr;
  at_time : datetime;
  action : ustr;
  subject : ustr;
  before_hash : option ustr;
  after_hash : option ustr;
  status : entry_status;
  entry_backup_id : option ustr;
  recovered : bool;
  merged : Z;
}.

Definition jdict : Type := list (ustr * json).

Record journal_state := mkJournalState {
  changes : gmap ustr JournalEntry;
  order : list ustr;
  commits : gmap ustr (CommitOutcome * option ustr);
  commit_records : list jdict;
  last_backup_hash : option ustr;
  last_backup_id : option ustr;
  corrupt_lines : Z;
  torn_tail_bytes : Z;
}.
Definition empty_state : journal_state := mkJournalState ∅ [] ∅ [] None None 0 0.

Definition with_change (id : ustr) (e : JournalEntry) (s : journal_state) : journal_state :=
  mkJournalState (<[id := e]> (changes s))
    (if bool_decide (is_Some (changes s !! id)) then order s else order s ++ [id])
    (commits s) (commit_records s) (last_backup_hash s) (last_backup_id s) (corrupt_lines s) (torn_tail_bytes s).
Definition with_commit (ids : list ustr) (oc : CommitOutcome) (bid : option ustr) (rec : jdict) (s : journal_state) :
    journal_state :=
  mkJournalState (changes s) (order s)
    (fold_left (λ m id, <[id := (oc, bid)]> m) ids (commits s)) (commit_records s ++ [rec])
    (last_backup_hash s) (last_backup_id s) (corrupt_lines s) (torn_tail_bytes s).
Definition with_last_backup (h id : option ustr) (s : journal_state) : journal_state :=
  mkJournalState (changes s) (order s) (commits s) (commit_records s) h id (corrupt_lines s) (torn_tail_bytes s).
Definition with_counts (corrupt torn : Z) (s : journal_state) : journal_state :=
  mkJournalState (changes s) (order s) (commits s) (commit_records s) (last_backup_hash s) (last_backup_id s)
    corrupt torn.
Definition with_changes (m : gmap ustr JournalEntry) (o : list ustr) (s : journal_state) : journal_state :=
  mkJournalState m o (commits s) (commit_records s) (last_backup_hash s) (last_backup_id s) (corrupt_lines s)
    (torn_tail_bytes s).

(** ** Field checks *)

Section journal.
Context {RT : Runtime}.

Definition stable_json (v : json) : result py_exn ustr := dumps recursion_limit v.

(** [_format_time] and [_parse_time] *)
Definition format_time (d : datetime) : result py_exn ustr :=
  match dt_offset d with
  | None => Err ValueError
  | Some off => d ← astimezone_utc d off; Ok (py_replace UTC_OFFSET (u "Z") (isoformat_utc d))
  end.
Definition parse_time (v : option json) : result py_exn datetime :=
  match v with
  | Some (JStr s) =>
      match fromisoformat (py_replace (u "Z") UTC_OFFSET s) with
      | Some d => match dt_offset d with
                  | Some off => astimezone_utc d off
                  | None => Err ValueError
                  end
      | None => Err ValueError
      end
  | _ => Err ValueError
  end.

(** [_validate_hash] of a JSON value *)
Definition validate_hash (v : json) : result py_exn (option ustr) :=
  match v with
  | JNull => Ok None
  | JStr s => if is_sha256 s then Ok (Some s) else Err ValueError
  | _ => Err ValueError
  end.
Definition of_opt (o : option ustr) : json := match o with Some s => JStr s | None => JNull end.

(** [_positive_int] *)
Definition positive_int (v : json) : result py_exn Z :=
  match v with JInt z => if z <? 1 then Err ValueError else Ok z | _ => Err ValueError end.

(** [bool(v)] *)
Definition json_true (v : json) : bool :=
  match v with
  | JNull => false
  | JBool b => b
  | JInt z => negb (z =? 0)
  | JFloat lit => float_true lit
  | JStr s => bool_decide (s ≠ [])
  | JList l => match l with [] => false | _ => true end
  | JObj d => match d with [] => false | _ => true end
  end.

Definition field (k : string) (d : jdict) : option json := jget (u k) d.
Definition field_or (k : string) (v : json) (d : jdict) : json := default v (field k d).

(** ** Reading *)

(** A record of type [change]; [ValueError] and [KeyError] are caught by the
    caller. *)
Definition change_of_record (rec : jdict) : result py_exn JournalEntry :=
  match field "change_id" rec, field "action" rec, field_or "subject" (JStr []) rec with
  | Some (JStr id), Some (JStr act), JStr subj =>
      if is_change_id id then
        at_ ← parse_time (field "at" rec);
        before ← validate_hash (field_or "before" JNull rec);
        after ← validate_hash (field_or "after" JNull rec);
        merged ← positive_int (field_or "merged" (JInt 1) rec);
        Ok (mkEntry id at_ act subj before after pending_status None
              (json_true (field_or "recovered" (JBool false) rec)) merged)
      else Err ValueError
  | _, _, _ => Err ValueError
  end.

Definition json_texts (l : list json) : list ustr :=
  omap (λ v, match v with JStr s => Some s | _ => None end) l.

(** A record of type [commit]: outcome, ids, hash and backup. *)
Definition commit_of_record (rec : jdict) :
    result py_exn (CommitOutcome * list ustr * option ustr * option ustr) :=
  match field "outcome" rec, field "change_ids" rec, field "config_hash" rec with
  | Some oc, Some (JList ids), Some h =>
      h ← validate_hash h;
      match oc with
      | JStr oc =>
          if bool_decide (oc = u "backup") then
            match field "backup_id" rec with
            | Some (JStr bid) =>
                if is_backup_id bid then Ok (backup, json_texts ids, h, Some bid) else Err ValueError
            | _ => Err ValueError
            end
          else if bool_decide (oc = u "noop") then Ok (noop, json_texts ids, h, None)
          else Err ValueError
      | _ => Err ValueError
      end
  | _, _, _ => Err ValueError
  end.

(** [_apply_record]: [None] when it returns [False]; an exception that is not a
    [KeyError], [TypeError] or [ValueError] leaves the method. *)
Definition apply_record (s : journal_state) (rec : jdict) : result py_exn (option journal_state) :=
  let caught {A} (r : result py_exn A) (k : A → journal_state) : result py_exn (option journal_state) :=
    match r with
    | Ok a => Ok (Some (k a))
    | Err (ValueError | TypeError) => Ok None
    | Err e => Err e
    end in
  match field "type" rec with
  | Some (JStr kind) =>
      if bool_decide (kind = u "change") then
        caught (change_of_record rec) (λ e, with_change (change_id e) e s)
      else if bool_decide (kind = u "commit") then
        caught (commit_of_record rec)
          (λ '(oc, ids, h, bid),
             let s := with_commit ids oc bid rec s in
             match oc with backup => with_last_backup h bid s | noop => s end)
      else if bool_decide (kind = u "checkpoint") then
        caught (validate_hash (field_or "last_backup_hash" JNull rec))
          (λ h, with_last_backup h (match field "last_backup_id" rec with Some (JStr id) => Some id | _ => None end) s)
      else Ok None
  | _ => Ok None
  end.

Fixpoint bytes_be (n : nat) (z : Z) : list Z :=
  match n with O => [] | S n' => bytes_be n' (z / 256) ++ [z mod 256] end.
Definition EPOCH : datetime := mkDatetime 719163 0 (Some 0).

(** [_recovered_entry] *)
Definition recovered_id (number : Z) (raw : list Z) : ustr :=
  u "chg_recovered_" ++ take 24 (sha256_hex (bytes_be 8 number ++ raw)).
Definition recovered_entry (number : Z) (raw : list Z) (torn : bool) : JournalEntry :=
  mkEntry (recovered_id number raw) EPOCH (u "journal.recovered")
    (u (if torn then "torn" else "unreadable") ++ u " journal line " ++ print_int number)
    None None pending_status None true 1.
(** [_add_recovered_placeholder] *)
Definition add_recovered_placeholder (number : Z) (raw : list Z) (torn : bool) (s : journal_state) : journal_state :=
  let s := if torn then with_counts (corrupt_lines s) (ulen raw) s
           else with_counts (corrupt_lines s + 1) (torn_tail_bytes s) s in
  let e := recovered_entry number raw torn in
  if bool_decide (is_Some (changes s !! change_id e)) then s
  else with_changes (<[change_id e := e]> (changes s)) (order s ++ [change_id e]) s.

(** The object of a line, if it is one. *)
Definition line_record (raw : list Z) : option jdict :=
  if ulen raw <=? MAX_LINE_BYTES then
    match loads recursion_limit raw with Some (JObj d) => Some d | _ => None end
  else None.
Definition try_line (s : journal_state) (raw : list Z) : result py_exn (option journal_state) :=
  match line_record raw with Some rec => apply_record s rec | None => Ok None end.

Definition is_byte_space (c : Z) : bool := between 9 13 c || (c =? 32).
Definition is_blank (raw : list Z) : bool := forallb is_byte_space raw.

(** A line that ends with a newline, and the bytes after the last newline. *)
Definition apply_line (number : Z) (raw : list Z) (s : journal_state) : result py_exn journal_state :=
  if is_blank raw then Ok s
  else r ← try_line s raw;
       Ok (match r with Some s' => s' | None => add_recovered_placeholder number raw false s end).
Definition apply_tail (number : Z) (tail : list Z) (s : journal_state) : result py_exn journal_state :=
  match tail with
  | [] => Ok s
  | _ => r ← try_line s tail;
         Ok (match r with
             | Some s' => with_counts (corrupt_lines s') (ulen tail) s'
             | None => add_recovered_placeholder number tail true s
             end)
  end.
Fixpoint apply_lines (number : Z) (lines : list (list Z)) (s : journal_state) : result py_exn journal_state :=
  match lines with
  | [] => Ok s
  | raw :: lines' => s ← apply_line number raw s; apply_lines (number + 1) lines' s
  end.

(** [data.split(b"\n")]: the terminated lines and the tail *)
Definition newline : Z := 10.
Fixpoint split_lines (data : list Z) : list (list Z) * list Z :=
  match data with
  | [] => ([], [])
  | c :: data' =>
      let '(lines, tail) := split_lines data' in
      if c =? newline then ([] :: lines, tail)
      else match lines with
           | l :: lines' => ((c :: l) :: lines', tail)
           | [] => ([], c :: tail)
           end
  end.

(** [_replace_status], and the loop over the commits *)
Definition replace_status (e : JournalEntry) (oc : CommitOutcome) (bid : option ustr) : JournalEntry :=
  mkEntry (change_id e) (at_time e) (action e) (subject e) (before_hash e) (after_hash e)
    (committed_as oc) bid (recovered e) (merged e).
Definition apply_commits (s : journal_state) : journal_state :=
  with_changes
    (map_imap (λ id e, Some (match commits s !! id with
                             | Some (oc, bid) => replace_status e oc bid
                             | None => e
                             end)) (changes s))
    (order s) s.

(** [_parse] before the loop over the commits, and whole *)
Definition parse_records (data : list Z) : result py_exn journal_state :=
  let '(lines, tail) := split_lines data in
  s ← apply_lines 1 lines empty_state;
  apply_tail (ulen lines + 1) tail s.
Definition parse (data : list Z) : result py_exn journal_state := apply_commits <$> parse_records data.

(** ** Records *)

Definition change_record (e : JournalEntry) : result py_exn jdict :=
  t ← format_time (at_time e);
  Ok ([(u "v", JInt JOURNAL_FORMAT_VERSION); (u "type", JStr (u "change")); (u "change_id", JStr (change_id e));
       (u "at", JStr t); (u "action", JStr (action e)); (u "subject", JStr (subject e));
       (u "before", of_opt (before_hash e)); (u "after", of_opt (after_hash e))]).
(** The record compaction writes *)
Definition kept_record (e : JournalEntry) : result py_exn jdict :=
  r ← change_record e;
  Ok (r ++ (if recovered e then [(u "recovered", JBool true)] else [])
        ++ (if 1 <? merged e then [(u "merged", JInt (merged e))] else [])).
Definition outcome_text (oc : CommitOutcome) : ustr := match oc with backup => u "backup" | noop => u "noop" end.
Definition commit_record (at_ : ustr) (ids : list ustr) (oc : CommitOutcome) (bid : option ustr) (h : ustr) : jdict :=
  [(u "v", JInt JOURNAL_FORMAT_VERSION); (u "type", JStr (u "commit")); (u "at", JStr at_);
   (u "change_ids", JList (JStr <$> ids)); (u "outcome", JStr (outcome_text oc)); (u "backup_id", of_opt bid);
   (u "config_hash", JStr h)].
Definition checkpoint_record (at_ : ustr) (h id : option ustr) : jdict :=
  [(u "v", JInt JOURNAL_FORMAT_VERSION); (u "type", JStr (u "checkpoint")); (u "at", JStr at_);
   (u "last_backup_hash", of_opt h); (u "last_backup_id", of_opt id)].

(** [as_dict] *)
Definition status_text (st : entry_status) : ustr :=
  match st with pending_status => u "pending" | committed_as oc => outcome_text oc end.
Definition as_dict (e : JournalEntry) : result py_exn jdict :=
  t ← format_time (at_time e);
  Ok [(u "change_id", JStr (change_id e)); (u "at", JStr t); (u "action", JStr (action e));
      (u "subject", JStr (subject e)); (u "before_hash", of_opt (before_hash e));
      (u "after_hash", of_opt (after_hash e)); (u "status", JStr (status_text (status e)));
      (u "backup_id", of_opt (entry_backup_id e)); (u "recovered", JBool (recovered e));
      (u "merged", JInt (merged e))].

(** ** The file *)

Inductive node := Missing | Regular (data : list Z) | Symlink | Directory.

(** [_read_bytes_locked], [_load_locked] and [_size_locked] *)
Definition read_bytes (f : node) : result py_exn (list Z) :=
  match f with Missing => Ok [] | Regular data => Ok data | Symlink | Directory => Err JournalError end.
Definition load (f : node) : result py_exn journal_state := data ← read_bytes f; parse data.
Definition size_of (f : node) : Z := match f with Regular data => ulen data | _ => 0 end.

(** [_has_torn_tail] *)
Definition has_torn_tail (data : list Z) : bool :=
  match last data with Some c => negb (c =? newline) | None => false end.

(** What the system does to an append: nothing, refuse the file, or stop after
    [n] bytes (all of them, when the final [fsync] fails). *)
Inductive write_fault := no_fault | open_fails | stops_after (n : nat).

(** [_append_records_locked] *)
Definition payload_of (lines : list ustr) : list Z := lines ≫= (λ l, l ++ [newline]).
Definition append_records (fault : write_fault) (records : list jdict) (f : node) : result py_exn unit * node :=
  match res_mapM (λ r, stable_json (JObj r)) records with
  | Err e => (Err e, f)
  | Ok lines =>
      if existsb (λ l, MAX_LINE_BYTES <? ulen l) lines then (Err ValueError, f)
      else
        let write data :=
          let payload := (if has_torn_tail data then [newline] else []) ++ payload_of lines in
          match fault with
          | no_fault => (Ok tt, Regular (data ++ payload))
          | open_fails => (Err OSError, f)
          | stops_after n => (Err OSError, Regular (data ++ take n payload))
          end in
        match f with
        | Missing => write []
        | Regular data => write data
        | Symlink => (Err JournalError, f)
        | Directory => (Err OSError, f)
        end
  end.

(** ** Compaction *)

Record ChangeJournal := mkJournal { max_bytes : Z; retain_committed_entries : Z }.
(** [__init__]: [None] is [ValueError] *)
Definition new_journal (max retain : Z) : option ChangeJournal :=
  if max <? 4096 then None else if retain <? 0 then None else Some (mkJournal max retain).

Definition is_pending (s : journal_state) (id : ustr) : bool :=
  match changes s !! id with Some e => bool_decide (status e = pending_status) | None => false end.
Definition pending_ids (s : journal_state) : list ustr := List.filter (is_pending s) (order s).
Definition entries_of (s : journal_state) (ids : list ustr) : list JournalEntry := omap (λ id, changes s !! id) ids.

Definition sum (l : list Z) : Z := fold_right Z.add 0 l.
(** [_pending_bytes] *)
Definition pending_bytes (s : journal_state) (ids : list ustr) : result py_exn Z :=
  lens ← res_mapM (λ e, d ← as_dict e; t ← stable_json (JObj d); Ok (ulen t + 1)) (entries_of s ids);
  Ok (sum lens).

Definition record_ids (rec : jdict) : list json :=
  match field_or "change_ids" (JList []) rec with JList l => l | _ => [] end.
Definition hashable (v : json) : bool := match v with JList _ | JObj _ => false | _ => true end.
(** The last commit record that names each id. *)
Definition record_of (s : journal_state) : gmap ustr nat :=
  fold_left (λ m ir, fold_left (λ m id, <[id := ir.1]> m) (json_texts (record_ids ir.2)) m)
    (zip (seq 0 (length (commit_records s))) (commit_records s)) ∅.

(** The loop of [_committed_within_budget] over the newest committed ids:
    [kept] is in its final order. *)
Fixpoint keep_committed (s : journal_state) (retain : Z) (of_record : gmap ustr nat) (ids : list ustr)
    (budget : Z) (counted : gset nat) (kept : list ustr) : result py_exn (list ustr) :=
  match ids with
  | [] => Ok kept
  | id :: ids' =>
      if retain <=? ulen kept then Ok kept
      else
        bytes ← pending_bytes s [id];
        let cost := bytes + ulen id + 3 in
        let index := of_record !! id in
        let uncounted := match index with
                         | Some i => if bool_decide (i ∈ counted) then None else commit_records s !! i
                         | None => None
                         end in
        cost ← (match uncounted with
                | Some rec => t ← stable_json (JObj (jset (u "change_ids") (JList []) rec)); Ok (cost + ulen t + 1)
                | None => Ok cost
                end);
        if budget <? cost then Ok kept
        else keep_committed s retain of_record ids' (budget - cost)
               (match index with Some i => {[ i ]} ∪ counted | None => counted end) (id :: kept)
  end.
(** [_committed_within_budget] *)
Definition committed_within_budget (c : ChangeJournal) (s : journal_state) (committed : list ustr) :
    result py_exn (list ustr) :=
  if retain_committed_entries c =? 0 then Ok []
  else if forallb (λ r, forallb hashable (record_ids r)) (commit_records s)
  then keep_committed s (retain_committed_entries c) (record_of s) (reverse committed) (max_bytes c / 4) ∅ []
  else Err TypeError.

(** The newest pending ids that fit into [budget]. *)
Fixpoint keep_newest (s : journal_state) (ids : list ustr) (budget : Z) (kept : list ustr) : result py_exn (list ustr) :=
  match ids with
  | [] => Ok kept
  | id :: ids' =>
      bytes ← pending_bytes s [id];
      if budget - bytes <? 0 then Ok kept else keep_newest s ids' (budget - bytes) (id :: kept)
  end.

Definition overflow_id (token : ustr) : ustr := u "chg_overflow_" ++ take 24 token.
Definition overflow_entry (token : ustr) (s : journal_state) (older : list ustr) : option JournalEntry :=
  let es := entries_of s older in
  match es, last es with
  | first :: _, Some final =>
      let count := sum (merged <$> es) in
      Some (mkEntry (overflow_id token) (at_time first) (u "journal.overflow")
              (print_int count ++ u " older uncommitted changes merged") (before_hash first) (after_hash final)
              pending_status None true count)
  | _, _ => None
  end.
(** The oldest pending changes are merged into one when they do not fit. *)
Definition merge_overflow (c : ChangeJournal) (token : ustr) (s : journal_state) :
    result py_exn (journal_state * list ustr) :=
  let pending := pending_ids s in
  let budget := max_bytes c / 2 in
  bytes ← (if Nat.ltb 1 (length pending) then pending_bytes s pending else Ok 0);
  if Nat.ltb 1 (length pending) && (budget <? bytes) then
    newest ← keep_newest s (reverse pending) (budget - 512) [];
    let older := List.filter (λ id, negb (bool_decide (id ∈ newest))) pending in
    match overflow_entry token s older with
    | None => Err ValueError                       (* not reached: [older] is not empty *)
    | Some e =>
        Ok (with_changes (<[change_id e := e]> (changes s))
              (change_id e :: List.filter (λ id, negb (bool_decide (id ∈ older))) (order s)) s,
            change_id e :: newest)
    end
  else Ok (s, pending).

(** The records of the compacted file. *)
Definition commit_remainder (kept : list ustr) (rec : jdict) : list jdict :=
  match List.filter (λ id, bool_decide (id ∈ kept)) (json_texts (record_ids rec)) with
  | [] => []
  | ids => [jset (u "change_ids") (JList (JStr <$> ids)) rec]
  end.
Definition compacted_records (c : ChangeJournal) (now : datetime) (token : ustr) (s : journal_state) :
    result py_exn (list jdict) :=
  let committed := List.filter (λ id, match changes s !! id with
                                      | Some e => negb (bool_decide (status e = pending_status)) && negb (recovered e)
                                      | None => false
                                      end) (order s) in
  kept_committed ← committed_within_budget c s committed;
  '(s, pending) ← merge_overflow c token s;
  kept ← res_mapM kept_record
    (entries_of s (List.filter (λ id, bool_decide (id ∈ pending) || bool_decide (id ∈ kept_committed)) (order s)));
  _ ← (if forallb (λ r, forallb hashable (record_ids r)) (commit_records s) then Ok tt else Err TypeError);
  t ← format_time now;
  Ok (kept ++ (commit_records s ≫= commit_remainder kept_committed)
           ++ [checkpoint_record t (last_backup_hash s) (last_backup_id s)]).

(** Compaction replaces the file as a whole: it fails before or after that. *)
Inductive compact_fault := compact_ok | before_replace | after_replace.

(** [_compact_locked] *)
Definition compact (c : ChangeJournal) (fault : compact_fault) (now : datetime) (token : ustr) (f : node) :
    result py_exn unit * node :=
  match (s ← load f; records ← compacted_records c now token s; res_mapM (λ r, stable_json (JObj r)) records) with
  | Err e => (Err e, f)
  | Ok lines =>
      match fault with
      | compact_ok => (Ok tt, Regular (payload_of lines))
      | before_replace => (Err OSError, f)
      | after_replace => (Err OSError, Regular (payload_of lines))
      end
  end.
(** The end of [append] and [commit]: compact when the file has grown too large. *)
Definition append_and_compact (c : ChangeJournal) (fault : write_fault) (cfault : compact_fault) (now : datetime)
    (token : ustr) (records : list jdict) (f : node) : result py_exn unit * node :=
  match append_records fault records f with
  | (Err e, f) => (Err e, f)
  | (Ok _, f) => if max_bytes c <? size_of f then compact c cfault now token f else (Ok tt, f)
  end.

(** ** Methods *)

(** What a call gets from outside: times, random tokens and faults. *)
Record outside := mkOutside {
  now : datetime;
  token : ustr;                (* [uuid.uuid4().hex] of the change *)
  compact_now : datetime;
  compact_token : ustr;
  wfault : write_fault;
  cfault : compact_fault;
}.

Definition check_hash (h : option ustr) : bool := match h with Some h => is_sha256 h | None => true end.

Definition new_entry (o : outside) (act subj : ustr) (before after : option ustr) : JournalEntry :=
  mkEntry (u "chg_" ++ token o) (now o) act subj before after pending_status None false 1.
Definition append (c : ChangeJournal) (o : outside) (act subj : ustr) (before after : option ustr) (f : node) :
    result py_exn JournalEntry * node :=
  if negb (is_action act) then (Err ValueError, f)
  else if MAX_SUBJECT_CHARS <? ulen subj then (Err ValueError, f)
  else if negb (check_hash before && check_hash after) then (Err ValueError, f)
  else
    let e := new_entry o act subj before after in
    match change_record e with
    | Err err => (Err err, f)
    | Ok rec =>
        match append_and_compact c (wfault o) (cfault o) (compact_now o) (compact_token o) [rec] f with
        | (Ok _, f') => (Ok e, f')
        | (Err err, f') => (Err err, f')
        end
    end.

Definition pending (f : node) : result py_exn (list JournalEntry) :=
  s ← load f; Ok (entries_of s (pending_ids s)).
(** [entries(limit)], newest first *)
Definition entries (limit : option Z) (f : node) : result py_exn (list JournalEntry) :=
  s ← load f;
  let ordered := entries_of s (reverse (order s)) in
  Ok (match limit with Some n => take (Z.to_nat (Z.max 0 n)) ordered | None => ordered end).
Definition last_backup (f : node) : result py_exn (option ustr * option ustr) :=
  s ← load f; Ok (last_backup_hash s, last_backup_id s).

(** The chunks of [COMMIT_IDS_PER_RECORD] ids; at least one. *)
Fixpoint chunks (fuel : nat) (ids : list ustr) : list (list ustr) :=
  match fuel with
  | O => []
  | S fuel' =>
      match drop COMMIT_IDS_PER_RECORD ids with
      | [] => [ids]
      | rest => take COMMIT_IDS_PER_RECORD ids :: chunks fuel' rest
      end
  end.
Definition check_backup_id (oc : CommitOutcome) (bid : option ustr) : bool :=
  match oc, bid with
  | backup, Some id => is_backup_id id
  | backup, None => false
  | noop, Some _ => false
  | noop, None => true
  end.
Definition commit (c : ChangeJournal) (o : outside) (ids : list ustr) (oc : CommitOutcome) (h : ustr)
    (bid : option ustr) (f : node) : result py_exn unit * node :=
  if negb (check_backup_id oc bid) then (Err ValueError, f)
  else if negb (is_sha256 h) then (Err ValueError, f)
  else
    match format_time (now o) with
    | Err err => (Err err, f)
    | Ok t =>
        append_and_compact c (wfault o) (cfault o) (compact_now o) (compact_token o)
          ((λ chunk, commit_record t chunk oc bid h) <$> chunks (S (length ids)) ids) f
    end.

Record JournalStats := mkStats {
  size_bytes : Z; st_pending : Z; st_committed : Z; st_corrupt_lines : Z; st_torn_tail_bytes : Z;
  st_last_backup_hash : option ustr; st_last_backup_id : option ustr; over_budget : bool;
}.
Definition stats (c : ChangeJournal) (f : node) : result py_exn JournalStats :=
  s ← load f;
  let bytes := size_of f in
  let npending := ulen (List.filter (λ ie, bool_decide (status ie.2 = pending_status)) (map_to_list (changes s))) in
  Ok (mkStats bytes npending (Z.of_nat (size (changes s)) - npending) (corrupt_lines s) (torn_tail_bytes s)
        (last_backup_hash s) (last_backup_id s) (max_bytes c <? bytes)).
End journal.
