(* ===== verification/JournalLines.v ===== *)
(** * Lines and records of the journal

    A file is its terminated lines and a tail; times, entries and commits are
    read back from the records they were written as. *)

From S2P Require Import Prelude PyStr Calendar Json JsonProofs Journal.
#[local] Open Scope Z_scope.
#[local] Open Scope list_scope.

(** ** Lines *)

Definition one_line (l : list Z) : Prop := newline ∉ l.

Lemma split_lines_line l : one_line l → split_lines l = ([], l).
Proof.
  unfold one_line. induction l as [|c l IH]; [done|]. intros [Hc Hl]%not_elem_of_cons. cbn. rewrite IH by done.
  by rewrite (proj2 (Z.eqb_neq _ _)) by congruence.
Qed.
Lemma split_lines_app a b ls t : split_lines a = (ls, t) →
  split_lines (a ++ b) = (ls ++ (split_lines (t ++ b)).1, (split_lines (t ++ b)).2).
Proof.
  revert ls t; induction a as [|c a IH]; intros ls t; cbn.
  - intros [= <- <-]. cbn. by destruct (split_lines b).
  - destruct (split_lines a) as [ls' t'] eqn:E. rewrite (IH _ _ eq_refl).
    destruct (c =? newline) eqn:Ec; [intros [= <- <-]; done|].
    destruct ls' as [|l ls']; intros [= <- <-]; [|done]. cbn [app].
    destruct (split_lines (t' ++ b)) as [ls2 t2] eqn:E2. cbn. rewrite Ec, E2. by destruct ls2.
Qed.
Lemma split_lines_payload ls t : Forall one_line ls → split_lines (payload_of ls ++ t) = (ls ++ (split_lines t).1, (split_lines t).2).
Proof.
  unfold payload_of. induction 1 as [|l ls Hl _ IH]; [cbn; by destruct (split_lines t)|].
  change ((l :: ls) ≫= ?f) with (f l ++ (ls ≫= f)). cbv beta. rewrite <-!app_assoc.
  rewrite (split_lines_app _ _ _ _ (split_lines_line l Hl)). cbn [app].
  assert (∀ r, split_lines (l ++ newline :: r) = (l :: (split_lines r).1, (split_lines r).2)) as ->.
  { intros r. clear IH. induction l as [|c l IHl]; cbn.
    - by destruct (split_lines r).
    - apply not_elem_of_cons in Hl as [Hc Hl]. rewrite IHl by done.
      by rewrite (proj2 (Z.eqb_neq _ _)) by congruence. }
  by rewrite IH.
Qed.
Lemma split_lines_one_line data : Forall one_line (split_lines data).1 ∧ one_line (split_lines data).2.
Proof.
  unfold one_line. induction data as [|c data [IH1 IH2]]; cbn; [split; [done|apply not_elem_of_nil]|].
  destruct (split_lines data) as [ls t]. cbn in *. destruct (Z.eqb_spec c newline) as [->|Hc]; cbn.
  - split; [|done]. constructor; [apply not_elem_of_nil|done].
  - destruct IH1 as [|l ls Hl Hls]; cbn; split; try done.
    + apply not_elem_of_cons. by split.
    + constructor; [|done]. apply not_elem_of_cons. by split.
Qed.
Lemma split_lines_join data : payload_of (split_lines data).1 ++ (split_lines data).2 = data.
Proof.
  unfold payload_of. induction data as [|c data IH]; cbn; [done|].
  destruct (split_lines data) as [ls t]. cbn in *. destruct (Z.eqb_spec c newline) as [->|Hc]; cbn.
  - by rewrite IH.
  - destruct ls as [|l ls]; cbn in *; by rewrite IH.
Qed.
Lemma torn_tail_split data : has_torn_tail data = negb (bool_decide ((split_lines data).2 = [])).
Proof.
  unfold has_torn_tail. pose proof (split_lines_join data) as E. pose proof (split_lines_one_line data) as [_ Ht].
  destruct (split_lines data) as [ls t]. cbn in *. subst data. destruct t as [|c t] using rev_ind.
  - rewrite app_nil_r. destruct ls as [|l ls] using rev_ind; [done|]. unfold payload_of. rewrite bind_app.
    cbn. rewrite app_nil_r, app_assoc, last_snoc. by rewrite Z.eqb_refl.
  - rewrite app_assoc, last_snoc. rewrite bool_decide_eq_false_2 by (by destruct t).
    unfold one_line in Ht. rewrite elem_of_app, list_elem_of_singleton in Ht.
    rewrite (proj2 (Z.eqb_neq _ _)); [done|]. intros ->. tauto.
Qed.

(** A payload cut short: whole lines, and the start of the next one. *)
Lemma take_payload n ls : ∃ k p, take n (payload_of ls) = payload_of (take k ls) ++ p
  ∧ (k <= length ls)%nat ∧ (p = [] ∨ ∃ l q, ls !! k = Some l ∧ l = p ++ q)
  ∧ ((length (payload_of ls) <= n)%nat → k = length ls).
Proof.
  revert n; induction ls as [|l ls IH]; intros n.
  - exists 0%nat, []. cbn. rewrite take_nil. split_and!; auto.
  - unfold payload_of in *. change ((l :: ls) ≫= ?f) with (f l ++ (ls ≫= f)). cbv beta.
    destruct (Nat.le_gt_cases (length (l ++ [newline])) n) as [Hn|Hn].
    + destruct (IH (n - length (l ++ [newline]))%nat) as (k & p & E & Hk & Hp & Hall).
      exists (S k), p. rewrite take_app_ge by done. rewrite E. split_and!; [by rewrite (assoc_L (++))|cbn; lia|done|].
      rewrite length_app. intros H. cbn. f_equal. apply Hall. lia.
    + exists 0%nat, (take n l). rewrite length_app in Hn. cbn in Hn. rewrite <-app_assoc, take_app_le by lia.
      split_and!; [done|lia|right; exists l, (drop n l); by rewrite take_drop|].
      rewrite !length_app. cbn. lia.
Qed.

Section lines.
Context {RT : Runtime}.

Lemma apply_lines_app n l1 l2 s :
  apply_lines n (l1 ++ l2) s = (s' ← apply_lines n l1 s; apply_lines (n + ulen l1) l2 s').
Proof.
  revert n s; induction l1 as [|l l1 IH]; intros n s; cbn.
  - unfold ulen. cbn. by rewrite Z.add_0_r.
  - destruct (apply_line n l s) as [s'|e]; cbn; [|done]. rewrite IH. unfold ulen. cbn [length].
    rewrite Nat2Z.inj_succ. by replace (n + 1 + Z.of_nat (length l1)) with (n + Z.succ (Z.of_nat (length l1))) by lia.
Qed.

(** What a file holds before its tail. *)
Definition parse_lines (data : list Z) : result py_exn journal_state :=
  apply_lines 1 (split_lines data).1 empty_state.
Definition next_line (data : list Z) : Z := ulen (split_lines data).1 + 1.
Lemma parse_records_tail data :
  parse_records data = (s ← parse_lines data; apply_tail (next_line data) (split_lines data).2 s).
Proof. unfold parse_records, parse_lines, next_line. by destruct (split_lines data). Qed.

(** Appending whole lines, and then the start of one. *)
Lemma parse_lines_payload data ls p : (split_lines data).2 = [] → Forall one_line ls → one_line p →
  parse_lines (data ++ payload_of ls ++ p) = (s ← parse_lines data; apply_lines (next_line data) ls s)
  ∧ (split_lines (data ++ payload_of ls ++ p)).2 = p
  ∧ next_line (data ++ payload_of ls ++ p) = next_line data + ulen ls.
Proof.
  intros Ht Hls Hp. destruct (split_lines data) as [dl t] eqn:E. cbn in Ht. subst t.
  unfold parse_lines, next_line. rewrite (split_lines_app _ _ _ _ E). cbn [app fst snd].
  rewrite split_lines_payload, (split_lines_line p) by done. cbn. rewrite app_nil_r, E. cbn.
  rewrite apply_lines_app. split_and!; [|done|unfold ulen; rewrite length_app; lia].
  by rewrite (Z.add_comm 1).
Qed.
(** Terminating a torn tail makes it a line. *)
Lemma parse_lines_terminate data : (split_lines data).2 ≠ [] →
  parse_lines (data ++ [newline]) = (s ← parse_lines data; apply_line (next_line data) (split_lines data).2 s)
  ∧ (split_lines (data ++ [newline])).2 = []
  ∧ next_line (data ++ [newline]) = next_line data + 1.
Proof.
  intros Ht. pose proof (split_lines_one_line data) as [_ Hone]. destruct (split_lines data) as [dl t] eqn:E. cbn in *.
  unfold parse_lines, next_line. rewrite (split_lines_app _ _ _ _ E).
  pose proof (split_lines_payload [t] [] ltac:(by constructor)) as Hp. unfold payload_of in Hp. cbn in Hp.
  rewrite !app_nil_r in Hp. rewrite Hp, E. cbn. rewrite apply_lines_app.
  split_and!; [|done|unfold ulen; rewrite length_app; cbn; lia].
  destruct (apply_lines 1 dl empty_state) as [s|]; [|done]. cbn. rewrite (Z.add_comm 1). by destruct (apply_line _ t s).
Qed.
End lines.

(** ** Times *)

Lemma dec_length z : (length (dec z) <= S (Z.to_nat (Z.log2 z)))%nat.
Proof.
  unfold dec. assert (∀ f z acc, (length (dec_digits f z acc) <= f + length acc)%nat) as H.
  { induction f as [|f IH]; intros z' acc; cbn; [lia|]. destruct (z' <? 10); cbn; [lia|].
    etrans; [apply IH|]. cbn. lia. }
  etrans; [apply H|]. cbn. lia.
Qed.

Definition plain_char (c : Z) : Prop := printable c ∧ c ≠ 43 ∧ c ≠ 90.
Lemma pad_spec w z : 0 <= z < 1000000 →
  Forall plain_char (pad w z) ∧ (length (pad w z) <= w + 20)%nat.
Proof.
  intros Hz. unfold pad. split.
  - apply Forall_app; split.
    + apply Forall_forall. intros c Hc%list_elem_of_In%repeat_spec. subst. unfold plain_char, printable. lia.
    + destruct (dec_spec z ltac:(lia)) as (d & ds & -> & HF & _). rewrite forallb_forall in HF.
      rewrite Forall_forall. intros c Hc%list_elem_of_In. apply HF, between_true in Hc.
      unfold plain_char, printable. lia.
  - rewrite length_app, repeat_length. pose proof (dec_length z).
    assert (Z.log2 z < 20) by (destruct (Z.eq_dec z 0) as [->|]; [done|apply Z.log2_lt_pow2; lia]). lia.
Qed.

Lemma valid_datetime_spec d : valid_datetime d = true ↔
  1 <= dt_day d <= max_ordinal ∧ 0 <= dt_micros d < DAY_MICROS.
Proof. unfold valid_datetime. rewrite !andb_true_iff, !Z.leb_le, Z.ltb_lt. tauto. Qed.

Lemma month_tables_checked : forallb (λ leap, forall_from (λ m,
  (0 <=? days_before_month leap m) && (days_before_month leap m <=? 335)
  && (days_in_month_leap leap m <=? 31)) 12 1) [true; false] = true.
Proof. vm_compute. reflexivity. Qed.
Lemma month_tables leap m : 1 <= m <= 12 →
  0 <= days_before_month leap m <= 335 ∧ days_in_month_leap leap m <= 31.
Proof.
  intros Hm. pose proof month_tables_checked as H. cbn [forallb] in H. to_prop.
  assert (forall_from (λ m, (0 <=? days_before_month leap m) && (days_before_month leap m <=? 335)
    && (days_in_month_leap leap m <=? 31)) 12 1 = true) as H' by by destruct leap.
  pose proof (forall_from_spec _ _ _ H' m ltac:(lia)) as Hb. cbv beta in Hb. to_prop. lia.
Qed.
Lemma iso_body_spec d : is_utc d → Forall plain_char (iso_body d) ∧ (length (iso_body d) <= 180)%nat.
Proof.
  intros [Hv%valid_datetime_spec _]. unfold iso_body, DAY_MICROS, max_ordinal in *.
  destruct (ord2ymd (dt_day d)) as [[y mo] dd] eqn:E. apply ord2ymd_valid in E as (Hmo & Hdd & Ey).
  pose proof (month_tables (is_leap y) mo Hmo) as [? ?].
  assert (0 <= y < 1000000) as Hy by (unfold ymd2ord, days_before_year in Ey; Z.div_mod_to_equations; lia).
  set (s := dt_micros d / 1000000). assert (0 <= s < 86400) by (unfold s; Z.div_mod_to_equations; lia).
  set (us := dt_micros d mod 1000000). assert (0 <= us < 1000000) by (unfold us; Z.div_mod_to_equations; lia).
  pose proof (pad_spec 4 y ltac:(lia)) as [? ?]. pose proof (pad_spec 2 mo ltac:(lia)) as [? ?].
  pose proof (pad_spec 2 dd ltac:(lia)) as [? ?].
  pose proof (pad_spec 2 (s / 3600) ltac:(Z.div_mod_to_equations; lia)) as [? ?].
  pose proof (pad_spec 2 (s / 60 mod 60) ltac:(Z.div_mod_to_equations; lia)) as [? ?].
  pose proof (pad_spec 2 (s mod 60) ltac:(Z.div_mod_to_equations; lia)) as [? ?].
  pose proof (pad_spec 6 us ltac:(lia)) as [? ?].
  split.
  - rewrite !Forall_app. split_and!; try done; try (repeat constructor; unfold plain_char, printable; lia).
    destruct (us =? 0); [constructor|]. apply Forall_app. split; [|done].
    repeat constructor; unfold plain_char, printable; lia.
  - rewrite !length_app. cbn [length]. destruct (us =? 0); cbn [length app]; lia.
Qed.

Lemma replace_from_clean old new x s r :
  strip_prefix old [] = None → (∀ c s, c ≠ x → strip_prefix old (c :: s) = None) → Forall (λ c, c ≠ x) s →
  replace_from old new 0 (s ++ r) = s ++ replace_from old new 0 r.
Proof.
  intros _ Hne Hs. induction Hs as [|c s Hc _ IH]; [done|]. cbn. rewrite Hne by done. by rewrite IH.
Qed.

Definition time_text (d : datetime) : ustr := iso_body d ++ [90].
Section times.
Context {RT : Runtime} {RL : RuntimeLaws RT}.

Lemma astimezone_utc_id d : is_utc d → astimezone_utc d 0 = Ok d.
Proof.
  intros [Hv%valid_datetime_spec Ho]. unfold astimezone_utc, DAY_MICROS in *. rewrite Z.sub_0_r.
  rewrite Z.div_small, Z.mod_small, Z.add_0_r by lia.
  rewrite (proj2 (Z.leb_le _ _)), (proj2 (Z.leb_le _ _)) by lia. cbn. destruct d; cbn in *. by subst.
Qed.
Lemma astimezone_utc_utc d off d' : astimezone_utc d off = Ok d' → is_utc d'.
Proof.
  unfold astimezone_utc. destruct (_ && _) eqn:E; [|done]. intros [= <-]. to_prop. split; [|done].
  apply valid_datetime_spec. cbn. split; [lia|]. apply Z.mod_pos_bound. unfold DAY_MICROS. lia.
Qed.

Lemma format_time_text d : is_utc d → format_time d = Ok (time_text d).
Proof.
  intros Hd. pose proof Hd as [_ Ho]. unfold format_time. rewrite Ho, astimezone_utc_id by done.
  cbn [mbind result_bind]. f_equal. unfold py_replace, isoformat_utc.
  rewrite (replace_from_clean _ _ 43); [done|done| |].
  - intros c s Hc. by apply strip_prefix_ne.
  - eapply Forall_impl; [by apply iso_body_spec|]. by intros c (_ & ? & _).
Qed.
Lemma parse_time_text d : is_utc d → parse_time (Some (JStr (time_text d))) = Ok d.
Proof.
  intros Hd. pose proof Hd as [_ Ho]. unfold parse_time, time_text, py_replace.
  rewrite (replace_from_clean _ _ 90); [|done| |].
  - change (iso_body d ++ replace_from (u "Z") UTC_OFFSET 0 [90]) with (isoformat_utc d).
    rewrite fromisoformat_isoformat, Ho by done. by apply astimezone_utc_id.
  - intros c s Hc. by apply strip_prefix_ne.
  - eapply Forall_impl; [by apply iso_body_spec|]. by intros c (_ & _ & ?).
Qed.
Lemma parse_time_utc v d : parse_time v = Ok d → is_utc d.
Proof.
  unfold parse_time. repeat case_match; try done. apply astimezone_utc_utc.
Qed.
Lemma time_text_spec d : is_utc d → Forall printable (time_text d) ∧ (length (time_text d) <= 181)%nat.
Proof.
  intros Hd. destruct (iso_body_spec d Hd) as [Hp Hl]. unfold time_text. rewrite length_app. cbn. split; [|lia].
  apply Forall_app. split; [eapply Forall_impl; [exact Hp|by intros ? [? _]]|].
  repeat constructor; unfold printable; lia.
Qed.
End times.
