(* ===== verification/JournalExample.v ===== *)
(** * A runtime to evaluate the journal with

    [fromisoformat] reads exactly the texts that [isoformat] prints in UTC; every
    digest is the same.  The laws the theorems on the journal assume hold of it. *)

From S2P Require Import Prelude PyStr Calendar Json JsonProofs Journal JournalLines.
#[local] Open Scope Z_scope.
#[local] Open Scope list_scope.

(** The numbers of a text, between characters that are not digits. *)
Fixpoint numbers (acc : Z) (s : ustr) : list Z :=
  match s with
  | [] => [acc]
  | c :: s' => if is_dig c then numbers (10 * acc + (c - 48)) s' else acc :: numbers 0 s'
  end.
Definition iso_datetime (y mo d h mi s us : Z) : datetime :=
  mkDatetime (ymd2ord y mo d) (((h * 60 + mi) * 60 + s) * 1000000 + us) (Some 0).
Definition read_iso (s : ustr) : option datetime :=
  d ← (match numbers 0 s with
       | [y; mo; d; h; mi; s; _; _] => Some (iso_datetime y mo d h mi s 0)
       | [y; mo; d; h; mi; s; us; _; _] => Some (iso_datetime y mo d h mi s us)
       | _ => None
       end);
  if valid_datetime d && bool_decide (isoformat_utc d = s) then Some d else None.

Lemma numbers_digits ds acc r : forallb is_dig ds = true →
  numbers acc (ds ++ r) = numbers (fold_left (λ a c, 10 * a + (c - 48)) ds acc) r.
Proof. revert acc; induction ds as [|d ds IH]; intros acc H; [done|]. cbn in *. to_prop. rewrite H. by apply IH. Qed.
Lemma numbers_pad w z c r : 0 <= z → is_dig c = false → numbers 0 (pad w z ++ c :: r) = z :: numbers 0 r.
Proof.
  intros Hz Hc. unfold pad. destruct (dec_spec z Hz) as (d & ds & -> & HF & _ & Hv). rewrite <-app_assoc.
  assert (∀ n s, numbers 0 (repeat 48 n ++ s) = numbers 0 s) as H48 by by induction n.
  rewrite H48, numbers_digits by done. unfold digits_value in Hv. rewrite Hv. cbn. by rewrite Hc.
Qed.

Lemma read_isoformat d : is_utc d → read_iso (isoformat_utc d) = Some d.
Proof.
  intros [Hv Hoff]. unfold read_iso.
  assert ((match numbers 0 (isoformat_utc d) with
       | [y; mo; d; h; mi; s; _; _] => Some (iso_datetime y mo d h mi s 0)
       | [y; mo; d; h; mi; s; us; _; _] => Some (iso_datetime y mo d h mi s us)
       | _ => None
       end) = Some d) as ->.
  2: { cbn [mbind option_bind]. by rewrite Hv, bool_decide_eq_true_2. }
  apply valid_datetime_spec in Hv. unfold isoformat_utc, iso_body, DAY_MICROS, max_ordinal in *.
  destruct (ord2ymd (dt_day d)) as [[y mo] dd] eqn:E. apply ord2ymd_valid in E as (Hmo & Hdd & Ey).
  pose proof (month_tables (is_leap y) mo Hmo) as [? ?].
  assert (0 <= y) as Hy by (unfold ymd2ord, days_before_year in Ey; Z.div_mod_to_equations; lia).
  assert (dt_micros d = dt_micros d / 1000000 * 1000000 + dt_micros d mod 1000000) as Ed by (Z.div_mod_to_equations; lia).
  assert (0 <= dt_micros d mod 1000000) as Hus by (apply Z.mod_pos_bound; lia).
  assert (0 <= dt_micros d / 1000000) as Hs by (apply Z.div_pos; lia).
  assert (∀ us, dt_micros d mod 1000000 = us →
    iso_datetime y mo dd (dt_micros d / 1000000 / 3600) (dt_micros d / 1000000 / 60 mod 60)
      (dt_micros d / 1000000 mod 60) us = d) as Heq.
  { intros us Eus. unfold iso_datetime. rewrite Ey. destruct d as [day micros off]. cbn in *. rewrite <-Hoff. f_equal.
    revert Ed Hs. generalize (micros / 1000000). intros s Ed Hs. rewrite Ed, Eus. Z.div_mod_to_equations. lia. }
  change UTC_OFFSET with (43 :: u "00:00"). repeat (rewrite <-!app_assoc; cbn [app]). rewrite !numbers_pad by (try done; try lia; apply Z.div_pos || apply Z.mod_pos_bound; lia).
  destruct (Z.eqb_spec (dt_micros d mod 1000000) 0) as [E0|E0].
  - cbn [app]. rewrite (numbers_pad 2) by (try done; apply Z.mod_pos_bound; lia). change (numbers 0 (u "00:00")) with [0; 0].
    lazy beta iota. by rewrite Heq.
  - cbn [app]. rewrite !numbers_pad by (try done; apply Z.mod_pos_bound; lia). change (numbers 0 (u "00:00")) with [0; 0].
    lazy beta iota. by rewrite Heq.
Qed.

Definition example_floats : Floats := {| float_repr := Some; float_true := λ _, true |}.
Definition example_runtime : Runtime := {|
  rt_floats := example_floats;
  recursion_limit := 20;
  fromisoformat := read_iso;
  sha256_hex := λ _, repeat 48 64;
|}.
Lemma example_laws : RuntimeLaws example_runtime.
Proof.
  split; try done; [apply read_isoformat| |cbn; lia].
  intros s d H. cbn in H. unfold read_iso in H. apply bind_Some in H as (d' & _ & H).
  destruct (valid_datetime d') eqn:E; [|done]. cbn in H. case_bool_decide; [|done]. by injection H as <-.
Qed.

(** A call at midnight of a day, and its tokens *)
Definition midnight (day : Z) : datetime := mkDatetime day 0 (Some 0).
Definition hex_of (n : Z) : ustr := 48 + n :: repeat 97 31.
Definition call_at (day n : Z) (w : write_fault) (cf : compact_fault) : outside :=
  mkOutside (midnight day) (hex_of n) (midnight day) (hex_of n) w cf.
Definition no_faults (day n : Z) : outside := call_at day n no_fault compact_ok.
Definition a_hash : ustr := repeat 97 64.
