(* ===== verification/JournalRecords.v ===== *)
(** * Records are read back

    Entries, commits and checkpoints survive their way through a line of the
    file, and what is left of a torn line is not a record. *)

From S2P Require Import Prelude PyStr Calendar Json JsonProofs Journal JournalLines.
#[local] Open Scope Z_scope.
#[local] Open Scope list_scope.

(** ** Reading the fields of a printed object *)

Lemma jget_perm {A} k (d d' : list (ustr * A)) : NoDup d.*1 → d ≡ₚ d' → jget k d = jget k d'.
Proof.
  intros Hnd Hp. assert (NoDup d'.*1) as Hnd' by by rewrite <-Hp.
  apply option_eq. intros v. rewrite !jget_elem by done. by rewrite Hp.
Qed.
Lemma jget_fmap {A B} k (f : A → B) d : jget k ((λ kv, (kv.1, f kv.2)) <$> d) = f <$> jget k d.
Proof. induction d as [|[k' v] d IH]; cbn; [done|]. by destruct (decide (k = k')). Qed.
Lemma fst_fmap {A B} (f : A → B) (d : list (ustr * A)) : ((λ kv, (kv.1, f kv.2)) <$> d).*1 = d.*1.
Proof. rewrite <-list_fmap_compose. by apply list_fmap_ext. Qed.

Definition loaded (rec : jdict) : jdict := sort_by key_leb ((λ kv, (kv.1, normal kv.2)) <$> rec).
Lemma field_loaded k rec : NoDup rec.*1 → field k (loaded rec) = normal <$> field k rec.
Proof.
  intros Hnd. unfold field, loaded. rewrite <-jget_fmap. apply jget_perm; [|by apply sort_by_perm].
  by rewrite sort_by_perm, fst_fmap.
Qed.

(** Look the fields of a record up. *)
Ltac get_fields :=
  unfold field, field_or; cbn [jget default id app];
  repeat first [ rewrite decide_True by reflexivity
               | rewrite decide_False by (let H := fresh in intros H; vm_compute in H; discriminate H) ];
  cbn [fmap option_fmap option_map normal].

Lemma printable_scalars s : Forall printable s → scalars s = true.
Proof.
  intros H. apply scalars_Forall. eapply Forall_impl; [exact H|]. intros c Hc. unfold printable in Hc.
  apply is_scalar_spec. lia.
Qed.
Lemma forallb_scalars (p : Z → bool) s : (∀ c, p c = true → is_scalar c = true) → forallb p s = true → scalars s = true.
Proof. intros Hp. unfold scalars. rewrite !forallb_forall. auto. Qed.

Lemma among_range l c lo hi : Forall (λ x, lo <= x <= hi) l → among l c = true → lo <= c <= hi.
Proof. unfold among. intros Hl Hc. to_prop. rewrite Forall_forall in Hl. auto. Qed.
(** The characters of an id, a hash or an action are ASCII. *)
Ltac ascii_class H :=
  apply is_scalar_spec; left; unfold is_upper_letter, is_lower_letter, is_dig in H;
  repeat match type of H with (_ || _) = true => apply orb_true_iff in H as [H|H] end;
  try (apply between_true in H; lia);
  (apply (among_range _ _ 0 127) in H; [lia|repeat (constructor; [vm_compute; split; congruence|]); constructor]).
Lemma change_id_scalars s : is_change_id s = true → scalars s = true ∧ (length s <= 68)%nat.
Proof.
  unfold is_change_id. destruct (strip_prefix (u "chg_") s) as [l|] eqn:E; [|done]. apply strip_prefix_Some in E as ->.
  intros [[H H8]%andb_true_iff H64%Nat.leb_le]%andb_true_iff. split.
  - unfold scalars. rewrite forallb_app. apply andb_true_iff; split; [done|].
    eapply forallb_scalars; [|exact H]. intros c Hc. ascii_class Hc.
  - rewrite length_app. change (length (u "chg_")) with 4%nat. lia.
Qed.
Lemma sha256_scalars s : is_sha256 s = true → scalars s = true ∧ length s = 64%nat.
Proof.
  unfold is_sha256. intros [H H64%Nat.eqb_eq]%andb_true_iff. split; [|done].
  eapply forallb_scalars; [|exact H]. intros c Hc. unfold is_hex_lower in Hc. ascii_class Hc.
Qed.
Lemma backup_id_scalars s : is_backup_id s = true → scalars s = true ∧ (length s <= 128)%nat.
Proof.
  unfold is_backup_id. destruct s as [|c s]; [done|].
  intros [[H Hl%Nat.leb_le]%andb_true_iff H0]%andb_true_iff. split; [|cbn; lia].
  unfold scalars. cbn [forallb]. apply andb_true_iff; split; [ascii_class H|].
  eapply forallb_scalars; [|exact H0]. intros x Hx. ascii_class Hx.
Qed.
Lemma action_scalars s : is_action s = true → scalars s = true ∧ (length s <= 64)%nat.
Proof.
  unfold is_action. destruct s as [|c s]; [done|].
  intros [[H Hl%Nat.leb_le]%andb_true_iff H0]%andb_true_iff. split; [|cbn; lia].
  unfold scalars. cbn [forallb]. apply andb_true_iff; split; [ascii_class H|].
  eapply forallb_scalars; [|exact H0]. intros x Hx. ascii_class Hx.
Qed.

(** ** Entries *)

Record good_entry (e : JournalEntry) : Prop := {
  good_id : is_change_id (change_id e) = true;
  good_time : is_utc (at_time e);
  good_action : scalars (action e) = true ∧ (length (action e) <= 64)%nat;
  good_subject : scalars (subject e) = true ∧ (length (subject e) <= 4400)%nat;
  good_hashes : check_hash (before_hash e) && check_hash (after_hash e) = true;
  good_merged : 1 <= merged e;
  good_status : status e = pending_status ∧ entry_backup_id e = None;
}.

Lemma validate_of_opt h : check_hash h = true → validate_hash (normal (of_opt h)) = Ok h.
Proof. destruct h as [h|]; cbn; [|done]. by intros ->. Qed.
Lemma plain_of_opt h : check_hash h = true → plain (of_opt h) = true.
Proof. destruct h as [h|]; cbn; [|done]. apply sha256_scalars. Qed.

Section records.
Context {RT : Runtime} {RL : RuntimeLaws RT}.

Definition base_record (e : JournalEntry) : jdict :=
[(u "v", JInt JOURNAL_FORMAT_VERSION); (u "type", JStr (u "change")); (u "change_id", JStr (change_id e));
 (u "at", JStr (time_text (at_time e))); (u "action", JStr (action e)); (u "subject", JStr (subject e));
 (u "before", of_opt (before_hash e)); (u "after", of_opt (after_hash e))].
Definition full_record (e : JournalEntry) : jdict :=
base_record e ++ (if recovered e then [(u "recovered", JBool true)] else [])
  ++ (if 1 <? merged e then [(u "merged", JInt (merged e))] else []).
Lemma change_record_eq e : is_utc (at_time e) → change_record e = Ok (base_record e).
Proof. intros H. unfold change_record. by rewrite format_time_text. Qed.
Lemma kept_record_eq e : is_utc (at_time e) → kept_record e = Ok (full_record e).
Proof. intros H. unfold kept_record. by rewrite change_record_eq. Qed.
Lemma full_base e : recovered e = false → merged e = 1 → full_record e = base_record e.
Proof. intros Hr Hm. unfold full_record. rewrite Hr, Hm. done. Qed.

Lemma full_record_plain e : good_entry e → plain (JObj (full_record e)) = true.
Proof.
intros [Hid Ht [Ha _] [Hs _] [Hh Hh']%andb_true_iff Hm Hst].
pose proof (proj1 (change_id_scalars _ Hid)) as Hi. pose proof (plain_of_opt _ Hh) as Hb.
pose proof (plain_of_opt _ Hh') as Haf. pose proof (printable_scalars _ (proj1 (time_text_spec _ Ht))) as Htt.
cbn [plain]. apply andb_true_iff; split.
- apply bool_decide_eq_true. unfold full_record, base_record.
  destruct (recovered e), (1 <? merged e); apply (bool_decide_unpack _); vm_compute; exact I.
- unfold full_record, base_record. rewrite !forallb_app. cbn [forallb plain fst snd].
  rewrite Ha, Hs, Hi, Hb, Haf, Htt. destruct (recovered e), (1 <? merged e); vm_compute; reflexivity.
Qed.

Lemma change_of_loaded e : good_entry e → change_of_record (loaded (full_record e)) = Ok e.
Proof.
intros He. pose proof (full_record_plain e He) as Hp. cbn [plain] in Hp. to_prop.
destruct He as [Hid Ht [Ha _] [Hs _] [Hh Hh']%andb_true_iff Hm [Hst Hbi]].
unfold change_of_record, field_or. rewrite !field_loaded by done.
assert (∀ r m, field "change_id" (base_record e ++ r ++ m) = Some (JStr (change_id e))
  ∧ field "action" (base_record e ++ r ++ m) = Some (JStr (action e))
  ∧ field "subject" (base_record e ++ r ++ m) = Some (JStr (subject e))
  ∧ field "at" (base_record e ++ r ++ m) = Some (JStr (time_text (at_time e)))
  ∧ field "before" (base_record e ++ r ++ m) = Some (of_opt (before_hash e))
  ∧ field "after" (base_record e ++ r ++ m) = Some (of_opt (after_hash e))) as Hf.
{ intros r m. unfold base_record. split_and!; by get_fields. }
unfold full_record. destruct (Hf (if recovered e then [(u "recovered", JBool true)] else [])
  (if 1 <? merged e then [(u "merged", JInt (merged e))] else [])) as (-> & -> & -> & -> & -> & ->).
cbn [fmap option_fmap option_map normal default]. rewrite Hid, parse_time_text by done.
cbn [mbind result_bind]. unfold id. rewrite !validate_of_opt by done. cbn [mbind result_bind].
assert (field "recovered" (full_record e) = (if recovered e then Some (JBool true) else None)
  ∧ field "merged" (full_record e) = (if 1 <? merged e then Some (JInt (merged e)) else None)) as [Hr Hmm].
{ unfold full_record, base_record. destruct (recovered e), (1 <? merged e); split; by get_fields. }
unfold full_record in Hr, Hmm. rewrite Hr, Hmm. destruct e as [? ? ? ? ? ? ? ? rec mg]. cbn in *. subst.
destruct (Z.ltb_spec 1 mg); cbn.
- rewrite (proj2 (Z.ltb_ge mg 1)) by lia. cbn. by destruct rec.
- assert (mg = 1) as -> by lia. by destruct rec.
Qed.

(** ** Commits and checkpoints *)

Lemma commit_record_plain at_ ids oc bid h :
scalars at_ = true → forallb scalars ids = true → check_backup_id oc bid = true → is_sha256 h = true →
plain (JObj (commit_record at_ ids oc bid h)) = true.
Proof.
intros Ha Hids Hb [Hh _]%sha256_scalars. cbn [plain]. apply andb_true_iff; split.
- apply (bool_decide_unpack _). unfold commit_record. vm_compute. exact I.
- unfold commit_record. cbn [forallb fst snd plain]. rewrite Ha, Hh.
  assert (forallb plain (JStr <$> ids) = true) as ->.
  { clear -Hids. induction ids as [|i ids IH]; [done|]. cbn in *. to_prop. rewrite H. by apply IH. }
  assert (plain (of_opt bid) = true) as ->.
  { destruct oc, bid as [b|]; cbn in *; try done. by apply backup_id_scalars. }
  by destruct oc.
Qed.

Lemma json_texts_strings (ids : list ustr) : json_texts (JStr <$> ids) = ids.
Proof. induction ids as [|i ids IH]; [done|]. cbn. unfold json_texts in IH. by rewrite IH. Qed.
Lemma normal_strings (ids : list ustr) : normal <$> (JStr <$> ids) = JStr <$> ids.
Proof. rewrite <-list_fmap_compose. by apply list_fmap_ext. Qed.

Lemma commit_fields at_ ids oc bid h :
let rec := commit_record at_ ids oc bid h in
field "type" rec = Some (JStr (u "commit")) ∧ field "outcome" rec = Some (JStr (outcome_text oc))
∧ field "change_ids" rec = Some (JList (JStr <$> ids)) ∧ field "config_hash" rec = Some (JStr h)
∧ field "backup_id" rec = Some (of_opt bid).
Proof. unfold commit_record. cbv zeta. split_and!; by get_fields. Qed.

Lemma commit_of_loaded at_ ids oc bid h :
scalars at_ = true → forallb scalars ids = true → check_backup_id oc bid = true → is_sha256 h = true →
commit_of_record (loaded (commit_record at_ ids oc bid h)) = Ok (oc, ids, Some h, bid).
Proof.
intros Ha Hids Hb Hh. pose proof (commit_record_plain _ _ _ _ _ Ha Hids Hb Hh) as Hp. cbn [plain] in Hp. to_prop.
unfold commit_of_record. destruct (commit_fields at_ ids oc bid h) as (_ & Fo & Fi & Fh & Fb).
rewrite !field_loaded, Fo, Fi, Fh, Fb by done. cbn [fmap option_fmap option_map normal].
rewrite normal_strings. cbn [validate_hash]. rewrite Hh. cbn [mbind result_bind].
rewrite json_texts_strings. destruct oc, bid as [b|]; cbn [check_backup_id] in Hb; try done.
- cbn [outcome_text of_opt normal]. by rewrite bool_decide_eq_true_2, Hb by done.
Qed.

Lemma checkpoint_record_plain at_ h id :
scalars at_ = true → check_hash h = true → from_option is_backup_id true id = true →
plain (JObj (checkpoint_record at_ h id)) = true.
Proof.
intros Ha Hh Hid. cbn [plain]. apply andb_true_iff; split.
- apply (bool_decide_unpack _). unfold checkpoint_record. vm_compute. exact I.
- unfold checkpoint_record. cbn [forallb fst snd plain]. rewrite Ha, (plain_of_opt _ Hh). destruct id as [i|]; cbn in *; [|done].
  by rewrite (proj1 (backup_id_scalars _ Hid)).
Qed.

(** ** A written line *)

Inductive written :=
| WChange (e : JournalEntry)
| WCommit (at_ : datetime) (ids : list ustr) (oc : CommitOutcome) (bid : option ustr) (h : ustr)
| WCheckpoint (at_ : datetime) (h id : option ustr).
Definition written_record (w : written) : jdict :=
match w with
| WChange e => full_record e
| WCommit t ids oc bid h => commit_record (time_text t) ids oc bid h
| WCheckpoint t h id => checkpoint_record (time_text t) h id
end.
Definition good_written (w : written) : Prop :=
match w with
| WChange e => good_entry e
| WCommit t ids oc bid h =>
    is_utc t ∧ forallb scalars ids = true ∧ check_backup_id oc bid = true ∧ is_sha256 h = true
| WCheckpoint t h id => is_utc t ∧ check_hash h = true ∧ from_option is_backup_id true id = true
end.
Definition effect (w : written) (s : journal_state) : journal_state :=
match w with
| WChange e => with_change (change_id e) e s
| WCommit _ ids oc bid h =>
    let s := with_commit ids oc bid (loaded (written_record w)) s in
    match oc with backup => with_last_backup (Some h) bid s | noop => s end
| WCheckpoint _ h id => with_last_backup h id s
end.

Lemma time_scalars t : is_utc t → scalars (time_text t) = true.
Proof. intros Ht. by apply printable_scalars, time_text_spec. Qed.
Lemma written_plain w : good_written w → plain (JObj (written_record w)) = true.
Proof.
destruct w; cbn [good_written written_record].
- apply full_record_plain.
- intros (Ht & ? & ? & ?). apply commit_record_plain; try done. by apply time_scalars.
- intros (Ht & ? & ?). apply checkpoint_record_plain; try done. by apply time_scalars.
Qed.

Lemma apply_written s w : good_written w → apply_record s (loaded (written_record w)) = Ok (Some (effect w s)).
Proof.
intros Hw. pose proof (written_plain w Hw) as Hp. cbn [plain] in Hp. to_prop. unfold apply_record.
destruct w as [e|t ids oc bid h|t h bid]; cbn [good_written] in Hw.
- rewrite field_loaded by done.
  assert (field "type" (written_record (WChange e)) = Some (JStr (u "change"))) as ->.
  { cbn [written_record]. unfold full_record, base_record. by get_fields. }
  cbn [fmap option_fmap option_map normal]. rewrite bool_decide_eq_true_2 by done.
  cbn [written_record]. by rewrite change_of_loaded.
- destruct Hw as (Ht & Hids & Hb & Hh). rewrite field_loaded by done. cbn [written_record].
  destruct (commit_fields (time_text t) ids oc bid h) as (-> & _). cbn [fmap option_fmap option_map normal].
  rewrite bool_decide_eq_false_2, bool_decide_eq_true_2 by done.
  rewrite commit_of_loaded by (try done; by apply time_scalars). done.
- destruct Hw as (Ht & Hh & Hid). unfold field_or. rewrite !field_loaded by done. cbn [written_record].
  assert (field "type" (checkpoint_record (time_text t) h bid) = Some (JStr (u "checkpoint"))
    ∧ field "last_backup_hash" (checkpoint_record (time_text t) h bid) = Some (of_opt h)
    ∧ field "last_backup_id" (checkpoint_record (time_text t) h bid) = Some (of_opt bid)) as (-> & -> & ->).
  { unfold checkpoint_record. split_and!; by get_fields. }
  cbn [fmap option_fmap option_map normal default]. rewrite !bool_decide_eq_false_2, bool_decide_eq_true_2 by done.
  unfold id. rewrite validate_of_opt by done. by destruct bid.
Qed.

(** [l] is the line of [w]. *)
Definition line_of (w : written) (l : ustr) : Prop :=
good_written w ∧ stable_json (JObj (written_record w)) = Ok l ∧ ulen l <= MAX_LINE_BYTES.

Lemma line_printable w l : line_of w l → Forall printable l.
Proof. intros (Hw & Hl & _). eapply dumps_printable; [by apply written_plain|done]. Qed.
Lemma printable_one_line l : Forall printable l → one_line l.
Proof. intros H Hin. rewrite Forall_forall in H. apply H in Hin. unfold printable, newline in Hin. lia. Qed.
Lemma line_cons w l : line_of w l → ∃ j, l = 123 :: j.
Proof. intros (_ & Hl & _). by apply starts_object in Hl. Qed.

Lemma try_written s w l : line_of w l → try_line s l = Ok (Some (effect w s)).
Proof.
intros (Hw & Hl & Hlen). unfold try_line, line_record. rewrite (proj2 (Z.leb_le _ _)) by done.
rewrite (loads_dumps _ _ _ (written_plain w Hw) Hl). change (normal (JObj ?m)) with (JObj (loaded m)).
by apply apply_written.
Qed.
Lemma apply_line_written n w l s : line_of w l → apply_line n l s = Ok (effect w s).
Proof.
intros Hl. unfold apply_line. rewrite (try_written s w l Hl). destruct (line_cons w l Hl) as (j & ->). done.
Qed.

(** What a cut leaves of a line. *)
Definition torn (p : list Z) : Prop := p ≠ [] ∧ ∃ w q, q ≠ [] ∧ line_of w (p ++ q).
Lemma torn_printable p : torn p → Forall printable p.
Proof. intros (_ & w & q & _ & Hl). apply line_printable in Hl. by apply Forall_app in Hl as [? _]. Qed.
Lemma torn_cons p : torn p → ∃ j, p = 123 :: j.
Proof.
intros (Hne & w & q & _ & Hl). apply line_cons in Hl as (j & Hj). destruct p as [|c p]; [done|].
injection Hj as -> _. by eexists.
Qed.
Lemma try_torn s p : torn p → try_line s p = Ok None.
Proof.
intros (_ & w & q & Hq & Hw & Hl & Hlen). unfold try_line, line_record.
destruct (ulen p <=? MAX_LINE_BYTES); [|done]. by rewrite (loads_prefix _ _ _ _ (written_plain w Hw) Hl Hq).
Qed.
Lemma apply_line_torn n p s : torn p → apply_line n p s = Ok (add_recovered_placeholder n p false s).
Proof.
intros Hp. unfold apply_line. rewrite (try_torn s p Hp). destruct (torn_cons p Hp) as (j & ->). done.
Qed.
Lemma apply_tail_torn n p s : torn p → apply_tail n p s = Ok (add_recovered_placeholder n p true s).
Proof.
intros Hp. unfold apply_tail. rewrite (try_torn s p Hp). by destruct (torn_cons p Hp) as (j & ->).
Qed.
Lemma apply_tail_written n w l s : line_of w l → 
apply_tail n l s = Ok (with_counts (corrupt_lines (effect w s)) (ulen l) (effect w s)).
Proof.
intros Hl. unfold apply_tail. rewrite (try_written s w l Hl). by destruct (line_cons w l Hl) as (j & ->).
Qed.
End records.
