(* ===== verification/JournalStates.v ===== *)
(** * States of the journal

    What a file says about its changes: [owed] lists the entries no commit names,
    in their order.  States that differ only in the wording of recovered entries
    and in the damage counters are equivalent ([sim]); every update respects
    this. *)

From S2P Require Import Prelude PyStr Calendar Json JsonProofs Journal JournalLines JournalRecords.
#[local] Open Scope Z_scope.
#[local] Open Scope list_scope.

(** ** Well-formed states, before the commits are applied *)

Record raw_ok (s : journal_state) : Prop := {
  raw_nodup : NoDup (order s);
  raw_order : ∀ id, id ∈ order s ↔ is_Some (changes s !! id);
  raw_entry : ∀ id e, changes s !! id = Some e →
    change_id e = id ∧ status e = pending_status ∧ entry_backup_id e = None;
}.

Definition is_open (s : journal_state) (id : ustr) : bool := bool_decide (commits s !! id = None).
Definition open_ids (s : journal_state) : list ustr := List.filter (is_open s) (order s).
Definition owed (s : journal_state) : list JournalEntry := entries_of s (open_ids s).

Lemma raw_ok_empty : raw_ok empty_state.
Proof.
  split; cbn; [constructor| |done]. intros id. rewrite lookup_empty, elem_of_nil. split; [done|by intros [? ?]].
Qed.

Lemma raw_ok_with_change e s : raw_ok s → status e = pending_status → entry_backup_id e = None →
  raw_ok (with_change (change_id e) e s).
Proof.
  intros [Hn Ho He] Hst Hb. split; cbn.
  - case_bool_decide as Hs; [done|]. apply NoDup_app; split_and!; [done| |apply NoDup_singleton].
    intros id Hid ->%list_elem_of_singleton. by apply Hs, Ho.
  - intros id. rewrite lookup_insert_is_Some'. case_bool_decide as Hs.
    + rewrite Ho. split; [by right|]. intros [<-|?]; done.
    + rewrite elem_of_app, list_elem_of_singleton, Ho. split; intros [?|?]; auto.
  - intros id e'. rewrite lookup_insert_Some. intros [[<- <-]|[_ H]]; [done|by apply He].
Qed.
Lemma raw_ok_changes s s' : changes s' = changes s → order s' = order s → raw_ok s → raw_ok s'.
Proof. intros Hc Ho [H1 H2 H3]. split; rewrite ?Ho, ?Hc; done. Qed.
Section states.
Context {RT : Runtime}.

Lemma raw_ok_placeholder n raw t s : raw_ok s → raw_ok (add_recovered_placeholder n raw t s).
Proof.
  intros Hs. unfold add_recovered_placeholder.
  set (s1 := if t then _ else _). assert (changes s1 = changes s ∧ order s1 = order s) as [Hc Ho] by by destruct t.
  assert (raw_ok s1) as Hs1 by by apply (raw_ok_changes s).
  case_bool_decide as Hk; [done|].
  pose proof (raw_ok_with_change (recovered_entry n raw t) s1 Hs1 eq_refl eq_refl) as H.
  unfold with_change in H. rewrite bool_decide_eq_false_2 in H by done. revert H. by apply raw_ok_changes.
Qed.


Lemma change_of_record_raw rec e : change_of_record rec = Ok e → status e = pending_status ∧ entry_backup_id e = None.
Proof.
unfold change_of_record. repeat case_match; try done. intros H'. inv_ok H'. by subst e.
Qed.
Lemma raw_ok_apply_record s rec s' : raw_ok s → apply_record s rec = Ok (Some s') → raw_ok s'.
Proof.
intros Hs. unfold apply_record. destruct (field "type" rec) as [[]|]; try done. case_bool_decide.
{ destruct (change_of_record rec) as [e|e] eqn:E; [|by destruct e]. intros [= <-].
  apply change_of_record_raw in E as [? ?]. by apply raw_ok_with_change. }
case_bool_decide.
{ destruct (commit_of_record rec) as [[[[oc ids] h] bid]|e] eqn:E; [|by destruct e]. intros [= <-].
  destruct oc; by apply (raw_ok_changes s). }
case_bool_decide; [|done].
destruct (validate_hash _) as [h|e]; [|by destruct e]. intros [= <-]. by apply (raw_ok_changes s).
Qed.
Lemma raw_ok_try_line s raw s' : raw_ok s → try_line s raw = Ok (Some s') → raw_ok s'.
Proof. unfold try_line. destruct (line_record raw); [|done]. apply raw_ok_apply_record. Qed.
Lemma raw_ok_apply_line n raw s s' : raw_ok s → apply_line n raw s = Ok s' → raw_ok s'.
Proof.
intros Hs. unfold apply_line. destruct (is_blank raw); [by intros [= <-]|].
destruct (try_line s raw) as [[s1|]|] eqn:E; cbn; [| |done]; intros [= <-].
- by eapply raw_ok_try_line.
- by apply raw_ok_placeholder.
Qed.
Lemma raw_ok_apply_lines ls n s s' : raw_ok s → apply_lines n ls s = Ok s' → raw_ok s'.
Proof.
revert n s; induction ls as [|l ls IH]; intros n s Hs; cbn; [by intros [= <-]|].
destruct (apply_line n l s) as [s1|] eqn:E; cbn; [|done]. apply IH. by eapply raw_ok_apply_line.
Qed.
Lemma raw_ok_apply_tail n t s s' : raw_ok s → apply_tail n t s = Ok s' → raw_ok s'.
Proof.
intros Hs. unfold apply_tail. destruct t as [|c t]; [by intros [= <-]|].
destruct (try_line s (c :: t)) as [[s1|]|] eqn:E; cbn; [| |done]; intros [= <-].
- eapply raw_ok_changes; [..|by eapply raw_ok_try_line]; done.
- by apply raw_ok_placeholder.
Qed.
Lemma raw_ok_parse_lines data s : parse_lines data = Ok s → raw_ok s.
Proof. apply raw_ok_apply_lines, raw_ok_empty. Qed.
Lemma raw_ok_parse data s : parse_records data = Ok s → raw_ok s.
Proof.
rewrite parse_records_tail. destruct (parse_lines data) as [s1|] eqn:E; cbn; [|done].
apply raw_ok_apply_tail. by apply raw_ok_parse_lines in E.
Qed.

(** ** What is pending *)

Lemma entries_of_cons s id ids : entries_of s (id :: ids) = option_list (changes s !! id) ++ entries_of s ids.
Proof. unfold entries_of. cbn. by destruct (changes s !! id). Qed.
Lemma entries_of_app s l1 l2 : entries_of s (l1 ++ l2) = entries_of s l1 ++ entries_of s l2.
Proof. apply omap_app. Qed.
Lemma entries_of_ext s s' ids : (∀ id, id ∈ ids → changes s !! id = changes s' !! id) → entries_of s ids = entries_of s' ids.
Proof.
intros H. induction ids as [|id ids IH]; [done|]. rewrite !entries_of_cons, H by left. f_equal.
apply IH. intros i Hi. apply H. by right.
Qed.
Lemma entries_of_ids s ids : raw_ok s → Forall (λ id, is_Some (changes s !! id)) ids →
change_id <$> entries_of s ids = ids.
Proof.
intros Hs. induction 1 as [|id ids [e He] _ IH]; [done|]. rewrite entries_of_cons, He. cbn. rewrite IH.
by destruct (raw_entry s Hs id e He) as [-> _].
Qed.

Lemma lookup_apply_commits s id : changes (apply_commits s) !! id =
(λ e, match commits s !! id with Some (oc, bid) => replace_status e oc bid | None => e end) <$> changes s !! id.
Proof. cbn. rewrite map_lookup_imap. by destruct (changes s !! id). Qed.

Lemma pending_apply_commits s : raw_ok s →
pending_ids (apply_commits s) = open_ids s ∧ entries_of (apply_commits s) (open_ids s) = owed s.
Proof.
intros Hs. split.
- unfold pending_ids, open_ids. change (order (apply_commits s)) with (order s).
  assert (∀ l, (∀ id, id ∈ l → is_Some (changes s !! id)) →
    List.filter (is_pending (apply_commits s)) l = List.filter (is_open s) l) as H.
  { induction l as [|id l IH]; intros Hl; [done|]. cbn. rewrite IH by (intros i Hi; apply Hl; by right).
    assert (is_pending (apply_commits s) id = is_open s id) as ->; [|done].
    unfold is_pending, is_open. rewrite lookup_apply_commits. destruct (Hl id) as [e He]; [left|]. rewrite He. cbn.
    destruct (raw_entry s Hs id e He) as (_ & Hst & _).
    destruct (commits s !! id) as [[oc bid]|]; [done|by rewrite Hst]. }
  apply H. intros id. by apply raw_order.
- unfold owed. apply entries_of_ext. intros id Hid. unfold open_ids in Hid. apply elem_of_filter_list in Hid as [_ Hid].
  unfold is_open in Hid. to_prop. rewrite lookup_apply_commits, Hid. by destruct (changes s !! id).
Qed.

(** What [pending] and [last_backup] read from a file. *)
Lemma pending_parse f data : read_bytes f = Ok data → pending f = owed <$> parse_records data.
Proof.
intros Hd. unfold pending, load, parse. rewrite Hd. cbn [mbind result_bind].
destruct (parse_records data) as [s|e] eqn:E; [|done]. cbn [fmap result_fmap mbind result_bind].
destruct (pending_apply_commits s) as [-> ->]; [by eapply raw_ok_parse|]. done.
Qed.
Lemma last_backup_parse f data : read_bytes f = Ok data →
last_backup f = (λ s, (last_backup_hash s, last_backup_id s)) <$> parse_records data.
Proof.
intros Hd. unfold last_backup, load, parse. rewrite Hd. cbn [mbind result_bind].
by destruct (parse_records data) as [s|e].
Qed.

(** ** Updates of what is owed *)

Lemma owed_with_change e s : raw_ok s → changes s !! change_id e = None → commits s !! change_id e = None →
owed (with_change (change_id e) e s) = owed s ++ [e].
Proof.
intros Hs Hc Hm. unfold owed, open_ids, with_change. cbn [order].
rewrite bool_decide_eq_false_2 by (rewrite Hc; by intros [? ?]).
rewrite List.filter_app, entries_of_app. f_equal.
- apply entries_of_ext. intros id Hid. cbn. rewrite lookup_insert_ne; [done|]. intros <-.
  apply elem_of_filter_list in Hid as [Hid _]. apply (raw_order s Hs) in Hid. rewrite Hc in Hid. by destruct Hid.
- cbn. unfold is_open. cbn. rewrite bool_decide_eq_true_2 by done. unfold entries_of. cbn. by rewrite lookup_insert_eq.
Qed.

Lemma fold_insert_lookup {V} (v : V) (ids : list ustr) (m : gmap ustr V) id :
fold_left (λ m id, <[id := v]> m) ids m !! id = if bool_decide (id ∈ ids) then Some v else m !! id.
Proof.
revert m; induction ids as [|i ids IH]; intros m; cbn; [done|]. rewrite IH.
case_bool_decide as H1; [rewrite bool_decide_eq_true_2 by (by right); done|].
destruct (decide (i = id)) as [->|Hne].
- rewrite lookup_insert_eq, bool_decide_eq_true_2 by left. done.
- rewrite lookup_insert_ne by done. rewrite bool_decide_eq_false_2; [done|].
  intros [?|?]%elem_of_cons; [by subst|done].
Qed.
Lemma owed_with_commit ids oc bid rec s : raw_ok s →
owed (with_commit ids oc bid rec s) = List.filter (λ e, negb (bool_decide (change_id e ∈ ids))) (owed s).
Proof.
intros Hs. unfold owed, open_ids. cbn [with_commit order].
assert (∀ l, (∀ id, id ∈ l → is_Some (changes s !! id)) →
  entries_of s (List.filter (is_open (with_commit ids oc bid rec s)) l)
  = List.filter (λ e, negb (bool_decide (change_id e ∈ ids))) (entries_of s (List.filter (is_open s) l))) as H.
{ induction l as [|id l IH]; intros Hl; [done|]. cbn [List.filter].
  destruct (Hl id) as [e He]; [left|]. specialize (IH ltac:(intros i Hi; apply Hl; by right)).
  destruct (raw_entry s Hs id e He) as (Hid & _).
  assert (is_open (with_commit ids oc bid rec s) id = is_open s id && negb (bool_decide (id ∈ ids))) as ->.
  { unfold is_open. cbn [with_commit commits]. rewrite fold_insert_lookup.
    destruct (bool_decide (id ∈ ids)); cbn; [|by rewrite andb_true_r].
    rewrite andb_false_r. done. }
  destruct (is_open s id); cbn [andb]; [|done]. rewrite entries_of_cons, He. cbn [option_list app List.filter].
  change (option_list (Some e) ++ ?l) with (e :: l). cbn [List.filter]. rewrite Hid. destruct (bool_decide (id ∈ ids)); cbn [negb]; [done|].
  rewrite entries_of_cons, He. cbn. by rewrite IH. }
change (entries_of (with_commit ids oc bid rec s)) with (entries_of s). apply H. intros id. by apply raw_order.
Qed.

Lemma owed_placeholder n raw t s : raw_ok s →
owed (add_recovered_placeholder n raw t s) = owed s
∨ owed (add_recovered_placeholder n raw t s) = owed s ++ [recovered_entry n raw t] ∧ changes s !! recovered_id n raw = None.
Proof.
intros Hs. unfold add_recovered_placeholder. set (s1 := if t then _ else _).
assert (changes s1 = changes s ∧ order s1 = order s ∧ commits s1 = commits s) as (Hc & Ho & Hm) by by destruct t.
assert (raw_ok s1) as Hs1 by by apply (raw_ok_changes s).
assert (owed s1 = owed s) as E1 by by destruct t. rewrite <-E1. clearbody s1.
case_bool_decide as Hk; [by left|].
assert (changes s !! recovered_id n raw = None) as Hfree by (rewrite <-Hc; by apply eq_None_not_Some).
generalize dependent (recovered_entry n raw t). intros e Hk.
assert (changes s1 !! change_id e = None) as Hnone by by apply eq_None_not_Some.
destruct (commits s1 !! change_id e) eqn:Em.
- left. unfold owed, open_ids. cbn [order with_changes]. rewrite List.filter_app.
  assert (is_open (with_changes (<[change_id e:=e]> (changes s1)) (order s1 ++ [change_id e]) s1) (change_id e) = false)
    as Hno by (apply bool_decide_eq_false; cbn [commits with_changes]; by rewrite Em).
  change (List.filter ?f [?x]) with (if f x then [x] else []). rewrite Hno, app_nil_r. apply entries_of_ext. intros id Hid. cbn.
  rewrite lookup_insert_ne; [done|]. intros <-. apply elem_of_filter_list in Hid as [Hid _].
  apply (raw_order s1 Hs1) in Hid. rewrite Hnone in Hid. by destruct Hid.
- right. split; [|done]. pose proof (owed_with_change e s1 Hs1 Hnone Em) as H. unfold with_change in H.
  by rewrite bool_decide_eq_false_2 in H by done.
Qed.
End states.

(** ** Equivalent states *)

(** The wording of a recovered entry says whether its line was the last one. *)
Definition forget (e : JournalEntry) : JournalEntry :=
  if recovered e
  then mkEntry (change_id e) (at_time e) (action e) [] (before_hash e) (after_hash e) (status e)
         (entry_backup_id e) (recovered e) (merged e)
  else e.
Definition same_entry (e e' : JournalEntry) : Prop := forget e = forget e'.
#[export] Instance same_entry_equivalence : Equivalence same_entry.
Proof. unfold same_entry. split; [by intros ?|by intros ???|by intros ? ? ? -> ->]. Qed.

Lemma same_entry_id e e' : same_entry e e' →
  change_id e = change_id e' ∧ merged e = merged e' ∧ recovered e = recovered e'.
Proof.
  unfold same_entry, forget. destruct (recovered e) eqn:E, (recovered e') eqn:E'; intros H.
  - by injection H.
  - rewrite <-H in E'. cbn in E'. congruence.
  - rewrite H in E. cbn in E. congruence.
  - subst. done.
Qed.
Lemma forget_not_recovered e e' : recovered e = false → same_entry e e' → e = e'.
Proof.
  intros Hr H. destruct (same_entry_id _ _ H) as (_ & _ & Hr'). unfold same_entry, forget in H.
  by rewrite <-Hr', Hr in H.
Qed.

Record sim (s s' : journal_state) : Prop := {
  sim_changes : forget <$> changes s = forget <$> changes s';
  sim_order : order s = order s';
  sim_commits : commits s = commits s';
  sim_records : commit_records s = commit_records s';
  sim_last : last_backup_hash s = last_backup_hash s' ∧ last_backup_id s = last_backup_id s';
}.
#[export] Instance sim_equivalence : Equivalence sim.
Proof.
  split.
  - intros s. by split.
  - intros s s' []. by split; try done; split; symmetry; tauto.
  - intros s1 s2 s3 [? ? ? ? [? ?]] [? ? ? ? [? ?]]. split; try congruence. split; congruence.
Qed.

Lemma sim_lookup s s' id : sim s s' → forget <$> changes s !! id = forget <$> changes s' !! id.
Proof. intros [H _ _ _ _]. by rewrite <-!lookup_fmap, H. Qed.
Lemma sim_is_Some s s' id : sim s s' → is_Some (changes s !! id) ↔ is_Some (changes s' !! id).
Proof.
  intros H. pose proof (sim_lookup _ _ id H) as E. destruct (changes s !! id), (changes s' !! id);
    cbn in E; try done; split; by intros [? ?].
Qed.
Lemma sim_entries s s' ids : sim s s' → forget <$> entries_of s ids = forget <$> entries_of s' ids.
Proof.
  intros H. induction ids as [|id ids IH]; [done|]. rewrite !entries_of_cons, !fmap_app, IH. f_equal.
  pose proof (sim_lookup _ _ id H) as E. destruct (changes s !! id), (changes s' !! id); cbn in *; congruence.
Qed.
Lemma sim_open s s' : sim s s' → open_ids s = open_ids s'.
Proof. intros [_ Ho Hc _ _]. unfold open_ids, is_open. by rewrite Ho, Hc. Qed.
#[export] Instance owed_proper : Proper (sim ==> Forall2 same_entry) owed.
Proof.
  intros s s' H. unfold owed. rewrite (sim_open _ _ H). pose proof (sim_entries _ _ (open_ids s') H) as E.
  assert (Forall2 eq (forget <$> entries_of s (open_ids s')) (forget <$> entries_of s' (open_ids s'))) as HF
    by by rewrite E.
  by rewrite Forall2_fmap in HF.
Qed.

Lemma sim_with_change id e e' s s' : same_entry e e' → sim s s' → sim (with_change id e s) (with_change id e' s').
Proof.
  intros He H. pose proof (sim_is_Some _ _ id H) as Hs. destruct H as [Hc Ho Hm Hr Hl]. split; cbn; try done.
  - by rewrite !fmap_insert, Hc, He.
  - rewrite Ho. by rewrite (bool_decide_ext _ _ Hs).
Qed.
Lemma sim_counts a b s : sim (with_counts a b s) s.
Proof. by split. Qed.

Section sim.
Context {RT : Runtime}.

#[export] Instance effect_proper w : Proper (sim ==> sim) (effect w).
Proof.
intros s s' H. destruct w as [e|t ids oc bid h|t h id]; cbn [effect].
- by apply sim_with_change.
- destruct H as [Hc Ho Hm Hr [Hl Hl']]. destruct oc; split; cbn; try congruence; try (split; congruence).
- destruct H as [Hc Ho Hm Hr Hl]. by split.
Qed.
Definition effects (ws : list written) (s : journal_state) : journal_state := fold_left (λ s w, effect w s) ws s.
#[export] Instance effects_proper ws : Proper (sim ==> sim) (effects ws).
Proof. induction ws as [|w ws IH]; intros s s' H; [done|]. cbn. apply IH. by rewrite H. Qed.

(** The placeholder of a line, whatever its wording. *)
Lemma sim_placeholder n raw t t' s s' : sim s s' →
sim (add_recovered_placeholder n raw t s) (add_recovered_placeholder n raw t' s').
Proof.
intros H. unfold add_recovered_placeholder.
assert (∀ t s, sim (if t : bool then with_counts (corrupt_lines s) (ulen raw) s
  else with_counts (corrupt_lines s + 1) (torn_tail_bytes s) s) s) as Hcount by by intros [] ?.
set (s1 := if t then _ else _). set (s2 := if t' then _ else _).
assert (sim s1 s2) as H12 by (unfold s1, s2; by rewrite !Hcount). clearbody s1 s2.
change (change_id (recovered_entry n raw t)) with (recovered_id n raw).
change (change_id (recovered_entry n raw t')) with (recovered_id n raw).
pose proof (sim_with_change (recovered_id n raw) (recovered_entry n raw t) (recovered_entry n raw t') _ _ eq_refl H12) as Hw.
pose proof (sim_is_Some _ _ (recovered_id n raw) H12) as Hs. unfold with_change in Hw.
rewrite (bool_decide_ext _ _ Hs) in Hw |- *. case_bool_decide; [done|]. destruct Hw. by split.
Qed.

(** A tail reads the same once it is terminated, unless it is blank. *)
Lemma apply_tail_line n t s s1 : is_blank t = false → apply_tail n t s = Ok s1 →
∃ s2, apply_line n t s = Ok s2 ∧ sim s1 s2.
Proof.
intros Hb. unfold apply_tail, apply_line. rewrite Hb. destruct t as [|c t]; [done|].
destruct (try_line s (c :: t)) as [[s'|]|]; cbn; [| |done]; intros [= <-]; eexists; (split; [done|]).
- apply sim_counts.
- by apply sim_placeholder.
Qed.
End sim.
