(* ===== verification/JournalSafety.v ===== *)
(** * Appends, commits and crashes

    Whatever is in the file, and wherever a write stops: nothing that was pending
    is lost, what was acknowledged is there, and a write that was cut short leaves
    at most a recovered entry behind. *)

From S2P Require Import Prelude PyStr Calendar Json JsonProofs Journal JournalLines JournalExample JournalRecords JournalStates.
#[local] Open Scope Z_scope.
#[local] Open Scope list_scope.

Section writes.
Context {RT : Runtime} {RL : RuntimeLaws RT}.

Lemma lines_of ws lines :
Forall good_written ws → res_mapM (λ r, stable_json (JObj r)) (written_record <$> ws) = Ok lines →
existsb (λ l, MAX_LINE_BYTES <? ulen l) lines = false → Forall2 line_of ws lines.
Proof.
intros Hg E%res_mapM_Ok Hl. revert lines E Hl. induction Hg as [|w ws Hw _ IH]; intros lines E Hl.
- inversion E. constructor.
- inversion E as [|? l ? ls El Els]; subst. cbn in Hl. to_prop. constructor; [by split_and!|by apply IH].
Qed.
Lemma lines_one_line ws lines : Forall2 line_of ws lines → Forall one_line lines.
Proof. induction 1; constructor; [|done]. by eapply printable_one_line, line_printable. Qed.

Lemma apply_lines_written n ws lines s : Forall2 line_of ws lines → apply_lines n lines s = Ok (effects ws s).
Proof.
intros H. revert n s. induction H as [|w l ws lines Hl _ IH]; intros n s; [done|]. cbn.
rewrite (apply_line_written _ w) by done. cbn. apply IH.
Qed.

(** What a cut payload says: the first records, and perhaps a torn one. *)
Lemma parse_cut_payload data s ws lines n :
(split_lines data).2 = [] → parse_records data = Ok s → Forall2 line_of ws lines →
∃ k s', parse_records (data ++ take n (payload_of lines)) = Ok s' ∧ (k <= length ws)%nat
  ∧ (is_blank (split_lines (data ++ take n (payload_of lines))).2 = false ∨ (split_lines (data ++ take n (payload_of lines))).2 = [])
  ∧ (sim s' (effects (take k ws) s)
     ∨ (k < length ws)%nat ∧ ∃ m p, torn p ∧ sim s' (add_recovered_placeholder m p true (effects (take k ws) s)))
  ∧ ((length (payload_of lines) <= n)%nat →
     s' = effects ws s ∧ (split_lines (data ++ take n (payload_of lines))).2 = []).
Proof.
intros Ht Hs Hl. destruct (take_payload n lines) as (k & p & -> & Hk & Hp & Hall).
pose proof (Forall2_length _ _ _ Hl) as Hlen.
assert (Forall2 line_of (take k ws) (take k lines)) as Hlk by by apply Forall2_take.
assert (p = [] ∨ torn p ∨ ∃ w, ws !! k = Some w ∧ line_of w p) as Hcase.
{ destruct Hp as [->|(l & q & Hlk' & ->)]; [by left|].
  destruct (Forall2_lookup_r _ _ _ _ _ Hl Hlk') as (w & Hw & Hlw). destruct q as [|c q].
  - right. right. exists w. by rewrite app_nil_r in Hlw.
  - destruct p as [|d p]; [by left|]. right. left. split; [done|]. by exists w, (c :: q). }
assert (one_line p) as Hone.
{ destruct Hcase as [->|[Hp'|(w & _ & Hw)]]; [apply not_elem_of_nil| |].
  - by apply printable_one_line, torn_printable. - by eapply printable_one_line, line_printable. }
destruct (parse_lines_payload data (take k lines) p Ht (lines_one_line _ _ Hlk) Hone) as (E1 & E2 & E3).
rewrite parse_records_tail, Ht in Hs. destruct (parse_lines data) as [s0|] eqn:E0; [|done]. cbn in Hs. injection Hs as ->.
setoid_rewrite parse_records_tail. rewrite E1, E2, E3. cbn [mbind result_bind].
rewrite (apply_lines_written _ (take k ws)) by done. cbn [mbind result_bind].
destruct Hcase as [->|[Hp'|(w & Hw & Hlw)]].
- exists k, (effects (take k ws) s). split_and!; [done|lia|by right|by left|].
  intros Hn. split; [|done]. rewrite take_ge; [done|]. specialize (Hall Hn). lia.
- exists k. rewrite apply_tail_torn by done. eexists. split_and!; [done|lia| | |].
  + left. by destruct (torn_cons p Hp') as (j & ->).
  + right. split; [|by exists (next_line data + ulen (take k lines)), p].
    destruct Hp as [->|(l & q & Hlk' & _)]; [by destruct Hp'|]. apply lookup_lt_Some in Hlk'. unfold ustr in *. lia.
  + intros Hn. exfalso. specialize (Hall Hn). destruct Hp as [->|(l & q & Hlk' & _)]; [by destruct Hp'|].
    apply lookup_lt_Some in Hlk'. unfold ustr in *. lia.
- exists (S k). rewrite (apply_tail_written _ w) by done. eexists. split_and!; [done| | |left|].
  + apply lookup_lt_Some in Hw. lia.
  + left. by destruct (line_cons w p Hlw) as (j & ->).
  + rewrite (take_S_r _ _ _ Hw). unfold effects. rewrite fold_left_app. apply sim_counts.
  + intros Hn. specialize (Hall Hn). apply lookup_lt_Some in Hw. unfold ustr in *. lia.
Qed.

(** The tail of a file is readable: not only blanks, which no write leaves. *)
Definition readable_tail (data : list Z) : Prop :=
is_blank (split_lines data).2 = false ∨ (split_lines data).2 = [].
Definition contents (f : node) : option (list Z) :=
match f with Missing => Some [] | Regular data => Some data | Symlink | Directory => None end.
Lemma read_contents f data : contents f = Some data → read_bytes f = Ok data.
Proof. by destruct f; intros [= <-]. Qed.

Lemma terminate_parse data s : (split_lines data).2 ≠ [] → readable_tail data → parse_records data = Ok s →
∃ s1, parse_records (data ++ [newline]) = Ok s1 ∧ sim s s1 ∧ (split_lines (data ++ [newline])).2 = [].
Proof.
intros Ht Hr. rewrite !parse_records_tail. destruct (parse_lines_terminate data Ht) as (-> & -> & ->).
destruct (parse_lines data) as [s0|]; [|done]. cbn [mbind result_bind]. intros Hs.
destruct Hr as [Hb|?]; [|done]. destruct (apply_tail_line _ _ _ _ Hb Hs) as (s1 & -> & H). by exists s1.
Qed.

(** What an append of [ws] leaves, wherever it stopped; [done]: it returned. *)
Definition leaves (s : journal_state) (ws : list written) (f' : node) (done : Prop) : Prop :=
∃ data' k s', contents f' = Some data' ∧ readable_tail data' ∧ parse_records data' = Ok s' ∧ (k <= length ws)%nat
∧ (sim s' (effects (take k ws) s) ∨ (k < length ws)%nat ∧ ∃ m p, torn p ∧ sim s' (add_recovered_placeholder m p true (effects (take k ws) s)))
∧ (done → f' = Regular data' ∧ (split_lines data').2 = [] ∧ sim s' (effects ws s)).

Lemma leaves_unchanged f data s ws (P : Prop) :
contents f = Some data → readable_tail data → parse_records data = Ok s → ¬ P → leaves s ws f P.
Proof. intros Hf Hr Hs HP. exists data, 0%nat, s. split_and!; try done; [lia|]. by left. Qed.
Lemma leaves_weaken s ws f' (P Q : Prop) : (Q → P) → leaves s ws f' P → leaves s ws f' Q.
Proof. intros H (data' & k & s' & ? & ? & ? & ? & ? & Hd). exists data', k, s'. split_and!; auto. Qed.

(** The newline that terminates a torn tail, if there is one. *)
Definition terminator (data : list Z) : list Z := if has_torn_tail data then [newline] else [].
Lemma terminator_parse data s : readable_tail data → parse_records data = Ok s →
∃ s1, parse_records (data ++ terminator data) = Ok s1 ∧ sim s s1 ∧ (split_lines (data ++ terminator data)).2 = [].
Proof.
intros Hr Hs. unfold terminator. rewrite torn_tail_split. case_bool_decide as Ht; cbn [negb].
- exists s. by rewrite app_nil_r.
- by apply terminate_parse.
Qed.

Lemma cut_leaves data s ws lines n :
readable_tail data → parse_records data = Ok s → Forall2 line_of ws lines →
leaves s ws (Regular (data ++ take n (terminator data ++ payload_of lines)))
  (length (terminator data ++ payload_of lines) <= n)%nat.
Proof.
intros Hr Hs Hl. destruct (terminator_parse data s Hr Hs) as (s1 & Hs1 & Hsim & Ht1).
destruct (Nat.lt_ge_cases n (length (terminator data))) as [Hn|Hn].
- rewrite take_app_le by lia.
  assert (take n (terminator data) = []) as ->.
  { unfold terminator in *. destruct (has_torn_tail data); cbn in *; [by replace n with 0%nat by lia|lia]. }
  rewrite app_nil_r. eapply leaves_unchanged; try done. rewrite length_app. lia.
- rewrite take_app_ge by done. rewrite (assoc_L (++)).
  destruct (parse_cut_payload _ s1 ws lines (n - length (terminator data)) Ht1 Hs1 Hl) as (k & s' & Hp & Hk & Hrt & Hcase & Hall).
  eexists _, k, s'. split_and!; try done.
  + destruct Hcase as [H|(Hk' & m & p & Hpt & H)]; [left|right; split; [done|]; exists m, p; split; [done|]]; rewrite H.
    * by rewrite Hsim.
    * apply sim_placeholder. by rewrite Hsim.
  + rewrite length_app. intros Hle. destruct Hall as [-> Htl]; [lia|]. split_and!; [done|done|]. by rewrite Hsim.
Qed.

Lemma append_records_leaves f data s ws fault r f' :
contents f = Some data → readable_tail data → parse_records data = Ok s → Forall good_written ws →
append_records fault (written_record <$> ws) f = (r, f') → leaves s ws f' (r = Ok tt).
Proof.
intros Hf Hr Hs Hg. unfold append_records.
assert (∀ e : py_exn, (Err e, f) = (r, f') → leaves s ws f' (r = Ok tt)) as Hsame.
{ intros e [= <- <-]. by eapply leaves_unchanged. }
destruct (res_mapM _ _) as [lines|e] eqn:El; [|by apply Hsame].
destruct (existsb (λ l, MAX_LINE_BYTES <? ulen l) lines) eqn:Eb; [by apply Hsame|].
pose proof (lines_of ws lines Hg El Eb) as Hl. clear El Eb.
pose proof (λ n, cut_leaves data s ws lines n Hr Hs Hl) as Hcut.
assert (match fault with
  | no_fault => (Ok tt, Regular (data ++ terminator data ++ payload_of lines))
  | open_fails => (Err OSError, f)
  | stops_after n => (Err OSError, Regular (data ++ take n (terminator data ++ payload_of lines)))
  end = (r, f') → leaves s ws f' (r = Ok tt)) as Hwrite.
{ destruct fault as [| |n]; [|by apply Hsame|].
  - intros [= <- <-]. specialize (Hcut (length (terminator data ++ payload_of lines))).
    rewrite take_ge in Hcut by done.
    eapply leaves_weaken; [|exact Hcut]. done.
  - intros [= <- <-]. eapply leaves_weaken; [|exact (Hcut n)]. done. }
destruct f as [|d| |]; try done; injection Hf as <-; exact Hwrite.
Qed.

(** ** Effects on what is pending *)

Lemma raw_ok_effect w s : good_written w → raw_ok s → raw_ok (effect w s).
Proof.
intros Hw Hs. destruct w as [e|t ids oc bid h|t h id]; cbn [effect good_written] in *.
- apply raw_ok_with_change; [done|..]; apply Hw.
- destruct oc; by apply (raw_ok_changes s).
- by apply (raw_ok_changes s).
Qed.
Lemma raw_ok_effects ws s : Forall good_written ws → raw_ok s → raw_ok (effects ws s).
Proof. intros Hw. revert s. induction Hw as [|w ws Hw _ IH]; intros s Hs; [done|]. by apply IH, raw_ok_effect. Qed.

(** The ids a record closes. *)
Definition closes (w : written) : list ustr := match w with WCommit _ ids _ _ _ => ids | _ => [] end.
Definition is_commit_or_checkpoint (w : written) : Prop := match w with WChange _ => False | _ => True end.
Definition still_open (ids : list ustr) (l : list JournalEntry) : list JournalEntry :=
List.filter (λ e, negb (bool_decide (change_id e ∈ ids))) l.

Lemma still_open_app ids1 ids2 l : still_open ids2 (still_open ids1 l) = still_open (ids1 ++ ids2) l.
Proof.
unfold still_open. induction l as [|e l IH]; [done|]. cbn.
assert (bool_decide (change_id e ∈ ids1 ++ ids2) = bool_decide (change_id e ∈ ids1) || bool_decide (change_id e ∈ ids2)) as ->.
{ rewrite <-bool_decide_or. apply bool_decide_ext, elem_of_app. }
destruct (bool_decide (change_id e ∈ ids1)); cbn; [done|]. destruct (bool_decide (change_id e ∈ ids2)); cbn; by rewrite IH.
Qed.
Lemma still_open_nil l : still_open [] l = l.
Proof. unfold still_open. apply filter_all, Forall_true. intros e. by rewrite bool_decide_eq_false_2 by apply not_elem_of_nil. Qed.

Lemma owed_commits ws s : Forall good_written ws → Forall is_commit_or_checkpoint ws → raw_ok s →
owed (effects ws s) = still_open (ws ≫= closes) (owed s).
Proof.
intros Hg Hc. revert s. induction Hc as [|w ws Hw _ IH]; intros s Hs; [by rewrite still_open_nil|].
inversion Hg; subst. cbn [effects fold_left]. change (fold_left _ ws ?s) with (effects ws s).
rewrite IH by (try done; by apply raw_ok_effect). change ((w :: ws) ≫= closes) with (closes w ++ (ws ≫= closes)).
rewrite <-still_open_app. f_equal. destruct w as [e|t ids oc bid h|t h id]; [done| |].
- cbn [effect closes]. transitivity (owed (with_commit ids oc bid (loaded (written_record (WCommit t ids oc bid h))) s)).
  + by destruct oc.
  + by rewrite owed_with_commit.
- cbn [effect closes]. by rewrite still_open_nil.
Qed.

(** ** Files *)

Definition last_of (s : journal_state) : option ustr * option ustr := (last_backup_hash s, last_backup_id s).
Lemma placeholder_last n p t s : last_of (add_recovered_placeholder n p t s) = last_of s.
Proof. unfold add_recovered_placeholder. destruct t; case_bool_decide; done. Qed.
Lemma sim_last_of s s' : sim s s' → last_of s = last_of s'.
Proof. intros [_ _ _ _ [H1 H2]]. unfold last_of. congruence. Qed.

Definition readable (f : node) : Prop := ∀ data, contents f = Some data → readable_tail data.
Lemma pending_contents f l : pending f = Ok l → ∃ data s, contents f = Some data ∧ parse_records data = Ok s
∧ raw_ok s ∧ l = owed s ∧ last_backup f = Ok (last_of s).
Proof.
intros H. destruct (contents f) as [data|] eqn:E; [|by destruct f].
pose proof (read_contents f data E) as Hr. rewrite (pending_parse f data Hr) in H.
rewrite (last_backup_parse f data Hr). destruct (parse_records data) as [s|] eqn:Es; [|done]. injection H as <-.
exists data, s. split_and!; try done. by eapply raw_ok_parse.
Qed.
Lemma contents_pending f data s : contents f = Some data → parse_records data = Ok s →
pending f = Ok (owed s) ∧ last_backup f = Ok (last_of s).
Proof.
intros H Hs. pose proof (read_contents f data H) as Hr.
by rewrite (pending_parse f data Hr), (last_backup_parse f data Hr), Hs.
Qed.

(** What a cut append leaves pending. *)
Lemma leaves_pending s ws f' (P : Prop) `{!Decision P} : raw_ok s → Forall good_written ws → leaves s ws f' P →
∃ k news extra, (k <= length ws)%nat ∧ pending f' = Ok news ∧ readable f'
∧ Forall2 same_entry news (owed (effects (take k ws) s) ++ extra)
∧ (extra = [] ∨ (k < length ws)%nat ∧ ∃ m p, extra = [recovered_entry m p true]
   ∧ changes (effects (take k ws) s) !! recovered_id m p = None)
∧ last_backup f' = Ok (last_of (effects (take k ws) s))
∧ (P → k = length ws ∧ extra = []).
Proof.
intros Hs Hg (data' & k & s' & Hc & Hr & Hp & Hk & Hcase & HP).
destruct (contents_pending f' data' s' Hc Hp) as [Ep El].
assert (readable f') as Hrf by (intros d Hd; congruence).
destruct (decide P) as [H|H].
{ destruct (HP H) as (_ & _ & Hsim). exists (length ws), (owed s'), []. rewrite app_nil_r, take_ge by done.
  split_and!; try done; [by rewrite Hsim|by left|]. by rewrite El, (sim_last_of _ _ Hsim). }
assert (raw_ok (effects (take k ws) s)) as Hraw by (apply raw_ok_effects; [by apply Forall_take|done]).
destruct Hcase as [Hsim|(Hk' & m & p & _ & Hsim)].
- exists k, (owed s'), []. rewrite app_nil_r.
  split_and!; try done; [by rewrite Hsim|by left|]. by rewrite El, (sim_last_of _ _ Hsim).
- assert (∃ extra, owed (add_recovered_placeholder m p true (effects (take k ws) s)) = owed (effects (take k ws) s) ++ extra
    ∧ (extra = [] ∨ ∃ m p, extra = [recovered_entry m p true]
        ∧ changes (effects (take k ws) s) !! recovered_id m p = None)) as (extra & Ex & Hx).
  { destruct (owed_placeholder m p true _ Hraw) as [-> | [-> Hnew]]; [exists []|exists [recovered_entry m p true]].
    - rewrite app_nil_r. auto. - eauto 6. }
  exists k, (owed s'), extra. split_and!; try done; [|tauto|].
  + rewrite <-Ex. by rewrite Hsim.
  + by rewrite El, (sim_last_of _ _ Hsim), placeholder_last.
Qed.

(** ** Room in the file *)

(** [n] more lines do not make the file larger than its budget. *)
Definition roomy (c : ChangeJournal) (f : node) (n : Z) : Prop := size_of f + n * (MAX_LINE_BYTES + 1) + 1 <= max_bytes c.

Lemma payload_size (lines : list ustr) : existsb (λ l, MAX_LINE_BYTES <? ulen l) lines = false →
ulen (payload_of lines) <= ulen lines * (MAX_LINE_BYTES + 1).
Proof.
unfold payload_of. induction lines as [|l lines IH]; [done|]. cbn [existsb]. intros H. to_prop.
change ((l :: lines) ≫= ?f) with (f l ++ (lines ≫= f)). specialize (IH H0). unfold ulen in *. cbn [length] in *.
rewrite !length_app. cbn [length]. unfold MAX_LINE_BYTES in *. lia.
Qed.
Lemma append_records_size fault records f :
size_of (append_records fault records f).2 <= size_of f + ulen records * (MAX_LINE_BYTES + 1) + 1.
Proof.
unfold append_records. assert (0 <= ulen records * (MAX_LINE_BYTES + 1)) by (unfold ulen, MAX_LINE_BYTES; lia).
destruct (res_mapM _ _) as [lines|e] eqn:El; [|cbn; lia].
destruct (existsb (λ l, MAX_LINE_BYTES <? ulen l) lines) eqn:Eb; [cbn; lia|].
apply payload_size in Eb. apply res_mapM_Ok, Forall2_length in El.
assert (ulen lines = ulen records) as E by (unfold ulen; f_equal; symmetry; exact El). rewrite E in Eb.
assert (∀ data n, ulen (data ++ take n ((if has_torn_tail data then [newline] else []) ++ payload_of lines))
  <= ulen data + ulen records * (MAX_LINE_BYTES + 1) + 1) as Hn.
{ intros data n. unfold ulen in *. rewrite length_app, length_take, length_app. destruct (has_torn_tail data); cbn [length]; lia. }
destruct f as [|d| |]; cbn [snd size_of]; try lia; destruct fault as [| |n]; cbn [snd size_of]; try lia.
- specialize (Hn [] (length (payload_of lines))). cbn [app] in Hn. rewrite take_ge in Hn by done. cbn in *. lia.
- apply (Hn [] n).
- specialize (Hn d (length ((if has_torn_tail d then [newline] else []) ++ payload_of lines))).
  by rewrite take_ge in Hn by done.
- apply Hn.
Qed.
Lemma append_roomy c fault cfault t tok records f : roomy c f (ulen records) →
append_and_compact c fault cfault t tok records f = append_records fault records f.
Proof.
intros Hr. unfold append_and_compact. pose proof (append_records_size fault records f) as Hs.
destruct (append_records fault records f) as [[[]|e] f']; [|done]. cbn [snd] in Hs. unfold roomy in Hr.
by rewrite (proj2 (Z.ltb_ge _ _)) by lia.
Qed.

(** ** New entries and chunks of a commit *)

(** The id is not in the file, neither as a change nor in a commit. *)
Definition unknown_id (f : node) (id : ustr) : Prop :=
∀ data s, contents f = Some data → parse_records data = Ok s → changes s !! id = None ∧ commits s !! id = None.

(** The id is checked in the file there is. *)
Definition knows_not (f : node) (id : ustr) : bool :=
match contents f with
| Some data => match parse_records data with
               | Ok s => bool_decide (changes s !! id = None) && bool_decide (commits s !! id = None)
               | Err _ => true
               end
| None => true
end.
Lemma knows_not_spec f id : knows_not f id = true → unknown_id f id.
Proof.
intros H data s Hc Hs. unfold knows_not in H. rewrite Hc, Hs in H. to_prop. done.
Qed.

Definition ends_readable (f : node) : bool :=
match contents f with
| Some data => negb (is_blank (split_lines data).2) || bool_decide ((split_lines data).2 = [])
| None => true
end.
Lemma ends_readable_spec f : ends_readable f = true → readable f.
Proof.
intros H data Hc. unfold ends_readable in H. rewrite Hc in H. apply orb_true_iff in H as [H%negb_true_iff|H]; [by left|right].
by to_prop.
Qed.

(** The values a call gets from outside are of their kind: UTC times, and tokens
    of 32 hexadecimal digits. *)
Definition hex_token (tok : ustr) : Prop := forallb is_hex_lower tok = true ∧ length tok = 32%nat.
Record good_outside (o : outside) : Prop := {
  good_now : is_utc (now o);
  good_token : hex_token (token o);
  good_compact_now : is_utc (compact_now o);
  good_compact_token : hex_token (compact_token o);
}.
Lemma hex_token_id tok : hex_token tok → is_change_id (u "chg_" ++ tok) = true.
Proof.
intros [Hh Hl]. unfold is_change_id. rewrite strip_prefix_app, Hl. cbn [Nat.leb]. rewrite !andb_true_r.
rewrite forallb_forall in Hh |- *. intros c Hc. specialize (Hh c Hc). unfold is_hex_lower, is_lower_letter in *.
apply orb_true_iff in Hh as [->|H]; [done|]. apply between_true in H.
by rewrite (proj2 (between_true 97 122 c)), orb_true_r by lia.
Qed.

Lemma new_entry_good o act subj before after : good_outside o → is_action act = true → scalars subj = true →
ulen subj <= MAX_SUBJECT_CHARS → check_hash before && check_hash after = true →
good_entry (new_entry o act subj before after).
Proof.
intros [Hn Ht _ _] Ha Hs Hl Hh. split; cbn; try done.
- by apply (hex_token_id (token o)).
- by apply action_scalars.
- split; [done|]. unfold ulen, MAX_SUBJECT_CHARS in Hl. lia.
Qed.

Lemma chunks_concat fuel ids : (length ids < fuel)%nat → mjoin (chunks fuel ids) = ids ∧ (1 <= length (chunks fuel ids))%nat.
Proof.
revert ids; induction fuel as [|f IH]; intros ids Hf; [lia|]. cbn [chunks].
destruct (drop COMMIT_IDS_PER_RECORD ids) as [|i rest] eqn:E; [cbn; rewrite app_nil_r; split; [done|lia]|].
assert (length (i :: rest) < f)%nat as Hl.
{ rewrite <-E, length_drop. assert (drop COMMIT_IDS_PER_RECORD ids ≠ []) as Hne by by rewrite E.
  assert (length ids ≠ 0%nat) by (intros H0; apply length_zero_iff_nil in H0 as ->; by rewrite drop_nil in E).
  unfold COMMIT_IDS_PER_RECORD. lia. }
destruct (IH _ Hl) as [Hj _]. cbn [mjoin list_join]. cbn [length]. split; [|lia].
change (take COMMIT_IDS_PER_RECORD ids ++ mjoin (chunks f (i :: rest)) = ids). by rewrite Hj, <-E, take_drop.
Qed.

Definition chunk_commits (t : datetime) (cs : list (list ustr)) (oc : CommitOutcome) (bid : option ustr) (h : ustr) :
  list written := (λ ids, WCommit t ids oc bid h) <$> cs.
Lemma chunk_commits_closes t cs oc bid h : chunk_commits t cs oc bid h ≫= closes = mjoin cs.
Proof.
induction cs as [|c cs IH]; [done|]. change (c ++ (chunk_commits t cs oc bid h ≫= closes) = c ++ mjoin cs). by rewrite IH.
Qed.
Lemma chunk_commits_last t cs oc bid h s : check_backup_id oc bid = true →
last_of (effects (chunk_commits t cs oc bid h) s)
= match oc, cs with backup, _ :: _ => (Some h, bid) | _, _ => last_of s end.
Proof.
intros Hb. revert s. induction cs as [|c cs IH]; intros s; [by destruct oc|].
change (effects (chunk_commits t (c :: cs) oc bid h) s)
  with (effects (chunk_commits t cs oc bid h) (effect (WCommit t c oc bid h) s)).
rewrite IH. cbn [effect]. destruct oc, cs; done.
Qed.
Lemma chunk_commits_good t cs oc bid h : is_utc t → forallb scalars (mjoin cs) = true →
check_backup_id oc bid = true → is_sha256 h = true →
Forall good_written (chunk_commits t cs oc bid h) ∧ Forall is_commit_or_checkpoint (chunk_commits t cs oc bid h).
Proof.
intros Ht Hids Hb Hh. split; [|by apply Forall_fmap, Forall_true].
apply Forall_fmap, Forall_forall. intros chunk Hchunk. cbn. split_and!; try done.
rewrite forallb_forall in Hids |- *. intros id Hid%list_elem_of_In. apply Hids, list_elem_of_In.
apply list_elem_of_join. by exists chunk.
Qed.
Lemma commit_records_eq t cs oc bid h :
(λ chunk, commit_record (time_text t) chunk oc bid h) <$> cs = written_record <$> chunk_commits t cs oc bid h.
Proof. unfold chunk_commits. by rewrite <-list_fmap_compose. Qed.
Lemma mjoin_take_prefix {A} k (ls : list (list A)) : mjoin (take k ls) `prefix_of` mjoin ls.
Proof.
revert k; induction ls as [|l ls IH]; intros [|k]; cbn; try apply prefix_nil.
by apply prefix_app, IH.
Qed.
End writes.

(** ** Properties *)

(** [C6] No crash loses a change: whatever bytes the file holds, as long as it can
    be read and has room, and wherever the write of a new entry stops, everything
    that was pending still is, in the same order, followed by at most one entry
    that is new: the change itself, always when the call returned it, or a
    recovered entry for the torn line.  The last backup is as before. *)
Theorem journal_append_crash_safe {RT : Runtime} {RL : RuntimeLaws RT} c o act subj before after f r f' olds
    (Ho : good_outside o) (Hsubj : scalars subj = true) (Hold : pending f = Ok olds) (Hf : readable f)
    (Hid : unknown_id f (u "chg_" ++ token o)) (Hroom : roomy c f 1)
    (Happ : append c o act subj before after f = (r, f')) :
  let e := new_entry o act subj before after in
  ∃ news extra, pending f' = Ok news ∧ readable f' ∧ last_backup f' = last_backup f
  ∧ Forall2 same_entry news (olds ++ extra)
  ∧ (extra = [] ∨ extra = [e] ∨ ∃ n p, extra = [recovered_entry n p true])
  ∧ ∀ e', r = Ok e' → e' = e ∧ extra = [e].
Proof.
  intros e. destruct (pending_contents f olds Hold) as (data & s & Hc & Hs & Hraw & -> & Hlast).
  assert ((r, f') = (Err ValueError, f) → ∃ news extra, pending f' = Ok news ∧ readable f' ∧ last_backup f' = last_backup f
    ∧ Forall2 same_entry news (owed s ++ extra)
    ∧ (extra = [] ∨ extra = [e] ∨ ∃ n p, extra = [recovered_entry n p true])
    ∧ ∀ e', r = Ok e' → e' = e ∧ extra = [e]) as Hsame.
  { intros [= -> ->]. exists (owed s), []. rewrite app_nil_r. split_and!; try done. by left. }
  unfold append in Happ. destruct (is_action act) eqn:Ea; [|by apply Hsame].
  destruct (Z.ltb_spec MAX_SUBJECT_CHARS (ulen subj)); [by apply Hsame|].
  destruct (check_hash before && check_hash after) eqn:Eh; [|by apply Hsame]. cbn [negb] in Happ.
  pose proof (new_entry_good o act subj before after Ho Ea Hsubj ltac:(lia) Eh) as He. fold e in He, Happ.
  rewrite change_record_eq, <-(full_base e), append_roomy in Happ by (try done; apply Ho).
  change [full_record e] with (written_record <$> [WChange e]) in Happ.
  destruct (append_records (wfault o) (written_record <$> [WChange e]) f) as [r1 f1] eqn:E.
  assert (f1 = f' ∧ (∀ e', r = Ok e' → e' = e ∧ r1 = Ok tt)) as [-> Hr].
  { destruct r1 as [[]|err]; injection Happ as <- <-; split; try done. by intros e' [= <-]. }
  eapply append_records_leaves in E; [|done|by apply Hf|done|by constructor].
  apply (leaves_pending s _ f' (r1 = Ok tt)) in E as (k & news & extra & Hk & Hp & Hrd & Hsim & Hx & Hl & Hdone);
    [|done|by constructor].
  assert (∃ tail, owed (effects (take k [WChange e]) s) = owed s ++ tail ∧ (k = 0%nat ∧ tail = [] ∨ k = 1%nat ∧ tail = [e])) as (tail & Et & Htail).
  { destruct k as [|k]; [exists []; rewrite app_nil_r; auto|]. destruct k; [|cbn in Hk; lia].
    exists [e]. split; [|auto]. destruct (Hid data s Hc Hs). by apply owed_with_change. }
  assert (last_of (effects (take k [WChange e]) s) = last_of s) as El by by destruct k as [|[|k]].
  rewrite Et in Hsim. rewrite El, <-Hlast in Hl. destruct Htail as [[-> ->]|[-> ->]].
  - exists news, extra. rewrite app_nil_r in Hsim. split_and!; try done.
    { destruct Hx as [->|(_ & m & p & -> & _)]; eauto. }
    intros e' He'. destruct (Hr e' He') as [_ H1]. by destruct (Hdone H1).
  - destruct Hx as [->|[Hk1 _]]; [|cbn in Hk1; lia]. exists news, [e]. rewrite app_nil_r in Hsim.
    split_and!; auto. intros e' He'. by destruct (Hr e' He').
Qed.

(** A journal after one append whose line was cut after 40 bytes, then a second
    append that is cut after 30. *)
Definition torn_file : node :=
  let _ := example_runtime in
  (append (mkJournal 4096000 10) (call_at 738000 1 (stops_after 40) compact_ok) (u "mapping.saved") (u "slot 4") None None Missing).2.
Lemma good_call_at day n w cf : 1 <= day <= max_ordinal → 0 <= n <= 9 → good_outside (call_at day n w cf).
Proof.
  intros Hd Hn. assert (is_utc (midnight day)).
  { split; [|done]. apply valid_datetime_spec. cbn. unfold DAY_MICROS. lia. }
  assert (hex_token (hex_of n)).
  { split; [|done]. unfold hex_of. cbn [forallb]. apply andb_true_iff; split; [|done]. unfold is_hex_lower, is_dig.
    apply orb_true_iff. left. apply between_true. lia. }
  by split.
Qed.
Lemma journal_append_crash_safe_witness :
  let _ := example_runtime in
  let o := call_at 738001 2 (stops_after 30) compact_ok in
  let e := new_entry o (u "mapping.saved") (u "slot 5") None None in
  ∃ news extra,
  pending (append (mkJournal 4096000 10) o (u "mapping.saved") (u "slot 5") None None torn_file).2 = Ok news
  ∧ Forall2 same_entry news ([recovered_entry 1 (match torn_file with Regular b => b | _ => [] end) true] ++ extra)
  ∧ (extra = [] ∨ extra = [e] ∨ ∃ n p, extra = [recovered_entry n p true]).
Proof.
  intros RT o e.
  destruct (@journal_append_crash_safe example_runtime example_laws (mkJournal 4096000 10) o (u "mapping.saved")
    (u "slot 5") None None torn_file _ _
    [recovered_entry 1 (match torn_file with Regular b => b | _ => [] end) true]
    ltac:(apply good_call_at; [vm_compute; split; congruence|lia]) ltac:(reflexivity) ltac:(vm_compute; reflexivity)
    ltac:(apply ends_readable_spec; vm_compute; reflexivity) ltac:(apply knows_not_spec; vm_compute; reflexivity)
    ltac:(vm_compute; congruence) (surjective_pairing _)) as (news & extra & Hp & _ & _ & Hf & Hx & _).
  exists news, extra. split; [exact Hp|]. split; [exact Hf|exact Hx].
Defined.

(** [C16] A commit closes exactly the changes it names, and a crash never closes
    others: after [commit] the pending entries are the old ones, in order, less
    the ids of a prefix of [change_ids], which is all of them when the call
    returns; only then is there nothing new, otherwise at most one recovered
    entry is; and the last backup is the old one, or, for a backup, the hash and
    id of this commit. *)
Theorem journal_commit_exact {RT : Runtime} {RL : RuntimeLaws RT} c o ids oc h bid f r f' olds
    (Ho : good_outside o) (Hids : forallb scalars ids = true) (Hold : pending f = Ok olds) (Hf : readable f)
    (Hroom : roomy c f (ulen (chunks (S (length ids)) ids)))
    (Hcommit : commit c o ids oc h bid f = (r, f')) :
  ∃ news closed extra, pending f' = Ok news ∧ readable f' ∧ closed `prefix_of` ids
  ∧ Forall2 same_entry news (still_open closed olds ++ extra)
  ∧ (extra = [] ∨ ∃ n p, extra = [recovered_entry n p true])
  ∧ (last_backup f' = last_backup f ∨ oc = backup ∧ last_backup f' = Ok (Some h, bid))
  ∧ (r = Ok tt → closed = ids ∧ extra = []
       ∧ last_backup f' = (match oc with backup => Ok (Some h, bid) | noop => last_backup f end)).
Proof.
  destruct (pending_contents f olds Hold) as (data & s & Hc & Hs & Hraw & -> & Hlast).
  assert ((r, f') = (Err ValueError, f) → ∃ news closed extra, pending f' = Ok news ∧ readable f' ∧ closed `prefix_of` ids
    ∧ Forall2 same_entry news (still_open closed (owed s) ++ extra)
    ∧ (extra = [] ∨ ∃ n p, extra = [recovered_entry n p true])
    ∧ (last_backup f' = last_backup f ∨ oc = backup ∧ last_backup f' = Ok (Some h, bid))
    ∧ (r = Ok tt → closed = ids ∧ extra = []
         ∧ last_backup f' = (match oc with backup => Ok (Some h, bid) | noop => last_backup f end))) as Hsame.
  { intros [= -> ->]. exists (owed s), [], []. rewrite still_open_nil, app_nil_r.
    split_and!; try done; [apply prefix_nil|by left|by left]. }
  unfold commit in Hcommit. destruct (check_backup_id oc bid) eqn:Eb; [|by apply Hsame].
  destruct (is_sha256 h) eqn:Eh; [|by apply Hsame]. cbn [negb] in Hcommit.
  destruct (chunks_concat (S (length ids)) ids ltac:(lia)) as [Hj Hlen]. set (cs := chunks (S (length ids)) ids) in *.
  pose proof (chunk_commits_good (now o) cs oc bid h ltac:(apply Ho) ltac:(by rewrite Hj) Eb Eh) as [Hg Hic].
  rewrite format_time_text, commit_records_eq in Hcommit by apply Ho.
  rewrite append_roomy in Hcommit by (unfold ulen; unfold chunk_commits; by rewrite !length_fmap).
  eapply append_records_leaves in Hcommit; [|done|by apply Hf|done|done].
  apply (leaves_pending s) in Hcommit as (k & news & extra & Hk & Hp & Hrd & Hsim & Hx & Hl & Hdone); [|apply _|done|done].
  unfold chunk_commits in Hk, Hdone. rewrite length_fmap in Hk, Hdone.
  unfold chunk_commits in Hsim, Hl. rewrite <-fmap_take in Hsim, Hl. fold (chunk_commits (now o) (take k cs) oc bid h) in Hsim, Hl.
  rewrite owed_commits, chunk_commits_closes in Hsim.
  2: { apply Forall_fmap, Forall_take. unfold chunk_commits in Hg. by rewrite Forall_fmap in Hg. }
  2: { apply Forall_fmap, Forall_true. done. } 2: done.
  rewrite chunk_commits_last, Hlast in * by done.
  exists news, (mjoin (take k cs)), extra. split_and!; try done.
  - rewrite <-Hj. apply mjoin_take_prefix.
  - destruct Hx as [->|(_ & m & p & -> & _)]; eauto.
  - rewrite Hl. destruct oc; [|by left]. destruct (take k cs); [by left|by right].
  - intros Hr. destruct (Hdone Hr) as [-> ->]. rewrite take_ge in * by done. split_and!; [done|done|].
    rewrite Hl. destruct oc; [|done]. by destruct cs; [cbn in Hlen; lia|].
Qed.
(** Two changes, the first of which is committed to a backup. *)
Definition two_changes : node :=
  let _ := example_runtime in
  (append (mkJournal 4096000 10) (no_faults 738001 2) (u "mapping.saved") (u "slot 5") None None
    (append (mkJournal 4096000 10) (no_faults 738000 1) (u "mapping.saved") (u "slot 4") None None Missing).2).2.
Definition first_change : JournalEntry := new_entry (no_faults 738000 1) (u "mapping.saved") (u "slot 4") None None.
Definition second_change : JournalEntry := new_entry (no_faults 738001 2) (u "mapping.saved") (u "slot 5") None None.
Lemma journal_commit_exact_witness :
  let _ := example_runtime in
  let f' := (commit (mkJournal 4096000 10) (no_faults 738002 3) [change_id first_change] backup a_hash (Some (u "b-1")) two_changes).2 in
  ∃ news, pending f' = Ok news ∧ Forall2 same_entry news [second_change] ∧ last_backup f' = Ok (Some a_hash, Some (u "b-1")).
Proof.
  intros RT f'.
  destruct (@journal_commit_exact example_runtime example_laws (mkJournal 4096000 10) (no_faults 738002 3)
    [change_id first_change] backup a_hash (Some (u "b-1")) two_changes _ _ [first_change; second_change]
    ltac:(apply good_call_at; [vm_compute; split; congruence|lia]) ltac:(reflexivity) ltac:(vm_compute; reflexivity)
    ltac:(apply ends_readable_spec; vm_compute; reflexivity) ltac:(vm_compute; congruence) (surjective_pairing _))
    as (news & closed & extra & Hp & _ & _ & Hf & _ & _ & Hok).
  destruct Hok as (-> & -> & Hl); [vm_compute; reflexivity|].
  exists news. split; [exact Hp|]. split; [exact Hf|exact Hl].
Defined.
