(* ===== verification/JournalLengths.v ===== *)
(** * Lengths of journal lines

    The text of an object is as long as its members; so compaction, which writes
    without checking the line limit, never writes a line that is too long to be
    read back. *)

From S2P Require Import Prelude PyStr Calendar Json JsonProofs Journal JournalLines JournalRecords.
#[local] Open Scope Z_scope.
#[local] Open Scope list_scope.
#[local] Open Scope nat_scope.

Fixpoint nsum (l : list nat) : nat := match l with [] => 0 | n :: l' => n + nsum l' end.
Lemma nsum_perm l l' : l ≡ₚ l' → nsum l = nsum l'.
Proof. induction 1; cbn; lia. Qed.

Section lengths.
Context {FL : Floats}.

Definition val_len (d : nat) (v : json) : nat := match dumps d v with Ok t => length t | Err _ => 0 end.
Definition member_len (d : nat) (kv : ustr * json) : nat := length (quote kv.1) + 2 + val_len d kv.2.

Lemma join_comma_length ts : ts ≠ [] → length (join_comma ts) + 1 = nsum ((λ t, length t + 1) <$> ts).
Proof.
induction ts as [|t ts IH]; [done|]. intros _. destruct ts as [|t' ts]; [cbn; lia|].
change (join_comma (t :: t' :: ts)) with (t ++ [44%Z] ++ join_comma (t' :: ts)). rewrite !length_app.
specialize (IH ltac:(done)). rewrite !fmap_cons in *. cbn [nsum length] in *. lia.
Qed.

Lemma list_length d l s : dumps (S d) (JList l) = Ok s →
(l ≠ [] → length s = 1 + nsum ((λ v, val_len d v + 1) <$> l))
∧ Forall (λ v, ∃ t, dumps d v = Ok t) l.
Proof.
cbn [dumps]. destruct (res_mapM id (dumps d <$> l)) as [ts|] eqn:E; [|done]. intros [= <-].
apply res_mapM_Ok, Forall2_fmap_l in E.
assert (Forall (λ v, ∃ t, dumps d v = Ok t) l ∧ (λ t, length t + 1) <$> ts = (λ v, val_len d v + 1) <$> l) as [Hall Hlen].
{ induction E as [|v t l ts Hv _ [IH1 IH2]]; [done|]. unfold compose, id in Hv. split; [constructor; [by eexists|done]|].
  cbn. rewrite IH2. unfold val_len. by rewrite Hv. }
split; [|done]. intros Hl. assert (ts ≠ []) as Hts by (destruct ts; [by inversion E; subst|done]). pose proof (join_comma_length ts Hts) as Hj.
rewrite Hlen in Hj. cbn [length app]. rewrite length_app. cbn [length]. lia.
Qed.

Lemma obj_length d (m : jdict) s : m ≠ [] → dumps (S d) (JObj m) = Ok s →
length s = 1 + nsum (member_len d <$> m) ∧ Forall (λ kv, ∃ t, dumps d kv.2 = Ok t) m.
Proof.
intros Hm. cbn [dumps].
destruct (res_mapM _ _) as [ts|] eqn:E; [|done]. intros [= <-]. apply res_mapM_Ok in E.
rewrite (sort_by_fmap (A := ustr * json) key_leb key_leb (λ kv, (kv.1, dumps d kv.2))) in E by done.
apply Forall2_fmap_l in E. cbn [fst snd] in E.
assert (Forall (λ kv, ∃ t, dumps d kv.2 = Ok t) (sort_by key_leb m)
  ∧ (λ t, length t + 1) <$> ts = member_len d <$> sort_by key_leb m) as [Hall Hlen].
{ induction E as [|kv t l ts Hv _ [IH1 IH2]]; [done|]. unfold compose in Hv; cbn [fst snd] in Hv. destruct (dumps d kv.2) as [x|] eqn:Ex; [|done]. injection Hv as <-.
  split; [constructor; [by eexists|done]|]. cbn [fmap list_fmap]. change (list_fmap _ _ ?f ?l) with (f <$> l). rewrite IH2. f_equal.
  unfold member_len, val_len, member. rewrite Ex, !length_app. cbn. lia. }
split.
- assert (ts ≠ []) as Hts.
  { intros ->. symmetry in Hlen. apply fmap_nil_inv in Hlen. apply Hm, Permutation_nil.
    by rewrite <-Hlen, sort_by_perm. }
  pose proof (join_comma_length ts Hts) as Hj. rewrite Hlen in Hj.
  rewrite (nsum_perm _ (member_len d <$> m)) in Hj by by rewrite sort_by_perm.
  cbn [length app]. rewrite length_app. cbn [length]. lia.
- by rewrite sort_by_perm in Hall.
Qed.

(** ** Bounds of the values *)

Lemma u4_length c : length (u4 c) = 6.
Proof. done. Qed.
Lemma escape_length c : length (escape c) <= 12.
Proof.
unfold escape. repeat match goal with |- context [if ?b then _ else _] => destruct b; [cbn; lia|] end.
rewrite length_app, !u4_length. lia.
Qed.
Lemma quote_length s : length (quote s) <= 2 + 12 * length s.
Proof.
unfold quote. cbn [app length]. rewrite length_app. cbn [length].
assert (length (s ≫= escape) <= 12 * length s); [|lia].
induction s as [|c s IH]; [cbn; lia|]. change ((c :: s) ≫= escape) with (escape c ++ (s ≫= escape)).
rewrite length_app. cbn [length]. pose proof (escape_length c). lia.
Qed.
Lemma val_len_str d s : val_len d (JStr s) <= 2 + 12 * length s.
Proof. destruct d; apply quote_length. Qed.
Lemma val_len_opt d o n : (∀ s, o = Some s → length s <= n) → val_len d (of_opt o) <= 4 + 12 * n.
Proof.
intros H. destruct o as [s|]; cbn [of_opt]; [|destruct d; cbn; lia].
etrans; [apply val_len_str|]. specialize (H s eq_refl). lia.
Qed.
Lemma val_len_int d z : (0 <= z)%Z → val_len d (JInt z) <= int_max_str_digits.
Proof.
intros Hz. unfold val_len. destruct d; cbn [dumps]; rewrite Z.abs_eq by done;
  (destruct (Nat.ltb_spec int_max_str_digits (length (dec z))); [lia|]); unfold print_int;
  rewrite (proj2 (Z.ltb_ge z 0)) by done; done.
Qed.
Lemma dumps_int_digits d z t : (0 <= z)%Z → dumps d (JInt z) = Ok t → length (dec z) <= int_max_str_digits.
Proof.
intros Hz. destruct d; cbn [dumps]; rewrite Z.abs_eq by done;
  by destruct (Nat.ltb_spec int_max_str_digits (length (dec z))).
Qed.
End lengths.

Section lines.
Context {RT : Runtime} {RL : RuntimeLaws RT}.

Lemma check_hash_length h s : check_hash h = true → h = Some s → length s <= 64.
Proof. intros H ->. cbn in H. apply sha256_scalars in H as [_ ->]. lia. Qed.

(** A good entry fits on a line. *)
Lemma change_line_length e l : good_entry e → stable_json (JObj (full_record e)) = Ok l → (ulen l <= MAX_LINE_BYTES)%Z.
Proof.
intros He Hl. unfold stable_json in Hl.
assert (∃ d, recursion_limit = S d) as (d & Ed) by (pose proof recursion_limit_two; destruct recursion_limit; [lia|eauto]).
rewrite Ed in Hl. apply obj_length in Hl as [Hlen _]; [|done].
destruct He as [Hid Ht [_ Ha] [_ Hs] [Hb Haf]%andb_true_iff Hm _].
pose proof (proj2 (change_id_scalars _ Hid)) as Hi. pose proof (proj2 (time_text_spec _ Ht)) as Htt.
pose proof (val_len_opt d (before_hash e) 64 (λ s, check_hash_length _ s Hb)).
pose proof (val_len_opt d (after_hash e) 64 (λ s, check_hash_length _ s Haf)).
pose proof (val_len_str d (change_id e)). pose proof (val_len_str d (time_text (at_time e))).
pose proof (val_len_str d (action e)). pose proof (val_len_str d (subject e)).
pose proof (val_len_int d (merged e) ltac:(lia)) as Hmg. unfold int_max_str_digits in Hmg.
assert (val_len d (JInt JOURNAL_FORMAT_VERSION) = 1 ∧ val_len d (JStr (u "change")) = 8 ∧ val_len d (JBool true) = 4) as (E1 & E2 & E3)
  by by destruct d.
unfold full_record, base_record, member_len in Hlen. unfold ulen, MAX_LINE_BYTES. rewrite Hlen. clear Hlen.
destruct (recovered e), (1 <? merged e)%Z; cbn [fmap list_fmap app nsum fst snd]; rewrite E1, E2, ?E3;
  repeat match goal with |- context [length (quote (u ?k))] =>
    let n := eval vm_compute in (length (quote (u k))) in change (length (quote (u k))) with n end; lia.
Qed.

Lemma checkpoint_line_length t h id l :
is_utc t → check_hash h = true → (∀ s, id = Some s → length s <= 128) →
stable_json (JObj (checkpoint_record (time_text t) h id)) = Ok l → (ulen l <= MAX_LINE_BYTES)%Z.
Proof.
intros Ht Hh Hid Hl. unfold stable_json in Hl.
assert (∃ d, recursion_limit = S d) as (d & Ed) by (pose proof recursion_limit_two; destruct recursion_limit; [lia|eauto]).
rewrite Ed in Hl. apply obj_length in Hl as [Hlen _]; [|done].
pose proof (proj2 (time_text_spec _ Ht)) as Htt. pose proof (val_len_str d (time_text t)).
pose proof (val_len_opt d h 64 (λ s, check_hash_length _ s Hh)). pose proof (val_len_opt d id 128 Hid).
assert (val_len d (JInt JOURNAL_FORMAT_VERSION) = 1 ∧ val_len d (JStr (u "checkpoint")) = 12) as (E1 & E2) by by destruct d.
unfold checkpoint_record, member_len in Hlen. unfold ulen, MAX_LINE_BYTES. rewrite Hlen. clear Hlen.
cbn [fmap list_fmap fst snd nsum]; rewrite E1, E2;
  repeat match goal with |- context [length (quote (u ?k))] =>
    let n := eval vm_compute in (length (quote (u k))) in change (length (quote (u k))) with n end; lia.
Qed.

(** Fewer ids make a shorter commit. *)
Lemma commit_line_shorter at_ ids ids' oc bid h l l' :
ids' `sublist_of` ids → ids' ≠ [] →
stable_json (JObj (commit_record at_ ids oc bid h)) = Ok l →
stable_json (JObj (commit_record at_ ids' oc bid h)) = Ok l' → (ulen l' <= ulen l)%Z.
Proof.
intros Hsub Hne. unfold stable_json.
assert (∃ d, recursion_limit = S (S d)) as (d & ->).
{ pose proof recursion_limit_two. destruct recursion_limit as [|[|d]]; [lia|lia|eauto]. }
intros Hl Hl'. apply obj_length in Hl as [Hl Hf]; [|done]. apply obj_length in Hl' as [Hl' Hf']; [|done].
assert (val_len (S d) (JList (JStr <$> ids')) <= val_len (S d) (JList (JStr <$> ids))) as Hval.
{ assert (∃ t, dumps (S d) (JList (JStr <$> ids)) = Ok t) as (t & Et).
  { rewrite Forall_forall in Hf. apply (Hf (u "change_ids", JList (JStr <$> ids))). unfold commit_record. do 3 right. left. }
  assert (∃ t, dumps (S d) (JList (JStr <$> ids')) = Ok t) as (t' & Et').
  { rewrite Forall_forall in Hf'. apply (Hf' (u "change_ids", JList (JStr <$> ids'))). unfold commit_record. do 3 right. left. }
  unfold val_len. rewrite Et, Et'. apply list_length in Et as [Et _]. apply list_length in Et' as [Et' _].
  assert (ids ≠ []) as Hne' by (intros ->; by inversion Hsub; subst).
  rewrite Et, Et' by (intros ?%fmap_nil_inv; done). apply le_n_S.
  clear -Hsub. induction Hsub as [|x l k H IH|x l k H IH]; cbn in *; lia. }
unfold ulen. rewrite Hl, Hl'. unfold commit_record, member_len. cbn [fmap list_fmap fst snd nsum].
change (list_fmap _ _ JStr ?x) with (JStr <$> x) in *. lia.
Qed.
End lines.
