(* ===== verification/JournalCompaction.v ===== *)
(** * Compaction

    A compacted file owes what the old one owed.  The pending entries are kept as
    they are, or, when there are too many, the oldest are merged into one that
    counts them all. *)

From S2P Require Import Prelude PyStr Calendar Json JsonProofs Journal JournalLines JournalRecords JournalStates.
From S2P Require Import JournalSafety JournalLengths.
#[local] Open Scope Z_scope.
#[local] Open Scope list_scope.

(** ** Objects with the same fields print the same *)

Lemma sort_obj_perm {A} (d d' : list (ustr * A)) : NoDup d.*1 → d ≡ₚ d' → sort_by key_leb d = sort_by key_leb d'.
Proof.
  intros Hnd Hp. apply sort_by_ext; [..|done].
  - intros ??. apply ustr_leb_total.
  - intros ???. apply ustr_leb_trans.
  - intros [k v] [k' v'] Hx Hy H1 H2. assert (k = k') as <- by (by apply ustr_leb_antisym).
    apply jget_elem in Hx, Hy; try done. congruence.
Qed.

Lemma dumps_perm {FL : Floats} n (d d' : jdict) : NoDup d.*1 → d ≡ₚ d' → dumps n (JObj d) = dumps n (JObj d').
Proof.
  intros Hnd Hp. destruct n as [|n]; [done|]. cbn [dumps]. f_equal. f_equal.
  rewrite !(sort_by_fmap (A := ustr * json) key_leb key_leb (λ kv, (kv.1, dumps n kv.2))) by done.
  by rewrite (sort_obj_perm d d').
Qed.

Lemma jset_nodup {A} k (v : A) d : NoDup d.*1 → NoDup (jset k v d).*1.
Proof.
  induction d as [|[k0 v0] d IH]; cbn; [repeat constructor; by intros ?%not_elem_of_nil|].
  intros [Hk Hnd]%NoDup_cons. destruct (decide (k = k0)) as [->|Hne]; cbn; [by constructor|].
  constructor; [|by apply IH]. clear -Hk Hne. induction d as [|[k1 v1] d IH]; cbn in *.
  - intros ->%list_elem_of_singleton. done.
  - apply not_elem_of_cons in Hk as [? ?]. destruct (decide (k = k1)); cbn; apply not_elem_of_cons; split; auto; congruence.
Qed.
Lemma jget_ext_perm {A} (d d' : list (ustr * A)) : NoDup d.*1 → NoDup d'.*1 → (∀ k, jget k d = jget k d') → d ≡ₚ d'.
Proof.
  intros Hd Hd' H. apply NoDup_Permutation; [by eapply NoDup_fmap_1|by eapply NoDup_fmap_1|].
  intros [k v]. by rewrite <-!jget_elem, H.
Qed.

Lemma jget_loaded k rec : NoDup rec.*1 → jget k (loaded rec) = normal <$> jget k rec.
Proof.
  intros Hnd. unfold loaded. rewrite <-jget_fmap. apply jget_perm; [|by apply sort_by_perm].
  by rewrite sort_by_perm, fst_fmap.
Qed.
Lemma loaded_nodup rec : NoDup rec.*1 → NoDup (loaded rec).*1.
Proof. intros H. unfold loaded. by rewrite sort_by_perm, fst_fmap. Qed.

Lemma commit_record_nodup t ids oc bid h : NoDup (commit_record t ids oc bid h).*1.
Proof. apply (bool_decide_unpack _). vm_compute. exact I. Qed.
Lemma commit_record_normal t ids oc bid h k :
  normal <$> jget k (commit_record t ids oc bid h) = jget k (commit_record t ids oc bid h).
Proof.
  unfold commit_record. cbn [jget]. repeat case_decide; cbn; try done; [|by destruct bid].
  by rewrite normal_strings.
Qed.
Lemma commit_record_ids t ids oc bid h : json_texts (record_ids (loaded (commit_record t ids oc bid h))) = ids.
Proof.
  unfold record_ids, field_or. rewrite field_loaded by apply commit_record_nodup.
  destruct (commit_fields t ids oc bid h) as (_ & _ & -> & _). cbn [fmap option_fmap option_map default normal].
  cbn. rewrite normal_strings. apply json_texts_strings.
Qed.
(** A commit record with fewer ids prints like one that was written so. *)
Lemma commit_record_narrowed {RT : Runtime} t ids ids' oc bid h :
  stable_json (JObj (jset (u "change_ids") (JList (JStr <$> ids')) (loaded (commit_record t ids oc bid h))))
  = stable_json (JObj (commit_record t ids' oc bid h)).
Proof.
  apply dumps_perm; [by apply jset_nodup, loaded_nodup, commit_record_nodup|].
  apply jget_ext_perm; [by apply jset_nodup, loaded_nodup, commit_record_nodup|apply commit_record_nodup|].
  intros k. rewrite jget_jset, jget_loaded, commit_record_normal by apply commit_record_nodup.
  unfold commit_record. cbn [jget]. destruct (decide (k = u "change_ids")) as [->|Hk].
  - get_fields. done.
  - repeat case_decide; try done. 
Qed.

(** ** Good states and good files *)

Definition good_commit {RT : Runtime} (rec : jdict) : Prop :=
  ∃ t ids oc bid h l, rec = loaded (commit_record (time_text t) ids oc bid h) ∧ line_of (WCommit t ids oc bid h) l.

Section compaction.
Context {RT : Runtime} {RL : RuntimeLaws RT}.

Record good_state (s : journal_state) : Prop := {
good_raw : raw_ok s;
good_entries : ∀ id e, changes s !! id = Some e → good_entry e;
good_commits : Forall good_commit (commit_records s);
good_covered : ∀ id v, commits s !! id = Some v → ∃ rec, rec ∈ commit_records s ∧ id ∈ json_texts (record_ids rec);
good_recorded : ∀ rec id, rec ∈ commit_records s → id ∈ json_texts (record_ids rec) → is_Some (commits s !! id);
good_last : check_hash (last_backup_hash s) = true ∧ from_option is_backup_id true (last_backup_id s) = true;
}.

Lemma good_empty : good_state empty_state.
Proof. split; [apply raw_ok_empty|done..| |done]. by intros rec id ?%not_elem_of_nil. Qed.

Lemma good_effect w l s : line_of w l → good_state s → good_state (effect w s).
Proof.
intros Hl [Hr He Hc Hcov Hrec Hlast]. pose proof Hl as (Hw & _). split; [by apply raw_ok_effect|..].
- destruct w as [e|t ids oc bid h|t h id]; cbn [effect]; [|by destruct oc|done].
  intros id e'. cbn. rewrite lookup_insert_Some. intros [[<- <-]|[_ H]]; [done|by eapply He].
- destruct w as [e|t ids oc bid h|t h id]; cbn [effect]; [done| |done].
  assert (Forall good_commit (commit_records s ++ [loaded (written_record (WCommit t ids oc bid h))])) as H.
  { apply Forall_app; split; [done|]. constructor; [|done]. by exists t, ids, oc, bid, h, l. }
  by destruct oc.
- destruct w as [e|t ids oc bid h|t h id]; cbn [effect]; [done| |done].
  assert (∀ id v, fold_left (λ m id, <[id := (oc, bid)]> m) ids (commits s) !! id = Some v →
    ∃ rec, rec ∈ commit_records s ++ [loaded (written_record (WCommit t ids oc bid h))] ∧ id ∈ json_texts (record_ids rec)) as H.
  { intros id v. rewrite fold_insert_lookup. case_bool_decide as Hin.
    - intros _. eexists. split; [apply elem_of_app; right; left|]. cbn [written_record]. by rewrite commit_record_ids.
    - intros Hv. destruct (Hcov id v Hv) as (rec & ? & ?). exists rec. split; [|done]. apply elem_of_app. by left. }
  by destruct oc.
- destruct w as [e|t ids oc bid h|t h id]; cbn [effect]; [done| |done].
  assert (∀ rec id, rec ∈ commit_records s ++ [loaded (written_record (WCommit t ids oc bid h))] →
    id ∈ json_texts (record_ids rec) → is_Some (fold_left (λ m id, <[id := (oc, bid)]> m) ids (commits s) !! id)) as H.
  { intros rec id Hin Hid. rewrite fold_insert_lookup. case_bool_decide as Hx; [by eexists|].
    apply elem_of_app in Hin as [Hin| ->%list_elem_of_singleton]; [by eapply Hrec|].
    cbn [written_record] in Hid. by rewrite commit_record_ids in Hid. }
  by destruct oc.
- destruct w as [e|t ids oc bid h|t h id]; cbn [effect good_written] in *; [done| |by destruct Hw].
  destruct Hw as (_ & _ & Hb & Hh). destruct oc; cbn; [|done]. split; [done|]. by destruct bid.
Qed.
Lemma good_effects ws lines s : Forall2 line_of ws lines → good_state s → good_state (effects ws s).
Proof.
intros H. revert s. induction H as [|w l ws lines Hl _ IH]; intros s Hs; [done|]. cbn. by apply IH, (good_effect w l).
Qed.

(** Ids of recovered and merged entries. *)
Definition id_char (c : Z) : bool := is_dig c || is_lower_letter c || among (u "_") c.
Lemma prefixed_id p x : forallb id_char (u p) = true → forallb id_char x = true →
(8 <= length (u p) + length x <= 64)%nat → is_change_id (u "chg_" ++ u p ++ x) = true.
Proof.
intros Hp Hx Hl. unfold is_change_id. rewrite strip_prefix_app. change (λ c, is_dig c || is_lower_letter c || among (u "_") c) with id_char.
rewrite forallb_app, Hp, Hx, length_app. cbn [andb]. apply andb_true_iff; split; apply Nat.leb_le; lia.
Qed.
Lemma recovered_id_good n raw : is_change_id (recovered_id n raw) = true.
Proof.
change (recovered_id n raw) with (u "chg_" ++ u "recovered_" ++ take 24 (sha256_hex (bytes_be 8 n ++ raw))).
apply prefixed_id; [done| |].
- apply forallb_take. pose proof (sha256_hex_digits (bytes_be 8 n ++ raw)) as H. rewrite forallb_forall in H |- *.
  intros c Hc. specialize (H c Hc). unfold is_hex_lower, id_char, is_lower_letter in *. apply orb_true_iff in H as [->|H]; [done|].
  apply between_true in H. rewrite (proj2 (between_true 97 122 c)) by lia. by rewrite orb_true_r.
- rewrite length_take, sha256_hex_length. cbn. lia.
Qed.

Definition countable_lines (n : Z) : Prop := 0 <= n ∧ (length (dec n) <= int_max_str_digits)%nat.
Lemma print_int_printable z : Forall printable (print_int z).
Proof.
unfold print_int. destruct (Z.ltb_spec z 0); [constructor; [unfold printable; lia|]|]; apply dec_printable; lia.
Qed.
Lemma recovered_entry_good n raw t : countable_lines n → good_entry (recovered_entry n raw t).
Proof.
intros [Hn Hl]. unfold int_max_str_digits in Hl. split; try done.
- apply recovered_id_good.
- split; [done|]. cbn. lia.
- cbn [recovered_entry subject]. split.
  + pose proof (printable_scalars _ (print_int_printable n)) as Hp. unfold scalars in *.
    rewrite !forallb_app, Hp. by destruct t.
  + unfold print_int. rewrite (proj2 (Z.ltb_ge n 0)) by done. rewrite !length_app.
    assert (length (u (if t then "torn" else "unreadable")) <= 10)%nat by (destruct t; cbn; lia).
    change (length (u " journal line ")) with 14%nat. unfold ustr in *. lia.
Qed.
Lemma good_placeholder n raw t s : countable_lines n → good_state s → good_state (add_recovered_placeholder n raw t s).
Proof.
intros Hn [Hr He Hc Hcov Hlast]. pose proof (recovered_entry_good n raw t Hn) as Hge.
pose proof (raw_ok_placeholder n raw t s Hr) as Hraw. revert Hraw. unfold add_recovered_placeholder.
assert (∀ s1, changes s1 = changes s → commits s1 = commits s → commit_records s1 = commit_records s →
  last_backup_hash s1 = last_backup_hash s → last_backup_id s1 = last_backup_id s →
  raw_ok (if bool_decide (is_Some (changes s1 !! change_id (recovered_entry n raw t))) then s1
    else with_changes (<[change_id (recovered_entry n raw t):=recovered_entry n raw t]> (changes s1))
      (order s1 ++ [change_id (recovered_entry n raw t)]) s1) →
  good_state (if bool_decide (is_Some (changes s1 !! change_id (recovered_entry n raw t))) then s1
    else with_changes (<[change_id (recovered_entry n raw t):=recovered_entry n raw t]> (changes s1))
      (order s1 ++ [change_id (recovered_entry n raw t)]) s1)) as H.
{ intros s1 E1 E2 E3 E4 E5 Hraw. split; [done|..]; case_bool_decide; cbn; rewrite ?E1, ?E2, ?E3, ?E4, ?E5; try done.
  intros id e. rewrite lookup_insert_Some. intros [[<- <-]|[_ Hl]]; [done|by eapply He]. }
by destruct t; apply H.
Qed.

(** Every line of a good file was written, or is what a crash left of one. *)
Definition good_line (raw : list Z) : Prop := (∃ w, line_of w raw) ∨ torn raw.
Definition good_data (data : list Z) : Prop :=
Forall good_line (split_lines data).1 ∧ ((split_lines data).2 = [] ∨ good_line (split_lines data).2).

Lemma good_apply_line n raw s : good_line raw → countable_lines n → good_state s →
∃ s', apply_line n raw s = Ok s' ∧ good_state s'.
Proof.
intros [(w & Hw)|Ht] Hn Hs.
- rewrite (apply_line_written n w raw s Hw). eexists. split; [done|]. by apply (good_effect w raw).
- rewrite apply_line_torn by done. eexists. split; [done|]. by apply good_placeholder.
Qed.
Lemma good_apply_lines ls n s : Forall good_line ls → 0 <= n →
(∀ m, n <= m < n + ulen ls → countable_lines m) → good_state s →
∃ s', apply_lines n ls s = Ok s' ∧ good_state s'.
Proof.
intros Hls. revert n s. induction Hls as [|l ls Hl _ IH]; intros n s Hn Hm Hs; [by exists s|].
unfold ulen in Hm. cbn [length] in Hm. cbn [apply_lines].
destruct (good_apply_line n l s Hl (Hm n ltac:(lia)) Hs) as (s1 & -> & Hs1).
destruct (IH (n + 1) s1) as (s2 & E & Hs2); [lia| |done|by exists s2].
intros m Hm'. apply Hm. unfold ulen in Hm'. lia.
Qed.
Lemma good_parse data : good_data data → (∀ m, 1 <= m <= next_line data → countable_lines m) →
∃ s, parse_records data = Ok s ∧ good_state s.
Proof.
intros [Hl Ht] Hm. rewrite parse_records_tail. unfold parse_lines, next_line in *.
destruct (good_apply_lines (split_lines data).1 1 empty_state Hl) as (s & -> & Hs); [lia| |apply good_empty|].
{ intros m Hm'. apply Hm. lia. }
cbn [mbind result_bind]. destruct Ht as [->|[(w & Hw)|Ht]].
- by exists s.
- rewrite (apply_tail_written _ w _ s Hw). eexists. split; [done|].
  destruct (good_effect w _ s Hw Hs) as [Hr He Hc Hcov Hrec Hlast]. split; try done. by eapply raw_ok_changes; [..|exact Hr].
- rewrite apply_tail_torn by done. eexists. split; [done|]. apply good_placeholder; [|done]. apply Hm. unfold ulen. lia.
Qed.
Lemma good_readable data : good_data data → readable_tail data.
Proof.
intros [_ [Ht|Ht]]; [by right|]. left. destruct Ht as [(w & Hw)|Ht].
- by destruct (line_cons w _ Hw) as (j & ->).
- by destruct (torn_cons _ Ht) as (j & ->).
Qed.

(** ** What compaction selects *)

Lemma keep_committed_sub s retain ofr ids budget counted kept res :
keep_committed s retain ofr ids budget counted kept = Ok res → ∀ id, id ∈ res → id ∈ ids ∨ id ∈ kept.
Proof.
revert budget counted kept. induction ids as [|i ids IH]; intros budget counted kept; cbn [keep_committed].
- intros [= <-]. auto.
- destruct (retain <=? ulen kept); [intros [= <-]; auto|].
  destruct (pending_bytes s [i]) as [bytes|]; [|done]. cbn [mbind result_bind].
  destruct (match match ofr !! i with Some _ => _ | None => _ end with Some rec => _ | None => _ end) as [cost|]; [|done].
  cbn [mbind result_bind]. destruct (budget <? cost); [intros [= <-]; auto|].
  intros H id Hid. destruct (IH _ _ _ H id Hid) as [?|[->|?]%elem_of_cons]; [left; by right|left; left|by right].
Qed.
Lemma committed_within_sub c s committed res : committed_within_budget c s committed = Ok res →
∀ id, id ∈ res → id ∈ committed.
Proof.
unfold committed_within_budget. destruct (_ =? 0); [intros [= <-] id H; by apply not_elem_of_nil in H|].
destruct (forallb _ _); [|done]. intros H id Hid. destruct (keep_committed_sub _ _ _ _ _ _ _ _ H id Hid) as [?|?%not_elem_of_nil]; [|done].
by apply elem_of_reverse.
Qed.
Lemma keep_newest_spec s ids budget kept res : keep_newest s ids budget kept = Ok res →
∃ pre post, ids = pre ++ post ∧ res = reverse pre ++ kept.
Proof.
revert budget kept. induction ids as [|i ids IH]; intros budget kept; cbn [keep_newest].
- intros [= <-]. by exists [], [].
- destruct (pending_bytes s [i]) as [bytes|]; [|done]. cbn [mbind result_bind].
  destruct (_ <? 0); [intros [= <-]; by exists [], (i :: ids)|]. intros H.
  destruct (IH _ _ H) as (pre & post & -> & ->). exists (i :: pre), post.
  by rewrite reverse_cons, <-app_assoc.
Qed.

(** [S] shows the entries of [s], perhaps as committed. *)
Definition shows (S s : journal_state) : Prop :=
∀ id, kept_record <$> changes S !! id = kept_record <$> changes s !! id.
Lemma shows_commits s : shows (apply_commits s) s.
Proof.
intros id. rewrite lookup_apply_commits. destruct (changes s !! id) as [e|]; [|done]. cbn.
by destruct (commits s !! id) as [[oc bid]|].
Qed.
Lemma shows_records S s ids : shows S s →
res_mapM kept_record (entries_of S ids) = res_mapM kept_record (entries_of s ids).
Proof.
intros H. induction ids as [|id ids IH]; [done|]. rewrite !entries_of_cons. specialize (H id).
destruct (changes S !! id) as [e|], (changes s !! id) as [e'|]; cbn in *; try done.
injection H as ->. by rewrite IH.
Qed.

Definition total (l : list JournalEntry) : Z := sum (merged <$> l).
Lemma total_app l1 l2 : total (l1 ++ l2) = total l1 + total l2.
Proof.
induction l1 as [|e l1 IH]; [done|]. change (merged e + total (l1 ++ l2) = merged e + total l1 + total l2). lia.
Qed.

(** The merged entry stands for [older]. *)
Definition stands_for (tok : ustr) (e : JournalEntry) (older : list JournalEntry) : Prop :=
change_id e = overflow_id tok ∧ recovered e = true ∧ merged e = total older
∧ status e = pending_status ∧ entry_backup_id e = None ∧ action e = u "journal.overflow"
∧ subject e = print_int (total older) ++ u " older uncommitted changes merged"
∧ ∃ first final, head older = Some first ∧ last older = Some final
  ∧ at_time e = at_time first ∧ before_hash e = before_hash first ∧ after_hash e = after_hash final.

Lemma overflow_stands tok S older e : overflow_entry tok S older = Some e → stands_for tok e (entries_of S older).
Proof.
unfold overflow_entry. destruct (entries_of S older) as [|first es] eqn:E; [done|].
destruct (last (first :: es)) as [final|] eqn:El; [|done]. intros [= <-].
unfold stands_for. cbn [change_id recovered merged status entry_backup_id action subject at_time before_hash after_hash].
split_and!; try done. by exists first, final.
Qed.

Lemma filter_suffix (pre post : list ustr) : NoDup (pre ++ post) →
List.filter (λ id, negb (bool_decide (id ∈ post))) (pre ++ post) = pre.
Proof.
intros (_ & Hd & _)%NoDup_app. rewrite List.filter_app, filter_all, filter_none; [apply app_nil_r|..].
- apply Forall_forall. intros id Hid. by rewrite bool_decide_eq_true_2.
- apply Forall_forall. intros id Hid. rewrite bool_decide_eq_false_2; [done|]. by apply Hd.
Qed.

Lemma open_ids_nodup s : raw_ok s → NoDup (open_ids s).
Proof. intros [Hn _ _]. unfold open_ids. by apply NoDup_ListNoDup, List.NoDup_filter, NoDup_ListNoDup. Qed.
Lemma open_ids_elem s id : id ∈ open_ids s ↔ id ∈ order s ∧ commits s !! id = None.
Proof. unfold open_ids. rewrite elem_of_filter_list. unfold is_open. by rewrite bool_decide_eq_true. Qed.

Lemma merge_spec c tok s S2 pend : raw_ok s → merge_overflow c tok (apply_commits s) = Ok (S2, pend) →
(S2 = apply_commits s ∧ pend = open_ids s)
∨ ∃ older newest e, open_ids s = older ++ newest ∧ stands_for tok e (entries_of s older)
  ∧ S2 = with_changes (<[change_id e := e]> (changes (apply_commits s)))
           (change_id e :: List.filter (λ id, negb (bool_decide (id ∈ older))) (order s)) (apply_commits s)
  ∧ pend = change_id e :: newest.
Proof.
intros Hs. unfold merge_overflow. destruct (pending_apply_commits s Hs) as [-> _].
destruct (if Nat.ltb 1 _ then _ else _) as [bytes|]; [|done]. cbn [mbind result_bind].
destruct (_ && _); [|intros [= <- <-]; by left].
destruct (keep_newest _ _ _ _) as [newest|] eqn:En; [|done]. cbn [mbind result_bind].
destruct (keep_newest_spec _ _ _ _ _ En) as (pre & post & Ep & ->). rewrite app_nil_r.
apply (f_equal reverse) in Ep. rewrite reverse_involutive, reverse_app in Ep.
pose proof (open_ids_nodup s Hs) as Hnd. rewrite Ep in Hnd |- *. rewrite filter_suffix by done.
destruct (overflow_entry tok (apply_commits s) (reverse post)) as [e|] eqn:Eo; [|done].
intros [= <- <-]. right. exists (reverse post), (reverse pre), e. split_and!; try done.
apply overflow_stands in Eo. erewrite entries_of_ext; [exact Eo|]. intros id Hid. symmetry.
assert (id ∈ open_ids s) as Hop by (rewrite Ep; apply elem_of_app; by left).
apply open_ids_elem in Hop as [_ Hop]. rewrite lookup_apply_commits, Hop. by destruct (changes s !! id).
Qed.

(** ** The compacted file *)

Lemma res_mapM_app {E A B} (f : A → result E B) l1 l2 ys : res_mapM f (l1 ++ l2) = Ok ys →
∃ ys1 ys2, ys = ys1 ++ ys2 ∧ res_mapM f l1 = Ok ys1 ∧ res_mapM f l2 = Ok ys2.
Proof.
rewrite res_mapM_Ok. intros (ys1 & ys2 & H1 & H2 & ->)%Forall2_app_inv_l. exists ys1, ys2.
by rewrite !res_mapM_Ok.
Qed.

Lemma kept_lines es lines : Forall good_entry es →
res_mapM (λ r, stable_json (JObj r)) (full_record <$> es) = Ok lines → Forall2 line_of (WChange <$> es) lines.
Proof.
intros Hg E%res_mapM_Ok. revert lines E. induction Hg as [|e es He _ IH]; intros lines E; [inversion E; constructor|].
inversion E as [|? l ? ls El Els]; subst. cbn. constructor; [|by apply IH]. split_and!; [done|done|by apply (change_line_length e)].
Qed.

Lemma sublist_filter {A} (f : A → bool) l : List.filter f l `sublist_of` l.
Proof. induction l as [|x l IH]; cbn; [constructor|]. destruct (f x); by constructor. Qed.
Lemma filter_bind {A B} (f : B → bool) (g : A → list B) l : List.filter f (l ≫= g) = l ≫= (λ x, List.filter f (g x)).
Proof.
induction l as [|x l IH]; [done|]. change ((x :: l) ≫= ?g) with (g x ++ (l ≫= g)). by rewrite List.filter_app, IH.
Qed.
Lemma forallb_sublist {A} (p : A → bool) l k : l `sublist_of` k → forallb p k = true → forallb p l = true.
Proof.
induction 1 as [|x l k _ IH|x l k _ IH]; cbn; [done| |]; intros [Hx Hk]%andb_true_iff; [|auto].
by rewrite Hx, IH.
Qed.

Definition record_texts (rec : jdict) : list ustr := json_texts (record_ids rec).
Lemma remainder_written kept recs lines : Forall good_commit recs →
res_mapM (λ r, stable_json (JObj r)) (recs ≫= commit_remainder kept) = Ok lines →
∃ ws, Forall2 line_of ws lines ∧ Forall is_commit_or_checkpoint ws
  ∧ ws ≫= closes = List.filter (λ id, bool_decide (id ∈ kept)) (recs ≫= record_texts).
Proof.
intros Hg. revert lines. induction Hg as [|rec recs (t & ids & oc & bid & h & l & -> & Hl) _ IH]; intros lines.
{ intros [= <-]. by exists []. }
change ((?x :: recs) ≫= ?f) with (f x ++ (recs ≫= f)). intros (ls1 & ls2 & -> & H1 & H2)%res_mapM_app.
destruct (IH _ H2) as (ws & Hws & Hc & Hcl). rewrite List.filter_app, <-Hcl.
assert (record_texts (loaded (commit_record (time_text t) ids oc bid h)) = ids) as Eids by apply commit_record_ids.
rewrite Eids. unfold commit_remainder in H1. fold (record_texts (loaded (commit_record (time_text t) ids oc bid h))) in H1.
rewrite Eids in H1. destruct (List.filter _ ids) as [|i ids'] eqn:Ef.
{ injection H1 as <-. by exists ws. }
apply res_mapM_Ok in H1. inversion H1 as [|? l' ? ? Hl' Hnil]; subst. inversion Hnil; subst. clear H1 Hnil.
assert (stable_json (JObj (commit_record (time_text t) (i :: ids') oc bid h)) = Ok l') as Hl''
  by (rewrite <-(commit_record_narrowed _ ids); exact Hl').
exists (WCommit t (i :: ids') oc bid h :: ws).
assert ((i :: ids') `sublist_of` ids) as Hsub by (rewrite <-Ef; apply sublist_filter).
destruct Hl as ((Ht & Hids & Hb & Hh) & Hsj & Hlen). cbn [written_record] in Hsj. split_and!.
- constructor; [|done]. split_and!.
  + cbn [good_written]. split_and!; try done. by eapply (forallb_sublist scalars _ ids).
  + done.
  + etrans; [|exact Hlen]. by eapply commit_line_shorter.
- by constructor.
- done.
Qed.

(** Entries with new ids, written one after the other. *)
Lemma owed_changes es s : raw_ok s → Forall good_entry es → NoDup (change_id <$> es) →
(∀ e, e ∈ es → changes s !! change_id e = None ∧ commits s !! change_id e = None) →
owed (effects (WChange <$> es) s) = owed s ++ es.
Proof.
intros Hs Hg. revert s Hs. induction Hg as [|e es He Hg IH]; intros s Hs Hnd Hf; [by rewrite app_nil_r|].
apply NoDup_cons in Hnd as [Hni Hnd]. cbn [fmap list_fmap]. change (WChange <$> (e :: es)) with (WChange e :: (WChange <$> es)).
change (effects (WChange e :: (WChange <$> es)) s) with (effects (WChange <$> es) (effect (WChange e) s)).
destruct (Hf e ltac:(left)) as [Hc Hm]. rewrite IH.
- cbn [effect]. rewrite owed_with_change by done. by rewrite <-app_assoc.
- by apply raw_ok_effect.
- done.
- intros e' Hin. destruct (Hf e' ltac:(by right)) as [Hc' Hm']. cbn. split; [|done].
  rewrite lookup_insert_ne; [done|]. intros Heq. apply Hni. rewrite Heq. by apply list_elem_of_fmap_2.
Qed.
Lemma effects_app ws1 ws2 s : effects (ws1 ++ ws2) s = effects ws2 (effects ws1 s).
Proof. apply fold_left_app. Qed.

(** A file of written lines is good, and says what their effects say. *)
Lemma payload_parse ws lines : Forall2 line_of ws lines →
parse_records (payload_of lines) = Ok (effects ws empty_state) ∧ good_data (payload_of lines).
Proof.
intros Hl. pose proof (split_lines_payload lines [] (lines_one_line _ _ Hl)) as E. cbn in E. rewrite !app_nil_r in E.
split.
- rewrite parse_records_tail. unfold parse_lines, next_line. rewrite E. cbn [fst snd].
  by rewrite (apply_lines_written _ ws).
- unfold good_data. rewrite E. split; [|by left]. apply Forall_forall. intros l Hin. left.
  apply list_elem_of_lookup in Hin as [i Hi]. destruct (Forall2_lookup_r _ _ _ _ _ Hl Hi) as (w & _ & Hw). by exists w.
Qed.

Lemma list_filter_ext_in {A} (f g : A → bool) l : (∀ x, x ∈ l → f x = g x) → List.filter f l = List.filter g l.
Proof. intros H. apply List.filter_ext_in. intros x Hx. by apply H, list_elem_of_In. Qed.
Lemma list_filter_elem (l k : list ustr) : NoDup l → k `sublist_of` l → List.filter (λ x, bool_decide (x ∈ k)) l = k.
Proof.
intros Hnd Hsub. induction Hsub as [|x k l Hsub IH|x k l Hsub IH]; [done|..]; apply NoDup_cons in Hnd as [Hx Hnd]; cbn.
- rewrite bool_decide_eq_true_2 by left. f_equal. etrans; [|exact (IH Hnd)]. apply list_filter_ext_in. intros y Hy.
  apply bool_decide_ext. rewrite elem_of_cons. split; [intros [->|?]; done|auto].
- rewrite bool_decide_eq_false_2; [by apply IH|]. intros Hin. apply Hx. eapply elem_of_submseteq; [exact Hin|by apply sublist_submseteq].
Qed.

Definition keyed (s : journal_state) (ids : list ustr) : Prop :=
∀ id, id ∈ ids → ∃ e, changes s !! id = Some e ∧ change_id e = id.
Lemma keyed_ids s ids : keyed s ids → change_id <$> entries_of s ids = ids.
Proof.
induction ids as [|id ids IH]; intros H; [done|]. destruct (H id ltac:(left)) as (e & He & Hid).
rewrite entries_of_cons, He. cbn. rewrite Hid, IH; [done|]. intros i Hi. apply H. by right.
Qed.
Lemma still_open_entries C s ids : keyed s ids →
still_open C (entries_of s ids) = entries_of s (List.filter (λ id, negb (bool_decide (id ∈ C))) ids).
Proof.
induction ids as [|id ids IH]; intros H; [done|]. destruct (H id ltac:(left)) as (e & He & Hid).
rewrite entries_of_cons, He. change (option_list (Some e) ++ ?l) with (e :: l). unfold still_open in *. cbn [List.filter].
rewrite IH by (intros i Hi; apply H; by right). rewrite Hid. destruct (negb _); [|done].
rewrite entries_of_cons, He. done.
Qed.

Lemma kept_records_eq es kept : Forall (λ e, is_utc (at_time e)) es → res_mapM kept_record es = Ok kept → kept = full_record <$> es.
Proof.
intros Hu E%res_mapM_Ok. revert kept E. induction Hu as [|e es He _ IH]; intros kept E; inversion E as [|? k ? ks Hk Hks]; subst; [done|].
rewrite kept_record_eq in Hk by done. injection Hk as <-. cbn. f_equal. by apply IH.
Qed.

(** What a compaction keeps: the entries of [r2], which shows the state [S2] it
    works on, with their ids in [pend], to stay open, and in [keptc], which are
    committed. *)
Record selection (s r2 S2 : journal_state) (pend keptc : list ustr) : Prop := {
sel_shows : shows S2 r2;
sel_order : order S2 = order r2;
sel_nodup : NoDup (order r2);
sel_keyed : keyed r2 (order r2);
sel_times : ∀ id e, changes r2 !! id = Some e → is_utc (at_time e);
sel_pending : ∀ id e, id ∈ pend → changes r2 !! id = Some e →
  (∃ l, stable_json (JObj (full_record e)) = Ok l) → good_entry e;
sel_kept : ∀ id e, id ∈ keptc → changes r2 !! id = Some e → good_entry e;
sel_closed : ∀ id, id ∈ keptc → is_Some (commits s !! id);
sel_disjoint : ∀ id, id ∈ pend → id ∉ keptc;
}.
Definition selects (pend keptc : list ustr) (id : ustr) : bool := bool_decide (id ∈ pend) || bool_decide (id ∈ keptc).
Definition selected (r2 : journal_state) (pend keptc : list ustr) : list ustr := List.filter (selects pend keptc) (order r2).
Lemma selected_keyed s r2 S2 pend keptc : selection s r2 S2 pend keptc →
keyed r2 (selected r2 pend keptc) ∧ NoDup (selected r2 pend keptc).
Proof.
intros H. split.
- intros id Hid. apply (sel_keyed _ _ _ _ _ H). by apply elem_of_filter_list in Hid as [? _].
- apply NoDup_ListNoDup, List.NoDup_filter, NoDup_ListNoDup. by apply H.
Qed.
Lemma selected_entry r2 pend keptc e : e ∈ entries_of r2 (selected r2 pend keptc) →
∃ id, changes r2 !! id = Some e ∧ id ∈ order r2 ∧ (id ∈ pend ∨ id ∈ keptc).
Proof.
unfold entries_of. intros (id & Hid & He)%list_elem_of_omap. exists id. apply elem_of_filter_list in Hid as [Hid Hs].
split_and!; try done. unfold selects in Hs. apply orb_true_iff in Hs as [Hs|Hs]; to_prop; auto.
Qed.

(** The lines of a compaction: the entries, what is left of the commits, and the
    checkpoint. *)
Definition checkpoint_of (t : datetime) (s : journal_state) : written := WCheckpoint t (last_backup_hash s) (last_backup_id s).
Lemma checkpoint_lines s t lines : good_state s → is_utc t →
res_mapM (λ r, stable_json (JObj r)) [checkpoint_record (time_text t) (last_backup_hash s) (last_backup_id s)] = Ok lines →
Forall2 line_of [checkpoint_of t s] lines.
Proof.
intros Hs Ht H3%res_mapM_Ok. destruct (good_last s Hs) as [Hlh Hli].
inversion H3 as [|? l ? ? Hl Hnil]; subst. inversion Hnil; subst. constructor; [|constructor].
split_and!; [by split_and!|done|]. eapply checkpoint_line_length; [exact Ht|exact Hlh| |exact Hl].
intros i Hi. rewrite Hi in Hli. by apply backup_id_scalars in Hli as [_ ?].
Qed.
Lemma compacted_written s r2 S2 pend keptc kept t lines :
good_state s → is_utc t → selection s r2 S2 pend keptc →
res_mapM kept_record (entries_of S2 (List.filter (selects pend keptc) (order S2))) = Ok kept →
res_mapM (λ r, stable_json (JObj r)) (kept ++ (commit_records s ≫= commit_remainder keptc)
  ++ [checkpoint_record (time_text t) (last_backup_hash s) (last_backup_id s)]) = Ok lines →
∃ wcs, Forall2 line_of ((WChange <$> entries_of r2 (selected r2 pend keptc)) ++ wcs ++ [checkpoint_of t s]) lines
  ∧ Forall is_commit_or_checkpoint wcs
  ∧ wcs ≫= closes = List.filter (λ id, bool_decide (id ∈ keptc)) (commit_records s ≫= record_texts).
Proof.
intros Hs Ht Hsel Hkept Hlines. rewrite (sel_order _ _ _ _ _ Hsel), (shows_records S2 r2) in Hkept by apply Hsel.
apply kept_records_eq in Hkept as ->.
2: { apply Forall_forall. intros e (id & Hl & _)%selected_entry. by eapply (sel_times _ _ _ _ _ Hsel). }
apply res_mapM_app in Hlines as (l1 & l23 & -> & H1 & H23). apply res_mapM_app in H23 as (l2 & l3 & -> & H2 & H3).
assert (Forall good_entry (entries_of r2 (selected r2 pend keptc))) as Hge.
{ apply Forall_forall. intros e He. pose proof He as (id & Hl & _ & [Hp|Hk])%selected_entry; [|by eapply (sel_kept _ _ _ _ _ Hsel)].
  eapply (sel_pending _ _ _ _ _ Hsel); try done. apply res_mapM_Ok in H1. apply Forall2_fmap_l in H1. apply list_elem_of_lookup in He as [i Hi].
  destruct (Forall2_lookup_l _ _ _ _ _ H1 Hi) as (l & _ & Hl'). by exists l. }
destruct (remainder_written _ _ _ (good_commits s Hs) H2) as (wcs & L2 & Hc & Hcl). exists wcs. split_and!; try done.
repeat apply Forall2_app; [by apply kept_lines|done|by apply checkpoint_lines].
Qed.

(** What they say. *)
Lemma lines_written ws lines : Forall2 line_of ws lines → Forall good_written ws.
Proof.
intros H. apply Forall_forall. intros w Hw. apply list_elem_of_lookup in Hw as [i Hi].
by destruct (Forall2_lookup_l _ _ _ _ _ H Hi) as (l & _ & Hl & _).
Qed.
Lemma written_changes es : Forall good_written (WChange <$> es) → Forall good_entry es.
Proof. by rewrite Forall_fmap. Qed.
Lemma kept_open s r2 S2 (pend keptc : list ustr) (id : ustr) : good_state s → selection s r2 S2 pend keptc →
negb (bool_decide (id ∈ List.filter (λ id, bool_decide (id ∈ keptc)) (commit_records s ≫= record_texts)))
  && selects pend keptc id = bool_decide (id ∈ pend).
Proof.
intros Hs Hsel. unfold selects. destruct (bool_decide (id ∈ pend)) eqn:Ep.
- to_prop. rewrite bool_decide_eq_false_2; [done|]. intros Hx%elem_of_filter_list. destruct Hx as [_ Hx]. to_prop.
  by apply (sel_disjoint _ _ _ _ _ Hsel id).
- cbn [orb]. destruct (bool_decide (id ∈ keptc)) eqn:Ek; [|by rewrite andb_false_r].
  rewrite bool_decide_eq_true_2; [done|]. apply elem_of_filter_list. split; [|done]. to_prop.
  destruct (sel_closed _ _ _ _ _ Hsel id Ek) as [v Hv]. destruct (good_covered s Hs id v Hv) as (rec & Hrec & Hidr).
  apply list_elem_of_bind. by exists rec.
Qed.
(** The ids a record brings into the file. *)
Definition brings (w : written) : list ustr :=
match w with WChange e => [change_id e] | WCommit _ ids _ _ _ => ids | WCheckpoint _ _ _ => [] end.
Lemma brings_changes es : (WChange <$> es) ≫= brings = change_id <$> es.
Proof. induction es as [|e es IH]; [done|]. change (change_id e :: ((WChange <$> es) ≫= brings) = change_id e :: (change_id <$> es)). by rewrite IH. Qed.
Lemma brings_closes ws : Forall is_commit_or_checkpoint ws → ws ≫= brings = ws ≫= closes.
Proof.
induction 1 as [|w ws Hw _ IH]; [done|]. change (brings w ++ (ws ≫= brings) = closes w ++ (ws ≫= closes)). rewrite IH.
by destruct w.
Qed.
Lemma compacted_says s r2 S2 pend keptc wcs t lines :
good_state s → is_utc t → selection s r2 S2 pend keptc →
Forall2 line_of ((WChange <$> entries_of r2 (selected r2 pend keptc)) ++ wcs ++ [checkpoint_of t s]) lines →
Forall is_commit_or_checkpoint wcs →
wcs ≫= closes = List.filter (λ id, bool_decide (id ∈ keptc)) (commit_records s ≫= record_texts) →
let ws := (WChange <$> entries_of r2 (selected r2 pend keptc)) ++ wcs ++ [checkpoint_of t s] in
last_of (effects ws empty_state) = last_of s
∧ owed (effects ws empty_state) = entries_of r2 (List.filter (λ id, bool_decide (id ∈ pend)) (order r2))
∧ (∀ id, id ∈ ws ≫= brings → id ∈ order r2 ∨ is_Some (commits s !! id)).
Proof.
intros Hs Ht Hsel L Hc Hcl ws. pose proof (lines_written _ _ L) as Hg.
apply Forall_app in Hg as [Hg1 Hg2]. pose proof (written_changes _ Hg1) as Hge.
destruct (selected_keyed _ _ _ _ _ Hsel) as [Hk Hnd]. unfold ws. split_and!.
- by rewrite !effects_app.
- rewrite effects_app, owed_commits; [|done|apply Forall_app; split; [done|by constructor]|].
  2: { apply raw_ok_effects; [done|apply raw_ok_empty]. }
  rewrite owed_changes; [|apply raw_ok_empty|done|by rewrite keyed_ids|done].
  change (owed empty_state ++ ?l) with l. rewrite bind_app, Hcl. change ([checkpoint_of t s] ≫= closes) with (@nil ustr).
  rewrite app_nil_r, still_open_entries by done. f_equal. unfold selected. rewrite list_filter_filter.
  apply list_filter_ext_in. intros id _. by apply (kept_open s r2 S2).
- intros id. rewrite !bind_app, brings_changes, brings_closes, Hcl, keyed_ids by done. rewrite !elem_of_app.
  intros [Hin|[Hin|Hin]].
  + left. by apply elem_of_filter_list in Hin as [? _].
  + right. apply elem_of_filter_list in Hin as [Hin _]. apply list_elem_of_bind in Hin as (rec & Hid & Hrec).
    by eapply (good_recorded s Hs).
  + by apply not_elem_of_nil in Hin.
Qed.

Lemma total_bound l : Forall good_entry l → ulen l <= total l.
Proof.
unfold ulen. induction 1 as [|e l He _ IH]; [done|]. change (total (e :: l)) with (merged e + total l). cbn [length].
pose proof (good_merged e He). lia.
Qed.
(** The merged entry is well formed if it could be printed. *)
Lemma stands_good tok e older : stands_for tok e older → Forall good_entry older →
forallb id_char (take 24 tok) = true → (24 <= length tok)%nat →
(∃ l, stable_json (JObj (full_record e)) = Ok l) → good_entry e.
Proof.
intros (Hid & Hr & Hm & Hst & Hb & Ha & Hs & first & final & Hf & Hl & Ht & Hbh & Hah) Hg Htok Hlen (l & Hprint).
assert (first ∈ older) as Hfin by (destruct older; [done|injection Hf as ->; left]).
assert (final ∈ older) as Hlin by (by apply last_Some_elem_of).
pose proof Hg as Hg'. rewrite Forall_forall in Hg. pose proof (Hg _ Hfin) as Gf. pose proof (Hg _ Hlin) as Gl.
assert (1 <= total older) as Htot.
{ pose proof (total_bound older Hg'). unfold ulen in *. destruct older; [done|]. cbn [length] in *. lia. }
assert (length (dec (total older)) <= int_max_str_digits)%nat as Hdig.
{ destruct (Z.ltb_spec 1 (total older)) as [Hgt|Hle].
  - unfold stable_json in Hprint. destruct recursion_limit as [|d]; [by cbn in Hprint|].
    apply obj_length in Hprint as [_ Hall]; [|done]. rewrite Forall_forall in Hall.
    destruct (Hall (u "merged", JInt (merged e))) as (x & Hx).
    + unfold full_record. rewrite Hm, (proj2 (Z.ltb_lt _ _)) by done. rewrite !elem_of_app. right. right. left.
    + cbn [snd] in Hx. rewrite <-Hm. eapply dumps_int_digits; [lia|exact Hx].
  - assert (total older = 1) as -> by lia. apply (bool_decide_unpack _). vm_compute. exact I. }
split.
- rewrite Hid. apply (prefixed_id "overflow_"); [done|done|]. rewrite length_take.
  change (length (u "overflow_")) with 9%nat. unfold ustr in *. lia.
- rewrite Ht. apply Gf.
- rewrite Ha. cbn. split; [done|lia].
- rewrite Hs. split.
  + pose proof (printable_scalars _ (print_int_printable (total older))) as Hp. unfold scalars in *.
    by rewrite forallb_app, Hp.
  + rewrite length_app. unfold print_int. rewrite (proj2 (Z.ltb_ge _ 0)) by lia. unfold int_max_str_digits, ustr in *.
    change (length (u " older uncommitted changes merged")) with 33%nat. lia.
- rewrite Hbh, Hah. destruct Gf as [_ _ _ _ [-> _]%andb_true_iff _ _]. by destruct Gl as [_ _ _ _ [_ ->]%andb_true_iff _ _].
- lia.
- done.
Qed.

Lemma open_entries s : raw_ok s → keyed s (open_ids s) ∧ keyed s (order s).
Proof.
intros Hs. assert (keyed s (order s)) as H.
{ intros id Hid. apply (raw_order s Hs) in Hid as [e He]. exists e. split; [done|by apply (raw_entry s Hs)]. }
split; [|done]. intros id Hid. apply H. by apply open_ids_elem in Hid as [? _].
Qed.
Lemma open_filter s : raw_ok s → List.filter (λ id, bool_decide (id ∈ open_ids s)) (order s) = open_ids s.
Proof. intros Hs. apply list_filter_elem; [by apply Hs|]. apply sublist_filter. Qed.

(** What is owed after a compaction. *)
Definition compacted (tok : ustr) (olds news : list JournalEntry) : Prop :=
news = olds ∨ ∃ older newest e, olds = older ++ newest ∧ news = e :: newest ∧ stands_for tok e older.

Lemma compacted_total tok olds news : compacted tok olds news → total news = total olds.
Proof.
intros [->|(older & newest & e & -> & -> & _ & _ & Hm & _)]; [done|].
change (total (e :: newest)) with (merged e + total newest). rewrite total_app. lia.
Qed.

(** ** The two kinds of compaction *)

Lemma kept_commits c s keptc : good_state s →
committed_within_budget c (apply_commits s) (List.filter (λ id, match changes (apply_commits s) !! id with
  | Some e => negb (bool_decide (status e = pending_status)) && negb (recovered e) | None => false end) (order s)) = Ok keptc →
∀ id, id ∈ keptc → is_Some (commits s !! id).
Proof.
intros Hs Ek id Hid. pose proof (committed_within_sub _ _ _ _ Ek id Hid) as Hx. apply elem_of_filter_list in Hx as [_ Hx].
rewrite lookup_apply_commits in Hx. destruct (changes s !! id) as [e|] eqn:Ee; [|done]. cbn in Hx.
destruct (commits s !! id) as [[oc bid]|]; [done|]. destruct (raw_entry s (good_raw s Hs) id e Ee) as (_ & Hst & _).
by rewrite Hst in Hx.
Qed.
Lemma open_not_kept s (keptc : list ustr) : (∀ id, id ∈ keptc → is_Some (commits s !! id)) → ∀ id, id ∈ open_ids s → id ∉ keptc.
Proof. intros Hk id [_ Hid]%open_ids_elem Hin. destruct (Hk id Hin) as [? Hv]. congruence. Qed.

Lemma selection_plain s keptc : good_state s → (∀ id, id ∈ keptc → is_Some (commits s !! id)) →
selection s s (apply_commits s) (open_ids s) keptc.
Proof.
intros Hs Hk. pose proof (good_raw s Hs) as Hraw. split; try done; [apply shows_commits|apply Hraw|by apply open_entries|..].
- intros id e He. by apply (good_entries s Hs) in He as [].
- intros id e _ He _. by eapply good_entries.
- intros id e _ He. by eapply good_entries.
- by apply open_not_kept.
Qed.

(** The state in which the entry [e] stands for [older]. *)
Definition merged_order (older : list ustr) (e : JournalEntry) (s : journal_state) : list ustr :=
change_id e :: List.filter (λ id, negb (bool_decide (id ∈ older))) (order s).
Definition merged_state (older : list ustr) (e : JournalEntry) (s : journal_state) : journal_state :=
with_changes (<[change_id e := e]> (changes s)) (merged_order older e s) s.
Lemma merged_nodup older e s : raw_ok s → change_id e ∉ order s → NoDup (merged_order older e s).
Proof.
intros Hraw Hno. apply NoDup_cons. split; [|by apply NoDup_ListNoDup, List.NoDup_filter, NoDup_ListNoDup, Hraw].
intros Hin%elem_of_filter_list. tauto.
Qed.
Lemma older_good s older newest : good_state s → open_ids s = older ++ newest → Forall good_entry (entries_of s older).
Proof.
intros Hs _. apply Forall_forall. intros e He. unfold entries_of in He. apply list_elem_of_omap in He as (id & _ & He).
by eapply good_entries.
Qed.
Lemma selection_merged tok s older newest e keptc : good_state s → (∀ id, id ∈ keptc → is_Some (commits s !! id)) →
open_ids s = older ++ newest → stands_for tok e (entries_of s older) → changes s !! change_id e = None →
commits s !! change_id e = None → forallb id_char (take 24 tok) = true → (24 <= length tok)%nat →
selection s (merged_state older e s) (with_changes (<[change_id e := e]> (changes (apply_commits s))) (merged_order older e s) (apply_commits s))
  (change_id e :: newest) keptc.
Proof.
intros Hs Hk Eo Hst Hfc Hfm Htok Hlen. pose proof (good_raw s Hs) as Hraw.
assert (change_id e ∉ order s) as Hno.
{ intros Hin. apply (raw_order s Hraw) in Hin as [? Hin]. by rewrite Hfc in Hin. }
pose proof (older_good s older newest Hs Eo) as Hgo. split; try done.
- intros id. cbn [merged_state with_changes changes]. destruct (decide (change_id e = id)) as [<-|Hne].
  + by rewrite !lookup_insert_eq. + rewrite !lookup_insert_ne by done. apply shows_commits.
- by apply merged_nodup.
- intros id [->|Hin]%elem_of_cons; [exists e; cbn; by rewrite lookup_insert_eq|].
  apply elem_of_filter_list in Hin as [Hin _]. cbn. rewrite lookup_insert_ne by (by intros <-).
  by apply open_entries.
- intros id e'. cbn. rewrite lookup_insert_Some. intros [[_ <-]|[_ H]]; [|by apply (good_entries s Hs) in H as []].
  destruct Hst as (_ & _ & _ & _ & _ & _ & _ & first & final & Hf & _ & -> & _).
  rewrite Forall_forall in Hgo. apply Hgo. destruct (entries_of s older); [done|injection Hf as ->; left].
- intros id e' _. cbn. rewrite lookup_insert_Some. intros [[_ <-]|[_ He']] Hpr; [|by eapply good_entries].
  by eapply stands_good.
- intros id e' Hin. cbn. rewrite lookup_insert_Some. intros [[<- _]|[_ H]]; [|by eapply good_entries].
  destruct (Hk _ Hin) as [? ?]. congruence.
- intros id [->|Hin]%elem_of_cons Hx; [destruct (Hk _ Hx) as [? ?]; congruence|].
  apply (open_not_kept s keptc Hk id); [|done]. rewrite Eo. apply elem_of_app. by right.
Qed.
Lemma merged_pending s older newest e : raw_ok s → open_ids s = older ++ newest → change_id e ∉ order s →
entries_of (merged_state older e s) (List.filter (λ id, bool_decide (id ∈ change_id e :: newest)) (merged_order older e s))
= e :: entries_of s newest.
Proof.
intros Hraw Eo Hno. pose proof (open_ids_nodup s Hraw) as Hnd. rewrite Eo in Hnd. apply NoDup_app in Hnd as (_ & Hd & _).
rewrite list_filter_elem; [|by apply merged_nodup|].
- rewrite entries_of_cons. cbn [merged_state with_changes changes]. rewrite lookup_insert_eq. cbn [option_list app]. f_equal.
  apply entries_of_ext. intros id Hin. cbn. rewrite lookup_insert_ne; [done|]. intros <-. apply Hno.
  assert (change_id e ∈ open_ids s) as Hop by (rewrite Eo; apply elem_of_app; by right). by apply open_ids_elem in Hop as [? _].
- apply sublist_skip. assert (newest = List.filter (λ id, negb (bool_decide (id ∈ older))) (open_ids s)) as Hnew.
  { rewrite Eo, List.filter_app, filter_none, filter_all; [done|..]; apply Forall_forall; intros id Hin.
    - rewrite bool_decide_eq_false_2; [done|]. intros ?. by eapply Hd.
    - by rewrite bool_decide_eq_true_2. }
  rewrite Hnew. unfold open_ids. rewrite list_filter_filter.
  rewrite (list_filter_ext_in _ (λ x, is_open s x && negb (bool_decide (x ∈ older)))) by (intros; apply andb_comm).
  rewrite <-list_filter_filter. apply sublist_filter.
Qed.

Lemma compact_lines c t tok s records lines :
good_state s → is_utc t → forallb id_char (take 24 tok) = true → (24 <= length tok)%nat →
changes s !! overflow_id tok = None → commits s !! overflow_id tok = None →
compacted_records c t tok (apply_commits s) = Ok records →
res_mapM (λ r, stable_json (JObj r)) records = Ok lines →
∃ ws, Forall2 line_of ws lines ∧ last_of (effects ws empty_state) = last_of s
∧ compacted tok (owed s) (owed (effects ws empty_state))
∧ (∀ id, id ∈ ws ≫= brings → id = overflow_id tok ∨ is_Some (changes s !! id) ∨ is_Some (commits s !! id)).
Proof.
intros Hs Ht Htok Hlen Hfc Hfm Hrec Hlines. pose proof (good_raw s Hs) as Hraw. unfold compacted_records in Hrec.
destruct (committed_within_budget _ _ _) as [keptc|] eqn:Ek; [|done]. cbn [mbind result_bind] in Hrec.
pose proof (kept_commits c s keptc Hs Ek) as Hk.
destruct (merge_overflow c tok (apply_commits s)) as [[S2 pend]|] eqn:Em; [|done]. cbn [mbind result_bind] in Hrec.
destruct (res_mapM kept_record _) as [kept|] eqn:Ekept; [|done]. cbn [mbind result_bind] in Hrec.
destruct (if forallb _ _ then _ else _) as [|]; [|done]. cbn [mbind result_bind] in Hrec.
rewrite format_time_text in Hrec by done. cbn [mbind result_bind] in Hrec. injection Hrec as <-.
destruct (merge_spec c tok s S2 pend Hraw Em) as [[-> ->]|(older & newest & e & Eo & Hst & -> & ->)].
- pose proof (selection_plain s keptc Hs Hk) as Hsel.
  destruct (compacted_written _ _ _ _ _ _ _ _ Hs Ht Hsel Ekept Hlines) as (wcs & L & Hc & Hcl).
  destruct (compacted_says _ _ _ _ _ _ _ _ Hs Ht Hsel L Hc Hcl) as (Hl & Hw & Hb).
  eexists. split_and!; [exact L|exact Hl|left; by rewrite Hw, open_filter|].
  intros id Hid. destruct (Hb id Hid) as [Hin|?]; [|auto]. right. left. by apply (raw_order s Hraw).
- pose proof Hst as (Hid & _). rewrite <-Hid in Hfc, Hfm.
  pose proof (selection_merged tok s older newest e keptc Hs Hk Eo Hst Hfc Hfm Htok Hlen) as Hsel.
  destruct (compacted_written _ _ _ _ _ _ _ _ Hs Ht Hsel Ekept Hlines) as (wcs & L & Hc & Hcl).
  destruct (compacted_says _ _ _ _ _ _ _ _ Hs Ht Hsel L Hc Hcl) as (Hl & Hw & Hb).
  eexists. split_and!; [exact L|exact Hl| |].
  + right. exists (entries_of s older), (entries_of s newest), e. split_and!; [by unfold owed; rewrite Eo, entries_of_app| |done].
    rewrite Hw. apply merged_pending; try done. intros Hin. apply (raw_order s Hraw) in Hin as [? Hin]. by rewrite Hfc in Hin.
  + intros id Hin. destruct (Hb id Hin) as [[->|Ho]%elem_of_cons|?]; [by left| |auto].
    apply elem_of_filter_list in Ho as [Ho _]. right. left. by apply (raw_order s Hraw).
Qed.
End compaction.
