(* ===== verification/JournalLedger.v ===== *)
(** * Which changes a pending entry stands for

    A ledger gives, for each pending entry of a journal in order, the changes it
    stands for: itself, or, for an entry that compaction made, every change
    merged into it.  [carried] is how a ledger follows a call: from the entries
    pending afterwards alone. *)

From S2P Require Import Prelude Json JsonProofs Journal JournalLines JournalRecords JournalStates.
From S2P Require Import JournalSafety JournalCompaction.
#[local] Open Scope Z_scope.
#[local] Open Scope list_scope.

(** ** Ledgers *)

(** The id of a pending entry, and the changes the entry stands for, oldest
    first. *)
Definition ledger : Type := list (ustr * list JournalEntry).

Definition originals (L : ledger) : list JournalEntry := mjoin (snd <$> L).
Definition under (ids : list ustr) (L : ledger) : ledger := List.filter (λ hg, bool_decide (hg.1 ∈ ids)) L.
Definition not_under (ids : list ustr) (L : ledger) : ledger := List.filter (λ hg, negb (bool_decide (hg.1 ∈ ids))) L.

(** The ledger of the entries [news] pending after a call that compacts with
    [tok]: the overflow entry of this compaction stands for whatever is no longer
    pending and was not [named] by a commit; an entry that was pending keeps its
    changes; any other entry is a change of its own. *)
Definition carried (tok : ustr) (named : list ustr) (news : list JournalEntry) (L : ledger) : ledger :=
  (λ e, (change_id e,
         if bool_decide (change_id e = overflow_id tok)
         then originals (not_under (named ++ (change_id <$> news)) L)
         else default [e] (jget (change_id e) L))) <$> news.

(** [e] stands for the changes [g]: it counts them all, starts where the first of
    them starts and leads to where the last one leads; it is that change, or an
    overflow entry. *)
Record stands (e : JournalEntry) (g : list JournalEntry) : Prop := {
  st_count : merged e = ulen g;
  st_first : ∃ x, head g = Some x ∧ at_time e = at_time x ∧ before_hash e = before_hash x;
  st_last : ∃ x, last g = Some x ∧ after_hash e = after_hash x;
  st_kind : (∃ x, g = [x] ∧ same_entry e x) ∨ ∃ tok, change_id e = overflow_id tok;
}.
Definition reps (es : list JournalEntry) (L : ledger) : Prop :=
  Forall2 (λ e hg, change_id e = hg.1 ∧ stands e hg.2) es L.

(** ** Entries and what they stand for *)

Lemma same_entry_fields e e' : same_entry e e' →
  at_time e = at_time e' ∧ before_hash e = before_hash e' ∧ after_hash e = after_hash e'.
Proof.
  unfold same_entry, forget. destruct (recovered e) eqn:E, (recovered e') eqn:E'; intros H.
  - by injection H.
  - subst e'. done.
  - subst e. done.
  - by subst e'.
Qed.
Lemma stands_same e e' g : same_entry e e' → stands e' g → stands e g.
Proof.
  intros H [Hc (x & Hx & Ht & Hb) (y & Hy & Ha) Hk].
  destruct (same_entry_id _ _ H) as (Hid & Hm & _). destruct (same_entry_fields _ _ H) as (E1 & E2 & E3).
  split; [congruence|exists x; split_and!; congruence|exists y; split; congruence|].
  destruct Hk as [(z & -> & Hz)|(tok & Hz)]; [left; exists z; split; [done|by etrans]|right; exists tok; congruence].
Qed.
Lemma stands_itself e : merged e = 1 → stands e [e].
Proof. intros H. split; [done|by exists e|by exists e|left; by exists e]. Qed.

Lemma stands_counted e g x : stands e g → x ∈ g → 1 <= merged e.
Proof.
  intros H Hx. rewrite (st_count _ _ H). destruct g as [|y g]; [by apply not_elem_of_nil in Hx|].
  unfold ulen. cbn [length]. lia.
Qed.
Lemma merged_groups es gs : Forall2 stands es gs → ulen (mjoin gs) = total es.
Proof.
  induction 1 as [|e g es gs Hg _ IH]; [done|].
  change (ulen (g ++ mjoin gs) = merged e + total es). rewrite (st_count _ _ Hg), <-IH.
  unfold ulen. rewrite length_app. lia.
Qed.
Lemma head_groups es gs x : Forall2 stands es gs → head es = Some x →
  ∃ y, head (mjoin gs) = Some y ∧ at_time x = at_time y ∧ before_hash x = before_hash y.
Proof.
  intros [|e g es' gs' [_ (y & Hy & ? & ?) _ _] _]; [done|]. intros [= <-].
  exists y. split; [|done]. change (head (g ++ mjoin gs') = Some y). by destruct g.
Qed.
Lemma last_groups es gs x : Forall2 stands es gs → last es = Some x →
  ∃ y, last (mjoin gs) = Some y ∧ after_hash x = after_hash y.
Proof.
  intros H. revert x. induction H as [|e g es gs Hg Hgs IH]; intros x; [done|].
  change (mjoin (g :: gs)) with (g ++ mjoin gs). rewrite last_app. destruct es as [|e' es].
  - inversion Hgs; subst. intros [= <-]. destruct (st_last _ _ Hg) as (y & Hy & Ha).
    exists y. by rewrite Hy.
  - intros Hl. change (last (e' :: es) = Some x) in Hl. destruct (IH x Hl) as (y & Hy & Ha).
    exists y. by rewrite Hy.
Qed.
(** A merged entry stands for what the merged ones stood for. *)
Lemma stands_merged tok e older gs : stands_for tok e older → Forall2 stands older gs → stands e (mjoin gs).
Proof.
  intros (Hid & _ & Hm & _ & _ & _ & _ & first & final & Hf & Hl & Ht & Hb & Ha) H.
  destruct (head_groups _ _ _ H Hf) as (x & Hx & Hxt & Hxb). destruct (last_groups _ _ _ H Hl) as (y & Hy & Hya).
  split.
  - rewrite Hm. by rewrite (merged_groups older).
  - exists x. split_and!; congruence.
  - exists y. split; congruence.
  - right. by exists tok.
Qed.

(** ** Lookups *)

Lemma elem_of_originals x L : x ∈ originals L ↔ ∃ hg, hg ∈ L ∧ x ∈ hg.2.
Proof.
  unfold originals. rewrite list_elem_of_join. setoid_rewrite list_elem_of_fmap. split.
  - intros (g & Hx & hg & -> & Hin). by exists hg.
  - intros (hg & Hin & Hx). exists hg.2. split; [done|]. by exists hg.
Qed.
Lemma elem_of_not_under ids hg L : hg ∈ not_under ids L ↔ hg ∈ L ∧ hg.1 ∉ ids.
Proof. unfold not_under. by rewrite elem_of_filter_list, negb_true_iff, bool_decide_eq_false. Qed.
Lemma not_under_app ids1 ids2 L : not_under (ids1 ++ ids2) L = not_under ids2 (not_under ids1 L).
Proof.
  unfold not_under. rewrite list_filter_filter. apply filter_ext_in'. intros hg _.
  rewrite (bool_decide_ext _ _ (elem_of_app _ _ _)), bool_decide_or.
  by destruct (bool_decide (_ ∈ ids1)), (bool_decide (_ ∈ ids2)).
Qed.
Lemma not_under_nil L : not_under [] L = L.
Proof.
  apply filter_all, Forall_true. intros hg. by rewrite bool_decide_eq_false_2 by apply not_elem_of_nil.
Qed.
Lemma not_under_nodup ids L : NoDup (L.*1) → NoDup ((not_under ids L).*1).
Proof.
  intros H. assert ((not_under ids L).*1 = List.filter (λ id : ustr, negb (bool_decide (id ∈ ids))) (L.*1)) as ->.
  { unfold not_under. by rewrite filter_fmap. }
  by apply NoDup_ListNoDup, List.NoDup_filter, NoDup_ListNoDup.
Qed.
Lemma reps_ids es L : reps es L → change_id <$> es = L.*1.
Proof. induction 1 as [|e hg es L [H _] _ IH]; [done|]. cbn. by rewrite H, IH. Qed.
Lemma reps_lookup es L e : reps es L → e ∈ es → ∃ g, (change_id e, g) ∈ L ∧ stands e g.
Proof.
  intros H He. destruct (Forall2_in_l _ _ _ _ H He) as ([h g] & Hin & Hh & Hg). cbn in *. subst h. by exists g.
Qed.
Lemma reps_groups es L : reps es L → Forall2 stands es (snd <$> L).
Proof. induction 1 as [|e hg es L [_ H] _ IH]; [constructor|]. by constructor. Qed.
(** The open entries are those whose groups are not named. *)
Lemma reps_still_open ids es L : reps es L → reps (still_open ids es) (not_under ids L).
Proof.
  unfold still_open, not_under. induction 1 as [|e hg es L [H Hg] _ IH]; [constructor|]. cbn [List.filter].
  rewrite H. destruct (bool_decide _); cbn [negb]; [done|]. by constructor.
Qed.

(** ** A ledger is carried over a call *)

Section carried.
Context (tok : ustr) (named : list ustr).
Context (mid base extra news : list JournalEntry) (L Lb : ledger).

(** [base] of the entries in [L] are still there, with what was recovered. *)
Hypothesis Hnd : NoDup (L.*1).
Hypothesis Hov : overflow_id tok ∉ L.*1.
Hypothesis Hbase : reps base Lb.
Hypothesis Hsub : ∀ hg, hg ∈ Lb → hg ∈ L.
Hypothesis Hndb : NoDup (Lb.*1).
Hypothesis Hmid : Forall2 same_entry mid (base ++ extra).
Hypothesis Hextra : ∀ e, e ∈ extra → change_id e ∉ L.*1 ∧ change_id e ≠ overflow_id tok ∧ merged e = 1.
Hypothesis Hcase : news = mid ∨ extra = [] ∧ Lb = not_under named L ∧ compacted tok mid news.

Definition group_of (e : JournalEntry) : list JournalEntry :=
if bool_decide (change_id e = overflow_id tok) then originals (not_under (named ++ (change_id <$> news)) L)
else default [e] (jget (change_id e) L).

Lemma mid_group e : e ∈ mid → change_id e ≠ overflow_id tok ∧ stands e (default [e] (jget (change_id e) L)).
Proof.
intros He. destruct (Forall2_in_l _ _ _ _ Hmid He) as (e0 & Hin & Hs).
destruct (same_entry_id _ _ Hs) as (Hid & Hm & _). apply elem_of_app in Hin as [Hin|Hin].
- destruct (reps_lookup _ _ _ Hbase Hin) as (g & Hg & Hst). rewrite <-Hid in Hg.
  assert (jget (change_id e) L = Some g) as Hj by (by apply jget_elem, Hsub).
  rewrite Hj. split; [|by eapply stands_same]. intros E. apply Hov. rewrite <-E. apply list_elem_of_fmap. exists (change_id e, g). split; [done|]. by apply Hsub.
- destruct (Hextra _ Hin) as (Hn & Ho & H1). rewrite <-Hid in Hn, Ho.
  destruct (jget (change_id e) L) as [g|] eqn:Hj.
  { exfalso. apply Hn, list_elem_of_fmap. apply jget_elem in Hj; [|done]. by exists (change_id e, g). }
  split; [done|apply stands_itself; congruence].
Qed.
(** What compaction merged is what is gone without being named. *)
Lemma merged_away older newest e : extra = [] → Lb = not_under named L →
mid = older ++ newest → news = e :: newest → stands_for tok e older →
∃ L1 L2, Lb = L1 ++ L2 ∧ not_under (named ++ (change_id <$> news)) L = L1
  ∧ Forall2 stands older (snd <$> L1) ∧ L2.*1 = change_id <$> newest.
Proof.
intros Hx HLb Emid Enews (Hid & _).
assert (reps mid Lb) as Hreps.
{ revert Hmid Hbase. rewrite Hx, app_nil_r. clear. intros H. revert Lb.
  induction H as [|e0 e1 es es1 Hs _ IH]; intros Lb Hb; inversion Hb as [|? hg ? L' [E Hst] HL]; subst; constructor.
  - split; [|by eapply stands_same]. rewrite <-E. by destruct (same_entry_id _ _ Hs).
  - by apply IH. }
rewrite Emid in Hreps. apply Forall2_app_inv_l in Hreps as (L1 & L2 & H1 & H2 & E12).
pose proof (reps_ids _ _ H1) as E1. pose proof (reps_ids _ _ H2) as E2.
exists L1, L2. split_and!; [done| |by apply reps_groups|done].
rewrite not_under_app, <-HLb, E12. unfold not_under. rewrite List.filter_app, filter_all, filter_none; [apply app_nil_r|..].
- apply Forall_forall. intros hg Hhg. rewrite bool_decide_eq_true_2; [done|]. rewrite Enews. cbn. right.
  rewrite E2. apply list_elem_of_fmap. by exists hg.
- apply Forall_forall. intros hg Hhg. rewrite bool_decide_eq_false_2; [done|]. rewrite Enews. cbn. rewrite Hid.
  intros [E|Hin]%elem_of_cons.
  + apply Hov. rewrite <-E. apply list_elem_of_fmap. exists hg. split; [done|]. apply Hsub. rewrite E12. apply elem_of_app. by left.
  + rewrite E12, fmap_app in Hndb. apply NoDup_app in Hndb as (_ & Hd & _). apply (Hd hg.1).
    * apply list_elem_of_fmap. by exists hg.
    * by rewrite <-E2.
Qed.

Lemma news_group e : e ∈ news → stands e (group_of e).
Proof.
intros He. unfold group_of.
assert (e ∈ mid → stands e (if bool_decide (change_id e = overflow_id tok)
  then originals (not_under (named ++ (change_id <$> news)) L) else default [e] (jget (change_id e) L))) as Hm.
{ intros H. destruct (mid_group e H) as (Hne & Hst). by rewrite bool_decide_eq_false_2. }
destruct Hcase as [E|(Hx & HLb & Hc)]; [apply Hm; by rewrite <-E|].
destruct Hc as [E|(older & newest & e1 & Emid & Enews & Hst)]; [apply Hm; by rewrite <-E|].
rewrite Enews in He. apply elem_of_cons in He as [->|He]; [|apply Hm; rewrite Emid; apply elem_of_app; by right].
destruct (merged_away _ _ _ Hx HLb Emid Enews Hst) as (L1 & L2 & _ & -> & Hg & _).
rewrite bool_decide_eq_true_2 by apply Hst. by eapply stands_merged.
Qed.

Lemma carried_reps : reps news (carried tok named news L).
Proof.
unfold reps, carried. apply Forall2_fmap_r, Forall_Forall2_diag, Forall_forall. intros e He. split; [done|].
by apply news_group.
Qed.

Lemma carried_keeps x : x ∈ originals Lb → x ∈ originals (carried tok named news L).
Proof.
intros (hg & Hhg & Hx)%elem_of_originals. apply elem_of_originals.
assert (∀ e, e ∈ news → e ∈ mid → change_id e = hg.1 →
  ∃ hg', hg' ∈ carried tok named news L ∧ x ∈ hg'.2) as Hstay.
{ intros e Hn Hm E. exists (change_id e, group_of e). split; [by apply list_elem_of_fmap; exists e|].
  destruct (mid_group e Hm) as (Hne & _). unfold group_of. rewrite bool_decide_eq_false_2 by done.
  assert (jget (change_id e) L = Some hg.2) as ->; [|done].
  apply jget_elem; [done|]. rewrite E. apply Hsub in Hhg. by destruct hg. }
assert (∃ e, e ∈ mid ∧ change_id e = hg.1) as (e & Hm & E).
{ destruct (Forall2_in_r _ _ _ _ Hbase Hhg) as (e0 & He0 & Hid & _).
  destruct (Forall2_in_r _ _ _ e0 Hmid) as (e & He & Hs); [apply elem_of_app; by left|].
  exists e. split; [done|]. destruct (same_entry_id _ _ Hs) as (-> & _). done. }
destruct Hcase as [En|(Hx0 & HLb & Hc)]; [apply (Hstay e); [by rewrite En|done..]|].
destruct Hc as [En|(older & newest & e1 & Emid & Enews & Hst)]; [apply (Hstay e); [by rewrite En|done..]|].
destruct (merged_away _ _ _ Hx0 HLb Emid Enews Hst) as (L1 & L2 & E12 & Hgone & _ & E2).
rewrite E12 in Hhg. apply elem_of_app in Hhg as [Hhg|Hhg].
- exists (change_id e1, group_of e1). split; [apply list_elem_of_fmap; exists e1; split; [done|]; rewrite Enews; by left|].
  unfold group_of. rewrite bool_decide_eq_true_2, Hgone by apply Hst. cbn [snd].
  apply elem_of_originals. by exists hg.
- assert (hg.1 ∈ change_id <$> newest) as Hin by (rewrite <-E2; apply list_elem_of_fmap; by exists hg).
  apply list_elem_of_fmap in Hin as (e2 & E3 & He2).
  apply (Hstay e2); [rewrite Enews; by right|rewrite Emid; apply elem_of_app; by right|done].
Qed.
End carried.
