(* ===== verification/JournalHistory.v ===== *)
(** * Histories of a journal

    From no file on, through any calls, faults and crashes: the file stays
    readable, and each change that was acknowledged is pending, as itself or in
    an overflow entry that counts it, unless a commit named it. *)

From S2P Require Import Prelude PyStr Calendar Json JsonProofs Journal JournalLines JournalExample JournalRecords JournalStates.
From S2P Require Import JournalSafety JournalLengths JournalCompaction JournalLedger.
#[local] Open Scope Z_scope.
#[local] Open Scope list_scope.

Section files.
Context {RT : Runtime} {RL : RuntimeLaws RT}.

(** A file of a size the system allows, all of whose lines were written here. *)
Definition good_file (f : node) : Prop := ∃ data, contents f = Some data ∧ good_data data ∧ ulen data < 2 ^ 63.

Lemma ulen_payload_lines data : ulen (split_lines data).1 <= ulen data.
Proof.
pose proof (split_lines_join data) as E. apply (f_equal (@length Z)) in E. rewrite length_app in E.
assert (length (split_lines data).1 <= length (payload_of (split_lines data).1))%nat; [|unfold ulen; lia].
generalize (split_lines data).1. unfold payload_of. intros ls. induction ls as [|l ls IH]; [done|].
change ((l :: ls) ≫= ?f) with (f l ++ (ls ≫= f)). rewrite !length_app. cbn [length]. lia.
Qed.
Lemma small_countable m : 1 <= m <= 2 ^ 63 → countable_lines m.
Proof.
intros Hm. split; [lia|]. pose proof (dec_length m) as Hl.
assert (Z.log2 m < 64) by (apply Z.log2_lt_pow2; lia). unfold int_max_str_digits. lia.
Qed.
Lemma good_file_parse f : good_file f → ∃ data s, contents f = Some data ∧ good_data data ∧ parse_records data = Ok s ∧ good_state s.
Proof.
intros (data & Hc & Hg & Hs). destruct (good_parse data Hg) as (s & Hp & Hgs); [|by exists data, s].
intros m Hm. apply small_countable. unfold next_line in Hm. pose proof (ulen_payload_lines data). lia.
Qed.

Lemma good_data_payload data lines p : good_data data → (split_lines data).2 = [] → Forall good_line lines →
Forall one_line lines → one_line p → (p = [] ∨ good_line p) → good_data (data ++ payload_of lines ++ p).
Proof.
intros [Hl _] Ht Hls Hone Hp Hgp. destruct (split_lines data) as [dl t] eqn:E. cbn in Ht, Hl. subst t.
unfold good_data. rewrite (split_lines_app _ _ _ _ E). cbn [app fst snd].
rewrite split_lines_payload, (split_lines_line p) by done. cbn [fst snd]. rewrite app_nil_r.
split; [by apply Forall_app|done].
Qed.
Lemma good_data_terminated data : good_data data →
good_data (data ++ terminator data) ∧ (split_lines (data ++ terminator data)).2 = [].
Proof.
intros Hg. unfold terminator. rewrite torn_tail_split. case_bool_decide as Ht; cbn [negb]; [by rewrite app_nil_r|].
pose proof (split_lines_one_line data) as [_ Hone]. destruct Hg as [Hl [?|Hgt]]; [done|].
destruct (split_lines data) as [dl t] eqn:E. cbn in *. unfold good_data. rewrite (split_lines_app _ _ _ _ E).
pose proof (split_lines_payload [t] [] ltac:(by constructor)) as Hp. unfold payload_of in Hp. cbn in Hp.
rewrite !app_nil_r in Hp. rewrite Hp. cbn. split; [|done]. split; [|by left]. apply Forall_app; split; [done|by constructor].
Qed.

Lemma cut_good data ws lines n : good_data data → Forall2 line_of ws lines →
good_data (data ++ take n (terminator data ++ payload_of lines)).
Proof.
intros Hg Hl. destruct (good_data_terminated data Hg) as [Hg1 Ht1].
destruct (Nat.lt_ge_cases n (length (terminator data))) as [Hn|Hn].
- rewrite take_app_le by lia.
  assert (take n (terminator data) = []) as ->; [|by rewrite app_nil_r].
  unfold terminator in *. destruct (has_torn_tail data); cbn in *; [by replace n with 0%nat by lia|lia].
- rewrite take_app_ge by done. rewrite (assoc_L (++)).
  destruct (take_payload (n - length (terminator data)) lines) as (k & p & -> & Hk & Hp & _).
  assert (Forall good_line lines) as Hgl.
  { apply Forall_forall. intros l Hin. left. apply list_elem_of_lookup in Hin as [i Hi].
    destruct (Forall2_lookup_r _ _ _ _ _ Hl Hi) as (w & _ & Hw). by exists w. }
  assert (p = [] ∨ good_line p) as Hgp.
  { destruct Hp as [->|(l & q & Hlk & ->)]; [by left|]. destruct (Forall2_lookup_r _ _ _ _ _ Hl Hlk) as (w & _ & Hw).
    destruct p as [|x p]; [by left|]. right. destruct q as [|y q].
    - left. exists w. by rewrite app_nil_r in Hw. - right. split; [done|]. by exists w, (y :: q). }
  pose proof (lines_one_line _ _ Hl) as Hone.
  apply good_data_payload; try done; [by apply Forall_take|by apply Forall_take|].
  destruct Hgp as [->|[(w & Hw)|Ht]]; [apply not_elem_of_nil| |].
  + by eapply printable_one_line, line_printable.
  + by apply printable_one_line, torn_printable.
Qed.
Lemma append_records_good f data ws fault r f' :
contents f = Some data → good_data data → Forall good_written ws →
append_records fault (written_record <$> ws) f = (r, f') → ∃ data', contents f' = Some data' ∧ good_data data'.
Proof.
intros Hf Hg Hw. unfold append_records.
assert (∀ e : py_exn, (Err e, f) = (r, f') → ∃ data', contents f' = Some data' ∧ good_data data') as Hsame.
{ intros e [= <- <-]. by exists data. }
destruct (res_mapM _ _) as [lines|e] eqn:El; [|by apply Hsame].
destruct (existsb (λ l, MAX_LINE_BYTES <? ulen l) lines) eqn:Eb; [by apply Hsame|].
pose proof (lines_of ws lines Hw El Eb) as Hl. pose proof (λ n, cut_good data ws lines n Hg Hl) as Hcut.
assert (match fault with
  | no_fault => (Ok tt, Regular (data ++ terminator data ++ payload_of lines))
  | open_fails => (Err OSError, f)
  | stops_after n => (Err OSError, Regular (data ++ take n (terminator data ++ payload_of lines)))
  end = (r, f') → ∃ data', contents f' = Some data' ∧ good_data data') as Hwrite.
{ destruct fault as [| |n]; [|by apply Hsame|]; intros [= <- <-]; eexists; (split; [done|]).
  - specialize (Hcut (length (terminator data ++ payload_of lines))). by rewrite take_ge in Hcut by done.
  - apply Hcut. }
destruct f as [|d| |]; try done; injection Hf as <-; exact Hwrite.
Qed.

(** ** Compaction of a file *)

Lemma hex_token_chars tok : hex_token tok → forallb id_char (take 24 tok) = true ∧ (24 <= length tok)%nat.
Proof.
intros [Hh Hl]. split; [|lia]. apply forallb_take. rewrite forallb_forall in Hh |- *. intros c Hc. specialize (Hh c Hc).
unfold is_hex_lower, id_char, is_lower_letter in *. apply orb_true_iff in Hh as [->|H]; [done|].
apply between_true in H. by rewrite (proj2 (between_true 97 122 c)), orb_true_r by lia.
Qed.

Lemma effects_unknown ws s id : id ∉ ws ≫= brings → changes s !! id = None → commits s !! id = None →
changes (effects ws s) !! id = None ∧ commits (effects ws s) !! id = None.
Proof.
revert s. induction ws as [|w ws IH]; intros s Hid Hc Hm; [done|].
change ((w :: ws) ≫= brings) with (brings w ++ (ws ≫= brings)) in Hid. apply not_elem_of_app in Hid as [Hw Hid].
apply (IH (effect w s)); [done|..]; destruct w as [e|t ids oc bid h|t h i]; cbn [effect brings] in *; try done.
- apply not_elem_of_cons in Hw as [Hw _]. cbn. by rewrite lookup_insert_ne by done.
- by destruct oc.
- destruct oc; cbn; rewrite fold_insert_lookup; by case_bool_decide.
Qed.

(** What a compaction of [f] to [f'] leaves. *)
Record compacts (tok : ustr) (f f' : node) (olds news : list JournalEntry) : Prop := {
compacts_pending : pending f' = Ok news;
compacts_last : last_backup f' = last_backup f;
compacts_to : compacted tok olds news;
compacts_good : ∃ data', contents f' = Some data' ∧ good_data data';
compacts_ids : ∀ id, id ≠ overflow_id tok → unknown_id f id → unknown_id f' id;
}.
Lemma compact_file c fault t tok f r f' olds : good_file f → is_utc t → hex_token tok → pending f = Ok olds →
unknown_id f (overflow_id tok) → compact c fault t tok f = (r, f') → ∃ news, compacts tok f f' olds news.
Proof.
intros Hf Ht Htok Hold Hu. destruct (hex_token_chars tok Htok) as [Hch Hlen].
destruct (good_file_parse f Hf) as (data & s & Hc & Hg & Hp & Hs).
destruct (contents_pending f data s Hc Hp) as [Ep El]. rewrite Ep in Hold. injection Hold as <-.
assert ((∃ e, (r, f') = (Err e, f)) → ∃ news, compacts tok f f' (owed s) news) as Hsame.
{ intros (e & [= -> ->]). exists (owed s). split; try done; [by left|by exists data]. }
unfold compact, load. rewrite (read_contents f data Hc). cbn [mbind result_bind]. unfold parse. rewrite Hp. cbn [fmap result_fmap mbind result_bind].
destruct (compacted_records c t tok (apply_commits s)) as [records|e] eqn:Er; cbn [mbind result_bind].
2: { intros [= <- <-]. apply Hsame. by eexists. }
destruct (res_mapM _ _) as [lines|e] eqn:Eli; [|intros [= <- <-]; apply Hsame; by eexists].
destruct (Hu data s Hc Hp) as [Hu1 Hu2].
destruct (compact_lines c t tok s records lines Hs Ht Hch Hlen Hu1 Hu2 Er Eli) as (ws & L & Hl & Hcm & Hb).
destruct (payload_parse ws lines L) as [Hpp Hgd].
assert (f' = Regular (payload_of lines) → ∃ news, compacts tok f f' (owed s) news) as Hnew.
{ intros ->. destruct (contents_pending (Regular (payload_of lines)) _ _ eq_refl Hpp) as [Ep' El'].
  exists (owed (effects ws empty_state)). split; try done; [by rewrite El, El', Hl|by exists (payload_of lines)|].
  intros id Hne Hid d' s' [= <-] Hp'. assert (s' = effects ws empty_state) as -> by congruence.
  apply effects_unknown; [|done..]. destruct (Hid data s Hc Hp) as [Hi1 Hi2].
  intros [?|[[? H]|[? H]]]%Hb; [done|congruence..]. }
destruct fault; intros [= <- <-]; [by apply Hnew|apply Hsame; by eexists|by apply Hnew].
Qed.

(** ** Entries owed *)

Lemma owed_ids s : raw_ok s → change_id <$> owed s = open_ids s.
Proof.
intros Hs. unfold owed. apply entries_of_ids; [done|]. apply Forall_forall. intros id [Hid _]%open_ids_elem.
by apply (raw_order s Hs).
Qed.
Lemma good_owed s : good_state s → Forall good_entry (owed s).
Proof.
intros Hs. apply Forall_forall. intros e He. unfold owed, entries_of in He.
apply list_elem_of_omap in He as (id & _ & He). by eapply good_entries.
Qed.
Lemma owed_known s id : raw_ok s → id ∈ change_id <$> owed s → is_Some (changes s !! id).
Proof. intros Hs. rewrite owed_ids by done. intros [Hid _]%open_ids_elem. by apply (raw_order s Hs). Qed.
Lemma effect_knows w s id : is_Some (changes s !! id) → is_Some (changes (effect w s) !! id).
Proof.
destruct w as [e|t ids oc bid h|t h i]; cbn [effect]; [|by destruct oc|done].
intros H. cbn. rewrite lookup_insert_is_Some'. by right.
Qed.
Lemma effects_knows ws s id : is_Some (changes s !! id) → is_Some (changes (effects ws s) !! id).
Proof. revert s. induction ws as [|w ws IH]; intros s H; [done|]. by apply (IH (effect w s)), effect_knows. Qed.

(** ** Ids *)

Lemma overflow_not_token tok tok' : hex_token tok' → overflow_id tok ≠ u "chg_" ++ tok'.
Proof.
intros [Hh Hl] E. unfold overflow_id in E.
change (u "chg_overflow_" ++ take 24 tok) with (u "chg_" ++ 111 :: (u "verflow_" ++ take 24 tok)) in E.
apply app_inv_head in E. rewrite <-E in Hh. done.
Qed.

Lemma recovered_not_token m p tok : hex_token tok → recovered_id m p ≠ u "chg_" ++ tok.
Proof.
intros [Hh Hl] E. unfold recovered_id in E.
change (u "chg_recovered_" ++ ?x) with (u "chg_" ++ 114 :: (u "ecovered_" ++ x)) in E.
apply app_inv_head in E. rewrite <-E in Hh. done.
Qed.
Lemma recovered_not_overflow m p tok : recovered_id m p ≠ overflow_id tok.
Proof. intros E. apply (f_equal (λ l, l !! 4%nat)) in E. done. Qed.

(** ** One call *)

(** The file and [n] more lines stay below 2{^63} bytes. *)
Definition manageable (f : node) (n : Z) : Prop := size_of f + (n + 1) * (MAX_LINE_BYTES + 1) < 2 ^ 63.
Lemma contents_size f data : contents f = Some data → ulen data = size_of f.
Proof. by destruct f; intros [= <-]. Qed.

(** No ids come into the file but [new] ones, recovered ones and an overflow's. *)
Definition keeps_unknown (new : list ustr) (tok : ustr) (f f' : node) : Prop :=
∀ id, id ∉ new → id ≠ overflow_id tok → (∀ m p, id ≠ recovered_id m p) → unknown_id f id → unknown_id f' id.
Lemma placeholder_unknown m p t s id : id ≠ recovered_id m p → changes s !! id = None → commits s !! id = None →
changes (add_recovered_placeholder m p t s) !! id = None ∧ commits (add_recovered_placeholder m p t s) !! id = None.
Proof.
intros Hid Hc Hm. unfold add_recovered_placeholder. destruct t; case_bool_decide; cbn; try done;
  by rewrite lookup_insert_ne by (by intros <-).
Qed.
Lemma leaves_ids f s ws f' (P : Prop) tok data : contents f = Some data → parse_records data = Ok s →
leaves s ws f' P → keeps_unknown (ws ≫= brings) tok f f'.
Proof.
intros Hc Hp (data' & k & s' & Hc' & _ & Hp' & _ & Hcase & _) id Hb _ Hr Hu d0 s0 Hd Hs0.
assert (d0 = data') as -> by congruence. assert (s0 = s') as -> by congruence. destruct (Hu data s Hc Hp) as [Hu1 Hu2].
destruct (effects_unknown (take k ws) s id) as [He1 He2]; [|done|done|].
{ intros Hin. apply Hb. apply list_elem_of_bind in Hin as (w & Hid & Hw). apply list_elem_of_bind.
  exists w. split; [done|]. by eapply subseteq_take. }
assert (∀ s1, sim s' s1 → changes s1 !! id = None → commits s1 !! id = None → changes s' !! id = None ∧ commits s' !! id = None)
  as Hsim.
{ intros s1 Hsim H1 H2. split; [|by rewrite (sim_commits _ _ Hsim)]. apply eq_None_not_Some.
  rewrite (sim_is_Some _ _ _ Hsim), H1. by intros [? ?]. }
destruct Hcase as [H|(_ & m & p & _ & H)]; [by eapply Hsim|].
destruct (placeholder_unknown m p true _ id (Hr m p) He1 He2). by eapply Hsim.
Qed.

(** An entry of a line that was cut short, unknown to [s]. *)
Definition placeholder (s : journal_state) (e : JournalEntry) : Prop :=
∃ m p, e = recovered_entry m p true ∧ changes s !! recovered_id m p = None.

Lemma call_spec c o ws f data r f' :
contents f = Some data → good_data data → manageable f (ulen ws) → Forall good_written ws → good_outside o →
unknown_id f (overflow_id (compact_token o)) → overflow_id (compact_token o) ∉ ws ≫= brings →
append_and_compact c (wfault o) (cfault o) (compact_now o) (compact_token o) (written_record <$> ws) f = (r, f') →
∃ s k mid extra news, parse_records data = Ok s ∧ good_state s ∧ (k <= length ws)%nat ∧ (r = Ok tt → k = length ws)
∧ pending f' = Ok news ∧ Forall2 same_entry mid (owed (effects (take k ws) s) ++ extra) ∧ (∀ e, e ∈ extra → placeholder s e)
∧ (news = mid ∨ k = length ws ∧ extra = [] ∧ compacted (compact_token o) mid news)
∧ (∃ data', contents f' = Some data' ∧ good_data data') ∧ keeps_unknown (ws ≫= brings) (compact_token o) f f'.
Proof.
intros Hc Hg Hm Hw Ho Hu Hb. unfold append_and_compact.
assert (0 <= ulen ws * (MAX_LINE_BYTES + 1)) as Hpos by (unfold ulen, MAX_LINE_BYTES; lia).
assert (0 <= MAX_LINE_BYTES) as HM by done.
unfold manageable in Hm. destruct (good_file_parse f) as (d0 & s & Hc0 & _ & Hp & Hs).
{ exists data. split_and!; try done. rewrite (contents_size f) by done. lia. }
assert (d0 = data) as -> by congruence.
pose proof (append_records_size (wfault o) (written_record <$> ws) f) as Hsz.
assert (ulen (written_record <$> ws) = ulen ws) as El by (unfold ulen; by rewrite length_fmap). rewrite El in Hsz.
destruct (append_records (wfault o) (written_record <$> ws) f) as [r1 f1] eqn:E. cbn [snd] in Hsz.
destruct (append_records_good f data ws (wfault o) r1 f1 Hc Hg Hw E) as (d1 & Hc1 & Hg1).
pose proof (append_records_leaves f data s ws (wfault o) r1 f1 Hc (good_readable data Hg) Hp Hw E) as Hlv.
pose proof (leaves_pending s ws f1 (r1 = Ok tt) (good_raw s Hs) Hw Hlv) as (k & news & extra & Hk & Hpn & _ & Hsim & Hx & _ & Hdone).
assert (∀ e, e ∈ extra → placeholder s e) as Hpl.
{ intros e He. destruct Hx as [->|(_ & m & p & -> & Hn)]; [by apply not_elem_of_nil in He|].
  apply list_elem_of_singleton in He as ->. exists m, p. split; [done|]. apply eq_None_not_Some. intros H.
  apply (effects_knows (take k ws)) in H. rewrite Hn in H. by destruct H. }
assert ((r = Ok tt → r1 = Ok tt) → f' = f1 →
  ∃ s k mid extra news, parse_records data = Ok s ∧ good_state s ∧ (k <= length ws)%nat ∧ (r = Ok tt → k = length ws)
  ∧ pending f' = Ok news ∧ Forall2 same_entry mid (owed (effects (take k ws) s) ++ extra) ∧ (∀ e, e ∈ extra → placeholder s e)
  ∧ (news = mid ∨ k = length ws ∧ extra = [] ∧ compacted (compact_token o) mid news)
  ∧ (∃ data', contents f' = Some data' ∧ good_data data') ∧ keeps_unknown (ws ≫= brings) (compact_token o) f f') as Hstay.
{ intros Hr ->. exists s, k, news, extra, news. split_and!; try done; [|by left|by exists d1|by eapply leaves_ids].
  intros H. by apply Hdone, Hr. }
destruct r1 as [[]|e]; [|intros [= <- <-]; by apply Hstay].
destruct (_ <? _); [|intros [= <- <-]; by apply Hstay]. intros Hcomp.
destruct (Hdone eq_refl) as [-> ->].
assert (unknown_id f1 (overflow_id (compact_token o))) as Hu1.
{ destruct Hlv as (d' & k' & s' & Hc' & _ & Hp' & _ & _ & Hd). destruct (Hd eq_refl) as (-> & _ & Hsim').
  intros d'' s'' [= <-] Hp''. assert (s'' = s') as -> by congruence. destruct (Hu data s Hc Hp) as [Hu1 Hu2].
  destruct (effects_unknown ws s _ Hb Hu1 Hu2) as [Hu3 Hu4]. rewrite (sim_commits _ _ Hsim'). split; [|done].
  apply eq_None_not_Some. rewrite (sim_is_Some _ _ _ Hsim'), Hu3. by intros [? ?]. }
destruct (compact_file c (cfault o) (compact_now o) (compact_token o) f1 r f' news) as (news' & [Hpn' _ Hcm Hg' Hi']); try done.
- exists d1. split_and!; try done. rewrite (contents_size f1) by done. lia.
- apply Ho. - apply Ho.
- exists s, (length ws), news, [], news'. split_and!; try done; [by right|].
  intros id H1 H2 H3 H4. apply Hi'; [done|].
  by apply (leaves_ids f s ws f1 _ (compact_token o) data Hc Hp Hlv).
Qed.

(** How a ledger follows a call that left [k] of its records in the file. *)
Lemma call_ledger s tok named base mid extra news L Lb :
good_state s → changes s !! overflow_id tok = None →
NoDup (L.*1) → (∀ id : ustr, id ∈ L.*1 → is_Some (changes s !! id) ∨ ∃ t, hex_token t ∧ id = u "chg_" ++ t) →
reps base Lb → (∀ hg, hg ∈ Lb → hg ∈ L) → NoDup (Lb.*1) →
Forall2 same_entry mid (base ++ extra) → (∀ e, e ∈ extra → placeholder s e) →
(news = mid ∨ extra = [] ∧ Lb = not_under named L ∧ compacted tok mid news) →
reps news (carried tok named news L) ∧ ∀ x, x ∈ originals Lb → x ∈ originals (carried tok named news L).
Proof.
intros Hs Hov Hnd Hids Hbase Hsub Hndb Hmid Hpl Hcase.
assert (overflow_id tok ∉ L.*1) as H1.
{ intros Hin. destruct (Hids _ Hin) as [[e He]|(t & Ht & E)]; [congruence|]. by apply overflow_not_token in E. }
assert (∀ e, e ∈ extra → change_id e ∉ L.*1 ∧ change_id e ≠ overflow_id tok ∧ merged e = 1) as H2.
{ intros e (m & p & -> & Hn)%Hpl. cbn. split_and!; [|apply recovered_not_overflow|done]. intros Hin.
  destruct (Hids (recovered_id m p) Hin) as [[e He]|(t & Ht & E)]; [congruence|]. by apply recovered_not_token in E. }
split; [by eapply carried_reps|]. intros x. by eapply carried_keeps.
Qed.

Lemma owed_ledger s L : raw_ok s → reps (owed s) L → NoDup (L.*1) ∧ ∀ id : ustr, id ∈ L.*1 → is_Some (changes s !! id).
Proof.
intros Hs H. rewrite <-(reps_ids _ _ H). split; [rewrite owed_ids by done; by apply open_ids_nodup|].
intros id. by apply owed_known.
Qed.

(** The ledger after an append: the change is added if it was written. *)
Definition appended (o : outside) (e : JournalEntry) (news : list JournalEntry) (L : ledger) : ledger :=
carried (compact_token o) [] news (L ++ [(change_id e, [e])]).

Lemma append_call c o act subj before after f data r f' :
contents f = Some data → good_data data → manageable f 1 → good_outside o → scalars subj = true →
unknown_id f (u "chg_" ++ token o) → unknown_id f (overflow_id (compact_token o)) →
append c o act subj before after f = (r, f') →
let e := new_entry o act subj before after in
∃ olds news, pending f = Ok olds ∧ pending f' = Ok news
∧ (∀ L, reps olds L → reps news (appended o e news L)
     ∧ (∀ x, x ∈ originals L → x ∈ originals (appended o e news L))
     ∧ ∀ e', r = Ok e' → e' = e ∧ e ∈ originals (appended o e news L))
∧ (∃ data', contents f' = Some data' ∧ good_data data') ∧ keeps_unknown [u "chg_" ++ token o] (compact_token o) f f'.
Proof.
intros Hc Hg Hm Ho Hsubj Hid Hov Happ e.
destruct (good_file_parse f) as (d0 & s & Hc0 & _ & Hp & Hs).
{ exists data. split_and!; try done. rewrite (contents_size f) by done. unfold manageable, MAX_LINE_BYTES in Hm. lia. }
assert (d0 = data) as -> by congruence. destruct (contents_pending f data s Hc Hp) as [Epf _].
destruct (Hid data s Hc Hp) as [Hi1 Hi2]. destruct (Hov data s Hc Hp) as [Hov1 _].
set (added := λ L : ledger, L ++ [(change_id e, [e])]).
assert (∀ L, reps (owed s) L → NoDup ((added L).*1)
  ∧ ∀ id : ustr, id ∈ (added L).*1 → is_Some (changes s !! id) ∨ ∃ t, hex_token t ∧ id = u "chg_" ++ t) as Hadd.
{ intros L HL. destruct (owed_ledger s L (good_raw s Hs) HL) as [Hnd Hk]. unfold added. rewrite fmap_app. cbn [fmap list_fmap fst]. split.
  - apply NoDup_app. split_and!; [done| |apply NoDup_singleton]. intros id Hin ->%list_elem_of_singleton.
    apply (Hk (u "chg_" ++ token o)) in Hin as [x Hx]. congruence.
  - intros id [Hin| ->%list_elem_of_singleton]%elem_of_app; [left; by apply Hk|right]. exists (token o). split; [apply Ho|done]. }
(* what is owed before or after the new entry *)
assert (∀ base mid extra news b,
  (base = owed s ∧ b = false ∨ base = owed s ++ [e] ∧ b = true) →
  Forall2 same_entry mid (base ++ extra) → (∀ e, e ∈ extra → placeholder s e) →
  (news = mid ∨ b = true ∧ extra = [] ∧ compacted (compact_token o) mid news) →
  ∀ L, reps (owed s) L → reps news (appended o e news L)
  ∧ (∀ x, x ∈ originals L → x ∈ originals (appended o e news L))
  ∧ (b = true → e ∈ originals (appended o e news L))) as Hledger.
{ intros base mid extra news b Hb Hmid Hpl Hcase L HL. destruct (Hadd L HL) as [Hnd Hk].
  destruct (owed_ledger s L (good_raw s Hs) HL) as [HndL _].
  set (Lb := if b then added L else L).
  destruct (call_ledger s (compact_token o) [] base mid extra news (added L) Lb) as [H1 H2]; try done.
  - destruct Hb as [[-> ->]|[-> ->]]; unfold Lb; [done|]. apply Forall2_app; [done|].
    constructor; [|constructor]. split; [done|by apply stands_itself].
  - intros hg. unfold Lb. destruct b; [done|]. intros Hhg. apply elem_of_app. by left.
  - unfold Lb. by destruct b.
  - destruct Hcase as [?|(-> & ? & ?)]; [by left|right]. by rewrite not_under_nil.
  - split_and!; [done| |].
    + intros x Hx. apply H2. unfold Lb. destruct b; [|done]. apply elem_of_originals in Hx as (hg & Hhg & Hx).
      apply elem_of_originals. exists hg. split; [apply elem_of_app; by left|done].
    + intros ->. apply H2, elem_of_originals. exists (change_id e, [e]). split; [apply elem_of_app; right; left|left]. }
assert ((r, f') = (Err ValueError, f) → ∃ olds news, pending f = Ok olds ∧ pending f' = Ok news
∧ (∀ L, reps olds L → reps news (appended o e news L)
     ∧ (∀ x, x ∈ originals L → x ∈ originals (appended o e news L))
     ∧ ∀ e', r = Ok e' → e' = e ∧ e ∈ originals (appended o e news L))
∧ (∃ data', contents f' = Some data' ∧ good_data data') ∧ keeps_unknown [u "chg_" ++ token o] (compact_token o) f f') as Hsame.
{ intros [= -> ->]. exists (owed s), (owed s). split_and!; try done; [|by exists data|by intros ?]. intros L HL.
  destruct (Hledger (owed s) (owed s) [] (owed s) false) with (L := L) as (H1 & H2 & _); try done;
    [by left|by rewrite app_nil_r|by intros ? ?%not_elem_of_nil|by left]. }
unfold append in Happ. destruct (is_action act) eqn:Ea; [|by apply Hsame].
destruct (Z.ltb_spec MAX_SUBJECT_CHARS (ulen subj)); [by apply Hsame|].
destruct (check_hash before && check_hash after) eqn:Eh; [|by apply Hsame]. cbn [negb] in Happ.
pose proof (new_entry_good o act subj before after Ho Ea Hsubj ltac:(lia) Eh) as He.
fold e in Happ, He. rewrite change_record_eq, <-(full_base e) in Happ by (try done; apply Ho).
change [full_record e] with (written_record <$> [WChange e]) in Happ.
destruct (append_and_compact _ _ _ _ _ _ _) as [r1 f1] eqn:E.
assert (f1 = f' ∧ ∀ e', r = Ok e' → e' = e ∧ r1 = Ok tt) as [-> Hr].
{ destruct r1 as [[]|err]; injection Happ as <- <-; split; try done. by intros e' [= <-]. }
eapply call_spec in E as (s' & k & mid & extra & news & Hp' & _ & Hk & Hdone & Hpn & Hmid & Hpl & Hcase & Hg' & Hids);
  try done; [|by constructor|].
2: { cbn. intros [Eq|?%not_elem_of_nil]%elem_of_cons; [|done]. eapply overflow_not_token; [|exact Eq]. apply Ho. }
assert (s' = s) as -> by congruence. exists (owed s), news. split_and!; try done. intros L HL.
assert (owed (effects [WChange e] s) = owed s ++ [e]) as Eo by (apply owed_with_change; [apply Hs|done|done]).
destruct (Hledger (owed (effects (take k [WChange e]) s)) mid extra news (bool_decide (k = 1%nat))) with (L := L)
  as (H1 & H2 & H3); try done.
- destruct k as [|[|k]]; [left; split; [done|by apply bool_decide_eq_false_2]
    |right; split; [done|by apply bool_decide_eq_true_2]|cbn in Hk; lia].
- destruct Hcase as [?|(-> & ? & ?)]; [by left|right]. by split_and!.
- split_and!; [done|done|]. intros e' [-> H1r]%Hr. split; [done|]. apply H3. rewrite (Hdone H1r). done.
Qed.

Lemma commit_call c o ids oc h bid f data r f' :
contents f = Some data → good_data data → manageable f (ulen (chunks (S (length ids)) ids)) → good_outside o →
forallb scalars ids = true → unknown_id f (overflow_id (compact_token o)) → overflow_id (compact_token o) ∉ ids →
commit c o ids oc h bid f = (r, f') →
∃ olds news, pending f = Ok olds ∧ pending f' = Ok news
∧ (∀ L, reps olds L → reps news (carried (compact_token o) ids news L)
     ∧ ∀ x, x ∈ originals (not_under ids L) → x ∈ originals (carried (compact_token o) ids news L))
∧ (∃ data', contents f' = Some data' ∧ good_data data') ∧ keeps_unknown ids (compact_token o) f f'.
Proof.
intros Hc Hg Hm Ho Hids Hov Hno Hcommit. destruct (chunks_concat (S (length ids)) ids ltac:(lia)) as [Hj _].
destruct (good_file_parse f) as (d0 & s & Hc0 & _ & Hp & Hs).
{ exists data. split_and!; try done. rewrite (contents_size f) by done. unfold manageable, MAX_LINE_BYTES, ulen in Hm. lia. }
assert (d0 = data) as -> by congruence. destruct (contents_pending f data s Hc Hp) as [Epf _].
destruct (Hov data s Hc Hp) as [Hov1 _].
(* entries closed by some of the ids *)
assert (∀ closed mid extra news,
  (∀ id, id ∈ closed → id ∈ ids) → Forall2 same_entry mid (still_open closed (owed s) ++ extra) →
  (∀ e, e ∈ extra → placeholder s e) →
  (news = mid ∨ closed = ids ∧ extra = [] ∧ compacted (compact_token o) mid news) →
  ∀ L, reps (owed s) L → reps news (carried (compact_token o) ids news L)
  ∧ ∀ x, x ∈ originals (not_under ids L) → x ∈ originals (carried (compact_token o) ids news L)) as Hledger.
{ intros closed mid extra news Hcl Hmid Hpl Hcase L HL. destruct (owed_ledger s L (good_raw s Hs) HL) as [Hnd Hk].
  destruct (call_ledger s (compact_token o) ids (still_open closed (owed s)) mid extra news L (not_under closed L))
    as [H1 H2]; try done.
  - intros id Hin. left. by apply Hk.
  - by apply reps_still_open.
  - by intros hg [? _]%elem_of_not_under.
  - by apply not_under_nodup.
  - destruct Hcase as [?|(-> & ? & ?)]; [by left|by right].
  - split; [done|]. intros x (hg & [Hhg Hn]%elem_of_not_under & Hx)%elem_of_originals. apply H2, elem_of_originals.
    exists hg. split; [|done]. apply elem_of_not_under. split; [done|]. intros Hin. by apply Hn, Hcl. }
assert ((r, f') = (Err ValueError, f) → ∃ olds news, pending f = Ok olds ∧ pending f' = Ok news
  ∧ (∀ L, reps olds L → reps news (carried (compact_token o) ids news L)
     ∧ ∀ x, x ∈ originals (not_under ids L) → x ∈ originals (carried (compact_token o) ids news L))
  ∧ (∃ data', contents f' = Some data' ∧ good_data data') ∧ keeps_unknown ids (compact_token o) f f') as Hsame.
{ intros [= -> ->]. exists (owed s), (owed s). split_and!; try done; [|by exists data|by intros ?].
  apply (Hledger [] (owed s) []); [by intros ? ?%not_elem_of_nil|by rewrite still_open_nil, app_nil_r
    |by intros ? ?%not_elem_of_nil|by left]. }
unfold commit in Hcommit. destruct (check_backup_id oc bid) eqn:Eb; [|by apply Hsame].
destruct (is_sha256 h) eqn:Eh; [|by apply Hsame]. cbn [negb] in Hcommit.
set (cs := chunks (S (length ids)) ids) in *. rewrite format_time_text, commit_records_eq in Hcommit by apply Ho.
pose proof (chunk_commits_good (now o) cs oc bid h ltac:(apply Ho) ltac:(by rewrite Hj) Eb Eh) as [Hgw Hic].
assert (chunk_commits (now o) cs oc bid h ≫= brings = ids) as Hbr by by rewrite brings_closes, chunk_commits_closes, Hj.
assert (chunk_commits (now o) cs oc bid h ≫= closes = ids) as Hcl by by rewrite chunk_commits_closes, Hj.
eapply call_spec in Hcommit as (s' & k & mid & extra & news & Hp' & _ & Hk & _ & Hpn & Hmid & Hpl & Hcase & Hg' & Hnew); try done;
  [|by unfold ulen, chunk_commits; rewrite length_fmap|by rewrite Hbr].
rewrite Hbr in Hnew.
assert (s' = s) as -> by congruence. exists (owed s), news. split_and!; try done.
rewrite owed_commits in Hmid; [|by apply Forall_take|by apply Forall_take|apply Hs].
eapply Hledger; [|exact Hmid|exact Hpl|].
- intros id Hid. rewrite <-Hcl. apply list_elem_of_bind in Hid as (w & Hid & Hw). apply list_elem_of_bind.
  exists w. split; [done|]. by eapply subseteq_take.
- destruct Hcase as [?|(-> & ? & ?)]; [by left|right]. by rewrite firstn_all.
Qed.
End files.

(** ** Runs *)

(** The pending entries; none if the file cannot be read. *)
Definition pending_of {RT : Runtime} (f : node) : list JournalEntry :=
  match pending f with Ok l => l | Err _ => [] end.
(** The changes of [open] that no entry of [ids] stands for. *)
Definition unnamed (ids : list ustr) (L : ledger) (open : list JournalEntry) : list JournalEntry :=
  List.filter (λ x, negb (bool_decide (change_id x ∈ change_id <$> originals (under ids L)))) open.

Lemma unnamed_open ids L open x : (∀ x, x ∈ open → x ∈ originals L) → x ∈ unnamed ids L open →
  x ∈ originals (not_under ids L).
Proof.
  intros Hopen [Hx Hn]%elem_of_filter_list. apply negb_true_iff, bool_decide_eq_false in Hn.
  apply Hopen, elem_of_originals in Hx as (hg & Hhg & Hx). apply elem_of_originals. exists hg. split; [|done].
  apply elem_of_not_under. split; [done|]. intros Hin. apply Hn, list_elem_of_fmap. exists x. split; [done|].
  apply elem_of_originals. exists hg. split; [|done]. apply elem_of_filter_list. split; [done|]. by apply bool_decide_eq_true_2.
Qed.

(** A journal from its first use on, with the ledger of its pending entries and
    the changes that [append] acknowledged and no commit has named yet - neither
    themselves nor an entry that stands for them.  Calls may fail or be cut short
    anywhere. *)
Inductive journal_run {RT : Runtime} (c : ChangeJournal) : node → ledger → list JournalEntry → Prop :=
  | run_start : journal_run c Missing [] []
  | run_append f L open o act subj before after r f' :
      journal_run c f L open → good_outside o → scalars subj = true → manageable f 1 →
      unknown_id f (u "chg_" ++ token o) → unknown_id f (overflow_id (compact_token o)) →
      append c o act subj before after f = (r, f') →
      journal_run c f' (appended o (new_entry o act subj before after) (pending_of f') L)
        (open ++ match r with Ok e => [e] | Err _ => [] end)
  | run_commit f L open o ids oc h bid r f' :
      journal_run c f L open → good_outside o → forallb scalars ids = true →
      manageable f (ulen (chunks (S (length ids)) ids)) →
      unknown_id f (overflow_id (compact_token o)) → overflow_id (compact_token o) ∉ ids →
      commit c o ids oc h bid f = (r, f') →
      journal_run c f' (carried (compact_token o) ids (pending_of f') L) (unnamed ids L open)
  | run_compact f L open t tok fault r f' :
      journal_run c f L open → is_utc t → hex_token tok → manageable f 0 → unknown_id f (overflow_id tok) →
      compact c fault t tok f = (r, f') →
      journal_run c f' (carried tok [] (pending_of f') L) open.

Lemma compact_call {RT : Runtime} {RL : RuntimeLaws RT} c fault t tok f r f' data :
  contents f = Some data → good_data data → manageable f 0 → is_utc t → hex_token tok → unknown_id f (overflow_id tok) →
  compact c fault t tok f = (r, f') →
  ∃ olds news, pending f = Ok olds ∧ pending f' = Ok news
  ∧ (∀ L, reps olds L → reps news (carried tok [] news L) ∧ ∀ x, x ∈ originals L → x ∈ originals (carried tok [] news L))
  ∧ ∃ data', contents f' = Some data' ∧ good_data data'.
Proof.
  intros Hc Hg Hm Ht Htok Hov E.
  assert (good_file f) as Hgf.
  { exists data. split_and!; try done. rewrite (contents_size f) by done. unfold manageable, MAX_LINE_BYTES in Hm. lia. }
  destruct (good_file_parse f Hgf) as (d0 & s & Hc0 & _ & Hp & Hs). assert (d0 = data) as -> by congruence.
  destruct (contents_pending f data s Hc Hp) as [Epf _]. destruct (Hov data s Hc Hp) as [Hov1 _].
  destruct (compact_file c fault t tok f r f' (owed s)) as (news & [Hn _ Hcm Hg' _]); try done.
  exists (owed s), news. split_and!; try done. intros L HL. destruct (owed_ledger s L (good_raw s Hs) HL) as [Hnd Hk].
  apply (call_ledger s tok [] (owed s) (owed s) [] news L L); try done.
  - intros id Hin. left. by apply Hk.
  - by rewrite app_nil_r.
  - by intros ? ?%not_elem_of_nil.
  - right. by rewrite not_under_nil.
Qed.

(** Each pending entry stands for the changes the ledger gives, and each open
    change is among them. *)
Definition accounted {RT : Runtime} (f : node) (L : ledger) (open : list JournalEntry) : Prop :=
  ∃ olds, pending f = Ok olds ∧ reps olds L
  ∧ ∀ x, x ∈ open → ∃ e g, e ∈ olds ∧ (change_id e, g) ∈ L ∧ stands e g ∧ x ∈ g.
Lemma accounted_open {RT : Runtime} f L open olds : pending f = Ok olds → reps olds L →
  (∀ x, x ∈ open → x ∈ originals L) → accounted f L open.
Proof.
  intros Hp HL Hopen. exists olds. split_and!; try done. intros x Hx.
  apply Hopen, elem_of_originals in Hx as ([h g] & Hhg & Hx).
  destruct (Forall2_in_r _ _ _ _ HL Hhg) as (e & He & Hid & Hst). cbn in *. subst h. by exists e, g.
Qed.

Lemma run_conserves {RT : Runtime} {RL : RuntimeLaws RT} c f L open : journal_run c f L open → accounted f L open.
Proof.
  intros Hrun.
  assert ((∃ olds, pending f = Ok olds ∧ reps olds L) ∧ (∀ x, x ∈ open → x ∈ originals L)
    ∧ ∃ data, contents f = Some data ∧ good_data data) as ((olds & Hp & HL) & Hopen & _); [|by eapply accounted_open].
  induction Hrun as [|f L open o act subj before after r f' _ ((olds & Hp & HL) & Hopen & data & Hc & Hg) Ho Hs Hm Hid Hov E
    |f L open o ids oc h bid r f' _ ((olds & Hp & HL) & Hopen & data & Hc & Hg) Ho Hs Hm Hov Hno E
    |f L open t tok fault r f' _ ((olds & Hp & HL) & Hopen & data & Hc & Hg) Ht Htok Hm Hov E].
  - split_and!; [exists []; by split; [|constructor]|by intros x ?%not_elem_of_nil|]. exists []. split_and!; try done. split; [constructor|by left].
  - edestruct append_call as (l & news & Hl & Hn & HT & Hg' & _); try done. assert (l = olds) as -> by congruence.
    destruct (HT L HL) as (H1 & H2 & H3). unfold pending_of. rewrite Hn. split_and!; [by exists news| |done].
    intros x [Hx|Hx]%elem_of_app; [by apply H2, Hopen|]. destruct r as [e|]; [|by apply not_elem_of_nil in Hx].
    apply list_elem_of_singleton in Hx as ->. by destruct (H3 e eq_refl) as [-> ?].
  - edestruct commit_call as (l & news & Hl & Hn & HT & Hg' & _); try done. assert (l = olds) as -> by congruence.
    destruct (HT L HL) as (H1 & H2). unfold pending_of. rewrite Hn. split_and!; [by exists news| |done].
    intros x Hx. by apply H2, (unnamed_open _ _ open).
  - edestruct compact_call as (l & news & Hl & Hn & HT & Hg'); try done. assert (l = olds) as -> by congruence.
    destruct (HT L HL) as (H1 & H2). unfold pending_of. rewrite Hn. split_and!; [by exists news| |done].
    intros x Hx. by apply H2, Hopen.
Qed.

(** ** Properties *)

(** [C15] Compaction loses nothing, whichever way it ends: in a file of lines
    written here, what is pending afterwards is what was pending, or the newest
    of it behind one entry that stands for all the older ones (the time and hash
    the first starts from, the hash the last leads to, and their number).  The
    number of changes pending and the last backup stay the same. *)
Theorem journal_compact_conserves {RT : Runtime} {RL : RuntimeLaws RT} c fault t tok f r f' olds
    (Hf : good_file f) (Ht : is_utc t) (Htok : hex_token tok) (Hold : pending f = Ok olds)
    (Hid : unknown_id f (overflow_id tok)) (Hcompact : compact c fault t tok f = (r, f')) :
  ∃ news, pending f' = Ok news ∧ last_backup f' = last_backup f ∧ total news = total olds
  ∧ (news = olds ∨ ∃ older newest e, olds = older ++ newest ∧ news = e :: newest ∧ stands_for tok e older).
Proof.
  destruct (compact_file c fault t tok f r f' olds) as (news & [Hp Hl Hc _ _]); try done.
  exists news. split_and!; try done. by eapply compacted_total.
Qed.

(** A budget that two changes exceed, so that they are merged. *)
Definition small_journal : ChangeJournal := mkJournal 600 10.
Lemma two_changes_good : @good_file example_runtime two_changes.
Proof.
  set (c := mkJournal 4096000 10). set (o1 := no_faults 738000 1). set (o2 := no_faults 738001 2).
  set (f1 := (@append example_runtime c o1 (u "mapping.saved") (u "slot 4") None None Missing).2).
  destruct (@append_call example_runtime example_laws c o1 (u "mapping.saved") (u "slot 4") None None Missing [] _ f1
    eq_refl (conj (Forall_nil_2 _) (or_introl eq_refl)) ltac:(vm_compute; reflexivity)
    ltac:(apply good_call_at; [vm_compute; split; congruence|lia]) eq_refl
    ltac:(apply knows_not_spec; vm_compute; reflexivity) ltac:(apply knows_not_spec; vm_compute; reflexivity)
    (surjective_pairing _)) as (_ & _ & _ & _ & _ & (d1 & Hc1 & Hg1) & _).
  destruct (@append_call example_runtime example_laws c o2 (u "mapping.saved") (u "slot 5") None None f1 d1 _ two_changes
    Hc1 Hg1 ltac:(vm_compute; reflexivity)
    ltac:(apply good_call_at; [vm_compute; split; congruence|lia]) eq_refl
    ltac:(apply knows_not_spec; vm_compute; reflexivity) ltac:(apply knows_not_spec; vm_compute; reflexivity)
    (surjective_pairing _)) as (_ & _ & _ & _ & _ & (d2 & Hc2 & Hg2) & _).
  exists d2. split_and!; [done|done|]. rewrite (contents_size two_changes) by done. vm_compute. reflexivity.
Qed.
Lemma journal_compact_conserves_witness :
  let _ := example_runtime in
  let f' := (compact small_journal compact_ok (midnight 738002) (hex_of 3) two_changes).2 in
  ∃ news, pending f' = Ok news ∧ total news = 2 ∧ f' ≠ two_changes.
Proof.
  intros RT f'.
  destruct (@journal_compact_conserves example_runtime example_laws small_journal compact_ok (midnight 738002) (hex_of 3)
    two_changes _ _ [first_change; second_change] two_changes_good
    ltac:(split; vm_compute; reflexivity) ltac:(split; vm_compute; reflexivity) ltac:(vm_compute; reflexivity)
    ltac:(apply knows_not_spec; vm_compute; reflexivity) (surjective_pairing _)) as (news & Hp & _ & Ht & _).
  exists news. split; [exact Hp|]. split; [rewrite Ht; reflexivity|]. vm_compute. discriminate.
Defined.

(** [C9] No acknowledged change is lost over the life of a journal, with failing
    calls, torn writes, failing compactions and merged entries in it: the file can
    always be read, and each change that was acknowledged and not named by a
    commit since is represented in what is pending - by the entry of its own, or
    by the overflow entry of the compaction that took it, which counts exactly
    the changes it stands for, starts at the time and hash of the first and leads
    to the hash of the last. *)
Theorem journal_conservation {RT : Runtime} {RL : RuntimeLaws RT} c f L open (Hrun : journal_run c f L open) :
  ∃ olds, pending f = Ok olds
  ∧ Forall2 (λ e hg, change_id e = hg.1 ∧ stands e hg.2) olds L
  ∧ ∀ x, x ∈ open → ∃ e g, e ∈ olds ∧ (change_id e, g) ∈ L ∧ stands e g ∧ x ∈ g.
Proof. by apply (run_conserves c). Qed.
(** Two changes in a journal too small for both: they are merged.  The line of a
    third one is cut short; then the file is compacted, and one entry stands for
    the two changes and for the torn line. *)
Definition small_file (n : nat) : node :=
  let _ := example_runtime in
  let f1 := (append small_journal (no_faults 738000 1) (u "mapping.saved") (u "slot 4") None None Missing).2 in
  let f2 := (append small_journal (no_faults 738001 2) (u "mapping.saved") (u "slot 5") None None f1).2 in
  let f3 := (append small_journal (call_at 738002 3 (stops_after 20) compact_ok) (u "mapping.saved") (u "slot 6") None None f2).2 in
  let f4 := (compact small_journal compact_ok (midnight 738003) (hex_of 4) f3).2 in
  match n with 1 => f1 | 2 => f2 | 3 => f3 | _ => f4 end%nat.
Lemma small_calls : let _ := example_runtime in
  append small_journal (no_faults 738000 1) (u "mapping.saved") (u "slot 4") None None Missing = (Ok first_change, small_file 1)
  ∧ append small_journal (no_faults 738001 2) (u "mapping.saved") (u "slot 5") None None (small_file 1)
    = (Ok second_change, small_file 2)
  ∧ append small_journal (call_at 738002 3 (stops_after 20) compact_ok) (u "mapping.saved") (u "slot 6") None None (small_file 2)
    = (Err OSError, small_file 3).
Proof. split_and!; vm_compute; reflexivity. Qed.
Lemma small_checks : let _ := example_runtime in
  knows_not Missing (u "chg_" ++ hex_of 1) && knows_not Missing (overflow_id (hex_of 1))
  && knows_not (small_file 1) (u "chg_" ++ hex_of 2) && knows_not (small_file 1) (overflow_id (hex_of 2))
  && knows_not (small_file 2) (u "chg_" ++ hex_of 3) && knows_not (small_file 2) (overflow_id (hex_of 3))
  && knows_not (small_file 3) (overflow_id (hex_of 4)) = true
  ∧ size_of (small_file 1) + size_of (small_file 2) + size_of (small_file 3) < 10000
  ∧ (merged <$> pending_of (small_file 4)) = [3].
Proof. split_and!; vm_compute; reflexivity. Qed.
Lemma journal_conservation_witness :
  let _ := example_runtime in
  ∃ olds e g, pending (small_file 4) = Ok olds ∧ e ∈ olds ∧ stands e g ∧ merged e = 3 ∧ second_change ∈ g.
Proof.
  intros RT. pose proof example_laws as RL. destruct small_calls as (E1 & E2 & E3).
  destruct small_checks as (Hk & Hs & Hone).
  apply andb_true_iff in Hk as [[[[[[K1 K2]%andb_true_iff K3]%andb_true_iff K4]%andb_true_iff K5]%andb_true_iff K6]%andb_true_iff K7].
  assert (∀ day n w cf, 1 <= day <= max_ordinal → 0 <= n <= 9 → good_outside (call_at day n w cf)) as Hgood
    by exact good_call_at.
  assert (∀ n, 0 <= n < 10 → manageable (small_file 1) n ∧ manageable (small_file 2) n ∧ manageable (small_file 3) n) as Hm.
  { assert (∀ f : node, 0 <= size_of f) as Hpos by (intros []; cbn; unfold ulen; lia).
    pose proof (Hpos (small_file 1)). pose proof (Hpos (small_file 2)). pose proof (Hpos (small_file 3)).
    intros n Hn. unfold manageable, MAX_LINE_BYTES. lia. }
  pose proof (run_append small_journal _ _ _ (no_faults 738000 1) (u "mapping.saved") (u "slot 4") None None _ _ (run_start _)
    (Hgood 738000 1 no_fault compact_ok ltac:(by split) ltac:(by split)) eq_refl ltac:(vm_compute; reflexivity)
    (knows_not_spec _ _ K1) (knows_not_spec _ _ K2) E1) as R1.
  pose proof (run_append small_journal _ _ _ (no_faults 738001 2) (u "mapping.saved") (u "slot 5") None None _ _ R1
    (Hgood 738001 2 no_fault compact_ok ltac:(by split) ltac:(by split)) eq_refl (proj1 (Hm 1 ltac:(lia)))
    (knows_not_spec _ _ K3) (knows_not_spec _ _ K4) E2) as R2.
  pose proof (run_append small_journal _ _ _ (call_at 738002 3 (stops_after 20) compact_ok) (u "mapping.saved") (u "slot 6") None None
    _ _ R2 (Hgood 738002 3 (stops_after 20) compact_ok ltac:(by split) ltac:(by split)) eq_refl (proj1 (proj2 (Hm 1 ltac:(lia))))
    (knows_not_spec _ _ K5) (knows_not_spec _ _ K6) E3) as R3.
  pose proof (run_compact small_journal _ _ _ (midnight 738003) (hex_of 4) compact_ok _ (small_file 4) R3
    ltac:(split; vm_compute; reflexivity) ltac:(split; vm_compute; reflexivity) (proj2 (proj2 (Hm 0 ltac:(lia))))
    (knows_not_spec _ _ K7) (surjective_pairing _)) as R4.
  destruct (journal_conservation _ _ _ _ R4) as (olds & Hp4 & _ & Hopen).
  destruct (Hopen second_change) as (e & g & He & _ & Hst & Hg); [right; left|].
  exists olds, e, g. split_and!; try assumption.
  assert (@pending_of example_runtime (small_file 4) = olds) as Holds by (unfold pending_of; exact (f_equal (λ r, match r with Ok l => l | Err _ => [] end) Hp4)).
  assert (merged <$> olds = [3]) as Hthree by (rewrite <-Holds; exact Hone). clear Hone.
  assert (merged e ∈ merged <$> olds) as Hm1 by (apply list_elem_of_fmap; exists e; by split).
  rewrite Hthree in Hm1.
  by apply list_elem_of_singleton in Hm1.
Defined.
