(* ===== verification/JournalProgress.v ===== *)
(** * Calls complete

    Unless the system fails, a call with valid arguments returns: its records can
    be printed, and they fit on a line.  In particular 256 ids fit into a commit
    record, so that everything pending can always be committed. *)

From S2P Require Import Prelude PyStr Calendar Json JsonProofs Journal JournalLines JournalExample JournalRecords JournalStates.
From S2P Require Import JournalSafety JournalLengths JournalCompaction JournalHistory.
#[local] Open Scope Z_scope.
#[local] Open Scope list_scope.

Lemma res_mapM_total {E A B} (f : A → result E B) l :
  Forall (λ a, ∃ b, f a = Ok b) l → ∃ bs, res_mapM f l = Ok bs.
Proof.
  induction 1 as [|a l (b & Hb) _ (bs & Hbs)]; [by exists []|]. exists (b :: bs). cbn. by rewrite Hb, Hbs.
Qed.

(** ** Printing succeeds *)

Section printing.
Context {FL : Floats}.

Definition prints (d : nat) (v : json) : Prop := ∃ t, dumps d v = Ok t.
Lemma prints_str d s : prints d (JStr s).
Proof. destruct d; by eexists. Qed.
Lemma prints_opt d o : prints d (of_opt o).
Proof. destruct o; [apply prints_str|destruct d; by eexists]. Qed.
Lemma prints_one d : prints d (JInt 1).
Proof. destruct d; by eexists. Qed.
Lemma prints_strings d l : prints (S d) (JList (JStr <$> l)).
Proof.
unfold prints. cbn [dumps]. destruct (res_mapM_total id (dumps d <$> (JStr <$> l))) as (ts & ->); [|by eexists].
rewrite !Forall_fmap. apply Forall_true. intros s. apply prints_str.
Qed.
Lemma prints_obj d (m : jdict) : Forall (λ kv, prints d kv.2) m → prints (S d) (JObj m).
Proof.
intros Hm. unfold prints. cbn [dumps].
destruct (res_mapM_total (λ kv : ustr * result py_exn ustr, (λ s, member (kv.1, s)) <$> kv.2)
  (sort_by key_leb ((λ kv, (kv.1, dumps d kv.2)) <$> m))) as (ts & ->); [|by eexists].
rewrite sort_by_perm, Forall_fmap. eapply Forall_impl; [exact Hm|]. intros [k v] (t & Ht). cbn in *. rewrite Ht. by eexists.
Qed.

(** ** Ids fit *)

Definition unescaped (c : Z) : bool := between 32 126 c && negb (c =? 34) && negb (c =? 92).
Lemma quote_unescaped s : forallb unescaped s = true → length (quote s) = (length s + 2)%nat.
Proof.
intros H. unfold quote. cbn [app length]. rewrite length_app. cbn [length].
assert (s ≫= escape = s) as ->; [|lia]. induction s as [|c s IH]; [done|].
change ((c :: s) ≫= escape) with (escape c ++ (s ≫= escape)). cbn [forallb] in H. apply andb_true_iff in H as [Hc Hs].
rewrite IH by done. unfold unescaped in Hc. apply andb_true_iff in Hc as [[Hp H34]%andb_true_iff H92].
apply negb_true_iff in H34, H92. pose proof Hp as Hp'%between_true. unfold escape.
by rewrite H34, H92, Hp, !(proj2 (Z.eqb_neq c _)) by lia.
Qed.
Lemma id_quote_length id : is_change_id id = true → (length (quote id) <= 70)%nat.
Proof.
intros H. pose proof (proj2 (change_id_scalars id H)) as Hl. rewrite quote_unescaped; [lia|]. revert H. unfold is_change_id.
destruct (strip_prefix (u "chg_") id) as [l|] eqn:E; [|done]. apply strip_prefix_Some in E as ->.
intros [[H _]%andb_true_iff _]%andb_true_iff. rewrite forallb_app. apply andb_true_iff; split; [done|].
rewrite forallb_forall in H |- *. intros c Hc. specialize (H c Hc). apply orb_true_iff in H as [H|H].
- unfold unescaped, is_dig, is_lower_letter in *.
  assert (48 <= c <= 57 ∨ 97 <= c <= 122) by (apply orb_true_iff in H as [H|H]; apply between_true in H; lia).
  by rewrite (proj2 (between_true 32 126 c)), !(proj2 (Z.eqb_neq c _)) by lia.
- unfold among in H. to_prop. by apply list_elem_of_singleton in H as ->.
Qed.
Lemma ids_val_len d ids : Forall (λ id, is_change_id id = true) ids → (length ids <= COMMIT_IDS_PER_RECORD)%nat →
(val_len (S d) (JList (JStr <$> ids)) <= 2 + 71 * 256)%nat.
Proof.
intros Hids Hl. destruct (prints_strings d ids) as (t & Ht). unfold val_len at 1. rewrite Ht.
destruct (decide (ids = [])) as [->|Hne]; [by injection Ht as <-; cbn; lia|].
apply list_length in Ht as [-> _]; [|by intros ?%fmap_nil_inv].
assert (∀ l, Forall (λ id, is_change_id id = true) l →
  nsum ((λ v, val_len d v + 1) <$> (JStr <$> l)) <= 71 * length l)%nat as H.
{ induction 1 as [|id l Hid _ IH]; [done|]. rewrite !fmap_cons. cbn [nsum length].
  assert (val_len d (JStr id) = length (quote id)) as -> by by destruct d. pose proof (id_quote_length id Hid). lia. }
specialize (H ids Hids). unfold COMMIT_IDS_PER_RECORD in Hl. unfold ustr in *. lia.
Qed.
End printing.

Section lines.
Context {RT : Runtime} {RL : RuntimeLaws RT}.

Lemma deep : ∃ d, recursion_limit = S (S d).
Proof. pose proof recursion_limit_two. destruct recursion_limit as [|[|d]]; [lia|lia|eauto]. Qed.

Lemma commit_line t ids oc bid h : is_utc t → Forall (λ id, is_change_id id = true) ids →
(length ids <= COMMIT_IDS_PER_RECORD)%nat → check_backup_id oc bid = true → is_sha256 h = true →
∃ l, stable_json (JObj (commit_record (time_text t) ids oc bid h)) = Ok l ∧ ulen l <= MAX_LINE_BYTES.
Proof.
intros Ht Hids Hl Hb Hh. unfold stable_json. destruct deep as (d & ->).
destruct (prints_obj (S d) (commit_record (time_text t) ids oc bid h)) as (l & El).
{ unfold commit_record. repeat constructor; cbn [snd]; first [apply prints_one|apply prints_strings|apply prints_opt|apply prints_str]. }
exists l. split; [done|]. apply obj_length in El as [El _]; [|done].
pose proof (proj2 (time_text_spec _ Ht)) as Htt. pose proof (val_len_str (S d) (time_text t)).
pose proof (val_len_str (S d) h) as Hhl. rewrite (proj2 (sha256_scalars h Hh)) in Hhl.
assert (∀ s, bid = Some s → length s <= 128)%nat as Hbl.
{ intros s ->. destruct oc; [|done]. cbn in Hb. by apply backup_id_scalars in Hb as [_ ?]. }
pose proof (val_len_opt (S d) bid 128 Hbl). pose proof (val_len_str (S d) (outcome_text oc)).
assert (length (outcome_text oc) <= 6)%nat by (destruct oc; cbn; lia).
pose proof (ids_val_len d ids Hids Hl).
assert (val_len (S d) (JInt JOURNAL_FORMAT_VERSION) = 1 ∧ val_len (S d) (JStr (u "commit")) = 8)%nat as (E1 & E2) by done.
unfold commit_record, member_len in El. unfold ulen, MAX_LINE_BYTES. rewrite El. clear El.
cbn [fmap list_fmap fst snd nsum]. change (list_fmap _ _ JStr ids) with (JStr <$> ids) in *. rewrite E1, E2.
repeat match goal with |- context [length (quote (u ?k))] =>
  let n := eval vm_compute in (length (quote (u k))) in change (length (quote (u k))) with n end. lia.
Qed.
Lemma entry_line e : good_entry e → recovered e = false → merged e = 1 →
∃ l, stable_json (JObj (base_record e)) = Ok l ∧ ulen l <= MAX_LINE_BYTES.
Proof.
intros He Hr Hm. rewrite <-full_base by done.
assert (∃ l, stable_json (JObj (full_record e)) = Ok l) as (l & Hl); [|exists l; split; [done|by eapply change_line_length]].
rewrite full_base by done. unfold stable_json. destruct deep as (d & ->). apply prints_obj. unfold base_record.
repeat constructor; cbn [snd]; first [apply prints_one|apply prints_opt|apply prints_str].
Qed.

(** ** Writing *)

Lemma append_records_completes records f data : contents f = Some data →
Forall (λ r, ∃ l, stable_json (JObj r) = Ok l ∧ ulen l <= MAX_LINE_BYTES) records →
(append_records no_fault records f).1 = Ok tt.
Proof.
intros Hc Hr. unfold append_records.
destruct (res_mapM_total (λ r, stable_json (JObj r)) records) as (lines & El).
{ eapply Forall_impl; [exact Hr|]. intros r (l & ? & _). by exists l. }
rewrite El. apply res_mapM_Ok in El.
assert (existsb (λ l, MAX_LINE_BYTES <? ulen l) lines = false) as ->.
{ induction El as [|r l rs ls Hl _ IH]; [done|]. inversion Hr as [|? ? (l' & Hl' & Hle) Hrs]; subst. cbn.
  rewrite IH by done. assert (l' = l) as -> by congruence. by rewrite (proj2 (Z.ltb_ge _ _)). }
by destruct f.
Qed.

Lemma chunks_sizes fuel ids : Forall (λ ch, (length ch <= COMMIT_IDS_PER_RECORD)%nat ∧ ch ⊆ ids) (chunks fuel ids).
Proof.
revert ids; induction fuel as [|f IH]; intros ids; [constructor|]. cbn [chunks].
destruct (drop COMMIT_IDS_PER_RECORD ids) as [|i rest] eqn:E.
- constructor; [|constructor]. split; [|done]. apply (f_equal length) in E. rewrite length_drop in E. cbn in E. lia.
- constructor; [split; [rewrite length_take; lia|apply subseteq_take]|]. eapply Forall_impl; [apply IH|].
  intros ch [? Hs]. split; [done|]. etrans; [exact Hs|]. rewrite <-E. apply subseteq_drop.
Qed.
End lines.

(** ** Properties *)

(** A valid change is always accepted: without a fault of the system, with
    room in the file, whatever bytes are in it, [append] returns the new entry. *)
Theorem journal_append_completes {RT : Runtime} {RL : RuntimeLaws RT} c o act subj before after f data
    (Ho : good_outside o) (Hw : wfault o = no_fault) (Hact : is_action act = true) (Hsubj : scalars subj = true)
    (Hlen : ulen subj <= MAX_SUBJECT_CHARS) (Hhash : check_hash before && check_hash after = true)
    (Hf : contents f = Some data) (Hroom : roomy c f 1) :
  (append c o act subj before after f).1 = Ok (new_entry o act subj before after).
Proof.
  pose proof (new_entry_good o act subj before after Ho Hact Hsubj Hlen Hhash) as He.
  unfold append. rewrite Hact, (proj2 (Z.ltb_ge _ _) Hlen), Hhash. cbn [negb].
  set (e := new_entry o act subj before after) in *. rewrite change_record_eq, append_roomy, Hw by (try done; apply He).
  pose proof (append_records_completes [base_record e] f data Hf) as H.
  destruct (append_records no_fault [base_record e] f) as [r f']. cbn in H. rewrite H; [done|].
  constructor; [|constructor]. by apply entry_line.
Qed.

(** [C33] The journal can be drained: whatever is pending in a file of lines
    written here, committing the ids of all of it returns, when the system does
    not fail, and leaves nothing pending.  Each record of 256 ids fits on a line,
    however many changes there are. *)
Theorem journal_drains {RT : Runtime} {RL : RuntimeLaws RT} c o oc h bid f olds
    (Ho : good_outside o) (Hw : wfault o = no_fault) (Hb : check_backup_id oc bid = true) (Hh : is_sha256 h = true)
    (Hf : good_file f) (Hold : pending f = Ok olds) (Hroom : roomy c f (ulen (chunks (S (length olds)) (change_id <$> olds)))) :
  ∃ f', commit c o (change_id <$> olds) oc h bid f = (Ok tt, f') ∧ pending f' = Ok []
  ∧ last_backup f' = (match oc with backup => Ok (Some h, bid) | noop => last_backup f end).
Proof.
  destruct (good_file_parse f Hf) as (data & s & Hc & Hg & Hp & Hs).
  destruct (contents_pending f data s Hc Hp) as [Ep El]. assert (olds = owed s) as -> by congruence.
  set (ids := change_id <$> owed s) in *. pose proof (good_owed s Hs) as Howed.
  assert (Forall (λ id, is_change_id id = true) ids) as Hids.
  { apply Forall_fmap. eapply Forall_impl; [exact Howed|]. by intros e []. }
  assert (S (length (owed s)) = S (length ids)) as Elen by (unfold ids; by rewrite length_fmap). rewrite Elen in Hroom.
  destruct (chunks_concat (S (length ids)) ids ltac:(lia)) as [Hj Hlen].
  assert (forallb scalars (mjoin (chunks (S (length ids)) ids)) = true) as Hsc.
  { rewrite Hj. apply forallb_forall. intros id Hid%list_elem_of_In. rewrite Forall_forall in Hids.
    by apply change_id_scalars, Hids. }
  pose proof (chunk_commits_good (now o) _ oc bid h ltac:(apply Ho) Hsc Hb Hh) as [Hgw Hic].
  pose proof (chunk_commits_closes (now o) (chunks (S (length ids)) ids) oc bid h) as Hcl. rewrite Hj in Hcl.
  pose proof (chunk_commits_last (now o) (chunks (S (length ids)) ids) oc bid h s Hb) as Hlast.
  assert ((append_records no_fault (written_record <$> chunk_commits (now o) (chunks (S (length ids)) ids) oc bid h) f).1 = Ok tt) as Hok.
  { eapply append_records_completes; [exact Hc|]. unfold chunk_commits. rewrite !Forall_fmap.
    eapply Forall_impl; [apply chunks_sizes|]. intros ch [Hl Hsub]. apply commit_line; try done; [apply Ho|].
    apply Forall_forall. intros id Hid. rewrite Forall_forall in Hids. by apply Hids, Hsub. }
  destruct (append_records no_fault _ f) as [r f'] eqn:E in Hok. cbn in Hok. subst r. exists f'.
  pose proof (append_records_leaves f data s _ no_fault (Ok tt) f' Hc (good_readable data Hg) Hp Hgw E) as Hlv.
  apply (leaves_pending s) in Hlv as (k & news & extra & _ & Hpn & _ & Hsim & _ & Hl & Hdone); [|apply _|apply Hs|done].
  destruct (Hdone eq_refl) as [-> ->]. rewrite take_ge, app_nil_r in * by done.
  rewrite owed_commits, Hcl in Hsim by (try done; apply Hs). split_and!.
  - unfold commit. rewrite Hb, Hh. cbn [negb]. rewrite format_time_text, commit_records_eq by apply Ho.
    rewrite append_roomy, Hw; [exact E|]. unfold ulen, chunk_commits. by rewrite !length_fmap.
  - assert (still_open ids (owed s) = []) as Hnone.
    { apply filter_none, Forall_forall. intros e He. rewrite bool_decide_eq_true_2; [done|]. apply list_elem_of_fmap. by exists e. }
    rewrite Hnone in Hsim. inversion Hsim. by subst.
  - rewrite Hl, Hlast, El. destruct oc; [|done]. by destruct (chunks _ ids); [cbn in Hlen; lia|].
Qed.

Lemma journal_append_completes_witness :
  let _ := example_runtime in
  (append (mkJournal 4096000 10) (no_faults 738001 2) (u "mapping.saved") (u "slot 5") None None torn_file).1
  = Ok second_change.
Proof.
  intros RT.
  eapply (@journal_append_completes example_runtime example_laws (mkJournal 4096000 10) (no_faults 738001 2)
    (u "mapping.saved") (u "slot 5") None None torn_file (match torn_file with Regular b => b | _ => [] end)).
  - apply good_call_at; [vm_compute; split; congruence|lia].
  - reflexivity. - vm_compute; reflexivity. - vm_compute; reflexivity. - vm_compute; congruence. - vm_compute; reflexivity.
  - vm_compute; reflexivity. - vm_compute; congruence.
Defined.
Lemma journal_drains_witness :
  let _ := example_runtime in
  ∃ f', commit (mkJournal 4096000 10) (no_faults 738002 3) (change_id <$> [first_change; second_change]) noop a_hash None
          two_changes = (Ok tt, f')
  ∧ pending f' = Ok [].
Proof.
  intros RT.
  destruct (@journal_drains example_runtime example_laws (mkJournal 4096000 10) (no_faults 738002 3) noop a_hash None
    two_changes [first_change; second_change]
    ltac:(apply good_call_at; [vm_compute; split; congruence|lia]) ltac:(reflexivity) ltac:(reflexivity) ltac:(vm_compute; reflexivity)
    two_changes_good ltac:(vm_compute; reflexivity) ltac:(vm_compute; congruence)) as (f' & Hc & Hp & _).
  exists f'. split; [exact Hc|exact Hp].
Defined.
