(* ===== verification/Coalescer.v ===== *)
(** * Change-driven config backups

    [ConfigBackupCoalescer] of [history_service/backup_archive/journal.py]: it
    watches the change journal, waits for a quiet period, and makes at most one
    backup of a changed configuration.

    What it calls is the class [CoalescerWorld]: the journal, the snapshot and
    backup callbacks, the monotonic clock, the run lock, and the other threads
    of the process, which may record changes whenever no lock is held.  Clock
    readings and periods are exact numbers of nanoseconds. *)

From S2P Require Import Prelude Json Journal.
#[local] Open Scope Z_scope.
#[local] Open Scope list_scope.

Definition SECOND : Z := 1000000000.
Definition MAX_RETRY_EXPONENT : Z := 16.

(** An exception: its class name, and whether it is an [OSError] or a
    [JournalError], which the code catches apart. *)
Record exn := mkExn { exn_name : ustr; exn_journal : bool }.

Inductive run_status := StBackup | StNoop | StIdle | StNotDue | StBusy | StFailed.

Definition fingerprint_t : Type := (Z * Z * Z)%type.

(** ** What it calls *)

Class CoalescerWorld (W Snap Rec : Type) := {
  w_clock : W → Z * W;
  w_fingerprint : W → result exn (option fingerprint_t) * W;
  w_pending : W → result exn (list ustr) * W;
  w_last_backup : W → result exn (option ustr) * W;
  w_append : ustr → ustr → option ustr → option ustr → W → result exn ustr * W;
  w_commit : list ustr → CommitOutcome → ustr → option ustr → W → result exn unit * W;
  w_snapshot : W → result exn Snap * W;
  w_config_hash : Snap → result exn ustr;
  w_make_backup : list ustr → Snap → W → result exn Rec * W;
  w_artifact_id : Rec → option ustr;         (* its [artifact_id], when that is a string *)
  w_run_lock : W → result exn bool * W;
  w_others : W → list ustr * W;
}.

(** The calls of a run, with what they returned. *)
Inductive call (Snap Rec : Type) :=
| CallFingerprint (r : result exn (option fingerprint_t))
| CallPending (r : result exn (list ustr))
| CallLastBackup (r : result exn (option ustr))
| CallAppend (action subject : ustr) (r : result exn ustr)
| CallCommit (ids : list ustr) (outcome : CommitOutcome) (config_hash : ustr)
    (backup_id : option ustr) (r : result exn unit)
| CallSnapshot (r : result exn Snap)
| CallMakeBackup (ids : list ustr) (snapshot : Snap) (r : result exn Rec)
| CallRunLock (r : result exn bool).
Arguments CallFingerprint {Snap Rec}. Arguments CallPending {Snap Rec}.
Arguments CallLastBackup {Snap Rec}. Arguments CallAppend {Snap Rec}.
Arguments CallCommit {Snap Rec}. Arguments CallSnapshot {Snap Rec}.
Arguments CallMakeBackup {Snap Rec}. Arguments CallRunLock {Snap Rec}.

Record CoalescerResult (Rec : Type) := mkResult {
  res_status : run_status;
  res_change_ids : list ustr;
  res_config_hash : option ustr;
  res_backup_id : option ustr;
  res_record : option Rec;
  res_error : option ustr;
}.
Arguments mkResult {Rec}. Arguments res_status {Rec}. Arguments res_change_ids {Rec}.
Arguments res_config_hash {Rec}. Arguments res_backup_id {Rec}.
Arguments res_record {Rec}. Arguments res_error {Rec}.

(** ** State *)

Record coalescer := mkCoalescer {
  quiet_period : Z;
  max_delay : Z;
  seen : gset ustr;
  first_seen_at : option Z;
  last_seen_at : option Z;
  retry_at : option Z;
  failures : Z;
  fingerprint : option (option fingerprint_t);     (* [None]: nothing read yet *)
  last_error : option ustr;
}.

Definition with_seen (X : gset ustr) (c : coalescer) : coalescer :=
  mkCoalescer (quiet_period c) (max_delay c) X (first_seen_at c) (last_seen_at c) (retry_at c)
    (failures c) (fingerprint c) (last_error c).
Definition with_window (f l : option Z) (c : coalescer) : coalescer :=
  mkCoalescer (quiet_period c) (max_delay c) (seen c) f l (retry_at c) (failures c) (fingerprint c)
    (last_error c).
Definition with_retry (r : option Z) (n : Z) (c : coalescer) : coalescer :=
  mkCoalescer (quiet_period c) (max_delay c) (seen c) (first_seen_at c) (last_seen_at c) r n
    (fingerprint c) (last_error c).
Definition with_fingerprint_read (fp : option fingerprint_t) (c : coalescer) : coalescer :=
  mkCoalescer (quiet_period c) (max_delay c) (seen c) (first_seen_at c) (last_seen_at c) (retry_at c)
    (failures c) (Some fp) (last_error c).
Definition with_last_error (e : option ustr) (c : coalescer) : coalescer :=
  mkCoalescer (quiet_period c) (max_delay c) (seen c) (first_seen_at c) (last_seen_at c) (retry_at c)
    (failures c) (fingerprint c) e.

(** [_reset_timers_locked] *)
Definition reset_timers (c : coalescer) : coalescer := with_retry None 0 (with_window None None c).
(** [_note_new_ids_locked] at the time [now], for ids that are not empty *)
Definition note_ids (now : Z) (ids : gset ustr) (c : coalescer) : coalescer :=
  let c := with_seen (seen c ∪ ids) c in
  with_window (match first_seen_at c with None => Some now | f => f end) (Some now) c.

(** [_record_failure]'s delay *)
Definition retry_delay (c : coalescer) (failures : Z) : Z :=
  let exponent := Z.min (failures - 1) MAX_RETRY_EXPONENT in
  Z.min (max_delay c) (Z.max (quiet_period c) SECOND * 2 ^ exponent).

(** ** Programs *)

Section coalescer.
Context {W Snap Rec : Type} {HW : CoalescerWorld W Snap Rec}.

Record state := mkState {
  self : coalescer;
  world : W;
  calls : list (call Snap Rec);
}.

(** A method: it may raise, and keeps what it did until then. *)
Definition prog (A : Type) : Type := state → result exn A * state.
Definition ret {A} (a : A) : prog A := λ s, (Ok a, s).
Definition raise {A} (e : exn) : prog A := λ s, (Err e, s).
Definition bind {A B} (m : prog A) (k : A → prog B) : prog B := λ s,
  match m s with
  | (Ok a, s') => k a s'
  | (Err e, s') => (Err e, s')
  end.
(** [try: ... except Exception as exc] *)
Definition try_ {A} (m : prog A) : prog (result exn A) := λ s,
  let '(r, s') := m s in (Ok r, s').
Definition of_result {A} (r : result exn A) : prog A := λ s, (r, s).
#[local] Notation "'let!' x ':=' m 'in' k" := (bind m (λ x, k))
  (at level 200, x name, m at level 100, k at level 200).

Definition get : prog coalescer := λ s, (Ok (self s), s).
Definition modify (f : coalescer → coalescer) : prog unit := λ s,
  (Ok tt, mkState (f (self s)) (world s) (calls s)).
Definition read_clock : prog Z := λ s,
  let '(now, w) := w_clock (world s) in (Ok now, mkState (self s) w (calls s)).

(** [_note_new_ids_locked] *)
Definition note_new_ids (ids : gset ustr) : prog unit :=
  if bool_decide (ids = ∅) then ret tt
  else let! now := read_clock in modify (note_ids now ids).

(** Other threads: each change they record is noted, as [record_change] does. *)
Fixpoint note_each (ids : list ustr) : prog unit :=
  match ids with
  | [] => ret tt
  | i :: ids' => let! _ := note_new_ids {[ i ]} in note_each ids'
  end.
Definition other_threads : prog unit := λ s,
  let '(ids, w) := w_others (world s) in note_each ids (mkState (self s) w (calls s)).

(** A call outside, after which other threads may have run. *)
Definition ask {A} (note : result exn A → call Snap Rec) (op : W → result exn A * W) : prog A := λ s,
  let '(r, w) := op (world s) in
  (let! _ := other_threads in of_result r) (mkState (self s) w (calls s ++ [note r])).

(** ** Intake *)

Definition poll : prog Z :=
  let! fp := ask CallFingerprint w_fingerprint in
  let! c := get in
  if bool_decide (is_Some fp) && bool_decide (fingerprint c = Some fp)
  then ret (Z.of_nat (size (seen c)))
  else
    let! ids := ask CallPending w_pending in
    let pending_ids : gset ustr := list_to_set ids in
    let! _ := modify (λ c, with_seen (seen c ∩ pending_ids) (with_fingerprint_read fp c)) in
    let! c := get in
    let! _ := note_new_ids (pending_ids ∖ seen c) in
    let! c := get in
    let! _ := (if bool_decide (seen c = ∅) then modify reset_timers else ret tt) in
    ret (Z.of_nat (size (seen c))).

Definition record_change (action subject : ustr) (before_hash after_hash : option ustr) : prog ustr :=
  let! change_id := ask (CallAppend action subject) (w_append action subject before_hash after_hash) in
  let! _ := note_new_ids {[ change_id ]} in
  ret change_id.

(** [__init__]: [None] is [ValueError] *)
Definition new_coalescer (quiet max : Z) : option coalescer :=
  if (quiet <? 0) || (max <=? 0) || (max <? quiet) then None
  else Some (mkCoalescer quiet max ∅ None None None 0 None None).
Definition start : prog unit := let! _ := try_ poll in ret tt.

(** ** Scheduling *)

Definition seconds_until_due : prog (option Z) :=
  let! c := get in
  match first_seen_at c, last_seen_at c with
  | Some first, Some last =>
      if bool_decide (seen c = ∅) then ret None
      else
        let due_at := Z.min (last + quiet_period c) (first + max_delay c) in
        let due_at := match retry_at c with Some r => Z.max due_at r | None => due_at end in
        let! now := read_clock in
        ret (Some (Z.max 0 (due_at - now)))
  | _, _ => ret None
  end.
Definition due : prog bool :=
  let! remaining := seconds_until_due in
  ret (match remaining with Some r => r <=? 0 | None => false end).

(** ** The run *)

Definition result_of (status : run_status) (change_ids : list ustr) (error : option ustr) :
    CoalescerResult Rec :=
  mkResult status change_ids None None None error.

(** [_artifact_id] *)
Definition bad_artifact_id : exn := mkExn (u "ValueError") false.
Definition artifact_id (record : Rec) : result exn ustr :=
  match w_artifact_id record with
  | Some value => if is_backup_id value then Ok value else Err bad_artifact_id
  | None => Err bad_artifact_id
  end.

Definition record_failure (change_ids : list ustr) (error : ustr) : prog (CoalescerResult Rec) :=
  let! _ := modify (λ c, with_last_error (Some error) (with_retry (retry_at c) (failures c + 1) c)) in
  let! now := read_clock in
  let! _ := modify (λ c, with_retry (Some (now + retry_delay c (failures c))) (failures c) c) in
  ret (result_of StFailed change_ids (Some error)).

Definition record_success (change_ids : list ustr) : prog unit :=
  let! _ := modify (λ c,
    with_retry None 0 (with_seen (seen c ∖ list_to_set change_ids) (with_last_error None c))) in
  let! c := get in
  let! _ := (if bool_decide (seen c = ∅) then modify reset_timers
             else let! now := read_clock in modify (with_window (Some now) (Some now))) in
  let! _ := other_threads in
  let! _ := poll in
  ret tt.

(** The snapshot and its hash. *)
Definition capture : prog (Snap * ustr) :=
  let! snapshot := ask CallSnapshot w_snapshot in
  let! config_hash := of_result (w_config_hash snapshot) in
  ret (snapshot, config_hash).

(** An unchanged configuration: the changes are committed without a backup. *)
Definition commit_noop (change_ids : list ustr) (config_hash : ustr) : prog (CoalescerResult Rec) :=
  let! done := try_ (ask (CallCommit change_ids noop config_hash None)
                       (w_commit change_ids noop config_hash None)) in
  match done with
  | Ok _ =>
      let! _ := record_success change_ids in
      ret (mkResult StNoop change_ids (Some config_hash) None None None)
  | Err e =>
      if exn_journal e
      then record_failure change_ids (u "journal commit failed: " ++ exn_name e)
      else raise e
  end.

(** A changed one: back up the snapshot, then commit the changes to it. *)
Definition make (change_ids : list ustr) (snapshot : Snap) : prog (Rec * ustr) :=
  let! record := ask (CallMakeBackup change_ids snapshot) (w_make_backup change_ids snapshot) in
  let! backup_id := of_result (artifact_id record) in
  ret (record, backup_id).
Definition commit_backup (change_ids : list ustr) (config_hash : ustr) (record : Rec)
    (backup_id : ustr) : prog (CoalescerResult Rec) :=
  let! done := try_ (ask (CallCommit change_ids backup config_hash (Some backup_id))
                       (w_commit change_ids backup config_hash (Some backup_id))) in
  match done with
  | Ok _ =>
      let! _ := record_success change_ids in
      ret (mkResult StBackup change_ids (Some config_hash) (Some backup_id) (Some record) None)
  | Err e =>
      if exn_journal e then
        let! r := record_failure change_ids (u "journal commit failed: " ++ exn_name e) in
        ret (mkResult StFailed change_ids (Some config_hash) (Some backup_id) (Some record) (res_error r))
      else raise e
  end.

Definition back_up_if_changed (change_ids : list ustr) (snapshot : Snap) (config_hash : ustr) :
    prog (CoalescerResult Rec) :=
  let! last_hash := ask CallLastBackup w_last_backup in
  if bool_decide (last_hash = Some config_hash) then commit_noop change_ids config_hash
  else
    let! made := try_ (make change_ids snapshot) in
    match made with
    | Err e => record_failure change_ids (u "config backup failed: " ++ exn_name e)
    | Ok (record, backup_id) => commit_backup change_ids config_hash record backup_id
    end.

Definition run_locked : prog (CoalescerResult Rec) :=
  let! change_ids := ask CallPending w_pending in
  match change_ids with
  | [] =>
      let! _ := modify (λ c, reset_timers (with_seen ∅ c)) in
      ret (result_of StIdle [] None)
  | _ =>
      let! captured := try_ capture in
      match captured with
      | Err e => record_failure change_ids (u "config snapshot failed: " ++ exn_name e)
      | Ok (snapshot, config_hash) => back_up_if_changed change_ids snapshot config_hash
      end
  end.

Definition run : prog (CoalescerResult Rec) :=
  let! acquired := ask CallRunLock w_run_lock in
  if acquired then run_locked else ret (result_of StBusy [] None).

Definition tick : prog (CoalescerResult Rec) :=
  let! _ := poll in
  let! c := get in
  if bool_decide (seen c = ∅) then ret (result_of StIdle [] None)
  else
    let! is_due := due in
    if is_due then run else ret (result_of StNotDue [] None).
End coalescer.
