(* ===== verification/CoalescerProofs.v ===== *)
(** * Theorems on the coalescer

    A run backs up and commits exactly the changes it read before its snapshot,
    and a pending change is never more than the maximum delay away from being
    due, whatever fails and whatever other threads do. *)

From S2P Require Import Prelude Json Journal Coalescer.
#[local] Open Scope Z_scope.
#[local] Open Scope list_scope.

(** ** Clocks

    The monotonic clock: [now] is its reading in a world; reading it, and
    everything else that happens, never turns it back. *)
Class ClockLaws (W Snap Rec : Type) {HW : CoalescerWorld W Snap Rec} (now : W → Z) : Prop := {
  clock_reads : ∀ w, now w <= fst (w_clock w) ∧ fst (w_clock w) = now (snd (w_clock w));
  fingerprint_time : ∀ w, now w <= now (snd (w_fingerprint w));
  pending_time : ∀ w, now w <= now (snd (w_pending w));
  last_backup_time : ∀ w, now w <= now (snd (w_last_backup w));
  append_time : ∀ a s b f w, now w <= now (snd (w_append a s b f w));
  commit_time : ∀ ids o h b w, now w <= now (snd (w_commit ids o h b w));
  snapshot_time : ∀ w, now w <= now (snd (w_snapshot w));
  make_backup_time : ∀ ids snap w, now w <= now (snd (w_make_backup ids snap w));
  run_lock_time : ∀ w, now w <= now (snd (w_run_lock w));
  others_time : ∀ w, now w <= now (snd (w_others w));
}.
#[export] Hint Resolve fingerprint_time pending_time last_backup_time append_time commit_time
  snapshot_time make_backup_time run_lock_time others_time : py.

Section invariant.
Context {W Snap Rec : Type} {HW : CoalescerWorld W Snap Rec} {now : W → Z}.
Context {Laws : ClockLaws W Snap Rec now}.
Abbreviation state := (state (W := W) (Snap := Snap) (Rec := Rec)).
Abbreviation prog := (prog (W := W) (Snap := Snap) (Rec := Rec)).

(** ** A program logic: what holds after a return and after an exception *)

Definition triple {A} (P : state → Prop) (m : prog A) (Q : A → state → Prop) (E : state → Prop) : Prop :=
  ∀ s, P s → match m s with (Ok a, s') => Q a s' | (Err _, s') => E s' end.

Lemma triple_bind {A B} P (m : prog A) Q (k : A → prog B) R E :
  triple P m Q E → (∀ a, triple (Q a) (k a) R E) → triple P (bind m k) R E.
Proof.
  intros Hm Hk s Hs. unfold bind. specialize (Hm s Hs). destruct (m s) as [[a|e] s']; [|done].
  by apply Hk.
Qed.
Lemma triple_ret {A} (P : state → Prop) (a : A) E : triple P (ret a) (λ _, P) E.
Proof. by intros s Hs. Qed.
Lemma triple_pre {A} (P P' : state → Prop) (m : prog A) Q E :
  triple P m Q E → (∀ s, P' s → P s) → triple P' m Q E.
Proof. intros Hm HP s Hs. by apply Hm, HP. Qed.
Lemma triple_try {A} P (m : prog A) (Q : state → Prop) E :
  triple P m (λ _, Q) Q → triple P (try_ m) (λ _, Q) E.
Proof. intros Hm s Hs. unfold try_. specialize (Hm s Hs). by destruct (m s) as [[a|e] s']. Qed.
Lemma triple_modify P f (Q : state → Prop) E :
  (∀ s, P s → Q (mkState (f (self s)) (world s) (calls s))) → triple P (modify f) (λ _, Q) E.
Proof. intros H s Hs. by apply H. Qed.
Lemma triple_get P E : triple P get (λ c s, P s ∧ c = self s) E.
Proof. by intros s Hs. Qed.
Lemma triple_result {A} P (r : result exn A) : triple P (of_result r) (λ _, P) P.
Proof. intros s Hs. by destruct r. Qed.
Lemma triple_raise {A} (P : state → Prop) e : triple P (raise (A := A) e) (λ _, P) P.
Proof. by intros s Hs. Qed.

(** ** The invariant *)

(** The timers are in order: the window opens before it was last extended, both
    in the past, and a retry is at most [max_delay] away. *)
Definition timed (s : state) : Prop :=
  let c := self s in
  0 <= quiet_period c ∧ 0 < max_delay c
  ∧ (first_seen_at c = None ↔ last_seen_at c = None)
  ∧ (∀ f l, first_seen_at c = Some f → last_seen_at c = Some l → f <= l <= now (world s))
  ∧ (∀ r, retry_at c = Some r → r <= now (world s) + max_delay c).
(** ... and, between operations, a window is open exactly when changes wait. *)
Definition opened (s : state) : Prop := seen (self s) ≠ ∅ → first_seen_at (self s) ≠ None.
Definition closed (s : state) : Prop := seen (self s) = ∅ → first_seen_at (self s) = None.
Definition inv (s : state) : Prop := timed s ∧ opened s ∧ closed s.
Definition inv' (s : state) : Prop := timed s ∧ opened s.

Lemma timed_later c w w' l l' : now w <= now w' → timed (mkState c w l) → timed (mkState c w' l').
Proof.
  intros Hw (H1 & H2 & H3 & H4 & H5). split_and!; try done; cbn in *.
  - intros f l0 Hf Hl. specialize (H4 f l0 Hf Hl). lia.
  - intros r Hr. specialize (H5 r Hr). lia.
Qed.
Lemma inv_later s w' l' : now (world s) <= now w' → inv s → inv (mkState (self s) w' l').
Proof. intros Hw (H1 & H2 & H3). destruct s as [c w l]. split_and!; try done. by eapply timed_later. Qed.

(** Reading the clock gives a time that is not in the future. *)
Lemma triple_clock (P : state → Prop) E :
  (∀ s w' l', now (world s) <= now w' → P s → P (mkState (self s) w' l')) →
  triple P read_clock (λ t s, P s ∧ t = now (world s)) E.
Proof.
  intros HP s Hs. unfold read_clock. destruct (clock_reads (world s)) as [H1 H2].
  destruct (w_clock (world s)) as [t w]. cbn in *. split; [|done]. apply HP; [|done]. lia.
Qed.

Lemma noted_timed t ids s : timed s → t = now (world s) → timed (mkState (note_ids t ids (self s)) (world s) (calls s)).
Proof.
  intros (H1 & H2 & H3 & H4 & H5) ->. unfold note_ids. split_and!; cbn; try done.
  - by destruct (first_seen_at (self s)).
  - intros f l Hf [= <-]. destruct (first_seen_at (self s)) as [f0|] eqn:Ef.
    + injection Hf as <-. destruct (last_seen_at (self s)) as [l0|] eqn:El.
      * specialize (H4 f0 l0 eq_refl eq_refl). lia.
      * destruct H3 as [_ H3]. by specialize (H3 eq_refl).
    + injection Hf as <-. lia.
Qed.

Lemma inv'_later s w' l' : now (world s) <= now w' → inv' s → inv' (mkState (self s) w' l').
Proof. intros Hw (H1 & H2). destruct s as [c w l]. split_and!; try done. by eapply timed_later. Qed.

Lemma triple_note (ids : gset ustr) E : triple inv' (note_new_ids ids) (λ _, inv') E.
Proof.
  unfold note_new_ids. case_bool_decide as Hi; [apply triple_ret|].
  eapply triple_bind; [apply (triple_clock inv'); apply inv'_later|]. intros t.
  apply triple_modify. intros s [[Ht Ho] ->]. split; [by apply noted_timed|].
  intros _. cbn. by destruct (first_seen_at (self s)).
Qed.

Lemma triple_note_inv (ids : gset ustr) E : triple inv (note_new_ids ids) (λ _, inv) E.
Proof.
  unfold note_new_ids. case_bool_decide as Hi; [apply triple_ret|].
  eapply triple_bind; [apply (triple_clock inv); apply inv_later|]. intros t.
  apply triple_modify. intros s [(Ht & Ho & Hc) ->]. split_and!.
  - by apply noted_timed.
  - intros _. cbn. by destruct (first_seen_at (self s)).
  - intros Hseen. cbn in Hseen. set_solver.
Qed.

Lemma triple_others E : triple inv other_threads (λ _, inv) E.
Proof.
  intros s Hs. unfold other_threads. pose proof (others_time (world s)) as Ht.
  destruct (w_others (world s)) as [ids w]. cbn in Ht.
  assert (∀ s, inv s → match note_each ids s with (Ok _, s') => inv s' | (Err _, s') => E s' end) as H.
  { clear -Laws. induction ids as [|i ids IH]; [by intros s Hs|]. intros s Hs. cbn [note_each].
    apply (triple_bind inv _ (λ _, inv) _ (λ _, inv) E); [apply triple_note_inv|by intros _|done]. }
  apply H. by apply inv_later.
Qed.

Lemma triple_ask {A} (note : result exn A → call Snap Rec) op :
  (∀ w, now w <= now (snd (op w))) → triple inv (ask note op) (λ _, inv) inv.
Proof.
  intros Hop s Hs. unfold ask. specialize (Hop (world s)). destruct (op (world s)) as [r w]. cbn in Hop.
  apply (triple_bind inv _ (λ _, inv) _ (λ _, inv) inv); [apply triple_others| |by apply inv_later].
  intros _. apply triple_result.
Qed.


Lemma triple_settle E :
  triple inv' (bind get (λ c, bind (if bool_decide (seen c = ∅) then modify reset_timers else ret tt)
                                (λ _, ret (Z.of_nat (size (seen c)))))) (λ _, inv) E.
Proof.
  eapply triple_bind; [apply triple_get|]. intros c. eapply triple_bind; [|intros ?; apply triple_ret].
  case_bool_decide as Hc.
  - apply triple_modify. intros s [[(H1 & H2 & _ & _ & _) _] Ec]. unfold reset_timers.
    split_and!; cbn; try done. intros Hs. by rewrite Ec in Hc.
  - intros s [[Ht Ho] Ec]. rewrite Ec in Hc. split_and!; [done|done|]. by intros ?.
Qed.

Lemma triple_poll : triple inv poll (λ _, inv) inv.
Proof.
  unfold poll. eapply triple_bind; [apply triple_ask; eauto with py|]. intros fp.
  eapply triple_bind; [apply triple_get|]. intros c.
  destruct (_ && _); [by intros s [Hs _]|].
  apply (triple_pre inv); [|by intros s [Hs _]].
  eapply triple_bind; [apply triple_ask; eauto with py|]. intros ids. cbv zeta.
  eapply (triple_bind _ _ (λ _, inv')).
  { apply triple_modify. intros s ((H1 & H2 & H3 & H4 & H5) & Ho & Hc). split; [by split_and!|].
    intros Hs. cbn in *. apply Ho. set_solver. }
  intros _. eapply triple_bind; [apply triple_get|]. intros c'.
  apply (triple_pre inv'); [|by intros s [Hs _]].
  eapply triple_bind; [apply triple_note|]. intros ?. apply triple_settle.
Qed.

Lemma triple_record_failure ids e : triple inv (record_failure ids e) (λ _, inv) inv.
Proof.
  unfold record_failure. eapply (triple_bind _ _ (λ _, inv)).
  { apply triple_modify. by intros s Hs. }
  intros _. eapply triple_bind; [apply (triple_clock inv); apply inv_later|]. intros t.
  eapply (triple_bind _ _ (λ _, inv)); [|intros _; apply triple_ret].
  apply triple_modify. intros s [((H1 & H2 & H3 & H4 & H5) & Ho & Hc) ->].
  split; [|by split]. split_and!; try done. cbn. intros r [= <-]. unfold retry_delay. lia.
Qed.

Lemma triple_record_success ids : triple inv (record_success ids) (λ _, inv) inv.
Proof.
  unfold record_success. eapply (triple_bind _ _ (λ _, inv')).
  { apply triple_modify. intros s ((H1 & H2 & H3 & H4 & H5) & Ho & Hc). split; [by split_and!|].
    intros Hs. cbn in *. apply Ho. set_solver. }
  intros _. eapply triple_bind; [apply triple_get|]. intros c.
  eapply (triple_bind _ _ (λ _, inv)).
  { case_bool_decide as Hc.
    - apply triple_modify. intros s [[(H1 & H2 & _ & _ & _) _] Ec]. split_and!; cbn; try done.
      intros Hs. by rewrite Ec in Hc.
    - apply (triple_pre (λ s, inv' s ∧ seen (self s) ≠ ∅)); [|intros s [Hs Ec]; by rewrite Ec in Hc].
      eapply triple_bind; [apply (triple_clock (λ s, inv' s ∧ seen (self s) ≠ ∅))|].
      { intros s w' l' Hw [Hs Hne]. split; [by apply inv'_later|done]. }
      intros t. apply triple_modify. intros s [[[(H1 & H2 & _ & _ & H5) _] Hne] ->].
      split; [|split; [done|intros Hs; by cbn in Hs]].
      split_and!; cbn; try done. intros f l [= <-] [= <-]. lia. }
  intros _. eapply triple_bind; [apply triple_others|]. intros ?.
  eapply triple_bind; [apply triple_poll|]. intros ?. apply triple_ret.
Qed.

Ltac inv_step :=
  lazymatch goal with
  | |- triple _ (bind _ _) _ _ => eapply triple_bind; [|intros ?]
  | |- triple _ (ret _) _ _ => apply triple_ret
  | |- triple _ (raise _) _ _ => apply triple_raise
  | |- triple _ (ask _ _) _ _ => apply triple_ask; eauto with py
  | |- triple _ (try_ _) _ _ => apply triple_try
  | |- triple _ (of_result _) _ _ => apply triple_result
  | |- triple _ (record_failure _ _) _ _ => apply triple_record_failure
  | |- triple _ (record_success _) _ _ => apply triple_record_success
  | |- triple _ poll _ _ => apply triple_poll
  | |- triple _ (match ?x with _ => _ end) _ _ => destruct x
  end.

Lemma triple_run_locked : triple inv run_locked (λ _, inv) inv.
Proof.
  unfold run_locked, back_up_if_changed, capture, commit_noop, make, commit_backup. repeat inv_step.
  apply triple_modify. intros s ((H1 & H2 & _ & _ & _) & _ & _).
  split; [by split_and!|split; [by intros Hs|done]].
Qed.

Lemma triple_record_change a sub b f : triple inv (record_change a sub b f) (λ _, inv) inv.
Proof. unfold record_change. repeat inv_step. apply triple_note_inv. Qed.

(** The time a coalescer is due at. *)
Definition due_at (c : coalescer) (first last : Z) : Z :=
  let d := Z.min (last + quiet_period c) (first + max_delay c) in
  match retry_at c with Some r => Z.max d r | None => d end.

Lemma seconds_until_due_eq s :
  seconds_until_due s =
  match first_seen_at (self s), last_seen_at (self s) with
  | Some first, Some last =>
      if bool_decide (seen (self s) = ∅) then (Ok None, s)
      else (Ok (Some (Z.max 0 (due_at (self s) first last - fst (w_clock (world s))))),
            mkState (self s) (snd (w_clock (world s))) (calls s))
  | _, _ => (Ok None, s)
  end.
Proof.
  unfold seconds_until_due, bind, get, due_at. destruct (first_seen_at (self s)), (last_seen_at (self s)); try done.
  case_bool_decide; [done|]. unfold read_clock. by destruct (w_clock (world s)).
Qed.

Lemma triple_seconds : triple inv seconds_until_due (λ _, inv) inv.
Proof.
  intros s Hs. rewrite seconds_until_due_eq.
  destruct (first_seen_at (self s)), (last_seen_at (self s)); try done.
  case_bool_decide; [done|]. apply inv_later; [|done].
  destruct (clock_reads (world s)) as [H1 H2]. lia.
Qed.
Lemma triple_due : triple inv due (λ _, inv) inv.
Proof. unfold due. eapply triple_bind; [apply triple_seconds|]. intros ?. apply triple_ret. Qed.

Lemma triple_run : triple inv run (λ _, inv) inv.
Proof. unfold run. inv_step; [inv_step|]. destruct a; [apply triple_run_locked|apply triple_ret]. Qed.

Lemma triple_tick : triple inv tick (λ _, inv) inv.
Proof.
  unfold tick. inv_step; [apply triple_poll|]. eapply triple_bind; [apply triple_get|]. intros c.
  apply (triple_pre inv); [|by intros s [Hs _]]. case_bool_decide; [apply triple_ret|].
  inv_step; [apply triple_due|]. destruct a0; [apply triple_run|apply triple_ret].
Qed.

(** ** Reachable states *)

Definition after {A} (m : prog A) (s : state) : state := snd (m s).

(** The life of a coalescer: created, then used through its methods, in a world
    that may change between calls without turning the clock back. *)
Inductive reachable : state → Prop :=
| reach_start quiet max c w :
    new_coalescer quiet max = Some c → reachable (after start (mkState c w []))
| reach_world s w' : reachable s → now (world s) <= now w' → reachable (mkState (self s) w' (calls s))
| reach_poll s : reachable s → reachable (after poll s)
| reach_record a sub b f s : reachable s → reachable (after (record_change a sub b f) s)
| reach_due s : reachable s → reachable (after due s)
| reach_run s : reachable s → reachable (after run s)
| reach_tick s : reachable s → reachable (after tick s).

Lemma inv_after {A} (m : prog A) s : triple inv m (λ _, inv) inv → inv s → inv (after m s).
Proof. intros Hm Hs. specialize (Hm s Hs). unfold after. by destruct (m s) as [[a|e] s']. Qed.

Lemma reachable_inv s : reachable s → inv s.
Proof.
  induction 1 as [quiet max c w Hc|s w' _ IH Hw|s _ IH|a sub b f s _ IH|s _ IH|s _ IH|s _ IH].
  - apply (inv_after start).
    { unfold start. inv_step; [apply triple_try, triple_poll|apply triple_ret]. }
    unfold new_coalescer in Hc.
    destruct ((quiet <? 0) || (max <=? 0) || (max <? quiet)) eqn:E; [done|]. injection Hc as <-. to_prop.
    split; [|split; [by intros Hs|done]]. split_and!; cbn; (done || lia).
  - by apply inv_later.
  - by apply inv_after; [apply triple_poll|].
  - by apply inv_after; [apply triple_record_change|].
  - by apply inv_after; [apply triple_due|].
  - by apply inv_after; [apply triple_run|].
  - by apply inv_after; [apply triple_tick|].
Qed.
End invariant.

(** ** The calls of a run *)

Section runs.
Context {W Snap Rec : Type} {HW : CoalescerWorld W Snap Rec}.
Abbreviation state := (state (W := W) (Snap := Snap) (Rec := Rec)).
Abbreviation call := (call Snap Rec).
Abbreviation result_t := (result exn (CoalescerResult Rec)).

Lemma bind_ok {A B} (m : prog (W := W) (Snap := Snap) (Rec := Rec) A) (k : A → prog B) s a s' :
  m s = (Ok a, s') → bind m k s = k a s'.
Proof. intros E. unfold bind. by rewrite E. Qed.
Lemma bind_err {A B} (m : prog (W := W) (Snap := Snap) (Rec := Rec) A) (k : A → prog B) s e s' :
  m s = (Err e, s') → bind m k s = (Err e, s').
Proof. intros E. unfold bind. by rewrite E. Qed.

(** Programs that only keep the clock and the coalescer: no call is made. *)
Definition silent {A} (m : prog (W := W) (Snap := Snap) (Rec := Rec) A) : Prop :=
  ∀ s, ∃ c w a, m s = (Ok a, mkState c w (calls s)).

Lemma silent_bind {A B} (m : prog A) (k : A → prog B) :
  silent m → (∀ a, silent (k a)) → silent (bind m k).
Proof.
  intros Hm Hk s. destruct (Hm s) as (c & w & a & E). unfold bind. rewrite E.
  destruct (Hk a (mkState c w (calls s))) as (c' & w' & b & E'). by exists c', w', b.
Qed.
Lemma silent_ret {A} (a : A) : silent (ret a).
Proof. intros s. exists (self s), (world s), a. by destruct s. Qed.
Lemma silent_get : silent get.
Proof. intros s. exists (self s), (world s), (self s). by destruct s. Qed.
Lemma silent_modify f : silent (modify f).
Proof. intros s. by eexists _, _, _. Qed.
Lemma silent_clock : silent read_clock.
Proof. intros s. unfold read_clock. destruct (w_clock (world s)). by eexists _, _, _. Qed.
Lemma silent_note ids : silent (note_new_ids ids).
Proof.
  unfold note_new_ids. case_bool_decide; [apply silent_ret|].
  apply silent_bind; [apply silent_clock|intros ?; apply silent_modify].
Qed.
Lemma silent_others : silent other_threads.
Proof.
  intros s. unfold other_threads. destruct (w_others (world s)) as [ids w].
  assert (silent (note_each ids)) as H.
  { induction ids as [|i ids IH]; [apply silent_ret|]. cbn [note_each].
    apply silent_bind; [apply silent_note|done]. }
  destruct (H (mkState (self s) w (calls s))) as (c' & w' & [] & E). by exists c', w', tt.
Qed.
Lemma silent_failure ids e : silent (record_failure ids e).
Proof.
  unfold record_failure. apply silent_bind; [apply silent_modify|intros _].
  apply silent_bind; [apply silent_clock|intros ?].
  apply silent_bind; [apply silent_modify|intros _; apply silent_ret].
Qed.

Lemma failure_status ids e s : ∃ c w r,
  record_failure ids e s = (Ok r, mkState c w (calls s)) ∧ res_status r = StFailed.
Proof.
  destruct (silent_failure ids e s) as (c & w & r & E). exists c, w, r. split; [done|].
  unfold record_failure, bind, modify, read_clock, ret in E. cbn in E.
  destruct (w_clock (world s)). by injection E as <-.
Qed.

(** What a call outside does: its answer, and a note of it. *)
Lemma ask_eq {A} (note : result exn A → call) op s : ∃ r c w,
  ask note op s = (r, mkState c w (calls s ++ [note r])) ∧ r = fst (op (world s)).
Proof.
  unfold ask. destruct (op (world s)) as [r w]. unfold bind.
  destruct (silent_others (mkState (self s) w (calls s ++ [note r]))) as (c' & w' & [] & ->).
  exists r, c', w'. by destruct r.
Qed.

Definition is_poll (k : call) : Prop :=
  match k with CallFingerprint _ | CallPending _ => True | _ => False end.

Lemma poll_calls s : ∃ more r c w, poll s = (r, mkState c w (calls s ++ more)) ∧ Forall is_poll more.
Proof.
  unfold poll. unfold bind at 1. destruct (ask_eq CallFingerprint w_fingerprint s) as (r & c & w & -> & _).
  destruct r as [fp|e]; [|by eexists _, _, _, _; split; [|repeat constructor]].
  unfold bind at 1. cbn [get self]. destruct (_ && _); [by eexists _, _, _, _; split; [|repeat constructor]|].
  unfold bind at 1.
  destruct (ask_eq CallPending w_pending (mkState c w (calls s ++ [CallFingerprint (Ok fp)])))
    as (r & c' & w' & -> & _). cbn [calls].
  destruct r as [ids|e].
  2: { eexists _, _, _, _; split; [by rewrite <-app_assoc|repeat constructor]. }
  match goal with |- context [bind ?m ?k] => assert (silent (bind m k)) as Hs end.
  { apply silent_bind; [apply silent_modify|intros _]. apply silent_bind; [apply silent_get|intros ?].
    apply silent_bind; [apply silent_note|intros _]. apply silent_bind; [apply silent_get|intros ?].
    apply silent_bind; [|intros _; apply silent_ret].
    case_bool_decide; [apply silent_modify|apply silent_ret]. }
  destruct (Hs (mkState c' w' ((calls s ++ [CallFingerprint (Ok fp)]) ++ [CallPending (Ok ids)])))
    as (c2 & w2 & n & ->). cbn [calls].
  eexists _, _, _, _; split; [by rewrite <-app_assoc|repeat constructor].
Qed.

Lemma success_calls ids s : ∃ more r c w,
  record_success ids s = (r, mkState c w (calls s ++ more)) ∧ Forall is_poll more.
Proof.
  unfold record_success.
  destruct (silent_modify (λ c, with_retry None 0 (with_seen (seen c ∖ list_to_set ids) (with_last_error None c))) s)
    as (c & w & a & E). rewrite (bind_ok _ _ _ _ _ E). rewrite (bind_ok get _ _ _ _ eq_refl).
  match goal with |- context [bind (if ?b then ?x else ?y) ?k] => assert (silent (if b then x else y)) as Hs end.
  { case_bool_decide; [apply silent_modify|].
    apply silent_bind; [apply silent_clock|intros ?; apply silent_modify]. }
  destruct (Hs (mkState c w (calls s))) as (c1 & w1 & a1 & E1). rewrite (bind_ok _ _ _ _ _ E1).
  destruct (silent_others (mkState c1 w1 (calls s))) as (c2 & w2 & a2 & E2). cbn [calls] in *.
  rewrite (bind_ok _ _ _ _ _ E2).
  destruct (poll_calls (mkState c2 w2 (calls s))) as (more & r & c3 & w3 & E3 & Hm). cbn [calls] in *.
  destruct r as [n|e].
  - rewrite (bind_ok _ _ _ _ _ E3). by exists more, (Ok tt), c3, w3.
  - rewrite (bind_err _ _ _ _ _ E3). by exists more, (Err e), c3, w3.
Qed.

(** The end of a run that tried to commit: polls and [status] when the commit
    went through, nothing more and a failure when it did not. *)
Definition ending (committed : result exn unit) (status : run_status) (more : list call) (r : result_t) : Prop :=
  Forall is_poll more
  ∧ match committed with
    | Ok _ => ∀ res, r = Ok res → res_status res = status
    | Err _ => more = [] ∧ ∀ res, r = Ok res → res_status res = StFailed
    end.
Definition failed_run (r : result_t) : Prop := ∃ res, r = Ok res ∧ res_status res = StFailed.

(** The ways a run can go, by the calls it makes. *)
Inductive story : list call → result_t → Prop :=
| story_lock e : story [CallRunLock (Err e)] (Err e)
| story_busy : story [CallRunLock (Ok false)] (Ok (result_of StBusy [] None))
| story_unread e : story [CallRunLock (Ok true); CallPending (Err e)] (Err e)
| story_idle : story [CallRunLock (Ok true); CallPending (Ok [])] (Ok (result_of StIdle [] None))
| story_no_snapshot ids e r :
    failed_run r → story [CallRunLock (Ok true); CallPending (Ok ids); CallSnapshot (Err e)] r
| story_no_hash ids snap r :
    failed_run r → story [CallRunLock (Ok true); CallPending (Ok ids); CallSnapshot (Ok snap)] r
| story_no_last ids snap e :
    story [CallRunLock (Ok true); CallPending (Ok ids); CallSnapshot (Ok snap); CallLastBackup (Err e)] (Err e)
| story_noop ids snap h committed more r :
    ids ≠ [] → w_config_hash snap = Ok h → ending committed StNoop more r →
    story ([CallRunLock (Ok true); CallPending (Ok ids); CallSnapshot (Ok snap); CallLastBackup (Ok (Some h));
            CallCommit ids noop h None committed] ++ more) r
| story_no_backup ids snap h last made r :
    ids ≠ [] → w_config_hash snap = Ok h → last ≠ Some h → failed_run r →
    story [CallRunLock (Ok true); CallPending (Ok ids); CallSnapshot (Ok snap); CallLastBackup (Ok last);
           CallMakeBackup ids snap made] r
| story_backup ids snap h last record id committed more r :
    ids ≠ [] → w_config_hash snap = Ok h → last ≠ Some h → artifact_id record = Ok id →
    ending committed StBackup more r →
    story ([CallRunLock (Ok true); CallPending (Ok ids); CallSnapshot (Ok snap); CallLastBackup (Ok last);
            CallMakeBackup ids snap (Ok record); CallCommit ids backup h (Some id) committed] ++ more) r.

(** A failure is reported without further calls. *)
Lemma failure_run ids e l c w : ∃ c' w' r,
  record_failure ids e (mkState c w l) = (r, mkState c' w' l) ∧ failed_run r.
Proof.
  destruct (failure_status ids e (mkState c w l)) as (c' & w' & r & E & Hr).
  exists c', w', (Ok r). split; [done|]. by exists r.
Qed.

(** A commit that failed: reported when the code catches it, raised otherwise. *)
Lemma commit_failure ids (e : exn) msg l c w :
  ∃ r c' w', (if exn_journal e then record_failure ids msg else raise e) (mkState c w l)
             = (r, mkState c' w' l)
    ∧ ∀ res, r = Ok res → res_status res = StFailed.
Proof.
  destruct (exn_journal e).
  - destruct (failure_status ids msg (mkState c w l)) as (c' & w' & r & E & Hr).
    exists (Ok r), c', w'. split; [done|]. by intros res [= <-].
  - exists (Err e), c, w. by split.
Qed.
Lemma try_ok {A} (m : prog (W := W) (Snap := Snap) (Rec := Rec) A) s r s' :
  m s = (r, s') → try_ m s = (Ok r, s').
Proof. intros E. unfold try_. by rewrite E. Qed.

(** The commit of a run and what follows it. *)
Lemma commit_run ids o h b (ok_result : CoalescerResult Rec) (on_error : exn → prog (CoalescerResult Rec))
    status c w l :
  res_status ok_result = status →
  (∀ e c w l, ∃ r c' w', on_error e (mkState c w l) = (r, mkState c' w' l)
    ∧ ∀ res, r = Ok res → res_status res = StFailed) →
  ∃ committed more c' w' r,
    bind (try_ (ask (CallCommit ids o h b) (w_commit ids o h b))) (λ done,
      match done with
      | Ok _ => bind (record_success ids) (λ _, ret ok_result)
      | Err e => on_error e
      end) (mkState c w l)
    = (r, mkState c' w' (l ++ CallCommit ids o h b committed :: more))
    ∧ ending committed status more r.
Proof.
  intros Hst Herr.
  destruct (ask_eq (CallCommit ids o h b) (w_commit ids o h b) (mkState c w l)) as (r & c1 & w1 & E & _).
  cbn [calls] in E. rewrite (bind_ok _ _ _ _ _ (try_ok _ _ _ _ E)). destruct r as [[]|e].
  - destruct (success_calls ids (mkState c1 w1 (l ++ [CallCommit ids o h b (Ok ())])))
      as (more & r & c2 & w2 & E2 & Hm). cbn [calls] in E2. rewrite <-app_assoc in E2.
    exists (Ok ()), more, c2, w2. destruct r as [[]|e].
    + rewrite (bind_ok _ _ _ _ _ E2). exists (Ok ok_result). split; [done|]. split; [done|].
      by intros res [= <-].
    + rewrite (bind_err _ _ _ _ _ E2). exists (Err e). by split.
  - destruct (Herr e c1 w1 (l ++ [CallCommit ids o h b (Err e)])) as (r & c2 & w2 & E2 & Hr).
    exists (Err e), [], c2, w2, r. split; [exact E2|]. by split.
Qed.

Lemma commit_noop_run ids h c w l : ∃ committed more c' w' r,
  commit_noop ids h (mkState c w l)
  = (r, mkState c' w' (l ++ CallCommit ids noop h None committed :: more))
  ∧ ending committed StNoop more r.
Proof. apply commit_run; [done|]. intros e c0 w0 l0. apply commit_failure. Qed.

Lemma commit_backup_run ids h record id c w l : ∃ committed more c' w' r,
  commit_backup ids h record id (mkState c w l)
  = (r, mkState c' w' (l ++ CallCommit ids backup h (Some id) committed :: more))
  ∧ ending committed StBackup more r.
Proof.
  apply commit_run; [done|]. intros e c0 w0 l0. destruct (exn_journal e); [|by exists (Err e), c0, w0; split].
  destruct (failure_status ids (u "journal commit failed: " ++ exn_name e) (mkState c0 w0 l0))
    as (c' & w' & r & E & Hr).
  rewrite (bind_ok _ _ _ _ _ E). eexists (Ok _), c', w'. split; [done|]. by intros res [= <-].
Qed.

Lemma capture_run c w l : ∃ c' w' r,
  (∃ e, r = Err e ∧ capture (mkState c w l) = (r, mkState c' w' (l ++ [CallSnapshot (Err e)])))
  ∨ ∃ snap, capture (mkState c w l) = (r, mkState c' w' (l ++ [CallSnapshot (Ok snap)]))
      ∧ ∀ x, r = Ok x → fst x = snap ∧ w_config_hash snap = Ok (snd x).
Proof.
  unfold capture. destruct (ask_eq CallSnapshot w_snapshot (mkState c w l)) as (r & c1 & w1 & E & _).
  cbn [calls] in E. destruct r as [snap|e].
  - rewrite (bind_ok _ _ _ _ _ E). destruct (w_config_hash snap) as [h|e] eqn:Eh.
    + exists c1, w1, (Ok (snap, h)). right. exists snap. split; [done|]. by intros x [= <-].
    + exists c1, w1, (Err e). right. exists snap. by split.
  - rewrite (bind_err _ _ _ _ _ E). exists c1, w1, (Err e). left. by exists e.
Qed.

Lemma make_run ids snap c w l : ∃ made c' w' r,
  make ids snap (mkState c w l) = (r, mkState c' w' (l ++ [CallMakeBackup ids snap made]))
  ∧ ∀ x, r = Ok x → made = Ok (fst x) ∧ artifact_id (fst x) = Ok (snd x).
Proof.
  unfold make.
  destruct (ask_eq (CallMakeBackup ids snap) (w_make_backup ids snap) (mkState c w l)) as (r & c1 & w1 & E & _).
  cbn [calls] in E. exists r, c1, w1. destruct r as [record|e].
  - rewrite (bind_ok _ _ _ _ _ E). destruct (artifact_id record) as [id|e] eqn:Ea.
    + exists (Ok (record, id)). split; [done|]. by intros x [= <-].
    + exists (Err e). by split.
  - rewrite (bind_err _ _ _ _ _ E). exists (Err e). by split.
Qed.
Lemma back_up_run pre ids snap h c w :
  ids ≠ [] → w_config_hash snap = Ok h →
  ∃ new c' w' r,
    back_up_if_changed ids snap h (mkState c w
      (pre ++ [CallRunLock (Ok true); CallPending (Ok ids); CallSnapshot (Ok snap)]))
    = (r, mkState c' w' (pre ++ new)) ∧ story new r.
Proof.
  intros Hne Hh. unfold back_up_if_changed.
  destruct (ask_eq CallLastBackup w_last_backup (mkState c w (pre ++
    [CallRunLock (Ok true); CallPending (Ok ids); CallSnapshot (Ok snap)]))) as (r & c3 & w3 & E & _).
  cbn [calls] in E. rewrite <-app_assoc in E. cbn [app] in E. destruct r as [last|e].
  2: { rewrite (bind_err _ _ _ _ _ E). do 4 eexists. split; [done|constructor]. }
  rewrite (bind_ok _ _ _ _ _ E). clear E. case_bool_decide as Hlast.
  { subst last. destruct (commit_noop_run ids h c3 w3 (pre ++ [CallRunLock (Ok true); CallPending (Ok ids);
      CallSnapshot (Ok snap); CallLastBackup (Ok (Some h))])) as (committed & more & c4 & w4 & r & E & Hend).
    do 4 eexists. split; [rewrite E, <-app_assoc; reflexivity|]. by apply story_noop. }
  destruct (make_run ids snap c3 w3 (pre ++ [CallRunLock (Ok true); CallPending (Ok ids);
    CallSnapshot (Ok snap); CallLastBackup (Ok last)])) as (made & c4 & w4 & r & E & Hr).
  rewrite <-app_assoc in E. cbn [app] in E. rewrite (bind_ok _ _ _ _ _ (try_ok _ _ _ _ E)). clear E.
  destruct r as [[record id]|e].
  2: { destruct (failure_run ids (u "config backup failed: " ++ exn_name e) (pre ++ [CallRunLock (Ok true);
      CallPending (Ok ids); CallSnapshot (Ok snap); CallLastBackup (Ok last); CallMakeBackup ids snap made])
      c4 w4) as (c5 & w5 & r & E & Hf).
    do 4 eexists. split; [exact E|by eapply story_no_backup]. }
  destruct (Hr _ eq_refl) as [-> Hid]. cbn [fst snd] in *.
  destruct (commit_backup_run ids h record id c4 w4 (pre ++ [CallRunLock (Ok true); CallPending (Ok ids);
    CallSnapshot (Ok snap); CallLastBackup (Ok last); CallMakeBackup ids snap (Ok record)]))
    as (committed & more & c5 & w5 & r & E & Hend).
  do 4 eexists. split; [rewrite E, <-app_assoc; reflexivity|]. by eapply story_backup.
Qed.

Lemma run_story s : ∃ new c w r, run s = (r, mkState c w (calls s ++ new)) ∧ story new r.
Proof.
  unfold run. destruct (ask_eq CallRunLock w_run_lock s) as (r & c & w & E & _). destruct r as [locked|e].
  2: { rewrite (bind_err _ _ _ _ _ E). do 4 eexists. split; [done|constructor]. }
  rewrite (bind_ok _ _ _ _ _ E). clear E. destruct locked.
  2: { do 4 eexists. split; [done|constructor]. }
  unfold run_locked.
  destruct (ask_eq CallPending w_pending (mkState c w (calls s ++ [CallRunLock (Ok true)])))
    as (r & c1 & w1 & E & _). cbn [calls] in E. rewrite <-app_assoc in E. cbn [app] in E.
  destruct r as [ids|e].
  2: { rewrite (bind_err _ _ _ _ _ E). do 4 eexists. split; [done|constructor]. }
  rewrite (bind_ok _ _ _ _ _ E). clear E. destruct ids as [|i ids0].
  { do 4 eexists. split; [done|constructor]. }
  set (ids := i :: ids0). assert (ids ≠ []) as Hne by done. clearbody ids.
  destruct (capture_run c1 w1 (calls s ++ [CallRunLock (Ok true); CallPending (Ok ids)]))
    as (c2 & w2 & r & [(e & -> & E)|(snap & E & Hr)]); rewrite <-app_assoc in E; cbn [app] in E;
    rewrite (bind_ok _ _ _ _ _ (try_ok _ _ _ _ E)); clear E.
  { destruct (failure_run ids (u "config snapshot failed: " ++ exn_name e) (calls s ++
      [CallRunLock (Ok true); CallPending (Ok ids); CallSnapshot (Err e)]) c2 w2) as (c3 & w3 & r & E & Hr).
    do 4 eexists. split; [exact E|by constructor]. }
  destruct r as [[snap' h]|e].
  2: { destruct (failure_run ids (u "config snapshot failed: " ++ exn_name e) (calls s ++
      [CallRunLock (Ok true); CallPending (Ok ids); CallSnapshot (Ok snap)]) c2 w2) as (c3 & w3 & r & E & Hf).
    do 4 eexists. split; [exact E|by constructor]. }
  destruct (Hr _ eq_refl) as [Hsnap Hh]. cbn [fst snd] in Hsnap, Hh. subst snap'. clear Hr.
  by apply back_up_run.
Qed.
End runs.

(** ** What the stories have in common *)

Section exact.
Context {W Snap Rec : Type} {HW : CoalescerWorld W Snap Rec}.
Abbreviation call := (call Snap Rec).

Definition is_make (k : call) : bool := match k with CallMakeBackup _ _ _ => true | _ => false end.
Definition is_commit (k : call) : bool := match k with CallCommit _ _ _ _ _ => true | _ => false end.
Definition count (p : call → bool) (l : list call) : nat := length (List.filter p l).

(** The run read the pending changes [ids], then took the snapshot [snap] whose
    hash is [h]. *)
Definition captured (ids : list ustr) (snap : Snap) (h : ustr) (l : list call) : Prop :=
  w_config_hash snap = Ok h
  ∧ ∃ rest, l = CallRunLock (Ok true) :: CallPending (Ok ids) :: CallSnapshot (Ok snap) :: rest.

Lemma polls_count (p : call → bool) (more : list call) :
  (∀ k, is_poll k → p k = false) → Forall is_poll more → List.filter p more = [].
Proof. intros Hp Hm. apply filter_none. eapply Forall_impl; [exact Hm|]. auto. Qed.
Lemma poll_not_make (k : call) : is_poll k → is_make k = false.
Proof. by destruct k. Qed.
Lemma poll_not_commit (k : call) : is_poll k → is_commit k = false.
Proof. by destruct k. Qed.
Lemma elem_of_calls (k : call) (l more : list call) :
  Forall is_poll more → ¬ is_poll k → k ∈ (l ++ more) → k ∈ l.
Proof.
  intros Hm Hk [H|H]%elem_of_app; [done|]. rewrite Forall_forall in Hm. by apply Hm in H.
Qed.

Ltac in_calls H := repeat (apply elem_of_cons in H as [H|H]; [try discriminate H|]); try by apply not_elem_of_nil in H.

Lemma story_make l r ids snap made : story l r → CallMakeBackup ids snap made ∈ l →
  ids ≠ [] ∧ ∃ h last, captured ids snap h l ∧ CallLastBackup (Ok last) ∈ l ∧ last ≠ Some h.
Proof.
  intros Hs Hin. destruct Hs as [| | | | | | |ids' snap' h com more r ? ? [Hm _]|
    ids' snap' h last m r Hne Hh Hl _|ids' snap' h last rc id com more r Hne Hh Hl _ [Hm _]];
    try (apply elem_of_calls in Hin; [|done|by intros ?]); in_calls Hin.
  - injection Hin as -> -> ->. split; [done|]. exists h, last. split_and!; [|do 3 right; by left|done].
    split; [done|by eexists].
  - injection Hin as -> -> ->. split; [done|]. exists h, last. split_and!; [|do 3 right; by left|done].
    split; [done|by eexists].
Qed.

Lemma story_commit l r ids o h b committed : story l r → CallCommit ids o h b committed ∈ l →
  ids ≠ [] ∧ ∃ snap last, captured ids snap h l ∧ CallLastBackup (Ok last) ∈ l
    ∧ (o = noop ∧ b = None ∧ last = Some h ∧ count is_make l = 0%nat
       ∨ o = backup ∧ last ≠ Some h ∧ ∃ record id,
           CallMakeBackup ids snap (Ok record) ∈ l ∧ artifact_id record = Ok id ∧ b = Some id).
Proof.
  intros Hs Hin. destruct Hs as [| | | | | | |ids' snap' h' com more r Hne Hh [Hm _]|
    |ids' snap' h' last rc id com more r Hne Hh Hl Hid [Hm _]];
    try (apply elem_of_calls in Hin; [|done|by intros ?]); in_calls Hin.
  - injection Hin as -> -> -> -> ->. split; [done|]. exists snap', (Some h').
    split_and!; [split; [done|by eexists]|do 3 right; by left|left]. split_and!; try done.
    unfold count. rewrite List.filter_app, (polls_count _ _ poll_not_make Hm). done.
  - injection Hin as -> -> -> -> ->. split; [done|]. exists snap', last.
    split_and!; [split; [done|by eexists]|do 3 right; by left|right]. split_and!; try done.
    exists rc, id. split_and!; try done. do 4 right. by left.
Qed.

Lemma story_counts l r : story l r → (count is_make l <= 1)%nat ∧ (count is_commit l <= 1)%nat.
Proof.
  intros Hs. unfold count. destruct Hs as [| | | | | | |? ? ? ? more ? ? ? [Hm _]|
    |? ? ? ? ? ? ? more ? ? ? ? ? [Hm _]]; rewrite ?List.filter_app,
    ?(polls_count _ _ poll_not_make Hm), ?(polls_count _ _ poll_not_commit Hm); cbn; lia.
Qed.

Lemma story_status l res : story l (Ok res) →
  ((res_status res = StBackup ∨ res_status res = StNoop)
   ↔ ∃ ids o h b, CallCommit ids o h b (Ok tt) ∈ l)
  ∧ (res_status res = StBackup → count is_make l = 1%nat).
Proof.
  intros Hs. remember (Ok res) as r eqn:Er.
  destruct Hs as [e| |e| |? ? ? (res' & Hr & Hf)|? ? ? (res' & Hr & Hf)|? ? e
    |? ? ? com more ? ? ? [Hm He]|? ? ? ? ? ? ? ? ? (res' & Hr & Hf)|? ? ? ? ? ? com more ? ? ? ? ? [Hm He]].
  all: try discriminate Er.
  all: try (rewrite Hr in Er; injection Er as <-).
  all: try (injection Er as <-).
  all: try (destruct com as [[]|e]; [specialize (He _ Er)|destruct He as [-> He]; specialize (He _ Er)]).
  all: split; [split|].
  all: try (intros [E|E]; cbn in E; congruence).
  all: try (intros E; cbn in E; congruence).
  all: try (intros (? & ? & ? & ? & Hin); rewrite ?app_nil_r in Hin; in_calls Hin; fail).
  all: try (intros _; do 4 eexists; apply elem_of_app; left; first [do 4 right; by left|do 5 right; by left]).
  all: try (intros _; by auto).
  all: try (intros _; unfold count; rewrite List.filter_app, (polls_count _ _ poll_not_make Hm); done).
Qed.
End exact.

(** ** Properties *)

(** [C13] One backup of exactly what changed: whatever the journal, the callbacks
    and the other threads do, a run makes at most one backup and one commit; it
    backs up, and commits, exactly the changes that were pending when it read
    the journal before taking the snapshot; the commit carries the hash of that
    snapshot, and marks a backup only when the hash differs from the last one,
    with the id of the backup just made, or a no-op only when it is equal, with
    no backup made; and the run reports success exactly when that commit went
    through. *)
Theorem coalescer_run_exact {W Snap Rec : Type} {HW : CoalescerWorld W Snap Rec}
    (s : state (W := W) (Snap := Snap) (Rec := Rec)) :
  ∃ made, calls (snd (run s)) = (calls s ++ made)
  ∧ (count is_make made <= 1)%nat ∧ (count is_commit made <= 1)%nat
  ∧ (∀ ids snap r, CallMakeBackup ids snap r ∈ made →
       ids ≠ [] ∧ ∃ h last, captured ids snap h made ∧ CallLastBackup (Ok last) ∈ made ∧ last ≠ Some h)
  ∧ (∀ ids o h b r, CallCommit ids o h b r ∈ made →
       ids ≠ [] ∧ ∃ snap last, captured ids snap h made ∧ CallLastBackup (Ok last) ∈ made
       ∧ (o = noop ∧ b = None ∧ last = Some h ∧ count is_make made = 0%nat
          ∨ o = backup ∧ last ≠ Some h ∧ ∃ record id,
              CallMakeBackup ids snap (Ok record) ∈ made ∧ artifact_id record = Ok id ∧ b = Some id))
  ∧ ∀ res, fst (run s) = Ok res →
      ((res_status res = StBackup ∨ res_status res = StNoop)
       ↔ ∃ ids o h b, CallCommit ids o h b (Ok tt) ∈ made).
Proof.
  destruct (run_story s) as (made & c & w & r & E & Hs). rewrite E. cbn [snd fst calls].
  exists made. destruct (story_counts _ _ Hs) as [Hm Hc]. split_and!; try done.
  - intros ids snap r'. by apply story_make with (r := r).
  - intros ids o h b r'. by apply story_commit with (r := r).
  - intros res ->. by apply story_status.
Qed.

(** [C35] A pending change is never far from its backup: in every state a
    coalescer can reach, whatever fails and whatever other threads and processes
    do, it is idle exactly when it has seen no pending change, and otherwise the
    time until a run is due is at most the maximum delay; with no retry waiting
    it is due exactly when the quiet period has passed since the last change or
    the maximum delay since the first. *)
Theorem coalescer_due_within_max_delay {W Snap Rec : Type} {HW : CoalescerWorld W Snap Rec} (now : W → Z)
    (Laws : ClockLaws W Snap Rec now) (s : state (W := W) (Snap := Snap) (Rec := Rec))
    (Hs : reachable (now := now) s) :
  match fst (seconds_until_due s) with
  | Ok None => seen (self s) = ∅
  | Ok (Some wait) =>
      seen (self s) ≠ ∅ ∧ 0 <= wait <= max_delay (self s)
      ∧ (retry_at (self s) = None →
         (wait = 0 ↔ ∃ first last, first_seen_at (self s) = Some first ∧ last_seen_at (self s) = Some last
            ∧ (last + quiet_period (self s) <= fst (w_clock (world s))
               ∨ first + max_delay (self s) <= fst (w_clock (world s)))))
  | Err _ => False
  end.
Proof.
  apply reachable_inv in Hs as ((Hq & Hm & Hfl & Hord & Hretry) & Ho & Hc).
  rewrite seconds_until_due_eq. destruct (clock_reads (world s)) as [Hclock _].
  destruct (first_seen_at (self s)) as [first|] eqn:Ef.
  2: { cbn. destruct (decide (seen (self s) = ∅)) as [|Hne]; [done|]. by apply Ho in Hne. }
  destruct (last_seen_at (self s)) as [last|] eqn:El; [|by destruct Hfl as [_ Hfl]; specialize (Hfl eq_refl)].
  specialize (Hord first last eq_refl eq_refl).
  case_bool_decide as Hseen; [done|]. cbn [fst]. unfold due_at. split; [done|].
  destruct (retry_at (self s)) as [r|]; [specialize (Hretry r eq_refl)|]; split; try lia; try done.
  intros _. split.
  - intros Hw. exists first, last. split_and!; [done|done|lia].
  - intros (f & l & [= <-] & [= <-] & H). lia.
Qed.

(** A small world: a clock that ticks once a second, a journal with one pending
    change, and callbacks that succeed. *)
Record toy := mkToy { toy_time : Z; toy_pending : list ustr; toy_last : option ustr }.
Definition toy_later (w : toy) : toy := mkToy (toy_time w + SECOND) (toy_pending w) (toy_last w).
#[export] Instance toy_world : CoalescerWorld toy ustr ustr := {|
  w_clock := λ w, (toy_time (toy_later w), toy_later w);
  w_fingerprint := λ w, (Ok (Some (1, Z.of_nat (length (toy_pending w)), 0)), w);
  w_pending := λ w, (Ok (toy_pending w), w);
  w_last_backup := λ w, (Ok (toy_last w), w);
  w_append := λ _ _ _ _ w, (Ok (u "chg_new00000"), mkToy (toy_time w) (toy_pending w ++ [u "chg_new00000"]) (toy_last w));
  w_commit := λ ids _ h _ w,
    (Ok tt, mkToy (toy_time w) (List.filter (λ i, negb (bool_decide (i ∈ ids))) (toy_pending w)) (Some h));
  w_snapshot := λ w, (Ok (u "config"), w);
  w_config_hash := λ s, Ok s;
  w_make_backup := λ _ _ w, (Ok (u "backup-1"), toy_later w);
  w_artifact_id := λ r, Some r;
  w_run_lock := λ w, (Ok true, w);
  w_others := λ w, ([], w)
|}.
Lemma toy_clock : ClockLaws toy ustr ustr toy_time.
Proof. split; intros; cbn; unfold SECOND; lia. Qed.

Definition toy_start : state (W := toy) (Snap := ustr) (Rec := ustr) :=
  mkState (mkCoalescer 30000000000 600000000000 ∅ None None None 0 None None)
    (mkToy 0 [u "chg_00000001"] None) [].
Lemma coalescer_due_within_max_delay_witness :
  ∃ wait, fst (seconds_until_due (after start toy_start)) = Ok (Some wait) ∧ 0 <= wait <= 600000000000.
Proof.
  pose proof (coalescer_due_within_max_delay toy_time toy_clock (after start toy_start)
    (reach_start 30000000000 600000000000 _ _ eq_refl)) as H.
  destruct (fst (seconds_until_due (after start toy_start))) as [[wait|]|e] eqn:E.
  - exists wait. split; [done|]. destruct H as (_ & H & _). exact H.
  - vm_compute in E. discriminate.
  - destruct H.
Defined.

Example toy_tick_waits : fst (tick (after start toy_start)) = Ok (result_of StNotDue [] None).
Proof. vm_compute. reflexivity. Qed.
Example toy_run_backs_up :
  res_status <$> (fst (run (after start toy_start))) = Ok StBackup
  ∧ toy_pending (world (snd (run (after start toy_start)))) = [].
Proof. split; vm_compute; reflexivity. Qed.
