(* ===== verification/CoalescerJournal.v ===== *)
(** * The coalescer on its journal

    The coalescer of one process, the journal file it watches, and the other
    threads and processes that record changes in it.  [Site] is what remains
    outside: clocks, random tokens, faults of the file system, the callbacks, and
    who records what, when.  Whatever happens, the file can be read, and each
    change it acknowledged is represented in what is pending or was named by a
    commit. *)

From S2P Require Import Prelude Json JsonProofs Journal JournalLines JournalExample JournalRecords JournalStates.
From S2P Require Import JournalSafety JournalCompaction JournalLedger JournalHistory.
From S2P Require Import Coalescer CoalescerProofs.
#[local] Open Scope Z_scope.
#[local] Open Scope list_scope.

(** ** What a run leaves alone

    A property [R] of the world that every call but a commit keeps. *)
Section quiet.
Context {W Snap Rec : Type} {HW : CoalescerWorld W Snap Rec}.
Abbreviation state := (state (W := W) (Snap := Snap) (Rec := Rec)).
Abbreviation prog := (prog (W := W) (Snap := Snap) (Rec := Rec)).

Record quiet (R : W → Prop) : Prop := {
quiet_clock : ∀ w, R w → R (snd (w_clock w));
quiet_fingerprint : ∀ w, R w → R (snd (w_fingerprint w));
quiet_pending : ∀ w, R w → R (snd (w_pending w));
quiet_last : ∀ w, R w → R (snd (w_last_backup w));
quiet_snapshot : ∀ w, R w → R (snd (w_snapshot w));
quiet_make : ∀ ids snap w, R w → R (snd (w_make_backup ids snap w));
quiet_lock : ∀ w, R w → R (snd (w_run_lock w));
quiet_others : ∀ w, R w → R (snd (w_others w));
}.
Definition holds (R : W → Prop) (s : state) : Prop := R (world s).
(** [m] keeps [R], returning or raising. *)
Definition keeps {A} (R : W → Prop) (m : prog A) : Prop := triple (holds R) m (λ _, holds R) (holds R).

Context {R : W → Prop} (Q : quiet R).

Lemma keeps_bind {A B} (m : prog A) (k : A → prog B) : keeps R m → (∀ a, keeps R (k a)) → keeps R (bind m k).
Proof. intros Hm Hk. by eapply triple_bind. Qed.
Lemma keeps_ret {A} (a : A) : keeps R (ret a).
Proof. apply triple_ret. Qed.
Lemma keeps_raise {A} e : keeps R (raise (A := A) e).
Proof. apply triple_raise. Qed.
Lemma keeps_result {A} (r : result exn A) : keeps R (of_result r).
Proof. apply triple_result. Qed.
Lemma keeps_get : keeps R get.
Proof. by intros s Hs. Qed.
Lemma keeps_modify f : keeps R (modify f).
Proof. by apply triple_modify. Qed.
Lemma keeps_try {A} (m : prog A) : keeps R m → keeps R (try_ m).
Proof. apply triple_try. Qed.
Lemma keeps_clock : keeps R read_clock.
Proof.
intros s Hs. unfold read_clock. pose proof (quiet_clock R Q (world s) Hs) as H. by destruct (w_clock (world s)) as [t w].
Qed.
Lemma keeps_note ids : keeps R (note_new_ids ids).
Proof.
unfold note_new_ids. case_bool_decide; [apply keeps_ret|].
apply keeps_bind; [apply keeps_clock|]. intros t. apply keeps_modify.
Qed.
Lemma keeps_others : keeps R other_threads.
Proof.
intros s Hs. unfold other_threads. pose proof (quiet_others R Q (world s) Hs) as H.
destruct (w_others (world s)) as [ids w]. cbn in H.
assert (∀ ids, keeps R (note_each ids)) as Heach; [|by apply Heach].
clear -Q. induction ids as [|i ids IH]; [apply keeps_ret|]. apply keeps_bind; [apply keeps_note|]. intros _. exact IH.
Qed.
Lemma keeps_ask {A} (note : result exn A → call Snap Rec) (op : W → result exn A * W) :
(∀ w, R w → R (snd (op w))) → keeps R (ask note op).
Proof.
intros Hop s Hs. unfold ask. specialize (Hop _ Hs). destruct (op (world s)) as [r w].
apply (keeps_bind other_threads (λ _, of_result r)); [apply keeps_others| |done]. intros _. apply keeps_result.
Qed.

Ltac keep :=
repeat first [ apply keeps_bind; [|intros ?] | apply keeps_ret | apply keeps_raise | apply keeps_get | apply keeps_modify
             | apply keeps_clock | apply keeps_note | apply keeps_others | apply keeps_result
             | apply keeps_try | apply keeps_ask; [apply Q] | case_match ].

Lemma keeps_poll : keeps R poll.
Proof. unfold poll. keep. Qed.
Lemma keeps_failure ids e : keeps R (record_failure ids e).
Proof. unfold record_failure. keep. Qed.
Lemma keeps_success ids : keeps R (record_success ids).
Proof. unfold record_success. keep. Qed.
Lemma keeps_capture : keeps R capture.
Proof. unfold capture. keep. Qed.
Lemma keeps_make ids snap : keeps R (make ids snap).
Proof. unfold make. keep. Qed.
Lemma keeps_due : keeps R due.
Proof. unfold due, seconds_until_due. keep. Qed.
Lemma keeps_record_change act subj b a : (∀ w, R w → R (snd (w_append act subj b a w))) →
keeps R (record_change act subj b a).
Proof. intros H. unfold record_change. keep. by apply keeps_ask. Qed.

(** The commit of [ids] at the end of a run. *)
Lemma keeps_back_up ids snap h : (∀ o h b w, R w → R (snd (w_commit ids o h b w))) →
keeps R (back_up_if_changed ids snap h).
Proof.
intros Hc. unfold back_up_if_changed, commit_noop, commit_backup.
repeat first [ apply keeps_success | apply keeps_failure | apply keeps_make | apply keeps_ask; [by intros; apply Hc] | progress keep ].
Qed.
End quiet.

(** A run commits the ids it read: [S ids] is what it knows of them. *)
Section runs.
Context {W Snap Rec : Type} {HW : CoalescerWorld W Snap Rec}.
Abbreviation state := (state (W := W) (Snap := Snap) (Rec := Rec)).
Abbreviation prog := (prog (W := W) (Snap := Snap) (Rec := Rec)).
Context {R : W → Prop} (Q : quiet R) {S : list ustr → W → Prop} (QS : ∀ ids, quiet (S ids)).
Hypothesis S_R : ∀ ids w, S ids w → R w.
Hypothesis pending_S : ∀ ids w, R w → fst (w_pending w) = Ok ids → S ids (snd (w_pending w)).
Hypothesis commit_S : ∀ ids o h b w, S ids w → S ids (snd (w_commit ids o h b w)).

Lemma triple_weaken {A} (P P' : state → Prop) (m : prog A) :
triple P m (λ _, P) P → (∀ s, P s → P' s) → triple P m (λ _, P') P'.
Proof. intros H HP s Hs. specialize (H s Hs). destruct (m s) as [[a|e] s']; by apply HP. Qed.

Lemma pending_run : triple (holds R) (ask CallPending w_pending) (λ ids, holds (S ids)) (holds R).
Proof.
intros s Hs. unfold ask. pose proof (quiet_pending R Q _ Hs) as H. pose proof (λ ids, pending_S ids _ Hs) as HS.
destruct (w_pending (world s)) as [[ids|e] w]; cbn in *.
- pose proof (keeps_bind other_threads (λ _, of_result (Ok ids)) (keeps_others (QS ids)) (λ _, keeps_result (Ok ids))) as Hk.
  specialize (Hk (mkState (self s) w (calls s ++ [CallPending (Ok ids)])) (HS ids eq_refl)).
  unfold bind in *. destruct (other_threads _) as [[[]|e] s']; cbn in *; [done|]. by apply (S_R ids).
- pose proof (keeps_bind other_threads (λ _, of_result (Err e)) (keeps_others Q) (λ _, keeps_result (A := list ustr) (Err e))) as Hk.
  specialize (Hk (mkState (self s) w (calls s ++ [CallPending (Err e)])) H).
  unfold bind in *. destruct (other_threads _) as [[[]|e'] s']; done.
Qed.
Lemma keeps_run_locked : keeps R run_locked.
Proof.
unfold run_locked. eapply triple_bind; [apply pending_run|]. intros ids.
assert (∀ A (m : prog A), keeps (S ids) m → triple (holds (S ids)) m (λ _, holds R) (holds R)) as Hw.
{ intros A m Hm. eapply triple_weaken; [exact Hm|]. intros s. apply S_R. }
apply Hw. destruct ids as [|i ids]; [apply keeps_bind; [apply keeps_modify|intros ?; apply keeps_ret]|].
apply keeps_bind; [apply keeps_try, (keeps_capture (QS _))|]. intros [[snap h]|e]; [|apply (keeps_failure (QS _))].
apply (keeps_back_up (QS _)). intros o h' b w. apply commit_S.
Qed.
Lemma keeps_run : keeps R run.
Proof.
unfold run. apply keeps_bind; [apply (keeps_ask Q), Q|]. intros []; [apply keeps_run_locked|apply keeps_ret].
Qed.
Lemma keeps_tick : keeps R tick.
Proof.
unfold tick. apply keeps_bind; [apply (keeps_poll Q)|]. intros n. apply keeps_bind; [apply keeps_get|]. intros c.
case_bool_decide; [apply keeps_ret|]. apply keeps_bind; [apply (keeps_due Q)|]. intros []; [apply keeps_run|apply keeps_ret].
Qed.
Lemma keeps_start : keeps R start.
Proof. unfold start. apply keeps_bind; [apply keeps_try, (keeps_poll Q)|]. intros ?. apply keeps_ret. Qed.
Lemma keeps_after {A} (m : prog A) s : keeps R m → holds R s → holds R (after m s).
Proof. intros Hm Hs. specialize (Hm s Hs). unfold after. by destruct (m s) as [[a|e] s']. Qed.
End runs.

(** ** A site *)

Record change := mkChange { c_action : ustr; c_subject : ustr; c_before : option ustr; c_after : option ustr }.

(** What is outside, by the number of calls made before: the values a call on the
    journal draws, the clock, the callbacks, the run lock, and the changes that
    other threads of the process ([true]) and other processes record next. *)
Class Site (Snap Rec : Type) := {
  the_journal : ChangeJournal;
  draws : nat → outside;
  clock_at : nat → Z;
  fingerprint_at : nat → node → result exn (option fingerprint_t);
  snapshot_at : nat → result exn Snap;
  hash_of : Snap → result exn ustr;
  backup_at : nat → list ustr → Snap → result exn Rec;
  id_of : Rec → option ustr;
  lock_at : nat → result exn bool;
  others_at : nat → list (bool * change);
}.

(** The file, the number of calls so far, the changes each pending entry stands
    for, and the changes acknowledged by [append] that no commit has named. *)
Record site := mkSite { file : node; steps : nat; ledger_of : ledger; acknowledged : list JournalEntry }.
Definition next (w : site) : site := mkSite (file w) (S (steps w)) (ledger_of w) (acknowledged w).

Definition exn_of (e : py_exn) : exn :=
  match e with
  | OSError => mkExn (u "OSError") true
  | JournalError => mkExn (u "JournalError") true
  | ValueError => mkExn (u "ValueError") false
  | TypeError => mkExn (u "TypeError") false
  | OverflowError => mkExn (u "OverflowError") false
  | RecursionError => mkExn (u "RecursionError") false
  | RuntimeError => mkExn (u "RuntimeError") false
  end.

(** No file reaches 2{^63} bytes: the system refuses to write before. *)
Definition fits (f : node) (n : Z) : bool := size_of f + (n + 1) * (MAX_LINE_BYTES + 1) <? 2 ^ 63.

Section site.
Context {RT : Runtime} {RL : RuntimeLaws RT} {Snap Rec : Type} {ST : Site Snap Rec}.

Definition site_append (act subj : ustr) (before after : option ustr) (w : site) : result exn ustr * site :=
if fits (file w) 1 then
  let '(r, f) := append the_journal (draws (steps w)) act subj before after (file w) in
  (match r with Ok e => Ok (change_id e) | Err e => Err (exn_of e) end,
   mkSite f (S (steps w))
     (appended (draws (steps w)) (new_entry (draws (steps w)) act subj before after) (pending_of f) (ledger_of w))
     (acknowledged w ++ match r with Ok e => [e] | Err _ => [] end))
else (Err (exn_of OSError), next w).
Definition site_commit (ids : list ustr) (oc : CommitOutcome) (h : ustr) (bid : option ustr) (w : site) :
  result exn unit * site :=
if fits (file w) (ulen (chunks (S (length ids)) ids)) then
  let '(r, f) := commit the_journal (draws (steps w)) ids oc h bid (file w) in
  (match r with Ok _ => Ok tt | Err e => Err (exn_of e) end,
   mkSite f (S (steps w)) (carried (compact_token (draws (steps w))) ids (pending_of f) (ledger_of w))
     (unnamed ids (ledger_of w) (acknowledged w)))
else (Err (exn_of OSError), next w).
Definition site_pending (w : site) : result exn (list ustr) * site :=
(match pending (file w) with Ok es => Ok (change_id <$> es) | Err e => Err (exn_of e) end, next w).
Definition site_last_backup (w : site) : result exn (option ustr) * site :=
(match last_backup (file w) with Ok (h, _) => Ok h | Err e => Err (exn_of e) end, next w).
(** Others record changes; those of this process are noted. *)
Fixpoint record_all (cs : list (bool * change)) (w : site) : list ustr * site :=
match cs with
| [] => ([], w)
| (here, ch) :: cs' =>
    let '(r, w) := site_append (c_action ch) (c_subject ch) (c_before ch) (c_after ch) w in
    let '(ids, w) := record_all cs' w in
    (match r with Ok id => if here then id :: ids else ids | Err _ => ids end, w)
end.

#[export] Instance site_world : CoalescerWorld site Snap Rec := {|
w_clock := λ w, (clock_at (steps w), next w);
w_fingerprint := λ w, (fingerprint_at (steps w) (file w), next w);
w_pending := site_pending;
w_last_backup := site_last_backup;
w_append := site_append;
w_commit := site_commit;
w_snapshot := λ w, (snapshot_at (steps w), next w);
w_config_hash := hash_of;
w_make_backup := λ ids snap w, (backup_at (steps w) ids snap, next w);
w_artifact_id := id_of;
w_run_lock := λ w, (lock_at (steps w), next w);
w_others := λ w, record_all (others_at (steps w)) (next w)
|}.

(** The draws are of their kind, and the random ids of the first 2{^64} calls do
    not repeat. *)
Definition CALLS : Z := 2 ^ 64.
Definition in_life (n : nat) : Prop := Z.of_nat n < CALLS.
Class SiteLaws : Prop := {
site_draws : ∀ n, good_outside (draws n);
site_tokens : ∀ m n, in_life m → in_life n → m ≠ n → token (draws m) ≠ token (draws n);
site_overflows : ∀ m n, in_life m → in_life n → m ≠ n →
  overflow_id (compact_token (draws m)) ≠ overflow_id (compact_token (draws n));
site_subjects : ∀ n, Forall (λ bc : bool * change, scalars (c_subject bc.2) = true) (others_at n);
}.
Context {SL : SiteLaws}.

(** ** Ids to come *)

Definition fresh_id (n : nat) : ustr := u "chg_" ++ token (draws n).
Definition fresh_overflow (n : nat) : ustr := overflow_id (compact_token (draws n)).
Definition to_come (n : nat) (id : ustr) : Prop :=
∃ k, (n <= k)%nat ∧ in_life k ∧ (id = fresh_id k ∨ id = fresh_overflow k).
Lemma to_come_later m n id : (m <= n)%nat → to_come n id → to_come m id.
Proof. intros Hle (k & Hk & H). exists k. split; [lia|done]. Qed.

Record site_state (w : site) : Prop := {
site_run : journal_run the_journal (file w) (ledger_of w) (acknowledged w);
site_good : ∃ data, contents (file w) = Some data ∧ good_data data;
site_fresh : ∀ id, to_come (steps w) id → unknown_id (file w) id;
}.
Definition site_ok (w : site) : Prop := Z.of_nat (steps w) <= CALLS → site_state w.
(** [ids] can be committed: they are texts, and none is one to come. *)
Definition settled (ids : list ustr) (w : site) : Prop :=
site_ok w ∧ forallb scalars ids = true ∧ ∀ id, id ∈ ids → Z.of_nat (steps w) <= CALLS → ¬ to_come (steps w) id.

Lemma steps_before w w' : steps w' = S (steps w) → Z.of_nat (steps w') <= CALLS →
Z.of_nat (steps w) <= CALLS ∧ in_life (steps w).
Proof. unfold in_life. intros ->. lia. Qed.
Lemma hex_head tok c s : hex_token tok → tok = c :: s → is_hex_lower c = true.
Proof. intros [H _] ->. cbn in H. by apply andb_true_iff in H as [? _]. Qed.
Lemma fresh_not_recovered n id m p : to_come n id → id ≠ recovered_id m p.
Proof.
intros (k & _ & _ & [->| ->]) E.
- unfold fresh_id, recovered_id in E.
  change (u "chg_recovered_" ++ ?x) with (u "chg_" ++ 114 :: (u "ecovered_" ++ x)) in E. apply app_inv_head in E.
  by apply hex_head in E; [|apply site_draws].
- unfold fresh_overflow, overflow_id, recovered_id in E.
  change (u "chg_overflow_" ++ ?x) with (u "chg_" ++ 111 :: (u "verflow_" ++ x)) in E.
  change (u "chg_recovered_" ++ ?x) with (u "chg_" ++ 114 :: (u "ecovered_" ++ x)) in E. apply app_inv_head in E. done.
Qed.
Lemma fresh_later n id : in_life n → to_come (S n) id → id ≠ fresh_id n ∧ id ≠ fresh_overflow n.
Proof.
intros Hn (k & Hk & Hl & [->| ->]); split; unfold fresh_id, fresh_overflow.
- intros E%app_inv_head. revert E. apply site_tokens; [done|done|lia].
- intros E. symmetry in E. revert E. apply overflow_not_token, site_draws.
- apply overflow_not_token, site_draws.
- apply site_overflows; [done|done|lia].
Qed.

(** ** Every call keeps the ledger *)

Lemma fits_manageable f n : fits f n = true ↔ manageable f n.
Proof. unfold fits, manageable. apply Z.ltb_lt. Qed.
Lemma next_ok w : site_ok w → site_ok (next w).
Proof.
intros Hw Hn. destruct (steps_before w (next w) eq_refl Hn) as [Hb _]. destruct (Hw Hb) as [Hr Hg Hf].
split; try done. intros id Hid. apply Hf. by eapply to_come_later; [|exact Hid]; cbn; lia.
Qed.
Lemma call_fresh w f new : site_state w → in_life (steps w) → keeps_unknown new (compact_token (draws (steps w))) (file w) f →
(∀ id, to_come (S (steps w)) id → id ∉ new) → ∀ id, to_come (S (steps w)) id → unknown_id f id.
Proof.
intros Hw Hl Hk Hn id Hid. apply Hk; [by apply Hn|by apply (fresh_later (steps w))|intros; by eapply fresh_not_recovered|].
apply (site_fresh w Hw). eapply to_come_later; [|exact Hid]. lia.
Qed.
Lemma site_append_ok act subj before after w : scalars subj = true → site_ok w →
site_ok (snd (site_append act subj before after w)).
Proof.
intros Hs Hw. unfold site_append. destruct (fits (file w) 1) eqn:Em; [|by apply next_ok]. apply fits_manageable in Em.
destruct (append the_journal (draws (steps w)) act subj before after (file w)) as [r f] eqn:E. cbn [snd].
intros Hle. destruct (steps_before w (next w) eq_refl Hle) as [Hb Hl]. specialize (Hw Hb).
destruct (site_good w Hw) as (data & Hc & Hg).
assert (unknown_id (file w) (fresh_id (steps w)) ∧ unknown_id (file w) (fresh_overflow (steps w))) as [H1 H2].
{ split; apply (site_fresh w Hw); exists (steps w); auto 6. }
destruct (append_call the_journal (draws (steps w)) act subj before after (file w) data r f Hc Hg Em (site_draws _) Hs H1 H2 E)
  as (_ & _ & _ & _ & _ & Hg' & Hk).
split; [|done|].
- eapply (run_append the_journal (file w) (ledger_of w) (acknowledged w) (draws (steps w))); try done; [apply Hw|apply site_draws].
- apply (call_fresh w f _ Hw Hl Hk). intros id Hid ->%list_elem_of_singleton.
  by destruct (fresh_later (steps w) _ Hl Hid) as [? _].
Qed.
Lemma site_commit_ok ids oc h bid w : settled ids w → settled ids (snd (site_commit ids oc h bid w)).
Proof.
intros (Hw & Hids & Hset). unfold site_commit.
assert (∀ id, id ∈ ids → Z.of_nat (S (steps w)) <= CALLS → ¬ to_come (S (steps w)) id) as Hset'.
{ intros id Hid Hn Hc. apply (Hset id Hid); [lia|]. eapply to_come_later; [|exact Hc]. lia. }
destruct (fits _ _) eqn:Em; [|by split_and!; [apply next_ok|..]]. apply fits_manageable in Em.
destruct (commit the_journal (draws (steps w)) ids oc h bid (file w)) as [r f] eqn:E. cbn [snd].
split_and!; [|done|done]. intros Hle. destruct (steps_before w (next w) eq_refl Hle) as [Hb Hl]. specialize (Hw Hb).
destruct (site_good w Hw) as (data & Hc & Hg).
assert (unknown_id (file w) (fresh_overflow (steps w))) as H2 by (apply (site_fresh w Hw); exists (steps w); auto 6).
assert (fresh_overflow (steps w) ∉ ids) as H3 by (intros Hin; apply (Hset _ Hin Hb); exists (steps w); auto 6).
destruct (commit_call the_journal (draws (steps w)) ids oc h bid (file w) data r f Hc Hg Em (site_draws _) Hids H2 H3 E)
  as (olds & news & _ & _ & _ & Hg' & Hk).
split; cbn [file steps ledger_of acknowledged].
- eapply (run_commit the_journal (file w) (ledger_of w) (acknowledged w) (draws (steps w))); try done;
    [apply Hw|apply site_draws].
- done.
- apply (call_fresh w f _ Hw Hl Hk). intros id Hid Hin. by apply (Hset' id).
Qed.

(** ** What is pending can be committed *)

Definition change_ids (s : journal_state) : Prop := ∀ id, is_Some (changes s !! id) → is_change_id id = true.
Lemma change_ids_insert s id e : change_ids s → is_change_id id = true → ∀ id', is_Some (<[id := e]> (changes s) !! id') →
is_change_id id' = true.
Proof. intros Hs Hid id'. rewrite lookup_insert_is_Some'. intros [<-|?]; [done|by apply Hs]. Qed.
Lemma change_of_record_id rec e : change_of_record rec = Ok e → is_change_id (change_id e) = true.
Proof. unfold change_of_record. repeat case_match; try done. intros H'. inv_ok H'. by subst e. Qed.
Lemma change_ids_record s rec s' : change_ids s → apply_record s rec = Ok (Some s') → change_ids s'.
Proof.
intros Hs. unfold apply_record. destruct (field "type" rec) as [[]|]; try done. case_bool_decide.
{ destruct (change_of_record rec) as [e|e] eqn:E; [|by destruct e]. intros [= <-].
  intros id. by apply change_ids_insert, (change_of_record_id rec). }
case_bool_decide.
{ destruct (commit_of_record rec) as [[[[oc ids] h] bid]|e]; [|by destruct e]. intros [= <-]. by destruct oc. }
case_bool_decide; [|done]. destruct (validate_hash _) as [h|e]; [|by destruct e]. by intros [= <-].
Qed.
Lemma change_ids_placeholder n raw t s : change_ids s → change_ids (add_recovered_placeholder n raw t s).
Proof.
intros Hs. unfold add_recovered_placeholder. destruct t; case_bool_decide; try done;
  intros id; by apply (change_ids_insert s), recovered_id_good.
Qed.
Lemma change_ids_try s raw s' : change_ids s → try_line s raw = Ok (Some s') → change_ids s'.
Proof. unfold try_line. destruct (line_record raw); [|done]. apply change_ids_record. Qed.
Lemma change_ids_lines ls n s s' : change_ids s → apply_lines n ls s = Ok s' → change_ids s'.
Proof.
revert n s. induction ls as [|l ls IH]; intros n s Hs; cbn; [by intros [= <-]|]. unfold apply_line.
destruct (is_blank l); cbn; [by apply IH|]. destruct (try_line s l) as [[s1|]|] eqn:E; cbn; [| |done]; apply IH.
- by eapply change_ids_try.
- by apply change_ids_placeholder.
Qed.
Lemma change_ids_parse data s : parse_records data = Ok s → change_ids s.
Proof.
rewrite parse_records_tail. unfold parse_lines. destruct (apply_lines 1 _ _) as [s1|] eqn:E; cbn; [|done].
assert (change_ids s1) as H1.
{ eapply change_ids_lines; [|exact E]. intros id. cbn. rewrite lookup_empty. by intros [? ?]. }
unfold apply_tail. destruct (split_lines data).2 as [|c t]; [by intros [= <-]|].
destruct (try_line s1 (c :: t)) as [[s2|]|] eqn:E2; cbn; [| |done]; intros [= <-].
- pose proof (change_ids_try _ _ _ H1 E2) as H2. exact H2.
- by apply change_ids_placeholder.
Qed.
Lemma pending_known w es : pending (file w) = Ok es → Forall (λ id, is_change_id id = true ∧ ¬ unknown_id (file w) id) (change_id <$> es).
Proof.
intros Ep. destruct (pending_contents (file w) es Ep) as (data & s & Hc & Hp & Hraw & -> & _).
apply Forall_forall. intros id Hid. unfold owed in Hid. rewrite entries_of_ids in Hid; [|done|].
2: { apply Forall_forall. intros id' [Hin _]%open_ids_elem. by apply (raw_order s Hraw). }
apply open_ids_elem in Hid as [Hid _]. apply (raw_order s Hraw) in Hid. split; [by apply (change_ids_parse data s Hp)|].
intros Hu. destruct (Hu data s Hc Hp) as [Hn _]. rewrite Hn in Hid. by destruct Hid.
Qed.
Lemma site_pending_settled ids w : site_ok w → fst (site_pending w) = Ok ids → settled ids (next w).
Proof.
intros Hw. unfold site_pending. cbn [fst]. destruct (pending (file w)) as [es|e] eqn:Ep; [|done]. intros [= <-].
pose proof (pending_known w es Ep) as Hk. rewrite Forall_forall in Hk. split_and!; [by apply next_ok| |].
- apply forallb_forall. intros id Hid%list_elem_of_In. by apply change_id_scalars, Hk.
- intros id Hid Hn Hcome. destruct (Hk id Hid) as [_ Hu]. apply Hu.
  destruct (steps_before w (next w) eq_refl Hn) as [Hb _]. apply (site_fresh w (Hw Hb)).
  eapply to_come_later; [|exact Hcome]. cbn. lia.
Qed.

(** ** The life of a site *)

Lemma site_append_settled ids act subj before after w : scalars subj = true → settled ids w →
settled ids (snd (site_append act subj before after w)).
Proof.
intros Hs (Hw & Hsc & Hset). split_and!; [by apply site_append_ok|done|]. intros id Hid.
assert (steps (snd (site_append act subj before after w)) = S (steps w)) as Hsteps.
{ unfold site_append. destruct (fits _ _); [|done]. by destruct (append _ _ _ _ _ _ _). }
rewrite Hsteps. intros Hn Hc. apply (Hset id Hid); [lia|]. eapply to_come_later; [|exact Hc]. lia.
Qed.
Lemma next_settled ids w : settled ids w → settled ids (next w).
Proof.
intros (Hw & Hsc & Hset). split_and!; [by apply next_ok|done|]. intros id Hid Hn Hc. cbn in Hn, Hc.
apply (Hset id Hid); [lia|]. eapply to_come_later; [|exact Hc]. lia.
Qed.
Lemma record_all_keeps (P : site → Prop) cs w :
(∀ act subj before after w, scalars subj = true → P w → P (snd (site_append act subj before after w))) →
Forall (λ bc : bool * change, scalars (c_subject bc.2) = true) cs → P w → P (snd (record_all cs w)).
Proof.
intros HP Hcs. revert w. induction Hcs as [|[here ch] cs Hch _ IH]; intros w Hw; [done|]. cbn [record_all].
specialize (HP (c_action ch) (c_subject ch) (c_before ch) (c_after ch) w Hch Hw).
destruct (site_append _ _ _ _ w) as [r w1]. specialize (IH w1 HP). by destruct (record_all cs w1) as [ids w2].
Qed.
Lemma quiet_site : quiet site_ok.
Proof.
split; intros; try by apply next_ok. cbn. apply record_all_keeps; [by intros; apply site_append_ok|apply site_subjects|by apply next_ok].
Qed.
Lemma quiet_settled ids : quiet (settled ids).
Proof.
split; intros; try by apply next_settled. cbn.
apply record_all_keeps; [by intros; apply site_append_settled|apply site_subjects|by apply next_settled].
Qed.
Lemma site_start : site_ok (mkSite Missing 0 [] []).
Proof.
intros _. split; [apply run_start|exists []; split; [done|by split; [constructor|left]]|].
intros id _ data s [= <-] [= <-]. split; apply lookup_empty.
Qed.
End site.

(** A coalescer and its site: started on an empty directory, then used through the
    coalescer's methods. *)
Inductive site_life {RT : Runtime} {Snap Rec : Type} {ST : Site Snap Rec} :
    state (W := site) (Snap := Snap) (Rec := Rec) → Prop :=
  | life_start quiet_ max c : new_coalescer quiet_ max = Some c → site_life (after start (mkState c (mkSite Missing 0 [] []) []))
  | life_record act subj before after_ s : site_life s → scalars subj = true →
      site_life (after (record_change act subj before after_) s)
  | life_poll s : site_life s → site_life (after poll s)
  | life_due s : site_life s → site_life (after due s)
  | life_run s : site_life s → site_life (after run s)
  | life_tick s : site_life s → site_life (after tick s).

(** ** Property *)

(** [C2] No acknowledged change is lost between the coalescer and its journal:
    whatever other threads and processes record meanwhile, whichever writes are
    torn, and whichever compactions, snapshots, backups or commits fail, the
    journal can be read at every point of the coalescer's life, and each change
    it acknowledged and no commit has named since is represented in what is
    pending - by its own entry, or by the overflow entry that took it, which
    counts exactly the changes it stands for and spans them from the first to the
    last. *)
Theorem coalescer_journal_conservation {RT : Runtime} {RL : RuntimeLaws RT} {Snap Rec : Type} {ST : Site Snap Rec}
    (SL : SiteLaws) (s : state (W := site) (Snap := Snap) (Rec := Rec)) (Hs : site_life s)
    (Hlife : Z.of_nat (steps (world s)) <= CALLS) :
  ∃ olds, pending (file (world s)) = Ok olds
  ∧ Forall2 (λ e hg, change_id e = hg.1 ∧ stands e hg.2) olds (ledger_of (world s))
  ∧ ∀ x, x ∈ acknowledged (world s) → ∃ e g, e ∈ olds ∧ (change_id e, g) ∈ ledger_of (world s) ∧ stands e g ∧ x ∈ g.
Proof.
  assert (holds site_ok s) as Hok.
  { clear Hlife. pose proof quiet_site as Q. pose proof quiet_settled as QS.
    assert (∀ ids w, settled ids w → site_ok w) as H1 by by intros ids w [? _].
    induction Hs as [quiet_ max c _|act subj before after_ s _ IH Hs|s _ IH|s _ IH|s _ IH|s _ IH].
    - apply keeps_after; [by apply keeps_start|apply site_start].
    - apply keeps_after; [|done]. apply (keeps_record_change Q). intros w. by apply site_append_ok.
    - apply keeps_after; [by apply keeps_poll|done].
    - apply keeps_after; [by apply keeps_due|done].
    - apply keeps_after; [|done]. apply (keeps_run Q QS H1).
      + intros ids w. apply site_pending_settled. + intros ids o h b w. apply site_commit_ok.
    - apply keeps_after; [|done]. apply (keeps_tick Q QS H1).
      + intros ids w. apply site_pending_settled. + intros ids o h b w. apply site_commit_ok. }
  apply (run_conserves the_journal), site_run, (Hok Hlife).
Qed.

(** ** An example *)

(** Tokens that spell the number of the call. *)
Fixpoint hex_digits (k : nat) (z : Z) : ustr :=
  match k with O => [] | S k' => hex_digits k' (z / 16) ++ [hex_char (z mod 16)] end.
Lemma hex_digits_spec k z : 0 <= z → forallb is_hex_lower (hex_digits k z) = true ∧ length (hex_digits k z) = k.
Proof.
  revert z. induction k as [|k IH]; intros z Hz; [done|]. cbn [hex_digits]. rewrite forallb_app, length_app.
  destruct (IH (z / 16)) as [-> ->]; [by apply Z.div_pos|]. cbn. split; [|lia]. rewrite andb_true_r.
  pose proof (Z.mod_pos_bound z 16 ltac:(lia)). unfold hex_char, is_hex_lower, is_dig. apply orb_true_iff.
  destruct (Z.ltb_spec (z mod 16) 10); [left|right]; apply between_true; lia.
Qed.
Lemma hex_digits_inj k y z : 0 <= y < 16 ^ Z.of_nat k → 0 <= z < 16 ^ Z.of_nat k → hex_digits k y = hex_digits k z → y = z.
Proof.
  revert y z. induction k as [|k IH]; intros y z Hy Hz; [change (16 ^ Z.of_nat 0) with 1 in *; lia|]. cbn [hex_digits].
  intros [E1 E2]%app_inj_tail. rewrite Nat2Z.inj_succ, Z.pow_succ_r in Hy, Hz by lia.
  assert (y / 16 = z / 16) as Hq.
  { apply IH; [split; [apply Z.div_pos; lia|apply Z.div_lt_upper_bound; lia]..|done]. }
  pose proof (Z.mod_pos_bound y 16 ltac:(lia)). pose proof (Z.mod_pos_bound z 16 ltac:(lia)).
  assert (y mod 16 = z mod 16) as Hm.
  { unfold hex_char in E2. destruct (Z.ltb_spec (y mod 16) 10), (Z.ltb_spec (z mod 16) 10); lia. }
  rewrite (Z.div_mod y 16), (Z.div_mod z 16) by lia. by rewrite Hq, Hm.
Qed.
Definition token_of (n : nat) : ustr := hex_digits 16 (Z.of_nat n mod CALLS) ++ repeat 48 16.
Lemma token_of_hex n : hex_token (token_of n).
Proof.
  destruct (hex_digits_spec 16 (Z.of_nat n mod CALLS)) as [H Hl]; [by apply Z.mod_pos_bound|].
  split; unfold token_of; [by rewrite forallb_app, H|by rewrite length_app, Hl].
Qed.
Lemma token_of_inj m n : in_life m → in_life n → take 24 (token_of m) = take 24 (token_of n) → m = n.
Proof.
  unfold in_life, token_of. intros Hm Hn.
  destruct (hex_digits_spec 16 (Z.of_nat m mod CALLS)) as [_ Hlm]; [by apply Z.mod_pos_bound|].
  destruct (hex_digits_spec 16 (Z.of_nat n mod CALLS)) as [_ Hln]; [by apply Z.mod_pos_bound|].
  assert (∀ a b c : ustr, length a = 16%nat → length b = 16%nat → take 24 (a ++ c) = take 24 (b ++ c) → a = b) as H.
  { intros a b c Ha Hb. rewrite !take_app_ge, Ha, Hb by lia. apply app_inv_tail. }
  intros E%H; [|done..]. apply hex_digits_inj in E; [|apply Z.mod_pos_bound; done..].
  rewrite !Z.mod_small in E by (split; [lia|done]). lia.
Qed.

(** A site whose second call on the journal is torn, whose first backup fails, and
    where another process records a change during the first run. *)
Definition example_draw (n : nat) : outside :=
  mkOutside (midnight 738000) (token_of n) (midnight 738000) (token_of n)
    (if Nat.eqb n 7 then stops_after 20 else no_fault) compact_ok.
Definition example_site : Site ustr ustr := {|
  the_journal := mkJournal 4096000 10;
  draws := example_draw;
  clock_at := λ n, Z.of_nat n * SECOND;
  fingerprint_at := λ n f, Ok (Some (1, size_of f, 0));
  snapshot_at := λ n, Ok (u "config");
  hash_of := λ _, Ok a_hash;
  backup_at := λ n _ _, if Nat.ltb n 25 then Err (mkExn (u "RuntimeError") false) else Ok (u "backup-1");
  id_of := Some;
  lock_at := λ _, Ok true;
  others_at := λ n, if Nat.eqb n 12 then [(false, mkChange (u "mapping.saved") (u "slot 9") None None)] else [];
|}.
Lemma example_site_laws : @SiteLaws ustr ustr example_site.
Proof.
  split; cbn [draws others_at example_site example_draw token compact_token].
  - intros n. split; cbn [token compact_token now compact_now]; try apply token_of_hex; (split; [by vm_compute|done]).
  - intros m n Hm Hn Hne E. apply Hne. apply token_of_inj; [done|done|]. by rewrite E.
  - intros m n Hm Hn Hne E. apply Hne. unfold overflow_id in E. apply app_inv_head in E. by apply token_of_inj.
  - intros n. destruct (Nat.eqb n 12); repeat constructor.
Qed.

Definition example_life (n : nat) : state (W := site) (Snap := ustr) (Rec := ustr) :=
  let RT := example_runtime in
  let ST := example_site in
  let s0 := after start (mkState (mkCoalescer 30000000000 600000000000 ∅ None None None 0 None None) (mkSite Missing 0 [] []) []) in
  let s1 := after (record_change (u "mapping.saved") (u "slot 1") None None) s0 in
  let s2 := after (record_change (u "mapping.saved") (u "slot 2") None None) s1 in
  let s3 := after run s2 in
  let s4 := after run s3 in
  match n with 1 => s1 | 2 => s2 | 3 => s3 | _ => s4 end%nat.
Lemma example_facts :
  (steps (world (example_life 3)) < 100)%nat
  ∧ subject <$> acknowledged (world (example_life 3)) = [u "slot 1"; u "slot 9"]
  ∧ length (ledger_of (world (example_life 3))) = 3%nat
  ∧ acknowledged (world (example_life 4)) = [].
Proof. split_and!; vm_compute; (reflexivity || lia). Qed.
Lemma coalescer_journal_conservation_witness :
  ∃ olds, @pending example_runtime (file (world (example_life 3))) = Ok olds ∧ length olds = 3%nat
  ∧ ∃ x e, x ∈ acknowledged (world (example_life 3)) ∧ subject x = u "slot 9" ∧ e ∈ olds ∧ 1 <= merged e.
Proof.
  destruct example_facts as (Hn & Hs & Hl & _).
  destruct (@coalescer_journal_conservation example_runtime example_laws ustr ustr example_site example_site_laws (example_life 3))
    as (olds & Hp & HL & Hopen).
  - apply life_run, life_record; [apply life_record; [by apply (life_start 30000000000 600000000000)|reflexivity]|reflexivity].
  - unfold CALLS. lia.
  - exists olds. split; [exact Hp|]. split; [exact (eq_trans (Forall2_length _ _ _ HL) Hl)|].
    assert (u "slot 9" ∈ subject <$> acknowledged (world (example_life 3))) as Hin by (rewrite Hs; right; left).
    apply list_elem_of_fmap in Hin as (x & Hx & Hin). destruct (Hopen x Hin) as (e & g & He & _ & Hst & Hg).
    exists x, e. split; [exact Hin|]. split; [exact (eq_sym Hx)|]. split; [exact He|].
    exact (stands_counted _ _ _ Hst Hg).
Defined.
