(* ===== verification/ConfigHash.v ===== *)
(** * Hashes of a configuration

    [canonicalize_config] and [canonical_config_hash] of
    [history_service/backup_archive/journal.py]: the hash that tells a changed
    configuration from one that was only saved again.  Documents that differ in
    the order of keys or sets and in volatile keys have the same hash; documents
    whose canonical forms differ do not, unless SHA-256 collides on them. *)

From S2P Require Import Prelude PyStr Calendar Json JsonProofs Journal JournalLines JournalExample JournalRecords JournalStates.
From S2P Require Import JournalSafety JournalLengths JournalCompaction.
#[local] Open Scope Z_scope.
#[local] Open Scope list_scope.

(** ** Values

    A value of a configuration document.  A mapping lists its items with the
    [str] of their keys, in insertion order; a set its elements in the order of
    iteration; [COther] is the [str] of an object of any other kind. *)
Inductive config :=
| CNone
| CBool (b : bool)
| CInt (z : Z)
| CFloat (literal : ustr)
| CStr (s : ustr)
| CBytes (b : list Z)
| CDatetime (d : datetime)
| CDate (day : Z)
| CSeq (l : list config)
| CSet (l : list config)
| CMap (d : list (ustr * config))
| COther (text : ustr).

Definition DEFAULT_VOLATILE_KEYS : list ustr :=
  u <$> ["checked_at"; "collected_at"; "exported_at"; "generated_at"; "last_seen"; "last_seen_at"; "observed_at";
         "refreshed_at"; "saved_at"; "updated_at"]%string.

(** [date.isoformat()] *)
Definition date_text (day : Z) : ustr :=
  let '(y, mo, d) := ord2ymd day in pad 4 y ++ [45] ++ pad 2 mo ++ [45] ++ pad 2 d.

Section config.
Context {RT : Runtime}.

(** [{key: value for ...}]: a later value replaces an earlier one. *)
Definition dict_of (items : list (ustr * json)) : jdict := fold_left (λ d kv, jset kv.1 kv.2 d) items [].
(** The items whose key is not volatile *)
Definition kept {A} (volatile_keys : list ustr) (items : list (ustr * A)) : list (ustr * A) :=
List.filter (λ kv, negb (bool_decide (kv.1 ∈ volatile_keys))) items.
Definition item_result (kr : ustr * result py_exn json) : result py_exn (ustr * json) :=
match kr.2 with Ok v => Ok (kr.1, v) | Err e => Err e end.
(** [sorted(values, key=_stable_json)] *)
Definition sort_by_json (values : list json) : result py_exn (list json) :=
keyed ← res_mapM (λ v, match stable_json v with Ok t => Ok (t, v) | Err e => Err e end) values;
Ok ((sort_by key_leb keyed).*2).

Fixpoint canonicalize_config (volatile_keys : list ustr) (value : config) {struct value} : result py_exn json :=
match value with
| CMap d =>
    items ← res_mapM item_result
      (kept volatile_keys (sort_by key_leb ((λ kv, (kv.1, canonicalize_config volatile_keys kv.2)) <$> d)));
    Ok (JObj (dict_of items))
| CSeq l => vs ← res_mapM id (canonicalize_config volatile_keys <$> l); Ok (JList vs)
| CSet l => vs ← res_mapM id (canonicalize_config volatile_keys <$> l); vs ← sort_by_json vs; Ok (JList vs)
| CDatetime d =>
    match dt_offset d with
    | Some _ => t ← format_time d; Ok (JStr t)
    | None => Ok (JStr (iso_body d))
    end
| CDate day => Ok (JStr (date_text day))
| CBytes b => Ok (JObj [(u "sha256", JStr (sha256_hex b)); (u "size", JInt (ulen b))])
| CNone => Ok JNull
| CBool b => Ok (JBool b)
| CInt z => Ok (JInt z)
| CFloat lit => Ok (JFloat lit)
| CStr s => Ok (JStr s)
| COther s => Ok (JStr s)
end.

(** The text of [_stable_json] is ASCII: its bytes are its characters. *)
Definition canonical_config_hash (config_set : list (ustr * config)) (volatile_keys : list ustr) : result py_exn ustr :=
v ← canonicalize_config volatile_keys (CMap config_set);
t ← stable_json v;
Ok (sha256_hex t).

(** ** The same configuration

    Saved again: other values of volatile keys, another order of the keys of a
    mapping, or of a set, anywhere inside. *)
Inductive same_config (volatile_keys : list ustr) : config → config → Prop :=
| same_refl v : same_config volatile_keys v v
| same_sym v w : same_config volatile_keys v w → same_config volatile_keys w v
| same_trans v w x : same_config volatile_keys v w → same_config volatile_keys w x → same_config volatile_keys v x
| same_in_seq l1 l2 v w : same_config volatile_keys v w →
    same_config volatile_keys (CSeq (l1 ++ v :: l2)) (CSeq (l1 ++ w :: l2))
| same_in_set l1 l2 v w : same_config volatile_keys v w →
    same_config volatile_keys (CSet (l1 ++ v :: l2)) (CSet (l1 ++ w :: l2))
| same_in_map d1 d2 k v w : same_config volatile_keys v w →
    same_config volatile_keys (CMap (d1 ++ (k, v) :: d2)) (CMap (d1 ++ (k, w) :: d2))
| same_map d d' : NoDup d.*1 → NoDup d'.*1 → kept volatile_keys d ≡ₚ kept volatile_keys d' →
    same_config volatile_keys (CMap d) (CMap d')
| same_set l l' : l ≡ₚ l' →
    (∀ vs, res_mapM (canonicalize_config volatile_keys) l = Ok vs → NoDup (stable_json <$> vs)) →
    same_config volatile_keys (CSet l) (CSet l').
End config.

(** ** Results that agree

    Two computations that return the same values, though they may fail with
    different exceptions. *)
Definition agree {A} (r r' : result py_exn A) : Prop := ∀ a, r = Ok a ↔ r' = Ok a.
#[export] Instance agree_equivalence {A} : Equivalence (agree (A := A)).
Proof. unfold agree. split; [by intros ? ?|by intros ?? H a; rewrite H|by intros ??? H1 H2 a; rewrite H1, H2]. Qed.
Lemma agree_bind {A B} (r r' : result py_exn A) (k k' : A → result py_exn B) :
  agree r r' → (∀ a, r = Ok a → agree (k a) (k' a)) → agree (r ≫= k) (r' ≫= k').
Proof.
  intros Hr Hk b. destruct r as [a|e].
  - assert (r' = Ok a) as -> by (by apply Hr). by apply Hk.
  - destruct r' as [a|e']; [|done]. by assert (Err e = Ok a) by (by apply Hr).
Qed.
Lemma agree_mapM {A B} (f g : A → result py_exn B) l l' : Forall2 (λ a a', agree (f a) (g a')) l l' →
  agree (res_mapM f l) (res_mapM g l').
Proof.
  intros H bs. rewrite !res_mapM_Ok. split; intros HF; revert l l' H HF; induction bs as [|b bs IH]; intros l l' H HF;
    inversion HF; subst; inversion H as [|? ? ? ? H1 H2]; subst; constructor; try (by apply H1); by eapply IH.
Qed.
Lemma agree_perm {A B} (f : A → result py_exn B) l l' bs : l ≡ₚ l' → res_mapM f l = Ok bs →
  ∃ bs', res_mapM f l' = Ok bs' ∧ bs ≡ₚ bs'.
Proof.
  intros Hp. rewrite res_mapM_Ok. intros HF. destruct (Permutation_Forall2 Hp HF) as (bs' & Hb & HF').
  exists bs'. by rewrite res_mapM_Ok.
Qed.

(** Sorting by a key respects what is attached to the keys, and commutes with
    leaving items out. *)
Lemma sort_by_Forall2 {A B} (R : ustr * A → ustr * B → Prop) l l' : (∀ x y, R x y → x.1 = y.1) →
  Forall2 R l l' → Forall2 R (sort_by key_leb l) (sort_by key_leb l').
Proof.
  intros HR. induction 1 as [|x y l l' Hxy _ IH]; [constructor|].
  change (Forall2 R (insert_by key_leb x (sort_by key_leb l)) (insert_by key_leb y (sort_by key_leb l'))). revert Hxy IH.
  generalize (sort_by key_leb l) (sort_by key_leb l'). intros k k' Hxy Hk.
  induction Hk as [|a b k k' Hab Hk IH]; cbn [insert_by]; [by apply Forall2_cons|].
  unfold key_leb at 1 3. rewrite (HR _ _ Hxy), (HR _ _ Hab). destruct (ustr_leb y.1 b.1); repeat constructor; done.
Qed.
Lemma insert_filter {A} (p : ustr * A → bool) x l : StronglySorted (le_of key_leb) l →
  List.filter p (insert_by key_leb x l) = if p x then insert_by key_leb x (List.filter p l) else List.filter p l.
Proof.
  induction 1 as [|y l Hl IH Hy]; cbn [insert_by List.filter]; [by destruct (p x)|].
  destruct (key_leb x y) eqn:E; cbn [List.filter].
  - destruct (p x); [|done]. assert (∀ k, Forall (le_of key_leb x) k → insert_by key_leb x k = x :: k) as Hhead.
    { intros [|z k] Hk; [done|]. inversion Hk as [|? ? Hz]; subst. cbn. unfold le_of in Hz. by rewrite Hz. }
    rewrite Hhead; [done|]. apply Forall_forall. intros z Hz.
    assert (z ∈ y :: l) as Hin by (change (z ∈ List.filter p (y :: l)) in Hz; by apply elem_of_filter_list in Hz as [? _]).
    apply elem_of_cons in Hin as [->|Hin]; [done|]. rewrite Forall_forall in Hy. eapply key_leb_trans; [exact E|by apply Hy].
  - rewrite IH. destruct (p x), (p y); cbn [insert_by]; try done. by rewrite E.
Qed.
Lemma sort_filter {A} (p : ustr * A → bool) l :
  List.filter p (sort_by key_leb l) = sort_by key_leb (List.filter p l).
Proof.
  induction l as [|x l IH]; [done|]. change (sort_by key_leb (x :: l)) with (insert_by key_leb x (sort_by key_leb l)).
  rewrite insert_filter by (apply sort_by_sorted; [intros ??; apply key_leb_total|intros ???; apply key_leb_trans]).
  rewrite IH. cbn [List.filter]. by destruct (p x).
Qed.
Lemma sorted_kept {A} vol (d d' : list (ustr * A)) : NoDup d.*1 → kept vol d ≡ₚ kept vol d' →
  kept vol (sort_by key_leb d) = kept vol (sort_by key_leb d').
Proof.
  intros Hnd Hp. unfold kept in *. rewrite !sort_filter. apply sort_obj_perm; [|done].
  assert (∀ p : ustr * A → bool, (List.filter p d).*1 `sublist_of` d.*1) as Hsub.
  { intros p. clear. induction d as [|x d IH]; cbn; [constructor|]. destruct (p x); cbn; by constructor. }
  by eapply sublist_NoDup.
Qed.

Section same.
Context {RT : Runtime} {volatile_keys : list ustr}.
Abbreviation canon := (canonicalize_config volatile_keys).
Abbreviation same := (same_config volatile_keys).

Lemma agree_item kr kr' : kr.1 = kr'.1 → agree kr.2 kr'.2 → agree (item_result kr) (item_result kr').
Proof.
unfold item_result. intros -> H a. destruct kr.2 as [v|e] eqn:E, kr'.2 as [v'|e'] eqn:E'; try done.
- assert (Ok v' = Ok v) as [= ->] by (by apply H). done.
- assert (Err e' = Ok v) by (by apply H). done.
- assert (Err e = Ok v') by (by apply H). done.
Qed.
Lemma sort_by_json_perm vs vs' : NoDup (stable_json <$> vs) → vs ≡ₚ vs' → agree (sort_by_json vs) (sort_by_json vs').
Proof.
assert (∀ vs vs' ws, NoDup (stable_json <$> vs) → vs ≡ₚ vs' → sort_by_json vs = Ok ws → sort_by_json vs' = Ok ws) as H.
{ intros us us' ws Hnd Hp. unfold sort_by_json.
  set (g := λ v, match stable_json v with Ok t => Ok (t, v) | Err e => Err e end).
  destruct (res_mapM g us) as [kd|e] eqn:E; [|done]. cbn [mbind result_bind]. intros [= <-].
  destruct (agree_perm g us us' kd Hp E) as (kd' & -> & Hpk). cbn [mbind result_bind]. do 2 f_equal. symmetry.
  apply sort_obj_perm; [|done]. apply res_mapM_Ok in E.
  assert (stable_json <$> us = Ok <$> kd.*1) as Ek.
  { clear -E. induction E as [|v tv us kd Hv _ IH]; [done|]. cbn. rewrite <-IH. unfold g in Hv.
    destruct (stable_json v); [|done]. by injection Hv as <-. }
  rewrite Ek in Hnd. by eapply NoDup_fmap_1. }
intros Hnd Hp ws. split; [by apply H|]. apply H; [by rewrite <-Hp|by symmetry].
Qed.

Lemma same_agree v w : same v w → agree (canon v) (canon w).
Proof.
induction 1 as [v|v w _ IH|v w x _ IH1 _ IH2|l1 l2 v w _ IH|l1 l2 v w _ IH|d1 d2 k v w _ IH|d d' Hd Hd' Hp|l l' Hp Hnd].
- done.
- by symmetry.
- by etrans.
- cbn [canonicalize_config]. apply agree_bind; [|done]. apply agree_mapM, Forall2_fmap. apply Forall2_app; [|constructor; [done|]];
    by apply Forall_Forall2_diag, Forall_true.
- cbn [canonicalize_config]. apply agree_bind; [|done]. apply agree_mapM, Forall2_fmap. apply Forall2_app; [|constructor; [done|]];
    by apply Forall_Forall2_diag, Forall_true.
- cbn [canonicalize_config]. apply agree_bind; [|done]. apply agree_mapM.
  eapply (Forall2_impl (λ x y, x.1 = y.1 ∧ agree x.2 y.2)); [|intros x y [? ?]; by apply agree_item].
  unfold kept. assert (Forall2 (λ x y : ustr * result py_exn json, x.1 = y.1 ∧ agree x.2 y.2)
    (sort_by key_leb ((λ kv, (kv.1, canon kv.2)) <$> d1 ++ (k, v) :: d2))
    (sort_by key_leb ((λ kv, (kv.1, canon kv.2)) <$> d1 ++ (k, w) :: d2))) as HF.
  { apply sort_by_Forall2; [by intros ?? [? _]|]. apply Forall2_fmap. apply Forall2_app; [|constructor; [done|]];
      by apply Forall_Forall2_diag, Forall_true. }
  induction HF as [|x y xs ys [Hk Hxy] _ IHF]; [constructor|]. cbn [List.filter]. rewrite Hk.
  destruct (negb _); [by constructor|done].
- cbn [canonicalize_config]. apply agree_bind; [|done].
  assert (∀ p : list (ustr * config), kept volatile_keys ((λ kv, (kv.1, canon kv.2)) <$> p) = (λ kv, (kv.1, canon kv.2)) <$> kept volatile_keys p) as Hk.
  { intros p. unfold kept. induction p as [|kv p IHp]; [done|]. cbn. rewrite IHp. by destruct (negb _). }
  rewrite (sorted_kept _ _ ((λ kv, (kv.1, canon kv.2)) <$> d')); [done|by rewrite fst_fmap|]. by rewrite !Hk, Hp.
- cbn [canonicalize_config]. intros a.
  assert (∀ l, res_mapM id (canon <$> l) = res_mapM canon l) as Hid.
  { clear. induction l as [|x l IH]; [done|]. cbn. by rewrite IH. }
  rewrite !Hid. destruct (res_mapM canon l) as [vs|e] eqn:E.
  + destruct (agree_perm canon l l' vs Hp E) as (vs' & -> & Hpv). cbn [mbind result_bind].
    by apply agree_bind; [apply sort_by_json_perm; [by apply Hnd|]|].
  + split; [done|]. destruct (res_mapM canon l') as [vs'|e'] eqn:E'; [|done].
    destruct (agree_perm canon l' l vs' ltac:(by symmetry) E') as (vs & E2 & _). congruence.
Qed.
End same.

(** ** Canonical forms have sorted keys *)

Section config_ind.
Context (P : config → Prop).
Context (Hatom : ∀ v, match v with CSeq _ | CSet _ | CMap _ => False | _ => True end → P v).
Context (Hseq : ∀ l, Forall P l → P (CSeq l)).
Context (Hset : ∀ l, Forall P l → P (CSet l)).
Context (Hmap : ∀ d, Forall (λ kv, P kv.2) d → P (CMap d)).
Fixpoint config_ind' (v : config) : P v :=
match v with
| CSeq l =>
    Hseq l ((fix go l := match l return Forall P l with
                         | [] => Forall_nil_2 _
                         | v :: l' => Forall_cons_2 _ _ _ (config_ind' v) (go l')
                         end) l)
| CSet l =>
    Hset l ((fix go l := match l return Forall P l with
                         | [] => Forall_nil_2 _
                         | v :: l' => Forall_cons_2 _ _ _ (config_ind' v) (go l')
                         end) l)
| CMap d =>
    Hmap d ((fix go d := match d return Forall (λ kv, P kv.2) d with
                         | [] => Forall_nil_2 _
                         | kv :: d' => Forall_cons_2 _ _ _ (config_ind' kv.2) (go d')
                         end) d)
| v => Hatom v I
end.
End config_ind.

Definition key_sorted {A} (d : list (ustr * A)) : Prop := StronglySorted (λ k k', ustr_leb k k' = true) d.*1.
Lemma sort_sorted {A} (d : list (ustr * A)) : key_sorted d → sort_by key_leb d = d.
Proof.
  unfold key_sorted. induction d as [|kv d IH]; [done|]. cbn [fmap list_fmap].
  intros [Hd Hk]%StronglySorted_inv. change (insert_by key_leb kv (sort_by key_leb d) = kv :: d). rewrite IH by done.
  destruct d as [|kv' d]; [done|]. inversion Hk as [|? ? Hle]; subst. cbn [insert_by]. unfold key_leb. by rewrite Hle.
Qed.
Lemma sort_key_sorted {A} (d : list (ustr * A)) : key_sorted (sort_by key_leb d).
Proof.
  pose proof (sort_by_sorted key_leb key_leb_total key_leb_trans d) as H. unfold key_sorted.
  induction H as [|x l _ IH Hx]; cbn; constructor; [done|]. by apply Forall_fmap.
Qed.
Lemma key_sorted_filter {A} (p : ustr * A → bool) d : key_sorted d → key_sorted (List.filter p d).
Proof.
  unfold key_sorted. induction d as [|kv d IH]; [done|]. cbn [fmap list_fmap List.filter]. intros [Hd Hk]%StronglySorted_inv.
  destruct (p kv); [|by apply IH]. cbn [fmap list_fmap]. constructor; [by apply IH|].
  apply Forall_fmap. apply Forall_fmap in Hk. rewrite Forall_forall in Hk |- *. intros x [Hx _]%elem_of_filter_list. by apply Hk.
Qed.
Lemma jset_keys {A} k (v : A) d : (jset k v d).*1 = if bool_decide (k ∈ d.*1) then d.*1 else d.*1 ++ [k].
Proof.
  induction d as [|[k' v'] d IH]; cbn [jset fmap list_fmap]; [done|]. destruct (decide (k = k')) as [->|Hne]; cbn [fmap list_fmap].
  - by rewrite bool_decide_eq_true_2 by left.
  - change (list_fmap _ _ fst ?x) with x.*1. rewrite IH. cbn [fst].
    assert (bool_decide (k ∈ k' :: d.*1) = bool_decide (k ∈ d.*1)) as ->.
    { apply bool_decide_ext. rewrite elem_of_cons. split; [by intros [?|?]|auto]. }
    by destruct (bool_decide _).
Qed.
Lemma dict_of_sorted items : key_sorted items → key_sorted (dict_of items).
Proof.
  unfold dict_of. assert (∀ d : jdict, key_sorted d → key_sorted items → (∀ k k', k ∈ d.*1 → k' ∈ items.*1 → ustr_leb k k' = true) →
    key_sorted (fold_left (λ d kv, jset kv.1 kv.2 d) items d)) as H.
  { induction items as [|kv items IH]; [done|]. intros d Hd [Hi Hk]%StronglySorted_inv Hle. cbn [fold_left]. apply IH; [|done|].
    - unfold key_sorted. rewrite jset_keys. case_bool_decide; [done|]. apply StronglySorted_app_2; [|done|by repeat constructor].
      intros x y Hx ->%list_elem_of_singleton. apply Hle; [done|left].
    - intros k k'. rewrite jset_keys. rewrite Forall_forall in Hk. case_bool_decide.
      + intros Hx Hy. apply Hle; [done|by right].
      + intros [Hx| ->%list_elem_of_singleton]%elem_of_app Hy; [apply Hle; [done|by right]|by apply Hk]. }
  intros Hi. apply H; [constructor|done|]. by intros k k' ?%not_elem_of_nil.
Qed.
Lemma dict_of_Forall (P : json → Prop) items : Forall (λ kv, P kv.2) items → Forall (λ kv, P kv.2) (dict_of items).
Proof.
  unfold dict_of. assert (∀ d : jdict, Forall (λ kv, P kv.2) d → Forall (λ kv, P kv.2) items →
    Forall (λ kv, P kv.2) (fold_left (λ d kv, jset kv.1 kv.2 d) items d)) as H; [|by apply H].
  induction items as [|kv items IH]; [done|]. intros d Hd Hi. inversion Hi as [|? ? Hkv Hi']; subst. cbn. apply IH; [|done].
  clear -Hd Hkv. induction Hd as [|[k' v'] d Hx Hd IHd]; cbn [jset]; [by constructor|]. destruct (decide _); by constructor.
Qed.

Section canonical.
Context {RT : Runtime} (volatile_keys : list ustr).
Abbreviation canon := (canonicalize_config volatile_keys).

Lemma mapM_canon l : res_mapM id (canon <$> l) = res_mapM canon l.
Proof. induction l as [|x l IH]; [done|]. cbn. by rewrite IH. Qed.
Lemma mapM_normal l vs : Forall (λ v, ∀ j, canon v = Ok j → normal j = j) l → res_mapM canon l = Ok vs →
Forall (λ j, normal j = j) vs.
Proof.
intros Hl E%res_mapM_Ok. revert Hl. induction E as [|v j l vs Hv _ IH]; [constructor|].
intros [Hn Hl]%Forall_cons. constructor; [by apply Hn|by apply IH].
Qed.
Lemma normal_list vs : Forall (λ j, normal j = j) vs → normal (JList vs) = JList vs.
Proof. intros H. cbn. f_equal. induction H as [|j vs Hj _ IH]; [done|]. cbn. by rewrite Hj, IH. Qed.
Lemma sort_by_json_elems vs ws : sort_by_json vs = Ok ws → ws ≡ₚ vs.
Proof.
unfold sort_by_json. set (g := λ v, match stable_json v with Ok t => Ok (t, v) | Err e => Err e end).
destruct (res_mapM g vs) as [kd|] eqn:E; [|done]. intros [= <-]. rewrite sort_by_perm. apply res_mapM_Ok in E.
assert (kd.*2 = vs) as ->; [|done]. induction E as [|v tv us kd Hv _ IH]; [done|]. cbn. rewrite IH. unfold g in Hv.
destruct (stable_json v); [|done]. by injection Hv as <-.
Qed.
Lemma items_normal d items : Forall (λ kv : ustr * config, ∀ j, canon kv.2 = Ok j → normal j = j) d →
res_mapM item_result (kept volatile_keys (sort_by key_leb ((λ kv, (kv.1, canon kv.2)) <$> d))) = Ok items →
Forall (λ kv, normal kv.2 = kv.2) items ∧ key_sorted items.
Proof.
intros Hd E. assert (key_sorted (kept volatile_keys (sort_by key_leb ((λ kv, (kv.1, canon kv.2)) <$> d)))) as Hs
  by apply key_sorted_filter, sort_key_sorted.
assert (Forall (λ kr, ∀ j, kr.2 = Ok j → normal j = j)
  (kept volatile_keys (sort_by key_leb ((λ kv, (kv.1, canon kv.2)) <$> d)))) as Hn.
{ apply Forall_forall. intros kr [Hkr _]%elem_of_filter_list. apply elem_of_sort_by, list_elem_of_fmap in Hkr as (kv & -> & Hkv).
  rewrite Forall_forall in Hd. by apply Hd. }
apply res_mapM_Ok in E. split.
- clear Hs. induction E as [|kr kv ks items Hk _ IH]; [constructor|]. apply Forall_cons in Hn as [Hkr Hn].
  constructor; [|by apply IH]. unfold item_result in Hk. destruct kr.2 as [v|]; [|done]. injection Hk as <-. by apply Hkr.
- unfold key_sorted in *. assert (items.*1 = (kept volatile_keys (sort_by key_leb ((λ kv, (kv.1, canon kv.2)) <$> d))).*1) as ->; [|done].
  clear Hn Hs. induction E as [|kr kv ks items Hk _ IH]; [done|]. cbn. rewrite IH. f_equal. unfold item_result in Hk.
  destruct kr.2; [|done]. by injection Hk as <-.
Qed.
Lemma canonical_normal v j : canon v = Ok j → normal j = j.
Proof.
revert j. induction v as [v Hv|l IH|l IH|d IH] using config_ind'; intros j.
- destruct v as [|b|z|lit|s|b|d|day|l|l|d|s]; cbn [canonicalize_config]; try done; try (by intros [= <-]).
  destruct (dt_offset d); [|by intros [= <-]]. destruct (format_time d); [|done]. by intros [= <-].
- cbn [canonicalize_config]. rewrite mapM_canon. destruct (res_mapM canon l) as [vs|] eqn:E; [|done]. intros [= <-].
  by apply normal_list, (mapM_normal l).
- cbn [canonicalize_config]. rewrite mapM_canon. destruct (res_mapM canon l) as [vs|] eqn:E; [|done]. cbn [mbind result_bind].
  destruct (sort_by_json vs) as [ws|] eqn:Es; [|done]. intros [= <-]. apply normal_list.
  rewrite (sort_by_json_elems _ _ Es). by apply (mapM_normal l).
- cbn [canonicalize_config]. destruct (res_mapM item_result _) as [items|] eqn:E; [|done]. intros [= <-].
  destruct (items_normal d items IH E) as [Hn Hs]. apply (dict_of_Forall (λ j, normal j = j)) in Hn. apply dict_of_sorted in Hs.
  cbn [normal]. f_equal. rewrite sort_sorted; [|unfold key_sorted in *; by rewrite fst_fmap].
  clear -Hn. induction Hn as [|[k w] o Hw _ IHn]; [done|]. cbn in *. by rewrite Hw, IHn.
Qed.
End canonical.

(** ** Properties *)

(** Saving a configuration again does not change its hash: with other values
    under volatile keys, and with the keys of mappings and the elements of sets in
    another order, anywhere in the documents, [canonical_config_hash] returns the
    same hash, or fails for both. *)
Theorem config_hash_ignores_saves {RT : Runtime} volatile_keys c c'
    (Hsame : same_config volatile_keys (CMap c) (CMap c')) :
  ∀ h, canonical_config_hash c volatile_keys = Ok h ↔ canonical_config_hash c' volatile_keys = Ok h.
Proof. by apply agree_bind; [apply same_agree|]. Qed.

(** [C37] The hash tells configurations apart: for canonical forms without floats
    and lone surrogates, on whose texts SHA-256 does not collide, two
    configurations have the same hash exactly when their canonical forms are
    equal. *)
Theorem config_hash_exact {RT : Runtime} volatile_keys c c' v v' h h'
    (Hv : canonicalize_config volatile_keys (CMap c) = Ok v) (Hv' : canonicalize_config volatile_keys (CMap c') = Ok v')
    (Hplain : plain v && plain v' = true)
    (Hh : canonical_config_hash c volatile_keys = Ok h) (Hh' : canonical_config_hash c' volatile_keys = Ok h')
    (Hsha : ∀ t t', stable_json v = Ok t → stable_json v' = Ok t' → sha256_hex t = sha256_hex t' → t = t') :
  h = h' ↔ v = v'.
Proof.
  apply andb_true_iff in Hplain as [Hp Hp'].
  unfold canonical_config_hash in Hh, Hh'. rewrite Hv in Hh. rewrite Hv' in Hh'. cbn [mbind result_bind] in Hh, Hh'.
  destruct (stable_json v) as [t|] eqn:E; [|done]. destruct (stable_json v') as [t'|] eqn:E'; [|done].
  injection Hh as <-. injection Hh' as <-. split; [|intros ->; congruence]. intros Heq.
  assert (t = t') as <- by (by apply Hsha).
  pose proof (loads_dumps v recursion_limit t Hp E) as H1. pose proof (loads_dumps v' recursion_limit t Hp' E') as H2.
  rewrite (canonical_normal _ _ _ Hv) in H1. rewrite (canonical_normal _ _ _ Hv') in H2. congruence.
Qed.

(** A digest that does not collide, to evaluate with. *)
Definition text_runtime : Runtime := {|
  rt_floats := example_floats; recursion_limit := 20; fromisoformat := read_iso; sha256_hex := λ t, t |}.
Definition system (saved : string) (first_slot : Z) : list (ustr * config) :=
  [(u "name", CStr (u "shelf")); (u "saved_at", CStr (u saved)); (u "slots", CSeq [CInt first_slot; CInt 2]);
   (u "tags", CSet [CStr (u "a"); CStr (u "b")])].
Definition saved_again : list (ustr * config) :=
  [(u "tags", CSet [CStr (u "a"); CStr (u "b")]); (u "saved_at", CStr (u "later")); (u "slots", CSeq [CInt 1; CInt 2]);
   (u "name", CStr (u "shelf"))].
Definition hash_text (c : list (ustr * config)) : ustr :=
  let _ := text_runtime in match canonical_config_hash c DEFAULT_VOLATILE_KEYS with Ok h => h | Err _ => [] end.
Definition canonical_of (c : list (ustr * config)) : json :=
  let _ := text_runtime in match canonicalize_config DEFAULT_VOLATILE_KEYS (CMap c) with Ok v => v | Err _ => JNull end.
Lemma config_hash_ignores_saves_witness :
  let _ := text_runtime in
  canonical_config_hash saved_again DEFAULT_VOLATILE_KEYS = Ok (hash_text (system "now" 1)).
Proof.
  intros RT. assert (same_config DEFAULT_VOLATILE_KEYS (CMap (system "now" 1)) (CMap saved_again)) as Hs.
  { apply same_map; [apply (bool_decide_unpack _); vm_compute; exact I..|].
    assert (kept DEFAULT_VOLATILE_KEYS (system "now" 1) = [(u "name", CStr (u "shelf")); (u "slots", CSeq [CInt 1; CInt 2]);
      (u "tags", CSet [CStr (u "a"); CStr (u "b")])]) as -> by (vm_compute; reflexivity).
    assert (kept DEFAULT_VOLATILE_KEYS saved_again = [(u "tags", CSet [CStr (u "a"); CStr (u "b")]);
      (u "slots", CSeq [CInt 1; CInt 2]); (u "name", CStr (u "shelf"))]) as -> by (vm_compute; reflexivity).
    etrans; [apply Permutation_swap|]. etrans; [apply perm_skip, Permutation_swap|]. apply Permutation_swap. }
  apply (config_hash_ignores_saves _ _ _ Hs). vm_compute. reflexivity.
Defined.
Lemma config_hash_exact_witness :
  let _ := text_runtime in
  hash_text (system "now" 1) ≠ hash_text (system "now" 3).
Proof.
  intros RT Heq.
  destruct (config_hash_exact DEFAULT_VOLATILE_KEYS (system "now" 1) (system "now" 3)
    (canonical_of (system "now" 1)) (canonical_of (system "now" 3)) (hash_text (system "now" 1)) (hash_text (system "now" 3)))
    as [H _]; try (vm_compute; reflexivity).
  - intros t t' _ _ E. exact E.
  - specialize (H Heq). vm_compute in H. discriminate H.
Defined.
