(* ===== verification/Mapping.v ===== *)
(** * Slot mappings: rows, keys and their classification

    The data of [app/services/mapping_store.py] and [ManualMapping] of
    [app/models/domain.py]: which physical enclosure a scope names, the keys of
    both versions of the file, the validation of a row, and the classification
    of the rows of a file into one mapping per identity.

    [MappingEnv] holds what the code calls outside src/: pydantic's reading and
    writing of a [datetime], whether a float of the file equals an integer, and
    the order in which Python enumerates a set.  SHA-256 and the recursion limit
    come from [Runtime].  A slot that reaches the f-strings has at most 4300
    digits, so they do not raise. *)

From S2P Require Import Prelude.
From S2P Require Import PyStr.
From S2P Require Import Calendar.
From S2P Require Import Json.
From S2P Require Import JsonProofs.
From S2P Require Import JsonHook.
From S2P Require Import Dict.
From S2P Require Import Journal.
#[local] Open Scope Z_scope.
#[local] Open Scope list_scope.

(** ** Outside the code *)

Definition ScopeIdentity : Type := option ustr * Z.
Definition Identity : Type := option ustr * option ustr * Z.

Class MappingEnv := {
  me_runtime :: Runtime;
  validate_datetime : json → option datetime;
  dump_datetime : datetime → ustr;
  float_is : ustr → Z → bool;
  set_order : list ScopeIdentity → list ScopeIdentity;
}.
(** A time that pydantic accepts or that is in UTC is read back from its dump;
    the enumeration of a set lists its elements; four levels can be nested; a
    digest is a text of hexadecimal digits. *)
Class MappingEnvLaws (ME : MappingEnv) : Prop := {
  datetime_revalidates : ∀ j d, validate_datetime j = Some d → validate_datetime (JStr (dump_datetime d)) = Some d;
  datetime_utc_validates : ∀ d, is_utc d → validate_datetime (JStr (dump_datetime d)) = Some d;
  datetime_dump_scalars : ∀ d, scalars (dump_datetime d) = true;
  set_order_perm : ∀ l, set_order l ≡ₚ l;
  recursion_limit_four : (4 <= recursion_limit)%nat;
  digest_scalars : ∀ b, scalars (sha256_hex b) = true;
}.

(** ** Exceptions *)

Inductive errno := EACCES | EPERM | EROFS | ENOSPC | EDQUOT | EEXIST | OtherErrno (n : Z) | NoErrno.
Inductive map_exn :=
| MappingScopeConflict
| MappingRevisionConflict (current_revision : ustr)
| MappingImportDigestMismatch (current_revision current_import_digest : ustr)
| MappingDurabilityError
| MappingStorageUnwritable
| StorageDirectoryCapacityExhausted (quota : bool)
| DuplicateMapping (identity : ScopeIdentity)     (* ValueError *)
| LoadError (e : load_error)                      (* of [json.loads], where it is not caught *)
| DumpError (e : py_exn)                          (* of [json.dumps] *)
| OSErr (e : errno)
| ValidationError                                 (* of pydantic, where it is not caught *)
| AssertionError.
#[export] Instance errno_eq_dec : EqDecision errno.
Proof. solve_decision. Defined.
#[export] Instance map_exn_eq_dec : EqDecision map_exn.
Proof. solve_decision. Defined.

(** ** Scopes *)

Definition DELL_MD1280_PROFILE_ID : ustr := u "dell-md1280-drawer-84".
Definition DELL_MD1280_DRAWER_TOP_PROFILE_ID : ustr := u "dell-md1280-drawer-top-42".
Definition DELL_MD1280_DRAWER_BOTTOM_PROFILE_ID : ustr := u "dell-md1280-drawer-bottom-42".
Definition ENCLOSURE_SUB_VIEW_PROFILE_IDS : list (ustr * list ustr) :=
  [(DELL_MD1280_PROFILE_ID, [DELL_MD1280_DRAWER_TOP_PROFILE_ID; DELL_MD1280_DRAWER_BOTTOM_PROFILE_ID])].
Definition DRAWER_SUB_PROFILE_IDS : list ustr := ENCLOSURE_SUB_VIEW_PROFILE_IDS.*2 ≫= id.
Definition is_drawer (profile_id : ustr) : bool := bool_decide (profile_id ∈ DRAWER_SUB_PROFILE_IDS).

Definition SEPARATOR : ustr := u "::".
(** [s.rpartition(sep)], [None] when [sep] does not occur *)
Fixpoint rpartition (sep s : ustr) : option (ustr * ustr) :=
  match s with
  | [] => None
  | c :: s' =>
      match rpartition sep s' with
      | Some (head, tail) => Some (c :: head, tail)
      | None => match strip_prefix sep s with Some tail => Some ([], tail) | None => None end
      end
  end.

Definition resolve_physical_mapping_scope (enclosure_id : option ustr) : option ustr :=
  match enclosure_id with
  | None | Some [] => enclosure_id
  | Some e =>
      match rpartition SEPARATOR e with
      | None => enclosure_id
      | Some (physical_id, profile_id) =>
          let nested := match rpartition SEPARATOR physical_id with
                        | Some (_, parent_profile_id) => is_drawer parent_profile_id
                        | None => false
                        end in
          if non_empty physical_id && is_drawer profile_id && negb nested then Some physical_id else enclosure_id
      end
  end.

Example scopes_resolved :
  let top e := Some (u e ++ SEPARATOR ++ DELL_MD1280_DRAWER_TOP_PROFILE_ID) in
  resolve_physical_mapping_scope (top "shelf"%string) = Some (u "shelf")
  ∧ resolve_physical_mapping_scope (top ""%string) = top ""%string
  ∧ resolve_physical_mapping_scope (Some (u "shelf::other")) = Some (u "shelf::other")
  ∧ resolve_physical_mapping_scope (top "shelf::dell-md1280-drawer-bottom-42"%string)
    = top "shelf::dell-md1280-drawer-bottom-42"%string
  ∧ rpartition SEPARATOR (u "a:::b") = Some (u "a:", u "b").
Proof. vm_compute. auto. Qed.

(** ** Rows *)

Record ManualMapping := mkMapping {
  system_id : option ustr;
  slot : Z;
  enclosure_id : option ustr;
  serial : option ustr;
  device_name : option ustr;
  gptid : option ustr;
  notes : option ustr;
  updated_at : datetime;
  source : ustr;
}.
#[export] Instance ManualMapping_eq_dec : EqDecision ManualMapping.
Proof. solve_decision. Defined.

(** [mapping.model_copy(update={...})] *)
Definition with_enclosure (e : option ustr) (m : ManualMapping) : ManualMapping :=
  mkMapping (system_id m) (slot m) e (serial m) (device_name m) (gptid m) (notes m) (updated_at m) (source m).
Definition with_system (s : option ustr) (m : ManualMapping) : ManualMapping :=
  mkMapping s (slot m) (enclosure_id m) (serial m) (device_name m) (gptid m) (notes m) (updated_at m) (source m).
Definition with_updated_at (t : datetime) (m : ManualMapping) : ManualMapping :=
  mkMapping (system_id m) (slot m) (enclosure_id m) (serial m) (device_name m) (gptid m) (notes m) t (source m).

Definition trim_strings (value : option ustr) : option ustr :=
  match value with
  | None => None
  | Some v => match ustrip v with [] => None | cleaned => Some (take 256 cleaned) end
  end.

Definition canonical_mapping (mapping : ManualMapping) : ManualMapping :=
  with_enclosure (resolve_physical_mapping_scope (enclosure_id mapping)) mapping.

Definition jopt (v : option ustr) : json := match v with Some s => JStr s | None => JNull end.

(** The items of the dict; the keys are always the same, so equal dicts have equal items. *)
Definition semantic_mapping (mapping : ManualMapping) : list (ustr * json) :=
  let m := canonical_mapping mapping in
  [(u "enclosure_id", jopt (enclosure_id m)); (u "slot", JInt (slot m)); (u "serial", jopt (serial m));
   (u "device_name", jopt (device_name m)); (u "gptid", jopt (gptid m)); (u "notes", jopt (notes m))].
Definition same_semantics (a b : ManualMapping) : bool := bool_decide (semantic_mapping a = semantic_mapping b).

(** ** Keys of version 1 *)

Definition or_default (v : option ustr) (default : ustr) : ustr :=
  match v with None | Some [] => default | Some s => s end.

Definition drawer_alias_enclosure_ids (e : option ustr) : list ustr :=
  match resolve_physical_mapping_scope e with
  | None | Some [] => []
  | Some physical => (λ p, physical ++ SEPARATOR ++ p) <$> sort_by ustr_leb DRAWER_SUB_PROFILE_IDS
  end.

Definition slot_key (s e : option ustr) (n : Z) : ustr :=
  or_default s (u "default_system") ++ [58] ++ or_default (resolve_physical_mapping_scope e) (u "default")
  ++ [58] ++ print_int n.
Definition v1_physical_keys (s e : option ustr) (n : Z) : list ustr :=
  let physical := resolve_physical_mapping_scope e in
  let prefix := or_default s (u "default_system") in
  fromkeys ((prefix ++ [58] ++ or_default physical (u "default") ++ [58] ++ print_int n)
            :: ((λ alias, prefix ++ [58] ++ alias ++ [58] ++ print_int n) <$> drawer_alias_enclosure_ids physical)).
Definition v1_legacy_keys (e : option ustr) (n : Z) : list ustr :=
  let physical := resolve_physical_mapping_scope e in
  fromkeys ((or_default physical (u "default") ++ [58] ++ print_int n)
            :: ((λ alias, alias ++ [58] ++ print_int n) <$> drawer_alias_enclosure_ids physical)).

Section mapping.
Context {ME : MappingEnv}.

(** ** Keys of version 2 *)

(** The types of the identity are those that the code checks for. *)
Definition encode_v2_key (identity : Identity) : result map_exn ustr :=
let '(s, e, n) := identity in
match dumps recursion_limit (JList [jopt s; jopt (resolve_physical_mapping_scope e); JInt n]) with
| Ok text => Ok (u "v2:" ++ text)
| Err err => Err (DumpError err)
end.

Definition opt_text (v : json) : result map_exn (option ustr) :=
match v with JNull => Ok None | JStr s => Ok (Some s) | _ => Err MappingScopeConflict end.
Definition int_of (v : json) : result map_exn Z :=
match v with JInt z => Ok z | _ => Err MappingScopeConflict end.

Definition decode_v2_key (key : ustr) : result map_exn Identity :=
match strip_prefix (u "v2:") key with
| None => Err MappingScopeConflict
| Some encoded =>
    match loads_text dict_hook recursion_limit encoded with
    | Err JSONDecodeError => Err MappingScopeConflict
    | Err e => Err (LoadError e)
    | Ok (JList [s; e; n]) =>
        s ← opt_text s; e ← opt_text e; n ← int_of n;
        key' ← encode_v2_key (s, e, n);
        raise: MappingScopeConflict when negb (bool_decide (key' = key));
        Ok (s, e, n)
    | Ok _ => Err MappingScopeConflict
    end
end.

(** ** Validation *)

(** A field of type [str | None] with default [None], and one of type [str]:
    pydantic takes the strings that can be encoded. *)
Definition field_opt (name : ustr) (raw : jdict) : option (option ustr) :=
match jget name raw with
| None | Some JNull => Some None
| Some (JStr s) => if scalars s then Some (Some s) else None
| Some _ => None
end.
Definition field_str (name default : ustr) (raw : jdict) : option ustr :=
match jget name raw with
| None => Some default
| Some (JStr s) => if scalars s then Some s else None
| Some _ => None
end.
(** [ManualMapping.model_validate(raw)] of a dict whose slot is an integer, with
    [now] as the default of [updated_at]; [None] is a [ValidationError]. *)
Definition model_validate (now : datetime) (raw : jdict) : option ManualMapping :=
n ← (match jget (u "slot") raw with Some (JInt z) => Some z | _ => None end);
s ← field_opt (u "system_id") raw; e ← field_opt (u "enclosure_id") raw;
ser ← field_opt (u "serial") raw; dev ← field_opt (u "device_name") raw;
gpt ← field_opt (u "gptid") raw; nts ← field_opt (u "notes") raw;
upd ← (match jget (u "updated_at") raw with None => Some now | Some v => validate_datetime v end);
src ← field_str (u "source") (u "manual") raw;
Some (mkMapping s n e (trim_strings ser) (trim_strings dev) (trim_strings gpt) (trim_strings nts) upd src).

Definition is_text_or_none (v : option json) : bool :=
match v with None | Some JNull | Some (JStr _) => true | _ => false end.
Definition validate_raw_model (now : datetime) (raw : json) : result map_exn ManualMapping :=
match raw with
| JObj d =>
    raise: MappingScopeConflict when negb (match jget (u "slot") d with Some (JInt _) => true | _ => false end);
    raise: MappingScopeConflict when negb (is_text_or_none (jget (u "system_id") d));
    raise: MappingScopeConflict when negb (is_text_or_none (jget (u "enclosure_id") d));
    match model_validate now d with Some m => Ok m | None => Err MappingScopeConflict end
| _ => Err MappingScopeConflict
end.

(** [mapping.model_dump(mode="json")] *)
Definition model_dump (m : ManualMapping) : jdict :=
[(u "system_id", jopt (system_id m)); (u "slot", JInt (slot m)); (u "enclosure_id", jopt (enclosure_id m));
 (u "serial", jopt (serial m)); (u "device_name", jopt (device_name m)); (u "gptid", jopt (gptid m));
 (u "notes", jopt (notes m)); (u "updated_at", JStr (dump_datetime (updated_at m))); (u "source", JStr (source m))].

(** ** Digests *)

Definition digest (payload : json) : result map_exn ustr :=
match dumps recursion_limit payload with
| Ok text => Ok (sha256_hex text)
| Err e => Err (DumpError e)
end.

(** ** Classification *)

Record ClassifiedRow := mkRow {
  row_key : ustr;
  row_stored : ManualMapping;
  row_identity : Identity;
  row_canonical : ManualMapping;
}.
(** [version] is the JSON value the file has, [1] and [2] also as floats. *)
Record ClassifiedStore := mkStore {
  version : json;
  entries : list (ustr * ManualMapping);
  rows : list ClassifiedRow;
  mappings : list (Identity * ManualMapping);
}.
Definition identity_of (m : ManualMapping) : Identity := (system_id m, enclosure_id m, slot m).
Definition version_is (v : json) (n : Z) : bool :=
match v with JInt z => z =? n | JFloat lit => float_is lit n | _ => false end.

(** The owners that the suffixes of a key leave: for each token of the
    enclosure the prefix of [key] before [:token:slot], if any. *)
Fixpoint key_owners (key : ustr) (tokens : list ustr) (n : Z) : list (option ustr) :=
match tokens with
| [] => []
| token :: tokens' =>
    let suffix := [58] ++ token ++ [58] ++ print_int n in
    let cut := (length key - length suffix)%nat in
    let here := if bool_decide (drop cut key = suffix) && Nat.leb (length suffix) (length key)
                then match take cut key with
                     | [] => []
                     | owner => [if bool_decide (owner = u "default_system") then None else Some owner]
                     end
                else [] in
    here ++ key_owners key tokens' n
end.

Definition classify_v1 (key : ustr) (mapping : ManualMapping) : result map_exn (Identity * ManualMapping) :=
let canonical := canonical_mapping mapping in
let '(e, n) := (enclosure_id canonical, slot canonical) in
match system_id canonical with
| Some s =>
    raise: MappingScopeConflict when negb (bool_decide (key ∈ v1_physical_keys (Some s) e n ++ v1_legacy_keys e n));
    Ok ((Some s, e, n), canonical)
| None =>
    if bool_decide (key ∈ v1_legacy_keys e n) then Ok ((None, e, n), canonical)
    else
      let tokens := fromkeys (or_default e (u "default") :: drawer_alias_enclosure_ids e) in
      match fromkeys (key_owners key tokens n) with
      | [owner] => Ok ((owner, e, n), with_system owner canonical)
      | _ => Err MappingScopeConflict
      end
end.

Definition classify_row (v : json) (key : ustr) (mapping : ManualMapping) : result map_exn ClassifiedRow :=
if version_is v 1 then
  '(identity, canonical) ← classify_v1 key mapping;
  Ok (mkRow key mapping identity canonical)
else if version_is v 2 then
  identity ← decode_v2_key key;
  let canonical := canonical_mapping mapping in
  raise: MappingScopeConflict when negb (bool_decide (identity = identity_of canonical));
  Ok (mkRow key mapping identity canonical)
else Err MappingScopeConflict.

(** The digests of the canonical rows of an identity, as a set *)
Definition semantic_rows (identity_rows : list ClassifiedRow) : result map_exn (list ustr) :=
remove_dups <$> res_mapM (λ row, digest (JObj (semantic_mapping (row_canonical row)))) identity_rows.
(** The key of the maximum: whether the key of the row is the [slot_key] of the
    identity, then the key. *)
Definition rank_leb (identity : Identity) (a b : ClassifiedRow) : bool :=
let '(s, e, n) := identity in
let fits row := bool_decide (row_key row = slot_key s e n) in
if Bool.eqb (fits a) (fits b) then ustr_leb (row_key a) (row_key b) else fits b.
Definition winner_of (leb : ClassifiedRow → ClassifiedRow → bool) (identity_rows : list ClassifiedRow) :
  result map_exn ManualMapping :=
match max_by leb identity_rows with Some row => Ok (row_canonical row) | None => Err MappingScopeConflict end.

Definition settle_group (group : Identity * list ClassifiedRow) : result map_exn (Identity * ManualMapping) :=
semantic ← semantic_rows group.2;
raise: MappingScopeConflict when negb (Nat.eqb (length semantic) 1);
winner ← winner_of (rank_leb group.1) group.2;
Ok (group.1, winner).
Definition classify_entries (v : json) (es : list (ustr * ManualMapping)) : result map_exn ClassifiedStore :=
rs ← res_mapM (λ kv, classify_row v kv.1 kv.2) es;
ms ← res_mapM settle_group (group_by row_identity rs);
Ok (mkStore v es rs ms).

(** ** The document *)

(** [_read_document] of what [_read_source_bytes] returned or raised *)
Definition DEFAULT_VERSION : json := JInt 1.
Definition document_entries (now : datetime) (raw_mappings : jdict) : result map_exn (list (ustr * ManualMapping)) :=
res_mapM (λ kv, m ← validate_raw_model now kv.2; Ok (kv.1, m)) raw_mappings.
Definition utf8_text (raw : list Z) : option ustr :=
match utf8_decode raw with
| Some text => if scalars text then Some text else None
| None => None
end.
Definition read_document (strict tolerate_invalid_models : bool) (now : datetime)
  (src : result errno (option (list Z))) : result map_exn (json * list (ustr * ManualMapping)) :=
match src with
| Err e => if strict then Err (OSErr e) else Ok (DEFAULT_VERSION, [])
| Ok None => Ok (JInt 2, [])
| Ok (Some raw) =>
    let malformed := if strict then Err MappingScopeConflict else Ok (DEFAULT_VERSION, []) in
    match utf8_text raw with
    | None => malformed
    | Some text =>
        match loads_text reject_duplicate_object_keys recursion_limit text with
        | Err JSONDecodeError => malformed
        | Err HookRaised => Err MappingScopeConflict
        | Err e => Err (LoadError e)
        | Ok (JObj payload) =>
            let v := default DEFAULT_VERSION (jget (u "version") payload) in
            raise: MappingScopeConflict when negb (version_is v 1 || version_is v 2);
            match jget (u "slot_mappings") payload with
            | Some (JObj raw_mappings) =>
                match document_entries now raw_mappings with
                | Err MappingScopeConflict =>
                    if tolerate_invalid_models && version_is v 1 then Ok (v, []) else Err MappingScopeConflict
                | Err e => Err e
                | Ok es => Ok (v, es)
                end
            | _ =>
                raise: MappingScopeConflict when strict;
                if version_is v 1 then Ok (v, []) else Err MappingScopeConflict
            end
        | Ok _ => malformed
        end
    end
end.

Definition load_state (now : datetime) (src : result errno (option (list Z))) : result map_exn ClassifiedStore :=
'(v, es) ← read_document true false now src;
classify_entries v es.
End mapping.
