(* ===== verification/MappingReads.v ===== *)
(** * Slot mappings: snapshots, lookups, revisions and previews

    The reads of [MappingStore] in [app/services/mapping_store.py].  Each is a
    function of the classified state or of what the read of the file gave
    ([source_read]); the state that a request may be answered from is the whole
    store ([Mapping.load_state]), or the part of it that a scope concerns
    ([load_state_for_scope]), where only the bad rows the scope could meet raise.

    Revisions are digests of the rows that a write would depend on; a preview
    says what an import would change, with a digest of the import it was made for. *)

From S2P Require Import Prelude.
From S2P Require Import PyStr.
From S2P Require Import Calendar.
From S2P Require Import Json.
From S2P Require Import JsonProofs.
From S2P Require Import JsonHook.
From S2P Require Import Dict.
From S2P Require Import Journal.
From S2P Require Import Mapping.
#[local] Open Scope Z_scope.
#[local] Open Scope list_scope.

Definition source_read : Type := result errno (option (list Z)).

Record ScopedStoreSnapshot := mkSnapshot {
  state : ClassifiedStore;
  invalid_rows : list (ustr * ManualMapping);
  conflicting_identities : list Identity;
}.

(** [identity[0] in {None, system_id}] *)
Definition none_or (x s : option ustr) : bool := bool_decide (x = None) || bool_decide (x = s).
Definition identity_system (i : Identity) : option ustr := i.1.1.
Definition identity_scope (i : Identity) : ScopeIdentity := (i.1.2, i.2).

Definition identity_matches_system (i : Identity) (s : option ustr) : bool :=
  match s with None => bool_decide (identity_system i = None) | Some _ => none_or (identity_system i) s end.

Definition v1_resolvable_keys (s e : option ustr) (n : Z) : list ustr :=
  v1_physical_keys s e n ++ v1_physical_keys s None n ++ v1_legacy_keys e n ++ v1_legacy_keys None n.

Definition slot_selected (sl : option Z) (n : Z) : bool := match sl with None => true | Some m => n =? m end.
(** [enclosure_id is None or e in {None, enclosure_id}] *)
Definition enclosure_selected (wanted e : option ustr) : bool :=
  match wanted with None => true | Some _ => none_or e wanted end.

(** The loop [for x in l: if p(x): raise], where [p] may raise too *)
Fixpoint any_of {A} (p : A → result map_exn bool) (l : list A) : result map_exn bool :=
  match l with
  | [] => Ok false
  | x :: l' => match p x with Err e => Err e | Ok true => Ok true | Ok false => any_of p l' end
  end.

(** [(item[0] or "", item[1])] and [(system or "", enclosure or "", slot)] *)
Definition scope_leb (a b : ScopeIdentity) : bool :=
  let '(x, n) := (or_default a.1 [], a.2) in
  let '(y, m) := (or_default b.1 [], b.2) in
  if decide (x = y) then n <=? m else ustr_leb x y.
Definition identity_leb (a b : Identity) : bool :=
  let '(x, y) := (or_default a.1.1 [], or_default b.1.1 []) in
  if decide (x = y) then scope_leb (identity_scope a) (identity_scope b) else ustr_leb x y.

Definition query_identities (s e : option ustr) (n : Z) (allow_legacy_fallback : bool) : list Identity :=
  fromkeys ((s, e, n) :: (if allow_legacy_fallback then [(s, None, n); (None, e, n); (None, None, n)] else [])).

(** ** Scopes of a state *)

(** [_scope_entries]: per place of the scope the mapping of the system before
    the one without a system *)
Definition scope_step (s : option ustr) (selected : list (ScopeIdentity * (Z * ManualMapping)))
  (im : Identity * ManualMapping) : list (ScopeIdentity * (Z * ManualMapping)) :=
  let rank := if bool_decide (identity_system im.1 = s) then 1 else 0 in
  match dget (identity_scope im.1) selected with
  | None => dset (identity_scope im.1) (rank, im.2) selected
  | Some existing => if existing.1 <? rank then dset (identity_scope im.1) (rank, im.2) selected else selected
  end.
Definition import_identity_selected (i : Identity) (s e : option ustr) : bool :=
  identity_matches_system i s && (bool_decide (e = None) || bool_decide (i.1.2 = e)).
Definition scope_entries (st : ClassifiedStore) (s e : option ustr) : list (ScopeIdentity * ManualMapping) :=
  let e := resolve_physical_mapping_scope e in
  (λ kv, (kv.1, kv.2.2)) <$>
  fold_left (scope_step s) (List.filter (λ im, import_identity_selected im.1 s e) (mappings st)) [].

Definition replace_identity_selected (i : Identity) (s e : option ustr) : bool :=
  identity_matches_system i s && enclosure_selected e i.1.2.
Definition resolvable_identity_selected (i : Identity) (s e : option ustr) (n : Z) : bool :=
  bool_decide (i ∈ query_identities s e n true).

(** A row of an import, in the scope [e] or in its own enclosure *)
Definition scoped_mapping (s e : option ustr) (m : ManualMapping) : ManualMapping :=
  with_enclosure (match e with Some _ => e | None => resolve_physical_mapping_scope (enclosure_id m) end) (with_system s m).
Definition scope_identity (m : ManualMapping) : ScopeIdentity := (enclosure_id m, slot m).
Fixpoint normalize_loop (s e : option ustr) (ms : list ManualMapping)
  (normalized : list (ScopeIdentity * ManualMapping)) : result map_exn (list (ScopeIdentity * ManualMapping)) :=
  match ms with
  | [] => Ok normalized
  | m :: ms' =>
      let scoped := scoped_mapping s e m in
      match dget (scope_identity scoped) normalized with
      | Some _ => Err (DuplicateMapping (scope_identity scoped))
      | None => normalize_loop s e ms' (dset (scope_identity scoped) scoped normalized)
      end
  end.
Definition normalize_incoming (s e : option ustr) (incoming : list ManualMapping) :
  result map_exn (list (ScopeIdentity * ManualMapping)) :=
  normalize_loop s (resolve_physical_mapping_scope e) incoming [].

(** ** Previews *)

Record Preview := mkPreview {
  revision : ustr;
  import_digest : ustr;
  additions : list jdict;
  updates : list jdict;
  removals : list jdict;
  unchanged : list jdict;
}.
Inductive difference := Addition (d : jdict) | Update (d : jdict) | Removal (d : jdict) | Unchanged (d : jdict).

Definition identity_payload (i : ScopeIdentity) : jdict := [(u "enclosure_id", jopt i.1); (u "slot", JInt i.2)].
Definition mapping_value_payload (m : ManualMapping) : jdict :=
  dkeep (λ k, negb (bool_decide (k ∈ [u "enclosure_id"; u "slot"]))) (semantic_mapping m).
(** [{field: {"from": ..., "to": ...} for field in sorted(current) if ...}] *)
Definition value_changes (current incoming : jdict) : result map_exn jdict :=
  changes ← res_mapM (λ field,
    match dget field current, dget field incoming with
    | Some x, Some y =>
        Ok (if bool_decide (x = y) then [] else [(field, JObj [(u "from", x); (u "to", y)])])
    | _, _ => Err AssertionError
    end) (sort_by ustr_leb current.*1);
  Ok (List.concat changes).
Definition difference_of (current incoming : list (ScopeIdentity * ManualMapping)) (i : ScopeIdentity) :
  result map_exn difference :=
  let target := identity_payload i in
  match dget i current, dget i incoming with
  | None, None => Err AssertionError
  | None, Some new => Ok (Addition (target ++ [(u "incoming", JObj (mapping_value_payload new))]))
  | Some old, None => Ok (Removal (target ++ [(u "current", JObj (mapping_value_payload old))]))
  | Some old, Some new =>
      if same_semantics old new then Ok (Unchanged target)
      else
        changes ← value_changes (mapping_value_payload old) (mapping_value_payload new);
        Ok (Update (target ++ [(u "changes", JObj changes)]))
  end.

Section reads.
Context {ME : MappingEnv}.

(** ** Snapshots *)

(** A row, or what is kept of one that is in conflict *)
Definition classify_or_keep (v : json) (kv : ustr * ManualMapping) :
  result map_exn (ClassifiedRow + ustr * ManualMapping) :=
match classify_row v kv.1 kv.2 with
| Ok row => Ok (inl row)
| Err MappingScopeConflict => Ok (inr kv)
| Err e => Err e
end.
Definition settle_scoped (group : Identity * list ClassifiedRow) : result map_exn (Identity * ManualMapping * bool) :=
semantic ← semantic_rows group.2;
winner ← winner_of (λ a b, ustr_leb (row_key a) (row_key b)) group.2;
Ok (group.1, winner, negb (Nat.eqb (length semantic) 1)).
Definition classify_scoped (v : json) (es : list (ustr * ManualMapping)) : result map_exn ScopedStoreSnapshot :=
classified ← res_mapM (classify_or_keep v) es;
let rs := omap (λ c, match c with inl row => Some row | inr _ => None end) classified in
let invalid := omap (λ c, match c with inl _ => None | inr kv => Some kv end) classified in
groups ← res_mapM settle_scoped (group_by row_identity rs);
Ok (mkSnapshot (mkStore v es rs groups.*1) invalid (List.filter (λ g, g.2) groups).*1.*1).
Definition load_scoped_snapshot (now : datetime) (src : source_read) : result map_exn ScopedStoreSnapshot :=
'(v, es) ← read_document true false now src;
classify_scoped v es.

Definition invalid_row_is_relevant (v : json) (key : ustr) (mapping : ManualMapping) (s e : option ustr) (sl : option Z) :
  result map_exn bool :=
let canonical := canonical_mapping mapping in
let model_system_matches := match s with
                            | Some _ => none_or (system_id canonical) s
                            | None => bool_decide (system_id canonical = None)
                            end in
if model_system_matches && slot_selected sl (slot canonical) && enclosure_selected e (enclosure_id canonical) then Ok true
else
  let candidate_slot := default (slot canonical) sl in
  if version_is v 1 then Ok (bool_decide (key ∈ v1_resolvable_keys s e candidate_slot))
  else
    match decode_v2_key key with
    | Err MappingScopeConflict => Ok false
    | Err err => Err err
    | Ok i => Ok (identity_matches_system i s && slot_selected sl i.2 && enclosure_selected e i.1.2)
    end.

(** A legacy row under a drawer alias that says something else than the row of
    the system for the same place *)
Definition legacy_disagrees (s : option ustr) (selected : list ClassifiedRow) (legacy : ClassifiedRow) : bool :=
bool_decide (identity_system (row_identity legacy) = None)
&& negb (bool_decide (enclosure_id (row_stored legacy) = enclosure_id (row_canonical legacy)))
&& existsb (λ scoped, bool_decide (identity_system (row_identity scoped) = s)
                      && bool_decide (identity_scope (row_identity scoped) = identity_scope (row_identity legacy))
                      && negb (same_semantics (row_canonical scoped) (row_canonical legacy))) selected.

Definition state_for_scope (snapshot : ScopedStoreSnapshot) (s e : option ustr) (sl : option Z) :
  result map_exn ClassifiedStore :=
let st := state snapshot in
let e := resolve_physical_mapping_scope e in
relevant ← any_of (λ kv : ustr * ManualMapping, invalid_row_is_relevant (version st) kv.1 kv.2 s e sl) (invalid_rows snapshot);
raise: MappingScopeConflict when (relevant : bool);
raise: MappingScopeConflict when
  existsb (λ i : Identity, identity_matches_system i s && slot_selected sl i.2 && enclosure_selected e i.1.2)
    (conflicting_identities snapshot);
let selected := List.filter (λ row, none_or (identity_system (row_identity row)) s
                                    && slot_selected sl (row_identity row).2
                                    && (bool_decide (e = None) || bool_decide ((row_identity row).1.2 = e))) (rows st) in
raise: MappingScopeConflict when existsb (legacy_disagrees s selected) selected;
Ok st.
Definition load_state_for_scope (now : datetime) (src : source_read) (s e : option ustr) (sl : option Z) :
  result map_exn ClassifiedStore :=
snapshot ← load_scoped_snapshot now src;
state_for_scope snapshot s e sl.

(** ** Loaded entries

    A payload is the dump of its model; reading it back is [model_validate]. *)
Record MappingLookupSnapshot := mkLookup {
  lookup_entries : list (ustr * jdict);
  lookup_mappings : list (Identity * jdict);
}.
Record SnapshotEntries := mkSnapshotEntries {
  lookup : MappingLookupSnapshot;
  snapshot : ScopedStoreSnapshot;
  display_state : result map_exn ClassifiedStore;     (* or the MappingScopeConflict to raise *)
}.
Inductive loaded_entries :=
| lookup_snapshot (l : MappingLookupSnapshot)
| snapshot_entries (l : SnapshotEntries)
| versioned_entries (store_version : json) (es : list (ustr * ManualMapping))
| plain_entries (es : list (ustr * ManualMapping)).

Definition dumped {K} (d : list (K * ManualMapping)) : list (K * jdict) := (λ kv, (kv.1, model_dump kv.2)) <$> d.
Definition get_identity (now : datetime) (l : MappingLookupSnapshot) (i : Identity) :
  result map_exn (option ManualMapping) :=
match dget i (lookup_mappings l) with
| None => Ok None
| Some payload => match model_validate now payload with Some m => Ok (Some m) | None => Err ValidationError end
end.
Definition snapshot_get_identity (now : datetime) (l : SnapshotEntries) (i : Identity) :
  result map_exn (option ManualMapping) :=
match display_state l with Err e => Err e | Ok _ => get_identity now (lookup l) i end.

Definition state_from_entries (l : loaded_entries) : result map_exn ClassifiedStore :=
match l with
| snapshot_entries l => display_state l
| versioned_entries v es => classify_entries v es
| lookup_snapshot _ => Err AssertionError       (* never asked for one *)
| plain_entries [] => classify_entries (JInt 2) []
| plain_entries es =>
    let prefixes := fromkeys ((λ kv, match strip_prefix (u "v2:") kv.1 with Some _ => true | None => false end) <$> es) in
    raise: MappingScopeConflict when negb (Nat.eqb (length prefixes) 1);
    classify_entries (JInt (if bool_decide (true ∈ prefixes) then 2 else 1)) es
end.

Definition load_read_snapshot (now : datetime) (src : source_read) : result map_exn SnapshotEntries :=
snap ← load_scoped_snapshot now src;
let st := state snap in
let display := classify_entries (version st) (entries st) in
match display with
| Err MappingScopeConflict =>
    raise: MappingScopeConflict when version_is (version st) 2;
    Ok (mkSnapshotEntries (mkLookup (dumped (entries st)) []) snap display)
| Err e => Err e
| Ok d => Ok (mkSnapshotEntries (mkLookup (dumped (entries st)) (dumped (mappings d))) snap display)
end.
Definition load_all (now : datetime) (src : source_read) : result map_exn loaded_entries :=
'(v, es) ← read_document false true now src;
_ ← (if version_is v 2 then classify_entries v es else Ok (mkStore v es [] []));
Ok (versioned_entries v es).
Definition load_lookup_snapshot (now : datetime) (src : source_read) : result map_exn MappingLookupSnapshot :=
'(v, es) ← read_document false true now src;
st ← classify_entries v es;
Ok (mkLookup (dumped es) (dumped (mappings st))).

(** ** Lookups *)

(** The first identity that has a mapping *)
Fixpoint first_found (get : Identity → result map_exn (option ManualMapping)) (identities : list Identity) :
  result map_exn (option ManualMapping) :=
match identities with
| [] => Ok None
| i :: rest => match get i with Err e => Err e | Ok (Some m) => Ok (Some m) | Ok None => first_found get rest end
end.
Definition lookup_in_state (st : ClassifiedStore) (i : Identity) : result map_exn (option ManualMapping) :=
Ok (canonical_mapping <$> dget i (mappings st)).
Definition get_mapping (now : datetime) (src : source_read) (s e : option ustr) (n : Z) (allow_legacy_fallback : bool)
  (loaded : option loaded_entries) : result map_exn (option ManualMapping) :=
let e := resolve_physical_mapping_scope e in
let identities := query_identities s e n allow_legacy_fallback in
match loaded with
| Some (lookup_snapshot l) => first_found (get_identity now l) identities
| Some (snapshot_entries l) => first_found (snapshot_get_identity now l) identities
| Some l => st ← state_from_entries l; first_found (lookup_in_state st) identities
| None => st ← load_state_for_scope now src s e (Some n); first_found (lookup_in_state st) identities
end.

Definition has_legacy_only_mapping (now : datetime) (src : source_read) (s e : option ustr) (n : Z)
  (loaded : option loaded_entries) : result map_exn bool :=
state_entries ← (match loaded with Some l => Ok l | None => load_all now src end);
exact ← get_mapping now src s e n false (Some state_entries);
match exact with
| Some _ => Ok false
| None => found ← get_mapping now src s e n true (Some state_entries); Ok (bool_decide (found ≠ None))
end.

Definition count_for_system (now : datetime) (src : source_read) (s : option ustr) (loaded : option SnapshotEntries) :
  result map_exn nat :=
match s with
| None =>
    st ← (match loaded with None => load_state now src | Some l => state_from_entries (snapshot_entries l) end);
    Ok (length (mappings st))
| Some _ =>
    st ← (match loaded with
          | None => load_state_for_scope now src s None None
          | Some l => state_for_scope (snapshot l) s None None
          end);
    Ok (length (scope_entries st s None))
end.

Definition list_mappings (now : datetime) (src : source_read) (s e : option ustr) : result map_exn (list ManualMapping) :=
let e := resolve_physical_mapping_scope e in
match s with
| Some _ =>
    st ← load_state_for_scope now src s e None;
    Ok (sort_by (λ a b, scope_leb a.1 b.1) (scope_entries st s e)).*2
| None =>
    st ← load_state now src;
    Ok (sort_by (λ a b, identity_leb (identity_of a) (identity_of b))
          (List.filter (λ im, bool_decide (e = None) || bool_decide (im.1.1.2 = e)) (mappings st)).*2)
end.

(** ** Revisions *)

Definition row_payload (row : ClassifiedRow) : json :=
let '(s, e, n) := row_identity row in
JObj [(u "key", JStr (row_key row)); (u "identity", JList [jopt s; jopt e; JInt n]); (u "model", JObj (model_dump (row_stored row)))].
Definition rows_matching (st : ClassifiedStore) (p : Identity → bool) : json :=
JList (row_payload <$> List.filter (λ row, p (row_identity row))
                         (sort_by (λ a b, ustr_leb (row_key a) (row_key b)) (rows st))).

Definition scope_payload (st : ClassifiedStore) (s e : option ustr) : json :=
JObj [(u "version", version st); (u "system_id", jopt s); (u "enclosure_id", jopt e);
      (u "rows", rows_matching st (λ i, import_identity_selected i s e))].
Definition scope_revision_from_state (st : ClassifiedStore) (s e : option ustr) : result map_exn ustr :=
digest (scope_payload st s (resolve_physical_mapping_scope e)).
Definition resolvable_payload (st : ClassifiedStore) (s e : option ustr) (n : Z) : json :=
JObj [(u "version", version st); (u "system_id", jopt s); (u "enclosure_id", jopt e); (u "slot", JInt n);
      (u "rows", rows_matching st (λ i, resolvable_identity_selected i s e n))].
Definition resolvable_revision_from_state (st : ClassifiedStore) (s e : option ustr) (n : Z) : result map_exn ustr :=
digest (resolvable_payload st s (resolve_physical_mapping_scope e) n).
Definition save_payload (s e : option ustr) (n : Z) (scope_revision resolvable_revision : ustr) : json :=
JObj [(u "system_id", jopt s); (u "enclosure_id", jopt e); (u "slot", JInt n);
      (u "scope_revision", JStr scope_revision); (u "resolvable_revision", JStr resolvable_revision)].
Definition save_revision_from_state (st : ClassifiedStore) (s e : option ustr) (n : Z) (scope_revision : option ustr) :
  result map_exn ustr :=
let e := resolve_physical_mapping_scope e in
scope_rev ← (match scope_revision with Some r => Ok r | None => scope_revision_from_state st s e end);
resolvable ← resolvable_revision_from_state st s e n;
digest (save_payload s e n scope_rev resolvable).
(** [state.mappings[identity]] of the first identity that is there *)
Definition effective_mapping (st : ClassifiedStore) (s e : option ustr) (n : Z) : option ManualMapping :=
match omap (λ i, dget i (mappings st)) (query_identities s e n true) with m :: _ => Some m | [] => None end.
Definition clear_revision_from_state (st : ClassifiedStore) (s e : option ustr) (n : Z) : result map_exn ustr :=
let e := resolve_physical_mapping_scope e in
let effective_scope := match effective_mapping st s e n with Some m => enclosure_id m | None => e end in
effective_revision ← scope_revision_from_state st s effective_scope;
resolvable ← resolvable_revision_from_state st s e n;
digest (JObj [(u "enclosure_id", jopt e); (u "slot", JInt n); (u "effective_scope", jopt effective_scope);
              (u "effective_revision", JStr effective_revision); (u "resolvable_revision", JStr resolvable)]).

Definition scope_revision (now : datetime) (src : source_read) (s e : option ustr) : result map_exn ustr :=
st ← load_state_for_scope now src s e None; scope_revision_from_state st s e.
Definition clear_revision (now : datetime) (src : source_read) (s e : option ustr) (n : Z) : result map_exn ustr :=
st ← load_state_for_scope now src s e (Some n); clear_revision_from_state st s e n.
Definition save_revision (now : datetime) (src : source_read) (s e : option ustr) (n : Z) : result map_exn ustr :=
st ← load_state_for_scope now src s e (Some n); save_revision_from_state st s e n None.

(** The batches: one snapshot for all targets. *)
Definition save_revisions (now : datetime) (src : source_read) (s : option ustr) (targets : list ScopeIdentity)
  (loaded : option SnapshotEntries) : result map_exn (list (ScopeIdentity * ustr)) :=
match targets with
| [] => Ok []
| _ =>
    snap ← (match loaded with None => load_scoped_snapshot now src | Some l => Ok (snapshot l) end);
    res_mapM (λ target,
      let e := resolve_physical_mapping_scope target.1 in
      st ← state_for_scope snap s e (Some target.2);
      scope_rev ← scope_revision_from_state st s e;
      r ← save_revision_from_state st s e target.2 (Some scope_rev);
      Ok (target, r)) (fromkeys targets)
end.
Definition clear_revisions (now : datetime) (src : source_read) (s : option ustr) (targets : list ScopeIdentity)
  (loaded : option SnapshotEntries) : result map_exn (list (ScopeIdentity * ustr)) :=
match targets with
| [] => Ok []
| _ =>
    snap ← (match loaded with None => load_scoped_snapshot now src | Some l => Ok (snapshot l) end);
    dupdate [] <$> res_mapM (λ target,
      let e := resolve_physical_mapping_scope target.1 in
      st ← state_for_scope snap s e (Some target.2);
      r ← clear_revision_from_state st s e target.2;
      Ok (target, r)) targets
end.

(** ** Previews *)

Definition import_payload (rev : ustr) (s e : option ustr) (incoming : list (ScopeIdentity * ManualMapping)) : json :=
JObj [(u "revision", JStr rev); (u "system_id", jopt s); (u "enclosure_id", jopt e);
      (u "mappings", JList ((λ im, JObj (semantic_mapping im.2)) <$> sort_by (λ a b, scope_leb a.1 b.1) incoming))].
Definition preview_from_state (st : ClassifiedStore) (s e : option ustr) (incoming : list ManualMapping) :
  result map_exn (Preview * list (ScopeIdentity * ManualMapping)) :=
let e := resolve_physical_mapping_scope e in
let current_scope := scope_entries st s e in
incoming_scope ← normalize_incoming s e incoming;
rev ← scope_revision_from_state st s e;
differences ← res_mapM (difference_of current_scope incoming_scope)
  (sort_by scope_leb (set_order (fromkeys (current_scope.*1 ++ incoming_scope.*1))));
dig ← digest (import_payload rev s e incoming_scope);
Ok (mkPreview rev dig
      (omap (λ d, match d with Addition x => Some x | _ => None end) differences)
      (omap (λ d, match d with Update x => Some x | _ => None end) differences)
      (omap (λ d, match d with Removal x => Some x | _ => None end) differences)
      (omap (λ d, match d with Unchanged x => Some x | _ => None end) differences),
    incoming_scope).
Definition preview_replace_mappings (now : datetime) (src : source_read) (s e : option ustr) (incoming : list ManualMapping) :
  result map_exn Preview :=
st ← load_state_for_scope now src s e None;
fst <$> preview_from_state st s e incoming.
End reads.
