(* ===== verification/MappingStore.v ===== *)
(** * Slot mappings: the store and its file

    The mutations of [MappingStore] in [app/services/mapping_store.py], from the
    read of the file to the journal entry.  A method runs under the lock of the
    store, so it is one operation [op] on the directory ([world]): the file, the
    temporary files left behind, and the calls of [record_config_change].  What
    the operating system does is an argument ([outside_world]): the clock, a read
    that fails, and an outcome for every step of a commit. *)

From S2P Require Import Prelude.
From S2P Require Import PyStr.
From S2P Require Import Calendar.
From S2P Require Import Json.
From S2P Require Import JsonProofs.
From S2P Require Import JsonHook.
From S2P Require Import Dict.
From S2P Require Import Journal.
From S2P Require Import Mapping.
From S2P Require Import MappingReads.
#[local] Open Scope Z_scope.
#[local] Open Scope list_scope.

(** ** The directory *)

Inductive path_state := absent | irregular | regular (content : list Z).
Record world := mkWorld {
  target : path_state;
  leftovers : nat;                      (* temporary files that could not be removed *)
  config_changes : list (ustr * ustr);  (* calls of record_config_change, oldest first *)
}.

(** An attempt to create the temporary file; after [prepare_fails] with
    [known = false] the identity of the new file was never learned. *)
Inductive open_outcome := opened | name_taken | open_fails (e : errno) | prepare_fails (e : errno) (known : bool).
Record commit_script := mkScript {
  opens : nat → open_outcome;
  writes : nat → result errno Z;               (* [handle.write]: bytes written *)
  flush_fault : option errno;
  fsync_fault : option errno;
  close_fault : option errno;
  replace_fault : option errno;
  directory_fault : option errno;              (* opening or syncing the directory *)
  reread_bytes : result errno (option (list Z));     (* [None]: the bytes that were published *)
  unlink_works : bool;
}.
Record outside_world := mkOutsideWorld {
  read_clock : datetime;
  save_clock : datetime;
  stamp_clock : datetime;
  read_fault : option errno;
  script : commit_script;
}.

(** ** Operations *)

Definition op (A : Type) : Type := world → world * result map_exn A.
#[export] Instance op_ret : MRet op := λ A a w, (w, Ok a).
#[export] Instance op_bind : MBind op := λ A B f m w,
  match m w with
  | (w', Ok a) => f a w'
  | (w', Err e) => (w', Err e)
  end.
Definition pure_op {A} (r : result map_exn A) : op A := λ w, (w, r).
Definition raise_op {A} (e : map_exn) : op A := λ w, (w, Err e).

(** [_read_source_bytes]: a symbolic link or a directory is not read. *)
Definition read_source_bytes (o : outside_world) (w : world) : source_read :=
  match read_fault o with
  | Some e => Err e
  | None => match target w with absent => Ok None | irregular => Err NoErrno | regular b => Ok (Some b) end
  end.

(** [record_config_change]: never fails *)
Definition record_config_change (action subject : ustr) : op unit :=
  λ w, (mkWorld (target w) (leftovers w) (config_changes w ++ [(action, subject)]), Ok tt).

(** ** Temporary files *)

Definition TEMP_ATTEMPTS : nat := 128.
(** The failure, and whether a file may have been created *)
Fixpoint create_temp_file (attempts : nat) (opens : nat → open_outcome) : result (errno * option bool) unit :=
  match attempts with
  | O => Err (EEXIST, None)
  | S more =>
      match opens (TEMP_ATTEMPTS - attempts)%nat with
      | opened => Ok tt
      | name_taken => create_temp_file more opens
      | open_fails EEXIST => create_temp_file more opens
      | open_fails e => Err (e, None)
      | prepare_fails e known => Err (e, Some known)
      end
  end.

(** The loop of [_write_temp_bytes]: [n] calls so far, [data] still to write.
    Every turn writes a byte or raises, so the length of [data] is fuel enough. *)
Fixpoint write_temp_bytes (fuel n : nat) (writes : nat → result errno Z) (data : list Z) : result errno unit :=
  match data with
  | [] => Ok tt
  | _ =>
      match fuel with
      | O => Err NoErrno
      | S fuel' =>
          match writes n with
          | Err e => Err e
          | Ok written =>
              if (written <=? 0) || (Z.of_nat (length data) <? written) then Err NoErrno
              else write_temp_bytes fuel' (S n) writes (drop (Z.to_nat written) data)
          end
      end
  end.
Definition fault_step (f : option errno) : result errno unit := match f with Some e => Err e | None => Ok tt end.
Definition write_temp_file (s : commit_script) (data : list Z) : result errno unit :=
  _ ← write_temp_bytes (length data) 0 (writes s) data;
  _ ← fault_step (flush_fault s);
  fault_step (fsync_fault s).

(** ** Failures *)

Definition UNWRITABLE_ERRNOS : list errno := [EACCES; EPERM; EROFS].
Definition is_unwritable_error (e : errno) : bool := bool_decide (e ∈ UNWRITABLE_ERRNOS).
(** [describe_capacity_failure] of an [OSError]: whether it is a quota *)
Definition describe_capacity_failure (e : errno) : option bool :=
  match e with EDQUOT => Some true | ENOSPC => Some false | _ => None end.
(** What [_commit_v2] raises for a failure before the replacement *)
Definition save_refusal (e : errno) : map_exn :=
  match describe_capacity_failure e with
  | Some quota => StorageDirectoryCapacityExhausted quota
  | None => if is_unwritable_error e then MappingStorageUnwritable else OSErr e
  end.

Section store.
Context {ME : MappingEnv}.

(** ** Serialization *)

Definition serialized_row (im : Identity * ManualMapping) : result map_exn (ustr * json) :=
let '((s, e, n), m) := im in
let mapping := with_enclosure e (with_system s (canonical_mapping m)) in
raise: MappingScopeConflict when negb (bool_decide (identity_of mapping = (s, e, n)));
key ← encode_v2_key (s, e, n);
Ok (key, JObj (model_dump mapping)).
Definition store_document (slot_mappings : jdict) (stamp : datetime) : json :=
JObj [(u "slot_mappings", JObj slot_mappings); (u "updated_at", JStr (isoformat_utc stamp)); (u "version", JInt 2)].
Definition dump_line (v : json) : result map_exn (list Z) :=
match dumps recursion_limit v with Ok text => Ok (text ++ [10]) | Err e => Err (DumpError e) end.
(** The text is ASCII, so its bytes are its characters. *)
Definition load_line (data : list Z) : result map_exn json :=
match loads_text dict_hook recursion_limit data with Ok v => Ok v | Err e => Err (LoadError e) end.
Definition raw_mappings_of (decoded : json) : jdict :=
match decoded with
| JObj d => match jget (u "slot_mappings") d with Some (JObj raw) => raw | _ => [] end
| _ => []
end.
Definition serialize_v2 (stamp : datetime) (ms : list (Identity * ManualMapping)) : result map_exn (list Z) :=
serialized ← res_mapM serialized_row (sort_by (λ a b, identity_leb a.1 b.1) ms);
data ← dump_line (store_document (pairs_dict serialized) stamp);
decoded ← load_line data;
again ← dump_line decoded;
raise: MappingScopeConflict when negb (bool_decide (again = data));
es ← document_entries stamp (raw_mappings_of decoded);
_ ← classify_entries (JInt 2) es;
Ok data.

(** [_validate_published_bytes]: any exception is the same failure. *)
Definition validate_published_bytes (now : datetime) (actual : result errno (list Z)) (expected : list Z) :
  result map_exn unit :=
match actual with
| Err e => Err (OSErr e)
| Ok bytes =>
    raise: OSErr NoErrno when negb (bool_decide (bytes = expected));
    payload ← load_line bytes;
    match payload with
    | JObj d =>
        raise: OSErr NoErrno when negb (match jget (u "version") d with Some v => version_is v 2 | None => false end);
        match jget (u "slot_mappings") d with
        | Some (JObj raw) => es ← document_entries now raw; _ ← classify_entries (JInt 2) es; Ok tt
        | _ => Err (OSErr NoErrno)
        end
    | _ => Err (OSErr NoErrno)
    end
end.

(** ** Commit *)

(** The temporary file of a failed commit: [_unlink_owned_temp_file] *)
Definition after_failure (s : commit_script) (removable : bool) (w : world) : world :=
if removable && unlink_works s then w else mkWorld (target w) (S (leftovers w)) (config_changes w).
Definition published_read (s : commit_script) (data : list Z) : result errno (list Z) :=
match reread_bytes s with Err e => Err e | Ok None => Ok data | Ok (Some b) => Ok b end.
Definition commit_bytes (o : outside_world) (data : list Z) : op unit := λ w,
let s := script o in
match create_temp_file TEMP_ATTEMPTS (opens s) with
| Err (e, created) =>
    (match created with Some known => after_failure s known w | None => w end, Err (save_refusal e))
| Ok _ =>
    match write_temp_file s data ≫= λ _, fault_step (close_fault s) ≫= λ _, fault_step (replace_fault s) with
    | Err e => (after_failure s true w, Err (save_refusal e))
    | Ok _ =>
        let w' := mkWorld (regular data) (leftovers w) (config_changes w) in
        match fault_step (directory_fault s), validate_published_bytes (stamp_clock o) (published_read s data) data with
        | Ok _, Ok _ => (w', Ok tt)
        | _, _ => (w', Err MappingDurabilityError)
        end
    end
end.
Definition commit_v2 (o : outside_world) (ms : list (Identity * ManualMapping)) : op unit :=
data ← pure_op (serialize_v2 (stamp_clock o) ms);
commit_bytes o data.

(** ** Mutations *)

Definition load_state_op (o : outside_world) : op ClassifiedStore :=
λ w, (w, load_state (read_clock o) (read_source_bytes o w)).
Definition check_revision (expected : option ustr) (current : result map_exn ustr) : op unit :=
match expected with
| None => mret tt
| Some r =>
    current_revision ← pure_op current;
    if bool_decide (current_revision = r) then mret tt else raise_op (MappingRevisionConflict current_revision)
end.
(** [f"{system_id or ''}:{enclosure_id or ''}"], and with the slot *)
Definition scope_subject (s e : option ustr) : ustr := or_default s [] ++ [58] ++ or_default e [].
Definition slot_subject (s e : option ustr) (n : Z) : ustr := scope_subject s e ++ [58] ++ print_int n.

(** [current] without what a request for the place would find *)
Definition without_resolvable (s e : option ustr) (n : Z) (ms : list (Identity * ManualMapping)) :
  list (Identity * ManualMapping) :=
dkeep (λ i, negb (resolvable_identity_selected i s e n)) ms.

Definition save_mapping (o : outside_world) (mapping : ManualMapping) (expected_revision : option ustr) : op ManualMapping :=
st ← load_state_op o;
let mapping := canonical_mapping mapping in
_ ← check_revision expected_revision
      (save_revision_from_state st (system_id mapping) (enclosure_id mapping) (slot mapping) None);
let saved := with_updated_at (save_clock o) mapping in
let current := without_resolvable (system_id mapping) (enclosure_id mapping) (slot mapping) (mappings st) in
_ ← commit_v2 o (dset (identity_of saved) saved current);
_ ← record_config_change (u "mapping.save") (slot_subject (system_id saved) (enclosure_id saved) (slot saved));
mret saved.

Definition clear_mapping (o : outside_world) (s e : option ustr) (n : Z) (expected_revision : option ustr) : op bool :=
st ← load_state_op o;
let e := resolve_physical_mapping_scope e in
_ ← check_revision expected_revision (clear_revision_from_state st s e n);
match effective_mapping st s e n with
| None => mret false
| Some _ =>
    _ ← commit_v2 o (without_resolvable s e n (mappings st));
    _ ← record_config_change (u "mapping.clear") (slot_subject s e n);
    mret true
end.

(** The incoming mappings, stamped, over what is kept *)
Definition with_incoming (o : outside_world) (incoming : list (ScopeIdentity * ManualMapping))
  (kept : list (Identity * ManualMapping)) : list (Identity * ManualMapping) :=
dupdate kept ((λ im, let saved := with_updated_at (save_clock o) im.2 in (identity_of saved, saved)) <$> incoming).

Definition replace_mappings (o : outside_world) (s e : option ustr) (ms : list ManualMapping) : op nat :=
st ← load_state_op o;
let e := resolve_physical_mapping_scope e in
incoming ← pure_op (normalize_incoming s e ms);
let kept := dkeep (λ i, negb (replace_identity_selected i s e)) (mappings st) in
_ ← commit_v2 o (with_incoming o incoming kept);
_ ← record_config_change (u "mapping.replace") (scope_subject s e);
mret (length incoming).

Record ImportResult := mkImportResult { saved_count : nat; import_revision : ustr; import_preview : Preview }.

(** The state that the written document will be classified into *)
Definition final_state (ms : list (Identity * ManualMapping)) : result map_exn ClassifiedStore :=
es ← res_mapM (λ im : Identity * ManualMapping, key ← encode_v2_key im.1; Ok (key, im.2)) ms;
classify_entries (JInt 2) (dupdate [] es).
Definition apply_mapping_import (o : outside_world) (s e : option ustr) (ms : list ManualMapping)
  (expected_revision digest : ustr) : op ImportResult :=
st ← load_state_op o;
let e := resolve_physical_mapping_scope e in
pi ← pure_op (preview_from_state st s e ms);
let preview : Preview := pi.1 in
let incoming : list (ScopeIdentity * ManualMapping) := pi.2 in
_ ← (if bool_decide (revision preview = expected_revision) then mret tt
     else raise_op (MappingRevisionConflict (revision preview)));
_ ← (if bool_decide (import_digest preview = digest) then mret tt
     else raise_op (MappingImportDigestMismatch (revision preview) (import_digest preview)));
let kept := dkeep (λ i, negb (import_identity_selected i s e)) (mappings st) in
let current := with_incoming o incoming kept in
_ ← commit_v2 o current;
_ ← record_config_change (u "mapping.import") (scope_subject s e);
final ← pure_op (final_state current);
final_preview ← pure_op (preview_from_state final s e incoming.*2);
mret (mkImportResult (length incoming) (revision final_preview.1) preview).
End store.
