(* ===== verification/MappingKeys.v ===== *)
(** * Slot mappings: what keys and rows read back as

    Scopes are resolved once and for all; keys of version 2 and identities are
    one to one; a row that is written is read back with its texts trimmed again
    ([reread]), which changes them at most once. *)

From S2P Require Import Prelude.
From S2P Require Import PyStr.
From S2P Require Import Calendar.
From S2P Require Import Json.
From S2P Require Import JsonProofs.
From S2P Require Import JsonHook.
From S2P Require Import Dict.
From S2P Require Import Journal.
From S2P Require Import Mapping.
#[local] Open Scope Z_scope.
#[local] Open Scope list_scope.

(** ** Scopes *)

Lemma resolve_idempotent e :
  resolve_physical_mapping_scope (resolve_physical_mapping_scope e) = resolve_physical_mapping_scope e.
Proof.
  destruct e as [[|c s]|]; [done| |done]. unfold resolve_physical_mapping_scope at 2 3.
  destruct (rpartition SEPARATOR (c :: s)) as [[ph pr]|] eqn:E.
  2: { cbn. cbn in E. by rewrite E. }
  destruct (non_empty ph && is_drawer pr && negb _) eqn:Ec.
  - to_prop. destruct ph as [|c' ph]; [done|]. cbn [resolve_physical_mapping_scope].
    destruct (rpartition SEPARATOR (c' :: ph)) as [[ph2 pr2]|]; [|done].
    rewrite H0. by rewrite andb_false_r.
  - cbn [resolve_physical_mapping_scope]. by rewrite E, Ec.
Qed.
Lemma canonical_canonical m : canonical_mapping (canonical_mapping m) = canonical_mapping m.
Proof. unfold canonical_mapping, with_enclosure. cbn. by rewrite resolve_idempotent. Qed.
Lemma canonical_id m : resolve_physical_mapping_scope (enclosure_id m) = enclosure_id m → canonical_mapping m = m.
Proof. intros H. unfold canonical_mapping, with_enclosure. rewrite H. by destruct m. Qed.

(** ** Texts *)

Definition scalar_text (o : option ustr) : bool := match o with Some s => scalars s | None => true end.
Lemma plain_jopt o : plain (jopt o) = scalar_text o.
Proof. by destruct o. Qed.
Lemma normal_jopt o : normal (jopt o) = jopt o.
Proof. by destruct o. Qed.
Lemma dumps_jopt `{FL : Floats} d o : is_ok (dumps d (jopt o)) = true.
Proof. by destruct o. Qed.

(** An identity as the store files it *)
Definition filed_identity (i : Identity) : Prop :=
  let '(s, e, _) := i in
  scalar_text s = true ∧ scalar_text e = true ∧ resolve_physical_mapping_scope e = e.

Lemma ends_nil : ends_number [].
Proof. done. Qed.

Section keys.
Context {ME : MappingEnv}.

Lemma decode_encoded i k : filed_identity i → encode_v2_key i = Ok k → decode_v2_key k = Ok i.
Proof.
  destruct i as [[s e] n]. intros (Hs & He & Hr) Hk. pose proof Hk as Hk'. unfold encode_v2_key in Hk. rewrite Hr in Hk.
  destruct (dumps recursion_limit (JList [jopt s; jopt e; JInt n])) as [t|] eqn:E; [|done].
  assert (strip_prefix (u "v2:") k = Some t) as Hp by (assert (k = u "v2:" ++ t) as -> by congruence; apply strip_prefix_app).
  assert (plain (JList [jopt s; jopt e; JInt n]) = true) as Hpl by (cbn; by rewrite !plain_jopt, Hs, He).
  pose proof (loads_text_dumps dict_hook dict_hook_distinct _ _ t [] Hpl E eq_refl ends_nil) as Hl.
  rewrite app_nil_r in Hl. unfold decode_v2_key. rewrite Hp, Hl. cbn [normal fmap list_fmap]. rewrite !normal_jopt.
  destruct s, e; cbn [jopt opt_text int_of mbind result_bind]; rewrite Hk'; cbn [mbind result_bind];
    by rewrite bool_decide_eq_true_2.
Qed.
Lemma encoded_decode k i : decode_v2_key k = Ok i → encode_v2_key i = Ok k.
Proof.
  unfold decode_v2_key. destruct (strip_prefix _ k) as [t|]; [|done].
  destruct (loads_text dict_hook recursion_limit t) as [v|[]]; try done.
  destruct v as [| | | | |[|s [|e [|n [|]]]]|]; try done. intros H. inv_ok H. subst i. to_prop. by subst.
Qed.

(** [C29] Keys and identities are one to one: the key of an identity as the store
    files it, an enclosure rather than one of its drawers and texts that can be
    encoded, is decoded to that identity, and an identity that a key is decoded to
    has that key, so that two rows with one identity have one key. *)
Theorem v2_key_roundtrip (i : Identity) (k : ustr) (Hi : filed_identity i) :
  encode_v2_key i = Ok k ↔ decode_v2_key k = Ok i.
Proof. split; [by apply decode_encoded|apply encoded_decode]. Qed.
End keys.

(** ** Trimmed texts *)

Definition trimmed (o : option ustr) : Prop := trim_strings o = o.
Lemma trim_stripped s : stripped s → (length s <= 256)%nat → trimmed (Some s).
Proof.
  intros [Hne Hs] Hl. unfold trimmed, trim_strings. rewrite Hs. destruct s; [done|]. by rewrite take_ge.
Qed.
(** A second trimming settles it: the first may cut a text off behind a space. *)
Lemma trim_settles o : trimmed (trim_strings (trim_strings o)).
Proof.
  destruct o as [s|]; [|done]. unfold trim_strings at 2. destruct (ustrip s) as [|c t] eqn:E; [done|].
  unfold trim_strings at 1. destruct (ustrip (take 256 (c :: t))) as [|c2 t2] eqn:E2; [done|].
  assert (length (c2 :: t2) <= 256)%nat as Hl.
  { rewrite <-E2. unfold ustrip. rewrite !length_rev.
    etrans; [apply drop_while_length|]. rewrite length_rev. etrans; [apply drop_while_length|].
    rewrite length_take. lia. }
  rewrite take_ge by lia. apply trim_stripped; [|done]. rewrite <-E2. apply ustrip_stripped. by rewrite E2.
Qed.
Example trimming_twice :
  let name := repeat 97 255 ++ [32; 98] in
  trim_strings (Some name) = Some (repeat 97 255 ++ [32])
  ∧ trim_strings (trim_strings (Some name)) = Some (repeat 97 255).
Proof. vm_compute. auto. Qed.

Lemma scalars_sub (f : ustr → ustr) s : (∀ c, c ∈ f s → c ∈ s) → scalars s = true → scalars (f s) = true.
Proof. rewrite !scalars_Forall, !Forall_forall. auto. Qed.
Lemma drop_while_elem {A} (p : A → bool) l x : x ∈ drop_while p l → x ∈ l.
Proof. induction l as [|y l IH]; cbn; [done|]. destruct (p y); [|done]. intros H. right. auto. Qed.
Lemma trim_scalar o : scalar_text o = true → scalar_text (trim_strings o) = true.
Proof.
  destruct o as [s|]; [|done]. unfold trim_strings. cbn [scalar_text]. intros Hs.
  assert (scalars (take 256 (ustrip s)) = true) as H; [|by destruct (ustrip s)].
  apply (scalars_sub (λ s, take 256 (ustrip s))); [|done]. intros x Hx.
  assert (x ∈ ustrip s) as H1 by (apply elem_of_take in Hx as (? & ? & _); by eapply list_elem_of_lookup_2).
  unfold ustrip in H1. rewrite list_elem_of_In, <-in_rev, <-list_elem_of_In in H1. apply drop_while_elem in H1.
  rewrite list_elem_of_In, <-in_rev, <-list_elem_of_In in H1. by apply drop_while_elem in H1.
Qed.

(** ** Rows *)

Section rows.
Context {ME : MappingEnv} {MEL : MappingEnvLaws ME}.

(** What pydantic guarantees of a model: its texts can be encoded and its time
    is read back. *)
Record row_ok (m : ManualMapping) : Prop := {
  ok_system : scalar_text (system_id m) = true;
  ok_enclosure : scalar_text (enclosure_id m) = true;
  ok_serial : scalar_text (serial m) = true;
  ok_device : scalar_text (device_name m) = true;
  ok_gptid : scalar_text (gptid m) = true;
  ok_notes : scalar_text (notes m) = true;
  ok_source : scalars (source m) = true;
  ok_time : validate_datetime (JStr (dump_datetime (updated_at m))) = Some (updated_at m);
}.
(** What a row reads back as *)
Definition reread (m : ManualMapping) : ManualMapping :=
mkMapping (system_id m) (slot m) (enclosure_id m) (trim_strings (serial m)) (trim_strings (device_name m))
  (trim_strings (gptid m)) (trim_strings (notes m)) (updated_at m) (source m).
Definition settled (m : ManualMapping) : Prop := reread m = m.

Lemma reread_settles m : settled (reread (reread m)).
Proof. unfold settled, reread. cbn. by rewrite !trim_settles. Qed.
Lemma reread_ok m : row_ok m → row_ok (reread m).
Proof. intros []. split; cbn; auto using trim_scalar. Qed.
Lemma canonical_reread m : canonical_mapping (reread m) = reread (canonical_mapping m).
Proof. done. Qed.
Lemma identity_reread m : identity_of (reread m) = identity_of m.
Proof. done. Qed.

Lemma field_opt_Some name raw v : field_opt name raw = Some v → scalar_text v = true.
Proof. unfold field_opt. intros H. repeat case_match; simplify_eq; done. Qed.
Lemma field_str_Some name d raw v : scalars d = true → field_str name d raw = Some v → scalars v = true.
Proof. unfold field_str. intros Hd H. repeat case_match; simplify_eq; done. Qed.

(** A validated row is a good row. *)
Lemma model_validate_ok now raw m : is_utc now → model_validate now raw = Some m → row_ok m.
Proof.
  intros Hnow H. unfold model_validate in H. repeat (apply bind_Some in H as (? & ? & H)).
  injection H as <-. split; cbn [system_id enclosure_id serial device_name gptid notes source updated_at];
    eauto using trim_scalar, field_opt_Some.
  { by eapply (field_str_Some _ (u "manual")). }
  destruct (jget (u "updated_at") raw) as [v|].
  - by eapply datetime_revalidates.
  - simplify_eq. by apply datetime_utc_validates.
Qed.
Lemma validate_raw_ok now raw m : is_utc now → validate_raw_model now raw = Ok m → row_ok m.
Proof.
  intros Hnow H. unfold validate_raw_model in H. destruct raw; try done. repeat case_match; simplify_eq.
  by eapply model_validate_ok.
Qed.

(** Only the lookups of a raw row count. *)
Lemma model_validate_ext now raw raw' : (∀ k, jget k raw = jget k raw') → model_validate now raw = model_validate now raw'.
Proof. intros H. unfold model_validate, field_opt, field_str. by rewrite !H. Qed.
Lemma validate_raw_ext now raw raw' : (∀ k, jget k raw = jget k raw') →
  validate_raw_model now (JObj raw) = validate_raw_model now (JObj raw').
Proof. intros H. cbn. by rewrite !H, (model_validate_ext now raw raw'). Qed.

Lemma field_opt_dump name raw v : jget name raw = Some (jopt v) → scalar_text v = true → field_opt name raw = Some v.
Proof. unfold field_opt. intros -> H. destruct v; cbn in *; [by rewrite H|done]. Qed.
Lemma model_validate_dump now m : row_ok m → model_validate now (model_dump m) = Some (reread m).
Proof.
  intros []. unfold model_validate.
  rewrite (field_opt_dump (u "system_id") _ (system_id m)), (field_opt_dump (u "enclosure_id") _ (enclosure_id m)),
    (field_opt_dump (u "serial") _ (serial m)), (field_opt_dump (u "device_name") _ (device_name m)),
    (field_opt_dump (u "gptid") _ (gptid m)), (field_opt_dump (u "notes") _ (notes m)) by done.
  change (jget (u "slot") (model_dump m)) with (Some (JInt (slot m))).
  change (jget (u "updated_at") (model_dump m)) with (Some (JStr (dump_datetime (updated_at m)))).
  unfold field_str. change (jget (u "source") (model_dump m)) with (Some (JStr (source m))).
  cbn [mbind option_bind]. rewrite ok_time0. cbn [mbind option_bind]. by rewrite ok_source0.
Qed.
Lemma validate_raw_dump now m : row_ok m → validate_raw_model now (JObj (model_dump m)) = Ok (reread m).
Proof.
  intros Hm. cbn [validate_raw_model]. rewrite model_validate_dump by done.
  change (jget (u "slot") (model_dump m)) with (Some (JInt (slot m))).
  change (jget (u "system_id") (model_dump m)) with (Some (jopt (system_id m))).
  change (jget (u "enclosure_id") (model_dump m)) with (Some (jopt (enclosure_id m))).
  by destruct (system_id m), (enclosure_id m).
Qed.
Lemma plain_dump m : row_ok m → plain (JObj (model_dump m)) = true.
Proof.
  intros []. cbn [plain]. apply andb_true_iff. split; [by apply bool_decide_eq_true, (bool_decide_unpack _)|].
  unfold model_dump. cbn [forallb fst snd]. rewrite !plain_jopt. cbn [plain].
  by rewrite ok_system0, ok_enclosure0, ok_serial0, ok_device0, ok_gptid0, ok_notes0, ok_source0, datetime_dump_scalars.
Qed.
End rows.
