(* ===== verification/MappingClassify.v ===== *)
(** * Slot mappings: what classification gives

    A classified store files every mapping under its own identity, in the
    physical enclosure, once per identity ([store_ok]), from rows that pydantic
    accepted ([rows_ok]).  In version 2 every row has its own identity.  The
    classification for a scope has the rows of the whole one whenever that one
    succeeds. *)

From S2P Require Import Prelude.
From S2P Require Import PyStr.
From S2P Require Import Calendar.
From S2P Require Import Json.
From S2P Require Import JsonProofs.
From S2P Require Import JsonHook.
From S2P Require Import Dict.
From S2P Require Import Journal.
From S2P Require Import Mapping.
From S2P Require Import MappingReads.
From S2P Require Import MappingKeys.
#[local] Open Scope Z_scope.
#[local] Open Scope list_scope.

(** ** Filed mappings *)

Definition filed (m : ManualMapping) : Prop := canonical_mapping m = m.
Record store_ok (ms : list (Identity * ManualMapping)) : Prop := {
  sok_keys : NoDup ms.*1;
  sok_filed : ∀ i m, (i, m) ∈ ms → identity_of m = i ∧ filed m;
}.
Lemma filed_resolve m : filed m ↔ resolve_physical_mapping_scope (enclosure_id m) = enclosure_id m.
Proof.
  split; [|apply canonical_id]. unfold filed, canonical_mapping, with_enclosure. destruct m. cbn. by intros [=].
Qed.
Lemma store_ok_get ms i m : store_ok ms → dget i ms = Some m → identity_of m = i ∧ filed m.
Proof. intros [_ H] Hg. apply H. by apply dget_in. Qed.
Lemma store_ok_set ms m : store_ok ms → filed m → store_ok (dset (identity_of m) m ms).
Proof.
  intros [Hk Hf] Hm. split; [by apply dset_NoDup|]. intros i m'. rewrite dset_elem by done.
  intros [[-> ->]|[_ Hin]]; [done|auto].
Qed.
Lemma store_ok_keep p ms : store_ok ms → store_ok (dkeep p ms).
Proof. intros [Hk Hf]. split; [by apply dkeep_NoDup|]. intros i m [Hin _]%elem_of_filter_list. auto. Qed.
#[export] Hint Resolve store_ok_set store_ok_keep : py.

Lemma rpartition_app sep s h t : rpartition sep s = Some (h, t) → s = h ++ sep ++ t.
Proof.
  revert h; induction s as [|c s IH]; intros h; cbn; [done|].
  destruct (rpartition sep s) as [[h' t']|].
  - intros [= <- <-]. cbn. f_equal. by apply IH.
  - destruct (strip_prefix sep (c :: s)) eqn:E; [|done]. intros [= <- <-]. by apply strip_prefix_Some in E.
Qed.
Lemma scalars_app s t : scalars (s ++ t) = scalars s && scalars t.
Proof. unfold scalars. apply forallb_app. Qed.
Lemma resolve_scalar e : scalar_text e = true → scalar_text (resolve_physical_mapping_scope e) = true.
Proof.
  destruct e as [[|c s]|]; [done| |done]. intros H. cbn [resolve_physical_mapping_scope].
  destruct (rpartition SEPARATOR (c :: s)) as [[ph pr]|] eqn:E; [|done].
  destruct (non_empty ph && is_drawer pr && negb _); [|done]. apply rpartition_app in E. cbn [scalar_text] in *.
  rewrite E, scalars_app in H. by apply andb_true_iff in H as [H _].
Qed.

Section classify.
Context {ME : MappingEnv} {MEL : MappingEnvLaws ME}.

Lemma row_ok_canonical m : row_ok m → row_ok (canonical_mapping m).
Proof. intros []. split; cbn; auto using resolve_scalar. Qed.
Lemma row_ok_system s m : scalar_text s = true → row_ok m → row_ok (with_system s m).
Proof. intros ? []. by split. Qed.
Lemma row_ok_updated t m : is_utc t → row_ok m → row_ok (with_updated_at t m).
Proof. intros Ht []. split; try done. by apply datetime_utc_validates. Qed.
Definition rows_ok (ms : list (Identity * ManualMapping)) : Prop := ∀ i m, (i, m) ∈ ms → row_ok m.

(** ** Rows *)

(** What version 1 may take from a key is a system, a part of the key. *)
Lemma key_owners_scalar key tokens n o : scalars key = true → o ∈ key_owners key tokens n → scalar_text o = true.
Proof.
  intros Hk. induction tokens as [|t tokens IH]; [by intros ?%not_elem_of_nil|]. cbn [key_owners].
  intros [Hin|Hin]%elem_of_app; [|by apply IH]. destruct (_ && _); [|by apply not_elem_of_nil in Hin].
  destruct (take _ key) as [|c s] eqn:E; [by apply not_elem_of_nil in Hin|]. apply list_elem_of_singleton in Hin as ->.
  case_bool_decide; [done|]. cbn [scalar_text]. rewrite <-E. by apply forallb_take.
Qed.
Lemma classify_row_spec v key m row : classify_row v key m = Ok row →
  row_key row = key ∧ row_stored row = m ∧ identity_of (row_canonical row) = row_identity row
  ∧ filed (row_canonical row) ∧ (scalars key = true ∨ version_is v 1 = false → row_ok m → row_ok (row_canonical row)).
Proof.
  unfold classify_row. destruct (version_is v 1).
  - unfold classify_v1. destruct (system_id (canonical_mapping m)) as [s|] eqn:Es.
    + destruct (negb _); [done|]. intros [= <-]. cbn. split_and!; try done.
      * by rewrite <-Es.
      * by apply canonical_canonical.
      * intros _. apply row_ok_canonical.
    + case_bool_decide.
      * intros [= <-]. cbn. split_and!; try done; [by rewrite <-Es|by apply canonical_canonical|].
        intros _. apply row_ok_canonical.
      * destruct (fromkeys (key_owners _ _ _)) as [|o [|]] eqn:E; try done. intros [= <-]. cbn.
        split_and!; try done.
        { unfold filed, canonical_mapping, with_enclosure, with_system. cbn. by rewrite resolve_idempotent. }
        intros [Hk|]; [|done]. intros Hm. apply row_ok_system; [|by apply row_ok_canonical].
        eapply key_owners_scalar; [exact Hk|]. apply elem_of_fromkeys. rewrite E. left.
  - destruct (version_is v 2); [|done]. intros H. inv_ok H. subst row. cbn. to_prop.
    split_and!; try done; [by apply canonical_canonical|]. intros _. apply row_ok_canonical.
Qed.

Lemma winner_of_spec leb rs m : winner_of leb rs = Ok m → ∃ row, row ∈ rs ∧ row_canonical row = m.
Proof.
  unfold winner_of. destruct (max_by leb rs) as [row|] eqn:E; [|done]. intros [= <-].
  apply max_by_elem in E. by exists row.
Qed.
Lemma settle_group_spec g im : settle_group g = Ok im →
  im.1 = g.1 ∧ ∃ row, row ∈ g.2 ∧ row_canonical row = im.2.
Proof.
  unfold settle_group. intros H. destruct (semantic_rows g.2); [|done]. cbn [mbind result_bind] in H.
  destruct (negb _); [done|]. destruct (winner_of _ _) as [w|] eqn:E; [|done]. injection H as <-. split; [done|].
  by apply winner_of_spec in E.
Qed.
Lemma settle_scoped_spec g imb : settle_scoped g = Ok imb →
  imb.1.1 = g.1 ∧ ∃ row, row ∈ g.2 ∧ row_canonical row = imb.1.2.
Proof.
  unfold settle_scoped. intros H. destruct (semantic_rows g.2); [|done]. cbn [mbind result_bind] in H.
  destruct (winner_of _ _) as [w|] eqn:E; [|done]. injection H as <-. split; [done|].
  by apply winner_of_spec in E.
Qed.

(** The rows of the entries, and the mappings settled from them *)
Record classified (v : json) (es : list (ustr * ManualMapping)) (st : ClassifiedStore) : Prop := {
  cl_version : version st = v;
  cl_entries : entries st = es;
  cl_rows : Forall2 (λ kv row, classify_row v kv.1 kv.2 = Ok row) es (rows st);
  cl_keys : (mappings st).*1 = (group_by row_identity (rows st)).*1;
  cl_source : ∀ i m, (i, m) ∈ mappings st → ∃ row, row ∈ rows st ∧ row_identity row = i ∧ row_canonical row = m;
}.
Lemma settled_source {X} (f : Identity * list ClassifiedRow → result map_exn X) (im : X → Identity * ManualMapping) rs xs :
  (∀ g x, f g = Ok x → (im x).1 = g.1 ∧ ∃ row, row ∈ g.2 ∧ row_canonical row = (im x).2) →
  res_mapM f (group_by row_identity rs) = Ok xs →
  (im <$> xs).*1 = (group_by row_identity rs).*1 ∧
  ∀ i m, (i, m) ∈ im <$> xs → ∃ row, row ∈ rs ∧ row_identity row = i ∧ row_canonical row = m.
Proof.
  intros Hf H%res_mapM_Ok. split.
  - induction H as [|g x gs xs Hg _ IH]; [done|]. cbn. rewrite IH. f_equal. by apply Hf in Hg as [? _].
  - intros i m (x & Hx & Hin)%list_elem_of_fmap. apply list_elem_of_lookup in Hin as [n Hn].
    destruct (Forall2_lookup_r _ _ _ _ _ H Hn) as (g & Hg & Hgx). apply Hf in Hgx as (H1 & row & Hr & H2).
    apply list_elem_of_lookup_2 in Hg. destruct g as [k ys]. apply elem_of_group_by in Hg as [-> _].
    cbn in H1, Hr. apply elem_of_group in Hr as [Hr Hk]. exists row. rewrite <-Hx in H1, H2. cbn in H1, H2. naive_solver.
Qed.
Lemma classify_entries_spec v es st : classify_entries v es = Ok st → classified v es st.
Proof.
  unfold classify_entries. destruct (res_mapM _ es) as [rs|] eqn:Er; [|done]. cbn [mbind result_bind].
  destruct (res_mapM settle_group _) as [ms|] eqn:Em; [|done]. intros [= <-].
  destruct (settled_source settle_group id rs ms settle_group_spec Em) as [H1 H2]. rewrite list_fmap_id in H1, H2.
  split; try done. by apply res_mapM_Ok.
Qed.
Lemma classified_row v es st row : classified v es st → row ∈ rows st →
  ∃ kv, kv ∈ es ∧ classify_row v kv.1 kv.2 = Ok row.
Proof.
  intros H [n Hn]%list_elem_of_lookup. destruct (Forall2_lookup_r _ _ _ _ _ (cl_rows _ _ _ H) Hn) as (kv & Hk & Hr).
  exists kv. split; [by eapply list_elem_of_lookup_2|done].
Qed.
Lemma classified_ok v es st : classified v es st → store_ok (mappings st).
Proof.
  intros H. split.
  - rewrite (cl_keys _ _ _ H). apply group_by_NoDup.
  - intros i m Hin. destruct (cl_source _ _ _ H i m Hin) as (row & Hr & <- & <-).
    destruct (classified_row _ _ _ _ H Hr) as (kv & _ & Hc). by apply classify_row_spec in Hc as (_ & _ & ? & ? & _).
Qed.
Definition keys_ok (v : json) (es : list (ustr * ManualMapping)) : Prop :=
version_is v 1 = false ∨ ∀ kv, kv ∈ es → scalars kv.1 = true.
Lemma classified_rows_ok v es st : classified v es st → keys_ok v es → (∀ kv, kv ∈ es → row_ok kv.2) →
  rows_ok (mappings st).
Proof.
  intros H Hk He i m Hin. destruct (cl_source _ _ _ H i m Hin) as (row & Hr & <- & <-).
  destruct (classified_row _ _ _ _ H Hr) as (kv & Hkv & Hc). apply classify_row_spec in Hc as (_ & _ & _ & _ & Hc).
  apply Hc; [|by apply He]. destruct Hk; [by right|left; auto].
Qed.

(** ** Version 2 *)

Lemma classify_v2 v kv row : version_is v 1 = false → classify_row v kv.1 kv.2 = Ok row →
  decode_v2_key kv.1 = Ok (row_identity row)
  ∧ row = mkRow kv.1 kv.2 (identity_of (canonical_mapping kv.2)) (canonical_mapping kv.2).
Proof.
  intros Hv H. unfold classify_row in H. rewrite Hv in H. destruct (version_is v 2); [|done].
  destruct (decode_v2_key kv.1) as [i|]; [|done]. cbn [mbind result_bind] in H.
  case_bool_decide as E; [|done]. injection H as <-. cbn. by rewrite E.
Qed.
(** One row per identity, and so one mapping per row *)
Lemma classified_v2 v es st : classified v es st → version_is v 1 = false → NoDup es.*1 →
  rows st = (λ kv, mkRow kv.1 kv.2 (identity_of (canonical_mapping kv.2)) (canonical_mapping kv.2)) <$> es
  ∧ NoDup (row_identity <$> rows st)
  ∧ mappings st = (λ row, (row_identity row, row_canonical row)) <$> rows st.
Proof.
  intros H Hv Hnd. pose proof (cl_rows _ _ _ H) as Hr.
  assert (rows st = (λ kv, mkRow kv.1 kv.2 (identity_of (canonical_mapping kv.2)) (canonical_mapping kv.2)) <$> es) as E.
  { clear -Hr Hv. induction Hr as [|kv row es rs Hk _ IH]; [done|]. cbn. rewrite <-IH. f_equal. by apply (classify_v2 v). }
  assert (NoDup (row_identity <$> rows st)) as Hi.
  { clear -Hr Hv Hnd. induction Hr as [|kv row es rs Hk Hr IH]; [constructor|]. cbn in *.
    apply NoDup_cons in Hnd as [Hn Hnd]. apply NoDup_cons. split; [|auto].
    intros (row' & Hid & Hin)%list_elem_of_fmap. apply list_elem_of_lookup in Hin as [n Hn'].
    destruct (Forall2_lookup_r _ _ _ _ _ Hr Hn') as (kv' & Hkv' & Hc').
    apply (classify_v2 v) in Hk as [Hk _]; [|done]. apply (classify_v2 v) in Hc' as [Hc' _]; [|done].
    apply encoded_decode in Hk, Hc'. rewrite Hid in Hk. rewrite Hk in Hc'. injection Hc' as Hc'.
    apply Hn. rewrite Hc'. apply list_elem_of_fmap_2. by eapply list_elem_of_lookup_2. }
  split_and!; [done|done|].
  pose proof (cl_keys _ _ _ H) as Hkeys. rewrite group_by_distinct in Hkeys by done. rewrite <-list_fmap_compose in Hkeys.
  pose proof (cl_source _ _ _ H) as Hs. clear -Hkeys Hs Hi.
  assert (∀ row i m, row ∈ rows st → (i, m) ∈ mappings st → i = row_identity row → m = row_canonical row) as Huniq.
  { intros row i m Hr Him ->. destruct (Hs _ _ Him) as (row' & Hr' & Hid & <-).
    apply list_elem_of_lookup in Hr as [a Ha]. apply list_elem_of_lookup in Hr' as [b Hb].
    assert (a = b) as ->; [|congruence].
    apply (NoDup_lookup _ _ _ (row_identity row) Hi); rewrite list_lookup_fmap; [by rewrite Ha|rewrite Hb; cbn; by rewrite Hid]. }
  clear Hs Hi. revert Hkeys Huniq. generalize (mappings st) as ms, (rows st) as rs.
  induction ms as [|[i m] ms IH]; intros [|row rs] Hk Hu; try done. cbn in Hk |- *. injection Hk as Hi Hk. f_equal.
  - f_equal; [done|]. eapply Hu; [left|left|done].
  - apply IH; [done|]. intros row' i' m' Hr' Him'. apply Hu; by right.
Qed.

(** ** The classification for scopes *)

Lemma classify_or_keep_all v es rs : Forall2 (λ kv row, classify_row v kv.1 kv.2 = Ok row) es rs →
  res_mapM (classify_or_keep v) es = Ok (inl <$> rs).
Proof.
  intros H. apply res_mapM_Ok. induction H as [|kv row es rs Hk _ IH]; [constructor|]. cbn. constructor; [|done].
  unfold classify_or_keep. by rewrite Hk.
Qed.
Lemma omap_inl {A B} (l : list A) :
  omap (λ c : A + B, match c with inl x => Some x | inr _ => None end) (inl <$> l) = l
  ∧ omap (λ c : A + B, match c with inl _ => None | inr y => Some y end) (inl <$> l) = [].
Proof. induction l as [|x l [IH1 IH2]]; [done|]. cbn. split; [f_equal; done|done]. Qed.
Lemma scoped_of_classified v es st snap : classify_entries v es = Ok st → classify_scoped v es = Ok snap →
  invalid_rows snap = [] ∧ classified v es (state snap) ∧ rows (state snap) = rows st.
Proof.
  intros H Hs. apply classify_entries_spec in H. unfold classify_scoped in Hs.
  rewrite (classify_or_keep_all v es (rows st)) in Hs by apply H. cbn [mbind result_bind] in Hs.
  destruct (omap_inl (B := ustr * ManualMapping) (rows st)) as [E1 E2]. rewrite E1, E2 in Hs.
  destruct (res_mapM settle_scoped _) as [gs|] eqn:E; [|done]. injection Hs as <-.
  destruct (settled_source settle_scoped fst (rows st) gs settle_scoped_spec E) as [H1 H2].
  split_and!; [done| |done]. split; try done. apply H.
Qed.
(** A state for a scope is the state of the snapshot. *)
Lemma state_for_scope_state snap s e sl st : state_for_scope snap s e sl = Ok st → st = state snap.
Proof.
  unfold state_for_scope. destruct (any_of _ _) as [b|]; [|done]. cbn [mbind result_bind].
  destruct b; [done|]. destruct (existsb _ _); [done|]. destruct (existsb _ _); [done|]. by intros [= <-].
Qed.
End classify.
