(* ===== verification/MappingDocuments.v ===== *)
(** * Slot mappings: the document on disk

    A filed store is always serialized, unless a numeral is too long, and the
    document reads back as the store with every row read again; reading it for a
    scope gives the same state. *)

From S2P Require Import Prelude.
From S2P Require Import PyStr.
From S2P Require Import Calendar.
From S2P Require Import Json.
From S2P Require Import JsonProofs.
From S2P Require Import JsonHook.
From S2P Require Import Dict.
From S2P Require Import Journal.
From S2P Require Import JournalLines.
From S2P Require Import JournalRecords.
From S2P Require Import Mapping.
From S2P Require Import MappingReads.
From S2P Require Import MappingStore.
From S2P Require Import MappingKeys.
From S2P Require Import MappingClassify.
#[local] Open Scope Z_scope.
#[local] Open Scope list_scope.

(** ** Bytes *)

Definition ascii_char (c : Z) : Prop := 0 <= c < 128.
Lemma utf8_ascii s : Forall ascii_char s → utf8_text s = Some s.
Proof.
  intros H. assert (utf8_decode s = Some s) as E.
  { induction H as [|c s Hc _ IH]; [done|]. unfold ascii_char in Hc. cbn [utf8_decode]. rewrite IH.
    by rewrite (proj2 (Z.ltb_lt c 128)) by lia. }
  unfold utf8_text. rewrite E. assert (scalars s = true) as ->; [|done].
  apply scalars_Forall. eapply Forall_impl; [exact H|]. intros c Hc. apply is_scalar_spec. unfold ascii_char in Hc. lia.
Qed.
Lemma isoformat_scalars d : is_utc d → scalars (isoformat_utc d) = true.
Proof.
  intros Hd. unfold isoformat_utc. rewrite scalars_app. apply andb_true_iff. split; [|done].
  apply scalars_Forall. eapply Forall_impl; [by apply iso_body_spec|]. intros c Hc. apply is_scalar_spec.
  destruct Hc as [Hc _]. unfold printable in Hc. lia.
Qed.

Definition reread_all (ms : list (Identity * ManualMapping)) : list (Identity * ManualMapping) :=
  (λ im, (im.1, reread im.2)) <$> ms.
Lemma reread_all_keys ms : (reread_all ms).*1 = ms.*1.
Proof. unfold reread_all. rewrite <-list_fmap_compose. by apply list_fmap_ext. Qed.
Lemma dget_reread_all i ms : dget i (reread_all ms) = reread <$> dget i ms.
Proof. induction ms as [|[k m] ms IH]; [done|]. cbn. by case_decide. Qed.
Lemma store_ok_reread ms : store_ok ms → store_ok (reread_all ms).
Proof.
  intros [Hk Hf]. split; [by rewrite reread_all_keys|]. intros i m (im & [= -> ->] & Hin)%list_elem_of_fmap.
  destruct im as [i m]. destruct (Hf i m Hin) as [H1 H2]. split; [done|]. cbn. unfold filed. by rewrite canonical_reread, H2.
Qed.
Lemma filed_reread m : filed m → filed (reread m).
Proof. unfold filed. intros H. by rewrite canonical_reread, H. Qed.

Section documents.
Context {ME : MappingEnv} {MEL : MappingEnvLaws ME}.

Lemma rows_ok_reread ms : rows_ok ms → rows_ok (reread_all ms).
Proof. intros H i m (im & [= -> ->] & Hin)%list_elem_of_fmap. apply reread_ok. apply (H im.1). by destruct im. Qed.

Lemma jget_sorted {A} k (d : list (ustr * A)) : NoDup d.*1 → jget k (sort_by key_leb d) = jget k d.
Proof. intros H. symmetry. apply jget_perm; [done|by rewrite sort_by_perm]. Qed.

(** ** Rows of the document *)

Lemma filed_identity_of m : row_ok m → filed m → filed_identity (identity_of m).
Proof. intros [] Hf%filed_resolve. by split_and!. Qed.

(** Keyed rows: the mappings in their order, each under its key *)
Definition keyed_as (im : Identity * ManualMapping) (km : ustr * ManualMapping) : Prop :=
encode_v2_key im.1 = Ok km.1 ∧ im.2 = km.2 ∧ identity_of km.2 = im.1 ∧ filed km.2 ∧ row_ok km.2.
Definition dumped_row (km : ustr * ManualMapping) : ustr * json := (km.1, JObj (model_dump km.2)).
Definition written (keyed : list (ustr * ManualMapping)) : list (ustr * ManualMapping) :=
(λ km, (km.1, reread km.2)) <$> sort_by key_leb keyed.

Lemma serialized_row_filed im : store_ok [im] → serialized_row im = (λ key, (key, JObj (model_dump im.2))) <$> encode_v2_key im.1.
Proof.
  destruct im as [[[s e] n] m]. intros [_ Hf]. destruct (Hf (s, e, n) m) as [Hi Hc]; [left|].
  unfold serialized_row. cbn [fst snd].
  assert (with_enclosure e (with_system s (canonical_mapping m)) = m) as ->.
  { rewrite Hc. unfold identity_of in Hi. injection Hi as <- <- <-. by destruct m. }
  rewrite bool_decide_eq_true_2 by done. cbn [negb]. by destruct (encode_v2_key (s, e, n)).
Qed.
Lemma store_ok_one ms im : store_ok ms → im ∈ ms → store_ok [im].
Proof.
  intros [_ Hf] Hin. split; [apply NoDup_singleton|]. intros i m E%list_elem_of_singleton. subst im. auto.
Qed.

Lemma serialized_keyed ms ser : store_ok ms → rows_ok ms → res_mapM serialized_row ms = Ok ser →
  ∃ keyed, Forall2 keyed_as ms keyed ∧ ser = dumped_row <$> keyed ∧ NoDup keyed.*1.
Proof.
  intros Hs Hr H%res_mapM_Ok.
  assert (∃ keyed, Forall2 keyed_as ms keyed ∧ ser = dumped_row <$> keyed) as (keyed & Hk & ->).
  { assert (∀ im, im ∈ ms → store_ok [im] ∧ row_ok im.2 ∧ identity_of im.2 = im.1 ∧ filed im.2) as Hall.
    { intros [i m] Hin. destruct (sok_filed _ Hs i m Hin). split_and!; try done; [by eapply store_ok_one|by eapply Hr]. }
    clear Hs Hr. induction H as [|im row ms ser Him _ IH]; [by exists []|].
    destruct (Hall im) as (H1 & H2 & H3 & H4); [left|]. rewrite serialized_row_filed in Him by done.
    destruct (encode_v2_key im.1) as [k|] eqn:Ek; [|done]. injection Him as <-.
    destruct IH as (keyed & Hk & ->); [intros; apply Hall; by right|]. exists ((k, im.2) :: keyed). by split; [constructor|]. }
  exists keyed. split_and!; [done|done|]. destruct Hs as [Hnd _]. clear Hr H. induction Hk as [|im km ms keyed Hk Hf IH]; [constructor|].
  cbn in *. apply NoDup_cons in Hnd as [Hn Hnd]. apply NoDup_cons. split; [|auto].
  intros (km' & Hkk & Hin)%list_elem_of_fmap. apply list_elem_of_lookup in Hin as [n Hn'].
  destruct (Forall2_lookup_r _ _ _ _ _ Hf Hn') as (im' & Him' & (E1 & E2 & E3 & E4 & E5)).
  destruct Hk as (F1 & F2 & F3 & F4 & F5). apply Hn.
  assert (im.1 = im'.1) as ->; [|apply list_elem_of_fmap_2; by eapply list_elem_of_lookup_2].
  rewrite Hkk in F1. rewrite <-F3, <-E3 in *. apply decode_encoded in F1, E1; [congruence|by apply filed_identity_of..].
Qed.

(** ** What the document says *)

Lemma key_scalars i k : filed_identity i → encode_v2_key i = Ok k → scalars k = true.
Proof.
  destruct i as [[s e] n]. intros (Hs & He & Hr). unfold encode_v2_key. rewrite Hr.
  destruct (dumps recursion_limit (JList [jopt s; jopt e; JInt n])) as [t|] eqn:E; [|done]. intros [= <-].
  change (scalars (u "v2:" ++ t) = true). rewrite scalars_app.
  rewrite (printable_scalars t); [done|]. eapply dumps_printable; [|exact E]. cbn. by rewrite !plain_jopt, Hs, He.
Qed.
Lemma plain_document keyed stamp : is_utc stamp → Forall (λ km, scalars km.1 = true ∧ row_ok km.2) keyed → NoDup keyed.*1 →
  plain (store_document (dumped_row <$> keyed) stamp) = true.
Proof.
  intros Hst Hk Hnd. unfold store_document. cbn [plain]. apply andb_true_iff.
  split; [by apply bool_decide_eq_true, (bool_decide_unpack _)|].
  cbn [forallb fst snd plain]. rewrite isoformat_scalars by done. rewrite !andb_true_r. apply andb_true_iff.
  split; [done|]. apply andb_true_iff. split.
  - apply bool_decide_eq_true. rewrite <-list_fmap_compose. by rewrite (list_fmap_ext _ fst).
  - apply forallb_forall. intros kv Hkv%list_elem_of_In. apply list_elem_of_fmap in Hkv as (km & -> & Hkm).
    rewrite Forall_forall in Hk. destruct (Hk km Hkm) as [H1 H2]. cbn [dumped_row fst snd]. rewrite H1. by apply plain_dump.
Qed.
Lemma normal_dump m : (λ kv : ustr * json, (kv.1, normal kv.2)) <$> model_dump m = model_dump m.
Proof. unfold model_dump. cbn [fmap list_fmap fst snd]. by rewrite !normal_jopt. Qed.
Lemma normal_dump_object m : normal (JObj (model_dump m)) = JObj (sort_by key_leb (model_dump m)).
Proof. cbn [normal]. by rewrite normal_dump. Qed.
Definition normal_row (km : ustr * ManualMapping) : ustr * json := (km.1, JObj (sort_by key_leb (model_dump km.2))).
Lemma document_normal keyed stamp : ∃ d, normal (store_document (dumped_row <$> keyed) stamp) = JObj d
  ∧ jget (u "version") d = Some (JInt 2)
  ∧ jget (u "slot_mappings") d = Some (JObj (normal_row <$> sort_by key_leb keyed)).
Proof.
  unfold store_document. cbn [normal]. eexists. split; [done|]. split.
  - rewrite jget_sorted by by apply (bool_decide_unpack _). done.
  - rewrite jget_sorted by by apply (bool_decide_unpack _). 
    transitivity (Some (normal (JObj (dumped_row <$> keyed)))); [done|]. cbn [normal]. f_equal. f_equal.
    rewrite <-list_fmap_compose. rewrite <-(sort_by_fmap key_leb key_leb normal_row) by done. f_equal.
    apply list_fmap_ext. intros n km _. unfold dumped_row, normal_row. cbn [fst snd compose]. by rewrite <-normal_dump_object.
Qed.
Lemma document_rows now keyed : Forall (λ km, row_ok km.2) keyed →
  document_entries now (normal_row <$> sort_by key_leb keyed) = Ok (written keyed).
Proof.
  intros Hk. unfold document_entries, written. apply res_mapM_Ok. apply Forall2_fmap_l, Forall2_fmap_r, Forall_Forall2_diag.
  apply Forall_forall. intros km Hkm%elem_of_sort_by. rewrite Forall_forall in Hk. unfold normal_row, compose. cbn [fst snd].
  rewrite (validate_raw_ext _ _ (model_dump km.2)).
  - rewrite validate_raw_dump by auto. done.
  - intros k. apply jget_sorted. by apply (bool_decide_unpack _).
Qed.

Lemma version_two : version_is (JInt 2) 1 = false ∧ version_is (JInt 2) 2 = true.
Proof. done. Qed.

(** The rows of a filed store, its keys and its text *)
Record document (ms : list (Identity * ManualMapping)) (data : list Z) (keyed : list (ustr * ManualMapping)) : Prop := {
  doc_keyed : Forall2 keyed_as (sort_by (λ a b, identity_leb a.1 b.1) ms) keyed;
  doc_keys : NoDup keyed.*1;
  doc_read : ∀ now strict tolerate, read_document strict tolerate now (Ok (Some data)) = Ok (JInt 2, written keyed);
}.
Lemma keyed_rows ms keyed : Forall2 keyed_as ms keyed → Forall (λ km, scalars km.1 = true ∧ row_ok km.2) keyed.
Proof.
  intros H. induction H as [|im km ms keyed (H1 & H2 & H3 & H4 & H5) _ IH]; [constructor|]. constructor; [|done].
  split; [|done]. rewrite <-H3 in H1. eapply key_scalars; [|exact H1]. by apply filed_identity_of.
Qed.
Lemma store_ok_sort leb ms : store_ok ms → store_ok (sort_by leb ms).
Proof.
  intros [Hk Hf]. split; [by rewrite sort_by_perm|]. intros i m Hin%elem_of_sort_by. auto.
Qed.
Lemma rows_ok_sort leb ms : rows_ok ms → rows_ok (sort_by leb ms).
Proof. intros H i m Hin%elem_of_sort_by. by eapply H. Qed.

Lemma document_reads stamp ser ms keyed text : is_utc stamp → Forall2 keyed_as ms keyed → NoDup keyed.*1 →
  ser = dumped_row <$> keyed → dumps recursion_limit (store_document (pairs_dict ser) stamp) = Ok text →
  (∀ hook, (∀ pairs, NoDup pairs.*1 → hook pairs = Some pairs) →
     loads_text hook recursion_limit (text ++ [10]) = Ok (normal (store_document (dumped_row <$> keyed) stamp)))
  ∧ ∀ now strict tolerate, read_document strict tolerate now (Ok (Some (text ++ [10]))) = Ok (JInt 2, written keyed).
Proof.
  intros Hst Hk Hnd -> Ht. apply keyed_rows in Hk.
  assert (pairs_dict (dumped_row <$> keyed) = dumped_row <$> keyed) as E.
  { unfold pairs_dict. rewrite fold_jset; [done|]. cbn. rewrite <-list_fmap_compose. by rewrite (list_fmap_ext _ fst). }
  rewrite E in Ht. assert (plain (store_document (dumped_row <$> keyed) stamp) = true) as Hp by by apply plain_document.
  assert (∀ hook, (∀ pairs, NoDup pairs.*1 → hook pairs = Some pairs) →
     loads_text hook recursion_limit (text ++ [10]) = Ok (normal (store_document (dumped_row <$> keyed) stamp))) as Hl.
  { intros hook Hh. by apply (loads_text_dumps hook Hh _ _ _ [10] Hp Ht). }
  split; [done|]. intros now strict tolerate. unfold read_document. rewrite utf8_ascii.
  2: { apply Forall_app. split; [|by repeat constructor]. eapply Forall_impl; [exact (dumps_printable _ _ _ Hp Ht)|].
       intros c Hc. unfold printable in Hc. unfold ascii_char. lia. }
  rewrite (Hl _ reject_distinct). destruct (document_normal keyed stamp) as (d & -> & Hv & Hm).
  rewrite Hv. change (default DEFAULT_VERSION (Some (JInt 2))) with (JInt 2). destruct version_two as [-> ->]. cbn [orb negb]. rewrite Hm.
  rewrite document_rows; [done|]. eapply Forall_impl; [exact Hk|]. by intros km [_ ?].
Qed.

Lemma serialize_document stamp ms data : is_utc stamp → store_ok ms → rows_ok ms → serialize_v2 stamp ms = Ok data →
  ∃ keyed st, document ms data keyed ∧ classify_entries (JInt 2) (written keyed) = Ok st.
Proof.
  intros Hst Hs Hr H. unfold serialize_v2 in H.
  destruct (res_mapM serialized_row _) as [ser|] eqn:Eser; [|done]. cbn [mbind result_bind] in H.
  destruct (serialized_keyed _ ser (store_ok_sort _ _ Hs) (rows_ok_sort _ _ Hr) Eser) as (keyed & Hk & Hser & Hnd).
  destruct (dump_line (store_document (pairs_dict ser) stamp)) as [line|] eqn:Ed; [|done]. cbn [mbind result_bind] in H.
  unfold dump_line in Ed. destruct (dumps recursion_limit _) as [text|] eqn:Et; [|done]. injection Ed as <-.
  destruct (document_reads stamp ser _ keyed text Hst Hk Hnd Hser Et) as [Hl Hread].
  unfold load_line in H. rewrite (Hl _ dict_hook_distinct) in H. cbn [mbind result_bind] in H.
  destruct (dump_line _) as [again|]; [|done]. cbn [mbind result_bind] in H.
  destruct (negb _); [done|]. destruct (document_normal keyed stamp) as (d & E & _ & Hm). rewrite E in H.
  cbn [raw_mappings_of] in H. rewrite Hm in H. rewrite document_rows in H.
  2: { eapply Forall_impl; [by eapply keyed_rows|]. by intros km [_ ?]. }
  cbn [mbind result_bind] in H. destruct (classify_entries (JInt 2) (written keyed)) as [st|] eqn:Ec; [|done].
  injection H as <-. exists keyed, st. split; [|done]. by split.
Qed.

(** The mappings that the document is classified into *)
Lemma written_entries keyed : NoDup keyed.*1 → NoDup (written keyed).*1.
Proof.
  intros H. unfold written. rewrite <-list_fmap_compose. rewrite (list_fmap_ext _ fst) by done. by rewrite sort_by_perm.
Qed.
Lemma keyed_mappings ms keyed : Forall2 keyed_as ms keyed →
  (λ km : ustr * ManualMapping, (identity_of km.2, reread km.2)) <$> keyed = reread_all ms.
Proof.
  intros H. induction H as [|im km ms keyed (H1 & H2 & H3 & H4 & H5) _ IH]; [done|]. cbn. by rewrite IH, H3, H2.
Qed.
Lemma keyed_filed ms keyed km : Forall2 keyed_as ms keyed → km ∈ keyed → filed km.2 ∧ row_ok km.2.
Proof.
  intros H [n Hn]%list_elem_of_lookup. destruct (Forall2_lookup_r _ _ _ _ _ H Hn) as (im & _ & (_ & _ & _ & ? & ?)). done.
Qed.
Lemma document_mappings ms data keyed st : document ms data keyed → classify_entries (JInt 2) (written keyed) = Ok st →
  mappings st ≡ₚ reread_all ms.
Proof.
  intros [Hk Hnd _] Hc. apply classify_entries_spec in Hc.
  destruct (classified_v2 _ _ _ Hc (proj1 version_two) (written_entries _ Hnd)) as (Hrows & _ & ->). rewrite Hrows.
  unfold written. rewrite <-!list_fmap_compose.
  assert (∀ km, km ∈ keyed → canonical_mapping (reread km.2) = reread km.2) as Hfiled.
  { intros km Hin. apply filed_reread. by eapply keyed_filed. }
  rewrite (list_fmap_ext _ (λ km : ustr * ManualMapping, (identity_of km.2, reread km.2))).
  - rewrite sort_by_perm. rewrite (keyed_mappings _ _ Hk). unfold reread_all. by rewrite sort_by_perm.
  - intros n km Hkm%list_elem_of_lookup_2%elem_of_sort_by. cbn. rewrite Hfiled by done. by rewrite identity_reread.
Qed.
End documents.
