(* ===== verification/MappingRefinement.v ===== *)
(** * Slot mappings: the store implements a dict of mappings

    What a mutation does to the dict of mappings ([effect]), and that the file
    it leaves is answered from that dict: the whole store, every scope and every
    lookup. *)

From S2P Require Import Prelude.
From S2P Require Import PyStr.
From S2P Require Import Calendar.
From S2P Require Import Json.
From S2P Require Import JsonProofs.
From S2P Require Import JsonHook.
From S2P Require Import Dict.
From S2P Require Import Journal.
From S2P Require Import Mapping.
From S2P Require Import MappingReads.
From S2P Require Import MappingStore.
From S2P Require Import MappingKeys.
From S2P Require Import MappingClassify.
From S2P Require Import MappingDocuments.
#[local] Open Scope Z_scope.
#[local] Open Scope list_scope.

(** ** The dict that is promised *)

(** Where a request for a place looks: the place itself, the system without an
    enclosure, the enclosure without a system, the slot alone *)
Definition places (s e : option ustr) (n : Z) : list Identity := [(s, e, n); (s, None, n); (None, e, n); (None, None, n)].
Fixpoint first_of (d : list (Identity * ManualMapping)) (l : list Identity) : option ManualMapping :=
  match l with
  | [] => None
  | i :: l' => match dget i d with Some m => Some m | None => first_of d l' end
  end.
Definition find_mapping (d : list (Identity * ManualMapping)) (s e : option ustr) (n : Z) (fallback : bool) :
  option ManualMapping :=
  let e := resolve_physical_mapping_scope e in
  first_of d (if fallback then places s e n else [(s, e, n)]).

(** The rows of a system are its own and those without a system; of an
    enclosure, its own, and for a replacement also those without one. *)
Definition of_system (s : option ustr) (i : Identity) : Prop := i.1.1 = None ∨ i.1.1 = s.
Definition imported_over (s e : option ustr) (i : Identity) : Prop := of_system s i ∧ (e = None ∨ i.1.2 = e).
Definition replaced_over (s e : option ustr) (i : Identity) : Prop :=
  of_system s i ∧ (e = None ∨ i.1.2 = None ∨ i.1.2 = e).
#[export] Instance of_system_dec s i : Decision (of_system s i) := _.
#[export] Instance imported_over_dec s e i : Decision (imported_over s e i) := _.
#[export] Instance replaced_over_dec s e i : Decision (replaced_over s e i) := _.

Inductive mutation :=
| Save (m : ManualMapping) (expected : option ustr)
| Clear (s e : option ustr) (n : Z) (expected : option ustr)
| Replace (s e : option ustr) (ms : list ManualMapping)
| Import (s e : option ustr) (ms : list ManualMapping) (revision digest : ustr).

Definition saved_form (now : datetime) (m : ManualMapping) : ManualMapping := with_updated_at now (canonical_mapping m).
(** The dict after a mutation; [None]: the file is left alone. *)
Definition effect (o : outside_world) (mu : mutation) (d : list (Identity * ManualMapping)) :
  option (list (Identity * ManualMapping)) :=
  let stamped := fmap (λ im : ScopeIdentity * ManualMapping, let m := with_updated_at (save_clock o) im.2 in (identity_of m, m)) in
  match mu with
  | Save m _ =>
      let saved := saved_form (save_clock o) m in
      Some (dset (identity_of saved) saved
              (dkeep (λ i, bool_decide (i ∉ places (system_id saved) (enclosure_id saved) (slot saved))) d))
  | Clear s e n _ =>
      let e := resolve_physical_mapping_scope e in
      match find_mapping d s e n true with
      | Some _ => Some (dkeep (λ i, bool_decide (i ∉ places s e n)) d)
      | None => None
      end
  | Replace s e ms =>
      let e := resolve_physical_mapping_scope e in
      match normalize_incoming s e ms with
      | Ok incoming => Some (dupdate (dkeep (λ i, bool_decide (¬ replaced_over s e i)) d) (stamped incoming))
      | Err _ => None
      end
  | Import s e ms _ _ =>
      let e := resolve_physical_mapping_scope e in
      match normalize_incoming s e ms with
      | Ok incoming => Some (dupdate (dkeep (λ i, bool_decide (¬ imported_over s e i)) d) (stamped incoming))
      | Err _ => None
      end
  end.

(** *** The methods' own selections are these *)

Lemma first_of_app d l l' : first_of d (l ++ l') = match first_of d l with Some m => Some m | None => first_of d l' end.
Proof. induction l as [|i l IH]; cbn; [done|]. by destruct (dget i d). Qed.
Lemma first_of_elem d x l : x ∈ l → first_of d l = None → dget x d = None.
Proof.
  intros Hx. induction Hx as [a l|a b l Hin IH]; cbn; [by destruct (dget a d)|]. by destruct (dget b d).
Qed.
Lemma first_of_cons_elem d x l l' : x ∈ l → first_of d (l ++ x :: l') = first_of d (l ++ l').
Proof.
  intros Hx. rewrite !first_of_app. destruct (first_of d l) eqn:E; [done|]. cbn.
  by rewrite (first_of_elem _ _ _ Hx E).
Qed.
Lemma first_of_fromkeys d l : first_of d (fromkeys l) = first_of d l.
Proof.
  unfold fromkeys. enough (∀ seen, first_of d (fold_left (λ seen x, if decide (x ∈ seen) then seen else seen ++ [x]) l seen)
    = first_of d (seen ++ l)) as H by apply (H []).
  induction l as [|x l IH]; intros seen; cbn [fold_left]; [by rewrite app_nil_r|]. rewrite IH.
  destruct (decide (x ∈ seen)); [by rewrite first_of_cons_elem|by rewrite <-app_assoc].
Qed.
Lemma first_of_omap d l : first_of d l = match omap (λ i, dget i d) l with m :: _ => Some m | [] => None end.
Proof. induction l as [|i l IH]; [done|]. cbn. by destruct (dget i d). Qed.
Lemma find_mapping_query d s e n fb : find_mapping d s e n fb =
  match omap (λ i, dget i d) (query_identities s (resolve_physical_mapping_scope e) n fb) with m :: _ => Some m | [] => None end.
Proof. unfold find_mapping, query_identities. rewrite <-first_of_omap, first_of_fromkeys. by destruct fb. Qed.

Lemma dkeep_ext {K V} (p q : K → bool) (d : list (K * V)) : (∀ k, p k = q k) → dkeep p d = dkeep q d.
Proof. intros H. unfold dkeep. induction d as [|kv d IH]; [done|]. cbn. by rewrite H, IH. Qed.
Lemma without_resolvable_places s e n d : without_resolvable s e n d = dkeep (λ i, bool_decide (i ∉ places s e n)) d.
Proof.
  apply dkeep_ext. intros i. unfold resolvable_identity_selected. rewrite <-bool_decide_not. apply bool_decide_ext.
  unfold query_identities. by rewrite elem_of_fromkeys.
Qed.
Lemma of_system_selected i s : identity_matches_system i s = true ↔ of_system s i.
Proof.
  unfold identity_matches_system, none_or, identity_system, of_system. destruct s as [s|].
  - by rewrite orb_true_iff, !bool_decide_eq_true.
  - rewrite bool_decide_eq_true. tauto.
Qed.
Lemma negb_bool_decide b (P : Prop) `{Decision P} : (b = true ↔ P) → negb b = bool_decide (¬ P).
Proof. intros Hb. case_bool_decide; destruct b; naive_solver. Qed.
Lemma imported_selected i s e : negb (import_identity_selected i s e) = bool_decide (¬ imported_over s e i).
Proof.
  apply negb_bool_decide. unfold import_identity_selected, imported_over.
  by rewrite andb_true_iff, orb_true_iff, !bool_decide_eq_true, of_system_selected.
Qed.
Lemma replaced_selected i s e : negb (replace_identity_selected i s e) = bool_decide (¬ replaced_over s e i).
Proof.
  apply negb_bool_decide. unfold replace_identity_selected, replaced_over, enclosure_selected, none_or.
  rewrite andb_true_iff, of_system_selected. destruct e as [e|]; [rewrite orb_true_iff, !bool_decide_eq_true|]; naive_solver.
Qed.
(** The effect in terms of the methods' definitions *)
Definition applied (o : outside_world) (mu : mutation) (d : list (Identity * ManualMapping)) :
  option (list (Identity * ManualMapping)) :=
  match mu with
  | Save m _ =>
      let saved := saved_form (save_clock o) m in
      Some (dset (identity_of saved) saved (without_resolvable (system_id saved) (enclosure_id saved) (slot saved) d))
  | Clear s e n _ =>
      let e := resolve_physical_mapping_scope e in
      match find_mapping d s e n true with Some _ => Some (without_resolvable s e n d) | None => None end
  | Replace s e ms =>
      let e := resolve_physical_mapping_scope e in
      match normalize_incoming s e ms with
      | Ok incoming => Some (with_incoming o incoming (dkeep (λ i, negb (replace_identity_selected i s e)) d))
      | Err _ => None
      end
  | Import s e ms _ _ =>
      let e := resolve_physical_mapping_scope e in
      match normalize_incoming s e ms with
      | Ok incoming => Some (with_incoming o incoming (dkeep (λ i, negb (import_identity_selected i s e)) d))
      | Err _ => None
      end
  end.
Lemma effect_applied o mu d : effect o mu d = applied o mu d.
Proof.
  destruct mu as [m x|s e n x|s e ms|s e ms r dg]; cbn [effect applied]; cbv zeta.
  - by rewrite without_resolvable_places.
  - by rewrite without_resolvable_places.
  - destruct (normalize_incoming _ _ _) as [inc|]; [|done]. unfold with_incoming.
    by rewrite (dkeep_ext _ _ _ (λ i, replaced_selected i s (resolve_physical_mapping_scope e))).
  - destruct (normalize_incoming _ _ _) as [inc|]; [|done]. unfold with_incoming.
    by rewrite (dkeep_ext _ _ _ (λ i, imported_selected i s (resolve_physical_mapping_scope e))).
Qed.

Definition discard {A} (m : op A) : op unit := m ≫= λ _, mret tt.

(** ** Steps of operations *)

Lemma bind_op_Ok {A B} (m : op A) (f : A → op B) w w' b :
  (m ≫= f) w = (w', Ok b) → ∃ a w1, m w = (w1, Ok a) ∧ f a w1 = (w', Ok b).
Proof. unfold mbind, op_bind. destruct (m w) as [w1 [a|e]]; [by eauto|done]. Qed.
Lemma pure_op_Ok {A} (r : result map_exn A) w w' a : pure_op r w = (w', Ok a) → w' = w ∧ r = Ok a.
Proof. unfold pure_op. by intros [= -> ->]. Qed.
Lemma mret_op_Ok {A} (a b : A) w w' : (mret a : op A) w = (w', Ok b) → w' = w ∧ b = a.
Proof. unfold mret, op_ret. by intros [= -> ->]. Qed.
Ltac step_op H :=
  repeat match type of H with
  | (_ ≫= _) _ = (_, Ok _) => let a := fresh "a" in let w := fresh "w" in let E := fresh "E" in
      apply bind_op_Ok in H as (a & w & E & H)
  end.

(** Nothing but the replacement touches the file. *)
Lemma commit_bytes_Ok {ME : MappingEnv} o data w w' r : commit_bytes o data w = (w', r) →
  match r with
  | Ok _ => target w' = regular data ∧ leftovers w' = leftovers w ∧ config_changes w' = config_changes w
  | Err MappingDurabilityError =>
      target w' = regular data ∧ leftovers w' = leftovers w ∧ config_changes w' = config_changes w
  | Err err => (∃ e, err = save_refusal e) ∧ target w' = target w ∧ config_changes w' = config_changes w
      ∧ (leftovers w <= leftovers w' <= S (leftovers w))%nat
  end.
Proof.
  unfold commit_bytes. assert (∀ e, save_refusal e ≠ MappingDurabilityError) as Hne.
  { intros e. unfold save_refusal. destruct (describe_capacity_failure e); [done|]. by destruct (is_unwritable_error e). }
  assert (∀ b, target (after_failure (script o) b w) = target w
    ∧ config_changes (after_failure (script o) b w) = config_changes w
    ∧ (leftovers w <= leftovers (after_failure (script o) b w) <= S (leftovers w))%nat) as Haf.
  { intros b. unfold after_failure. destruct (b && _); cbn; (split_and!; [done|done|lia|lia]). }
  assert (∀ e w1, (target w1 = target w ∧ config_changes w1 = config_changes w
      ∧ (leftovers w <= leftovers w1 <= S (leftovers w))%nat) →
    match (Err (save_refusal e) : result map_exn unit) with
    | Ok _ => target w1 = regular data ∧ leftovers w1 = leftovers w ∧ config_changes w1 = config_changes w
    | Err MappingDurabilityError =>
        target w1 = regular data ∧ leftovers w1 = leftovers w ∧ config_changes w1 = config_changes w
    | Err err => (∃ e, err = save_refusal e) ∧ target w1 = target w ∧ config_changes w1 = config_changes w
        ∧ (leftovers w <= leftovers w1 <= S (leftovers w))%nat
    end) as Herr.
  { intros e w1 H. specialize (Hne e). destruct (save_refusal e) eqn:E; try (split; [by eauto|done]). }
  destruct (create_temp_file _ _) as [[]|[e created]].
  - destruct (_ ≫= _) as [[]|e].
    + destruct (fault_step _) as [[]|]; [destruct (validate_published_bytes _ _ _) as [[]|]|]; by intros [= <- <-].
    + intros [= <- <-]. apply Herr, Haf.
  - intros [= <- <-]. apply Herr. destruct created; [apply Haf|]. split_and!; [done|done|lia|lia].
Qed.

Section refinement.
Context {ME : MappingEnv} {MEL : MappingEnvLaws ME}.

Definition run (o : outside_world) (mu : mutation) : op unit :=
match mu with
| Save m expected => discard (save_mapping o m expected)
| Clear s e n expected => discard (clear_mapping o s e n expected)
| Replace s e ms => discard (replace_mappings o s e ms)
| Import s e ms revision digest => discard (apply_mapping_import o s e ms revision digest)
end.

(** What pydantic accepted, and scopes that can be encoded *)
Definition mutation_ok (mu : mutation) : Prop :=
match mu with
| Save m _ => row_ok m
| Clear s e _ _ => True
| Replace s e ms | Import s e ms _ _ =>
    scalar_text s = true ∧ scalar_text e = true ∧ ∀ m, m ∈ ms → row_ok m
end.
Definition clocks_ok (o : outside_world) : Prop := is_utc (read_clock o) ∧ is_utc (save_clock o) ∧ is_utc (stamp_clock o).

(** ** Loaded states *)

Lemma document_entries_rows now raw es : is_utc now → document_entries now raw = Ok es → ∀ kv, kv ∈ es → row_ok kv.2.
Proof.
  intros Hn H%res_mapM_Ok kv [i Hi]%list_elem_of_lookup.
  destruct (Forall2_lookup_r _ _ _ _ _ H Hi) as (x & _ & Hx).
  destruct (validate_raw_model now x.2) as [m|] eqn:E; [|done]. injection Hx as <-. cbn. by eapply validate_raw_ok.
Qed.
Lemma read_document_rows now strict tolerate src v es : is_utc now → read_document strict tolerate now src = Ok (v, es) →
  ∀ kv, kv ∈ es → row_ok kv.2.
Proof.
  intros Hn H kv. assert (es = [] → kv ∈ es → row_ok kv.2) as Hnil by (intros -> []%not_elem_of_nil).
  unfold read_document in H. destruct src as [[raw|]|e].
  - destruct (utf8_text raw) as [t|]; [|destruct strict; [done|injection H as _ H; auto]].
    destruct (loads_text _ _ t) as [j|err].
    + destruct j as [| | | | | |payload]; try (destruct strict; [done|injection H as _ H; by auto]).
      destruct (negb _); [done|].
      assert ((raise: MappingScopeConflict when strict;
         if version_is (default DEFAULT_VERSION (jget (u "version") payload)) 1
         then Ok (default DEFAULT_VERSION (jget (u "version") payload), []) else Err MappingScopeConflict) = Ok (v, es) → es = []) as Hno.
      { intros H'. destruct strict; [done|]. destruct (version_is _ 1); [|done]. by injection H' as _ <-. }
      destruct (jget (u "slot_mappings") payload) as [[| | | | | |raw_mappings]|]; try (by auto).
      destruct (document_entries now raw_mappings) as [es'|err] eqn:E.
      * injection H as _ <-. by eapply document_entries_rows.
      * destruct err; try done. destruct (_ && _); [|done]. injection H as _ H. auto.
    + destruct err; try done. destruct strict; [done|]. injection H as _ H. auto.
  - injection H as _ H. auto.
  - destruct strict; [done|]. injection H as _ H. auto.
Qed.
Lemma load_state_classified now src st : load_state now src = Ok st →
  ∃ v es, read_document true false now src = Ok (v, es) ∧ classify_entries v es = Ok st.
Proof.
  unfold load_state. destruct (read_document true false now src) as [[v es]|]; [|done]. cbn [mbind result_bind]. by eauto.
Qed.
Lemma load_state_ok now src st : is_utc now → load_state now src = Ok st → keys_ok (version st) (entries st) →
  store_ok (mappings st) ∧ rows_ok (mappings st).
Proof.
  intros Hn (v & es & Hr & Hc)%load_state_classified Hk. pose proof (classify_entries_spec _ _ _ Hc) as H.
  split; [by eapply classified_ok|]. rewrite (cl_version _ _ _ H), (cl_entries _ _ _ H) in Hk.
  eapply classified_rows_ok; [done|done|]. by eapply read_document_rows.
Qed.

(** ** What is written *)

Lemma store_ok_update items d : store_ok d → (∀ i m, (i, m) ∈ items → identity_of m = i ∧ filed m) →
  store_ok (dupdate d items).
Proof.
  unfold dupdate. revert d; induction items as [|[i m] items IH]; intros d Hd H; [done|]. cbn.
  apply IH; [|intros; apply H; by right]. destruct (H i m) as [<- Hf]; [left|]. by apply store_ok_set.
Qed.
Lemma rows_ok_set i m d : store_ok d → rows_ok d → row_ok m → rows_ok (dset i m d).
Proof. intros Hs Hd Hm i' m'. rewrite dset_elem by apply Hs. intros [[-> ->]|[_ Hin]]; [done|by eapply Hd]. Qed.
Lemma rows_ok_keep p d : rows_ok d → rows_ok (dkeep p d).
Proof. intros H i m [Hin _]%elem_of_filter_list. by eapply H. Qed.
Lemma rows_ok_update items d : store_ok d → (∀ i m, (i, m) ∈ items → identity_of m = i ∧ filed m) →
  rows_ok d → (∀ i m, (i, m) ∈ items → row_ok m) → rows_ok (dupdate d items).
Proof.
  unfold dupdate. revert d; induction items as [|[i m] items IH]; intros d Hs Hf Hd Hr; [done|]. cbn.
  destruct (Hf i m) as [<- Hm]; [left|]. apply IH.
  - by apply store_ok_set.
  - intros; apply Hf; by right.
  - apply rows_ok_set; [done|done|]. eapply Hr. left.
  - intros; eapply Hr; by right.
Qed.

(** A normalized import: every row is of the system, filed in the enclosure. *)
Definition normal_entry (s : option ustr) (i : ScopeIdentity) (m : ManualMapping) : Prop :=
system_id m = s ∧ scope_identity m = i ∧ filed m.
Lemma scoped_mapping_normal s e m : resolve_physical_mapping_scope e = e →
  normal_entry s (scope_identity (scoped_mapping s e m)) (scoped_mapping s e m).
Proof.
  intros He. split_and!; try done. apply filed_resolve. unfold scoped_mapping. cbn. destruct e; [done|].
  apply resolve_idempotent.
Qed.
Lemma scoped_mapping_ok s e m : scalar_text s = true → scalar_text e = true → row_ok m → row_ok (scoped_mapping s e m).
Proof. intros Hs He []. split; try done. unfold scoped_mapping. cbn. destruct e; [done|by apply resolve_scalar]. Qed.
Lemma normalize_loop_spec s e ms acc incoming : resolve_physical_mapping_scope e = e →
  NoDup acc.*1 → (∀ i m, (i, m) ∈ acc → normal_entry s i m) → normalize_loop s e ms acc = Ok incoming →
  NoDup incoming.*1 ∧ ∀ i m, (i, m) ∈ incoming → normal_entry s i m ∧ ((i, m) ∈ acc ∨ ∃ m0, m0 ∈ ms ∧ m = scoped_mapping s e m0).
Proof.
  intros He. revert acc. induction ms as [|m ms IH]; intros acc Hnd Hacc; cbn [normalize_loop]; [intros [= ->]; auto|].
  cbv zeta. destruct (dget _ acc) eqn:E; [done|]. intros Hgo. apply IH in Hgo as [H1 H2].
  - split; [done|]. intros i m' Hin. destruct (H2 i m' Hin) as [H3 [H4|(m0 & Hm0 & ->)]]; (split; [done|]).
    + apply dset_elem in H4 as [[-> ->]|[_ H4]]; [right; exists m; split; [left|done]|by left|done].
    + right. exists m0. split; [by right|done].
  - by apply dset_NoDup.
  - intros i m' Hin. apply dset_elem in Hin as [[-> ->]|[_ Hin]]; [by apply scoped_mapping_normal|by apply Hacc|done].
Qed.
Lemma normalize_incoming_spec s e ms incoming : normalize_incoming s e ms = Ok incoming →
  NoDup incoming.*1 ∧ ∀ i m, (i, m) ∈ incoming → normal_entry s i m
    ∧ (scalar_text s = true → scalar_text e = true → (∀ m, m ∈ ms → row_ok m) → row_ok m).
Proof.
  intros H. apply normalize_loop_spec in H as [H1 H2];
    [|apply resolve_idempotent|constructor|by intros ?? ?%not_elem_of_nil].
  split; [done|]. intros i m Hin. destruct (H2 i m Hin) as [H3 [[]%not_elem_of_nil|(m0 & Hm0 & ->)]]. split; [done|].
  intros Hs He Hms. apply scoped_mapping_ok; auto using resolve_scalar.
Qed.
Definition stamped (o : outside_world) (incoming : list (ScopeIdentity * ManualMapping)) : list (Identity * ManualMapping) :=
(λ im, let saved := with_updated_at (save_clock o) im.2 in (identity_of saved, saved)) <$> incoming.
Lemma with_incoming_ok o s e ms incoming d : clocks_ok o → normalize_incoming s e ms = Ok incoming →
  scalar_text s = true → scalar_text e = true → (∀ m, m ∈ ms → row_ok m) →
  store_ok d → rows_ok d → store_ok (with_incoming o incoming d) ∧ rows_ok (with_incoming o incoming d).
Proof.
  intros (_ & Hc & _) H Hs He Hms Hd Hr. apply normalize_incoming_spec in H as [_ H].
  assert (∀ i m, (i, m) ∈ stamped o incoming → (identity_of m = i ∧ filed m) ∧ row_ok m) as Hst.
  { intros i m ([i' m'] & [= -> ->] & Hin)%list_elem_of_fmap. cbn. destruct (H i' m' Hin) as [(H1 & H2 & H3) H4].
    split; [split; [done|]|apply row_ok_updated; auto].
    apply filed_resolve. by apply filed_resolve in H3. }
  split; [apply store_ok_update|apply rows_ok_update]; try done; intros i m Hin; by apply Hst in Hin as [??].
Qed.

Lemma row_ok_saved o m : clocks_ok o → row_ok m → row_ok (saved_form (save_clock o) m).
Proof. intros (_ & Hc & _) H. apply row_ok_updated; [done|]. by apply row_ok_canonical. Qed.
Lemma filed_saved t m : filed (saved_form t m).
Proof.
  unfold saved_form, filed, canonical_mapping, with_enclosure, with_updated_at. cbn. by rewrite resolve_idempotent.
Qed.
(** The dict a mutation promises is filed again. *)
Lemma effect_ok o mu d d' : clocks_ok o → mutation_ok mu → store_ok d → rows_ok d → effect o mu d = Some d' →
  store_ok d' ∧ rows_ok d'.
Proof.
  rewrite effect_applied.
  intros Hc Hm Hs Hr H. destruct mu as [m x|s e n x|s e ms|s e ms r dg]; cbn [applied mutation_ok] in *.
  - injection H as <-. assert (store_ok (without_resolvable (system_id (saved_form (save_clock o) m))
      (enclosure_id (saved_form (save_clock o) m)) (slot (saved_form (save_clock o) m)) d)) as Hw by by apply store_ok_keep.
    split; [apply store_ok_set; [done|apply filed_saved]|]. apply rows_ok_set; [done|by apply rows_ok_keep|by apply row_ok_saved].
  - destruct (find_mapping _ _ _ _ _); [|done]. injection H as <-. split; [by apply store_ok_keep|by apply rows_ok_keep].
  - destruct Hm as (H1 & H2 & H3). destruct (normalize_incoming _ _ ms) as [inc|] eqn:E; [|done]. injection H as <-.
    eapply with_incoming_ok; eauto using store_ok_keep, rows_ok_keep, resolve_scalar.
  - destruct Hm as (H1 & H2 & H3). destruct (normalize_incoming _ _ ms) as [inc|] eqn:E; [|done]. injection H as <-.
    eapply with_incoming_ok; eauto using store_ok_keep, rows_ok_keep, resolve_scalar.
Qed.

(** ** The classification for scopes of a written document *)

Lemma semantic_winner leb rs m : winner_of leb rs = Ok m → ∀ leb', ∃ m', winner_of leb' rs = Ok m'.
Proof.
  intros H leb'. unfold winner_of in *. destruct (max_by leb' rs) eqn:E; [by eexists|].
  apply max_by_None in E as ->. done.
Qed.
Lemma classify_scoped_ok v es st : classify_entries v es = Ok st →
  ∃ snap, classify_scoped v es = Ok snap ∧ conflicting_identities snap = [].
Proof.
  intros H. pose proof (classify_entries_spec _ _ _ H) as Hc. unfold classify_entries in H.
  destruct (res_mapM _ es) as [rs|] eqn:Er; [|done]. cbn [mbind result_bind] in H.
  destruct (res_mapM settle_group _) as [ms|] eqn:Em; [|done]. injection H as <-.
  unfold classify_scoped. rewrite (classify_or_keep_all v es rs) by apply Hc. cbn [mbind result_bind].
  destruct (omap_inl (B := ustr * ManualMapping) rs) as [-> ->].
  assert (∃ gs, res_mapM settle_scoped (group_by row_identity rs) = Ok gs ∧ List.filter (λ g : Identity * ManualMapping * bool, g.2) gs = [])
    as (gs & -> & Hgs).
  { apply res_mapM_Ok in Em. clear Er Hc. induction Em as [|g im gs ms Hg _ IH]; [by exists []|].
    destruct IH as (gs' & E & Hf). unfold settle_group in Hg. destruct (semantic_rows g.2) as [sem|] eqn:Es; [|done].
    cbn [mbind result_bind] in Hg. destruct (negb _) eqn:En; [done|]. destruct (winner_of _ g.2) as [wm|] eqn:Ew; [|done].
    destruct (semantic_winner _ _ _ Ew (λ a b, ustr_leb (row_key a) (row_key b))) as [m' Em'].
    exists ((g.1, m', false) :: gs'). cbn [res_mapM]. unfold settle_scoped at 1. rewrite Es. cbn [mbind result_bind].
    rewrite Em'. cbn [mbind result_bind]. by rewrite En, E. }
  cbn [mbind result_bind]. eexists. split; [done|]. cbn. by rewrite Hgs.
Qed.

(** In version 2 the rows decide the whole state. *)
Lemma classified_v2_unique v es st st' : version_is v 1 = false → NoDup es.*1 → classified v es st → classified v es st' → st = st'.
Proof.
  intros Hv Hnd H H'. destruct (classified_v2 _ _ _ H Hv Hnd) as (E1 & _ & E2).
  destruct (classified_v2 _ _ _ H' Hv Hnd) as (E1' & _ & E2'). rewrite <-E1' in E1. rewrite E1, <-E2' in E2.
  destruct H, H', st, st'. cbn in *. by subst.
Qed.
Lemma document_state now ms data keyed st : document ms data keyed → classify_entries (JInt 2) (written keyed) = Ok st →
  load_state now (Ok (Some data)) = Ok st ∧ ∀ s e sl, load_state_for_scope now (Ok (Some data)) s e sl = Ok st.
Proof.
  intros Hd Hc. pose proof Hd as [Hk Hnd Hread]. unfold load_state, load_state_for_scope, load_scoped_snapshot. rewrite Hread.
  cbn [mbind result_bind]. split; [done|]. intros s e sl.
  destruct (classify_scoped_ok _ _ _ Hc) as (snap & Hs & Hconf). rewrite Hs. cbn [mbind result_bind].
  destruct (scoped_of_classified _ _ _ _ Hc Hs) as (Hinv & Hcl & _).
  pose proof (classify_entries_spec _ _ _ Hc) as Hcl'.
  pose proof (classified_v2_unique _ _ _ _ (proj1 version_two) (written_entries _ Hnd) Hcl Hcl') as E.
  unfold state_for_scope. rewrite Hinv, Hconf. cbn [any_of existsb mbind result_bind]. rewrite E.
  assert (∀ row, row ∈ rows st → enclosure_id (row_stored row) = enclosure_id (row_canonical row)) as Hst.
  { intros row Hr. destruct (classified_v2 _ _ _ Hcl' (proj1 version_two) (written_entries _ Hnd)) as (Hrows & _ & _).
    rewrite Hrows in Hr. apply list_elem_of_fmap in Hr as (kv & -> & Hkv). cbn.
    apply list_elem_of_fmap in Hkv as (km & -> & Hkm%elem_of_sort_by). cbn. symmetry. apply filed_resolve.
    by eapply keyed_filed. }
  match goal with |- context [existsb ?p ?l] => assert (existsb p l = false) as ->; [|done] end.
  apply not_true_is_false. intros (row & Hin & Hrow)%existsb_exists.
  apply list_elem_of_In, elem_of_filter_list in Hin as [Hin _]. unfold legacy_disagrees in Hrow.
  rewrite (Hst row Hin), (bool_decide_eq_true_2 (enclosure_id (row_canonical row) = _) eq_refl) in Hrow.
  cbn [negb] in Hrow. by rewrite andb_false_r in Hrow.
Qed.

Lemma first_found_state st ids : store_ok (mappings st) → first_found (lookup_in_state st) ids =
  Ok (match omap (λ i, dget i (mappings st)) ids with m :: _ => Some m | [] => None end).
Proof.
  intros Hs. induction ids as [|i ids IH]; [done|]. cbn [first_found]. unfold lookup_in_state at 1. cbn.
  destruct (dget i (mappings st)) as [m|] eqn:E; cbn; [|exact IH].
  destruct (store_ok_get _ _ _ Hs E) as [_ ->]. done.
Qed.
Lemma find_mapping_equiv d d' s e n fb : d ≡ d' → find_mapping d s e n fb = find_mapping d' s e n fb.
Proof.
  intros H. rewrite !find_mapping_query. assert (omap (λ i, dget i d) (query_identities s (resolve_physical_mapping_scope e) n fb)
    = omap (λ i, dget i d') (query_identities s (resolve_physical_mapping_scope e) n fb)) as ->; [|done].
  induction (query_identities _ _ _ _) as [|i ids IH]; [done|]. cbn. by rewrite (H i), IH.
Qed.

(** What a document of [ms] answers *)
Lemma document_answers stamp ms data : is_utc stamp → store_ok ms → rows_ok ms → serialize_v2 stamp ms = Ok data →
  ∃ st, mappings st ≡ reread_all ms ∧ store_ok (mappings st) ∧ rows_ok (mappings st) ∧ version st = JInt 2
    ∧ (∀ now, load_state now (Ok (Some data)) = Ok st)
    ∧ (∀ now s e sl, load_state_for_scope now (Ok (Some data)) s e sl = Ok st)
    ∧ ∀ now s e n fb, get_mapping now (Ok (Some data)) s e n fb None = Ok (find_mapping (reread_all ms) s e n fb).
Proof.
  intros Hst Hs Hr H. destruct (serialize_document _ _ _ Hst Hs Hr H) as (keyed & st & Hd & Hc).
  pose proof (document_mappings _ _ _ _ Hd Hc) as Hp.
  assert (store_ok (mappings st)) as Hok by (eapply classified_ok; by apply classify_entries_spec).
  assert (mappings st ≡ reread_all ms) as He by (apply dict_perm; [apply Hok|done]).
  exists st. split_and!; try done.
  - intros i m Hin. rewrite Hp in Hin. by eapply rows_ok_reread.
  - by apply classify_entries_spec in Hc as [? _ _ _ _].
  - intros now. by apply (document_state now ms data keyed st Hd Hc).
  - intros now. by apply (document_state now ms data keyed st Hd Hc).
  - intros now s e n fb. unfold get_mapping. destruct (document_state now ms data keyed st Hd Hc) as [_ ->].
    cbn [mbind result_bind]. by rewrite first_found_state, <-(find_mapping_equiv _ _ s e n fb He), find_mapping_query.
Qed.

(** ** Mutations *)

(** A mutation that returns has committed the dict it promises, or has left the
    directory alone when there was nothing to clear. *)
Lemma run_commits o mu w w' st : load_state (read_clock o) (read_source_bytes o w) = Ok st →
  run o mu w = (w', Ok tt) →
  match effect o mu (mappings st) with
  | Some d => ∃ data, serialize_v2 (stamp_clock o) d = Ok data ∧ target w' = regular data
  | None => w' = w ∧ ∃ s e n x, mu = Clear s e n x
  end.
Proof.
  rewrite effect_applied. intros Hst H.
  assert (∀ d w1 w2, commit_v2 o d w1 = (w2, Ok tt) → ∃ data, serialize_v2 (stamp_clock o) d = Ok data ∧ target w2 = regular data) as Hcommit.
  { intros d w1 w2 Hc. unfold commit_v2 in Hc. step_op Hc. apply pure_op_Ok in E as [-> E]. exists a. split; [done|].
    apply commit_bytes_Ok in Hc. by destruct Hc. }
  assert (∀ x r w1 w2, check_revision x r w1 = (w2, Ok tt) → w2 = w1) as Hcheck.
  { intros [r|] cur w1 w2 Hc; cbn in Hc; [|by apply mret_op_Ok in Hc as [-> _]]. step_op Hc. apply pure_op_Ok in E as [-> _].
    case_bool_decide; [by apply mret_op_Ok in Hc as [-> _]|done]. }
  assert (∀ w2, load_state_op o w = (w2, Ok st) → w2 = w) as Hload by by intros w2 [= ->].
  destruct mu as [m x|s e n x|s e ms|s e ms r dg]; cbn [run applied] in *; unfold discard in H;
    apply bind_op_Ok in H as (a0 & w0 & H & [-> _]%mret_op_Ok).
  all: cbv delta [save_mapping clear_mapping replace_mappings apply_mapping_import] in H; cbv beta zeta in H;
    apply bind_op_Ok in H as (st0 & w1 & E0 & H); unfold load_state_op in E0; rewrite Hst in E0; injection E0 as <- <-.
  - step_op H. destruct a, a1, a2. apply Hcheck in E as ->. apply Hcommit in E0 as (data & Hd & Ht).
    exists data. split; [done|]. apply mret_op_Ok in H as [-> _]. cbn in E1. by injection E1 as <-.
  - apply bind_op_Ok in H as ([] & w1 & E & H). apply Hcheck in E as ->.
    rewrite find_mapping_query, !resolve_idempotent. unfold effective_mapping in H.
    destruct (omap _ _) as [|m0 ?] eqn:Em; [apply mret_op_Ok in H as [-> _]; split; [done|by eauto 10]|].
    step_op H. destruct a, a1. apply Hcommit in E as (data & Hd & Ht). exists data. split; [done|].
    apply mret_op_Ok in H as [-> _]. cbn in E0. by injection E0 as <-.
  - step_op H. apply pure_op_Ok in E as [-> E]. rewrite E. destruct a1, a2. apply Hcommit in E0 as (data & Hd & Ht).
    exists data. split; [done|]. apply mret_op_Ok in H as [-> _]. cbn in E1. by injection E1 as <-.
  - step_op H. apply pure_op_Ok in E as [-> E]. destruct a as [pv incoming]. cbn [fst snd] in *.
    unfold preview_from_state in E. cbv zeta in E. rewrite !resolve_idempotent in E.
    destruct (normalize_incoming s _ ms) as [inc|] eqn:En; [|done]. cbn [mbind result_bind] in E.
    destruct (scope_revision_from_state _ _ _); [|done]. cbn [mbind result_bind] in E.
    destruct (res_mapM _ _); [|done]. cbn [mbind result_bind] in E. destruct (digest _); [|done]. cbn [mbind result_bind] in E.
    injection E as _ <-.
    destruct (bool_decide (revision pv = r)); [|done]. apply mret_op_Ok in E0 as [-> _].
    destruct (bool_decide (import_digest pv = dg)); [|done]. apply mret_op_Ok in E1 as [-> _].
    destruct a2, a3. apply Hcommit in E2 as (data & Hd & Ht). exists data. split; [done|].
    apply mret_op_Ok in H as [-> _]. cbn in E3. injection E3 as <-. apply pure_op_Ok in E4 as [-> _].
    apply pure_op_Ok in E5 as [-> _]. done.
Qed.

(** [C3] The store is a dict of mappings: after a save, clear, replacement or
    import that returns, every lookup, with or without the fallback to legacy
    rows, finds what the mutated dict has, each row as it reads back; every scope
    and the whole store load the same state; and nothing is written only when
    there was nothing to clear. *)
Theorem store_refines_dict (o : outside_world) (mu : mutation) (w w' : world) (st : ClassifiedStore)
    (Hc : clocks_ok o) (Hmu : mutation_ok mu) (Hload : load_state (read_clock o) (read_source_bytes o w) = Ok st)
    (Hkeys : keys_ok (version st) (entries st)) (Hrun : run o mu w = (w', Ok tt)) :
  match effect o mu (mappings st) with
  | None => w' = w ∧ ∃ s e n x, mu = Clear s e n x ∧ find_mapping (mappings st) s e n true = None
  | Some d => ∃ st', mappings st' ≡ reread_all d ∧ ∀ o', read_fault o' = None →
      let src := read_source_bytes o' w' in
      load_state (read_clock o') src = Ok st'
      ∧ (∀ s e sl, load_state_for_scope (read_clock o') src s e sl = Ok st')
      ∧ ∀ s e n fb, get_mapping (read_clock o') src s e n fb None = Ok (find_mapping (reread_all d) s e n fb)
  end.
Proof.
  destruct (load_state_ok _ _ _ (proj1 Hc) Hload Hkeys) as [Hs Hr]. pose proof (run_commits _ _ _ _ _ Hload Hrun) as H.
  destruct (effect o mu (mappings st)) as [d|] eqn:E.
  - destruct H as (data & Hd & Ht). destruct (effect_ok _ _ _ _ Hc Hmu Hs Hr E) as [Hs' Hr'].
    destruct (document_answers _ _ _ (proj2 (proj2 Hc)) Hs' Hr' Hd) as (st' & He & _ & _ & _ & H1 & H2 & H3).
    exists st'. split; [done|]. intros o' Ho'. unfold read_source_bytes. rewrite Ho', Ht. cbv zeta. auto.
  - destruct H as (-> & s & e & n & x & ->). split; [done|]. exists s, e, n, x. split; [done|]. cbn [effect] in E.
    unfold find_mapping in *. rewrite resolve_idempotent in E. by destruct (first_of _ _).
Qed.
End refinement.
