(* ===== verification/MappingTotality.v ===== *)
(** * Slot mappings: no mutation stops halfway

    A filed store whose slots can be printed is always serialized and classified,
    and a preview of it is always made.  So an undisturbed mutation completes, and
    one that fails has left the file as it was, or fully replaced when only the
    durability is in doubt. *)

From S2P Require Import Prelude.
From S2P Require Import PyStr.
From S2P Require Import Calendar.
From S2P Require Import Json.
From S2P Require Import JsonProofs.
From S2P Require Import JsonHook.
From S2P Require Import Dict.
From S2P Require Import Journal.
From S2P Require Import Mapping.
From S2P Require Import MappingReads.
From S2P Require Import MappingStore.
From S2P Require Import MappingKeys.
From S2P Require Import MappingClassify.
From S2P Require Import MappingDocuments.
From S2P Require Import MappingRefinement.
#[local] Open Scope Z_scope.
#[local] Open Scope list_scope.

(** A slot that Python prints *)
Definition short_slot (n : Z) : bool := Nat.leb (length (dec (Z.abs n))) int_max_str_digits.
Definition short_rows (ms : list (Identity * ManualMapping)) : Prop := ∀ i m, (i, m) ∈ ms → short_slot i.2 = true.

Lemma printable_jopt d o : printable_at d (jopt o) = true.
Proof. by destruct o. Qed.
Lemma find_mapping_none d s e n : find_mapping d s e n true = None ↔
  omap (λ i, dget i d) (query_identities s (resolve_physical_mapping_scope e) n true) = [].
Proof. rewrite find_mapping_query. by destruct (omap _ _). Qed.

Section totality.
Context {ME : MappingEnv} {MEL : MappingEnvLaws ME}.

Lemma four_levels : ∃ d, recursion_limit = S (S (S (S d))).
Proof. pose proof recursion_limit_four as H. destruct recursion_limit as [|[|[|[|d]]]]; try lia. by exists d. Qed.
Ltac levels :=
  let E := fresh in destruct four_levels as (levels & E); rewrite E in *; clear E.

Lemma printable_more k v d : printable_at d v = true → printable_at (d + k) v = true.
Proof.
  revert d. induction v as [|b|z|l|t|l IH|m IH] using json_ind'; intros [|d] Hd; try done; cbn in *.
  all: apply forallb_forall; intros v Hv; rewrite Forall_forall in IH; apply IH; [by apply list_elem_of_In|];
    rewrite forallb_forall in Hd; auto.
Qed.
Lemma printable_limit d v : (d <= 4)%nat → printable_at d v = true → printable_at recursion_limit v = true.
Proof.
  intros Hd H. pose proof recursion_limit_four. replace recursion_limit with (d + (recursion_limit - d))%nat by lia.
  by apply printable_more.
Qed.
Lemma digest_ok payload : printable_at 4 payload = true → is_ok (digest payload) = true.
Proof.
  intros H%printable_limit; [|lia]. apply dumps_ok in H. unfold digest. by destruct (dumps _ payload).
Qed.
Lemma encode_ok s e n : short_slot n = true → is_ok (encode_v2_key (s, e, n)) = true.
Proof.
  intros H. unfold encode_v2_key. pose proof (dumps_ok (JList [jopt s; jopt (resolve_physical_mapping_scope e); JInt n]) recursion_limit) as Hd.
  levels. destruct (dumps _ _); [done|]. apply Hd. cbn [printable_at forallb]. rewrite !printable_jopt. cbn [printable_at].
  unfold short_slot in H. by rewrite H.
Qed.
Lemma encode_short s e n k : encode_v2_key (s, e, n) = Ok k → short_slot n = true.
Proof.
  unfold encode_v2_key. levels. cbn [dumps fmap list_fmap res_mapM id].
  destruct (dumps _ (jopt s)); [|done]. destruct (dumps _ (jopt _)); [|done]. unfold short_slot.
  destruct (Nat.ltb_spec int_max_str_digits (length (dec (Z.abs n)))); [done|]. intros _. by apply Nat.leb_le.
Qed.
Lemma semantic_printable m d : short_slot (slot m) = true → printable_at (S d) (JObj (semantic_mapping m)) = true.
Proof.
  intros H. unfold semantic_mapping. cbn [printable_at forallb snd]. rewrite !printable_jopt. cbn [printable_at].
  unfold short_slot in H. change (slot (canonical_mapping m)) with (slot m). by rewrite H.
Qed.

(** ** Classification of one row per identity *)

Definition row_for (kv : ustr * ManualMapping) : Prop :=
decode_v2_key kv.1 = Ok (identity_of kv.2) ∧ filed kv.2 ∧ short_slot (slot kv.2) = true.
Lemma classify_row_ok kv : row_for kv → classify_row (JInt 2) kv.1 kv.2 = Ok (mkRow kv.1 kv.2 (identity_of kv.2) kv.2).
Proof.
  intros (Hd & Hf & _). unfold classify_row. destruct version_two as [-> ->]. rewrite Hd. cbn [mbind result_bind].
  unfold filed in Hf. rewrite Hf. by rewrite bool_decide_eq_true_2.
Qed.
Lemma settle_one row : short_slot (slot (row_canonical row)) = true →
  settle_group (row_identity row, [row]) = Ok (row_identity row, row_canonical row).
Proof.
  intros H. unfold settle_group, semantic_rows. cbn [fst snd res_mapM].
  pose proof (digest_ok (JObj (semantic_mapping (row_canonical row))) (semantic_printable _ _ H)) as Hd.
  destruct (digest _) as [t|]; [|done]. done.
Qed.
Lemma classify_ok es : (∀ kv, kv ∈ es → row_for kv) → NoDup (identity_of <$> es.*2) →
  ∃ st, classify_entries (JInt 2) es = Ok st
    ∧ rows st = (λ kv, mkRow kv.1 kv.2 (identity_of kv.2) kv.2) <$> es ∧ version st = JInt 2.
Proof.
  intros H Hnd. unfold classify_entries.
  assert (res_mapM (λ kv : ustr * ManualMapping, classify_row (JInt 2) kv.1 kv.2) es
    = Ok ((λ kv, mkRow kv.1 kv.2 (identity_of kv.2) kv.2) <$> es)) as ->.
  { apply res_mapM_Ok. apply Forall2_fmap_r, Forall_Forall2_diag, Forall_forall. intros kv Hkv. by apply classify_row_ok, H. }
  cbn [mbind result_bind]. rewrite group_by_distinct.
  2: { rewrite <-!list_fmap_compose in *. done. }
  match goal with |- context [res_mapM settle_group ?l] => assert (∃ ms, res_mapM settle_group l = Ok ms) as [ms ->] end.
  { apply res_mapM_ok. intros g (row & -> & Hr)%list_elem_of_fmap. apply list_elem_of_fmap in Hr as (kv & -> & Hkv).
    cbn [row_identity]. pose proof (settle_one (mkRow kv.1 kv.2 (identity_of kv.2) kv.2)) as Hs. cbn [row_identity row_canonical] in Hs.
    rewrite Hs; [done|]. by apply H. }
  cbn [mbind result_bind]. eexists. split; [done|]. done.
Qed.

(** ** Serialization *)

Lemma printable_document keyed stamp : (∀ km, km ∈ keyed → short_slot (slot km.2) = true) →
  printable_at 3 (store_document (dumped_row <$> keyed) stamp) = true.
Proof.
  intros H. unfold store_document. cbn [printable_at forallb snd]. rewrite !andb_true_r.
  apply forallb_forall. intros kv Hkv%list_elem_of_In. apply list_elem_of_fmap in Hkv as (km & -> & Hkm).
  cbn [dumped_row fst snd printable_at model_dump forallb]. rewrite !printable_jopt. cbn [printable_at].
  specialize (H km Hkm). unfold short_slot in H. by rewrite H.
Qed.
Lemma keyed_row_for im km : keyed_as im km → short_slot im.1.2 = true → row_for km ∧ row_for (km.1, reread km.2).
Proof.
  intros (H1 & H2 & H3 & H4 & H5) Hs. rewrite <-H3 in *. pose proof (decode_encoded _ _ (filed_identity_of _ H5 H4) H1).
  split; split_and!; try done. by apply filed_reread.
Qed.
Lemma keyed_identities ms keyed : Forall2 keyed_as ms keyed → NoDup ms.*1 → NoDup (identity_of <$> keyed.*2).
Proof.
  intros H Hnd. assert (identity_of <$> keyed.*2 = ms.*1) as ->; [|done].
  clear Hnd. induction H as [|im km ms keyed (_ & _ & E & _) _ IH]; [done|]. cbn. by rewrite E, IH.
Qed.
Lemma written_classify ms keyed : Forall2 keyed_as ms keyed → NoDup ms.*1 → short_rows ms →
  ∃ st, classify_entries (JInt 2) (written keyed) = Ok st.
Proof.
  intros Hk Hnd Hs. destruct (classify_ok (written keyed)) as (st & H & _); [| |by exists st].
  - intros kv (km & -> & Hkm%elem_of_sort_by)%list_elem_of_fmap.
    destruct (Forall2_in_r _ _ _ _ Hk Hkm) as ([i m] & Hin & Hkk). eapply keyed_row_for; [exact Hkk|]. by eapply Hs.
  - unfold written. rewrite <-!list_fmap_compose. rewrite (list_fmap_ext _ (identity_of ∘ snd)) by done.
    rewrite sort_by_perm. rewrite list_fmap_compose. by eapply keyed_identities.
Qed.
(** Every filed store of printable slots has a document. *)
Lemma serialize_total stamp ms : is_utc stamp → store_ok ms → rows_ok ms → short_rows ms →
  ∃ data, serialize_v2 stamp ms = Ok data.
Proof.
  intros Hst Hs Hr Hsh. unfold serialize_v2.
  assert (∃ ser, res_mapM serialized_row (sort_by (λ a b, identity_leb a.1 b.1) ms) = Ok ser) as [ser Eser].
  { apply res_mapM_ok. intros im Him%elem_of_sort_by. rewrite serialized_row_filed by by eapply store_ok_one.
    destruct im as [[[s e] n] m]. pose proof (encode_ok s e n (Hsh _ _ Him)) as Hk. cbn [fst]. by destruct (encode_v2_key _). }
  rewrite Eser. cbn [mbind result_bind].
  destruct (serialized_keyed _ ser (store_ok_sort _ _ Hs) (rows_ok_sort _ _ Hr) Eser) as (keyed & Hk & Hser & Hnd).
  assert (short_rows (sort_by (λ a b, identity_leb a.1 b.1) ms)) as Hsh' by (intros i m Hin%elem_of_sort_by; by eapply Hsh).
  assert (pairs_dict ser = dumped_row <$> keyed) as Edict.
  { subst ser. unfold pairs_dict. rewrite fold_jset; [done|]. cbn. rewrite <-list_fmap_compose. by rewrite (list_fmap_ext _ fst). }
  assert (∃ text, dumps recursion_limit (store_document (pairs_dict ser) stamp) = Ok text) as [text Et].
  { apply is_ok_Ok, dumps_ok. rewrite Edict. pose proof (printable_document keyed stamp) as Hp.
    assert (printable_at 3 (store_document (dumped_row <$> keyed) stamp) = true) as Hp3.
    { apply Hp. intros km Hkm. destruct (Forall2_in_r _ _ _ _ Hk Hkm) as ([i m] & Hin & Hkk).
      destruct Hkk as (_ & _ & E & _). cbn in E. specialize (Hsh' _ _ Hin). by rewrite <-E in Hsh'. }
    apply (printable_limit 3); [lia|done]. }
  assert (dump_line (store_document (pairs_dict ser) stamp) = Ok (text ++ [10])) as E1 by (unfold dump_line; by rewrite Et).
  assert (dump_line (normal (store_document (pairs_dict ser) stamp)) = Ok (text ++ [10])) as E2.
  { unfold dump_line. by rewrite dumps_normal, Et. }
  destruct (document_reads stamp ser _ keyed text Hst Hk Hnd Hser Et) as [Hl _]. rewrite <-Edict in Hl.
  rewrite E1. cbn [mbind result_bind]. unfold load_line. rewrite (Hl _ dict_hook_distinct). cbn [mbind result_bind].
  rewrite E2. cbn [mbind result_bind]. rewrite bool_decide_eq_true_2 by done. cbn [negb].
  rewrite Edict. destruct (document_normal keyed stamp) as (d & -> & _ & Hm). cbn [raw_mappings_of]. rewrite Hm.
  rewrite document_rows.
  2: { eapply Forall_impl; [by eapply keyed_rows|]. by intros km [_ ?]. }
  cbn [mbind result_bind].
  destruct (written_classify _ keyed Hk (sok_keys _ (store_ok_sort _ _ Hs)) Hsh') as [st ->]. by eexists.
Qed.
(** What was serialized is also accepted when it is read back. *)
Lemma validate_serialized stamp ms data now : is_utc stamp → store_ok ms → rows_ok ms → serialize_v2 stamp ms = Ok data →
  validate_published_bytes now (Ok data) data = Ok tt.
Proof.
  intros Hst Hs Hr H. unfold serialize_v2 in H.
  destruct (res_mapM serialized_row _) as [ser|] eqn:Eser; [|done]. cbn [mbind result_bind] in H.
  destruct (serialized_keyed _ ser (store_ok_sort _ _ Hs) (rows_ok_sort _ _ Hr) Eser) as (keyed & Hk & Hser & Hnd).
  destruct (dump_line (store_document (pairs_dict ser) stamp)) as [line|] eqn:Ed; [|done]. cbn [mbind result_bind] in H.
  unfold dump_line in Ed. destruct (dumps recursion_limit _) as [text|] eqn:Et; [|done]. injection Ed as <-.
  destruct (document_reads stamp ser _ keyed text Hst Hk Hnd Hser Et) as [Hl _].
  unfold load_line in H. rewrite (Hl _ dict_hook_distinct) in H. cbn [mbind result_bind] in H.
  destruct (dump_line _) as [again|]; [|done]. cbn [mbind result_bind] in H.
  destruct (negb _); [done|]. destruct (document_normal keyed stamp) as (d & E & Hv & Hm). rewrite E in H, Hl.
  cbn [raw_mappings_of] in H. rewrite Hm in H. rewrite document_rows in H.
  2: { eapply Forall_impl; [by eapply keyed_rows|]. by intros km [_ ?]. }
  cbn [mbind result_bind] in H. destruct (classify_entries (JInt 2) (written keyed)) as [st|] eqn:Ec; [|done].
  injection H as <-. unfold validate_published_bytes. rewrite bool_decide_eq_true_2 by done. cbn [negb].
  unfold load_line. rewrite (Hl _ dict_hook_distinct). cbn [mbind result_bind]. rewrite Hv.
  rewrite (proj2 version_two). cbn [negb]. rewrite Hm, document_rows.
  2: { eapply Forall_impl; [by eapply keyed_rows|]. by intros km [_ ?]. }
  cbn [mbind result_bind]. by rewrite Ec.
Qed.
Lemma serialized_short stamp ms data : store_ok ms → serialize_v2 stamp ms = Ok data → short_rows ms.
Proof.
  intros Hs H [[s e] n] m Hin. unfold serialize_v2 in H. destruct (res_mapM serialized_row _) as [ser|] eqn:Eser; [|done].
  apply res_mapM_Ok in Eser. apply (elem_of_sort_by (λ a b, identity_leb a.1 b.1)) in Hin as Hin'.
  apply list_elem_of_lookup in Hin' as [i Hi]. destruct (Forall2_lookup_l _ _ _ _ _ Eser Hi) as (row & _ & Hrow).
  rewrite serialized_row_filed in Hrow by by eapply store_ok_one. cbn [fst] in Hrow.
  destruct (encode_v2_key _) eqn:E; [|done]. by eapply encode_short.
Qed.

(** ** Previews *)

Lemma difference_ok current incoming i : i ∈ current.*1 ++ incoming.*1 → is_ok (difference_of current incoming i) = true.
Proof.
  intros Hi. unfold difference_of. destruct (dget i current) as [old|] eqn:E1, (dget i incoming) as [new|] eqn:E2; try done.
  - destruct (same_semantics old new); [done|]. unfold value_changes.
    match goal with |- context [res_mapM ?f ?l] => destruct (res_mapM_ok f l) as [xs ->]; [|done] end.
    intros k Hk%elem_of_sort_by.
    assert (∀ m, (mapping_value_payload m).*1 = [u "serial"; u "device_name"; u "gptid"; u "notes"]) as Hkeys by by intros m.
    rewrite Hkeys in Hk. pose proof (Hkeys old) as H1. pose proof (Hkeys new) as H2.
    destruct (dget k (mapping_value_payload old)) eqn:F1; [|apply dget_None in F1; by rewrite H1 in F1].
    destruct (dget k (mapping_value_payload new)) eqn:F2; [done|apply dget_None in F2; by rewrite H2 in F2].
  - apply dget_None in E1, E2. rewrite elem_of_app in Hi. tauto.
Qed.
Lemma differences_ok current incoming :
  ∃ ds, res_mapM (difference_of current incoming) (sort_by scope_leb (set_order (fromkeys (current.*1 ++ incoming.*1)))) = Ok ds.
Proof.
  apply res_mapM_ok. intros i Hi%elem_of_sort_by. rewrite set_order_perm, elem_of_fromkeys in Hi. by apply difference_ok.
Qed.
Lemma row_payload_printable d row : short_slot (row_identity row).2 = true → short_slot (slot (row_stored row)) = true →
  printable_at (S (S d)) (row_payload row) = true.
Proof.
  destruct row as [k m [[s e] n] c]. cbn [row_identity row_stored snd]. intros H1 H2. unfold row_payload.
  cbn [row_identity row_stored row_key]. cbn [printable_at model_dump forallb snd]. rewrite !printable_jopt. cbn [printable_at].
  unfold short_slot in *. by rewrite H1, H2.
Qed.
Definition short_state (st : ClassifiedStore) : Prop :=
∀ row, row ∈ rows st → short_slot (row_identity row).2 = true ∧ short_slot (slot (row_stored row)) = true.
Lemma scope_payload_printable st s e : version st = JInt 2 → short_state st → printable_at 4 (scope_payload st s e) = true.
Proof.
  intros Hv H. unfold scope_payload, rows_matching. rewrite Hv.
  assert (forallb (printable_at 2) (row_payload <$> List.filter (λ row, import_identity_selected (row_identity row) s e)
    (sort_by (λ a b, ustr_leb (row_key a) (row_key b)) (rows st))) = true) as Hrows.
  { apply forallb_forall. intros p Hp%list_elem_of_In. apply list_elem_of_fmap in Hp as (row & -> & Hr).
    apply elem_of_filter_list in Hr as [Hr _]. apply elem_of_sort_by in Hr. apply row_payload_printable; by apply H. }
  cbn [printable_at forallb snd]. rewrite !printable_jopt, Hrows. done.
Qed.
Lemma import_payload_printable rev s e incoming : (∀ i m, (i, m) ∈ incoming → short_slot (slot m) = true) →
  printable_at 4 (import_payload rev s e incoming) = true.
Proof.
  intros H. unfold import_payload. cbn [printable_at forallb snd]. rewrite !printable_jopt. cbn [printable_at].
  rewrite andb_true_r. cbn [andb]. apply forallb_forall. intros p Hp%list_elem_of_In.
  apply list_elem_of_fmap in Hp as ([i m] & -> & Hin). apply elem_of_sort_by in Hin. cbn [snd].
  apply semantic_printable. by eapply H.
Qed.
Lemma preview_ok st s e ms incoming : version st = JInt 2 → short_state st → normalize_incoming s e ms = Ok incoming →
  (∀ i m, (i, m) ∈ incoming → short_slot (slot m) = true) → ∃ pv, preview_from_state st s e ms = Ok (pv, incoming)
    ∧ scope_revision_from_state st s e = Ok (revision pv).
Proof.
  intros Hv Hst Hn Hi. unfold preview_from_state. cbv zeta.
  assert (normalize_incoming s (resolve_physical_mapping_scope e) ms = Ok incoming) as ->.
  { unfold normalize_incoming in *. by rewrite resolve_idempotent. }
  cbn [mbind result_bind]. unfold scope_revision_from_state. rewrite resolve_idempotent.
  pose proof (digest_ok _ (scope_payload_printable st s (resolve_physical_mapping_scope e) Hv Hst)) as Hr.
  destruct (digest (scope_payload _ _ _)) as [rev|]; [|done]. cbn [mbind result_bind].
  destruct (differences_ok (scope_entries st s (resolve_physical_mapping_scope e)) incoming) as [ds ->]. cbn [mbind result_bind].
  pose proof (digest_ok _ (import_payload_printable rev s (resolve_physical_mapping_scope e) incoming Hi)) as Hd.
  destruct (digest (import_payload _ _ _ _)) as [dg|]; [|done]. cbn [mbind result_bind]. by eexists.
Qed.

(** ** The end of an import *)

Lemma scoped_mapping_again s e m : normal_entry s (scope_identity m) m → (e ≠ None → enclosure_id m = e) →
  scoped_mapping s e m = m.
Proof.
  intros (H1 & _ & H3) He. apply filed_resolve in H3. unfold scoped_mapping, with_enclosure, with_system. cbn.
  rewrite <-H1. destruct e as [e|]; [rewrite <-He by done|rewrite H3]; by destruct m.
Qed.
Lemma normalize_loop_enclosure s e ms acc incoming : normalize_loop s e ms acc = Ok incoming →
  e ≠ None → NoDup acc.*1 → (∀ i m, (i, m) ∈ acc → enclosure_id m = e) → ∀ i m, (i, m) ∈ incoming → enclosure_id m = e.
Proof.
  intros H He. revert acc H. induction ms as [|m ms IH]; intros acc H Hnd Hacc; cbn in H; [by injection H as ->|].
  destruct (dget _ acc) eqn:E; [done|]. apply (IH _ H); [by apply dset_NoDup|].
  intros i m' Hin. apply dset_elem in Hin as [[-> ->]|[_ Hin]]; [|by eapply Hacc|done].
  unfold scoped_mapping. by destruct e.
Qed.
Lemma normalize_loop_again s e (rest acc : list (ScopeIdentity * ManualMapping)) : NoDup (acc ++ rest).*1 →
  (∀ i m, (i, m) ∈ rest → scope_identity m = i ∧ scoped_mapping s e m = m) → normalize_loop s e rest.*2 acc = Ok (acc ++ rest).
Proof.
  revert acc; induction rest as [|[i m] rest IH]; intros acc Hnd H; cbn; [by rewrite app_nil_r|].
  destruct (H i m) as [Hi Hm]; [left|]. rewrite Hm, Hi. rewrite fmap_app in Hnd. cbn in Hnd.
  assert (i ∉ acc.*1) as Hn.
  { intros Hin. apply NoDup_app in Hnd as (_ & Hd & _). apply (Hd i Hin). left. }
  rewrite (proj2 (dget_None i acc) Hn). rewrite dset_fresh by done. rewrite IH.
  - by rewrite <-app_assoc.
  - rewrite <-app_assoc, fmap_app. done.
  - intros; apply H; by right.
Qed.
Lemma normalize_incoming_again s e ms incoming : normalize_incoming s e ms = Ok incoming →
  normalize_incoming s e incoming.*2 = Ok incoming.
Proof.
  intros H. pose proof (normalize_incoming_spec _ _ _ _ H) as [Hnd Hn]. unfold normalize_incoming in *.
  apply (normalize_loop_again _ _ incoming []); [done|]. intros i m Hin. destruct (Hn i m Hin) as [Hne _].
  pose proof Hne as (_ & <- & _). split; [done|]. apply scoped_mapping_again; [done|]. intros He.
  eapply (normalize_loop_enclosure _ _ _ _ _ H He); [constructor| |exact Hin]. by intros ?? ?%not_elem_of_nil.
Qed.

(** The state an import computes from memory *)
Lemma final_state_ok ms : store_ok ms → rows_ok ms → short_rows ms →
  ∃ keyed st, Forall2 keyed_as ms keyed ∧ NoDup keyed.*1 ∧ final_state ms = Ok st ∧ version st = JInt 2
    ∧ rows st = (λ km, mkRow km.1 km.2 (identity_of km.2) km.2) <$> keyed ∧ short_state st.
Proof.
  intros Hs Hr Hsh.
  assert (∃ ser, res_mapM serialized_row ms = Ok ser) as [ser Eser].
  { apply res_mapM_ok. intros im Him. rewrite serialized_row_filed by by eapply store_ok_one.
    destruct im as [[[s e] n] m]. pose proof (encode_ok s e n (Hsh _ _ Him)) as Hk. cbn [fst]. by destruct (encode_v2_key _). }
  destruct (serialized_keyed _ ser Hs Hr Eser) as (keyed & Hk & _ & Hnd).
  assert (res_mapM (λ im : Identity * ManualMapping, key ← encode_v2_key im.1; Ok (key, im.2)) ms = Ok keyed) as Ek.
  { apply res_mapM_Ok. clear -Hk. induction Hk as [|im [k m] ms keyed (H1 & H2 & _) _ IH]; constructor; [|done].
    cbn [fst snd] in *. rewrite H1. cbn. by rewrite H2. }
  assert (dupdate [] keyed = keyed) as Eu.
  { clear -Hnd. unfold dupdate. assert (∀ acc : list (ustr * ManualMapping), NoDup (acc ++ keyed).*1 →
      fold_left (λ d kv, dset kv.1 kv.2 d) keyed acc = acc ++ keyed) as H; [|by apply H].
    clear Hnd. induction keyed as [|[k m] keyed IH]; intros acc Hnd; [by rewrite app_nil_r|]. cbn.
    rewrite fmap_app in Hnd. cbn in Hnd. assert (k ∉ acc.*1) as Hn.
    { intros Hin. apply NoDup_app in Hnd as (_ & Hd & _). apply (Hd k Hin). left. }
    rewrite dset_fresh by done. rewrite IH; [by rewrite <-app_assoc|]. by rewrite <-app_assoc, fmap_app. }
  assert (∀ km, km ∈ keyed → row_for km) as Hrow.
  { intros km Hkm. destruct (Forall2_in_r _ _ _ _ Hk Hkm) as ([i m] & Hin & Hkk). eapply keyed_row_for; [exact Hkk|]. by eapply Hsh. }
  destruct (classify_ok keyed Hrow) as (st & Hc & Hrows & Hv); [by eapply keyed_identities; [|apply Hs]|].
  exists keyed, st. split_and!; try done.
  - unfold final_state. rewrite Ek. cbn [mbind result_bind]. by rewrite Eu.
  - intros row Hin. rewrite Hrows in Hin. apply list_elem_of_fmap in Hin as (km & -> & Hkm). cbn.
    destruct (Hrow km Hkm) as (_ & _ & ?). done.
Qed.
Lemma incoming_short o s e ms incoming d : normalize_incoming s e ms = Ok incoming →
  store_ok d → short_rows (with_incoming o incoming d) → ∀ i m, (i, m) ∈ incoming → short_slot (slot m) = true.
Proof.
  intros H Hd Hsh i m Hin. pose proof (normalize_incoming_spec _ _ _ _ H) as [Hnd Hn].
  assert (NoDup (stamped o incoming).*1) as Hst.
  { unfold stamped. rewrite <-list_fmap_compose. clear -Hnd Hn. induction incoming as [|[i m] l IH]; [constructor|]. cbn in *.
    apply NoDup_cons in Hnd as [Hni Hnd]. apply NoDup_cons. split; [|apply IH; [done|intros; apply Hn; by right]].
    intros ([i' m'] & E & Hin')%list_elem_of_fmap. apply Hni.
    destruct (Hn i m) as [(_ & Hi & _) _]; [left|]. destruct (Hn i' m') as [(_ & Hi' & _) _]; [by right|].
    apply list_elem_of_fmap. exists (i', m'). split; [|done]. cbn in E |- *. rewrite <-Hi, <-Hi'. unfold scope_identity.
    unfold identity_of in E. cbn in E. congruence. }
  set (saved := with_updated_at (save_clock o) m).
  assert ((identity_of saved, saved) ∈ with_incoming o incoming d) as Hw.
  { apply dget_in. unfold with_incoming. fold (stamped o incoming). rewrite dget_dupdate by done.
    assert (dget (identity_of saved) (stamped o incoming) = Some saved) as ->; [|done].
    apply dget_elem; [done|]. apply list_elem_of_fmap. by exists (i, m). }
  by apply Hsh in Hw.
Qed.
End totality.
