(* ===== verification/MappingOutcomes.v ===== *)
(** * Slot mappings: how a mutation ends

    Every mutation is a refusal that leaves the directory alone, or one commit of
    the dict it promises, a journal entry when that commit returned, and a result
    computed without failing. *)

From S2P Require Import Prelude.
From S2P Require Import PyStr.
From S2P Require Import Calendar.
From S2P Require Import Json.
From S2P Require Import JsonProofs.
From S2P Require Import JsonHook.
From S2P Require Import Dict.
From S2P Require Import Journal.
From S2P Require Import Mapping.
From S2P Require Import MappingReads.
From S2P Require Import MappingStore.
From S2P Require Import MappingKeys.
From S2P Require Import MappingClassify.
From S2P Require Import MappingDocuments.
From S2P Require Import MappingRefinement.
From S2P Require Import MappingTotality.
#[local] Open Scope Z_scope.
#[local] Open Scope list_scope.

(** No step of a commit of [data] fails. *)
Record steps_ok (s : commit_script) (data : list Z) : Prop := {
  steps_create : create_temp_file TEMP_ATTEMPTS (opens s) = Ok tt;
  steps_write : write_temp_bytes (length data) 0 (writes s) data = Ok tt;
  steps_flush : flush_fault s = None;
  steps_fsync : fsync_fault s = None;
  steps_close : close_fault s = None;
  steps_replace : replace_fault s = None;
  steps_directory : directory_fault s = None;
  steps_reread : reread_bytes s = Ok None;
}.

(** Writing in pieces that are never empty and add up to what is written *)
Lemma write_pieces fuel n writes data pieces : (length data <= fuel)%nat →
  (∀ i p, pieces !! i = Some p → writes (n + i)%nat = Ok p ∧ 0 < p) → foldr Z.add 0 pieces = Z.of_nat (length data) →
  write_temp_bytes fuel n writes data = Ok tt.
Proof.
  revert n data pieces. induction fuel as [|fuel IH]; intros n data pieces Hf Hp Hsum.
  { destruct data; [done|cbn in Hf; lia]. }
  destruct data as [|b data]; [done|]. destruct pieces as [|p pieces]; [done|]. cbn [write_temp_bytes].
  destruct (Hp 0%nat p eq_refl) as [Hw Hpos]. rewrite Nat.add_0_r in Hw. rewrite Hw.
  assert (0 <= foldr Z.add 0 pieces) as Hrest.
  { assert (∀ i q, pieces !! i = Some q → 0 < q) as Hall by by intros i q Hq; apply (Hp (S i) q).
    clear -Hall. induction pieces as [|q l IH]; [done|]. cbn. pose proof (Hall 0%nat q eq_refl).
    specialize (IH ltac:(intros i q' Hq; by apply (Hall (S i)))). lia. }
  cbn [foldr] in Hsum. rewrite (proj2 (Z.leb_gt p 0)), (proj2 (Z.ltb_ge _ _)) by lia. cbn [orb].
  apply (IH _ _ pieces).
  - rewrite length_drop. cbn in *. lia.
  - intros i q Hq. destruct (Hp (S i) q Hq). split; [|done]. by rewrite Nat.add_succ_comm.
  - rewrite length_drop. cbn [length] in *. lia.
Qed.

(** ** Running a step *)

Lemma bind_at {A B} (m : op A) (k : A → op B) w w1 a : m w = (w1, Ok a) → (m ≫= k) w = k a w1.
Proof. unfold mbind, op_bind. by intros ->. Qed.
Lemma op_bind_err {A B} (m : op A) (k : A → op B) w w1 e : m w = (w1, Err e) → (m ≫= k) w = (w1, Err e).
Proof. unfold mbind, op_bind. by intros ->. Qed.
Lemma bind_ret {A B} (a : A) (k : A → op B) w : (mret a ≫= k) w = k a w.
Proof. done. Qed.
Lemma bind_raise {A B} e (k : A → op B) w : (raise_op e ≫= k) w = (w, Err e).
Proof. done. Qed.
Lemma bind_pure {A B} (r : result map_exn A) (k : A → op B) w :
  (pure_op r ≫= k) w = match r with Ok a => k a w | Err e => (w, Err e) end.
Proof. by destruct r. Qed.
Lemma discard_at {A} (m : op A) w :
  discard m w = match m w with (w1, Ok _) => (w1, Ok tt) | (w1, Err e) => (w1, Err e) end.
Proof. unfold discard, mbind, op_bind. by destruct (m w) as [w1 [a|e]]. Qed.

Section outcomes.
Context {ME : MappingEnv} {MEL : MappingEnvLaws ME}.

(** What a mutation asks of the state it meets *)
Definition accepted (st : ClassifiedStore) (mu : mutation) : Prop :=
match mu with
| Save m (Some r) =>
    let m := canonical_mapping m in save_revision_from_state st (system_id m) (enclosure_id m) (slot m) None = Ok r
| Clear s e n (Some r) => clear_revision_from_state st s (resolve_physical_mapping_scope e) n = Ok r
| Import s e ms r dg => ∃ p incoming, preview_from_state st s (resolve_physical_mapping_scope e) ms = Ok (p, incoming)
    ∧ revision p = r ∧ import_digest p = dg
| _ => True
end.

Definition journalled (w : world) (change : ustr * ustr) : world := mkWorld (target w) (leftovers w) (config_changes w ++ [change]).

(** The shape of a run: a refusal, or a commit and what follows from it *)
Inductive run_shape (o : outside_world) (mu : mutation) (st : ClassifiedStore) (w : world) : world → result map_exn unit → Prop :=
| run_refused e : ¬ accepted st mu ∨ effect o mu (mappings st) = None → run_shape o mu st w w (Err e)
| run_nothing : effect o mu (mappings st) = None → run_shape o mu st w w (Ok tt)
| run_failed d w1 e : effect o mu (mappings st) = Some d → commit_v2 o d w = (w1, Err e) → run_shape o mu st w w1 (Err e)
| run_done d w1 change : effect o mu (mappings st) = Some d → commit_v2 o d w = (w1, Ok tt) →
    run_shape o mu st w (journalled w1 change) (Ok tt).

Lemma check_revision_cases x r w : (check_revision x r w = (w, Ok tt) ∧ match x with Some v => r = Ok v | None => True end)
  ∨ (∃ e v, check_revision x r w = (w, Err e) ∧ x = Some v ∧ r ≠ Ok v).
Proof.
  destruct x as [v|]; [|by left]. cbn. unfold pure_op, mbind, op_bind. destruct r as [c|e].
  - case_bool_decide as E; [left; by subst|right]. eexists _, v. split_and!; [done|done|congruence].
  - right. by eexists _, v.
Qed.
Lemma commit_v2_short o d w w1 : store_ok d → commit_v2 o d w = (w1, Ok tt) → short_rows d.
Proof.
  intros Hd H. unfold commit_v2 in H. step_op H. apply pure_op_Ok in E as [-> E]. by eapply serialized_short.
Qed.

Lemma preview_incoming st s e ms p incoming : preview_from_state st s e ms = Ok (p, incoming) →
  normalize_incoming s e ms = Ok incoming ∧ scope_revision_from_state st s e = Ok (revision p).
Proof.
  intros H. unfold preview_from_state in H. cbv zeta in H.
  assert (normalize_incoming s (resolve_physical_mapping_scope e) ms = normalize_incoming s e ms) as En.
  { unfold normalize_incoming. by rewrite resolve_idempotent. }
  assert (scope_revision_from_state st s (resolve_physical_mapping_scope e) = scope_revision_from_state st s e) as Er.
  { unfold scope_revision_from_state. by rewrite resolve_idempotent. }
  rewrite En, Er in H. destruct (normalize_incoming s e ms); [|done]. cbn [mbind result_bind] in H.
  destruct (scope_revision_from_state st s e); [|done]. cbn [mbind result_bind] in H.
  destruct (res_mapM _ _); [|done]. cbn [mbind result_bind] in H. destruct (digest _); [|done]. cbn [mbind result_bind] in H.
  by injection H as <- <-.
Qed.
(** The result of an import *)
Lemma import_end o s e ms incoming d w w1 : clocks_ok o → normalize_incoming s e ms = Ok incoming →
  scalar_text s = true → scalar_text e = true → (∀ m, m ∈ ms → row_ok m) → store_ok d → rows_ok d →
  commit_v2 o (with_incoming o incoming d) w = (w1, Ok tt) →
  ∃ final pv, final_state (with_incoming o incoming d) = Ok final
    ∧ preview_from_state final s e incoming.*2 = Ok (pv, incoming).
Proof.
  intros Hc Hn Hs He Hms Hd Hr Hcommit. destruct (with_incoming_ok o s e ms incoming d) as [Hd' Hr']; try done.
  pose proof (commit_v2_short _ _ _ _ Hd' Hcommit) as Hsh.
  destruct (final_state_ok _ Hd' Hr' Hsh) as (keyed & final & _ & _ & Hf & Hv & _ & Hfs).
  destruct (preview_ok final s e incoming.*2 incoming Hv Hfs) as (pv & Hp & _).
  - by eapply normalize_incoming_again.
  - exact (incoming_short o s e ms incoming d Hn Hd Hsh).
  - by exists final, pv.
Qed.

Lemma run_has_shape o mu w w' r st : clocks_ok o → mutation_ok mu →
  load_state (read_clock o) (read_source_bytes o w) = Ok st → store_ok (mappings st) → rows_ok (mappings st) →
  run o mu w = (w', r) → run_shape o mu st w w' r.
Proof.
  intros Hc Hm Hst Hs Hr H.
  assert (load_state_op o w = (w, Ok st)) as Hload by (unfold load_state_op; by rewrite Hst).
  assert (∀ d (A : Type) (k : unit → op A), effect o mu (mappings st) = Some d →
    (∀ w1, commit_v2 o d w = (w1, Ok tt) → ∃ change a, k tt w1 = (journalled w1 change, Ok a)) →
    discard (commit_v2 o d ≫= k) w = (w', r) → run_shape o mu st w w' r) as Hcommit.
  { intros d A k Hd Hk HH. rewrite discard_at in HH. destruct (commit_v2 o d w) as [w1 [[]|e]] eqn:E.
    - rewrite (bind_at _ _ _ _ _ E) in HH. destruct (Hk w1 eq_refl) as (change & a & Hw). rewrite Hw in HH.
      injection HH as <- <-. by eapply run_done.
    - rewrite (op_bind_err _ _ _ _ _ E) in HH. injection HH as <- <-. by eapply run_failed. }
  destruct mu as [m x|s e n x|s e ms|s e ms rv dg]; cbn [run] in H; rewrite discard_at in H;
    cbv delta [save_mapping clear_mapping replace_mappings apply_mapping_import] in H; cbv beta zeta in H;
    rewrite (bind_at _ _ _ _ _ Hload) in H.
  - match type of H with context [check_revision x ?c] => destruct (check_revision_cases x c w) as [[E Ha]|(err & v & E & -> & Ha)] end.
    2: { rewrite (op_bind_err _ _ _ _ _ E) in H. injection H as <- <-. apply run_refused. by left. }
    rewrite (bind_at _ _ _ _ _ E), <-discard_at in H.
    eapply Hcommit; [by rewrite effect_applied| |exact H]. intros w1 _. by eexists _, _.
  - match type of H with context [check_revision x ?c] => destruct (check_revision_cases x c w) as [[E Ha]|(err & v & E & -> & Ha)] end.
    2: { rewrite (op_bind_err _ _ _ _ _ E) in H. injection H as <- <-. apply run_refused. by left. }
    rewrite (bind_at _ _ _ _ _ E) in H. unfold effective_mapping in H.
    assert (find_mapping (mappings st) s (resolve_physical_mapping_scope e) n true =
      match omap (λ i, dget i (mappings st)) (query_identities s (resolve_physical_mapping_scope e) n true) with
      | m :: _ => Some m | [] => None end) as Ef by by rewrite find_mapping_query, resolve_idempotent.
    destruct (omap _ _) as [|m0 ?] eqn:Em.
    + injection H as <- <-. apply run_nothing. rewrite effect_applied. cbn [applied]. by rewrite Ef.
    + rewrite <-discard_at in H. eapply Hcommit; [rewrite effect_applied; cbn [applied]; by rewrite Ef| |exact H]. intros w1 _. by eexists _, _.
  - rewrite bind_pure in H. destruct (normalize_incoming s _ ms) as [inc|err] eqn:En.
    + rewrite <-discard_at in H. eapply Hcommit; [rewrite effect_applied; cbn [applied]; by rewrite En| |exact H]. intros w1 _. by eexists _, _.
    + injection H as <- <-. apply run_refused. right. rewrite effect_applied. cbn [applied]. by rewrite En.
  - rewrite bind_pure in H. destruct Hm as (H1 & H2 & H3).
    destruct (preview_from_state st s (resolve_physical_mapping_scope e) ms) as [[p inc]|err] eqn:Ep.
    2: { injection H as <- <-. apply run_refused. left. intros (p & inc & E & _). cbn in E. congruence. }
    cbn [fst snd] in H. destruct (preview_incoming _ _ _ _ _ _ Ep) as [En _].
    destruct (decide (revision p = rv)) as [Er|Er].
    2: { rewrite (bool_decide_eq_false_2 _ Er), bind_raise in H. injection H as <- <-. apply run_refused. left.
         intros (p' & inc' & E & ? & _). cbn in E. rewrite Ep in E. by injection E as -> ->. }
    rewrite (bool_decide_eq_true_2 _ Er), bind_ret in H. destruct (decide (import_digest p = dg)) as [Ed|Ed].
    2: { rewrite (bool_decide_eq_false_2 _ Ed), bind_raise in H. injection H as <- <-. apply run_refused. left.
         intros (p' & inc' & E & _ & ?). cbn in E. rewrite Ep in E. by injection E as -> ->. }
    rewrite (bool_decide_eq_true_2 _ Ed), bind_ret, <-discard_at in H.
    eapply Hcommit; [rewrite effect_applied; cbn [applied]; by rewrite En| |exact H]. intros w1 Hw1.
    destruct (import_end o s (resolve_physical_mapping_scope e) ms inc _ w w1 Hc En H1 (resolve_scalar _ H2) H3
      (store_ok_keep _ _ Hs) (rows_ok_keep _ _ Hr) Hw1) as (final & pv & Hf & Hp).
    eexists _, _. unfold mbind, op_bind, pure_op, record_config_change. by rewrite Hf, Hp.
Qed.

(** [C11] A mutation that raises has left the file and the journal as they were,
    with at most one temporary file behind; the only other way it can fail is
    that the complete new document is in place but its durability is in doubt.
    One that returns has journalled a change exactly when it wrote the file. *)
Theorem mutation_outcome (o : outside_world) (mu : mutation) (w w' : world) (r : result map_exn unit) (st : ClassifiedStore)
    (Hc : clocks_ok o) (Hmu : mutation_ok mu) (Hload : load_state (read_clock o) (read_source_bytes o w) = Ok st)
    (Hkeys : keys_ok (version st) (entries st)) (Hrun : run o mu w = (w', r)) :
  match r with
  | Ok _ => match effect o mu (mappings st) with
            | Some d => leftovers w' = leftovers w ∧ (∃ data, serialize_v2 (stamp_clock o) d = Ok data ∧ target w' = regular data)
                ∧ ∃ change, config_changes w' = config_changes w ++ [change]
            | None => w' = w
            end
  | Err e => config_changes w' = config_changes w ∧
      ((target w' = target w ∧ (leftovers w <= leftovers w' <= S (leftovers w))%nat)
       ∨ (e = MappingDurabilityError ∧ leftovers w' = leftovers w ∧
          ∃ d data, effect o mu (mappings st) = Some d ∧ serialize_v2 (stamp_clock o) d = Ok data ∧ target w' = regular data))
  end.
Proof.
  destruct (load_state_ok _ _ _ (proj1 Hc) Hload Hkeys) as [Hs Hr].
  destruct (run_has_shape _ _ _ _ _ _ Hc Hmu Hload Hs Hr Hrun) as [e Hno|Hno|d w1 e Hd Hcommit|d w1 change Hd Hcommit].
  - split; [done|left]. split; [done|lia].
  - by rewrite Hno.
  - unfold commit_v2, mbind, op_bind, pure_op in Hcommit. destruct (serialize_v2 (stamp_clock o) d) as [data|err] eqn:Es.
    + apply commit_bytes_Ok in Hcommit. destruct e; destruct_and?; eauto 10.
      all: split; [tauto|left; tauto].
    + injection Hcommit as <- _. split; [done|left]. split; [done|lia].
  - rewrite Hd. unfold commit_v2, mbind, op_bind, pure_op in Hcommit. destruct (serialize_v2 (stamp_clock o) d) as [data|err] eqn:Es; [|done].
    apply commit_bytes_Ok in Hcommit as (Ht & Hl & Hj). cbn. split_and!; [done|by eauto|]. exists change. by rewrite Hj.
Qed.

(** Nothing stops an accepted mutation whose commit meets no fault. *)
Lemma accepted_completes (o : outside_world) (mu : mutation) (w : world) (st : ClassifiedStore)
    (d : list (Identity * ManualMapping)) : clocks_ok o → mutation_ok mu →
  load_state (read_clock o) (read_source_bytes o w) = Ok st → keys_ok (version st) (entries st) →
  accepted st mu → effect o mu (mappings st) = Some d → short_rows d →
  (∀ data, serialize_v2 (stamp_clock o) d = Ok data → steps_ok (script o) data) →
  ∃ w', run o mu w = (w', Ok tt).
Proof.
  intros Hc Hmu Hload Hkeys Hacc Heff Hshort Hsteps.
  destruct (load_state_ok _ _ _ (proj1 Hc) Hload Hkeys) as [Hs Hr].
  destruct (effect_ok _ _ _ _ Hc Hmu Hs Hr Heff) as [Hs' Hr'].
  destruct (serialize_total (stamp_clock o) d (proj2 (proj2 Hc)) Hs' Hr' Hshort) as [data Hd].
  assert (∃ w1, commit_v2 o d w = (w1, Ok tt)) as [w1 Hw1].
  { unfold commit_v2, mbind, op_bind, pure_op. rewrite Hd. destruct (Hsteps data Hd). unfold commit_bytes.
    rewrite steps_create0. unfold write_temp_file. rewrite steps_write0, steps_flush0, steps_fsync0, steps_close0, steps_replace0,
      steps_directory0. cbn [mbind result_bind fault_step]. unfold published_read. rewrite steps_reread0.
    rewrite (validate_serialized _ _ _ _ (proj2 (proj2 Hc)) Hs' Hr' Hd). by eexists. }
  destruct (run o mu w) as [w' r] eqn:Hrun.
  destruct (run_has_shape _ _ _ _ _ _ Hc Hmu Hload Hs Hr Hrun) as [e [Hno|Hno]|Hno|d' w2 e Hd' Hcommit|d' w2 change Hd' Hcommit].
  - done.
  - congruence.
  - congruence.
  - rewrite Heff in Hd'. injection Hd' as <-. congruence.
  - by eexists.
Qed.

(** A clear that meets no mapping returns without writing. *)
Lemma clear_nothing o s e n x w st : load_state (read_clock o) (read_source_bytes o w) = Ok st →
  accepted st (Clear s e n x) → effect o (Clear s e n x) (mappings st) = None →
  run o (Clear s e n x) w = (w, Ok tt).
Proof.
  intros Hst Ha He. assert (load_state_op o w = (w, Ok st)) as Hload by (unfold load_state_op; by rewrite Hst).
  cbn [run]. rewrite discard_at. cbv delta [clear_mapping]. cbv beta zeta. rewrite (bind_at _ _ _ _ _ Hload).
  match goal with |- context [check_revision x ?c] => destruct (check_revision_cases x c w) as [[E _]|(err & v & E & -> & Hn)] end.
  2: { by cbn in Ha. }
  rewrite (bind_at _ _ _ _ _ E). rewrite effect_applied in He. cbn [applied] in He.
  rewrite find_mapping_query, resolve_idempotent in He. unfold effective_mapping.
  destruct (omap _ _) as [|m0 ?]; [done|]. discriminate He.
Qed.

(** [C21] An undisturbed mutation returns: when the state accepts it (the expected
    revision, or the confirmed preview of an import, is the current one), its
    slots can be printed and no step of the commit fails, nothing is raised. *)
Theorem mutation_completes (o : outside_world) (mu : mutation) (w : world) (st : ClassifiedStore)
    (d : list (Identity * ManualMapping))
    (Hc : clocks_ok o) (Hmu : mutation_ok mu) (Hload : load_state (read_clock o) (read_source_bytes o w) = Ok st)
    (Hkeys : keys_ok (version st) (entries st)) (Hacc : accepted st mu) (Heff : effect o mu (mappings st) = Some d)
    (Hshort : short_rows d) (Hsteps : ∀ data, serialize_v2 (stamp_clock o) d = Ok data → steps_ok (script o) data) :
  ∃ w', run o mu w = (w', Ok tt).
Proof. by eapply accepted_completes. Qed.
End outcomes.
