(* ===== verification/MappingRevisions.v ===== *)
(** * Slot mappings: what a revision guards

    A revision issued for a scope is the one the mutation computes from the whole
    store; one that is still accepted later shows that the rows the mutation
    depends on are the rows it was issued for, unless SHA-256 collides on the
    texts involved; and the revision an import returns is the current one. *)

From S2P Require Import Prelude.
From S2P Require Import PyStr.
From S2P Require Import Calendar.
From S2P Require Import Json.
From S2P Require Import JsonProofs.
From S2P Require Import JsonHook.
From S2P Require Import Dict.
From S2P Require Import Journal.
From S2P Require Import JournalRecords.
From S2P Require Import Mapping.
From S2P Require Import MappingReads.
From S2P Require Import MappingStore.
From S2P Require Import MappingKeys.
From S2P Require Import MappingClassify.
From S2P Require Import MappingDocuments.
From S2P Require Import MappingRefinement.
From S2P Require Import MappingTotality.
From S2P Require Import MappingOutcomes.
#[local] Open Scope Z_scope.
#[local] Open Scope list_scope.

Section revisions.
Context {ME : MappingEnv} {MEL : MappingEnvLaws ME}.

(** ** Issued revisions *)

Lemma rows_matching_rows st st' p : rows st = rows st' → rows_matching st p = rows_matching st' p.
Proof. intros E. unfold rows_matching. by rewrite E. Qed.
Lemma scope_revision_same st st' s e : version st = version st' → rows st = rows st' →
  scope_revision_from_state st s e = scope_revision_from_state st' s e.
Proof. intros Ev Er. unfold scope_revision_from_state, scope_payload. by rewrite Ev, (rows_matching_rows _ _ _ Er). Qed.
Lemma resolvable_revision_same st st' s e n : version st = version st' → rows st = rows st' →
  resolvable_revision_from_state st s e n = resolvable_revision_from_state st' s e n.
Proof. intros Ev Er. unfold resolvable_revision_from_state, resolvable_payload. by rewrite Ev, (rows_matching_rows _ _ _ Er). Qed.
Lemma save_revision_same st st' s e n x : version st = version st' → rows st = rows st' →
  save_revision_from_state st s e n x = save_revision_from_state st' s e n x.
Proof.
  intros Ev Er. unfold save_revision_from_state.
  by rewrite (scope_revision_same st st'), (resolvable_revision_same st st') by done.
Qed.
(** Where the mapping in effect is filed follows from the identities alone. *)
Lemma effective_enclosure v es st st' s e n : classified v es st → classified v es st' → rows st = rows st' →
  enclosure_id <$> effective_mapping st s e n = enclosure_id <$> effective_mapping st' s e n.
Proof.
  intros H H' Er. unfold effective_mapping.
  assert (∀ i, enclosure_id <$> dget i (mappings st) = enclosure_id <$> dget i (mappings st')) as Hi.
  { intros i. pose proof (classified_ok _ _ _ H) as Hok. pose proof (classified_ok _ _ _ H') as Hok'.
    pose proof (cl_keys _ _ _ H) as Hk. rewrite Er, <-(cl_keys _ _ _ H') in Hk.
    destruct (dget i (mappings st)) as [m|] eqn:E, (dget i (mappings st')) as [m'|] eqn:E'; try done.
    - apply (store_ok_get _ _ _ Hok) in E as [E _]. apply (store_ok_get _ _ _ Hok') in E' as [E' _].
      cbn. f_equal. unfold identity_of in *. congruence.
    - apply dget_key in E. rewrite Hk in E. by apply dget_None in E'.
    - apply dget_key in E'. rewrite <-Hk in E'. by apply dget_None in E. }
  induction (query_identities s e n true) as [|i is' IH]; [done|]. cbn.
  specialize (Hi i). destruct (dget i (mappings st)), (dget i (mappings st')); try done.
Qed.
Lemma clear_revision_same v es st st' s e n : classified v es st → classified v es st' → rows st = rows st' →
  clear_revision_from_state st s e n = clear_revision_from_state st' s e n.
Proof.
  intros H H' Er. assert (version st = version st') as Ev by by rewrite (cl_version _ _ _ H), (cl_version _ _ _ H').
  unfold clear_revision_from_state. cbv zeta.
  pose proof (effective_enclosure v es st st' s (resolve_physical_mapping_scope e) n H H' Er) as He.
  assert (match effective_mapping st s (resolve_physical_mapping_scope e) n with Some m => enclosure_id m | None => resolve_physical_mapping_scope e end
    = match effective_mapping st' s (resolve_physical_mapping_scope e) n with Some m => enclosure_id m | None => resolve_physical_mapping_scope e end) as ->.
  { destruct (effective_mapping st s _ n), (effective_mapping st' s _ n); try done. by injection He. }
  by rewrite (scope_revision_same st st'), (resolvable_revision_same st st') by done.
Qed.

(** A state loaded for a scope has the rows of the whole store. *)
Lemma scoped_state now src st s e sl st' : load_state now src = Ok st → load_state_for_scope now src s e sl = Ok st' →
  ∃ v es, classified v es st ∧ classified v es st' ∧ rows st' = rows st ∧ version st' = version st.
Proof.
  intros (v & es & Hr & Hc)%load_state_classified H. unfold load_state_for_scope, load_scoped_snapshot in H. rewrite Hr in H.
  cbn [mbind result_bind] in H. destruct (classify_scoped v es) as [snap|] eqn:Es; [|done]. cbn [mbind result_bind] in H.
  apply state_for_scope_state in H as ->. destruct (scoped_of_classified _ _ _ _ Hc Es) as (_ & Hcl & Hrows).
  apply classify_entries_spec in Hc. exists v, es. split_and!; try done.
  by rewrite (cl_version _ _ _ Hcl), (cl_version _ _ _ Hc).
Qed.

(** The revision (and, of an import, the digest of the preview) that a mutation
    carries is the one a client gets from [src]. *)
Definition issued (now : datetime) (src : source_read) (mu : mutation) : Prop :=
  match mu with
  | Save m (Some r) => save_revision now src (system_id m) (enclosure_id m) (slot m) = Ok r
  | Clear s e n (Some r) => clear_revision now src s e n = Ok r
  | Import s e ms r dg => ∃ p, preview_replace_mappings now src s e ms = Ok p ∧ revision p = r ∧ import_digest p = dg
  | _ => False
  end.

Lemma issued_accepted now src st mu : load_state now src = Ok st → issued now src mu → accepted st mu.
Proof.
  intros Hsame H. destruct mu as [m [r|]|s e n [r|]|s e ms|s e ms r dg]; try done; cbn [issued] in H.
  - unfold save_revision in H. destruct (load_state_for_scope _ _ _ _ _) as [st'|] eqn:E; [|done].
    cbn [mbind result_bind] in H. destruct (scoped_state _ _ _ _ _ _ _ Hsame E) as (v & es & H1 & H2 & Er & Ev).
    rewrite (save_revision_same st' st) in H by done. cbn [accepted]. unfold canonical_mapping. cbn. rewrite <-H.
    unfold save_revision_from_state, scope_revision_from_state, resolvable_revision_from_state. by rewrite !resolve_idempotent.
  - unfold clear_revision in H. destruct (load_state_for_scope _ _ _ _ _) as [st'|] eqn:E; [|done].
    cbn [mbind result_bind] in H. destruct (scoped_state _ _ _ _ _ _ _ Hsame E) as (v & es & H1 & H2 & Er & Ev).
    rewrite (clear_revision_same v es st' st) in H by done. cbn [accepted]. rewrite <-H.
    unfold clear_revision_from_state. by rewrite !resolve_idempotent.
  - destruct H as (p & H & <- & <-). unfold preview_replace_mappings in H.
    destruct (load_state_for_scope _ _ _ _ _) as [st'|] eqn:E; [|done].
    cbn [mbind result_bind] in H. destruct (scoped_state _ _ _ _ _ _ _ Hsame E) as (v & es & H1 & H2 & Er & Ev).
    destruct (preview_from_state st' s e ms) as [[p' inc]|] eqn:Ep; [|done]. injection H as ->. cbn [accepted].
    unfold preview_from_state in Ep |- *. cbv zeta in Ep |- *. rewrite !resolve_idempotent.
    destruct (normalize_incoming s (resolve_physical_mapping_scope e) ms) as [inc'|]; [|done]. cbn [mbind result_bind] in Ep |- *.
    rewrite (scope_revision_same st' st) in Ep by done.
    destruct (scope_revision_from_state st s (resolve_physical_mapping_scope e)) as [rev|]; [|done]. cbn [mbind result_bind] in Ep |- *.
    destruct (differences_ok (scope_entries st s (resolve_physical_mapping_scope e)) inc') as [ds ->].
    destruct (res_mapM _ _); [|done]. cbn [mbind result_bind] in Ep |- *.
    destruct (digest (import_payload rev s (resolve_physical_mapping_scope e) inc')) as [dg|]; [|done].
    cbn [mbind result_bind] in Ep |- *. injection Ep as <- <-. by eexists _, _.
Qed.

(** [C31] Whoever asks for a revision, or previews an import, and acts on it while
    the file still reads as the same state at both times is not refused: the
    mutation computes the same revision and digest from the whole store as the
    request did from its scope, and it returns when the slots it writes can be
    printed and no step of its commit fails.  (A row without a date reads
    differently at every time, see [undated_revision_changes]; such a file is not
    the same state at both.) *)
Theorem fresh_revision_accepted (o : outside_world) (mu : mutation) (w : world) (now : datetime) (st : ClassifiedStore)
    (Hc : clocks_ok o) (Hmu : mutation_ok mu)
    (Hload : load_state (read_clock o) (read_source_bytes o w) = Ok st)
    (Hsame : load_state now (read_source_bytes o w) = Ok st)
    (Hkeys : keys_ok (version st) (entries st)) (Hissued : issued now (read_source_bytes o w) mu)
    (Hshort : ∀ d, effect o mu (mappings st) = Some d → short_rows d)
    (Hsteps : ∀ d data, effect o mu (mappings st) = Some d → serialize_v2 (stamp_clock o) d = Ok data → steps_ok (script o) data) :
  ∃ w', run o mu w = (w', Ok tt).
Proof.
  pose proof (issued_accepted _ _ _ _ Hsame Hissued) as Hacc.
  destruct (effect o mu (mappings st)) as [d|] eqn:E; [by eapply accepted_completes; eauto|].
  destruct mu as [m x|s e n x|s e ms|s e ms r dg]; try done.
  - exists w. by apply (clear_nothing o s e n x w st).
  - exfalso. destruct Hacc as (p & inc & Ep & _). destruct (preview_incoming _ _ _ _ _ _ Ep) as [En _].
    rewrite effect_applied in E. cbn [applied] in E. by rewrite En in E.
Qed.

(** ** Accepted revisions *)

Lemma normal_object_get d d' k : NoDup d.*1 → NoDup d'.*1 → normal (JObj d) = normal (JObj d') →
  normal <$> jget k d = normal <$> jget k d'.
Proof.
  intros Hd Hd' [= E].
  assert (∀ (x : list (ustr * json)), NoDup x.*1 → jget k (sort_by key_leb ((λ kv, (kv.1, normal kv.2)) <$> x)) = normal <$> jget k x) as H.
  { intros x Hx. rewrite jget_sorted; [by rewrite jget_fmap|]. rewrite <-list_fmap_compose. by rewrite (list_fmap_ext _ fst). }
  rewrite <-!H by done. by rewrite E.
Qed.
Lemma JObj_inj d d' : JObj d = JObj d' → d = d'.
Proof. congruence. Qed.
Lemma jopt_inj a b : jopt a = jopt b → a = b.
Proof. destruct a, b; cbn; congruence. Qed.
Lemma dump_inj m m' : row_ok m → row_ok m' → normal (JObj (model_dump m)) = normal (JObj (model_dump m')) → m = m'.
Proof.
  intros Hm Hm' E. rewrite !normal_dump_object in E. apply JObj_inj in E.
  assert (∀ k, jget k (model_dump m) = jget k (model_dump m')) as H.
  { intros k. rewrite <-(jget_sorted k (model_dump m)), <-(jget_sorted k (model_dump m')); [by rewrite E|..]; by apply (bool_decide_unpack _). }
  pose proof (H (u "system_id")) as E1. pose proof (H (u "slot")) as E2. pose proof (H (u "enclosure_id")) as E3.
  pose proof (H (u "serial")) as E4. pose proof (H (u "device_name")) as E5. pose proof (H (u "gptid")) as E6.
  pose proof (H (u "notes")) as E7. pose proof (H (u "updated_at")) as E8. pose proof (H (u "source")) as E9.
  change (Some (jopt (system_id m)) = Some (jopt (system_id m'))) in E1.
  change (Some (JInt (slot m)) = Some (JInt (slot m'))) in E2.
  change (Some (jopt (enclosure_id m)) = Some (jopt (enclosure_id m'))) in E3.
  change (Some (jopt (serial m)) = Some (jopt (serial m'))) in E4.
  change (Some (jopt (device_name m)) = Some (jopt (device_name m'))) in E5.
  change (Some (jopt (gptid m)) = Some (jopt (gptid m'))) in E6.
  change (Some (jopt (notes m)) = Some (jopt (notes m'))) in E7.
  change (Some (JStr (dump_datetime (updated_at m))) = Some (JStr (dump_datetime (updated_at m')))) in E8.
  change (Some (JStr (source m)) = Some (JStr (source m'))) in E9.
  injection E1 as E1%jopt_inj. injection E2 as E2. injection E3 as E3%jopt_inj. injection E4 as E4%jopt_inj.
  injection E5 as E5%jopt_inj. injection E6 as E6%jopt_inj. injection E7 as E7%jopt_inj. injection E9 as E9.
  assert (updated_at m = updated_at m') as Et.
  { pose proof (ok_time _ Hm) as T. pose proof (ok_time _ Hm') as T'. injection E8 as E8. rewrite E8 in T. congruence. }
  destruct m, m'. cbn in *. congruence.
Qed.
Definition row_view (row : ClassifiedRow) : ustr * Identity * ManualMapping := (row_key row, row_identity row, row_stored row).
Lemma row_payload_inj row row' : row_ok (row_stored row) → row_ok (row_stored row') →
  normal (row_payload row) = normal (row_payload row') → row_view row = row_view row'.
Proof.
  destruct row as [k m [[s e] n] c], row' as [k' m' [[s' e'] n'] c']. cbn [row_stored]. intros Hm Hm' E.
  unfold row_payload in E. cbn [row_identity row_key row_stored] in E.
  assert (∀ (a b c : json), NoDup [(u "key", a); (u "identity", b); (u "model", c)].*1) as Hnd by (intros; by apply (bool_decide_unpack _)).
  pose proof (λ x, normal_object_get _ _ x (Hnd _ _ _) (Hnd _ _ _) E) as H.
  pose proof (H (u "key")) as E1. pose proof (H (u "identity")) as E2. pose proof (H (u "model")) as E3.
  change (Some (JStr k) = Some (JStr k')) in E1.
  change (Some (JList [normal (jopt s); normal (jopt e); JInt n]) = Some (JList [normal (jopt s'); normal (jopt e'); JInt n'])) in E2.
  change (Some (normal (JObj (model_dump m))) = Some (normal (JObj (model_dump m')))) in E3. rewrite !normal_jopt in E2.
  injection E1 as E1. injection E2 as E2 E4 E5. apply (inj Some) in E3. apply jopt_inj in E2, E4.
  assert (m = m') as -> by by apply dump_inj. unfold row_view. cbn. congruence.
Qed.

(** The rows a digest is taken of *)
Definition selected_rows (st : ClassifiedStore) (p : Identity → bool) : list ClassifiedRow :=
List.filter (λ row, p (row_identity row)) (sort_by (λ a b, ustr_leb (row_key a) (row_key b)) (rows st)).
Definition good_rows (st : ClassifiedStore) : Prop :=
(∃ z, version st = JInt z) ∧ ∀ row, row ∈ rows st → row_ok (row_stored row) ∧ plain (row_payload row) = true.
Lemma selected_in st p row : row ∈ selected_rows st p → row ∈ rows st.
Proof. intros [H _]%elem_of_filter_list. by apply elem_of_sort_by in H. Qed.
Lemma rows_matching_inj st st' p : good_rows st → good_rows st' →
  normal (rows_matching st p) = normal (rows_matching st' p) → row_view <$> selected_rows st p = row_view <$> selected_rows st' p.
Proof.
  intros [_ H] [_ H'] E. unfold rows_matching in E. fold (selected_rows st p) (selected_rows st' p) in E.
  cbn [normal] in E. injection E as E. rewrite <-!list_fmap_compose in E.
  assert (∀ row, row ∈ selected_rows st p → row_ok (row_stored row)) as Hl by (intros row Hr%selected_in; by apply H).
  assert (∀ row, row ∈ selected_rows st' p → row_ok (row_stored row)) as Hl' by (intros row Hr%selected_in; by apply H').
  revert E Hl Hl'. generalize (selected_rows st p) as l, (selected_rows st' p) as l'. clear.
  induction l as [|row l IH]; intros [|row' l'] E Hl Hl'; try done. cbn in E. injection E as Er E. cbn. f_equal.
  - apply row_payload_inj; [apply Hl; left|apply Hl'; left|done].
  - apply IH; [done|intros; apply Hl; by right|intros; apply Hl'; by right].
Qed.
Lemma plain_rows_matching st p : good_rows st → plain (rows_matching st p) = true.
Proof.
  intros [_ H]. unfold rows_matching. fold (selected_rows st p). cbn [plain]. apply forallb_forall.
  intros x Hx%list_elem_of_In. apply list_elem_of_fmap in Hx as (row & -> & Hr%selected_in). by apply H.
Qed.

(** What is digested for a save *)
Definition save_payloads (st : ClassifiedStore) (s e : option ustr) (n : Z) : list json :=
[scope_payload st s e; resolvable_payload st s e n] ++
match scope_revision_from_state st s e, resolvable_revision_from_state st s e n with
| Ok a, Ok b => [save_payload s e n a b]
| _, _ => []
end.
(** SHA-256 does not collide on the texts of two lists of payloads. *)
Definition no_collision (l l' : list json) : Prop :=
∀ p p' t t', p ∈ l → p' ∈ l' → dumps recursion_limit p = Ok t → dumps recursion_limit p' = Ok t' →
  sha256_hex t = sha256_hex t' → t = t'.
Lemma digest_inj l l' p p' d : no_collision l l' → p ∈ l → p' ∈ l' → plain p = true → plain p' = true →
  digest p = Ok d → digest p' = Ok d → normal p = normal p'.
Proof.
  intros Hn Hp Hp' Hpl Hpl' E E'. unfold digest in *. destruct (dumps recursion_limit p) as [t|] eqn:Et; [|done].
  destruct (dumps recursion_limit p') as [t'|] eqn:Et'; [|done]. injection E as E. injection E' as E'.
  assert (t = t') as <- by (apply (Hn p p'); congruence). by eapply dumps_inj.
Qed.
Lemma plain_scope_payload st s e : good_rows st → scalar_text s = true → scalar_text e = true → plain (scope_payload st s e) = true.
Proof.
  intros H Hs He. pose proof (plain_rows_matching st (λ i, import_identity_selected i s e) H) as Hr. destruct H as [[z Hz] _].
  unfold scope_payload. rewrite Hz. cbn [plain]. apply andb_true_iff. split; [by apply bool_decide_eq_true, (bool_decide_unpack _)|].
  cbn [forallb fst snd]. rewrite !plain_jopt, Hs, He, Hr. done.
Qed.
Lemma plain_resolvable_payload st s e n : good_rows st → scalar_text s = true → scalar_text e = true →
  plain (resolvable_payload st s e n) = true.
Proof.
  intros H Hs He. pose proof (plain_rows_matching st (λ i, resolvable_identity_selected i s e n) H) as Hr. destruct H as [[z Hz] _].
  unfold resolvable_payload. rewrite Hz. cbn [plain]. apply andb_true_iff. split; [by apply bool_decide_eq_true, (bool_decide_unpack _)|].
  cbn [forallb fst snd]. rewrite !plain_jopt, Hs, He, Hr. done.
Qed.
Lemma plain_save_payload s e n a b : scalar_text s = true → scalar_text e = true → scalars a = true → scalars b = true →
  plain (save_payload s e n a b) = true.
Proof.
  intros Hs He Ha Hb. unfold save_payload. cbn [plain]. apply andb_true_iff. split; [by apply bool_decide_eq_true, (bool_decide_unpack _)|].
  cbn [forallb fst snd]. rewrite !plain_jopt, Hs, He. cbn [plain]. by rewrite Ha, Hb.
Qed.
Lemma digest_text p d : digest p = Ok d → scalars d = true.
Proof. unfold digest. destruct (dumps _ p); [|done]. intros [= <-]. apply digest_scalars. Qed.

(** The rows of a loaded file are digested exactly, when its keys hold no
    surrogates and its version is an integer. *)
Lemma load_good_rows now src st : is_utc now → load_state now src = Ok st → (∃ z, version st = JInt z) →
  (∀ kv, kv ∈ entries st → scalars kv.1 = true) → good_rows st.
Proof.
  intros Hn (v & es & Hr & Hc)%load_state_classified Hv Hk. split; [done|]. intros row Hrow.
  apply classify_entries_spec in Hc. rewrite (cl_entries _ _ _ Hc) in Hk.
  destruct (classified_row _ _ _ _ Hc Hrow) as (kv & Hkv & Hcl).
  pose proof (read_document_rows _ _ _ _ _ _ Hn Hr kv Hkv) as Hok.
  destruct (classify_row_spec _ _ _ _ Hcl) as (H1 & H2 & H3 & _ & H4). rewrite H2. split; [done|].
  specialize (H4 (or_introl (Hk kv Hkv)) Hok). unfold row_payload. rewrite <-H3, H1, H2. unfold identity_of. cbn [plain].
  apply andb_true_iff. split; [by apply bool_decide_eq_true, (bool_decide_unpack _)|]. cbn [forallb fst snd].
  pose proof (plain_dump _ Hok) as Hp. cbn [plain] in Hp |- *. rewrite Hp, (Hk kv Hkv). cbn [forallb plain]. rewrite !plain_jopt.
  by rewrite (ok_system _ H4), (ok_enclosure _ H4).
Qed.

(** The rows a save depends on are the ones its revision was issued for. *)
Lemma accepted_rows now1 now2 src1 src2 st1 st2 m r : is_utc now1 → is_utc now2 → row_ok m →
  load_state now1 src1 = Ok st1 → load_state now2 src2 = Ok st2 →
  (∃ z, version st1 = JInt z) → (∃ z, version st2 = JInt z) →
  (∀ kv, kv ∈ entries st1 → scalars kv.1 = true) → (∀ kv, kv ∈ entries st2 → scalars kv.1 = true) →
  accepted st1 (Save m (Some r)) → accepted st2 (Save m (Some r)) →
  (let c := canonical_mapping m in no_collision (save_payloads st1 (system_id c) (enclosure_id c) (slot c))
                                                (save_payloads st2 (system_id c) (enclosure_id c) (slot c))) →
  let c := canonical_mapping m in
  let '(s, e, n) := (system_id c, enclosure_id c, slot c) in
  row_view <$> selected_rows st1 (λ i, import_identity_selected i s e)
    = row_view <$> selected_rows st2 (λ i, import_identity_selected i s e)
  ∧ row_view <$> selected_rows st1 (λ i, resolvable_identity_selected i s e n)
    = row_view <$> selected_rows st2 (λ i, resolvable_identity_selected i s e n).
Proof.
  intros Hnow1 Hnow2 Hm Hload1 Hload2 Hint1 Hint2 Hkeys1 Hkeys2 Hissued Haccepted Hsha.
  cbv zeta in *. set (c := canonical_mapping m) in *. cbn [accepted] in Hissued, Haccepted. fold c in Hissued, Haccepted. cbv zeta in *.
  pose proof (load_good_rows _ _ _ Hnow1 Hload1 Hint1 Hkeys1) as Hg1. pose proof (load_good_rows _ _ _ Hnow2 Hload2 Hint2 Hkeys2) as Hg2.
  pose proof (row_ok_canonical _ Hm) as Hc. fold c in Hc. pose proof (ok_system _ Hc) as Hs. pose proof (ok_enclosure _ Hc) as He.
  assert (resolve_physical_mapping_scope (enclosure_id c) = enclosure_id c) as Ee by apply resolve_idempotent.
  revert Hissued Haccepted Hsha. generalize (system_id c), (enclosure_id c), (slot c), Hs, He, Ee. clear -Hg1 Hg2 MEL.
  intros s e n Hs He Ee H1 H2 Hsha. unfold save_revision_from_state in H1, H2. rewrite !Ee in H1, H2.
  unfold save_payloads in Hsha. unfold scope_revision_from_state in H1, H2, Hsha. unfold resolvable_revision_from_state in H1, H2, Hsha.
  rewrite !Ee in *.
  destruct (digest (scope_payload st1 s e)) as [a1|] eqn:A1; [|done]. cbn [mbind result_bind] in H1.
  destruct (digest (resolvable_payload st1 s e n)) as [b1|] eqn:B1; [|done]. cbn [mbind result_bind] in H1.
  destruct (digest (scope_payload st2 s e)) as [a2|] eqn:A2; [|done]. cbn [mbind result_bind] in H2.
  destruct (digest (resolvable_payload st2 s e n)) as [b2|] eqn:B2; [|done]. cbn [mbind result_bind] in H2.
  assert (normal (save_payload s e n a1 b1) = normal (save_payload s e n a2 b2)) as E.
  { eapply (digest_inj _ _ _ _ r Hsha); [by do 2 right; left|by do 2 right; left| | |done|done];
      apply plain_save_payload; eauto using digest_text. }
  unfold save_payload in E.
  assert (∀ (x1 x2 x3 x4 x5 : json), NoDup [(u "system_id", x1); (u "enclosure_id", x2); (u "slot", x3); (u "scope_revision", x4);
    (u "resolvable_revision", x5)].*1) as Hnd by (intros; by apply (bool_decide_unpack _)).
  pose proof (λ x, normal_object_get _ _ x (Hnd _ _ _ _ _) (Hnd _ _ _ _ _) E) as Hget.
  pose proof (Hget (u "scope_revision")) as E1. pose proof (Hget (u "resolvable_revision")) as E2.
  change (Some (JStr a1) = Some (JStr a2)) in E1. change (Some (JStr b1) = Some (JStr b2)) in E2.
  injection E1 as ->. injection E2 as ->. split; apply rows_matching_inj; try done.
  - assert (normal (scope_payload st1 s e) = normal (scope_payload st2 s e)) as F.
    { eapply (digest_inj _ _ _ _ a2 Hsha); [by left|by left| | |done|done]; by apply plain_scope_payload. }
    unfold scope_payload in F.
    assert (∀ (x1 x2 x3 x4 : json), NoDup [(u "version", x1); (u "system_id", x2); (u "enclosure_id", x3); (u "rows", x4)].*1) as Hnd'
      by (intros; by apply (bool_decide_unpack _)).
    pose proof (normal_object_get _ _ (u "rows") (Hnd' _ _ _ _) (Hnd' _ _ _ _) F) as G. by apply (inj Some) in G.
  - assert (normal (resolvable_payload st1 s e n) = normal (resolvable_payload st2 s e n)) as F.
    { eapply (digest_inj _ _ _ _ b2 Hsha); [by right; left|by right; left| | |done|done]; by apply plain_resolvable_payload. }
    unfold resolvable_payload in F.
    assert (∀ (x1 x2 x3 x4 x5 : json), NoDup [(u "version", x1); (u "system_id", x2); (u "enclosure_id", x3); (u "slot", x4); (u "rows", x5)].*1) as Hnd'
      by (intros; by apply (bool_decide_unpack _)).
    pose proof (normal_object_get _ _ (u "rows") (Hnd' _ _ _ _ _) (Hnd' _ _ _ _ _) F) as G. by apply (inj Some) in G.
Qed.


(** The rows of a file: key, identity and stored mapping of each. *)
Definition row_views (st : ClassifiedStore) : list (ustr * Identity * ManualMapping) := row_view <$> rows st.
Lemma selected_view st p v : v ∈ row_view <$> selected_rows st p ↔ v ∈ row_views st ∧ p v.1.2 = true.
Proof.
  unfold row_views, selected_rows. rewrite !list_elem_of_fmap. split.
  - intros (row & -> & [Hr%elem_of_sort_by Hp]%elem_of_filter_list). split; [by exists row|done].
  - intros [(row & -> & Hr) Hp]. exists row. split; [done|]. apply elem_of_filter_list. split; [by apply elem_of_sort_by|done].
Qed.
Lemma resolvable_selected i s e n : resolvable_identity_selected i s e n = true ↔ i ∈ places s e n.
Proof. unfold resolvable_identity_selected, query_identities. by rewrite bool_decide_eq_true, elem_of_fromkeys. Qed.
Lemma save_accepted o m r w w' saved st : load_state (read_clock o) (read_source_bytes o w) = Ok st →
  save_mapping o m (Some r) w = (w', Ok saved) → accepted st (Save m (Some r)).
Proof.
  intros Hst H. unfold save_mapping in H. cbv zeta in H. apply bind_op_Ok in H as (st0 & w1 & E0 & H).
  unfold load_state_op in E0. rewrite Hst in E0. injection E0 as <- <-. apply bind_op_Ok in H as ([] & w2 & E & _).
  cbn [accepted]. cbv zeta. match type of E with check_revision ?x ?c ?w = _ =>
    destruct (check_revision_cases x c w) as [[_ Ha]|(err & v & E' & _)] end; [exact Ha|congruence].
Qed.

(** [C7] No lost update: when a save with a revision returns, no row it depends on
    has changed since the revision was issued.  Every row filed for the system of
    the mapping, or for none, in its enclosure (in any, when it has none), and
    every row at one of the places where a request for its slot looks - those are
    the rows the save replaces - is in the file the save met, with the same key, identity and
    fields, exactly when it was in the file the revision was issued from, unless
    SHA-256 collides on what was digested. *)
Theorem no_lost_update (o : outside_world) (m saved : ManualMapping) (r : ustr) (w w' : world)
    (now : datetime) (src : source_read) (st1 st2 : ClassifiedStore)
    (Hnow : is_utc now) (Hclock : is_utc (read_clock o)) (Hm : row_ok m)
    (Hload1 : load_state now src = Ok st1) (Hload2 : load_state (read_clock o) (read_source_bytes o w) = Ok st2)
    (Hint1 : ∃ z, version st1 = JInt z) (Hint2 : ∃ z, version st2 = JInt z)
    (Hkeys1 : ∀ kv, kv ∈ entries st1 → scalars kv.1 = true) (Hkeys2 : ∀ kv, kv ∈ entries st2 → scalars kv.1 = true)
    (Hissued : save_revision now src (system_id m) (enclosure_id m) (slot m) = Ok r)
    (Hsaved : save_mapping o m (Some r) w = (w', Ok saved))
    (Hsha : let c := canonical_mapping m in no_collision (save_payloads st1 (system_id c) (enclosure_id c) (slot c))
                                                        (save_payloads st2 (system_id c) (enclosure_id c) (slot c))) :
  let e := resolve_physical_mapping_scope (enclosure_id m) in
  ∀ k i x, imported_over (system_id m) e i ∨ i ∈ places (system_id m) e (slot m) →
    (k, i, x) ∈ row_views st1 ↔ (k, i, x) ∈ row_views st2.
Proof.
  pose proof (issued_accepted now src st1 (Save m (Some r)) Hload1 Hissued) as A1.
  pose proof (save_accepted _ _ _ _ _ _ _ Hload2 Hsaved) as A2.
  destruct (accepted_rows _ _ _ _ _ _ _ _ Hnow Hclock Hm Hload1 Hload2 Hint1 Hint2 Hkeys1 Hkeys2 A1 A2 Hsha) as [E1 E2].
  intros e k i x Hi.
  assert (∀ p, p i = true → row_view <$> selected_rows st1 p = row_view <$> selected_rows st2 p →
    (k, i, x) ∈ row_views st1 ↔ (k, i, x) ∈ row_views st2) as H.
  { intros p Hp E. pose proof (selected_view st1 p (k, i, x)) as S1. pose proof (selected_view st2 p (k, i, x)) as S2.
    rewrite E in S1. cbn in S1, S2. tauto. }
  destruct Hi as [Hi|Hi]; [eapply H; [|exact E1]|eapply H; [|exact E2]].
  - apply negb_false_iff. rewrite imported_selected. apply bool_decide_eq_false_2. intros Hn. by apply Hn.
  - by apply resolvable_selected.
Qed.

(** ** The revision of an import *)

Definition all_settled (ms : list (Identity * ManualMapping)) : Prop := ∀ i m, (i, m) ∈ ms → settled m.

Lemma keyed_perm ms ms' keyed keyed' : ms ≡ₚ ms' → Forall2 keyed_as ms keyed → Forall2 keyed_as ms' keyed' → keyed ≡ₚ keyed'.
Proof.
  assert (∀ ms keyed, Forall2 keyed_as ms keyed →
    keyed = (λ im, (default [] (match encode_v2_key im.1 with Ok k => Some k | Err _ => None end), im.2)) <$> ms) as H.
  { intros l k H. induction H as [|im [k m] l k' (H1 & H2 & _) _ IH]; [done|]. cbn in *. rewrite H1, H2. cbn. by f_equal. }
  intros Hp Hk Hk'. rewrite (H _ _ Hk), (H _ _ Hk'). by rewrite Hp.
Qed.
Lemma sorted_rows_perm (l l' : list ClassifiedRow) : NoDup (row_key <$> l) → l ≡ₚ l' →
  sort_by (λ a b, ustr_leb (row_key a) (row_key b)) l = sort_by (λ a b, ustr_leb (row_key a) (row_key b)) l'.
Proof.
  intros Hnd Hp. apply sort_by_ext; [|by intros ???; apply ustr_leb_trans| |done].
  { intros x y. apply ustr_leb_total. }
  intros x y Hx Hy H1 H2. pose proof (ustr_leb_antisym _ _ H1 H2) as E.
  apply list_elem_of_lookup in Hx as [i Hi]. apply list_elem_of_lookup in Hy as [j Hj].
  assert (i = j) as ->; [|congruence].
  apply (NoDup_lookup _ _ _ (row_key x) Hnd); rewrite list_lookup_fmap; [by rewrite Hi|by rewrite Hj, E].
Qed.

(** The revision that an import returns is the revision a client would get
    by asking for the scope afterwards, when the texts of the rows are settled:
    trimmed, and not cut off behind a space at 256 characters. *)
Theorem import_revision_current (o o' : outside_world) (w w' : world) (s e : option ustr) (ms : list ManualMapping)
    (rv dg : ustr) (st : ClassifiedStore) (res : ImportResult)
    (Hc : clocks_ok o) (Hmu : mutation_ok (Import s e ms rv dg))
    (Hload : load_state (read_clock o) (read_source_bytes o w) = Ok st) (Hkeys : keys_ok (version st) (entries st))
    (Hold : all_settled (mappings st)) (Hnew : ∀ m, m ∈ ms → settled m) (Hread : read_fault o' = None)
    (Hrun : apply_mapping_import o s e ms rv dg w = (w', Ok res)) :
  scope_revision (read_clock o') (read_source_bytes o' w') s e = Ok (import_revision res).
Proof.
  destruct (load_state_ok _ _ _ (proj1 Hc) Hload Hkeys) as [Hs Hr]. destruct Hmu as (H1 & H2 & H3).
  unfold apply_mapping_import in Hrun. cbv zeta in Hrun. step_op Hrun. unfold load_state_op in E. rewrite Hload in E. injection E as <- <-.
  apply pure_op_Ok in E0 as [-> Ep]. destruct a0 as [p inc]. cbn [fst snd] in *.
  destruct (bool_decide (revision p = rv)); [|done]. apply mret_op_Ok in E1 as [-> _].
  destruct (bool_decide (import_digest p = dg)); [|done]. apply mret_op_Ok in E2 as [-> _].
  set (e0 := resolve_physical_mapping_scope e) in *. destruct (preview_incoming _ _ _ _ _ _ Ep) as [En _].
  set (d := with_incoming o inc (dkeep (λ i, negb (import_identity_selected i s e0)) (mappings st))) in *.
  destruct (with_incoming_ok o s e0 ms inc (dkeep (λ i, negb (import_identity_selected i s e0)) (mappings st)) Hc En H1
    (resolve_scalar _ H2) H3 (store_ok_keep _ _ Hs) (rows_ok_keep _ _ Hr)) as [Hd Hdr]. fold d in Hd, Hdr.
  destruct a3, a4. pose proof (commit_v2_short _ _ _ _ Hd E3) as Hsh.
  destruct (final_state_ok d Hd Hdr Hsh) as (keyed & final & Hk & Hnd & Hf & Hv & Hrows & _).
  cbn in E4. injection E4 as <-. apply pure_op_Ok in E5 as [-> E5]. rewrite Hf in E5. injection E5 as <-.
  apply pure_op_Ok in E6 as [-> E6]. destruct a6 as [pv inc2]. apply preview_incoming in E6 as [_ Erev].
  apply mret_op_Ok in Hrun as [-> ->]. cbn [import_revision fst]. rewrite <-Erev.
  unfold commit_v2 in E3. step_op E3. apply pure_op_Ok in E as [-> Edata]. apply commit_bytes_Ok in E3 as (Ht & _ & _).
  destruct (serialize_document _ _ _ (proj2 (proj2 Hc)) Hd Hdr Edata) as (keyed' & st' & Hdoc & Hcl).
  unfold scope_revision, read_source_bytes. rewrite Hread. cbn [target]. rewrite Ht.
  destruct (document_state (read_clock o') d a keyed' st' Hdoc Hcl) as [_ ->]. cbn [mbind result_bind].
  assert (all_settled d) as Hset.
  { assert (∀ (items x : list (Identity * ManualMapping)), (∀ i m, (i, m) ∈ items → settled m) → (∀ i m, (i, m) ∈ x → settled m) →
      NoDup x.*1 → ∀ i m, (i, m) ∈ dupdate x items → settled m) as Hup.
    { clear. intros items. unfold dupdate. induction items as [|[k v] items IH]; intros x Hi Hx Hnx i m; [apply Hx|]. cbn.
      apply IH; [intros; eapply Hi; by right| |by apply dset_NoDup]. intros i' m' Hin.
      apply dset_elem in Hin as [[-> ->]|[_ Hin]]; [eapply Hi; by left|by eapply Hx|done]. }
    unfold all_settled, d, with_incoming. fold (stamped o inc). apply Hup.
    - intros i' m' ([i2 m2] & [= -> ->] & Hin2)%list_elem_of_fmap. cbn. unfold normalize_incoming in En.
      apply normalize_loop_spec in En as [_ Hall]; [|apply resolve_idempotent|constructor|by intros ?? ?%not_elem_of_nil].
      destruct (Hall i2 m2 Hin2) as [_ [[]%not_elem_of_nil|(m0 & Hm0 & ->)]]. specialize (Hnew m0 Hm0). clear -Hnew.
      unfold settled, reread in *. destruct m0. unfold with_updated_at, scoped_mapping, with_enclosure, with_system. cbn in *. congruence.
    - intros i' m' [Hin' _]%elem_of_filter_list. by eapply Hold.
    - apply dkeep_NoDup, Hs. }
  unfold scope_revision_from_state, scope_payload, rows_matching. pose proof (classify_entries_spec _ _ _ Hcl) as Hcls.
  rewrite Hv, (cl_version _ _ _ Hcls).
  assert (sort_by (λ a b, ustr_leb (row_key a) (row_key b)) (rows final) = sort_by (λ a b, ustr_leb (row_key a) (row_key b)) (rows st')) as ->; [|unfold e0; by rewrite !resolve_idempotent].
  destruct Hdoc as [Hk' Hnd' _].
  destruct (classified_v2 _ _ _ Hcls (proj1 version_two) (written_entries _ Hnd')) as (Hrows' & _ & _).
  apply sorted_rows_perm.
  - rewrite Hrows, <-list_fmap_compose. by rewrite (list_fmap_ext _ fst).
  - rewrite Hrows, Hrows'. unfold written. rewrite <-list_fmap_compose, sort_by_perm.
    rewrite (keyed_perm d (sort_by (λ a b, identity_leb a.1 b.1) d) keyed keyed') by (done || by rewrite sort_by_perm).
    apply Permutation_eq_sym || idtac. erewrite list_fmap_ext; [reflexivity|]. intros n km Hkm. cbn.
    apply list_elem_of_lookup_2 in Hkm. destruct (Forall2_in_r _ _ _ _ Hk' Hkm) as ([i m] & Hin & (_ & Em & _ & Hfl & _)).
    apply elem_of_sort_by in Hin. cbn in Em. subst m. assert (reread km.2 = km.2) as -> by (by eapply Hset).
    unfold filed in Hfl. by rewrite Hfl.
Qed.
End revisions.
