(* ===== verification/MappingExample.v ===== *)
(** * Slot mappings: a store in use

    A file of version 1 with a row of a system, a row that only its key assigns
    to it and a legacy row under a drawer; the store at work on it, as witnesses
    of the theorems, and two revisions that do not say what they should. *)

From S2P Require Import Prelude.
From S2P Require Import PyStr.
From S2P Require Import Calendar.
From S2P Require Import Json.
From S2P Require Import JsonProofs.
From S2P Require Import JsonHook.
From S2P Require Import Dict.
From S2P Require Import Journal.
From S2P Require Import JournalLines.
From S2P Require Import JournalRecords.
From S2P Require Import JournalExample.
From S2P Require Import Mapping.
From S2P Require Import MappingReads.
From S2P Require Import MappingStore.
From S2P Require Import MappingKeys.
From S2P Require Import MappingClassify.
From S2P Require Import MappingDocuments.
From S2P Require Import MappingRefinement.
From S2P Require Import MappingTotality.
From S2P Require Import MappingOutcomes.
From S2P Require Import MappingRevisions.
#[local] Open Scope Z_scope.
#[local] Open Scope list_scope.

(** ** An environment *)

(** The text itself as its digest *)
Definition plain_text (t : list Z) : list Z := if scalars t then t else [].
Definition mapping_runtime : Runtime := {|
  rt_floats := example_floats;
  recursion_limit := 20;
  fromisoformat := read_iso;
  sha256_hex := plain_text;
|}.
Definition read_time (j : json) : option datetime :=
  match j with
  | JStr s =>
      d ← read_iso s;
      if bool_decide (read_iso (plain_text (isoformat_utc d)) = Some d) then Some d else None
  | _ => None
  end.
#[export] Instance example_env : MappingEnv := {|
  me_runtime := mapping_runtime;
  validate_datetime := read_time;
  dump_datetime := λ d, plain_text (isoformat_utc d);
  float_is := λ _ _, false;
  set_order := λ l, l;
|}.
Lemma plain_text_scalars t : scalars (plain_text t) = true.
Proof. unfold plain_text. by destruct (scalars t) eqn:E. Qed.
#[export] Instance example_env_laws : MappingEnvLaws example_env.
Proof.
  split.
  - intros j d H. destruct j as [| | | |s| |]; try done. change (read_time (JStr s) = Some d) in H.
    change (read_time (JStr (plain_text (isoformat_utc d))) = Some d). unfold read_time in *.
    apply bind_Some in H as (d' & Hd & H). case_bool_decide as E; [|done]. injection H as <-. rewrite E. cbn [mbind option_bind].
    by rewrite E, bool_decide_eq_true_2.
  - intros d Hd. change (read_time (JStr (plain_text (isoformat_utc d))) = Some d). unfold read_time.
    assert (plain_text (isoformat_utc d) = isoformat_utc d) as E by (unfold plain_text; by rewrite isoformat_scalars).
    rewrite E, read_isoformat by done. cbn [mbind option_bind]. by rewrite E, read_isoformat, bool_decide_eq_true_2.
  - intros d. apply plain_text_scalars.
  - done.
  - cbn. lia.
  - apply plain_text_scalars.
Defined.

(** ** A file *)

Definition some_text (s : string) : option ustr := Some (u s).
Definition sample (s e : option ustr) (n : Z) (serial : string) : ManualMapping :=
  mkMapping s n e (some_text serial) None None None (midnight 738000) (u "manual").
Definition drawer (e : string) : ustr := u e ++ SEPARATOR ++ DELL_MD1280_DRAWER_TOP_PROFILE_ID.
Definition v1_rows : list (ustr * ManualMapping) :=
  [(u "nas:shelf:3", sample (some_text "nas") (some_text "shelf") 3 "A1");
   (u "nas:shelf:4", sample None (some_text "shelf") 4 "B2");
   (drawer "shelf" ++ u ":5", sample None (Some (drawer "shelf")) 5 "C3")].
Definition text_of (v : json) : list Z := match dumps recursion_limit v with Ok t => t | Err _ => [] end.
Definition file_of (version : Z) (rs : list (ustr * jdict)) : list Z :=
  text_of (JObj [(u "slot_mappings", JObj ((λ kv, (kv.1, JObj kv.2)) <$> rs)); (u "version", JInt version)]).
Definition v1_file : list Z := file_of 1 ((λ kv, (kv.1, model_dump kv.2)) <$> v1_rows).

Definition quiet : commit_script := mkScript (λ _, opened) (λ _, Ok 1) None None None None None (Ok None) true.
Definition outside_at (day : Z) : outside_world := mkOutsideWorld (midnight day) (midnight day) (midnight day) None quiet.
Definition world_of (file : list Z) : world := mkWorld (regular file) 0 [].
Definition state_of (day : Z) (file : list Z) : ClassifiedStore :=
  match load_state (midnight day) (Ok (Some file)) with Ok st => st | Err _ => mkStore JNull [] [] [] end.

Example v1_file_read :
  (λ im, (im.1, serial im.2)) <$> mappings (state_of 738001 v1_file)
  = [((some_text "nas", some_text "shelf", 3), some_text "A1");
     ((some_text "nas", some_text "shelf", 4), some_text "B2");
     ((None, some_text "shelf", 5), some_text "C3")]
  ∧ (serial <$> find_mapping (mappings (state_of 738001 v1_file)) (some_text "nas") (some_text "shelf") 5 true)
    = Some (some_text "C3").
Proof. vm_compute. auto. Qed.

Lemma midnight_utc day : 1 <= day <= max_ordinal → is_utc (midnight day).
Proof. intros H. split; [|done]. unfold valid_datetime, midnight. cbn. unfold max_ordinal in *. by apply andb_true_iff; split; [apply andb_true_iff; split; [apply andb_true_iff; split; apply Z.leb_le; lia|]|]. Qed.
Lemma clocks_at day : 1 <= day <= max_ordinal → clocks_ok (outside_at day).
Proof. intros H. split_and!; by apply midnight_utc. Qed.
Lemma quiet_steps data : steps_ok quiet data.
Proof.
  split; try done. apply (write_pieces _ _ _ _ (repeat 1 (length data))); [done| |].
  - intros i p Hp. cbn. apply list_elem_of_lookup_2, list_elem_of_In, repeat_spec in Hp as ->. split; [done|lia].
  - induction (length data) as [|n IH]; [done|]. cbn [repeat foldr]. lia.
Qed.
Lemma sample_ok s e n serial : scalar_text s = true → scalar_text e = true → scalars (u serial) = true → row_ok (sample s e n serial).
Proof. intros. split; try done. Qed.

Definition new_row : ManualMapping := sample (some_text "nas") (Some (drawer "shelf")) 5 "D4".
Lemma new_row_ok : row_ok new_row.
Proof. by apply sample_ok. Qed.
Lemma v1_keys_ok : keys_ok (version (state_of 738001 v1_file)) (entries (state_of 738001 v1_file)).
Proof. right. intros kv Hkv. apply (forallb_elem (λ kv : ustr * ManualMapping, scalars kv.1) (entries (state_of 738001 v1_file))); [by vm_compute|done]. Qed.
Definition after (o : outside_world) (mu : mutation) (w : world) : world := (run o mu w).1.

(** ** Witnesses *)

Lemma v2_key_roundtrip_witness :
  let key := match encode_v2_key (some_text "nas", some_text "shelf", 3) with Ok k => k | Err _ => [] end in
  decode_v2_key key = Ok (some_text "nas", some_text "shelf", 3).
Proof.
  cbv zeta. apply v2_key_roundtrip; [split_and!; by vm_compute|by vm_compute].
Defined.

(** A drawer's row saved over the legacy row of its place *)
Definition save_world : world := after (outside_at 738001) (Save new_row None) (world_of v1_file).
Lemma save_runs : run (outside_at 738001) (Save new_row None) (world_of v1_file) = (save_world, Ok tt).
Proof. unfold save_world, after. destruct (run _ _ _) as [w r] eqn:E. cbn. f_equal. change r with (w, r).2. rewrite <-E. by vm_compute. Qed.
Lemma v1_loads : load_state (midnight 738001) (read_source_bytes (outside_at 738001) (world_of v1_file)) = Ok (state_of 738001 v1_file).
Proof. unfold state_of. change (read_source_bytes _ _) with (Ok (E := errno) (Some v1_file)). destruct (load_state _ _) eqn:E; [done|]. exfalso. revert E. by vm_compute. Qed.

Lemma store_refines_dict_witness :
  serial <$> find_mapping (mappings (state_of 738001 v1_file)) (some_text "nas") (some_text "shelf") 5 true = Some (some_text "C3")
  ∧ exists found,
    get_mapping (midnight 738002) (read_source_bytes (outside_at 738002) save_world) (some_text "nas") (some_text "shelf") 5 false None
      = Ok (Some found) ∧ serial found = some_text "D4".
Proof.
  split; [by vm_compute|].
  pose proof (store_refines_dict (outside_at 738001) (Save new_row None) (world_of v1_file) save_world (state_of 738001 v1_file)
    (clocks_at 738001 ltac:(unfold max_ordinal; lia)) new_row_ok v1_loads v1_keys_ok save_runs) as H.
  cbn [effect] in H. destruct H as (st' & _ & H). destruct (H (outside_at 738002) eq_refl) as (_ & _ & Hg).
  eexists. rewrite Hg. split; [vm_compute; reflexivity|]. by vm_compute.
Defined.

(** No space left, and a temporary file that cannot be removed: the file and
    the journal are as before. *)
Definition full_disk : outside_world :=
  mkOutsideWorld (midnight 738001) (midnight 738001) (midnight 738001) None
    (mkScript (λ _, opened) (λ _, Err ENOSPC) None None None None None (Ok None) false).
Lemma mutation_outcome_witness :
  let w := world_of v1_file in
  let w' := after full_disk (Save new_row None) w in
  config_changes w' = [] ∧ target w' = regular v1_file ∧ leftovers w' = 1%nat.
Proof.
  assert (run full_disk (Save new_row None) (world_of v1_file)
    = (after full_disk (Save new_row None) (world_of v1_file), Err (StorageDirectoryCapacityExhausted false))) as Hrun
    by (vm_compute; reflexivity).
  destruct (mutation_outcome full_disk (Save new_row None) (world_of v1_file) _ _ (state_of 738001 v1_file)
    (clocks_at 738001 ltac:(unfold max_ordinal; lia)) new_row_ok v1_loads v1_keys_ok Hrun) as [Hj [[Ht _]|[E _]]]; [|discriminate E].
  split_and!; [exact Hj|exact Ht|vm_compute; reflexivity].
Defined.

(** A revision asked for the place, and the save that presents it *)
Definition place_revision : ustr :=
  match save_revision (midnight 738001) (Ok (Some v1_file)) (system_id new_row) (enclosure_id new_row) (slot new_row) with
  | Ok r => r | Err _ => [] end.
Lemma place_revision_issued :
  save_revision (midnight 738001) (Ok (Some v1_file)) (system_id new_row) (enclosure_id new_row) (slot new_row) = Ok place_revision.
Proof. unfold place_revision. destruct (save_revision _ _ _ _ _) eqn:E; [done|]. exfalso. revert E. by vm_compute. Qed.
Definition saved_dict : list (Identity * ManualMapping) :=
  default [] (effect (outside_at 738001) (Save new_row (Some place_revision)) (mappings (state_of 738001 v1_file))).
Lemma saved_dict_short : short_rows saved_dict.
Proof.
  intros i m Hin. apply (forallb_elem (λ im : Identity * ManualMapping, short_slot im.1.2) saved_dict (i, m)); [by vm_compute|done].
Qed.
Lemma fresh_revision_accepted_witness :
  ∃ w', run (outside_at 738001) (Save new_row (Some place_revision)) (world_of v1_file) = (w', Ok tt).
Proof.
  apply (fresh_revision_accepted (outside_at 738001) (Save new_row (Some place_revision)) (world_of v1_file)
    (midnight 738001) (state_of 738001 v1_file)).
  - apply clocks_at. unfold max_ordinal. lia.
  - apply new_row_ok.
  - apply v1_loads.
  - apply v1_loads.
  - apply v1_keys_ok.
  - exact place_revision_issued.
  - intros d Hd. assert (d = saved_dict) as -> by (unfold saved_dict; by rewrite Hd). apply saved_dict_short.
  - intros d data _ _. apply quiet_steps.
Defined.
Lemma mutation_completes_witness :
  ∃ w', run (outside_at 738001) (Save new_row (Some place_revision)) (world_of v1_file) = (w', Ok tt).
Proof.
  apply (mutation_completes (outside_at 738001) (Save new_row (Some place_revision)) (world_of v1_file) (state_of 738001 v1_file) saved_dict).
  - apply clocks_at. unfold max_ordinal. lia.
  - apply new_row_ok.
  - apply v1_loads.
  - apply v1_keys_ok.
  - vm_compute. reflexivity.
  - reflexivity.
  - apply saved_dict_short.
  - intros data _. apply quiet_steps.
Defined.

(** Another system's row does not disturb the revision. *)
Definition v1_file_later : list Z :=
  file_of 1 ((λ kv, (kv.1, model_dump kv.2)) <$> (v1_rows ++ [(u "other:shelf:5", sample (some_text "other") (some_text "shelf") 5 "Z9")])).
Lemma later_loads : load_state (midnight 738003) (Ok (Some v1_file_later)) = Ok (state_of 738003 v1_file_later).
Proof. unfold state_of. destruct (load_state _ _) eqn:E; [done|]. exfalso. revert E. by vm_compute. Qed.
Lemma plain_no_collision l l' : forallb plain l = true → forallb plain l' = true → no_collision l l'.
Proof.
  intros H H' p p' t t' Hp Hp' E E' Hsha. pose proof (forallb_elem _ _ _ H Hp) as Hpl. pose proof (forallb_elem _ _ _ H' Hp') as Hpl'.
  pose proof (printable_scalars _ (dumps_printable _ _ _ Hpl E)) as S1. pose proof (printable_scalars _ (dumps_printable _ _ _ Hpl' E')) as S2.
  cbn in Hsha. unfold plain_text in Hsha. by rewrite S1, S2 in Hsha.
Qed.
Lemma scalar_keys st : forallb (λ kv : ustr * ManualMapping, scalars kv.1) (entries st) = true →
  ∀ kv, kv ∈ entries st → scalars kv.1 = true.
Proof. intros H kv Hkv. by apply (forallb_elem (λ kv : ustr * ManualMapping, scalars kv.1) (entries st)). Qed.
(** The save that presents the revision two days later *)
Definition save_later : world * result map_exn ManualMapping :=
  save_mapping (outside_at 738003) new_row (Some place_revision) (world_of v1_file_later).
Lemma save_later_returns : ∃ saved, save_later = (save_later.1, Ok saved).
Proof.
  assert (match save_later.2 with Ok _ => true | Err _ => false end = true) as H by (vm_compute; reflexivity).
  destruct save_later as [w [saved|e]]; [by exists saved|discriminate H].
Qed.
Lemma no_lost_update_witness :
  (entries (state_of 738001 v1_file)).*1 ≠ (entries (state_of 738003 v1_file_later)).*1
  ∧ ∀ k x, (k, (some_text "nas", some_text "shelf", 5), x) ∈ row_views (state_of 738001 v1_file)
      ↔ (k, (some_text "nas", some_text "shelf", 5), x) ∈ row_views (state_of 738003 v1_file_later).
Proof.
  split; [by vm_compute|]. destruct save_later_returns as [saved Hsaved].
  assert (∃ z, version (state_of 738001 v1_file) = JInt z) as V1 by (exists 1; vm_compute; reflexivity).
  assert (∃ z, version (state_of 738003 v1_file_later) = JInt z) as V2 by (exists 1; vm_compute; reflexivity).
  assert (forallb (λ kv : ustr * ManualMapping, scalars kv.1) (entries (state_of 738001 v1_file)) = true) as K1 by (vm_compute; reflexivity).
  assert (forallb (λ kv : ustr * ManualMapping, scalars kv.1) (entries (state_of 738003 v1_file_later)) = true) as K2 by (vm_compute; reflexivity).
  pose proof (no_lost_update (outside_at 738003) new_row saved place_revision (world_of v1_file_later) save_later.1
    (midnight 738001) (Ok (Some v1_file)) (state_of 738001 v1_file) (state_of 738003 v1_file_later)
    (midnight_utc 738001 ltac:(unfold max_ordinal; lia)) (midnight_utc 738003 ltac:(unfold max_ordinal; lia)) new_row_ok
    v1_loads later_loads V1 V2 (scalar_keys _ K1) (scalar_keys _ K2) place_revision_issued Hsaved
    ltac:(cbv zeta; apply plain_no_collision; vm_compute; reflexivity)) as H.
  assert (resolve_physical_mapping_scope (enclosure_id new_row) = some_text "shelf") as E1 by (vm_compute; reflexivity).
  assert (system_id new_row = some_text "nas" ∧ slot new_row = 5) as [E2 E3] by (split; vm_compute; reflexivity).
  cbv zeta in H. rewrite E1, E2, E3 in H. intros k x. apply H. right. left.
Defined.

(** ** Imports *)

Definition shelf_import : list ManualMapping := [new_row; sample None None 3 "A1"].
Lemma shelf_import_ok m : m ∈ shelf_import → row_ok m.
Proof.
  intros [->|[->|[]%not_elem_of_nil]%elem_of_cons]%elem_of_cons; [apply new_row_ok|apply sample_ok; vm_compute; reflexivity].
Qed.
Lemma shelf_import_settled m : m ∈ shelf_import → settled m.
Proof. intros [->|[->|[]%not_elem_of_nil]%elem_of_cons]%elem_of_cons; vm_compute; reflexivity. Qed.
Definition preview_at (day : Z) (file : list Z) (ms : list ManualMapping) : Preview :=
  match preview_replace_mappings (midnight day) (Ok (Some file)) (some_text "nas") (some_text "shelf") ms with
  | Ok p => p | Err _ => mkPreview [] [] [] [] [] [] end.
Definition import_of (day : Z) (file : list Z) (ms : list ManualMapping) : op ImportResult :=
  let p := preview_at day file ms in
  apply_mapping_import (outside_at day) (some_text "nas") (some_text "shelf") ms (revision p) (import_digest p).
Definition imported (day : Z) (file : list Z) (ms : list ManualMapping) : world * ImportResult :=
  match import_of day file ms (world_of file) with
  | (w, Ok r) => (w, r)
  | (w, Err _) => (w, mkImportResult 0 [] (mkPreview [] [] [] [] [] []))
  end.
Definition current_revision (day : Z) (w : world) : result map_exn ustr :=
  scope_revision (midnight day) (read_source_bytes (outside_at day) w) (some_text "nas") (some_text "shelf").

Example import_previewed :
  let p := preview_at 738001 v1_file shelf_import in
  (length (additions p), length (updates p), length (removals p), length (unchanged p)) = (0%nat, 1%nat, 1%nat, 1%nat).
Proof. vm_compute. reflexivity. Qed.

Lemma all_settled_checked ms : forallb (λ im : Identity * ManualMapping, bool_decide (reread im.2 = im.2)) ms = true → all_settled ms.
Proof. intros H i m Hin. pose proof (forallb_elem _ _ _ H Hin) as E. by apply bool_decide_eq_true in E. Qed.
Lemma imported_runs : import_of 738001 v1_file shelf_import (world_of v1_file)
  = ((imported 738001 v1_file shelf_import).1, Ok (imported 738001 v1_file shelf_import).2).
Proof. unfold imported. destruct (import_of _ _ _ _) as [w [r|e]] eqn:E; [done|]. exfalso. revert E. by vm_compute. Qed.
Lemma import_revision_current_witness :
  let '(w', res) := imported 738001 v1_file shelf_import in
  saved_count res = 2%nat ∧ current_revision 738002 w' = Ok (import_revision res).
Proof.
  pose proof imported_runs as Hrun. destruct (imported 738001 v1_file shelf_import) as [w' res] eqn:E. cbn [fst snd] in Hrun.
  split; [change res with (w', res).2; rewrite <-E; by vm_compute|].
  apply (import_revision_current (outside_at 738001) (outside_at 738002) (world_of v1_file) w' (some_text "nas") (some_text "shelf")
    shelf_import (revision (preview_at 738001 v1_file shelf_import)) (import_digest (preview_at 738001 v1_file shelf_import))
    (state_of 738001 v1_file) res).
  - apply clocks_at. unfold max_ordinal. lia.
  - split_and!; [reflexivity|reflexivity|exact shelf_import_ok].
  - apply v1_loads.
  - apply v1_keys_ok.
  - apply all_settled_checked. by vm_compute.
  - exact shelf_import_settled.
  - reflexivity.
  - exact Hrun.
Defined.

(** A serial of 257 characters with a space at the 256th is cut off behind the
    space; the file trims it once more, so the revision of the import that stored
    it is refused at once. *)
Definition cut_row : ManualMapping :=
  let m := new_row in
  mkMapping (system_id m) (slot m) (enclosure_id m) (trim_strings (Some (repeat 97 255 ++ [32; 98]))) None None None
    (updated_at m) (source m).
Theorem import_revision_stale :
  row_ok cut_row ∧
  let '(w', res) := imported 738001 v1_file [cut_row] in
  saved_count res = 1%nat ∧ current_revision 738002 w' ≠ Ok (import_revision res).
Proof. split; [split; by vm_compute|]. vm_compute. split; [reflexivity|discriminate]. Qed.

(** A row without [updated_at] is given the time of each read, so its revision
    is another at every request. *)
Definition undated_file : list Z :=
  file_of 1 [(u "nas:shelf:3", List.filter (λ kv, negb (bool_decide (kv.1 = u "updated_at"))) (model_dump (sample (some_text "nas") (some_text "shelf") 3 "A1")))].
Theorem undated_revision_changes :
  is_ok (current_revision 738001 (world_of undated_file)) = true
  ∧ current_revision 738001 (world_of undated_file) ≠ current_revision 738002 (world_of undated_file).
Proof. vm_compute. split; [reflexivity|discriminate]. Qed.
