(* ===== verification/ReadBounds.v ===== *)
(** * Bounds of bulk history reads

    [src/history_service/operation_bounds.py]: how a bulk read is admitted.  A
    request is a JSON document; [build_history_read_plan] turns it into a plan
    whose work is bounded before anything is read, or refuses it with the error
    the source raises.  [validate_store_scope_request] is the check the storage
    layer repeats for every scope, and [BulkHistoryReadAdmission] bounds how many
    reads run at once.

    A time difference is a number of microseconds; the source compares and divides
    the same number as a float of seconds, which is exact enough between the bounds
    it checks. *)

From S2P Require Import Prelude PyStr Calendar Json Journal.
#[local] Open Scope Z_scope.
#[local] Open Scope list_scope.

(** ** Limits *)

Definition ALLOWED_HISTORY_METRICS : list ustr :=
  u <$> ["temperature_c"; "bytes_read"; "bytes_written"; "annualized_bytes_read";
         "annualized_bytes_written"; "power_on_hours"]%string.
Definition HISTORY_METRIC_MAX_LIMITS : list (ustr * Z) :=
  prod_map u id <$>
  [("temperature_c", 96); ("bytes_read", 60); ("bytes_written", 60); ("annualized_bytes_read", 60);
   ("annualized_bytes_written", 60); ("power_on_hours", 60)]%string.
Definition INTERNAL_HISTORY_METRIC_MAX_LIMITS : list (ustr * Z) :=
  HISTORY_METRIC_MAX_LIMITS ++ [(u "temperature", 96)].
Definition MAX_SCOPES : Z := 32.
Definition MAX_TARGETS : Z := 347.
Definition MAX_METRICS : Z := ulen ALLOWED_HISTORY_METRICS.
Definition MAX_EVENT_ROWS : Z := 4096.
Definition MAX_RETURNED_ROWS : Z := 36000.
Definition MAX_HISTORY_HOURS : Z := 8760.
Definition HISTORY_WINDOW_TRANSIT_TOLERANCE_SECONDS : Z := 1.
Definition MAX_RESPONSE_BYTES : Z := 25165824.
Definition MAX_METRIC_LIMIT : Z := 96.
Definition MAX_CONCURRENT_BULK_HISTORY_READS : Z := 4.

(** ** Errors *)

(** The two errors of the module, and what the standard library raises. *)
Inductive history_error :=
| HistoryRequestShapeError (detail : ustr)
| HistoryBudgetExceeded (limit_name : string) (value limit : Z)
| Raised (e : py_exn).
Definition shape (detail : string) : history_error := HistoryRequestShapeError (u detail).
(** [str(exc)] *)
Definition error_text (e : history_error) : ustr :=
  match e with
  | HistoryRequestShapeError detail => detail
  | HistoryBudgetExceeded name _ limit => u "History request exceeds " ++ u name ++ u " limit (" ++ print_int limit ++ u ")."
  | Raised _ => []
  end.

(** ** Admission of a read *)

Record BulkHistoryReadAdmission := mkAdmission { max_concurrency : Z; in_flight : Z }.
(** [__init__]; [try_acquire] and [release] hold the state lock throughout. *)
Definition new_admission (max_concurrency : json) : result py_exn BulkHistoryReadAdmission :=
  match max_concurrency with
  | JInt n => if n <? 1 then Err ValueError else Ok (mkAdmission n 0)
  | _ => Err ValueError
  end.
Definition try_acquire (a : BulkHistoryReadAdmission) : bool * BulkHistoryReadAdmission :=
  if max_concurrency a <=? in_flight a then (false, a)
  else (true, mkAdmission (max_concurrency a) (in_flight a + 1)).
(** [None]: the [RuntimeError] of an unbalanced release *)
Definition release (a : BulkHistoryReadAdmission) : option BulkHistoryReadAdmission :=
  if in_flight a <? 1 then None else Some (mkAdmission (max_concurrency a) (in_flight a - 1)).

(** ** Plans *)

Record HistoryScope := mkScope { system_id : ustr; enclosure_id : option ustr; slots : list Z }.
Record HistoryReadPlan := mkPlan {
  scopes : list HistoryScope;
  metrics : list ustr;
  since : ustr;
  event_limit : Z;
  metric_limit : Z;
  window_hours : Z;
  scope_count : Z;
  target_count : Z;
  projected_event_rows : Z;
  projected_rows : Z;
  returned_row_count : Z;
  response_bytes : Z;
}.

(** [HISTORY_METRIC_MAX_LIMITS[metric]] of an allowed metric *)
Definition max_limit (metric : ustr) : Z := default 0 (jget metric HISTORY_METRIC_MAX_LIMITS).
Definition metric_limits_of (limit : Z) (ms : list ustr) : list (ustr * Z) :=
  (λ m, (m, Z.min limit (max_limit m))) <$> ms.
Definition metric_limits (p : HistoryReadPlan) : list (ustr * Z) := metric_limits_of (metric_limit p) (metrics p).
Definition budget_metadata (p : HistoryReadPlan) : list (ustr * Z) :=
  [(u "scope_count", scope_count p); (u "target_count", target_count p);
   (u "projected_event_rows", projected_event_rows p); (u "projected_returned_rows", projected_rows p);
   (u "returned_row_count", returned_row_count p); (u "response_bytes", response_bytes p)].
Definition with_result (returned bytes : Z) (p : HistoryReadPlan) : HistoryReadPlan :=
  mkPlan (scopes p) (metrics p) (since p) (event_limit p) (metric_limit p) (window_hours p) (scope_count p)
    (target_count p) (projected_event_rows p) (projected_rows p) returned bytes.

(** ** Fields of a request *)

(** [list(value)] *)
Definition py_list (value : json) : result history_error (list json) :=
  match value with
  | JList l => Ok l
  | JStr s => Ok ((λ c, JStr [c]) <$> s)
  | JObj d => Ok ((λ kv, JStr kv.1) <$> d)
  | _ => Err (Raised TypeError)
  end.

(** [_strict_int] *)
Definition strict_int (value : json) (label : ustr) (minimum maximum : Z) : result history_error Z :=
  let refused := HistoryRequestShapeError
    (label ++ u " must be an integer from " ++ print_int minimum ++ u " to " ++ print_int maximum ++ u ".") in
  match value with
  | JInt z => if (minimum <=? z) && (z <=? maximum) then Ok z else Err refused
  | _ => Err refused
  end.

Section bounds.
Context {RT : Runtime}.

(** [_parse_since]: an aware time and its offset *)
Definition parse_since (value : json) : result history_error (datetime * Z) :=
  match value with
  | JStr s =>
      raise: shape "since is required for bulk history reads." when bool_decide (ustrip s = []);
      match fromisoformat (py_replace (u "Z") UTC_OFFSET (ustrip s)) with
      | None => Err (shape "since must be a valid timezone-aware timestamp.")
      | Some d => match dt_offset d with
                  | None => Err (shape "since must be timezone-aware.")
                  | Some off => Ok (d, off)
                  end
      end
  | _ => Err (shape "since is required for bulk history reads.")
  end.
(** [_since_as_utc] *)
Definition since_as_utc (parsed : datetime * Z) : result history_error datetime :=
  match astimezone_utc parsed.1 parsed.2 with
  | Ok d => Ok d
  | Err _ => Err (shape "since must be a valid timezone-aware timestamp.")
  end.
Definition normalize_since_utc (value : json) : result history_error ustr :=
  parsed ← parse_since value; d ← since_as_utc parsed; Ok (isoformat_utc d).

Definition SECOND : Z := 1000000.
Definition HOUR : Z := 3600 * SECOND.
Definition instant (d : datetime) : Z := dt_day d * DAY_MICROS + dt_micros d.
Definition MAX_ELAPSED : Z := (MAX_HISTORY_HOURS * 3600 + HISTORY_WINDOW_TRANSIT_TOLERANCE_SECONDS) * SECOND.
(** [now] as UTC; a naive time counts as UTC. *)
Definition current_utc (now : datetime) : result history_error datetime :=
  match astimezone_utc now (default 0 (dt_offset now)) with Ok d => Ok d | Err e => Err (Raised e) end.
(** [_normalize_since] *)
Definition normalize_since (value : json) (now : datetime) : result history_error (ustr * Z) :=
  parsed ← parse_since value;
  parsed ← since_as_utc parsed;
  current ← current_utc now;
  let elapsed := instant current - instant parsed in
  raise: HistoryRequestShapeError (u "since must bound history to between 1 and " ++ print_int MAX_HISTORY_HOURS ++ u " hours.")
    when (elapsed <? HOUR) || (MAX_ELAPSED <? elapsed);
  Ok (isoformat_utc parsed, Z.min (elapsed / HOUR) MAX_HISTORY_HOURS).

Definition slot_number (slot : json) : result history_error Z :=
  let refused := shape "History slot identifiers must be non-negative integers." in
  match slot with JInt z => if z <? 0 then Err refused else Ok z | _ => Err refused end.
Definition sorted_set (l : list Z) : list Z := sort_by Z.leb (remove_dups l).

(** [_normalize_scope]: the scope and the number of slots as they were given *)
Definition SCOPE_FIELDS : list ustr := u <$> ["system_id"; "enclosure_id"; "slots"]%string.
Definition normalize_scope (raw_scope : json) : result history_error (HistoryScope * Z) :=
  match raw_scope with
  | JObj d =>
      raise: shape "History scope contains unsupported fields." when negb (forallb (λ kv, bool_decide (kv.1 ∈ SCOPE_FIELDS)) d);
      match field_or "system_id" JNull d with
      | JStr sid =>
          raise: shape "Each history scope requires system_id." when bool_decide (ustrip sid = []);
          enclosure ← match field_or "enclosure_id" JNull d with
                      | JNull => Ok None
                      | JStr e => Ok (if bool_decide (ustrip e = []) then None else Some (ustrip e))
                      | _ => Err (shape "enclosure_id must be a string or null.")
                      end;
          match field_or "slots" JNull d with
          | JList ((_ :: _) as raw_slots) =>
              raise: HistoryBudgetExceeded "target_count" (ulen raw_slots) MAX_TARGETS when MAX_TARGETS <? ulen raw_slots;
              numbers ← res_mapM slot_number raw_slots;
              Ok (mkScope (ustrip sid) enclosure (sorted_set numbers), ulen raw_slots)
          | _ => Err (shape "Each history scope requires at least one slot.")
          end
      | _ => Err (shape "Each history scope requires system_id.")
      end
  | _ => Err (shape "Each history scope must be an object.")
  end.

Definition identity (s : HistoryScope) : ustr * option ustr := (system_id s, enclosure_id s).
(** The loop over the scopes: the targets and the identities so far *)
Fixpoint normalize_scopes (raw_scopes : list json) (raw_target_count : Z) (identities : gset (ustr * option ustr))
    : result history_error (list HistoryScope) :=
match raw_scopes with
| [] => Ok []
| raw_scope :: rest =>
    '(scope, raw_slot_count) ← normalize_scope raw_scope;
    let count := raw_target_count + raw_slot_count in
    raise: HistoryBudgetExceeded "target_count" count MAX_TARGETS when MAX_TARGETS <? count;
    raise: shape "Duplicate history scope identities are not allowed." when bool_decide (identity scope ∈ identities);
    cons scope <$> normalize_scopes rest count ({[ identity scope ]} ∪ identities)
end.

(** The loop over the metrics *)
Fixpoint normalize_metrics (raw_metrics : list json) (normalized : list ustr) : result history_error (list ustr) :=
match raw_metrics with
| [] => Ok normalized
| JStr m :: rest =>
    raise: shape "metrics contains an unsupported history metric." when negb (bool_decide (m ∈ ALLOWED_HISTORY_METRICS));
    normalize_metrics rest (if bool_decide (m ∈ normalized) then normalized else normalized ++ [m])
| _ :: _ => Err (shape "metrics contains an unsupported history metric.")
end.

Definition metrics_refused : history_error :=
  HistoryRequestShapeError (u "metrics must contain between 1 and " ++ print_int MAX_METRICS ++ u " entries.").
Definition build_history_read_plan (raw_scopes raw_metrics raw_since raw_event_limit raw_metric_limit : json)
    (now : datetime) : result history_error HistoryReadPlan :=
  raw_scopes ← py_list raw_scopes;
  raise: shape "At least one history scope is required." when bool_decide (raw_scopes = []);
  raise: HistoryBudgetExceeded "scope_count" (ulen raw_scopes) MAX_SCOPES when MAX_SCOPES <? ulen raw_scopes;
  scopes ← normalize_scopes raw_scopes 0 ∅;
  raw_metrics ← py_list raw_metrics;
  raise: metrics_refused when bool_decide (raw_metrics = []) || (MAX_METRICS <? ulen raw_metrics);
  metrics ← normalize_metrics raw_metrics [];
  event_limit ← strict_int raw_event_limit (u "event_limit") 0 MAX_EVENT_ROWS;
  metric_limit ← strict_int raw_metric_limit (u "metric_limit") 1 MAX_METRIC_LIMIT;
  '(since, window_hours) ← normalize_since raw_since now;
  let target_count := sum ((λ s, ulen (slots s)) <$> scopes) in
  let projected_event_rows := target_count * event_limit in
  raise: HistoryBudgetExceeded "event_rows" projected_event_rows MAX_EVENT_ROWS when MAX_EVENT_ROWS <? projected_event_rows;
  let projected_rows := target_count * (event_limit + sum (snd <$> metric_limits_of metric_limit metrics)) in
  raise: HistoryBudgetExceeded "projected_rows" projected_rows MAX_RETURNED_ROWS when MAX_RETURNED_ROWS <? projected_rows;
  Ok (mkPlan scopes metrics since event_limit metric_limit window_hours (ulen scopes) target_count
        projected_event_rows projected_rows 0 0).

(** ** The check of the storage layer *)

(** The loop over the metric limits: their sum *)
Fixpoint total_metric_rows (limits : list (ustr * json)) (total : Z) : result history_error Z :=
match limits with
| [] => Ok total
| (metric, limit) :: rest =>
    match jget metric INTERNAL_HISTORY_METRIC_MAX_LIMITS with
    | None => Err (shape "Unsupported history metric.")
    | Some maximum => n ← strict_int limit (metric ++ u " limit") 1 maximum; total_metric_rows rest (total + n)
    end
end.
Definition validate_store_scope_request (raw_slots : list json) (raw_event_limit : json) (limits : list (ustr * json))
    (raw_since : json) (now : datetime) : result history_error ustr :=
  raise: shape "Bulk history storage reads require explicit slots." when bool_decide (raw_slots = []);
  raise: HistoryBudgetExceeded "target_count" (ulen raw_slots) MAX_TARGETS when MAX_TARGETS <? ulen raw_slots;
  numbers ← res_mapM slot_number raw_slots;
  let normalized_slots := remove_dups numbers in
  event_limit ← strict_int raw_event_limit (u "event_limit") 0 MAX_EVENT_ROWS;
  raise: shape "Bulk history storage reads require allowlisted metrics." when bool_decide (limits = []) || (MAX_METRICS <? ulen limits);
  metric_rows ← total_metric_rows limits 0;
  '(since, _) ← normalize_since raw_since now;
  let event_rows := ulen normalized_slots * event_limit in
  raise: HistoryBudgetExceeded "event_rows" event_rows MAX_EVENT_ROWS when MAX_EVENT_ROWS <? event_rows;
  let projected_rows := ulen normalized_slots * (event_limit + metric_rows) in
  raise: HistoryBudgetExceeded "projected_rows" projected_rows MAX_RETURNED_ROWS when MAX_RETURNED_ROWS <? projected_rows;
  Ok since.
End bounds.

(** ** What a read returned *)

(** [len(v)] of a list, nothing for other values *)
Definition list_len (v : json) : Z := match v with JList l => ulen l | _ => 0 end.
Definition payload_rows (payload : jdict) : Z :=
  list_len (field_or "events" (JList []) payload)
  + match field_or "metrics" (JObj []) payload with
    | JObj ms => sum ((λ kv, list_len kv.2) <$> ms)
    | _ => 0
    end.
Definition count_history_rows (histories : list jdict) : Z := sum (payload_rows <$> histories).
