(* ===== verification/ResponseSize.v ===== *)
(** * The size of a response

    [src/history_service/main.py] bounds a history response before it is rendered:
    [_json_value_size] computes how many bytes a value will take,
    [_set_exact_response_size] writes the size of the response into the response
    itself, and [bounded_history_json_response] sends it or refuses it.  Here the
    computed size is the length of the text [json.dumps] gives the response class
    ([encode]), and the size a response states is its own.

    A value has dicts with any keys, as Python's do (slots are integers there).
    The recursion limit is left out: responses are a few levels deep. *)

From S2P Require Import Prelude PyStr Json JsonProofs Journal ReadBounds.
#[local] Open Scope Z_scope.
#[local] Open Scope list_scope.

(** ** Values *)

(** [KOther], [OOther]: an object of any other class *)
Inductive pykey := KStr (s : ustr) | KBool (b : bool) | KNone | KInt (z : Z) | KFloat (literal : ustr) | KOther.
#[export] Instance pykey_eq_dec : EqDecision pykey.
Proof. solve_decision. Defined.
Inductive pyobj :=
| ONone
| OBool (b : bool)
| OStr (s : ustr)
| OInt (z : Z)
| OFloat (literal : ustr)
| OSeq (l : list pyobj)
| ODict (d : list (pykey * pyobj))
| OOther.
Abbreviation objdict := (list (pykey * pyobj)).

Section pyobj_induction.
Context (P : pyobj → Prop).
Context (HNone : P ONone) (HBool : ∀ b, P (OBool b)) (HStr : ∀ s, P (OStr s)) (HInt : ∀ z, P (OInt z))
(HFloat : ∀ lit, P (OFloat lit)) (HSeq : ∀ l, Forall P l → P (OSeq l))
(HDict : ∀ d, Forall (λ kv, P (snd kv)) d → P (ODict d)) (HOther : P OOther).

Fixpoint pyobj_ind' (v : pyobj) : P v :=
match v with
| ONone => HNone
| OBool b => HBool b
| OStr s => HStr s
| OInt z => HInt z
| OFloat lit => HFloat lit
| OSeq l => HSeq l ((fix go l : Forall P l :=
    match l with [] => Forall_nil_2 _ | x :: l' => Forall_cons_2 _ _ _ (pyobj_ind' x) (go l') end) l)
| ODict d => HDict d ((fix go d : Forall (λ kv, P (snd kv)) d :=
    match d with [] => Forall_nil_2 _ | kv :: d' => Forall_cons_2 _ _ _ (pyobj_ind' (snd kv)) (go d') end) d)
| OOther => HOther
end.
End pyobj_induction.

(** [d.get(k)] and [d[k] = v] *)
Fixpoint oget (k : pykey) (d : objdict) : option pyobj :=
  match d with [] => None | (k', v) :: d' => if decide (k' = k) then Some v else oget k d' end.
Fixpoint oset (k : pykey) (v : pyobj) (d : objdict) : objdict :=
  match d with
  | [] => [(k, v)]
  | (k', v') :: d' => if decide (k' = k) then (k', v) :: d' else (k', v') :: oset k v d'
  end.
Definition okey (s : string) : pykey := KStr (u s).

(** ** Bytes *)

(** [c.encode("utf-8")] of a character; a surrogate cannot be encoded. *)
Definition utf8_char (c : Z) : result py_exn (list Z) :=
  if c <? 128 then Ok [c]
  else if c <? 2048 then Ok [192 + c / 64; 128 + c mod 64]
  else if is_high c || is_low c then Err ValueError
  else if c <? 65536 then Ok [224 + c / 4096; 128 + c / 64 mod 64; 128 + c mod 64]
  else Ok [240 + c / 262144; 128 + c / 4096 mod 64; 128 + c / 64 mod 64; 128 + c mod 64].
Definition utf8 (s : ustr) : result py_exn (list Z) := @concat Z <$> res_mapM utf8_char s.

(** [str(z)] *)
Definition int_text (z : Z) : result py_exn ustr :=
  if Nat.ltb int_max_str_digits (length (dec (Z.abs z))) then Err ValueError else Ok (print_int z).

(** The short escapes: quote, backslash, and [\b \f \n \r \t] *)
Definition short_escape (c : Z) : option Z :=
  if (c =? 34) || (c =? 92) then Some c
  else if c =? 8 then Some 98
  else if c =? 12 then Some 102
  else if c =? 10 then Some 110
  else if c =? 13 then Some 114
  else if c =? 9 then Some 116
  else None.

(** ** [json.dumps] with [ensure_ascii=False, allow_nan=False, separators=(",", ":")] *)

Definition escape_char (c : Z) : ustr :=
  match short_escape c with
  | Some e => [92; e]
  | None => if c <=? 31 then u4 c else [c]
  end.
Definition quoted (s : ustr) : ustr := [34] ++ (s ≫= escape_char) ++ [34].

Section sizes.
Context {FL : Floats}.

Definition float_text (lit : ustr) : result py_exn ustr :=
  match float_repr lit with Some s => Ok s | None => Err ValueError end.
(** [_json_key_text]; [json.dumps] does the same with keys *)
Definition json_key_text (k : pykey) : result py_exn ustr :=
  match k with
  | KStr s => Ok s
  | KBool b => Ok (if b then u "true" else u "false")
  | KNone => Ok (u "null")
  | KInt z => int_text z
  | KFloat lit => float_text lit
  | KOther => Err TypeError
  end.

Fixpoint json_text (v : pyobj) {struct v} : result py_exn ustr :=
match v with
| ONone => Ok (u "null")
| OBool b => Ok (if b then u "true" else u "false")
| OStr s => Ok (quoted s)
| OInt z => int_text z
| OFloat lit => float_text lit
| OSeq l => (λ xs, [91] ++ join_comma xs ++ [93]) <$> res_mapM id (json_text <$> l)
| ODict d =>
    (λ xs, [123] ++ join_comma xs ++ [125]) <$>
    res_mapM id ((λ kv, k ← json_key_text kv.1; t ← json_text kv.2; Ok (quoted k ++ [58] ++ t)) <$> d)
| OOther => Err TypeError
end.
(** [json.dumps(...).encode("utf-8")] *)
Definition encode (v : pyobj) : result py_exn (list Z) := t ← json_text v; utf8 t.

(** ** The size, without the text *)

(** [_json_string_size] *)
Definition char_size (c : Z) : result py_exn Z :=
  match short_escape c with
  | Some _ => Ok 2
  | None => if c <=? 31 then Ok 6 else (λ b, ulen b) <$> utf8_char c
  end.
Definition json_string_size (s : ustr) : result py_exn Z := (λ ns, 2 + sum ns) <$> res_mapM char_size s.

(** [max(0, len(value) - 1)] *)
Definition separators {A} (l : list A) : Z := Z.max 0 (ulen l - 1).
(** [_json_value_size] *)
Fixpoint json_value_size (v : pyobj) {struct v} : result py_exn Z :=
match v with
| ONone => Ok 4
| OBool true => Ok 4
| OBool false => Ok 5
| OStr s => json_string_size s
| OInt z => (λ t, ulen t) <$> int_text z
| OFloat lit => (λ t, ulen t) <$> float_text lit
| OSeq l => (λ ns, 2 + separators l + sum ns) <$> res_mapM id (json_value_size <$> l)
| ODict d =>
    (λ ns, 2 + separators d + sum ns) <$>
    res_mapM id ((λ kv, k ← json_key_text kv.1; n ← json_string_size k; m ← json_value_size kv.2; Ok (n + 1 + m)) <$> d)
| OOther => Err TypeError
end.

Definition digits (z : Z) : Z := ulen (print_int z).
(** [_set_exact_response_size]: the size, and the payload with the size in its
    budget *)
Definition set_exact_response_size (payload : objdict) : result py_exn (Z * objdict) :=
  match oget (okey "budget") payload with
  | Some (ODict budget) =>
      let with_size n := oset (okey "budget") (ODict (oset (okey "response_bytes") (OInt n) budget)) payload in
      size ← json_value_size (ODict (with_size 0));
      let without := size - 1 in
      let digit_count := digits (without + 1) in
      let response_bytes := without + digit_count in
      let response_bytes := if digits response_bytes =? digit_count then response_bytes else without + digits response_bytes in
      Ok (response_bytes, with_size response_bytes)
  | _ => n ← json_value_size (ODict payload); Ok (n, payload)
  end.

(** ** The response *)

(** [JSONResponse(content).body], of the web framework *)
Class Framework := { response_body : pyobj → result py_exn (list Z) }.
Inductive response :=
| Respond (status : Z) (body : list Z)
| ServerError (e : py_exn).
(** An exception nobody catches, as the framework answers it. *)
Definition respond `{Framework} (status : Z) (content : pyobj) : response :=
  match response_body content with Ok b => Respond status b | Err e => ServerError e end.

Definition too_large : pyobj :=
  ODict [(okey "detail", OStr (u "History response exceeds serialized byte limit.")); (okey "limit", OInt MAX_RESPONSE_BYTES)].
(** [bounded_history_json_response]; a wrong size is a [RuntimeError]. *)
Definition bounded_history_json_response `{Framework} (payload : objdict) (max_bytes : Z) : response :=
  match set_exact_response_size payload with
  | Err e => ServerError e
  | Ok (response_bytes, payload) =>
      if max_bytes <? response_bytes then respond 413 (too_large)
      else match response_body (ODict payload) with
           | Err e => ServerError e
           | Ok b => if ulen b =? response_bytes then Respond 200 b else ServerError RuntimeError
           end
  end.
End sizes.
