(* ===== verification/ReadService.v ===== *)
(** * The bulk history read, from request to response

    How the parts of a bulk read interact.  The read UI
    ([src/app/services/history_backend.py], [get_scopes_history]) admits a request,
    and sends the admitted plan as a document ([plan_document]).  The history
    service ([src/history_service/main.py]) admits the document again
    ([plan_of_document]), takes one of the places of [BulkHistoryReadAdmission],
    reads the scopes one after the other ([execute_history_plan]), and bounds the
    response ([scopes_history_bundle]).

    The store is the interface [ScopeReader]: what it promises, that a read returns
    no more rows than it was allowed, is [ReaderLaws].  Requests run concurrently;
    [service_next] is one event of the event loop, as far as the places are
    concerned. *)

From S2P Require Import Prelude PyStr Calendar Json Journal ReadBounds ResponseSize.
#[local] Open Scope Z_scope.
#[local] Open Scope list_scope.

(** ** The document of a plan *)

Definition scope_document (s : HistoryScope) : json :=
  JObj [(u "system_id", JStr (system_id s)); (u "enclosure_id", of_opt (enclosure_id s)); (u "slots", JList (JInt <$> slots s))].
Definition scopes_value (p : HistoryReadPlan) : json := JList (scope_document <$> scopes p).
Definition metrics_value (p : HistoryReadPlan) : json := JList (JStr <$> metrics p).
Definition plan_document (p : HistoryReadPlan) : json :=
  JObj [(u "scopes", scopes_value p); (u "metrics", metrics_value p); (u "since", JStr (since p));
        (u "event_limit", JInt (event_limit p)); (u "metric_limit", JInt (metric_limit p))].

(** The request as [scopes_history_bundle] takes it, after [json.loads] *)
Definition DOCUMENT_FIELDS : list ustr := u <$> ["scopes"; "metrics"; "since"; "event_limit"; "metric_limit"]%string.
Definition same_set {A} `{EqDecision A} (l k : list A) : bool :=
  forallb (λ x, bool_decide (x ∈ k)) l && forallb (λ x, bool_decide (x ∈ l)) k.
Definition plan_of_document {RT : Runtime} (document : json) (now : datetime) : result history_error HistoryReadPlan :=
  match document with
  | JObj d =>
      raise: shape "invalid document fields" when negb (same_set d.*1 DOCUMENT_FIELDS);
      build_history_read_plan (field_or "scopes" JNull d) (field_or "metrics" JNull d) (field_or "since" JNull d)
        (field_or "event_limit" JNull d) (field_or "metric_limit" JNull d) now
  | _ => Err (shape "invalid document fields")
  end.

(** ** The store *)

(** The histories of a scope: a payload per slot *)
Definition histories : Type := list (Z * jdict).
Class ScopeReader := {
  store_state : Type;
  list_scope_history : ustr → option ustr → list Z → Z → list (ustr * Z) → ustr → store_state →
    result history_error histories * store_state;
}.
Class ReaderLaws (SR : ScopeReader) : Prop := {
  reader_targets : ∀ sid enc sl el ml t w hs w',
    list_scope_history sid enc sl el ml t w = (Ok hs, w') → ulen hs <= ulen sl;
  reader_rows : ∀ sid enc sl el ml t w hs w',
    list_scope_history sid enc sl el ml t w = (Ok hs, w') → Forall (λ h : Z * jdict, payload_rows h.2 <= el + sum ml.*2) hs;
}.

Section service.
Context {SR : ScopeReader}.

(** [_execute_history_plan]: the payloads of the scopes, and the rows returned *)
Fixpoint execute_scopes (p : HistoryReadPlan) (ss : list HistoryScope) (returned_rows : Z) (w : store_state)
    : result history_error (list (HistoryScope * histories) * Z) * store_state :=
match ss with
| [] => (Ok ([], returned_rows), w)
| scope :: rest =>
    match list_scope_history (system_id scope) (enclosure_id scope) (slots scope) (event_limit p) (metric_limits p) (since p) w with
    | (Err e, w) => (Err e, w)
    | (Ok hs, w) =>
        let returned_rows := returned_rows + count_history_rows hs.*2 in
        if projected_rows p <? returned_rows then (Err (HistoryBudgetExceeded "returned_rows" returned_rows (projected_rows p)), w)
        else
          let '(r, w) := execute_scopes p rest returned_rows w in
          ((λ pr, ((scope, hs) :: pr.1, pr.2)) <$> r, w)
    end
end.
Definition execute_history_plan (p : HistoryReadPlan) (w : store_state) :
    result history_error (list (HistoryScope * histories) * Z) * store_state :=
  execute_scopes p (scopes p) 0 w.

(** ** Responses *)

Fixpoint obj_of (v : json) : pyobj :=
match v with
| JNull => ONone
| JBool b => OBool b
| JInt z => OInt z
| JFloat lit => OFloat lit
| JStr s => OStr s
| JList l => OSeq (obj_of <$> l)
| JObj d => ODict ((λ kv, (KStr kv.1, obj_of kv.2)) <$> d)
end.
Definition scope_payload (sh : HistoryScope * histories) : pyobj :=
  ODict [(okey "system_id", OStr (system_id sh.1)); (okey "enclosure_id", obj_of (of_opt (enclosure_id sh.1)));
         (okey "histories", ODict ((λ h : Z * jdict, (KInt h.1, obj_of (JObj h.2))) <$> sh.2))].
Definition bundle_payload (p : HistoryReadPlan) (payloads : list (HistoryScope * histories)) (returned_rows : Z) : objdict :=
  [(okey "scopes", OSeq (scope_payload <$> payloads));
   (okey "budget", ODict ((λ kv : ustr * Z, (KStr kv.1, OInt kv.2)) <$> budget_metadata (with_result returned_rows 0 p)))].

Context {RT : Runtime} {FW : Framework}.

(** [_history_error_response], and the busy response without its headers *)
Definition history_error_response (e : history_error) : response :=
  match e with
  | HistoryBudgetExceeded name _ limit =>
      respond 413 (ODict [(okey "detail", OStr (u "History request exceeds " ++ u name ++ u " limit.")); (okey "limit", OInt limit)])
  | _ => respond 422 (ODict [(okey "detail", OStr (u "History request shape is invalid."))])
  end.
Definition HISTORY_READ_BUSY_DETAIL : ustr := u "History read capacity is temporarily busy; retry later.".
Definition history_read_busy_response : response := respond 503 (ODict [(okey "detail", OStr HISTORY_READ_BUSY_DETAIL)]).

(** What a failed read raises, when the handler does not catch it *)
Definition exn_of_error (e : history_error) : py_exn := match e with Raised e => e | _ => ValueError end.

(** [scopes_history_bundle] from its parsed body, with [_execute_admitted_history_plan]:
    the place is taken before the read and given back after it, however it ends. *)
Definition scopes_history_bundle (document : json) (now : datetime) (a : BulkHistoryReadAdmission) (w : store_state) :
    response * BulkHistoryReadAdmission * store_state :=
  match plan_of_document document now with
  | Err e => (history_error_response e, a, w)
  | Ok p =>
      match try_acquire a with
      | (false, a) => (history_read_busy_response, a, w)
      | (true, a) =>
          let '(r, w) := execute_history_plan p w in
          match release a with
          | None => (ServerError RuntimeError, a, w)
          | Some a =>
              match r with
              | Err e => (ServerError (exn_of_error e), a, w)
              | Ok (payloads, returned_rows) =>
                  (bounded_history_json_response (bundle_payload p payloads returned_rows) MAX_RESPONSE_BYTES, a, w)
              end
          end
      end
  end.
End service.

(** ** Concurrent reads *)

(** [bulk_history_read_admission] and [bulk_history_read_operations]: the plan of
    every operation, and whether it is still reading.  A requester that goes away
    leaves its operation running. *)
Record service := mkService {
  admission : BulkHistoryReadAdmission;
  operations : gmap Z (HistoryReadPlan * bool);
}.
Inductive service_event :=
| Refuse                              (* no place: [HistoryReadBusy] *)
| Start (id : Z) (p : HistoryReadPlan)   (* a place is taken, the operation created *)
| Finish (id : Z)                     (* [finally: admission.release()] *)
| Unbalanced (id : Z)                 (* [release] raises *)
| Discard (id : Z).                   (* [_finish_bulk_history_operation] *)
Definition service_next (e : service_event) (s : service) : option service :=
  match e with
  | Refuse => match try_acquire (admission s) with (false, a) => Some (mkService a (operations s)) | _ => None end
  | Start id p =>
      match operations s !! id, try_acquire (admission s) with
      | None, (true, a) => Some (mkService a (<[id := (p, true)]> (operations s)))
      | _, _ => None
      end
  | Finish id =>
      match operations s !! id, release (admission s) with
      | Some (p, true), Some a => Some (mkService a (<[id := (p, false)]> (operations s)))
      | _, _ => None
      end
  | Unbalanced id =>
      match operations s !! id, release (admission s) with
      | Some (p, true), None => Some (mkService (admission s) (<[id := (p, false)]> (operations s)))
      | _, _ => None
      end
  | Discard id =>
      match operations s !! id with Some (_, false) => Some (mkService (admission s) (delete id (operations s))) | _ => None end
  end.
Definition service_run (es : list service_event) (s : service) : option service :=
  foldl (λ s e, s ← s; service_next e s) (Some s) es.
Definition reading (s : service) : gmap Z (HistoryReadPlan * bool) := filter (λ kv, kv.2.2 = true) (operations s).
