(* ===== verification/ScopeHistory.v ===== *)
(** * The history of a scope, from one database

    [HistoryStore.list_scope_history] and [_append_scope_metric_rollups] of
    [src/history_service/store.py], for a store without segments.  A table is a list
    of rows, a row the dict [dict(row)] makes of it, and an SQL statement the
    function of the tables it denotes: [WHERE] filters, [ROW_NUMBER() OVER
    (... ORDER BY ...)] ranks, [row_number <= ?] takes.  Texts compare by code
    points, as SQLite's binary collation of UTF-8 does; rows that tie keep the order
    of their table.

    Every statement is partitioned by slot and every loop over its rows files a row
    under its slot, so the method is written for one slot ([slot_payload]) and run
    for each.  The database stores 64-bit integers and UTF-8 texts: a slot beyond
    2^63 - 1 or a name with a lone surrogate, which [sqlite3] refuses to bind, matches
    no row here.  The clock, the database at the time of a call, its failures and the
    division of two [REAL]s are the class [StoreWorld]. *)

From S2P Require Import Prelude PyStr Calendar Json Journal ReadBounds ResponseSize ReadService.
#[local] Open Scope Z_scope.
#[local] Open Scope list_scope.

(** ** Rows and tables *)

Abbreviation row := jdict.
(** Columns that are declared [NOT NULL] *)
Definition text_col (k : string) (r : row) : ustr := match field k r with Some (JStr s) => s | _ => [] end.
Definition int_col (k : string) (r : row) : Z := match field k r with Some (JInt z) => z | _ => 0 end.
Record database := mkDatabase { slot_events : list row; metric_samples : list row; metric_rollups : list row }.

(** [ORDER BY observed_at DESC, id DESC] and [ORDER BY k DESC] *)
Definition newest_first (a b : row) : bool :=
  negb (ustr_leb (text_col "observed_at" a) (text_col "observed_at" b))
  || bool_decide (text_col "observed_at" a = text_col "observed_at" b) && (int_col "id" b <=? int_col "id" a).
Definition latest_first (k : string) (a b : row) : bool := ustr_leb (text_col k b) (text_col k a).

(** The rows of a query for one slot *)
Record query := mkQuery { q_system_id : ustr; q_enclosure_key : ustr; q_slot : Z; q_since : ustr }.
Definition where_scope (q : query) (r : row) : bool :=
  bool_decide (text_col "system_id" r = q_system_id q) && bool_decide (text_col "enclosure_key" r = q_enclosure_key q)
  && (int_col "slot" r =? q_slot q).
Definition where_event (q : query) (r : row) : bool := where_scope q r && ustr_leb (q_since q) (text_col "observed_at" r).
Definition where_metric (q : query) (metric : ustr) (r : row) : bool :=
  where_scope q r && bool_decide (text_col "metric_name" r = metric) && ustr_leb (q_since q) (text_col "observed_at" r).

(** [bounded_count]: what is counted once [limit + 1] rows have been ranked *)
Definition bounded_count (limit : Z) (rows : list row) : Z := Z.min (ulen rows) (limit + 1).
Definition newest (limit : Z) (rows : list row) : list row := take (Z.to_nat limit) (sort_by newest_first rows).

(** [item["value"] = value_integer if value_integer is not None else value_real] *)
Definition with_value (r : row) : row :=
  jset (u "value") (match field_or "value_integer" JNull r with JNull => field_or "value_real" JNull r | v => v end) r.

(** ** The world of the store *)

Class StoreWorld := {
  clock : nat → datetime;
  database_at : nat → database;
  database_fails : nat → option py_exn;
  real_div : json → json → json;
}.

Inductive coverage := complete | unknown | truncated.
#[export] Instance coverage_eq_dec : EqDecision coverage.
Proof. solve_decision. Defined.
Definition coverage_text (c : coverage) : json :=
  JStr (u (match c with complete => "complete" | unknown => "unknown" | truncated => "truncated" end)).

Section store.
Context {RT : Runtime} {SW : StoreWorld}.

(** ** Rollups *)

Definition ROLLUP_COUNTER_METRICS : list ustr := u <$> ["bytes_read"; "bytes_written"; "power_on_hours"]%string.
Definition is_counter (r : row) : bool := bool_decide (text_col "metric_name" r ∈ ROLLUP_COUNTER_METRICS).
(** [CASE WHEN metric_name IN (...) THEN last_observed_at ELSE bucket_start END] *)
Definition rollup_time (r : row) : ustr := if is_counter r then text_col "last_observed_at" r else text_col "bucket_start" r.
Definition nullif_empty (v : json) : json := match v with JStr [] => JNull | v => v end.
(** [ROLLUP_TO_SAMPLE_PROJECTION] *)
Definition rollup_to_sample (r : row) : row :=
  let col k := (u k, field_or k JNull r) in
  [(u "id", JNull); (u "observed_at", JStr (rollup_time r)); col "system_id"; col "system_label"; col "enclosure_key";
   col "enclosure_id"; col "enclosure_label"; col "slot"; col "slot_label"; col "metric_name"; (u "value_integer", JNull);
   (u "value_real", if is_counter r then field_or "last_value" JNull r
                    else real_div (field_or "value_sum" JNull r) (field_or "sample_count" JNull r));
   col "device_name"; col "serial"; col "model"; col "state"; col "gptid"; col "persistent_id_label";
   (u "disk_identity_key", nullif_empty (field_or "disk_identity_key" JNull r)); col "logical_unit_id"; col "sas_address";
   (u "rollup_seconds", field_or "bucket_seconds" JNull r); col "sample_count"; col "value_min"; col "value_max"]%string.

Definition below (boundary : option ustr) (t : ustr) : bool :=
  match boundary with None => true | Some b => negb (ustr_leb b t) end.
Definition where_rollup (q : query) (metric : ustr) (bucket_seconds : Z) (boundary : option ustr) (r : row) : bool :=
  where_scope q r && bool_decide (text_col "metric_name" r = metric) && (int_col "bucket_seconds" r =? bucket_seconds)
  && below boundary (rollup_time r) && ustr_leb (q_since q) (text_col "bucket_start" r).

(** The boundary: the oldest sample so far; for daily rollups below hourly ones, the
    start of its day *)
Definition is_hourly (item : row) : bool := match field "rollup_seconds" item with Some (JInt z) => z =? 3600 | _ => false end.
Definition boundary_of (bucket_seconds : Z) (samples : list row) : option ustr :=
  match last samples with
  | None => None
  | Some item =>
      let before := text_col "observed_at" item in
      if bool_decide (before ≠ []) && (bucket_seconds =? 86400) && existsb is_hourly samples
      then Some (take 10 before ++ u "T00:00:00+00:00") else Some before
  end.
(** One round of [_append_scope_metric_rollups] *)
Definition append_rollups (db : database) (q : query) (metric : ustr) (limit bucket_seconds : Z) (samples : list row) : list row :=
  let remaining := limit - ulen samples in
  if remaining <=? 0 then samples
  else
    let candidates := List.filter (where_rollup q metric bucket_seconds (boundary_of bucket_seconds samples)) (metric_rollups db) in
    let ranked := take (Z.to_nat remaining) (sort_by (latest_first "bucket_start") candidates) in
    samples ++ (with_value <$> sort_by (latest_first "observed_at") (rollup_to_sample <$> ranked)).

(** ** The payload of a slot *)

Definition raw_samples (db : database) (q : query) (metric : ustr) : list row := List.filter (where_metric q metric) (metric_samples db).
Definition slot_metric (db : database) (q : query) (metric : ustr) (limit : Z) : list row :=
  append_rollups db q metric limit 86400
    (append_rollups db q metric limit 3600 (with_value <$> newest limit (raw_samples db q metric))).
Definition metric_coverage (db : database) (q : query) (metric : ustr) (limit : Z) : coverage :=
  if limit <? bounded_count limit (raw_samples db q metric) then truncated
  else if existsb (λ r, where_scope q r && ustr_leb (q_since q) (text_col "bucket_start" r) && bool_decide (text_col "metric_name" r = metric))
            (metric_rollups db) then unknown
  else complete.
Definition matching_events (db : database) (q : query) : list row := List.filter (where_event q) (slot_events db).
Definition slot_event_rows (db : database) (q : query) (limit : Z) : list row :=
  if 0 <? limit then newest limit (matching_events db q) else [].
Definition event_coverage (db : database) (q : query) (limit : Z) : coverage :=
  if 0 <? limit then if limit <? bounded_count limit (matching_events db q) then truncated else complete else unknown.

Definition slot_payload (db : database) (q : query) (event_limit : Z) (limits : list (ustr * Z)) : jdict :=
  let samples ml := slot_metric db q ml.1 ml.2 in
  [(u "events", JList (JObj <$> slot_event_rows db q event_limit));
   (u "metrics", JObj ((λ ml : ustr * Z, (ml.1, JList (JObj <$> samples ml))) <$> limits));
   (u "sample_counts", JObj ((λ ml : ustr * Z, (ml.1, JInt (ulen (samples ml)))) <$> limits));
   (u "latest_values", JObj ((λ ml : ustr * Z, (ml.1, match samples ml with item :: _ => field_or "value" JNull item | [] => JNull end)) <$> limits));
   (u "coverage", JObj [(u "metrics", JObj ((λ ml : ustr * Z, (ml.1, coverage_text (metric_coverage db q ml.1 ml.2))) <$> limits));
                        (u "events", coverage_text (event_coverage db q event_limit))])].

(** [list_scope_history]: the [n]-th call *)
Definition store_scope_history (sid : ustr) (enclosure : option ustr) (raw_slots : list Z) (event_limit : Z)
    (limits : list (ustr * Z)) (raw_since : ustr) (n : nat) : result history_error histories * nat :=
  (since ← validate_store_scope_request (JInt <$> raw_slots) (JInt event_limit) (prod_map id JInt <$> limits) (JStr raw_since) (clock n);
   match database_fails n with
   | Some e => Err (Raised e)
   | None =>
       Ok ((λ slot, (slot, slot_payload (database_at n) (mkQuery sid (default [] enclosure) slot since) event_limit limits))
             <$> sorted_set raw_slots)
   end, S n).
#[export] Instance store_reader : ScopeReader := {| store_state := nat; list_scope_history := store_scope_history |}.
End store.
