(* ===== verification/ReadBoundsProofs.v ===== *)
(** * Admitted history reads

    What a plan promises ([plan_ok]), that every admitted request has a plan that
    keeps it ([build_plan_ok]), that the fields of such a plan are admitted again
    ([build_plan_again]), and what the check of the storage layer makes of its
    scopes ([check_scope_spec]).  The properties are in [ReadServiceProofs]. *)

From S2P Require Import Prelude PyStr Calendar Json JsonProofs Journal JournalLines JournalExample ReadBounds ReadService.
#[local] Open Scope Z_scope.
#[local] Open Scope list_scope.

(** ** Sets of slots *)

Lemma sorted_set_elem l z : z ∈ sorted_set l ↔ z ∈ l.
Proof. unfold sorted_set. by rewrite elem_of_sort_by, elem_of_remove_dups. Qed.
Lemma NoDup_sorted_set l : NoDup (sorted_set l).
Proof. unfold sorted_set. rewrite sort_by_perm. apply NoDup_remove_dups. Qed.
Lemma Zleb_total x y : (x <=? y) = true ∨ (y <=? x) = true.
Proof. rewrite !Z.leb_le. lia. Qed.
Lemma Zleb_trans x y z : (x <=? y) = true → (y <=? z) = true → (x <=? z) = true.
Proof. rewrite !Z.leb_le. lia. Qed.
Lemma remove_dups_id {A} `{EqDecision A} (l : list A) : NoDup l → remove_dups l = l.
Proof. induction 1 as [|x l Hx _ IH]; [done|]. cbn. destruct (decide_rel _ x l); [done|]. by rewrite IH. Qed.
Lemma sorted_set_idem l : sorted_set (sorted_set l) = sorted_set l.
Proof.
  unfold sorted_set at 1. rewrite (remove_dups_id _ (NoDup_sorted_set l)). apply sort_by_id, sort_by_sorted.
  - apply Zleb_total.
  - apply Zleb_trans.
Qed.
Lemma length_sorted_set l : (length (sorted_set l) <= length l)%nat.
Proof.
  unfold sorted_set. rewrite length_sort_by. induction l as [|x l IH]; cbn; [lia|]. destruct (decide_rel _ x l); cbn; lia.
Qed.
Lemma sum_app l1 l2 : sum (l1 ++ l2) = sum l1 + sum l2.
Proof. induction l1 as [|x l1 IH]; cbn in *; [done|]. unfold sum in *. lia. Qed.

(** ** Scopes *)

Lemma slot_numbers_ok raw numbers : res_mapM slot_number raw = Ok numbers ↔
  raw = JInt <$> numbers ∧ Forall (λ z, 0 <= z) numbers.
Proof.
  rewrite res_mapM_Ok. split.
  - induction 1 as [|v z raw numbers Hv _ [-> IH]]; [done|]. destruct v; try done. cbn in Hv.
    destruct (z0 <? 0) eqn:E; [done|]. injection Hv as ->. to_prop. by split; [|constructor].
  - intros [-> H]. induction H as [|z l Hz _ IH]; cbn; constructor; [|done]. cbn. by rewrite (proj2 (Z.ltb_ge _ _)).
Qed.

Record scope_ok (s : HistoryScope) : Prop := {
  ok_system : stripped (system_id s);
  ok_enclosure : ∀ e, enclosure_id s = Some e → stripped e;
  ok_slots : slots s ≠ [] ∧ sorted_set (slots s) = slots s ∧ Forall (λ z, 0 <= z) (slots s);
}.
Lemma scope_ok_nodup s : scope_ok s → NoDup (slots s).
Proof. intros [_ _ (_ & <- & _)]. apply NoDup_sorted_set. Qed.

Lemma normalize_scope_ok v s n : normalize_scope v = Ok (s, n) → scope_ok s ∧ 1 <= ulen (slots s) <= n ∧ n <= MAX_TARGETS.
Proof.
  unfold normalize_scope. destruct v as [| | | | | |d]; try done. destruct (negb _); [done|].
  destruct (field_or "system_id" JNull d) as [| | | |sid| |]; try done. case_bool_decide as Hsid; [done|].
  destruct (match field_or "enclosure_id" JNull d with JNull => _ | _ => _ end) as [enclosure|] eqn:Ee; [|done]. cbn [mbind result_bind].
  destruct (field_or "slots" JNull d) as [| | | | |raw|]; try done. destruct raw as [|x raw]; [done|].
  destruct (MAX_TARGETS <? _) eqn:Emax; [done|]. destruct (res_mapM _ _) as [numbers|] eqn:En; [|done]. cbn.
  intros [= <- <-]. to_prop. apply slot_numbers_ok in En as [Hraw Hpos].
  assert (sorted_set numbers ≠ []) as Hne.
  { destruct numbers as [|z numbers]; [done|]. intros E. assert (z ∈ sorted_set (z :: numbers)) as Hz by (apply sorted_set_elem; left).
    rewrite E in Hz. by apply not_elem_of_nil in Hz. }
  split_and!.
  - split; cbn.
    + by apply ustrip_stripped.
    + intros e ->. destruct (field_or _ _ d); try done. injection Ee as Ee. case_bool_decide; [done|]. injection Ee as <-. by apply ustrip_stripped.
    + split; [done|]. split; [apply sorted_set_idem|]. rewrite Forall_forall in Hpos |- *. intros z Hz. rewrite sorted_set_elem in Hz. by apply Hpos.
  - cbn [slots]. destruct (sorted_set numbers); [done|]. unfold ulen. cbn. lia.
  - cbn [slots]. rewrite Hraw. unfold ulen. rewrite length_fmap. pose proof (length_sorted_set numbers). lia.
  - done.
Qed.

Lemma normalize_scope_document s : scope_ok s → ulen (slots s) <= MAX_TARGETS →
  normalize_scope (scope_document s) = Ok (s, ulen (slots s)).
Proof.
  intros [[Hne Hs] He (Hsl & Hsort & Hpos)] Hmax. unfold normalize_scope, scope_document.
  assert (forallb (λ kv : ustr * json, bool_decide (kv.1 ∈ SCOPE_FIELDS))
    [(u "system_id", JStr (system_id s)); (u "enclosure_id", of_opt (enclosure_id s)); (u "slots", JList (JInt <$> slots s))] = true) as -> by done.
  cbn [negb]. change (field_or "system_id" _ _) with (JStr (system_id s)). cbv beta iota.
  rewrite bool_decide_eq_false_2 by (by rewrite Hs). change (field_or "enclosure_id" _ _) with (of_opt (enclosure_id s)).
  assert ((match of_opt (enclosure_id s) with
    | JNull => Ok None
    | JStr e => Ok (if bool_decide (ustrip e = []) then None else Some (ustrip e))
    | _ => Err (shape "enclosure_id must be a string or null.")
    end) = Ok (enclosure_id s)) as ->.
  { destruct (enclosure_id s) as [e|]; cbn; [|done]. destruct (He e eq_refl) as [? E]. by rewrite bool_decide_eq_false_2, E by (by rewrite E). }
  cbn [mbind result_bind]. change (field_or "slots" _ _) with (JList (JInt <$> slots s)).
  destruct (JInt <$> slots s) as [|x raw] eqn:Er; [by destruct (slots s)|]. rewrite <-Er.
  replace (ulen (JInt <$> slots s)) with (ulen (slots s)) by (unfold ulen; by rewrite length_fmap).
  rewrite (proj2 (Z.ltb_ge _ _)) by done. rewrite (proj2 (slot_numbers_ok _ (slots s))) by done.
  cbn. rewrite Hs, Hsort. by destruct s.
Qed.

(** ** The loop over the scopes *)

Definition targets (ss : list HistoryScope) : Z := sum ((λ s, ulen (slots s)) <$> ss).
Lemma targets_cons s ss : targets (s :: ss) = ulen (slots s) + targets ss.
Proof. done. Qed.
Lemma targets_nonneg ss : 0 <= targets ss.
Proof. induction ss as [|s ss IH]; [done|]. rewrite targets_cons. unfold ulen. lia. Qed.
Record scopes_ok (ss : list HistoryScope) : Prop := {
  ok_each : Forall scope_ok ss;
  ok_identities : NoDup (identity <$> ss);
}.

Lemma normalize_scopes_ok raw count seen ss : normalize_scopes raw count seen = Ok ss →
  scopes_ok ss ∧ length ss = length raw ∧ Forall (λ s, identity s ∉ seen) ss ∧ (ss ≠ [] → count + targets ss <= MAX_TARGETS)
  ∧ Forall (λ s, 1 <= ulen (slots s) <= MAX_TARGETS) ss.
Proof.
  revert count seen ss; induction raw as [|v raw IH]; intros count seen ss H; cbn in H.
  { injection H as <-. by split_and!; try repeat constructor. }
  destruct (normalize_scope v) as [[s n]|] eqn:Es; [|done]. cbn in H. destruct (MAX_TARGETS <? _) eqn:Emax; [done|].
  case_bool_decide as Hid; [done|]. destruct (normalize_scopes raw _ _) as [ss'|] eqn:E; [|done]. injection H as <-.
  apply normalize_scope_ok in Es as (Hs & Hn & Hmax). apply IH in E as ([He Hi] & Hl & Hseen & Ht & Hb). to_prop.
  split_and!.
  - split; [by constructor|]. rewrite fmap_cons. apply NoDup_cons. split; [|done].
    rewrite list_elem_of_fmap. intros (s' & Heq & Hs'). rewrite Forall_forall in Hseen. apply (Hseen s' Hs').
    rewrite <-Heq. apply elem_of_union_l, elem_of_singleton_2. done.
  - cbn. by rewrite Hl.
  - constructor; [done|]. eapply Forall_impl; [exact Hseen|]. intros s' Hs' Hin. by apply Hs', elem_of_union_r.
  - intros _. rewrite targets_cons. destruct ss' as [|s' ss']; [change (targets []) with 0; lia|]. specialize (Ht ltac:(done)). lia.
  - constructor; [lia|done].
Qed.

Lemma normalize_scopes_documents ss count seen : scopes_ok ss → Forall (λ s, identity s ∉ seen) ss →
  count + targets ss <= MAX_TARGETS → 0 <= count → normalize_scopes (scope_document <$> ss) count seen = Ok ss.
Proof.
  intros [He Hi]. revert count seen; induction ss as [|s ss IH]; intros count seen Hseen Ht Hc; [done|].
  apply Forall_cons in He as [Hs He]. apply Forall_cons in Hseen as [Hid Hseen]. rewrite fmap_cons in Hi.
  apply NoDup_cons in Hi as [Hnew Hi].
  rewrite targets_cons in Ht. pose proof (targets_nonneg ss) as Hpos.
  rewrite fmap_cons. cbn [normalize_scopes]. rewrite (normalize_scope_document _ Hs) by lia. cbn [mbind result_bind].
  rewrite (proj2 (Z.ltb_ge _ _)) by lia. rewrite bool_decide_eq_false_2 by done. rewrite IH; [done|done|done| |lia|].
  - rewrite Forall_forall in Hseen |- *. intros s' Hs'. rewrite not_elem_of_union, not_elem_of_singleton. split; [|by apply Hseen].
    intros Heq. apply Hnew. rewrite list_elem_of_fmap. by exists s'.
  - unfold ulen. lia.
Qed.

(** ** Metrics *)

Record metrics_ok (ms : list ustr) : Prop := {
  ok_some : ms ≠ [];
  ok_distinct : NoDup ms;
  ok_allowed : Forall (λ m, m ∈ ALLOWED_HISTORY_METRICS) ms;
}.
Lemma normalize_metrics_ok raw seen ms : normalize_metrics raw seen = Ok ms → NoDup seen →
  Forall (λ m, m ∈ ALLOWED_HISTORY_METRICS) seen → raw ≠ [] ∨ seen ≠ [] → metrics_ok ms.
Proof.
  revert seen; induction raw as [|v raw IH]; intros seen H Hnd Hall Hne; cbn in H.
  { injection H as <-. split; [by destruct Hne|done..]. }
  destruct v as [| | | |m| |]; try done. case_bool_decide as Hm; [|done]. cbn in H. case_bool_decide as Hin.
  - apply (IH seen); try done. right. by intros ->; apply not_elem_of_nil in Hin.
  - apply (IH (seen ++ [m])); [done| | |right; by destruct seen].
    + apply NoDup_app. split_and!; [done| |apply NoDup_singleton]. by intros x Hx ->%list_elem_of_singleton.
    + apply Forall_app. by split; [|constructor].
Qed.
Lemma normalize_metrics_documents ms seen : NoDup (seen ++ ms) → Forall (λ m, m ∈ ALLOWED_HISTORY_METRICS) ms →
  normalize_metrics (JStr <$> ms) seen = Ok (seen ++ ms).
Proof.
  revert seen; induction ms as [|m ms IH]; intros seen Hnd Hall; [by rewrite app_nil_r|].
  apply Forall_cons in Hall as [Hm Hall]. rewrite fmap_cons. cbn [normalize_metrics]. rewrite bool_decide_eq_true_2 by done. cbn [negb].
  rewrite bool_decide_eq_false_2.
  - rewrite IH; [by rewrite <-app_assoc|by rewrite <-app_assoc|done].
  - apply NoDup_app in Hnd as (_ & Hd & _). intros Hin. apply (Hd m Hin). left.
Qed.
Lemma metrics_ok_length ms : metrics_ok ms → 1 <= ulen ms <= MAX_METRICS.
Proof.
  intros [Hne Hnd Hall]. unfold ulen, MAX_METRICS. split; [destruct ms; [done|cbn; lia]|]. apply Nat2Z.inj_le.
  apply submseteq_length, NoDup_submseteq; [done|]. by rewrite Forall_forall in Hall.
Qed.
(** Every allowed metric has a limit, the same for both tables. *)
Lemma allowed_metrics_checked : forallb (λ m, bool_decide (jget m INTERNAL_HISTORY_METRIC_MAX_LIMITS = Some (max_limit m))
  && (1 <=? max_limit m) && (max_limit m <=? 96)) ALLOWED_HISTORY_METRICS = true.
Proof. vm_compute. reflexivity. Qed.
Lemma allowed_metric m : m ∈ ALLOWED_HISTORY_METRICS →
  jget m INTERNAL_HISTORY_METRIC_MAX_LIMITS = Some (max_limit m) ∧ 1 <= max_limit m <= 96.
Proof.
  intros Hm%list_elem_of_In. pose proof (proj1 (forallb_forall _ _) allowed_metrics_checked m Hm) as H. cbv beta in H. to_prop. by split_and!.
Qed.
Lemma total_metric_rows_ok limit ms total : Forall (λ m, m ∈ ALLOWED_HISTORY_METRICS) ms → 1 <= limit →
  total_metric_rows (prod_map id JInt <$> metric_limits_of limit ms) total = Ok (total + sum (snd <$> metric_limits_of limit ms)).
Proof.
  intros Hall Hl. revert total; induction Hall as [|m ms Hm _ IH]; intros total; [cbn; by rewrite Z.add_0_r|].
  destruct (allowed_metric m Hm) as [Hj Hb].
  change (metric_limits_of limit (m :: ms)) with ((m, Z.min limit (max_limit m)) :: metric_limits_of limit ms).
  rewrite !fmap_cons. cbn [total_metric_rows prod_map id fst snd]. rewrite Hj. unfold strict_int.
  rewrite (proj2 (Z.leb_le 1 _)), (proj2 (Z.leb_le _ (max_limit m))) by lia. cbn [andb mbind result_bind].
  rewrite IH. f_equal. apply (eq_sym (Z.add_assoc _ _ _)).
Qed.

(** ** The time bound *)

Section since.
Context {RT : Runtime} {RL : RuntimeLaws RT}.

Definition in_window (d now : datetime) : Prop := HOUR <= instant now - instant d <= MAX_ELAPSED.
#[export] Instance in_window_dec d now : Decision (in_window d now).
Proof. apply _. Defined.
Definition hours_since (d now : datetime) : Z := Z.min ((instant now - instant d) / HOUR) MAX_HISTORY_HOURS.
Definition too_old : history_error :=
  HistoryRequestShapeError (u "since must bound history to between 1 and " ++ print_int MAX_HISTORY_HOURS ++ u " hours.").

Lemma in_window_spec d now : bool_decide (in_window d now) = negb ((instant now - instant d <? HOUR) || (MAX_ELAPSED <? instant now - instant d)).
Proof.
  case_bool_decide as H; unfold in_window in H; symmetry; rewrite ?negb_true_iff, ?negb_false_iff, ?orb_false_iff, ?orb_true_iff, ?Z.ltb_lt, ?Z.ltb_ge; lia.
Qed.
Lemma current_utc_id now : is_utc now → current_utc now = Ok now.
Proof. intros Hn. unfold current_utc. rewrite (proj2 Hn). cbn [default]. by rewrite astimezone_utc_id. Qed.

Lemma digit_not_space c : is_dig c = true → is_uspace c = false.
Proof.
  intros Hc%between_true. unfold is_uspace.
  repeat (apply orb_false_iff; split); try (apply Z.eqb_neq; lia); apply between_false; lia.
Qed.
Lemma isoformat_ends d : is_utc d → ∃ c s, isoformat_utc d = c :: s ++ [48] ∧ is_uspace c = false.
Proof.
  intros Hd. destruct (iso_body_spec d Hd) as [_ _]. destruct Hd as [Hv%valid_datetime_spec _].
  unfold isoformat_utc, iso_body, max_ordinal in *. destruct (ord2ymd (dt_day d)) as [[y mo] dd] eqn:E.
  apply ord2ymd_valid in E as (Hmo & Hdd & Ey). pose proof (month_tables (is_leap y) mo Hmo) as [? ?].
  assert (0 <= y) as Hy by (unfold ymd2ord, days_before_year in Ey; Z.div_mod_to_equations; lia).
  assert (∃ c s, pad 4 y = c :: s ∧ is_uspace c = false) as (c & s & -> & Hc).
  { unfold pad. destruct (dec_spec y Hy) as (c & ds & -> & HF & _). cbn in HF. apply andb_true_iff in HF as [Hc _].
    destruct (4 - length (c :: ds))%nat; cbn; eexists _, _; (split; [done|]); [|done].
    by apply digit_not_space. }
  match goal with |- context [(c :: s) ++ ?rest] => generalize rest; intros b end.
  exists c, (s ++ b ++ u "+00:0"). split; [|done]. change UTC_OFFSET with (u "+00:0" ++ [48]). by rewrite <-!app_assoc.
Qed.

Lemma parse_since_text d : is_utc d → parse_since (JStr (isoformat_utc d)) = Ok (d, 0).
Proof.
  intros Hd. unfold parse_since. destruct (isoformat_ends d Hd) as (c & s & E & Hc). rewrite E, ustrip_ends, <-E by done.
  rewrite bool_decide_eq_false_2 by (by rewrite E). unfold py_replace.
  rewrite <-(app_nil_r (isoformat_utc d)), (replace_from_clean _ _ 90); [|done| |].
  - change (replace_from (u "Z") UTC_OFFSET 0 []) with (@nil Z). rewrite app_nil_r, fromisoformat_isoformat by done. by rewrite (proj2 Hd).
  - intros c' s' Hc'. by apply strip_prefix_ne.
  - unfold isoformat_utc. apply Forall_app. split; [|by repeat constructor].
    eapply Forall_impl; [by apply iso_body_spec|]. by intros c' (_ & _ & ?).
Qed.

(** A normalized time is checked again by its age alone. *)
Lemma normalize_since_text d now : is_utc d → is_utc now →
  normalize_since (JStr (isoformat_utc d)) now = if bool_decide (in_window d now) then Ok (isoformat_utc d, hours_since d now) else Err too_old.
Proof.
  intros Hd Hn. unfold normalize_since. rewrite parse_since_text by done. cbn [mbind result_bind]. unfold since_as_utc. cbn [fst snd].
  rewrite astimezone_utc_id by done. cbn [mbind result_bind]. rewrite current_utc_id by done. cbn [mbind result_bind].
  rewrite in_window_spec. by destruct (_ || _).
Qed.
Lemma normalize_since_ok v now t h : is_utc now → normalize_since v now = Ok (t, h) →
  ∃ d, is_utc d ∧ t = isoformat_utc d ∧ in_window d now ∧ h = hours_since d now.
Proof.
  intros Hn. unfold normalize_since. destruct (parse_since v) as [[p off]|]; [|done]. cbn [mbind result_bind].
  unfold since_as_utc. cbn [fst snd]. destruct (astimezone_utc p off) as [d|] eqn:E; [|done]. cbn [mbind result_bind].
  rewrite current_utc_id by done. cbn [mbind result_bind]. pose proof (in_window_spec d now) as Hw. destruct (_ || _); [done|].
  apply bool_decide_eq_true in Hw. intros [= <- <-]. exists d. split_and!; try done. by eapply astimezone_utc_utc.
Qed.
End since.

(** ** Plans *)

Section plans.
Context {RT : Runtime} {RL : RuntimeLaws RT}.

(** What an admitted plan promises, at the time it was admitted. *)
Record plan_ok (now : datetime) (p : HistoryReadPlan) : Prop := {
  plan_scopes : scopes_ok (scopes p);
  plan_scope_count : scope_count p = ulen (scopes p) ∧ 1 <= scope_count p <= MAX_SCOPES;
  plan_targets : target_count p = targets (scopes p) ∧ target_count p <= MAX_TARGETS;
  plan_metrics : metrics_ok (metrics p);
  plan_limits : 0 <= event_limit p <= MAX_EVENT_ROWS ∧ 1 <= metric_limit p <= MAX_METRIC_LIMIT;
  plan_event_rows : projected_event_rows p = target_count p * event_limit p ∧ projected_event_rows p <= MAX_EVENT_ROWS;
  plan_rows : projected_rows p = target_count p * (event_limit p + sum (snd <$> metric_limits p)) ∧ projected_rows p <= MAX_RETURNED_ROWS;
  plan_since : ∃ d, is_utc d ∧ since p = isoformat_utc d ∧ in_window d now ∧ window_hours p = hours_since d now;
  plan_fresh : returned_row_count p = 0 ∧ response_bytes p = 0;
}.

Lemma strict_int_ok v label lo hi z : strict_int v label lo hi = Ok z ↔ v = JInt z ∧ lo <= z <= hi.
Proof.
  unfold strict_int. destruct v; try (split; [done|by intros [? _]]). destruct (_ && _) eqn:E.
  - to_prop. split; [intros [= ->]; done|by intros [[= ->] _]].
  - split; [done|]. intros [[= ->] ?]. apply andb_false_iff in E. rewrite !Z.leb_gt in E. lia.
Qed.

Lemma build_plan_ok rs rm rsi re rl now p : is_utc now →
  build_history_read_plan rs rm rsi re rl now = Ok p → plan_ok now p.
Proof.
  intros Hn H. unfold build_history_read_plan in H.
  destruct (py_list rs) as [raw|]; [|done]. cbn [mbind result_bind] in H. case_bool_decide as Hne; [done|].
  destruct (MAX_SCOPES <? _) eqn:Emax; [done|]. destruct (normalize_scopes raw 0 ∅) as [ss|] eqn:Es; [|done]. cbn [mbind result_bind] in H.
  destruct (py_list rm) as [rawm|]; [|done]. cbn [mbind result_bind] in H. destruct (bool_decide (rawm = []) || _) eqn:Em; [done|].
  destruct (normalize_metrics rawm []) as [ms|] eqn:Ems; [|done]. cbn [mbind result_bind] in H.
  destruct (strict_int re _ _ _) as [el|] eqn:Eel; [|done]. cbn [mbind result_bind] in H.
  destruct (strict_int rl _ _ _) as [ml|] eqn:Eml; [|done]. cbn [mbind result_bind] in H.
  destruct (normalize_since rsi now) as [[t h]|] eqn:Et; [|done]. cbn [mbind result_bind] in H. fold (targets ss) in H.
  destruct (MAX_EVENT_ROWS <? _) eqn:Eer; [done|]. destruct (MAX_RETURNED_ROWS <? _) eqn:Err; [done|]. injection H as <-.
  apply normalize_scopes_ok in Es as (Hs & Hl & _ & Ht & _). apply strict_int_ok in Eel as [-> ?], Eml as [-> ?].
  apply normalize_since_ok in Et; [|done]. to_prop.
  assert (ss ≠ []) as Hne' by (intros ->; by destruct raw). assert (1 <= ulen ss) as Hge by (destruct ss; [done|unfold ulen; cbn; lia]).
  assert (ulen ss = ulen raw) as Hlen by (unfold ulen; by rewrite Hl).
  split; cbn; try done.
  - rewrite Hlen in *. split; [done|]. lia.
  - specialize (Ht Hne'). split; [done|]. lia.
  - apply normalize_metrics_ok in Ems; try done; [by constructor|by left].
Qed.

(** A plan as it is admitted at another time *)
Definition rewindowed (hours : Z) (p : HistoryReadPlan) : HistoryReadPlan :=
  mkPlan (scopes p) (metrics p) (since p) (event_limit p) (metric_limit p) hours (scope_count p)
    (target_count p) (projected_event_rows p) (projected_rows p) 0 0.

Lemma build_plan_again now later d p : is_utc later → is_utc d → since p = isoformat_utc d → plan_ok now p →
  build_history_read_plan (scopes_value p) (metrics_value p) (JStr (since p)) (JInt (event_limit p)) (JInt (metric_limit p)) later
  = if bool_decide (in_window d later) then Ok (rewindowed (hours_since d later) p) else Err too_old.
Proof.
  intros Hl Hd Et [[He Hi] [Esc Hsc] [Etc Htc] Hm [Hel Hml] [Eer Her] [Epr Hpr] _ _].
  unfold build_history_read_plan, scopes_value, metrics_value. cbn [py_list mbind result_bind].
  rewrite bool_decide_eq_false_2 by (intros E%fmap_nil_inv; rewrite E in Esc; unfold ulen in Esc; cbn in Esc; lia).
  assert (ulen (scope_document <$> scopes p) = ulen (scopes p)) as -> by (unfold ulen; by rewrite length_fmap).
  rewrite (proj2 (Z.ltb_ge _ _)) by lia. rewrite normalize_scopes_documents; [|done| |lia|done].
  2: { apply Forall_true. intros s. apply not_elem_of_empty. }
  cbn [mbind result_bind]. pose proof (metrics_ok_length _ Hm) as Hml'. destruct Hm as [Hne Hnd Hall].
  rewrite bool_decide_eq_false_2 by (by intros E%fmap_nil_inv). assert (ulen (JStr <$> metrics p) = ulen (metrics p)) as -> by (unfold ulen; by rewrite length_fmap).
  rewrite (proj2 (Z.ltb_ge _ _)) by lia. cbn [orb]. rewrite (normalize_metrics_documents _ []) by done. cbn [app mbind result_bind].
  rewrite (proj2 (strict_int_ok _ _ _ _ _)) by (split; [done|lia]). cbn [mbind result_bind].
  rewrite (proj2 (strict_int_ok _ _ _ _ _)) by (split; [done|lia]). cbn [mbind result_bind].
  rewrite Et, normalize_since_text by done. case_bool_decide; [|done]. cbn [mbind result_bind]. fold (targets (scopes p)). rewrite <-Etc, <-Eer.
  rewrite (proj2 (Z.ltb_ge _ _)) by lia. fold (metric_limits p). rewrite <-Epr, (proj2 (Z.ltb_ge _ _)) by lia.
  unfold rewindowed. by rewrite Esc, Et.
Qed.
End plans.

(** ** The check of the storage layer *)

Section storage.
Context {RT : Runtime} {RL : RuntimeLaws RT}.

Lemma slots_le_targets s ss : s ∈ ss → ulen (slots s) <= targets ss.
Proof.
  induction 1 as [s ss|s s' ss _ IH]; rewrite targets_cons; [pose proof (targets_nonneg ss)|]; unfold ulen in *; lia.
Qed.
Lemma metric_rows_nonneg limit ms : Forall (λ m, m ∈ ALLOWED_HISTORY_METRICS) ms → 1 <= limit → 0 <= sum (snd <$> metric_limits_of limit ms).
Proof.
  intros Hall Hl. induction Hall as [|m ms Hm _ IH]; [done|]. destruct (allowed_metric m Hm) as [_ Hb].
  change (0 <= Z.min limit (max_limit m) + sum (snd <$> metric_limits_of limit ms)). lia.
Qed.

(** What [_execute_history_plan] asks the storage layer to check for a scope *)
Definition check_scope (p : HistoryReadPlan) (s : HistoryScope) (now : datetime) : result history_error ustr :=
  validate_store_scope_request (JInt <$> slots s) (JInt (event_limit p)) (prod_map id JInt <$> metric_limits p) (JStr (since p)) now.

Lemma check_scope_spec now later d p s : is_utc later → is_utc d → since p = isoformat_utc d → plan_ok now p → s ∈ scopes p →
  check_scope p s later = if bool_decide (in_window d later) then Ok (since p) else Err too_old.
Proof.
  intros Hl Hd Et [[He _] _ [Etc Htc] Hm [Hel Hml] [Eer Her] [Epr Hpr] _ _] Hs.
  assert (scope_ok s) as Hok by (rewrite Forall_forall in He; by apply He). pose proof (scope_ok_nodup s Hok) as Hnd.
  pose proof (ok_slots _ Hok) as (Hne & _ & Hpos). pose proof (slots_le_targets s _ Hs) as Hle. rewrite <-Etc in Hle.
  pose proof (metrics_ok_length _ Hm) as Hlen. destruct Hm as [Hmne _ Hall]. pose proof (metric_rows_nonneg (metric_limit p) _ Hall ltac:(lia)) as Hrows.
  assert (0 <= ulen (slots s)) as H0 by (unfold ulen; lia).
  unfold check_scope, validate_store_scope_request. rewrite bool_decide_eq_false_2 by (by intros E%fmap_nil_inv).
  assert (ulen (JInt <$> slots s) = ulen (slots s)) as -> by (unfold ulen; by rewrite length_fmap).
  rewrite (proj2 (Z.ltb_ge _ _)) by lia. rewrite (proj2 (slot_numbers_ok _ (slots s))) by done. cbn [mbind result_bind].
  rewrite (proj2 (strict_int_ok _ _ _ _ _)) by (split; [done|lia]). cbn [mbind result_bind].
  rewrite bool_decide_eq_false_2 by (by intros E%fmap_nil_inv%fmap_nil_inv).
  assert (ulen (prod_map id JInt <$> metric_limits p) = ulen (metrics p)) as ->
    by (unfold ulen, metric_limits, metric_limits_of; by rewrite !length_fmap).
  rewrite (proj2 (Z.ltb_ge _ _)) by lia. cbn [orb]. unfold metric_limits at 1. rewrite total_metric_rows_ok by (done || lia). cbn [mbind result_bind].
  rewrite Et, normalize_since_text by done. case_bool_decide; [|done]. cbn [mbind result_bind].
  rewrite remove_dups_id by done. rewrite !(proj2 (Z.ltb_ge _ _)); [done| |nia].
  rewrite Z.add_0_l. fold (metric_limits p) in *. nia.
Qed.
End storage.
