(* ===== verification/ResponseSizeProofs.v ===== *)
(** * A response states its own size

    [json_value_size_exact]: the size [_json_value_size] computes is the number of
    bytes [json.dumps] and UTF-8 make of the value, and it is defined for exactly
    the values they can encode.  [response_states_its_size]: the number written into
    the budget of a response is the length of the response that contains it. *)

From S2P Require Import Prelude PyStr Json JsonProofs Journal ReadBounds ResponseSize.
#[local] Open Scope Z_scope.
#[local] Open Scope list_scope.

(** ** Lengths of encoded texts *)

Definition encodes (t : ustr) (n : Z) : Prop := ∃ b, utf8 t = Ok b ∧ ulen b = n.

Lemma ulen_app {A} (a b : list A) : ulen (a ++ b) = ulen a + ulen b.
Proof. unfold ulen. rewrite length_app. lia. Qed.
Lemma utf8_spec s b : utf8 s = Ok b ↔ ∃ bs, Forall2 (λ c x, utf8_char c = Ok x) s bs ∧ b = concat bs.
Proof.
  unfold utf8. split.
  - destruct (res_mapM utf8_char s) as [bs|] eqn:E; [|done]. intros [= <-]. exists bs. by apply res_mapM_Ok in E.
  - intros (bs & H%res_mapM_Ok & ->). by rewrite H.
Qed.
Lemma encodes_nil n : encodes [] n ↔ n = 0.
Proof. split; [by intros (b & [= <-] & <-)|intros ->; by exists []]. Qed.
Lemma encodes_app a b n : encodes (a ++ b) n ↔ ∃ x y, encodes a x ∧ encodes b y ∧ n = x + y.
Proof.
  split.
  - intros (bs & (xs & H & ->)%utf8_spec & <-). apply Forall2_app_inv_l in H as (x1 & x2 & H1 & H2 & ->).
    exists (ulen (concat x1)), (ulen (concat x2)). rewrite concat_app, ulen_app.
    split_and!; [exists (concat x1)|exists (concat x2)|done]; (split; [|done]); apply utf8_spec; eauto.
  - intros (x & y & (b1 & (x1 & H1 & ->)%utf8_spec & <-) & (b2 & (x2 & H2 & ->)%utf8_spec & <-) & ->).
    exists (concat (x1 ++ x2)). rewrite concat_app, ulen_app. split; [|done]. apply utf8_spec. exists (x1 ++ x2).
    rewrite concat_app. split; [by apply Forall2_app|done].
Qed.
Definition is_ascii (c : Z) : Prop := c < 128.
Lemma encodes_ascii s n : Forall is_ascii s → encodes s n ↔ n = ulen s.
Proof.
  intros Hs. assert (utf8 s = Ok s) as E.
  { apply utf8_spec. exists ((λ c, [c]) <$> s). induction Hs as [|c s Hc _ (IH & IH')]; [done|]. rewrite fmap_cons. split.
    - constructor; [|done]. unfold utf8_char. by rewrite (proj2 (Z.ltb_lt _ _)).
    - cbn. by f_equal. }
  split; [intros (b & Eb & <-); by rewrite E in Eb; injection Eb as <-|intros ->; by exists s].
Qed.
Lemma encodes_frame l s r n : Forall is_ascii l → Forall is_ascii r →
  encodes (l ++ s ++ r) n ↔ ∃ m, encodes s m ∧ n = ulen l + m + ulen r.
Proof.
  intros Hl Hr. rewrite encodes_app. split.
  - intros (x & y & Hx & (m & z & Hm & Hz & ->)%encodes_app & ->). apply encodes_ascii in Hx as ->, Hz as ->; [|done..].
    exists m. split; [done|lia].
  - intros (m & Hm & ->). exists (ulen l), (m + ulen r). rewrite encodes_ascii, encodes_app by done. split_and!; [done| |lia].
    exists m, (ulen r). by rewrite (encodes_ascii r).
Qed.

(** ** Strings *)

Lemma u4_ascii c : c <= 31 → Forall is_ascii (u4 c) ∧ ulen (u4 c) = 6.
Proof.
  intros Hc. split; [|done]. unfold u4, is_ascii.
  assert (∀ d, d <= 15 → hex_char d < 128) as Hh by (intros d Hd; unfold hex_char; destruct (d <? 10); lia).
  repeat constructor; try lia; apply Hh; Z.div_mod_to_equations; lia.
Qed.
Lemma short_escape_ascii c e : short_escape c = Some e → is_ascii e.
Proof.
  unfold short_escape, is_ascii. destruct (_ || _) eqn:E.
  - intros [= <-]. apply orb_true_iff in E. rewrite !Z.eqb_eq in E. lia.
  - repeat (case_match; [by intros [= <-]|]). done.
Qed.
Lemma char_size_spec c n : char_size c = Ok n ↔ encodes (escape_char c) n.
Proof.
  unfold char_size, escape_char. destruct (short_escape c) as [e|] eqn:Ee.
  - rewrite encodes_ascii; [split; [by intros [= <-]|by intros ->]|].
    constructor; [done|]. constructor; [by eapply short_escape_ascii|constructor].
  - destruct (c <=? 31) eqn:Ec.
    + apply Z.leb_le in Ec. destruct (u4_ascii c Ec) as [H1 H2]. rewrite encodes_ascii by done. rewrite H2.
      split; [by intros [= <-]|by intros ->].
    + unfold encodes, utf8. cbn. destruct (utf8_char c) as [b|] eqn:Eb; cbn; [|split; [done|by intros (? & ? & _)]].
      rewrite app_nil_r. split; [intros [= <-]; by exists b|intros (b' & [= <-] & <-); done].
Qed.
Lemma bind_size s n : (∃ ns, res_mapM char_size s = Ok ns ∧ n = sum ns) ↔ encodes (s ≫= escape_char) n.
Proof.
  revert n; induction s as [|c s IH]; intros n; cbn [mbind list_bind].
  - rewrite encodes_nil. split; [by intros (ns & [= <-] & ->)|intros ->; by exists []].
  - rewrite encodes_app. split.
    + intros (ns & H & ->). apply res_mapM_Ok in H. inversion H as [|? x ? ns' Hx Hns]; subst.
      exists x, (sum ns'). rewrite <-char_size_spec, <-IH. split_and!; [done| |done]. exists ns'. by rewrite res_mapM_Ok.
    + intros (x & y & Hx%char_size_spec & (ns & Hns & ->)%IH & ->). exists (x :: ns). split; [|done]. cbn. by rewrite Hx, Hns.
Qed.
Lemma json_string_size_spec s n : json_string_size s = Ok n ↔ encodes (quoted s) n.
Proof.
  unfold quoted. rewrite encodes_frame by (repeat constructor; unfold is_ascii; lia).
  unfold json_string_size. destruct (res_mapM char_size s) as [ns|e] eqn:E; cbn [fmap result_fmap].
  - split.
    + intros [= <-]. exists (sum ns). split; [apply bind_size; by exists ns|]. unfold ulen. cbn [length]. lia.
    + intros (m & (ns' & Hns & ->)%bind_size & ->). rewrite E in Hns. injection Hns as <-. f_equal. unfold ulen. cbn [length]. lia.
  - split; [done|]. intros (m & (ns' & Hns & _)%bind_size & _). congruence.
Qed.

(** ** Sequences of texts *)

Lemma separators_cons2 {A} (x y : A) l : separators (x :: y :: l) = 1 + separators (y :: l).
Proof. unfold separators, ulen. cbn [length]. lia. Qed.
Lemma encodes_join xs n :
  encodes (join_comma xs) n ↔ ∃ ns, Forall2 encodes xs ns ∧ n = separators xs + sum ns.
Proof.
  revert n; induction xs as [|x xs IH]; intros n.
  - cbn. rewrite encodes_nil. split; [intros ->; exists []; split; [constructor|done]|]. intros (ns & H & ->). by inversion H.
  - destruct xs as [|y xs].
    + cbn [join_comma]. split.
      * intros H. exists [n]. split; [by repeat constructor|]. cbn. unfold separators, ulen. cbn. lia.
      * intros (ns & H & ->). inversion H as [|? m ? l Hm Hl]; subst. inversion Hl; subst.
        unfold separators, ulen. cbn. by rewrite Z.add_0_r.
    + change (join_comma (x :: y :: xs)) with (x ++ [44] ++ join_comma (y :: xs)). rewrite encodes_app, separators_cons2. split.
      * intros (a & b & Ha & (c & d & Hc & (ns & Hns & ->)%IH & ->)%encodes_app & ->).
        apply encodes_ascii in Hc as ->; [|by repeat constructor]. exists (a :: ns). split; [by constructor|].
        change (sum (a :: ns)) with (a + sum ns). unfold ulen. cbn [length]. lia.
      * intros (ns & H & ->). inversion H as [|? a ? l Ha Hl]; subst. exists a, (1 + (separators (y :: xs) + sum l)).
        split_and!; [done| |change (sum (a :: l)) with (a + sum l); lia]. rewrite encodes_app.
        exists 1, (separators (y :: xs) + sum l). rewrite encodes_ascii by by repeat constructor. split_and!; [done| |done].
        apply IH. by exists l.
Qed.

Lemma join_sizes {A} (size : A → result py_exn Z) (text : A → result py_exn ustr) l n :
  Forall (λ x, ∀ m, size x = Ok m ↔ ∃ t, text x = Ok t ∧ encodes t m) l →
  (∃ ns, res_mapM size l = Ok ns ∧ n = separators l + sum ns) ↔ (∃ ts, res_mapM text l = Ok ts ∧ encodes (join_comma ts) n).
Proof.
  intros Hl. assert (∀ ns, res_mapM size l = Ok ns ↔ ∃ ts, res_mapM text l = Ok ts ∧ Forall2 encodes ts ns) as H.
  { intros ns. rewrite res_mapM_Ok. setoid_rewrite res_mapM_Ok. revert ns. induction Hl as [|x l Hx _ IH]; intros ns.
    - split; [intros H; inversion H; by exists []|]. intros (ts & H & H'). inversion H; subst. by inversion H'.
    - split.
      + intros (m & ns' & Hm & Hns & ->)%Forall2_cons_inv_l. apply Hx in Hm as (t & Ht & Hm). apply IH in Hns as (ts & Hts & Hns).
        exists (t :: ts). by split; constructor.
      + intros (ts & (t & ts' & Ht & Hts & ->)%Forall2_cons_inv_l & (m & ns' & Hm & Hns & ->)%Forall2_cons_inv_l).
        constructor; [apply Hx; eauto|apply IH; eauto]. }
  assert (∀ ts, res_mapM text l = Ok ts → separators ts = separators l) as Hsep.
  { intros ts Hts%res_mapM_Ok%Forall2_length. unfold separators, ulen. by rewrite Hts. }
  split.
  - intros (ns & (ts & Hts & Hns)%H & ->). exists ts. split; [done|]. apply encodes_join. exists ns. by rewrite (Hsep ts).
  - intros (ts & Hts & (ns & Hns & ->)%encodes_join). exists ns. rewrite (Hsep ts) by done. split; [apply H; eauto|done].
Qed.

(** ** Values *)

Section exact.
Context {FL : Floats}.
(** [repr] of a finite float is ASCII. *)
Context (Hfloat : ∀ lit s, float_repr lit = Some s → Forall is_ascii s).

Lemma int_text_ascii z t : int_text z = Ok t → Forall is_ascii t.
Proof.
  unfold int_text. case_match; [done|]. intros [= <-].
  assert (∀ z, 0 <= z → Forall is_ascii (dec z)) as Hd.
  { intros z' Hz. destruct (dec_spec z' Hz) as (d & ds & -> & HF & _). rewrite forallb_forall in HF. apply Forall_forall.
    intros c Hc%list_elem_of_In%HF%between_true. unfold is_ascii. lia. }
  unfold print_int. destruct (z <? 0) eqn:E; to_prop; [constructor; [done|]|]; apply Hd; lia.
Qed.
Lemma float_text_ascii lit t : float_text lit = Ok t → Forall is_ascii t.
Proof. unfold float_text. destruct (float_repr lit) eqn:E; [|done]. intros [= <-]. by eapply Hfloat. Qed.
Lemma text_size (r : result py_exn ustr) n : (∀ t, r = Ok t → Forall is_ascii t) →
  (λ t, ulen t) <$> r = Ok n ↔ ∃ t, r = Ok t ∧ encodes t n.
Proof.
  intros Hr. destruct r as [t|e]; cbn [fmap result_fmap].
  - split; [intros [= <-]; exists t; split; [done|]; by apply encodes_ascii; [apply Hr|]|].
    intros (t' & [= <-] & ->%encodes_ascii); [done|by apply Hr].
  - split; [done|by intros (? & ? & _)].
Qed.

Lemma frame_sizes {A} (size : A → result py_exn Z) (text : A → result py_exn ustr) l n (o c : Z) :
  is_ascii o → is_ascii c →
  Forall (λ x, ∀ m, size x = Ok m ↔ ∃ t, text x = Ok t ∧ encodes t m) l →
  (λ ns, 2 + separators l + sum ns) <$> res_mapM size l = Ok n
  ↔ ∃ t, (λ xs, [o] ++ join_comma xs ++ [c]) <$> res_mapM text l = Ok t ∧ encodes t n.
Proof.
  intros Ho Hc Hl. pose proof (join_sizes size text l (n - 2) Hl) as H.
  assert ((∃ t, (λ xs, [o] ++ join_comma xs ++ [c]) <$> res_mapM text l = Ok t ∧ encodes t n)
    ↔ ∃ ts, res_mapM text l = Ok ts ∧ encodes (join_comma ts) (n - 2)) as ->.
  { destruct (res_mapM text l) as [ts|]; cbn [fmap result_fmap]; [|naive_solver].
    assert (∀ ts, encodes ([o] ++ join_comma ts ++ [c]) n ↔ encodes (join_comma ts) (n - 2)) as He.
    { intros ts'. rewrite encodes_frame by by repeat constructor. unfold ulen. cbn [length].
      split; [intros (m & Hm & ->); by replace (Z.of_nat 1 + m + Z.of_nat 1 - 2) with m by lia|].
      intros Hm. exists (n - 2). split; [done|lia]. }
    split; [intros (t & [= <-] & Ht)|intros (t & [= <-] & Ht)]; eexists; (split; [done|]); by apply He. }
  rewrite <-H. destruct (res_mapM size l) as [ns|]; cbn [fmap result_fmap]; [|naive_solver].
  split; [intros [= <-]; exists ns; split; [done|lia]|]. intros (ns' & [= <-] & E). f_equal. lia.
Qed.

Lemma value_size_spec v n : json_value_size v = Ok n ↔ ∃ t, json_text v = Ok t ∧ encodes t n.
Proof.
  revert n; induction v as [|b|s|z|lit|l IH|d IH|] using pyobj_ind'; intros n.
  - by apply (text_size (Ok (u "null"))); intros t [= <-]; repeat constructor.
  - destruct b; [apply (text_size (Ok (u "true")))|apply (text_size (Ok (u "false")))]; intros t [= <-]; by repeat constructor.
  - cbn [json_value_size json_text]. rewrite json_string_size_spec. naive_solver.
  - apply text_size, int_text_ascii.
  - apply text_size, float_text_ascii.
  - cbn [json_value_size json_text]. rewrite !res_mapM_fmap. by apply frame_sizes.
  - cbn [json_value_size json_text]. rewrite !res_mapM_fmap. apply frame_sizes; [done..|].
    eapply Forall_impl; [exact IH|]. intros [k v] Hv m. cbn [fst snd] in *.
    destruct (json_key_text k) as [kt|]; [|naive_solver]. cbn [mbind result_bind]. split.
    + destruct (json_string_size kt) as [x|] eqn:Ex; [|done]. cbn [mbind result_bind].
      destruct (json_value_size v) as [y|] eqn:Ey; [|done]. cbn [mbind result_bind]. intros [= <-].
      apply json_string_size_spec in Ex. destruct (proj1 (Hv y) eq_refl) as (t & -> & Ht). eexists. split; [done|].
      rewrite encodes_app. exists x, (1 + y). split_and!; [done| |lia]. rewrite encodes_app. exists 1, y.
      by rewrite encodes_ascii by by repeat constructor.
    + intros (t & Ht & He). destruct (json_text v) as [tv|] eqn:Etv; [|done]. cbn [mbind result_bind] in Ht.
      assert (t = quoted kt ++ [58] ++ tv) as -> by congruence.
      apply encodes_app in He as (x & r & Hx & (y & z & Hy & Hz & ->)%encodes_app & ->).
      apply encodes_ascii in Hy as ->; [|by repeat constructor]. apply json_string_size_spec in Hx as ->. cbn [mbind result_bind].
      rewrite (proj2 (Hv z)) by eauto. cbn. f_equal. unfold ulen. cbn. lia.
  - naive_solver.
Qed.
End exact.

(** ** Decimal lengths *)

Lemma digits_value_bounds ds a : forallb is_dig ds = true →
  a * 10 ^ ulen ds <= fold_left (λ a c, 10 * a + (c - 48)) ds a < (a + 1) * 10 ^ ulen ds.
Proof.
  revert a; induction ds as [|d ds IH]; intros a H; cbn [fold_left]; [change (10 ^ ulen []) with 1; lia|].
  cbn in H. apply andb_true_iff in H as [Hd%between_true Hds]. specialize (IH (10 * a + (d - 48)) Hds).
  assert (ulen (d :: ds) = Z.succ (ulen ds)) as -> by (unfold ulen; cbn [length]; lia).
  rewrite Z.pow_succ_r by (unfold ulen; lia). assert (0 < 10 ^ ulen ds) by (apply Z.pow_pos_nonneg; unfold ulen; lia). nia.
Qed.
Lemma digits_spec n : 0 < n → 1 <= digits n ∧ 10 ^ (digits n - 1) <= n < 10 ^ digits n.
Proof.
  intros Hn. unfold digits, print_int. rewrite (proj2 (Z.ltb_ge _ _)) by lia.
  destruct (dec_spec n ltac:(lia)) as (d & ds & -> & HF & H48 & Hv). pose proof (digits_value_bounds (d :: ds) 0 HF) as [_ Hub].
  unfold digits_value in Hv. rewrite Hv in Hub. cbn [fold_left] in Hv.
  assert (ulen (d :: ds) = ulen ds + 1) as E by (unfold ulen; cbn [length]; lia). rewrite E in *.
  assert (0 <= ulen ds) by (unfold ulen; lia). rewrite Z.add_simpl_r. split_and!; [lia| |lia].
  cbn in HF. apply andb_true_iff in HF as [Hd%between_true Hds].
  pose proof (digits_value_bounds ds (10 * 0 + (d - 48)) Hds) as [Hlb _]. rewrite Hv in Hlb.
  destruct (Z.eq_dec d 48) as [->|]; [rewrite (H48 eq_refl) in Hv; cbn in Hv; lia|].
  assert (0 < 10 ^ ulen ds) by (by apply Z.pow_pos_nonneg). nia.
Qed.
Lemma digits_ge n k : 0 < n → 0 <= k → 10 ^ k <= n ↔ k < digits n.
Proof.
  intros Hn Hk. destruct (digits_spec n Hn) as (H1 & Hlo & Hhi). split; intros H.
  - apply (Z.pow_lt_mono_r_iff 10); lia.
  - etrans; [|exact Hlo]. apply Z.pow_le_mono_r; lia.
Qed.
Lemma digits_mono n m : 0 < n → n <= m → digits n <= digits m.
Proof.
  intros Hn Hm. destruct (digits_spec n Hn) as (H1 & Hlo & _). assert (digits n - 1 < digits m); [|lia].
  apply digits_ge; lia.
Qed.

(** The number that counts its own digits: [without] bytes, and itself. *)
Definition own_size (without : Z) : Z :=
  let r := without + digits (without + 1) in if digits r =? digits (without + 1) then r else without + digits r.
Lemma own_size_spec w : 0 <= w →
  own_size w = w + digits (own_size w) ∧ 0 < own_size w ∧ (∀ r, 0 <= r → r = w + digits r → own_size w <= r).
Proof.
  intros Hw. unfold own_size. set (k := digits (w + 1)). destruct (digits_spec (w + 1) ltac:(lia)) as (H1 & Hlo & Hhi). fold k in H1, Hlo, Hhi.
  assert (k <= digits (w + k)) as Hge by (apply digits_mono; lia).
  assert (∀ r, 0 <= r → r = w + digits r → w + k <= r) as Hmin.
  { intros r Hr E. assert (0 < r) by (destruct (Z.eq_dec r 0) as [->|]; [change (digits 0) with 1 in E|]; lia).
    destruct (digits_spec r ltac:(lia)) as (? & _ & _). pose proof (digits_mono (w + 1) r ltac:(lia) ltac:(lia)). fold k in H2. lia. }
  destruct (digits (w + k) =? k) eqn:E; to_prop.
  - split_and!; [lia|lia|done].
  - assert (10 ^ k <= w + k) as Hbig by (apply digits_ge; lia). pose proof (Z.pow_gt_lin_r 10 k ltac:(lia) ltac:(lia)) as Hlin.
    assert (10 ^ (k + 1) = 10 * 10 ^ k) as Hs by (rewrite Z.add_1_r, Z.pow_succ_r by lia; done).
    assert (∀ x, 10 ^ k <= x < 10 ^ (k + 1) → digits x = k + 1) as Hd.
    { intros x Hx. assert (0 < x) by lia. assert (k < digits x) by (apply digits_ge; lia). destruct (Z.lt_ge_cases (k + 1) (digits x)) as [H'|]; [|lia].
      apply digits_ge in H'; lia. }
    rewrite (Hd (w + k)) by lia. rewrite (Hd (w + (k + 1))) by lia. split_and!; [done|lia|].
    intros r Hr Er. pose proof (Hmin r Hr Er). pose proof (digits_mono (w + k) r ltac:(lia) ltac:(lia)) as Hm.
    rewrite (Hd (w + k)) in Hm by lia. lia.
Qed.

(** ** Writing the size into the response *)

Section response.
Context {FL : Floats}.
Context (Hfloat : ∀ lit s, float_repr lit = Some s → Forall is_ascii s).

Definition item_size (kv : pykey * pyobj) : result py_exn Z :=
  k ← json_key_text kv.1; n ← json_string_size k; m ← json_value_size kv.2; Ok (n + 1 + m).
Lemma dict_size d : json_value_size (ODict d) = (λ ns, 2 + separators d + sum ns) <$> res_mapM item_size d.
Proof. cbn [json_value_size]. by rewrite res_mapM_fmap. Qed.

Lemma item_size_other k v v' s a b : json_value_size v = Ok a → json_value_size v' = Ok b →
  item_size (k, v) = Ok s → item_size (k, v') = Ok (s - a + b).
Proof.
  intros Ha Hb. unfold item_size. cbn [fst snd]. rewrite Ha, Hb. destruct (json_key_text k); [|done]. cbn [mbind result_bind].
  destruct (json_string_size _); [|done]. cbn [mbind result_bind]. intros [= <-]. f_equal. lia.
Qed.
Lemma oset_length k v v' d : length (oset k v d) = length (oset k v' d).
Proof. induction d as [|[k' w] d IH]; cbn; [done|]. case_decide; cbn; congruence. Qed.
Lemma oset_items k v v' a b d ns : json_value_size v = Ok a → json_value_size v' = Ok b →
  res_mapM item_size (oset k v d) = Ok ns → ∃ ns', res_mapM item_size (oset k v' d) = Ok ns' ∧ sum ns' = sum ns - a + b.
Proof.
  intros Ha Hb. revert ns; induction d as [|[k' w] d IH]; intros ns; cbn [oset].
  - cbn [res_mapM]. destruct (item_size (k, v)) as [s|] eqn:Es; [|done]. intros [= <-].
    rewrite (item_size_other _ _ _ _ _ _ Ha Hb Es). eexists. split; [done|]. cbn. lia.
  - case_decide; cbn [res_mapM].
    + destruct (item_size (k', v)) as [s|] eqn:Es; [|done]. rewrite (item_size_other _ _ _ _ _ _ Ha Hb Es).
      destruct (res_mapM item_size d) as [l|]; [|done]. intros [= <-]. eexists. split; [done|].
      change (s - a + b + sum l = s + sum l - a + b). lia.
    + destruct (item_size (k', w)) as [s|]; [|done]. destruct (res_mapM item_size (oset k v d)) as [l|]; [|done].
      intros [= <-]. destruct (IH l eq_refl) as (l' & -> & E). eexists. split; [done|].
      change (s + sum l' = s + sum l - a + b). lia.
Qed.
Lemma oset_size k v v' a b d s : json_value_size v = Ok a → json_value_size v' = Ok b →
  json_value_size (ODict (oset k v d)) = Ok s → json_value_size (ODict (oset k v' d)) = Ok (s - a + b).
Proof.
  intros Ha Hb. rewrite !dict_size. destruct (res_mapM item_size (oset k v d)) as [ns|] eqn:E; [|done]. cbn [fmap result_fmap]. intros [= <-].
  destruct (oset_items _ _ _ _ _ _ _ Ha Hb E) as (ns' & -> & Es). cbn [fmap result_fmap]. f_equal.
  rewrite Es. unfold separators, ulen. rewrite (oset_length k v v'). lia.
Qed.

Definition printable_size (n : Z) : Prop := 0 <= n <= MAX_RESPONSE_BYTES.
Lemma printable_digits n : printable_size n → json_value_size (OInt n) = Ok (digits n).
Proof.
  intros Hn. cbn [json_value_size]. unfold int_text. rewrite Z.abs_eq by apply Hn.
  assert (digits n <= 8) as Hd.
  { destruct (Z.eq_dec n 0) as [->|]; [done|]. assert (¬ 8 < digits n); [|lia].
    rewrite <-digits_ge by (unfold printable_size in Hn; lia). unfold printable_size, MAX_RESPONSE_BYTES in Hn. lia. }
  assert (digits n = ulen (dec n)) as E by (unfold digits, print_int; by rewrite (proj2 (Z.ltb_ge _ _)) by apply Hn).
  destruct (Nat.ltb_spec int_max_str_digits (length (dec n))) as [Hlt|]; [|done].
  exfalso. unfold ulen in E. apply Nat2Z.inj_lt in Hlt. change (Z.of_nat int_max_str_digits) with 4300 in Hlt. lia.
Qed.

(** The payload that states the size [n] *)
Definition sized (n : Z) (payload : objdict) : objdict :=
  match oget (okey "budget") payload with
  | Some (ODict budget) => oset (okey "budget") (ODict (oset (okey "response_bytes") (OInt n) budget)) payload
  | _ => payload
  end.
Definition has_budget (payload : objdict) : Prop := ∃ b, oget (okey "budget") payload = Some (ODict b).

Lemma oget_oset k v d : oget k (oset k v d) = Some v.
Proof. induction d as [|[k' w] d IH]; cbn; [by rewrite decide_True|]. case_decide; cbn; [by rewrite decide_True|by rewrite decide_False]. Qed.
Lemma dict_item_size k v d s : json_value_size (ODict d) = Ok s → oget k d = Some v → ∃ a, json_value_size v = Ok a.
Proof.
  rewrite dict_size. destruct (res_mapM item_size d) as [ns|] eqn:E; [|done]. intros _. apply res_mapM_Ok in E. revert E.
  induction 1 as [|[k' w] n d ns Hn _ IH]; cbn; [done|]. case_decide; [|done]. intros [= ->].
  unfold item_size in Hn. cbn [fst snd] in Hn. destruct (json_key_text k'); [|done]. cbn in Hn. destruct (json_string_size _); [|done]. cbn in Hn.
  destruct (json_value_size v); [by eexists|done].
Qed.
(** Stating another size changes the length by the difference of the digits. *)
Lemma sized_size n m s payload : has_budget payload → printable_size n → printable_size m →
  json_value_size (ODict (sized n payload)) = Ok s → json_value_size (ODict (sized m payload)) = Ok (s - digits n + digits m).
Proof.
  intros [b Hb] Hn%printable_digits Hm%printable_digits. unfold sized. rewrite Hb. intros Hs.
  destruct (dict_item_size _ _ _ _ Hs (oget_oset _ _ _)) as [a Ha].
  rewrite (oset_size _ _ _ _ _ _ _ Ha (oset_size _ _ _ _ _ _ _ Hn Hm Ha) Hs). f_equal. lia.
Qed.
Lemma dict_size_two d s : json_value_size (ODict d) = Ok s → 2 <= s.
Proof.
  intros (t & Ht & He)%(value_size_spec Hfloat). cbn [json_text] in Ht. destruct (res_mapM id _) as [xs|]; [|done].
  injection Ht as <-. change (encodes ([123] ++ join_comma xs ++ [125]) s) in He.
  apply encodes_frame in He as (m & (bs & _ & <-) & ->); [|by repeat constructor..]. unfold ulen. cbn [length]. lia.
Qed.
End response.

(** ** Properties *)

Lemma size_of_encoding {FL : Floats} (Hfloat : ∀ lit s, float_repr lit = Some s → Forall is_ascii s) v n :
  json_value_size v = Ok n ↔ ∃ b, encode v = Ok b ∧ ulen b = n.
Proof.
  rewrite (value_size_spec Hfloat). unfold encode, encodes. destruct (json_text v) as [t|]; cbn [mbind result_bind]; naive_solver.
Qed.

(** The size computed for a response is the number of bytes that
    [json.dumps] and UTF-8 make of it, and a value has a size exactly when it can be
    encoded; [repr] of a float is taken to be ASCII. *)
Theorem json_value_size_exact {FL : Floats} (Hfloat : ∀ lit s, float_repr lit = Some s → Forall is_ascii s) v n :
  json_value_size v = Ok n ↔ ∃ b, encode v = Ok b ∧ ulen b = n.
Proof. by apply size_of_encoding. Qed.

Section bounded.
Context {FL : Floats} {FW : Framework} (Hfloat : ∀ lit s, float_repr lit = Some s → Forall is_ascii s).
Context (Hbody : ∀ v, response_body v = encode v).

Lemma exact_size_budget payload : has_budget payload →
  set_exact_response_size payload =
  (size ← json_value_size (ODict (sized 0 payload)); Ok (own_size (size - 1), sized (own_size (size - 1)) payload)).
Proof. intros [b Hb]. unfold set_exact_response_size, sized. by rewrite Hb. Qed.
Lemma exact_size_plain payload : ¬ has_budget payload →
  set_exact_response_size payload = (n ← json_value_size (ODict payload); Ok (n, payload)) ∧ ∀ n, sized n payload = payload.
Proof.
  intros Hno. unfold set_exact_response_size, sized. destruct (oget _ payload) as [[]|] eqn:E; try done. destruct Hno. by eexists.
Qed.
#[export] Instance has_budget_dec payload : Decision (has_budget payload).
Proof.
  unfold has_budget. destruct (oget (okey "budget") payload) as [[]|]; try (right; intros [? ?]; done). left. by eexists.
Defined.

(** The stated size, when it is small enough, is the length. *)
Lemma exact_size_ok payload r p : set_exact_response_size payload = Ok (r, p) →
  p = sized r payload ∧ 0 <= r
  ∧ (r <= MAX_RESPONSE_BYTES → json_value_size (ODict p) = Ok r)
  ∧ (∀ n, printable_size n → json_value_size (ODict (sized n payload)) = Ok n → r <= n).
Proof.
  destruct (decide (has_budget payload)) as [Hb|Hb].
  - rewrite exact_size_budget by done. destruct (json_value_size (ODict (sized 0 payload))) as [s|] eqn:Es; [|done]. cbn [mbind result_bind].
    intros [= <- <-]. pose proof (dict_size_two Hfloat _ _ Es) as H2. destruct (own_size_spec (s - 1) ltac:(lia)) as (Heq & Hpos & Hmin).
    assert (printable_size 0) as H0 by (split; [done|unfold MAX_RESPONSE_BYTES; lia]).
    split_and!; [done|lia| |].
    + intros Hr. rewrite (sized_size 0 _ s) by (done || split; lia). f_equal. change (digits 0) with 1. lia.
    + intros n Hn Hs. apply Hmin; [apply Hn|]. rewrite (sized_size 0 n s) in Hs by done. injection Hs as Hs. change (digits 0) with 1 in Hs. lia.
  - destruct (exact_size_plain payload Hb) as [-> Hs]. destruct (json_value_size (ODict payload)) as [s|] eqn:Es; [|done]. cbn [mbind result_bind].
    intros [= <- <-]. rewrite Hs. pose proof (dict_size_two Hfloat _ _ Es). split_and!; [done|lia|done|].
    intros n _ Hn. rewrite Hs in Hn. assert (s = n) as <- by congruence. done.
Qed.
Lemma exact_size_err payload e n : set_exact_response_size payload = Err e → printable_size n →
  ∀ s, json_value_size (ODict (sized n payload)) ≠ Ok s.
Proof.
  intros He Hn s Hs. destruct (decide (has_budget payload)) as [Hb|Hb].
  - rewrite exact_size_budget in He by done. rewrite (sized_size n 0 s) in He; [done|done|done| |done].
    split; [done|unfold MAX_RESPONSE_BYTES; lia].
  - destruct (exact_size_plain payload Hb) as [E Hs']. rewrite E in He. rewrite Hs' in Hs. by rewrite Hs in He.
Qed.

(** [C27] A bounded history response is within its limit and states its own length:
    it is sent exactly as announced, or refused with 413 because no statement of
    its size would fit, or cannot be encoded at all; the byte accounting never
    disagrees with the body. *)
Theorem bounded_response_exact payload max_bytes (Hmax : max_bytes <= MAX_RESPONSE_BYTES) :
  match bounded_history_json_response payload max_bytes with
  | Respond status b =>
      (status = 200 ∧ ulen b <= max_bytes ∧ encode (ODict (sized (ulen b) payload)) = Ok b)
      ∨ (status = 413 ∧ encode too_large = Ok b
         ∧ ∀ b', encode (ODict (sized (ulen b') payload)) = Ok b' → max_bytes < ulen b')
  | ServerError _ => ∀ n b, printable_size n → encode (ODict (sized n payload)) ≠ Ok b
  end.
Proof.
  unfold bounded_history_json_response. destruct (set_exact_response_size payload) as [[r p]|e] eqn:E.
  - apply exact_size_ok in E as (-> & Hr & Hsize & Hmin). destruct (max_bytes <? r) eqn:Em; to_prop.
    + unfold respond. rewrite Hbody. destruct (encode too_large) as [b|] eqn:Eb; [|done]. right. split_and!; [done|done|].
      intros b' Hb'. apply Z.lt_nge. intros Hle. assert (r <= ulen b'); [|lia].
      apply Hmin; [unfold printable_size, ulen in *; lia|]. apply (size_of_encoding Hfloat). by exists b'.
    + assert (r <= MAX_RESPONSE_BYTES) as Hle by lia. apply Hsize, (size_of_encoding Hfloat) in Hle as (b & Hb & <-).
      rewrite Hbody, Hb. rewrite Z.eqb_refl. left. done.
  - intros n b Hn Hb. apply (exact_size_err _ _ _ E Hn (ulen b)). apply (size_of_encoding Hfloat). by exists b.
Qed.
End bounded.

(** ** A response of 101 bytes: without its three digits it has 98, and with two it
    would have 100. *)

Definition ascii_floats : Floats := {|
  float_repr := λ lit, if forallb (λ c, c <? 128) lit then Some lit else None; float_true := λ _, true |}.
Lemma ascii_floats_ascii lit s : @float_repr ascii_floats lit = Some s → Forall is_ascii s.
Proof.
  cbn. destruct (forallb _ lit) eqn:E; [|done]. intros [= <-]. rewrite forallb_forall in E. apply Forall_forall.
  intros c Hc%list_elem_of_In%E. by apply Z.ltb_lt.
Qed.
Definition dumps_framework : Framework := {| response_body := @encode ascii_floats |}.
Definition example_payload : objdict :=
  [(okey "scopes", OSeq [OStr (u "01234567890123456789012345678901234567890123456789"); OFloat (u "1.5")]);
   (okey "budget", ODict [(okey "response_bytes", OInt 0)])].
Definition example_body : list Z :=
  match @encode ascii_floats (ODict (sized 101 example_payload)) with Ok b => b | Err _ => [] end.
Lemma json_value_size_exact_witness :
  let _ := ascii_floats in ulen example_body = 101 ∧ json_value_size (ODict (sized 101 example_payload)) = Ok 101.
Proof.
  intros FL. split; [vm_compute; reflexivity|].
  apply (proj2 (json_value_size_exact ascii_floats_ascii (ODict (sized 101 example_payload)) 101)).
  exists example_body. split; vm_compute; reflexivity.
Defined.
Lemma bounded_response_exact_witness :
  let _ := ascii_floats in let _ := dumps_framework in
  bounded_history_json_response example_payload MAX_RESPONSE_BYTES = Respond 200 example_body
  ∧ encode (ODict (sized 101 example_payload)) = Ok example_body.
Proof.
  intros FL FW. assert (bounded_history_json_response example_payload MAX_RESPONSE_BYTES = Respond 200 example_body) as E by (vm_compute; reflexivity).
  split; [exact E|].
  pose proof (@bounded_response_exact FL FW ascii_floats_ascii (λ v, eq_refl) example_payload MAX_RESPONSE_BYTES (Z.le_refl _)) as H.
  rewrite E in H. destruct H as [(_ & _ & Hb)|(Hs & _)]; [|discriminate Hs].
  assert (ulen example_body = 101) as Hlen by (vm_compute; reflexivity). rewrite Hlen in Hb. exact Hb.
Defined.
