(* ===== verification/ScopeHistoryProofs.v ===== *)
(** * A scope history holds the newest rows

    The rows a read returns are the newest that match, cut at the limit
    ([scope_history_newest]): events and samples by time and id, then hourly rollups
    older than every sample, then daily ones.  What a request asks of the tables is
    said by the columns of the rows ([slot_answer]), apart from the filters, ranks and
    boundaries the store computes.  A read returns no more rows than it was allowed,
    so the store keeps the promise of [ScopeReader]. *)

From S2P Require Import Prelude PyStr Calendar Json JsonProofs Journal JournalLines JournalExample.
From S2P Require Import ReadBounds ResponseSize ReadService ScopeHistory ReadBoundsProofs.
#[local] Open Scope Z_scope.
#[local] Open Scope list_scope.

Lemma Z2Nat_nonpos z : z <= 0 → Z.to_nat z = 0%nat.
Proof. lia. Qed.

(** ** Choosing the first rows of an order *)

(** [picked] are the [k] first of [all], in order. *)
Record chosen {A} (R : A → A → Prop) (k : nat) (all picked : list A) : Prop := {
  chosen_rest : ∃ rest, all ≡ₚ picked ++ rest ∧ ∀ x y, x ∈ picked → y ∈ rest → R x y;
  chosen_sorted : StronglySorted R picked;
  chosen_length : length picked = Nat.min k (length all);
}.
Lemma StronglySorted_app_parts {A} (R : A → A → Prop) l1 l2 :
  StronglySorted R (l1 ++ l2) ↔ StronglySorted R l1 ∧ StronglySorted R l2 ∧ ∀ x y, x ∈ l1 → y ∈ l2 → R x y.
Proof.
  induction l1 as [|a l1 IH]; cbn.
  - split; [intros H; split_and!; [constructor|done|by intros ?? ?%not_elem_of_nil]|by intros (_ & ? & _)].
  - split.
    + intros [Hs Ha]%StronglySorted_inv. apply IH in Hs as (H1 & H2 & H12). apply Forall_app in Ha as [Ha1 Ha2].
      split_and!; [by constructor|done|]. intros x y [->|Hx]%elem_of_cons Hy; [|by apply H12].
      rewrite Forall_forall in Ha2. by apply Ha2.
    + intros ([H1 Ha]%StronglySorted_inv & H2 & H12). constructor.
      * apply IH. split_and!; [done..|]. intros x y Hx Hy. apply H12; [by right|done].
      * apply Forall_app. split; [done|]. apply Forall_forall. intros y Hy. apply H12; [by left|done].
Qed.
Lemma StronglySorted_mono {A B} (R : A → A → Prop) (R' : B → B → Prop) (f : A → B) l :
  (∀ x y, R x y → R' (f x) (f y)) → StronglySorted R l → StronglySorted R' (f <$> l).
Proof.
  intros HR. induction 1 as [|x l _ IH Hx]; [constructor|]. rewrite fmap_cons. constructor; [done|].
  apply Forall_fmap. eapply Forall_impl; [exact Hx|]. intros y. apply HR.
Qed.
Lemma take_sorted_chosen {A} (leb : A → A → bool) k l :
  (∀ x y, leb x y = true ∨ leb y x = true) → (∀ x y z, leb x y = true → leb y z = true → leb x z = true) →
  chosen (le_of leb) k l (take k (sort_by leb l)).
Proof.
  intros Htot Htr. pose proof (sort_by_sorted leb Htot Htr l) as Hs. pose proof (sort_by_perm leb l) as Hp.
  rewrite <-(take_drop k (sort_by leb l)) in Hs. apply StronglySorted_app_parts in Hs as (Hs & _ & Hle). split; [|done|].
  - exists (drop k (sort_by leb l)). by rewrite take_drop.
  - by rewrite length_take, length_sort_by.
Qed.
Lemma chosen_mono {A} (R R' : A → A → Prop) k all picked :
  (∀ x y, R x y → R' x y) → chosen R k all picked → chosen R' k all picked.
Proof.
  intros HR [(rest & Hp & Hle) Hs Hl]. split; [|rewrite <-(list_fmap_id picked); by apply (StronglySorted_mono R R' id)|done].
  exists rest. split; [done|]. intros x y Hx Hy. by apply HR, Hle.
Qed.

Lemma newest_first_total a b : newest_first a b = true ∨ newest_first b a = true.
Proof.
  unfold newest_first. destruct (ustr_leb (text_col "observed_at" a) _) eqn:E1; [|by left].
  destruct (ustr_leb (text_col "observed_at" b) _) eqn:E2; [|by right]. rewrite (ustr_leb_antisym _ _ E1 E2), !bool_decide_eq_true_2 by done.
  cbn. rewrite !Z.leb_le. lia.
Qed.
Lemma newest_first_trans a b c : newest_first a b = true → newest_first b c = true → newest_first a c = true.
Proof.
  unfold newest_first. rewrite !orb_true_iff, !andb_true_iff, !negb_true_iff, !bool_decide_eq_true, !Z.leb_le.
  intros [H1|[E1 H1]] [H2|[E2 H2]].
  - left. destruct (ustr_leb_total (text_col "observed_at" b) (text_col "observed_at" a)) as [Hba|]; [|congruence].
    destruct (ustr_leb (text_col "observed_at" a) (text_col "observed_at" c)) eqn:E; [|done].
    by rewrite (ustr_leb_trans _ _ _ Hba E) in H2.
  - left. by rewrite <-E2.
  - left. by rewrite E1.
  - right. split; [congruence|lia].
Qed.
Lemma latest_first_total k a b : latest_first k a b = true ∨ latest_first k b a = true.
Proof. apply ustr_leb_total. Qed.
Lemma latest_first_trans k a b c : latest_first k a b = true → latest_first k b c = true → latest_first k a c = true.
Proof. unfold latest_first. intros H1 H2. by eapply ustr_leb_trans. Qed.

Lemma bounded_count_more limit l : limit <? bounded_count limit l = (limit <? ulen l).
Proof. unfold bounded_count. destruct (Z.ltb_spec limit (ulen l)), (Z.ltb_spec limit (Z.min (ulen l) (limit + 1))); lia || done. Qed.

(** ** What is asked of the tables

    The rows a request names, in terms of their columns. *)

(** [found] are the rows of [table] with [P], in its order. *)
Definition selects (P : row → Prop) (table found : list row) : Prop :=
  ∃ p : row → bool, found = List.filter p table ∧ ∀ r, p r = true ↔ P r.
Definition earlier (s t : ustr) : Prop := ustr_leb t s = false.
Definition from (k : string) (since : ustr) (r : row) : Prop := ¬ earlier (text_col k r) since.
Definition of_slot (sid enclosure : ustr) (slot : Z) (r : row) : Prop :=
  text_col "system_id" r = sid ∧ text_col "enclosure_key" r = enclosure ∧ int_col "slot" r = slot.

(** By time, then by id; by time alone *)
Definition newer (a b : row) : Prop :=
  earlier (text_col "observed_at" b) (text_col "observed_at" a)
  ∨ text_col "observed_at" a = text_col "observed_at" b ∧ int_col "id" b <= int_col "id" a.
Definition later (k : string) (a b : row) : Prop := ¬ earlier (text_col k a) (text_col k b).

(** A rollup at [t] is below [samples] if every sample is after it; a daily rollup
    that follows hourly ones ends the day before the oldest sample. *)
Definition day_start (t : ustr) : ustr := take 10 t ++ u "T00:00:00+00:00".
Definition after_hourly (seconds : Z) (samples : list row) : Prop :=
  seconds = 86400 ∧ ∃ s, s ∈ samples ∧ field "rollup_seconds" s = Some (JInt 3600).
Definition below_samples (seconds : Z) (samples : list row) (t : ustr) : Prop :=
  (¬ after_hourly seconds samples → ∀ s, s ∈ samples → earlier t (text_col "observed_at" s))
  ∧ (after_hourly seconds samples → ∀ s, last samples = Some s →
       text_col "observed_at" s ≠ [] ∧ earlier t (day_start (text_col "observed_at" s))).

(** A request for the history since [raw], at [now]: [since] is the UTC text of the
    moment [raw] names, at least an hour and at most the history's bound ago. *)
Definition asks_since {RT : Runtime} (raw : ustr) (now : datetime) (since : ustr) : Prop :=
  ∃ d off at_utc, fromisoformat (py_replace (u "Z") (u "+00:00") (ustrip raw)) = Some d ∧ dt_offset d = Some off
    ∧ is_utc at_utc ∧ instant at_utc = instant d - off ∧ since = isoformat_utc at_utc
    ∧ HOUR <= instant now - default 0 (dt_offset now) - instant at_utc <= MAX_ELAPSED.

Lemma earlier_not s t : ¬ earlier s t ↔ ustr_leb t s = true.
Proof. unfold earlier. by rewrite not_false_iff_true. Qed.
Lemma newest_first_newer a b : le_of newest_first a b ↔ newer a b.
Proof.
  unfold le_of, newest_first, newer, earlier. by rewrite orb_true_iff, andb_true_iff, negb_true_iff, bool_decide_eq_true, Z.leb_le.
Qed.
Lemma latest_first_later k a b : le_of (latest_first k) a b ↔ later k a b.
Proof. unfold later. by rewrite earlier_not. Qed.
Lemma newer_later a b : newer a b → later "observed_at" a b.
Proof.
  unfold later. rewrite earlier_not. intros [H|[-> _]].
  - unfold earlier in H. destruct (ustr_leb_total (text_col "observed_at" b) (text_col "observed_at" a)); [done|congruence].
  - destruct (ustr_leb_total (text_col "observed_at" b) (text_col "observed_at" b)); done.
Qed.
Lemma earlier_later k t a b : later k a b → earlier t (text_col k b) → earlier t (text_col k a).
Proof.
  unfold later, earlier. intros Hab%not_false_iff_true Ht. destruct (ustr_leb (text_col k a) t) eqn:E; [|done].
  by rewrite (ustr_leb_trans _ _ _ Hab E) in Ht.
Qed.

Lemma newest_chosen limit l : chosen newer (Z.to_nat limit) l (newest limit l).
Proof.
  eapply chosen_mono; [intros x y; apply newest_first_newer|]. apply take_sorted_chosen; [apply newest_first_total|apply newest_first_trans].
Qed.
Lemma observed_with_value r : text_col "observed_at" (with_value r) = text_col "observed_at" r.
Proof. unfold text_col, with_value, field. by rewrite jget_jset, decide_False by (by vm_compute). Qed.
Lemma newest_observed limit l : StronglySorted (later "observed_at") (with_value <$> newest limit l).
Proof.
  eapply StronglySorted_mono; [|apply (newest_chosen limit l)]. intros x y H%newer_later. unfold later in *. by rewrite !observed_with_value.
Qed.

(** ** What a slot is answered *)

Section payloads.
Context {RT : Runtime} {SW : StoreWorld}.

Section answers.
Context (db : database) (sid enclosure : ustr) (slot : Z) (since : ustr).
#[local] Abbreviation here := (of_slot sid enclosure slot).

(** Events: the newest of those in the window, and whether there are more *)
Definition event_answer (limit : Z) (events : list row) (cover : string) : Prop :=
  ∃ found, selects (λ r, here r ∧ from "observed_at" since r) (slot_events db) found
    ∧ chosen newer (Z.to_nat limit) found events ∧ ulen events <= limit
    ∧ (limit = 0 ∧ cover = "unknown" ∨ 0 < limit < ulen found ∧ cover = "truncated" ∨ 0 < limit ∧ ulen found <= limit ∧ cover = "complete")%string.

(** [items] are what a round of rollups adds to [samples] *)
Definition rollup_answer (metric : ustr) (limit seconds : Z) (samples items : list row) : Prop :=
  ∃ found ranked,
    selects (λ r, here r ∧ text_col "metric_name" r = metric ∧ int_col "bucket_seconds" r = seconds
                  ∧ from "bucket_start" since r ∧ below_samples seconds samples (rollup_time r)) (metric_rollups db) found
    ∧ chosen (later "bucket_start") (Z.to_nat (limit - ulen samples)) found ranked
    ∧ items ≡ₚ (λ r, with_value (rollup_to_sample r)) <$> ranked ∧ StronglySorted (later "observed_at") items.
(** The samples of a metric: the newest raw ones, hourly rollups below them, daily
    rollups below both; and whether they are all there is *)
Definition metric_answer (metric : ustr) (limit : Z) (samples : list row) (cover : string) : Prop :=
  ∃ found raw hourly daily, samples = ((with_value <$> raw) ++ hourly) ++ daily ∧ ulen samples <= limit
    ∧ selects (λ r, here r ∧ text_col "metric_name" r = metric ∧ from "observed_at" since r) (metric_samples db) found
    ∧ chosen newer (Z.to_nat limit) found raw
    ∧ rollup_answer metric limit 3600 (with_value <$> raw) hourly
    ∧ rollup_answer metric limit 86400 ((with_value <$> raw) ++ hourly) daily
    ∧ let rolled_up := ∃ r, r ∈ metric_rollups db ∧ here r ∧ text_col "metric_name" r = metric ∧ from "bucket_start" since r in
      (limit < ulen found ∧ cover = "truncated" ∨ ulen found <= limit ∧ rolled_up ∧ cover = "unknown"
       ∨ ulen found <= limit ∧ ¬ rolled_up ∧ cover = "complete")%string.

(** The whole payload, with a list of samples and a coverage per metric *)
Definition slot_answer (event_limit : Z) (limits : list (ustr * Z)) (payload : jdict) : Prop :=
  ∃ events cover (views : list (list row * string)),
    let per_metric f := JObj (zip_with (λ (ml : ustr * Z) v, (ml.1, f v)) limits views) in
    payload = [(u "events", JList (JObj <$> events));
               (u "metrics", per_metric (λ v, JList (JObj <$> v.1)));
               (u "sample_counts", per_metric (λ v, JInt (ulen v.1)));
               (u "latest_values", per_metric (λ v, match v.1 with item :: _ => default JNull (field "value" item) | [] => JNull end));
               (u "coverage", JObj [(u "metrics", per_metric (λ v, JStr (u v.2))); (u "events", JStr (u cover))])]
    ∧ event_answer event_limit events cover
    ∧ Forall2 (λ (ml : ustr * Z) v, metric_answer ml.1 ml.2 v.1 v.2) limits views.
End answers.

(** ** The store gives that answer *)

Lemma last_oldest samples s : StronglySorted (later "observed_at") samples → last samples = Some s →
  ∀ x, x ∈ samples → later "observed_at" x s.
Proof.
  intros Hs [l ->]%last_Some x [Hx| ->%list_elem_of_singleton]%elem_of_app.
  - apply StronglySorted_app_parts in Hs as (_ & _ & H). apply H; [done|by left].
  - apply latest_first_later. unfold le_of, latest_first. by destruct (ustr_leb_total (text_col "observed_at" s) (text_col "observed_at" s)).
Qed.
Lemma existsb_hourly samples : existsb is_hourly samples = true ↔ ∃ s, s ∈ samples ∧ field "rollup_seconds" s = Some (JInt 3600).
Proof.
  rewrite existsb_exists. split.
  - intros (s & Hs%list_elem_of_In & Hh). exists s. split; [done|]. unfold is_hourly in Hh. destruct (field _ _) as [[]|]; try done.
    to_prop. by subst.
  - intros (s & Hs & Hh). exists s. split; [by apply list_elem_of_In|]. unfold is_hourly. by rewrite Hh.
Qed.
Lemma below_empty t : below (Some []) t = false.
Proof. unfold below. by destruct t. Qed.
Lemma below_boundary seconds samples t : StronglySorted (later "observed_at") samples →
  below (boundary_of seconds samples) t = true ↔ below_samples seconds samples t.
Proof.
  intros Hs. unfold boundary_of. destruct (last samples) as [s|] eqn:El; cycle 1.
  { apply last_None in El as ->. unfold below, below_samples. split; [|done]. intros _. split; [by intros _ s ?%not_elem_of_nil|done]. }
  pose proof (last_oldest _ _ Hs El) as Hold. apply last_Some in El as Hin. destruct Hin as [l Hin].
  assert (s ∈ samples) as Hms by (rewrite Hin; apply elem_of_app; right; by left).
  assert (∀ b, below (Some b) t = true ↔ earlier t b) as Hb by (intros b; unfold below, earlier; by rewrite negb_true_iff).
  destruct (seconds =? 86400) eqn:E86; destruct (existsb is_hourly samples) eqn:Eh; rewrite ?andb_false_r, ?andb_true_r; cbn [andb].
  1: { assert (after_hourly seconds samples) as Ha by (split; [by apply Z.eqb_eq|by apply existsb_hourly]).
       unfold below_samples. rewrite El. case_bool_decide as Hne; rewrite Hb.
       - split; [intros H; split; [done|]; by intros _ ? [= <-]|intros [_ H]; by apply H].
       - rewrite Hne, <-Hb, below_empty. split; [done|]. intros [_ H]. by destruct (H Ha s eq_refl). }
  all: assert (¬ after_hourly seconds samples) as Ha by
    (intros [?%Z.eqb_eq H%existsb_hourly]; congruence).
  all: rewrite Hb; unfold below_samples; split; [intros H; split; [|done]; intros _ x Hx; by eapply earlier_later; [apply Hold|]|intros [H _]; by apply H].
Qed.

Section spec.
Context (db : database) (sid enclosure : ustr) (slot : Z) (since : ustr).
#[local] Abbreviation q := (mkQuery sid enclosure slot since).

Lemma where_scope_spec r : where_scope q r = true ↔ of_slot sid enclosure slot r.
Proof. unfold where_scope, of_slot. cbn [q_system_id q_enclosure_key q_slot]. rewrite !andb_true_iff, !bool_decide_eq_true, Z.eqb_eq. tauto. Qed.
Lemma from_spec k r : ustr_leb since (text_col k r) = true ↔ from k since r.
Proof. unfold from. by rewrite earlier_not. Qed.

Lemma matching_events_selects :
  selects (λ r, of_slot sid enclosure slot r ∧ from "observed_at" since r) (slot_events db) (matching_events db q).
Proof. exists (where_event q). split; [done|]. intros r. unfold where_event. by rewrite andb_true_iff, where_scope_spec, <-from_spec. Qed.
Lemma raw_samples_selects metric :
  selects (λ r, of_slot sid enclosure slot r ∧ text_col "metric_name" r = metric ∧ from "observed_at" since r)
    (metric_samples db) (raw_samples db q metric).
Proof.
  exists (where_metric q metric). split; [done|]. intros r. unfold where_metric.
  rewrite !andb_true_iff, where_scope_spec, bool_decide_eq_true, <-from_spec. cbn [q_since]. tauto.
Qed.
Lemma where_rollup_spec metric seconds samples r : StronglySorted (later "observed_at") samples →
  where_rollup q metric seconds (boundary_of seconds samples) r = true
  ↔ of_slot sid enclosure slot r ∧ text_col "metric_name" r = metric ∧ int_col "bucket_seconds" r = seconds
    ∧ from "bucket_start" since r ∧ below_samples seconds samples (rollup_time r).
Proof.
  intros Hs. unfold where_rollup.
  rewrite !andb_true_iff, where_scope_spec, bool_decide_eq_true, Z.eqb_eq, below_boundary, <-from_spec by done. cbn [q_since]. tauto.
Qed.

Lemma slot_event_rows_chosen limit : chosen newer (Z.to_nat limit) (matching_events db q) (slot_event_rows db q limit).
Proof.
  unfold slot_event_rows. pose proof (newest_chosen limit (matching_events db q)) as H. destruct (0 <? limit) eqn:E; [done|].
  to_prop. unfold newest in H. by rewrite Z2Nat_nonpos in H |- *.
Qed.
End spec.

(** ** Rounds of rollups *)

Lemma observed_item r : text_col "observed_at" (with_value (rollup_to_sample r)) = rollup_time r.
Proof. by rewrite observed_with_value. Qed.
Lemma slot_event_rows_length db q limit : 0 <= limit → ulen (slot_event_rows db q limit) <= limit.
Proof. intros H. destruct q as [sid enc slot since]. destruct (slot_event_rows_chosen db sid enc slot since limit) as [_ _ Hl]. unfold ulen. lia. Qed.

Section rounds.
Context (db : database) (sid enclosure : ustr) (slot : Z) (since : ustr) (metric : ustr) (limit : Z).
#[local] Abbreviation q := (mkQuery sid enclosure slot since).

Lemma append_rollups_spec seconds samples : StronglySorted (later "observed_at") samples →
  ∃ items, append_rollups db q metric limit seconds samples = samples ++ items
    ∧ rollup_answer db sid enclosure slot since metric limit seconds samples items.
Proof.
  intros Hs. set (p := where_rollup q metric seconds (boundary_of seconds samples)).
  pose proof (take_sorted_chosen (latest_first "bucket_start") (Z.to_nat (limit - ulen samples))
    (List.filter p (metric_rollups db)) (latest_first_total _) (latest_first_trans _)) as Hc.
  apply (chosen_mono _ (later "bucket_start")) in Hc; [|intros x y; apply latest_first_later].
  unfold append_rollups. fold p. destruct (_ <=? 0) eqn:E; to_prop.
  - exists []. rewrite app_nil_r. split; [done|]. rewrite Z2Nat_nonpos in Hc by done. eexists _, _. split_and!; [|by rewrite Z2Nat_nonpos|done|constructor].
    exists p. split; [done|]. intros r. by apply where_rollup_spec.
  - eexists. split; [done|]. eexists _, _. split_and!; [|exact Hc| |].
    + exists p. split; [done|]. intros r. by apply where_rollup_spec.
    + rewrite sort_by_perm, <-list_fmap_compose. done.
    + eapply StronglySorted_mono; [|apply sort_by_sorted; [apply latest_first_total|apply latest_first_trans]].
      intros x y H%latest_first_later. unfold later in *. by rewrite !observed_with_value.
Qed.
Lemma rollup_answer_length seconds samples items :
  rollup_answer db sid enclosure slot since metric limit seconds samples items → ulen samples <= limit → ulen (samples ++ items) <= limit.
Proof.
  intros (found & ranked & _ & [_ _ Hl] & Hp & _) Hs. apply Permutation_length in Hp. rewrite length_fmap in Hp.
  unfold ulen in *. rewrite length_app. lia.
Qed.
Lemma rollup_answer_below seconds samples items : seconds ≠ 86400 → StronglySorted (later "observed_at") samples →
  rollup_answer db sid enclosure slot since metric limit seconds samples items → StronglySorted (later "observed_at") (samples ++ items).
Proof.
  intros Hsec Hs (found & ranked & (p & -> & Hp) & [(rest & Hrest & _) _ _] & Hi & Hsorted). apply StronglySorted_app_parts. split_and!; [done..|].
  intros x y Hx Hy. rewrite Hi in Hy. apply list_elem_of_fmap in Hy as (r & -> & Hr).
  assert (r ∈ List.filter p (metric_rollups db)) as Hin by (rewrite Hrest; apply elem_of_app; by left).
  apply elem_of_filter_list in Hin as [_ Hpr]. apply Hp in Hpr as (_ & _ & _ & _ & Hb & _).
  specialize (Hb ltac:(by intros [? _]) x Hx). unfold later. rewrite observed_item. unfold earlier in *.
  apply not_false_iff_true. by destruct (ustr_leb_total (rollup_time r) (text_col "observed_at" x)); [|congruence].
Qed.
End rounds.

(** ** The answer *)

Lemma Forall2_map_r {A B} (R : A → B → Prop) (f : A → B) l : Forall (λ x, R x (f x)) l → Forall2 R l (f <$> l).
Proof. induction 1; by constructor. Qed.
Lemma zip_with_map_r {A B C} (f : A → B → C) (g : A → B) l : zip_with f l (g <$> l) = (λ x, f x (g x)) <$> l.
Proof. induction l as [|x l IH]; [done|]. cbn. by f_equal. Qed.

Definition cover_name (c : coverage) : string :=
  match c with complete => "complete" | unknown => "unknown" | truncated => "truncated" end.

Section answer.
Context (db : database) (sid enclosure : ustr) (slot : Z) (since : ustr).
#[local] Abbreviation q := (mkQuery sid enclosure slot since).

Lemma event_answer_holds limit : 0 <= limit →
  event_answer db sid enclosure slot since limit (slot_event_rows db q limit) (cover_name (event_coverage db q limit)).
Proof.
  intros Hl. exists (matching_events db q). split_and!; [apply matching_events_selects|apply slot_event_rows_chosen|by apply slot_event_rows_length|].
  unfold event_coverage. rewrite bounded_count_more. destruct (Z.ltb_spec 0 limit) as [H|H]; [right|left; split; [lia|done]].
  destruct (Z.ltb_spec limit (ulen (matching_events db q))); [left|right]; (split; [lia|done]) || (split_and!; [lia|lia|done]).
Qed.
Lemma metric_answer_holds metric limit : 0 <= limit →
  metric_answer db sid enclosure slot since metric limit (slot_metric db q metric limit) (cover_name (metric_coverage db q metric limit)).
Proof.
  intros Hl. unfold slot_metric. pose proof (newest_chosen limit (raw_samples db q metric)) as Hraw.
  pose proof (newest_observed limit (raw_samples db q metric)) as Hso.
  assert (ulen (with_value <$> newest limit (raw_samples db q metric)) <= limit) as Hlen
    by (destruct Hraw as [_ _ Hn]; unfold ulen; rewrite length_fmap; lia).
  set (raw := newest limit _) in *.
  destruct (append_rollups_spec db sid enclosure slot since metric limit 3600 _ Hso) as (hourly & -> & Hh).
  pose proof (rollup_answer_below _ _ _ _ _ _ _ 3600 _ _ ltac:(done) Hso Hh) as Hso'.
  destruct (append_rollups_spec db sid enclosure slot since metric limit 86400 _ Hso') as (daily & -> & Hd).
  exists (raw_samples db q metric), raw, hourly, daily. split_and!; [done| |apply raw_samples_selects|done..|].
  { eapply rollup_answer_length; [exact Hd|]. by eapply rollup_answer_length. }
  cbv zeta. unfold metric_coverage. rewrite bounded_count_more. destruct (Z.ltb_spec limit (ulen (raw_samples db q metric))) as [Hn|Hn]; [by left|].
  right. destruct (existsb _ _) eqn:E; [left|right]; (split_and!; [done| |done]).
  - apply existsb_exists in E as (r & Hr%list_elem_of_In & Hsel). exists r. split; [done|].
    rewrite !andb_true_iff, where_scope_spec, bool_decide_eq_true in Hsel. cbn [q_since] in Hsel. rewrite from_spec in Hsel. tauto.
  - intros (r & Hr%list_elem_of_In & H1 & H2 & H3). rewrite <-not_true_iff_false, existsb_exists in E. apply E. exists r. split; [done|].
    rewrite !andb_true_iff, where_scope_spec, bool_decide_eq_true. cbn [q_since]. by rewrite from_spec.
Qed.

Lemma slot_answer_holds el (ml : list (ustr * Z)) : 0 <= el → Forall (λ kl : ustr * Z, 1 <= kl.2) ml →
  slot_answer db sid enclosure slot since el ml (slot_payload db q el ml).
Proof.
  intros He Hm. exists (slot_event_rows db q el), (cover_name (event_coverage db q el)),
    ((λ kl : ustr * Z, (slot_metric db q kl.1 kl.2, cover_name (metric_coverage db q kl.1 kl.2))) <$> ml).
  cbv zeta. split_and!; [|by apply event_answer_holds|].
  - rewrite !zip_with_map_r. reflexivity.
  - apply Forall2_map_r. eapply Forall_impl; [exact Hm|]. intros kl Hkl. cbn in Hkl |- *. apply metric_answer_holds. lia.
Qed.
End answer.

(** ** The request *)

Lemma instant_astimezone d off d' : astimezone_utc d off = Ok d' → instant d' = instant d - off.
Proof.
  unfold astimezone_utc, instant. cbv zeta. destruct (_ && _); [|done]. intros [= <-]. cbn [dt_day dt_micros].
  pose proof (Z.div_mod (dt_micros d - off) DAY_MICROS ltac:(done)). lia.
Qed.
Lemma normalize_since_asks t now since h : normalize_since (JStr t) now = Ok (since, h) → asks_since t now since.
Proof.
  unfold normalize_since, parse_since. case_bool_decide; [done|]. destruct (fromisoformat _) as [d|] eqn:Ed; [|done].
  destruct (dt_offset d) as [off|] eqn:Eo; [|done]. cbn [mbind result_bind]. unfold since_as_utc. cbn [fst snd].
  destruct (astimezone_utc d off) as [at_utc|] eqn:Ea; [|done]. cbn [mbind result_bind].
  unfold current_utc. destruct (astimezone_utc now _) as [current|] eqn:En; [|done]. cbn [mbind result_bind].
  destruct (_ || _) eqn:Ew; [done|]. apply orb_false_iff in Ew as [H1%Z.ltb_ge H2%Z.ltb_ge]. intros [= <- _].
  apply instant_astimezone in En. apply instant_astimezone in Ea as Hi. exists d, off, at_utc.
  split_and!; [done|done|by eapply astimezone_utc_utc|done|done|lia|lia].
Qed.
Lemma validate_ok raw el (limits : list (ustr * Z)) (t : ustr) now since :
  validate_store_scope_request raw (JInt el) (prod_map id JInt <$> limits) (JStr t) now = Ok since → 0 <= el ∧ Forall (λ ml : ustr * Z, 1 <= ml.2) limits ∧ asks_since t now since.
Proof.
  unfold validate_store_scope_request. case_bool_decide; [done|]. destruct (MAX_TARGETS <? _); [done|].
  destruct (res_mapM _ _); [|done]. cbn [mbind result_bind]. destruct (strict_int (JInt el) _ _ _) eqn:Ee; [|done]. cbn [mbind result_bind].
  apply strict_int_ok in Ee as [[= ->] Ee]. destruct (bool_decide _ || _); [done|].
  assert (∀ ls total n, total_metric_rows (prod_map id JInt <$> ls) total = Ok n → Forall (λ ml : ustr * Z, 1 <= ml.2) ls) as Hm.
  { induction ls as [|[m l] ls IH]; intros total n; [constructor|]. rewrite fmap_cons. cbn [total_metric_rows prod_map id fst snd].
    destruct (jget m _); [|done]. destruct (strict_int (JInt l) _ _ _) eqn:El; [|done]. apply strict_int_ok in El as [[= ->] El].
    cbn [mbind result_bind]. intros H'%IH. constructor; [cbn; lia|done]. }
  destruct (total_metric_rows _ 0) eqn:Et; [|done]. cbn [mbind result_bind].
  destruct (normalize_since (JStr t) now) as [[s h]|] eqn:Es; [|done]. cbn [mbind result_bind].
  destruct (_ <? _); [done|]. destruct (_ <? _); [done|]. intros [= <-].
  split_and!; [lia|by eapply Hm|by eapply normalize_since_asks].
Qed.
End payloads.

(** ** The store keeps the promise of a reader *)

Section laws.
Context {RT : Runtime} {SW : StoreWorld}.

Lemma store_scope_history_ok sid enclosure sl el ml t n hs n' :
  store_scope_history sid enclosure sl el ml t n = (Ok hs, n') →
  n' = S n ∧ ∃ since, validate_store_scope_request (JInt <$> sl) (JInt el) (prod_map id JInt <$> ml) (JStr t) (clock n) = Ok since
    ∧ hs = (λ slot, (slot, slot_payload (database_at n) (mkQuery sid (default [] enclosure) slot since) el ml)) <$> sorted_set sl.
Proof.
  unfold store_scope_history. intros [= H <-]. split; [done|].
  destruct (validate_store_scope_request _ _ _ _ _) as [since|]; [|done]. cbn [mbind result_bind] in H.
  destruct (database_fails n); [done|]. exists since. split; [done|congruence].
Qed.

Lemma payload_rows_bound db q el ml : 0 <= el → Forall (λ kl : ustr * Z, 1 <= kl.2) ml →
  payload_rows (slot_payload db q el ml) <= el + sum ml.*2.
Proof.
  intros He Hm. pose proof (slot_event_rows_length db q el He) as Hev.
  assert (∀ A (f : A → json) l, list_len (JList (f <$> l)) = ulen l) as Hlen by (intros; cbn; unfold ulen; by rewrite length_fmap).
  change (payload_rows (slot_payload db q el ml)) with (list_len (JList (JObj <$> slot_event_rows db q el))
    + sum ((λ kv : ustr * json, list_len kv.2) <$> ((λ kl : ustr * Z, (kl.1, JList (JObj <$> slot_metric db q kl.1 kl.2))) <$> ml))).
  rewrite Hlen. apply Z.add_le_mono; [done|]. rewrite <-list_fmap_compose. clear Hev. induction Hm as [|[m l] ml Hl _ IH]; [done|].
  rewrite !fmap_cons. change (list_len (JList (JObj <$> slot_metric db q m l)) + sum (((λ kv : ustr * json, list_len kv.2) ∘ (λ kl : ustr * Z, (kl.1, JList (JObj <$> slot_metric db q kl.1 kl.2)))) <$> ml) <= l + sum ml.*2).
  apply Z.add_le_mono; [|exact IH]. rewrite Hlen. cbn in Hl. destruct q as [sid enc slot since].
  destruct (metric_answer_holds db sid enc slot since m l ltac:(lia)) as (? & ? & ? & ? & _ & ? & _). done.
Qed.

#[export] Instance store_reader_laws : ReaderLaws store_reader.
Proof.
  split; intros sid enclosure sl el ml t n hs n' (-> & since & Hv & ->)%store_scope_history_ok.
  - unfold ulen. rewrite length_fmap. pose proof (length_sorted_set sl). lia.
  - apply validate_ok in Hv as (He & Hm & _). apply Forall_fmap, Forall_true. intros slot. by apply payload_rows_bound.
Qed.
End laws.

(** ** Properties *)

(** [C28] A successful read of a scope has one payload per requested slot, each once,
    in order, and nothing else.  With [since] the UTC moment the caller named, the
    events of a slot are the newest of those stored for the slot from [since] on, and
    the coverage of its payload says whether there are more; the samples of a metric
    are the newest raw ones of the window, followed, if there is room, by the latest
    hourly rollups of the window strictly before every one of them, followed by the
    latest daily rollups strictly before those (before the day of the oldest, below
    hourly ones); their coverage is [truncated] when raw samples were left out,
    otherwise [unknown] exactly when a rollup lies in the window; and no list is
    longer than its limit. *)
Theorem scope_history_newest {RT : Runtime} {SW : StoreWorld} sid enclosure sl el ml t n hs n'
    (Hread : store_scope_history sid enclosure sl el ml t n = (Ok hs, n')) :
  hs.*1 = sorted_set sl
  ∧ ∃ since, asks_since t (clock n) since
    ∧ ∀ slot payload, (slot, payload) ∈ hs → slot_answer (database_at n) sid (default [] enclosure) slot since el ml payload.
Proof.
  apply store_scope_history_ok in Hread as (_ & since & Hv & ->). apply validate_ok in Hv as (He & Hm & Hs).
  split; [by rewrite <-list_fmap_compose, list_fmap_id|]. exists since. split; [done|]. intros slot payload Hin.
  apply list_elem_of_fmap in Hin as (slot' & [= <- ->] & _). by apply slot_answer_holds.
Qed.

(** ** A store to evaluate: two slots, three events, and a clock that advances two
    seconds with every read *)

Definition an_event (id slot day : Z) : row :=
  [(u "id", JInt id); (u "observed_at", JStr (isoformat_utc (midnight day))); (u "system_id", JStr (u "nas"));
   (u "enclosure_key", JStr []); (u "slot", JInt slot); (u "event_type", JStr (u "replaced"))].
Definition a_sample (id slot day celsius : Z) : row :=
  [(u "id", JInt id); (u "observed_at", JStr (isoformat_utc (midnight day))); (u "system_id", JStr (u "nas"));
   (u "enclosure_key", JStr []); (u "slot", JInt slot); (u "metric_name", JStr (u "temperature_c"));
   (u "value_integer", JInt celsius); (u "value_real", JNull)].
Definition example_day : Z := 739617.
Definition example_database : database := {|
  slot_events := [an_event 1 0 (example_day - 3); an_event 2 1 (example_day - 2); an_event 3 0 (example_day - 1)];
  metric_samples := [a_sample 1 0 (example_day - 1) 31; a_sample 2 1 (example_day - 1) 35];
  metric_rollups := [] |}.
Definition example_clock (n : nat) : datetime := mkDatetime example_day (2000000 * Z.of_nat n) (Some 0).
Definition example_store : StoreWorld := {|
  clock := example_clock; database_at := λ _, example_database; database_fails := λ _, None; real_div := λ v _, v |}.
Definition example_since (hours : Z) : ustr := isoformat_utc (mkDatetime (example_day - hours / 24) 0 (Some 0)).

(** Slot 0 also has rollups: one for the hour of its sample, one for an hour of the
    day before, one for that day and one for the day before that. *)
Definition a_rollup (seconds slot day celsius : Z) : row :=
  [(u "bucket_seconds", JInt seconds); (u "bucket_start", JStr (isoformat_utc (midnight day))); (u "system_id", JStr (u "nas"));
   (u "enclosure_key", JStr []); (u "slot", JInt slot); (u "metric_name", JStr (u "temperature_c"));
   (u "value_sum", JInt celsius); (u "sample_count", JInt 1)].
Definition rolled_up_database : database := {|
  slot_events := slot_events example_database;
  metric_samples := metric_samples example_database;
  metric_rollups := [a_rollup 3600 0 (example_day - 1) 30; a_rollup 3600 0 (example_day - 2) 29;
                     a_rollup 86400 0 (example_day - 2) 28; a_rollup 86400 0 (example_day - 3) 27] |}.
Definition rolled_up_store : StoreWorld := {|
  clock := example_clock; database_at := λ _, rolled_up_database; database_fails := λ _, None; real_div := λ v _, v |}.
Definition example_read : histories :=
  let _ := example_runtime in let _ := rolled_up_store in
  match store_scope_history (u "nas") None [1; 0; 1] 1 [(u "temperature_c", 5)] (example_since 240) 0 with
  | (Ok hs, _) => hs
  | _ => []
  end.
(** The values a payload lists for the metric, and its coverage *)
Definition listed_values (payload : jdict) : list json :=
  match field "metrics" payload with
  | Some (JObj [(_, JList l)]) => (λ v, match v with JObj r => field_or "value" JNull r | _ => JNull end) <$> l
  | _ => []
  end.
Lemma scope_history_newest_witness :
  let _ := example_runtime in let _ := rolled_up_store in
  store_scope_history (u "nas") None [1; 0; 1] 1 [(u "temperature_c", 5)] (example_since 240) 0 = (Ok example_read, 1%nat)
  ∧ (λ sp : Z * jdict, (sp.1, listed_values sp.2)) <$> example_read = [(0, JInt <$> [31; 29; 27]); (1, [JInt 35])]
  ∧ (λ sp : Z * jdict, field_or "coverage" JNull sp.2) <$> example_read =
      (λ ms : string * string, JObj [(u "metrics", JObj [(u "temperature_c", JStr (u ms.1))]); (u "events", JStr (u ms.2))])
        <$> [("unknown", "truncated"); ("complete", "complete")]%string
  ∧ ∃ since, asks_since (example_since 240) (example_clock 0) since
    ∧ ∀ slot payload, (slot, payload) ∈ example_read →
        slot_answer rolled_up_database (u "nas") [] slot since 1 [(u "temperature_c", 5)] payload.
Proof.
  intros RT SW.
  assert (store_scope_history (u "nas") None [1; 0; 1] 1 [(u "temperature_c", 5)] (example_since 240) 0 = (Ok example_read, 1%nat)) as E
    by (vm_compute; reflexivity).
  split; [exact E|]. split; [vm_compute; reflexivity|]. split; [vm_compute; reflexivity|].
  exact (proj2 (scope_history_newest (u "nas") None [1; 0; 1] 1 [(u "temperature_c", 5)] (example_since 240) 0 example_read 1 E)).
Defined.
