(* ===== verification/ReadServiceProofs.v ===== *)
(** * Bulk history reads are bounded

    A plan that is admitted is within every budget, and every plan within the
    budgets is admitted ([admitted_plan_exact]); the history service admits what the
    read UI admitted, and its storage layer too, as long as the request is not too
    old ([plan_document_roundtrip], [storage_check_exact]); reading a plan returns no
    more rows than it projected ([execute_refines_reads]); the handler is its parts
    and gives its place back ([bundle_refines_reads]); and the reads that run at any
    time are as many as the places taken, never more than there are
    ([reads_in_flight_exact]). *)

From S2P Require Import Prelude PyStr Calendar Json JsonProofs Journal JournalLines JournalExample.
From S2P Require Import ReadBounds ResponseSize ReadService ScopeHistory ReadBoundsProofs ResponseSizeProofs ScopeHistoryProofs.
#[local] Open Scope Z_scope.
#[local] Open Scope list_scope.

(** ** Plans and their documents *)

Section documents.
Context {RT : Runtime} {RL : RuntimeLaws RT}.

Lemma plan_of_document_unfold p now : plan_of_document (plan_document p) now =
  build_history_read_plan (scopes_value p) (metrics_value p) (JStr (since p)) (JInt (event_limit p)) (JInt (metric_limit p)) now.
Proof.
  unfold plan_of_document, plan_document. assert (∀ a b c d e : json, same_set ([(u "scopes", a); (u "metrics", b); (u "since", c);
    (u "event_limit", d); (u "metric_limit", e)].*1) DOCUMENT_FIELDS = true) as -> by (intros; vm_compute; reflexivity).
  reflexivity.
Qed.
Lemma document_again now later d p : is_utc later → is_utc d → since p = isoformat_utc d → plan_ok now p →
  plan_of_document (plan_document p) later = if bool_decide (in_window d later) then Ok (rewindowed (hours_since d later) p) else Err too_old.
Proof. intros Hl Hd Et Hp. rewrite plan_of_document_unfold. by apply (build_plan_again now). Qed.
Lemma document_plan_ok document now p : is_utc now → plan_of_document document now = Ok p → plan_ok now p.
Proof.
  intros Hn. unfold plan_of_document. destruct document; try done. destruct (negb _); [done|]. by apply build_plan_ok.
Qed.
Lemma document_same now p : is_utc now → plan_ok now p → plan_of_document (plan_document p) now = Ok p.
Proof.
  intros Hn Hp. pose proof Hp as [_ _ _ _ _ _ _ (d & Hd & Et & Hw & Eh) [Er Eb]]. rewrite (document_again now now d) by done.
  rewrite bool_decide_eq_true_2 by done. destruct p. cbn in *. subst. done.
Qed.
End documents.

(** ** Reading a plan *)

Section reading.
Context {SR : ScopeReader}.

(** The reads of a plan, one after the other, without any accounting *)
Fixpoint read_scopes (p : HistoryReadPlan) (ss : list HistoryScope) (w : store_state) :
    result history_error (list (HistoryScope * histories)) * store_state :=
match ss with
| [] => (Ok [], w)
| scope :: rest =>
    match list_scope_history (system_id scope) (enclosure_id scope) (slots scope) (event_limit p) (metric_limits p) (since p) w with
    | (Err e, w) => (Err e, w)
    | (Ok hs, w) => let '(r, w) := read_scopes p rest w in (cons (scope, hs) <$> r, w)
    end
end.
Definition rows_of (payloads : list (HistoryScope * histories)) : Z := sum ((λ sh : HistoryScope * histories, count_history_rows sh.2.*2) <$> payloads).

Lemma rows_of_cons s hs pl : rows_of ((s, hs) :: pl) = count_history_rows hs.*2 + rows_of pl.
Proof. done. Qed.
(** Rows per slot, of a plan *)
Definition slot_rows (p : HistoryReadPlan) : Z := event_limit p + sum (metric_limits p).*2.

Context {RL : ReaderLaws SR}.

Lemma count_rows_le (hs : histories) n : Forall (λ h : Z * jdict, payload_rows h.2 <= n) hs → 0 <= n → count_history_rows hs.*2 <= ulen hs * n.
Proof.
  intros H Hn. induction H as [|h hs Hh _ IH]; [done|]. unfold count_history_rows, sum, ulen in *. cbn in *. lia.
Qed.
Lemma execute_scopes_spec p ss returned w : 0 <= slot_rows p → returned + targets ss * slot_rows p <= projected_rows p →
  let '(r, w') := read_scopes p ss w in
  execute_scopes p ss returned w = ((λ payloads, (payloads, returned + rows_of payloads)) <$> r, w')
  ∧ ∀ payloads, r = Ok payloads → payloads.*1 = ss ∧ returned + rows_of payloads <= returned + targets ss * slot_rows p.
Proof.
  intros Hp. revert returned w; induction ss as [|s ss IH]; intros returned w Hbudget.
  { cbn. rewrite Z.add_0_r. split; [done|]. intros _ [= <-]. split; [done|]. change (rows_of []) with 0. change (targets []) with 0. lia. }
  rewrite targets_cons, Z.mul_add_distr_r in *. cbn [read_scopes execute_scopes]. destruct (list_scope_history _ _ _ _ _ _ w) as [[hs|e] w1] eqn:E; [|by split].
  pose proof (reader_targets _ _ _ _ _ _ _ _ _ E) as Ht. apply reader_rows in E. fold (slot_rows p) in E.
  apply count_rows_le in E; [|done]. pose proof (targets_nonneg ss) as H0.
  assert (count_history_rows hs.*2 <= ulen (slots s) * slot_rows p) as Hrows by nia.
  assert (0 <= targets ss * slot_rows p) by nia. rewrite (proj2 (Z.ltb_ge _ _)) by lia.
  remember (count_history_rows hs.*2) as n eqn:En.
  specialize (IH (returned + n) w1 ltac:(lia)).
  destruct (read_scopes p ss w1) as [r w2]. destruct IH as [-> Hr]. split.
  - destruct r as [payloads|]; cbn [fmap result_fmap fst snd]; [|done]. rewrite rows_of_cons, <-En. do 3 f_equal. lia.
  - intros payloads Hpl. destruct r as [pl|]; [|done]. cbn in Hpl. injection Hpl as <-. destruct (Hr pl eq_refl) as [E1 E2]. split; [by rewrite fmap_cons, E1|].
    rewrite rows_of_cons, <-En. lia.
Qed.

Lemma execute_plan_spec now p w : plan_ok now p →
  let '(r, w') := read_scopes p (scopes p) w in
  execute_history_plan p w = ((λ payloads, (payloads, rows_of payloads)) <$> r, w')
  ∧ ∀ payloads, r = Ok payloads → payloads.*1 = scopes p ∧ rows_of payloads <= projected_rows p.
Proof.
  intros [_ _ [Et _] Hm [? ?] _ [Ep _] _ _]. pose proof (metric_rows_nonneg (metric_limit p) _ (ok_allowed _ Hm) ltac:(lia)) as Hr.
  change (sum (metric_limits_of (metric_limit p) (metrics p)).*2) with (sum (metric_limits p).*2) in Hr.
  assert (projected_rows p = targets (scopes p) * slot_rows p) as E by (rewrite <-Et; exact Ep).
  pose proof (execute_scopes_spec p (scopes p) 0 w ltac:(unfold slot_rows; lia) ltac:(lia)) as Hx. unfold execute_history_plan.
  destruct (read_scopes p (scopes p) w) as [r w']. rewrite E. exact Hx.
Qed.
End reading.

(** ** Places *)

Section places.

(** What holds of a service with [n] places, whose plans were admitted. *)
Record service_ok (n : Z) (s : service) : Prop := {
  ok_places : max_concurrency (admission s) = n;
  ok_in_flight : in_flight (admission s) = Z.of_nat (size (reading s)) ∧ in_flight (admission s) <= n;
  ok_plans : map_Forall (λ _ pb, projected_rows (fst pb) <= MAX_RETURNED_ROWS) (operations s);
}.
Definition admitted_event (e : service_event) : Prop :=
  match e with Start _ p => projected_rows p <= MAX_RETURNED_ROWS | _ => True end.

Lemma reading_insert_true s id p a : operations s !! id = None →
  size (reading (mkService a (<[id:=(p, true)]> (operations s)))) = S (size (reading s)).
Proof.
  intros Hid. unfold reading. cbn. rewrite map_filter_insert_True by done. apply map_size_insert_None.
  apply map_lookup_filter_None. by left.
Qed.
Lemma reading_insert_false s id p a : operations s !! id = Some (p, true) →
  S (size (reading (mkService a (<[id:=(p, false)]> (operations s))))) = size (reading s).
Proof.
  intros Hid. unfold reading. cbn. rewrite map_filter_insert_False by done. rewrite map_filter_delete, map_size_delete_Some.
  - assert (filter (λ kv : Z * (HistoryReadPlan * bool), kv.2.2 = true) (operations s) !! id = Some (p, true)) as H by (by apply map_lookup_filter_Some).
    assert (size (filter (λ kv : Z * (HistoryReadPlan * bool), kv.2.2 = true) (operations s)) ≠ 0%nat); [|lia].
    apply (map_size_ne_0_lookup_2 _ id). by eexists.
  - eexists. by apply map_lookup_filter_Some.
Qed.
Lemma reading_delete s id p a : operations s !! id = Some (p, false) →
  size (reading (mkService a (delete id (operations s)))) = size (reading s).
Proof.
  intros Hid. unfold reading. cbn. rewrite map_filter_delete. rewrite delete_id; [done|].
  apply map_lookup_filter_None. right. intros x Hx. rewrite Hid in Hx. by injection Hx as <-.
Qed.
Lemma reading_pos s id p : operations s !! id = Some (p, true) → size (reading s) ≠ 0%nat.
Proof. intros Hid. apply (map_size_ne_0_lookup_2 _ id). exists (p, true). by apply map_lookup_filter_Some. Qed.

Lemma service_next_ok n e s s' : service_ok n s → admitted_event e → service_next e s = Some s' → service_ok n s'.
Proof.
  intros [Hn [Hf Hle] Hp] He H. destruct e as [|id p|id|id|id]; cbn in H.
  - unfold try_acquire in H. destruct (_ <=? _); [|done]. injection H as <-. by destruct s.
  - destruct (operations s !! id) eqn:Eid; [done|]. unfold try_acquire in H. destruct (_ <=? _) eqn:Ec; [done|]. injection H as <-. to_prop.
    split; [done| |by apply map_Forall_insert_2]. rewrite (reading_insert_true s id p) by done. cbn. lia.
  - destruct (operations s !! id) as [[p []]|] eqn:Eid; [|done..]. unfold release in H. destruct (_ <? 1) eqn:Ec; [done|]. injection H as <-. to_prop.
    split; [done| |apply map_Forall_insert_2; [|done]; by apply (Hp id (p, true))]. pose proof (reading_insert_false s id p (mkAdmission (max_concurrency (admission s)) (in_flight (admission s) - 1)) Eid). cbn in *. lia.
  - destruct (operations s !! id) as [[p []]|] eqn:Eid; [|done..]. unfold release in H. destruct (_ <? 1) eqn:Ec; [|done]. to_prop.
    pose proof (reading_pos s id p Eid). lia.
  - destruct (operations s !! id) as [[p []]|] eqn:Eid; [done| |done]. injection H as <-.
    split; [done| |by apply map_Forall_delete]. rewrite (reading_delete s id p) by done. done.
Qed.
Lemma service_run_ok n es s s' : service_ok n s → Forall admitted_event es → service_run es s = Some s' → service_ok n s'.
Proof.
  unfold service_run. intros Hs Hes. revert s Hs. induction Hes as [|e es He _ IH]; intros s Hs H; [by injection H as <-|].
  cbn in H. destruct (service_next e s) as [s1|] eqn:E.
  - apply (IH s1); [by eapply service_next_ok|exact H].
  - exfalso. clear -H. induction es as [|e es IH]; [done|]. by apply IH.
Qed.

Definition reading_rows (s : service) : Z := sum ((λ kv, projected_rows kv.2.1) <$> map_to_list (reading s)).
Lemma reading_rows_bound n s : service_ok n s → reading_rows s <= Z.of_nat (size (reading s)) * MAX_RETURNED_ROWS.
Proof.
  intros [_ _ Hp]. unfold reading_rows. rewrite <-length_map_to_list.
  assert (Forall (λ kv : Z * (HistoryReadPlan * bool), projected_rows kv.2.1 <= MAX_RETURNED_ROWS) (map_to_list (reading s))) as H.
  { apply Forall_forall. intros [id [p b]] Hin%elem_of_map_to_list. apply map_lookup_filter_Some in Hin as [Hin _]. by apply (Hp id (p, b)). }
  induction H as [|kv l Hkv _ IH]; [done|]. rewrite fmap_cons.
  change (projected_rows kv.2.1 + sum ((λ kv : Z * (HistoryReadPlan * bool), projected_rows kv.2.1) <$> l) <= Z.of_nat (S (length l)) * MAX_RETURNED_ROWS).
  rewrite Nat2Z.inj_succ, Z.mul_succ_l. lia.
Qed.
End places.

(** ** Properties *)

(** [C26] A request is admitted exactly within the budgets: whatever document is
    sent, an admitted plan has at most 32 distinct scopes with at most 347 sorted
    distinct slots in all, known metrics, an age between 1 and 8760 hours, and
    projects at most 4096 events and 36000 rows; and every plan within these bounds
    is admitted, unchanged, from its own document. *)
Theorem admitted_plan_exact {RT : Runtime} {RL : RuntimeLaws RT} now (Hnow : is_utc now) :
  (∀ document p, plan_of_document document now = Ok p → plan_ok now p)
  ∧ ∀ p, plan_ok now p ↔ plan_of_document (plan_document p) now = Ok p.
Proof.
  split; [intros document p; by apply document_plan_ok|]. intros p. split; [by apply document_same|by apply document_plan_ok].
Qed.

(** The plan the read UI admitted is the plan the history service admits: its
    document gives the same scopes, metrics, limits and projections at any later
    time at which the request is still no older than its limit allows, and is
    refused otherwise. *)
Theorem plan_document_roundtrip {RT : Runtime} {RL : RuntimeLaws RT} document now later p
    (Hnow : is_utc now) (Hlater : is_utc later) (Hp : plan_of_document document now = Ok p) :
  ∃ d, since p = isoformat_utc d ∧ in_window d now
    ∧ plan_of_document (plan_document p) later =
        if bool_decide (in_window d later) then Ok (rewindowed (hours_since d later) p) else Err too_old.
Proof.
  apply document_plan_ok in Hp; [|done]. pose proof Hp as [_ _ _ _ _ _ _ (d & Hd & Et & Hw & _) _].
  exists d. split_and!; [done|done|]. by apply (document_again now).
Qed.

(** The storage layer accepts every scope of an admitted plan unless the request
    has become too old since it was admitted: budgets, slots and metrics are never
    refused there. *)
Theorem storage_check_exact {RT : Runtime} {RL : RuntimeLaws RT} document now later p s
    (Hnow : is_utc now) (Hlater : is_utc later) (Hp : plan_of_document document now = Ok p) (Hs : s ∈ scopes p) :
  ∃ d, since p = isoformat_utc d ∧ in_window d now
    ∧ check_scope p s later = if bool_decide (in_window d later) then Ok (since p) else Err too_old.
Proof.
  apply document_plan_ok in Hp; [|done]. pose proof Hp as [_ _ _ _ _ _ _ (d & Hd & Et & Hw & _) _].
  exists d. split_and!; [done|done|]. by apply (check_scope_spec now).
Qed.

(** [C4] The handler of a bundle request is its reads, one after the other: an
    inadmissible document is refused without reading, a request without a place is
    told to retry, and otherwise the scopes of the plan are read and answered with
    at most 36000 rows, the count of rows never being the reason of a failure; the
    place is given back in every case. *)
Theorem bundle_refines_reads {RT : Runtime} {RL : RuntimeLaws RT} {SR : ScopeReader} {SL : ReaderLaws SR} {FW : Framework}
    document now a w (Hnow : is_utc now) (Ha : 0 <= in_flight a) :
  scopes_history_bundle document now a w =
  match plan_of_document document now with
  | Err e => (history_error_response e, a, w)
  | Ok p =>
      if max_concurrency a <=? in_flight a then (history_read_busy_response, a, w)
      else match read_scopes p (scopes p) w with
           | (Ok payloads, w') => (bounded_history_json_response (bundle_payload p payloads (rows_of payloads)) MAX_RESPONSE_BYTES, a, w')
           | (Err e, w') => (ServerError (exn_of_error e), a, w')
           end
  end
  ∧ ∀ p payloads w', plan_of_document document now = Ok p → read_scopes p (scopes p) w = (Ok payloads, w') →
      payloads.*1 = scopes p ∧ rows_of payloads <= projected_rows p ∧ projected_rows p <= MAX_RETURNED_ROWS.
Proof.
  unfold scopes_history_bundle. destruct (plan_of_document document now) as [p|e] eqn:E; [|by split].
  apply document_plan_ok in E; [|done]. pose proof (execute_plan_spec now p w E) as H.
  destruct (read_scopes p (scopes p) w) as [r w'] eqn:Er. destruct H as [-> H]. split.
  - unfold try_acquire. destruct (max_concurrency a <=? in_flight a); [done|]. unfold release. cbn [in_flight max_concurrency].
    rewrite (proj2 (Z.ltb_ge _ _)) by lia. assert (mkAdmission (max_concurrency a) (in_flight a + 1 - 1) = a) as -> by (destruct a; cbn; f_equal; lia).
    by destruct r.
  - intros p' payloads w'' [= <-] Hr. rewrite Er in Hr. injection Hr as -> <-. destruct (H payloads eq_refl) as [H1 H2]. split_and!; [done|done|]. apply E.
Qed.

(** At any time, whatever requests come and go, the reads that are running hold
    exactly the places taken, at most as many as there are: no release is ever
    unbalanced, a request is refused exactly when all places are taken, every
    running read can finish, and the running reads together return at most 36000
    rows per place. *)
Theorem reads_in_flight_exact places a0 es s
    (Hnew : new_admission (JInt places) = Ok a0) (Hes : Forall admitted_event es) (Hrun : service_run es (mkService a0 ∅) = Some s) :
  in_flight (admission s) = Z.of_nat (size (reading s)) ∧ Z.of_nat (size (reading s)) <= places
  ∧ (∀ id, service_next (Unbalanced id) s = None)
  ∧ (service_next Refuse s ≠ None ↔ Z.of_nat (size (reading s)) = places)
  ∧ (∀ id p, operations s !! id = Some (p, true) → service_next (Finish id) s ≠ None)
  ∧ reading_rows s <= places * MAX_RETURNED_ROWS.
Proof.
  cbn in Hnew. destruct (places <? 1) eqn:E; [done|]. injection Hnew as <-. to_prop.
  assert (service_ok places (mkService (mkAdmission places 0) ∅)) as H0.
  { split; [done| |apply map_Forall_empty]. unfold reading. cbn. rewrite map_filter_empty, map_size_empty. lia. }
  pose proof (service_run_ok _ _ _ _ H0 Hes Hrun) as Hok. pose proof Hok as [Hn [Hf Hle] Hp]. split_and!; [done|lia| | | |].
  - intros id. cbn. destruct (operations s !! id) as [[p []]|] eqn:Eid; [|done..]. pose proof (reading_pos s id p Eid).
    unfold release. by rewrite (proj2 (Z.ltb_ge _ _)) by lia.
  - cbn. unfold try_acquire. rewrite Hn. destruct (places <=? in_flight (admission s)) eqn:Ec; to_prop; split; try done; lia.
  - intros id p Eid. cbn. rewrite Eid. pose proof (reading_pos s id p Eid). unfold release. by rewrite (proj2 (Z.ltb_ge _ _)) by lia.
  - etrans; [by eapply reading_rows_bound|]. apply Z.mul_le_mono_nonneg_r; [done|lia].
Qed.

(** ** A request for two scopes, ten days or a whole year back, on the example store
    whose reads take two seconds *)

Definition a_scope (enclosure : json) (sl : list Z) : json :=
  JObj [(u "system_id", JStr (u " nas ")); (u "enclosure_id", enclosure); (u "slots", JList (JInt <$> sl))].
Definition a_document (hours : Z) : json :=
  JObj [(u "scopes", JList [a_scope JNull [1; 0; 1]; a_scope (JStr (u "shelf")) [2]]);
        (u "metrics", JList [JStr (u "temperature_c"); JStr (u "bytes_read"); JStr (u "temperature_c")]);
        (u "since", JStr (example_since hours)); (u "event_limit", JInt 1); (u "metric_limit", JInt 90)].
Definition a_plan (hours : Z) : HistoryReadPlan :=
  mkPlan [mkScope (u "nas") None [0; 1]; mkScope (u "nas") (Some (u "shelf")) [2]]
    [u "temperature_c"; u "bytes_read"] (example_since hours) 1 90 hours 2 3 3 453 0 0.
Definition example_framework : Framework := {| response_body := @encode example_floats |}.

Lemma example_clock_utc n : (n < 10)%nat → is_utc (example_clock n).
Proof.
  intros Hn. split; [|done]. unfold valid_datetime, example_clock, example_day, max_ordinal, DAY_MICROS. cbn [dt_day dt_micros].
  rewrite !andb_true_iff, !Z.leb_le, Z.ltb_lt. lia.
Qed.
Lemma admitted_plan_exact_witness :
  let _ := example_runtime in
  plan_of_document (a_document 8760) (example_clock 0) = Ok (a_plan 8760) ∧ plan_ok (example_clock 0) (a_plan 8760).
Proof.
  intros RT. pose proof example_laws as RL.
  assert (plan_of_document (a_document 8760) (example_clock 0) = Ok (a_plan 8760)) as E by (vm_compute; reflexivity).
  split; [exact E|]. apply (proj1 (admitted_plan_exact (example_clock 0) (example_clock_utc 0 ltac:(lia))) (a_document 8760)). exact E.
Defined.
Lemma plan_document_roundtrip_witness :
  let _ := example_runtime in
  ∃ d, example_since 240 = isoformat_utc d ∧ in_window d (example_clock 0)
    ∧ plan_of_document (plan_document (a_plan 240)) (example_clock 1) =
        if bool_decide (in_window d (example_clock 1)) then Ok (rewindowed (hours_since d (example_clock 1)) (a_plan 240)) else Err too_old.
Proof.
  intros RT. pose proof example_laws as RL.
  apply (plan_document_roundtrip (a_document 240) (example_clock 0) (example_clock 1) (a_plan 240)
    (example_clock_utc 0 ltac:(lia)) (example_clock_utc 1 ltac:(lia))).
  vm_compute. reflexivity.
Defined.
Lemma storage_check_exact_witness :
  let _ := example_runtime in
  check_scope (a_plan 8760) (mkScope (u "nas") (Some (u "shelf")) [2]) (example_clock 1) = Err too_old
  ∧ ∃ d, example_since 8760 = isoformat_utc d ∧ in_window d (example_clock 0)
      ∧ check_scope (a_plan 8760) (mkScope (u "nas") (Some (u "shelf")) [2]) (example_clock 1)
        = if bool_decide (in_window d (example_clock 1)) then Ok (example_since 8760) else Err too_old.
Proof.
  intros RT. pose proof example_laws as RL. split; [vm_compute; reflexivity|].
  apply (storage_check_exact (a_document 8760) (example_clock 0) (example_clock 1) (a_plan 8760) (mkScope (u "nas") (Some (u "shelf")) [2])
    (example_clock_utc 0 ltac:(lia)) (example_clock_utc 1 ltac:(lia))).
  - vm_compute. reflexivity.
  - cbn. right. left.
Defined.
(** A request for a whole year fails with a server error when the read of its first
    scope takes more than a second. *)
Lemma bundle_refines_reads_witness :
  let _ := example_runtime in let _ := example_store in let _ := example_framework in
  scopes_history_bundle (a_document 8760) (example_clock 0) (mkAdmission 4 3) (0%nat : @store_state store_reader)
  = (ServerError ValueError, mkAdmission 4 3, 2%nat).
Proof.
  intros RT SW FW. pose proof example_laws as RL.
  rewrite (proj1 (bundle_refines_reads (SR := store_reader) (a_document 8760) (example_clock 0) (mkAdmission 4 3) 0%nat
    (example_clock_utc 0 ltac:(lia)) ltac:(cbn; lia))).
  vm_compute. reflexivity.
Defined.
Lemma reads_in_flight_exact_witness :
  match service_run [Start 1 (a_plan 240); Start 2 (a_plan 240); Refuse; Finish 1; Start 3 (a_plan 240); Discard 1]
    (mkService (mkAdmission 2 0) ∅) with
  | Some s => reading_rows s <= 2 * MAX_RETURNED_ROWS ∧ Z.of_nat (size (reading s)) = 2
  | None => False
  end.
Proof.
  assert (∃ s, service_run [Start 1 (a_plan 240); Start 2 (a_plan 240); Refuse; Finish 1; Start 3 (a_plan 240); Discard 1]
    (mkService (mkAdmission 2 0) ∅) = Some s) as [s E] by (eexists; reflexivity).
  assert (Forall admitted_event [Start 1 (a_plan 240); Start 2 (a_plan 240); Refuse; Finish 1; Start 3 (a_plan 240); Discard 1]) as He
    by (rewrite !Forall_cons; cbn; unfold MAX_RETURNED_ROWS; split_and!; done || lia).
  rewrite E. pose proof (reads_in_flight_exact 2 (mkAdmission 2 0) _ s eq_refl He E) as (Hf & _ & _ & _ & _ & Hr).
  split; [exact Hr|]. rewrite <-Hf. revert E. vm_compute. intros [= <-]. reflexivity.
Defined.
