(* ===== verification/UnionFind.v ===== *)
(** * Union-find over identity tokens

    [_Classes] of [src/app/services/inventory_accounting.py].  [find] follows
    parents until a token is its own, recording tokens it sees for the first time;
    [union] hangs the roots of its tokens below the least of them.  Parents are
    therefore never above their children in the order of texts, which is why the
    loop of [find] ends ([find_enough]); and the root of a token is the least token
    connected with it ([find_least]), so two tokens have the same root exactly when
    they are connected ([find_connected]). *)

From S2P Require Import Prelude.
From S2P Require Import PyStr.
From Stdlib Require Import String Ascii.
#[local] Open Scope nat_scope.
#[local] Open Scope list_scope.

(** ** The class *)

Abbreviation token := string.
Abbreviation classes := (gmap token token).

(** [self._parent.setdefault(token, token)] *)
Definition setdefault (t : token) (p : classes) : token * classes :=
  match p !! t with Some v => (v, p) | None => (t, <[t := t]> p) end.
(** The loop of [find]; [fuel] bounds its rounds. *)
Fixpoint find_from (fuel : nat) (t : token) (p : classes) : token * classes :=
  match fuel with
  | O => (t, p)
  | S f => let '(parent, p) := setdefault t p in if decide (parent = t) then (t, p) else find_from f parent p
  end.
Definition find (t : token) (p : classes) : token * classes := find_from (S (size p)) t p.
(** [min(a, b)], the first of equals *)
Definition str_min (a b : token) : token := if str_leb a b then a else b.
Definition min_of (r : token) (rs : list token) : token := foldl str_min r rs.
(** [{self.find(token) for token in tokens}] *)
Fixpoint find_all (ts : list token) (p : classes) : list token * classes :=
  match ts with
  | [] => ([], p)
  | t :: ts => let '(r, p) := find t p in let '(rs, p) := find_all ts p in (r :: rs, p)
  end.
Definition union (ts : list token) (p : classes) : classes :=
  let '(rs, p) := find_all ts p in
  match remove_dups rs with
  | r :: ((_ :: _) as rest) => foldl (λ p root, <[root := min_of r rest]> p) p (r :: rest)
  | _ => p
  end.
Definition new_classes : classes := ∅.
Definition unions (tss : list (list token)) : classes := foldl (λ p ts, union ts p) new_classes tss.
(** The root of a token, in a structure that is only read any more: recording the
    token changes no later answer. *)
Definition root_of (p : classes) (t : token) : token := (find t p).1.

(** ** Order *)

Definition str_lt (a b : token) : Prop := str_leb a b = true ∧ a ≠ b.
Lemma str_lt_trans a b c : str_lt a b → str_lt b c → str_lt a c.
Proof.
  intros [H1 N1] [H2 N2]. split; [by eapply str_leb_trans|]. intros ->. by apply N1, str_leb_antisym.
Qed.
Lemma str_min_le a b : str_leb (str_min a b) a = true ∧ str_leb (str_min a b) b = true ∧ (str_min a b = a ∨ str_min a b = b).
Proof.
  unfold str_min. destruct (str_leb a b) eqn:E; split_and!; auto using str_leb_refl. by destruct (str_leb_total a b) as [?|?]; [congruence|].
Qed.
Lemma min_of_spec r rs : min_of r rs ∈ r :: rs ∧ ∀ x, x ∈ r :: rs → str_leb (min_of r rs) x = true.
Proof.
  revert r; induction rs as [|y rs IH]; intros r.
  - split; [by left|]. intros x ->%list_elem_of_singleton. apply str_leb_refl.
  - change (min_of r (y :: rs)) with (min_of (str_min r y) rs). destruct (IH (str_min r y)) as [Hin Hle]. destruct (str_min_le r y) as (H1 & H2 & H3). split.
    + apply elem_of_cons in Hin as [->|Hin]; [|by right; right]. destruct H3 as [->| ->]; [by left|right; by left].
    + intros x [->|[->|Hx]%elem_of_cons]%elem_of_cons.
      * eapply str_leb_trans; [apply Hle; by left|done].
      * eapply str_leb_trans; [apply Hle; by left|done].
      * apply Hle. by right.
Qed.

(** ** Well-formed structures *)

(** Parents are recorded, and below their children. *)
Record wf (p : classes) : Prop := {
  wf_below : ∀ k v, p !! k = Some v → v = k ∨ str_lt v k;
  wf_closed : ∀ k v, p !! k = Some v → is_Some (p !! v);
}.
#[local] Instance str_lt_dec a b : Decision (str_lt a b).
Proof. apply _. Defined.
(** How many recorded tokens are below one *)
Definition below (p : classes) (t : token) : gset token := filter (λ k, str_lt k t) (dom p).
Lemma below_parent p k v : wf p → p !! k = Some v → v ≠ k → size (below p v) < size (below p k).
Proof.
  intros [Hb Hc] Hk Hne. destruct (Hb _ _ Hk) as [|Hlt]; [done|]. apply subset_size. split.
  - intros x. unfold below. rewrite !elem_of_filter. intros [Hx Hd]. split; [by eapply str_lt_trans|done].
  - intros Hsub. assert (v ∈ below p v) as Hv; [|by unfold below in Hv; apply elem_of_filter in Hv as [[_ ?] _]].
    apply Hsub. unfold below. rewrite elem_of_filter. split; [done|]. apply elem_of_dom. by eapply Hc.
Qed.
Lemma size_below p t : size (below p t) ≤ size p.
Proof. rewrite <-size_dom. apply subseteq_size. intros x. unfold below. by rewrite elem_of_filter; intros [_ ?]. Qed.

(** More fuel than tokens below changes nothing. *)
Lemma find_from_enough n m t p : wf p → size (below p t) < n → size (below p t) < m → find_from n t p = find_from m t p.
Proof.
  intros Hwf. revert m t; induction n as [|n IH]; intros m t Hn Hm; [lia|]. destruct m as [|m]; [lia|]. cbn. unfold setdefault.
  destruct (p !! t) as [v|] eqn:E; [|by rewrite !decide_True]. case_decide as Hv; [done|].
  pose proof (below_parent p t v Hwf E Hv). apply IH; lia.
Qed.
(** [find_enough]: the loop ends at a token that is its own parent. *)
Lemma find_unfold t p : wf p → find t p = let '(v, p) := setdefault t p in if decide (v = t) then (t, p) else find v p.
Proof.
  intros Hwf. change (find t p) with (let '(parent, q) := setdefault t p in if decide (parent = t) then (t, q) else find_from (size p) parent q).
  unfold setdefault. destruct (p !! t) as [v|] eqn:E; [|by rewrite !decide_True].
  case_decide as Hv; [done|]. pose proof (below_parent p t v Hwf E Hv). pose proof (size_below p t). apply find_from_enough; [done|lia..].
Qed.

(** ** Roots *)

Definition parent_of (p : classes) (t : token) : token := default t (p !! t).
Definition recorded (t : token) (p : classes) : classes := (setdefault t p).2.

Lemma wf_parent p t : wf p → parent_of p t = t ∨ str_lt (parent_of p t) t.
Proof. intros [Hb _]. unfold parent_of. destruct (p !! t) eqn:E; cbn; [by apply Hb|by left]. Qed.
(** Induction from the root of a token upwards *)
Lemma parent_ind p (P : token → Prop) : wf p → (∀ t, (parent_of p t ≠ t → P (parent_of p t)) → P t) → ∀ t, P t.
Proof.
  intros Hwf Hstep t. remember (size (below p t)) as n eqn:En. revert t En. induction n as [n IH] using lt_wf_ind. intros t ->.
  apply Hstep. unfold parent_of. destruct (p !! t) as [v|] eqn:E; cbn; [|done]. intros Hv.
  apply (IH (size (below p v))); [by apply below_parent|done].
Qed.

Lemma recorded_parent p t k : parent_of (recorded t p) k = parent_of p k.
Proof.
  unfold recorded, setdefault, parent_of. destruct (p !! t) eqn:E; [done|]. cbn.
  destruct (decide (k = t)) as [->|]; [by rewrite lookup_insert_eq, E|by rewrite lookup_insert_ne].
Qed.
Lemma recorded_some p t k : is_Some (recorded t p !! k) ↔ k = t ∨ is_Some (p !! k).
Proof.
  unfold recorded, setdefault. destruct (p !! t) eqn:E; cbn.
  - split; [by right|intros [->|?]; [by eexists|done]].
  - destruct (decide (k = t)) as [->|]; [rewrite lookup_insert_eq; naive_solver|rewrite lookup_insert_ne by done; naive_solver].
Qed.
(** A structure is well formed when it is so for parents and what is recorded. *)
Lemma wf_intro p : (∀ k, parent_of p k = k ∨ str_lt (parent_of p k) k) → (∀ k, is_Some (p !! k) → is_Some (p !! parent_of p k)) → wf p.
Proof. intros Hb Hc. split; intros k v E; [specialize (Hb k)|specialize (Hc k)]; unfold parent_of in *; rewrite E in *; cbn in *; eauto. Qed.
Lemma recorded_wf p t : wf p → wf (recorded t p).
Proof.
  intros Hwf. apply wf_intro; intros k; rewrite recorded_parent; [by apply wf_parent|]. rewrite !recorded_some. intros [->|[v E]].
  - unfold parent_of. destruct (p !! t) eqn:E; cbn; [right; by eapply wf_closed|by left].
  - right. unfold parent_of. rewrite E. cbn. by eapply wf_closed.
Qed.

Lemma root_unfold p t : wf p → root_of p t = if decide (parent_of p t = t) then t else root_of p (parent_of p t).
Proof.
  intros Hwf. unfold root_of at 1. rewrite find_unfold by done. unfold setdefault, parent_of.
  destruct (p !! t) as [v|]; cbn; case_decide; done.
Qed.
Lemma find_result p t : wf p → find t p = (root_of p t, recorded t p).
Proof.
  intros Hwf. revert t. apply (parent_ind p); [done|]. intros t IH. rewrite (surjective_pairing (find t p)). f_equal.
  rewrite find_unfold by done. unfold recorded, setdefault, parent_of in *. destruct (p !! t) as [v|] eqn:E; cbn in *.
  - case_decide as Hv; [done|]. rewrite (IH Hv). cbn. destruct (wf_closed _ Hwf t v E) as [w ->]. done.
  - by rewrite decide_True.
Qed.
Lemma root_parent_ext p q : wf p → wf q → (∀ k, parent_of p k = parent_of q k) → ∀ t, root_of p t = root_of q t.
Proof.
  intros Hp Hq Hk. apply (parent_ind p); [done|]. intros t IH. rewrite (root_unfold p), (root_unfold q) by done. rewrite <-Hk.
  case_decide; [done|]. by apply IH.
Qed.
Lemma root_is_root p t : wf p → parent_of p (root_of p t) = root_of p t.
Proof. intros Hwf. revert t. apply (parent_ind p); [done|]. intros t IH. rewrite root_unfold by done. case_decide; [done|by apply IH]. Qed.
Lemma root_of_root p t : wf p → root_of p (root_of p t) = root_of p t.
Proof. intros Hwf. rewrite (root_unfold p (root_of p t)) by done. by rewrite decide_True by by apply root_is_root. Qed.
Lemma root_le p t : wf p → str_leb (root_of p t) t = true.
Proof.
  intros Hwf. revert t. apply (parent_ind p); [done|]. intros t IH. rewrite root_unfold by done. case_decide as Hd; [apply str_leb_refl|].
  eapply str_leb_trans; [by apply IH|]. by destruct (wf_parent p t Hwf) as [?|[? _]].
Qed.
Lemma find_all_result ts p : wf p →
  (find_all ts p).1 = root_of p <$> ts ∧ wf (find_all ts p).2 ∧ (∀ k, parent_of (find_all ts p).2 k = parent_of p k)
  ∧ ∀ k, is_Some ((find_all ts p).2 !! k) ↔ k ∈ ts ∨ is_Some (p !! k).
Proof.
  revert p; induction ts as [|t ts IH]; intros p Hwf.
  - cbn. split_and!; try done. intros k. split; [by right|by intros [?%not_elem_of_nil|?]].
  - cbn [find_all]. rewrite find_result by done. pose proof (recorded_wf p t Hwf) as Hwf'. destruct (IH _ Hwf') as (H1 & H2 & H3 & H4).
    destruct (find_all ts (recorded t p)) as [rs q] eqn:E. cbn in *. split_and!; [|done| |].
    + f_equal. rewrite H1. apply list_fmap_ext. intros i x _. apply root_parent_ext; [done|done|]. intros k. by rewrite recorded_parent.
    + intros k. by rewrite H3, recorded_parent.
    + intros k. rewrite H4, recorded_some, elem_of_cons. tauto.
Qed.

(** ** Union *)

Lemma insert_all_parent m rs (p : classes) k : parent_of (foldl (λ p root, <[root := m]> p) p rs) k = if decide (k ∈ rs) then m else parent_of p k.
Proof.
  revert p; induction rs as [|r rs IH]; intros p; cbn [foldl]; [by rewrite decide_False by apply not_elem_of_nil|]. rewrite IH.
  destruct (decide (k ∈ rs)) as [H|H]; [by rewrite decide_True by (by right)|]. unfold parent_of. destruct (decide (k = r)) as [->|Hne].
  - rewrite lookup_insert_eq, decide_True by left. done.
  - rewrite lookup_insert_ne, decide_False by (rewrite ?elem_of_cons; naive_solver). done.
Qed.
Lemma insert_all_some m rs (p : classes) k : is_Some (foldl (λ p root, <[root := m]> p) p rs !! k) ↔ k ∈ rs ∨ is_Some (p !! k).
Proof.
  revert p; induction rs as [|r rs IH]; intros p; cbn [foldl]; [rewrite elem_of_nil; tauto|]. rewrite IH, elem_of_cons.
  destruct (decide (k = r)) as [->|Hne]; [rewrite lookup_insert_eq; naive_solver|rewrite lookup_insert_ne by done; tauto].
Qed.

(** The least root of some tokens becomes the parent of their roots. *)
Lemma union_spec p ts t0 : wf p → t0 ∈ ts → ∃ m,
  m ∈ root_of p <$> ts ∧ (∀ r, r ∈ root_of p <$> ts → str_leb m r = true)
  ∧ wf (union ts p) ∧ ∀ k, parent_of (union ts p) k = if decide (k ∈ root_of p <$> ts) then m else parent_of p k.
Proof.
  intros Hwf Ht0. pose proof (find_all_result ts p Hwf) as (Hrs & Hwq & Hpar & Hsome). unfold union.
  destruct (find_all ts p) as [rs q]. cbn in Hrs, Hwq, Hpar, Hsome. rewrite <-Hrs.
  assert (∀ r, r ∈ rs → parent_of q r = r ∧ is_Some (q !! r)) as Hroot.
  { intros r Hr. rewrite Hrs in Hr. apply list_elem_of_fmap in Hr as (t & -> & Ht). rewrite Hpar, root_is_root by done. split; [done|].
    assert (∀ t, is_Some (q !! t) → is_Some (q !! root_of p t)) as Hup.
    { apply (parent_ind p (λ t, is_Some (q !! t) → is_Some (q !! root_of p t))); [done|]. intros t' IH Hs. rewrite root_unfold by done.
      case_decide; [done|]. apply IH; [done|]. rewrite <-Hpar. destruct Hs as [v E]. unfold parent_of. rewrite E. cbn. by eapply wf_closed. }
    apply Hup, Hsome. by left. }
  destruct (remove_dups rs) as [|r rest] eqn:Ed.
  { assert (root_of p t0 ∈ rs) as Hin by (rewrite Hrs; by apply list_elem_of_fmap_2). rewrite <-elem_of_remove_dups, Ed in Hin. by apply not_elem_of_nil in Hin. }
  assert (∀ x, x ∈ rs ↔ x ∈ r :: rest) as Hin by (intros x; by rewrite <-Ed, elem_of_remove_dups).
  destruct rest as [|r' rest].
  - exists r. assert (r ∈ rs) as Hr by (apply Hin; left). split_and!; [done| |done|].
    + intros x Hx. apply Hin, list_elem_of_singleton in Hx as ->. apply str_leb_refl.
    + intros k. rewrite Hpar. case_decide as Hk; [|done]. apply Hin, list_elem_of_singleton in Hk as ->. rewrite <-Hpar. by apply Hroot.
  - set (m := min_of r (r' :: rest)). destruct (min_of_spec r (r' :: rest)) as [Hm Hle]. fold m in Hm, Hle. exists m.
    split_and!; [by apply Hin|intros x Hx; by apply Hle, Hin| |].
    + apply wf_intro; intros k; rewrite insert_all_parent.
      * case_decide as Hk; [|by apply wf_parent]. destruct (decide (m = k)); [by left|right]. split; [by apply Hle|done].
      * rewrite !insert_all_some. case_decide as Hk; [by left|]. intros [?|[v E]]; [done|]. right. unfold parent_of. rewrite E. cbn. by eapply wf_closed.
    + intros k. rewrite insert_all_parent, Hpar. destruct (decide (k ∈ rs)) as [Hk|Hk]; rewrite Hin in Hk; [by rewrite decide_True|by rewrite decide_False].
Qed.
Lemma union_root p ts t0 : wf p → t0 ∈ ts → ∃ m,
  m ∈ root_of p <$> ts ∧ wf (union ts p) ∧ ∀ t, root_of (union ts p) t = if decide (root_of p t ∈ root_of p <$> ts) then m else root_of p t.
Proof.
  intros Hwf Ht0. destruct (union_spec p ts t0 Hwf Ht0) as (m & Hm & Hle & Hwu & Hpar). exists m. split_and!; [done|done|].
  assert (root_of p m = m) as Hmr by (apply list_elem_of_fmap in Hm as (t & -> & _); by apply root_of_root).
  assert (parent_of (union ts p) m = m) as Hpm by (by rewrite Hpar, decide_True).
  assert (root_of (union ts p) m = m) as Hmu by (rewrite root_unfold by done; by rewrite Hpm, decide_True).
  apply (parent_ind p); [done|]. intros t IH. rewrite (root_unfold (union ts p)) by done. rewrite Hpar.
  destruct (decide (t ∈ root_of p <$> ts)) as [Ht|Ht].
  - assert (root_of p t = t) as -> by (apply list_elem_of_fmap in Ht as (x & -> & _); by apply root_of_root).
    rewrite !(decide_True (P := t ∈ _)) by done. rewrite Hmu. clear IH. case_decide as Hd; [by rewrite Hd|done].
  - rewrite (root_unfold p t) by done. destruct (decide (parent_of p t = t)) as [|Hne]; [by rewrite decide_False|by apply IH].
Qed.
Lemma union_nil p : union [] p = p.
Proof. done. Qed.

(** ** Connected tokens *)

Definition linked (tss : list (list token)) (a b : token) : Prop := ∃ ts, ts ∈ tss ∧ a ∈ ts ∧ b ∈ ts.
Definition connected (tss : list (list token)) : token → token → Prop := rtc (linked tss).
Lemma connected_sym tss a b : connected tss a b → connected tss b a.
Proof.
  induction 1 as [|a b c (ts & H & Ha & Hb) _ IH]; [constructor|]. etrans; [exact IH|]. apply rtc_once. by exists ts.
Qed.
Lemma connected_mono tss tss' a b : (∀ ts, ts ∈ tss → ts ∈ tss') → connected tss a b → connected tss' a b.
Proof. intros Hs. apply rtc_subrel. intros x y (ts & H & ?). exists ts. split; [by apply Hs|done]. Qed.

Record classes_of (tss : list (list token)) (p : classes) : Prop := {
  classes_wf : wf p;
  classes_sound : ∀ t, connected tss t (root_of p t);
  classes_complete : ∀ a b, connected tss a b → root_of p a = root_of p b;
}.
Lemma classes_of_union tss p ts : classes_of tss p → classes_of (tss ++ [ts]) (union ts p).
Proof.
  intros [Hwf Hs Hc]. assert (∀ a b, connected tss a b → connected (tss ++ [ts]) a b) as Hmono.
  { intros a b. apply connected_mono. intros x Hx. apply elem_of_app. by left. }
  destruct ts as [|t0 ts0] eqn:Ets.
  { rewrite union_nil. split; [done|intros t; by apply Hmono|]. intros a b H. apply Hc. revert H. apply rtc_subrel.
    intros x y (l & [Hl| ->%list_elem_of_singleton]%elem_of_app & Hx & Hy); [by exists l|by apply not_elem_of_nil in Hx]. }
  rewrite <-Ets in *. assert (t0 ∈ ts) as Ht0 by (rewrite Ets; left). clear ts0 Ets.
  destruct (union_root p ts t0 Hwf Ht0) as (m & Hm & Hwu & Hroot).
  assert (∀ x, x ∈ root_of p <$> ts → connected (tss ++ [ts]) x m) as Hlink.
  { intros x Hx. apply list_elem_of_fmap in Hx as (a & -> & Ha). apply list_elem_of_fmap in Hm as (b & -> & Hb).
    etrans; [apply connected_sym, Hmono, Hs|]. etrans; [|apply Hmono, Hs]. apply rtc_once. exists ts. split_and!; [|done|done].
    apply elem_of_app. right. by apply list_elem_of_singleton. }
  split; [done| |].
  - intros t. rewrite Hroot. case_decide as Hd; [|by apply Hmono]. etrans; [apply Hmono, Hs|]. by apply Hlink.
  - induction 1 as [|a b c (l & Hl & Ha & Hb) _ IH]; [done|]. rewrite <-IH, !Hroot. apply elem_of_app in Hl as [Hl| ->%list_elem_of_singleton].
    + assert (root_of p a = root_of p b) as -> by (apply Hc, rtc_once; by exists l). done.
    + rewrite !decide_True; [done|by apply list_elem_of_fmap_2..].
Qed.
Lemma classes_of_unions tss : classes_of tss (unions tss).
Proof.
  induction tss as [|ts tss IH] using rev_ind.
  - split; [by split| |].
    + intros t. rewrite root_unfold by by split. change (unions []) with (∅ : classes). unfold parent_of. rewrite lookup_empty. cbn. by rewrite decide_True.
    + induction 1 as [|a b c (l & Hl & _) _ _]; [done|]. by apply not_elem_of_nil in Hl.
  - unfold unions in *. rewrite foldl_app. by apply classes_of_union.
Qed.

(** The root of a token is the least token connected with it. *)
Lemma find_least tss t : connected tss t (root_of (unions tss) t) ∧ ∀ t', connected tss t t' → str_leb (root_of (unions tss) t) t' = true.
Proof.
  destruct (classes_of_unions tss) as [Hwf Hs Hc]. split; [done|]. intros t' H. rewrite (Hc _ _ H). by apply root_le.
Qed.
Lemma find_connected tss a b : root_of (unions tss) a = root_of (unions tss) b ↔ connected tss a b.
Proof.
  destruct (classes_of_unions tss) as [Hwf Hs Hc]. split; [|apply Hc]. intros H. etrans; [apply Hs|]. rewrite H. apply connected_sym, Hs.
Qed.
