(* ===== verification/DiskAccounting.v ===== *)
(** * Disk retention accounting

    [src/app/services/inventory_accounting.py], with the name normalization of
    [src/app/services/parsers.py] it calls: which identity tokens a disk record and a
    rendered slot have, which records are one logical disk, and the totals that say
    whether every source disk reached the rendered view.

    A field that is missing or not a text is [None].  The order in which Python
    iterates over a [frozenset] is the class [SetOrder]. *)

From S2P Require Import Prelude.
From S2P Require Import PyStr.
From S2P Require Import PyVal.
From S2P Require Import Regex.
From S2P Require Import UnionFind.
From Stdlib Require Import String Ascii.
#[local] Open Scope string_scope.
#[local] Open Scope Z_scope.
#[local] Open Scope list_scope.

(** ** Names *)

(** [normalize_text] of [config.py] *)
Definition normalize_text (value : option string) : option string :=
  match value with
  | None => None
  | Some s => let normalized := py_strip s in if (normalized =? "")%string then None else Some normalized
  end.
(** [_clean] *)
Definition clean (value : option string) : option string := py_lower <$> normalize_text value.

Definition GEOM_LABEL_NAMESPACES : list string :=
  ["gptid/"; "gpt/"; "diskid/"; "label/"; "ufsid/"; "ufs/"; "msdosfs/"; "ntfs/"; "ext2fs/"; "iso9660/"]%string.
Definition bare_path (value : string) : string := py_removeprefix (py_strip value) "/dev/".
Definition is_geom_label_path (value : string) : bool :=
  existsb (py_startswith (py_lower (bare_path value))) GEOM_LABEL_NAMESPACES.

(** [DEVICE_NAME_REGEX]: the pattern after its lookbehind, which [search_name] tests *)
Definition DEVICE_NAME_REGEX : regex :=
  RGroup "device" (seq [ROpt (lit_i "/dev/");
    RAlt (seq [RAlt (lit_i "da") (RAlt (lit_i "ada") (RAlt (lit_i "sd") (lit_i "nvd"))); plus is_decimal])
    (RAlt (seq [lit_i "nvme"; plus is_decimal; ROpt (RSeq (lit_i "n") (plus is_decimal))])
          (seq [lit_i "multipath/disk"; plus (λ c, is_alnum_ascii c || char_is "-"%char c)]));
    ROpt (RSeq (lit_i "p") (plus is_decimal))])%list.
Fixpoint search_name (r : regex) (inside : bool) (l : list ascii) : option captures :=
  match (if inside then None else re_match_l r l) with
  | Some m => Some m
  | None => match l with c :: l' => search_name r (is_alnum_ascii c) l' | [] => None end
  end.
(** [re.sub(r"(p\d+)$", "", text, flags=re.IGNORECASE)] *)
Fixpoint drop_partition (l : list ascii) : list ascii :=
  match re_match_l (seq [lit_i "p"; plus is_decimal; RDollar]) l with
  | Some _ => []
  | None => match l with c :: l' => c :: drop_partition l' | [] => [] end
  end.
Definition normalize_device_name (value : string) : option string :=
  if (value =? "")%string then None
  else if is_geom_label_path value then Some (bare_path value)
  else match search_name DEVICE_NAME_REGEX false (chars value) with
       | None => Some (bare_path value)
       | Some m => Some (text (drop_partition (chars (py_removeprefix (group_text "device" m) "/dev/"))))
       end.
Definition GPTID_REGEX : regex :=
  RGroup "gptid" (seq [ROpt (lit_i "/dev/"); lit_i "gptid/"; plus (λ c, is_alnum_ascii c || one_of "-_." c)]).
Definition normalize_gptid (value : string) : option string :=
  if (value =? "")%string then None
  else match re_search GPTID_REGEX value with
       | None => Some (bare_path value)
       | Some m => Some (py_removeprefix (group_text "gptid" m) "/dev/")
       end.

(** [_BARE_DEVICE_MAPPER_NAME.match] *)
Definition is_bare_device_mapper (value : string) : bool :=
  bool_decide (is_Some (re_match (seq [ROpt (lit_i "/dev/"); lit_i "dm-"; plus is_decimal; RDollar]) value)).

(** ** Tokens *)

Class SetOrder := set_order : list token → list token.
Class SetOrderLaws (SO : SetOrder) : Prop := set_order_perm : ∀ l, set_order l ≡ₚ l.

Record disk_record := mkDisk {
  d_serial : option string; d_lunid : option string; d_identifier : option string; d_device_name : option string;
  d_path_device_name : option string; d_multipath_name : option string; d_multipath_member : option string;
  d_smart_devices : list (option string);
}.
Record multipath_view := mkMultipath {
  m_name : option string; m_device_name : option string; m_path_device_name : option string;
  m_alternate_path_device : option string; m_members : list (option string);
}.
Record slot_view := mkSlot {
  s_serial : option string; s_logical_unit_id : option string; s_gptid : option string; s_device_name : option string;
  s_smart_device_names : list (option string); s_multipath : option multipath_view;
}.

Section accounting.
Context {SO : SetOrder}.

Definition frozenset (l : list token) : list token := set_order (remove_dups l).
Definition prefixed (prefix : string) (o : option string) : list token :=
  match o with Some s => [prefix +:+ s] | None => [] end.
(** [(normalized or value).lower()] *)
Definition normalized_or (normalized : option string) (value : string) : string :=
  py_lower (match normalized with Some s => if (s =? "")%string then value else s | None => value end).
Definition gptid_tokens (gptid : option string) : list token :=
  match clean gptid with
  | Some v => if is_bare_device_mapper v then [] else ["gptid:" +:+ normalized_or (normalize_gptid v) v]
  | None => []
  end.
Definition device_tokens (device : option string) : list token :=
  match clean device with
  | Some v => if is_bare_device_mapper v then [] else ["dev:" +:+ normalized_or (normalize_device_name v) v]
  | None => []
  end.
Definition logical_disk_identity_tokens (serial logical_unit_id gptid : option string) (device_names : list (option string)) : list token :=
  frozenset (prefixed "serial:" (clean serial) ++ prefixed "lun:" (clean logical_unit_id) ++ gptid_tokens gptid
    ++ (device_names ≫= device_tokens)).

Definition multipath_names (slot : slot_view) : list (option string) :=
  match s_multipath slot with
  | None => []
  | Some m => [m_name m; m_device_name m; m_path_device_name m; m_alternate_path_device m] ++ m_members m
  end.
Definition slot_identity_tokens (slot : slot_view) : list token :=
  logical_disk_identity_tokens (s_serial slot) (s_logical_unit_id slot) (s_gptid slot)
    (s_device_name slot :: s_smart_device_names slot ++ multipath_names slot).
Definition disk_record_identity_tokens (disk : disk_record) : list token :=
  logical_disk_identity_tokens (d_serial disk) (d_lunid disk) (d_identifier disk)
    ([d_device_name disk; d_path_device_name disk; d_multipath_name disk; d_multipath_member disk] ++ d_smart_devices disk).

(** [token[n:]] *)
Definition py_drop (n : nat) (s : string) : string := text (drop n (chars s)).
Definition scope_node_local_tokens (tokens : list token) (scope : option string) : list token :=
  match scope with
  | None => tokens
  | Some scope =>
      let device_values := py_drop 4 <$> List.filter (λ t, py_startswith t "dev:") tokens in
      let node_local t := py_startswith t "dev:" || py_startswith t "gptid:" && bool_decide (py_drop 6 t ∈ device_values) in
      frozenset ((λ t, if node_local t then "node[" +:+ scope +:+ "]/" +:+ t else t) <$> tokens)
  end.

(** ** Logical disks *)

(** A dict of sets, built by [setdefault(key, set()).add(value)] *)
Definition multimap (l : list (token * token)) : gmap token (gset token) :=
  foldr (λ kv m, <[kv.1 := {[kv.2]} ∪ default ∅ (m !! kv.1)]> m) ∅ l.
Definition members (m : gmap token (gset token)) (k : token) : gset token := default ∅ (m !! k).
Definition several (s : gset token) : bool := Nat.ltb 1 (size s).

Definition is_serial (t : token) : bool := py_startswith t "serial:".
Definition is_lun (t : token) : bool := py_startswith t "lun:".
(** [startswith(_STABLE_PREFIXES)] *)
Definition is_stable (t : token) : bool := is_serial t || is_lun t.
Definition stable_tokens (ts : list token) : list token := List.filter is_stable ts.

(** A LUN id that comes with two serials becomes a name like any other. *)
Definition lun_serials (tss : list (list token)) : gmap token (gset token) :=
  multimap (tss ≫= λ ts, List.filter is_lun ts ≫= λ lun, (λ serial, (lun, serial)) <$> List.filter is_serial ts).
Definition is_shared (tss : list (list token)) (t : token) : bool := several (members (lun_serials tss) t).
Definition unshare (tss : list (list token)) : list (list token) :=
  if existsb (λ ts, existsb (is_shared tss) ts) tss
  then (λ ts, frozenset ((λ t, if is_shared tss t then "shared-" +:+ t else t) <$> ts)) <$> tss
  else tss.

(** [_identity_classes], on token sets without shared LUN ids *)
Section classes.
Context (tss : list (list token)).

Definition stable : classes := unions (stable_tokens <$> tss).
Definition components : classes := unions tss.
(** [carriers]: the stable classes of a kind, per component *)
Definition carriers (kind : token → bool) : gmap token (gset token) :=
  multimap (tss ≫= λ ts, (λ t, (root_of components t, root_of stable t)) <$> List.filter kind ts).
Definition conflicting (component : token) : bool :=
  several (members (carriers is_serial) component) || several (members (carriers is_lun) component).
(** The records of a conflicting component, with and without a stable identity *)
Definition in_conflict (ts : list token) : bool :=
  match ts with t :: _ => conflicting (root_of components t) | [] => false end.
Definition nameless (ts : list token) : bool := match stable_tokens ts with [] => true | _ => false end.
Definition names : classes := unions (List.filter (λ ts, in_conflict ts && nameless ts) tss).
Definition attached : list (token * token) :=
  List.filter in_conflict tss ≫= λ ts,
    match stable_tokens ts with
    | own :: _ => (λ t, (t, root_of stable own)) <$> List.filter (λ t, negb (is_stable t)) ts
    | [] => []
    end.
Definition attached_by_group : gmap token (gset token) :=
  multimap ((λ tr : token * token, (root_of names tr.1, tr.2)) <$> attached).

Definition identity_class (ts : list token) : option string :=
  match ts with
  | [] => None
  | t :: _ =>
      let component := root_of components t in
      if negb (conflicting component) then Some ("disk:" +:+ component)
      else match stable_tokens ts with
           | own :: _ => Some ("stable:" +:+ root_of stable own)
           | [] =>
               let group := root_of names t in
               match elements (members attached_by_group group) with
               | [root] => Some ("stable:" +:+ root)
               | [] => Some ("names:" +:+ group)
               | _ => None
               end
           end
  end.
End classes.
Definition identity_classes (token_sets : list (list token)) : list (option string) :=
  let tss := unshare token_sets in identity_class tss <$> tss.

(** ** Totals *)

Record DiskRetentionAccounting := mkAccounting {
  source_disk_count : Z;
  rendered_unique_disk_count : Z;
  duplicate_disk_view_count : Z;
  unplaced_disk_count : Z;
  bare_device_mapper_unplaced_count : Z;
}.

Definition len {A} (l : list A) : Z := Z.of_nat (List.length l).
(** A record whose names are bare device-mapper minors *)
Definition has_bare_name (disk : disk_record) : bool :=
  existsb (λ o, match clean o with Some v => is_bare_device_mapper v | None => false end)
    ([d_identifier disk; d_device_name disk; d_path_device_name disk; d_multipath_name disk; d_multipath_member disk] ++ d_smart_devices disk).
Definition is_placed (rendered_classes : list string) (identity : option string) : bool :=
  match identity with Some c => bool_decide (c ∈ rendered_classes) | None => false end.

Definition source_tokens (disks : list (disk_record * option string)) : list (list token) :=
  (λ ds, scope_node_local_tokens (disk_record_identity_tokens ds.1) ds.2) <$> disks.
Definition rendered_tokens (slots : list (slot_view * option string)) : list (list token) :=
  List.filter (λ ts, match ts with [] => false | _ => true end)
    ((λ ss, scope_node_local_tokens (slot_identity_tokens ss.1) ss.2) <$> slots).
(** [build_disk_retention_accounting]: each record and slot with its scope, [None] when
    no scopes are given.  [None] as a result: the [ValueError] of scopes of another
    length. *)
Definition zip_scopes {A} (l : list A) (scopes : option (list (option string))) : option (list (A * option string)) :=
  let scopes := default (repeat None (List.length l)) scopes in
  if Nat.eqb (List.length scopes) (List.length l) then Some (zip l scopes) else None.
Definition account (disks : list (disk_record * option string)) (slots : list (slot_view * option string)) : DiskRetentionAccounting :=
  let sources := source_tokens disks in
  let identities := identity_classes (sources ++ rendered_tokens slots) in
  let source_identities := take (List.length sources) identities in
  let rendered := omap id (drop (List.length sources) identities) in
  let rendered_classes := remove_dups rendered in
  let unplaced := List.filter (λ d : (disk_record * option string) * (list token * option string), negb (is_placed rendered_classes d.2.2))
                    (zip disks (zip sources source_identities)) in
  let bare := List.filter (λ d : (disk_record * option string) * (list token * option string),
                 match d.2.1 with [] => has_bare_name d.1.1 | _ => false end) unplaced in
  mkAccounting (len sources) (len rendered_classes) (len rendered - len rendered_classes) (len unplaced) (len bare).
Definition build_disk_retention_accounting (source_disks : list disk_record) (slots : list slot_view)
    (source_scopes slot_scopes : option (list (option string))) : option DiskRetentionAccounting :=
  match zip_scopes source_disks source_scopes, zip_scopes slots slot_scopes with
  | Some disks, Some slots => Some (account disks slots)
  | _, _ => None
  end.
End accounting.
