(* ===== verification/DiskAccountingProofs.v ===== *)
(** * Disk retention accounting: correctness

    Which records are one disk ([serial_decides_disk], [names_decide_disk]), that the
    answer depends on no order ([accounting_order_irrelevant]), and what the totals
    say ([retention_accounting_exact]). *)

From S2P Require Import Prelude.
From S2P Require Import PyStr.
From S2P Require Import PyVal.
From S2P Require Import Regex.
From S2P Require Import UnionFind.
From S2P Require Import DiskAccounting.
From Stdlib Require Import String Ascii.
#[local] Open Scope nat_scope.
#[local] Open Scope list_scope.

(** ** Dicts of sets *)

Lemma elem_of_members l k v : v ∈ members (multimap l) k ↔ (k, v) ∈ l.
Proof.
  unfold members. induction l as [|[k' v'] l IH].
  - change (multimap []) with (∅ : gmap token (gset token)). rewrite lookup_empty. cbn. set_solver.
  - change (multimap ((k', v') :: l)) with (<[k' := {[v']} ∪ default ∅ (multimap l !! k')]> (multimap l)).
    rewrite elem_of_cons, <-IH. destruct (decide (k' = k)) as [->|Hk].
    + rewrite lookup_insert_eq. cbn. rewrite elem_of_union, elem_of_singleton.
      split; [intros [->|?]; auto|intros [[= ->]|?]; auto].
    + rewrite lookup_insert_ne by done. split; [auto|]. by intros [[= -> ->]|?].
Qed.
Lemma several_spec s : several s = true ↔ ∃ x y : token, x ∈ s ∧ y ∈ s ∧ x ≠ y.
Proof.
  unfold several. rewrite Nat.ltb_lt. split.
  - intros H. destruct (elements s) as [|x [|y l]] eqn:E.
    + apply (f_equal List.length) in E. change (size s = 0) in E. lia.
    + apply (f_equal List.length) in E. change (size s = 1) in E. lia.
    + exists x, y. rewrite <-!elem_of_elements, E. split_and!; [left|right; left|].
      intros ->. pose proof (NoDup_elements s) as Hn. rewrite E in Hn. apply NoDup_cons in Hn as [Hn _]. apply Hn. left.
  - intros (x & y & Hx & Hy & Hxy). assert ({[x; y]} ⊆ s) as Hs%subseteq_size by set_solver.
    rewrite size_union, !size_singleton in Hs by set_solver. lia.
Qed.
Lemma several_ext (s s' : gset token) : (∀ x, x ∈ s ↔ x ∈ s') → several s = several s'.
Proof. intros H. by replace s' with s by by apply set_eq. Qed.

Section accounting_proofs.
Context {SO : SetOrder} {SL : SetOrderLaws SO}.

Lemma elem_of_frozenset t l : t ∈ frozenset l ↔ t ∈ l.
Proof. unfold frozenset. by rewrite set_order_perm, elem_of_remove_dups. Qed.
Lemma stable_elem t ts : t ∈ stable_tokens ts ↔ t ∈ ts ∧ is_stable t = true.
Proof. apply elem_of_filter_list. Qed.

(** ** One serial, one LUN id *)

(** What every record's tokens satisfy *)
Definition single (kind : token → bool) (ts : list token) : Prop :=
  ∀ t t', t ∈ ts → t' ∈ ts → kind t = true → kind t' = true → t = t'.
Definition stable_once (ts : list token) : Prop := single is_serial ts ∧ single is_lun ts.

Lemma prefix_neq (p q t : string) : py_startswith t p = true → py_startswith t q = true →
  prefix_l (chars p) (chars q) = false → prefix_l (chars q) (chars p) = false → False.
Proof.
  unfold py_startswith. generalize (chars p) (chars q) (chars t). clear p q t.
  induction l as [|a l IH]; intros [|b l'] [|c l'']; cbn; try done.
  intros [->%Ascii.eqb_eq H2]%andb_true_iff [->%Ascii.eqb_eq H4]%andb_true_iff. rewrite !Ascii.eqb_refl. cbn. exact (IH _ _ H2 H4).
Qed.
Ltac prefix_clash :=
  match goal with
  | H : py_startswith ?t ?p = true, H' : py_startswith ?t ?q = true |- _ => exfalso; exact (prefix_neq p q t H H' eq_refl eq_refl)
  end.
Lemma serial_not_lun t : is_serial t = true → is_lun t = true → False.
Proof. unfold is_serial, is_lun. intros. prefix_clash. Qed.
Lemma is_serial_stable t : is_serial t = true → is_stable t = true.
Proof. unfold is_stable. by intros ->. Qed.
Lemma is_lun_stable t : is_lun t = true → is_stable t = true.
Proof. unfold is_stable. intros ->. by rewrite orb_true_r. Qed.
#[local] Hint Resolve is_serial_stable is_lun_stable : py.

Lemma elem_of_prefixed p o t : t ∈ prefixed p o ↔ ∃ v, o = Some v ∧ t = p +:+ v.
Proof.
  destruct o as [v|]; cbn; [rewrite list_elem_of_singleton|rewrite elem_of_nil]; naive_solver.
Qed.
Lemma device_tokens_elem o t : t ∈ device_tokens o → ∃ v, t = "dev:" +:+ v.
Proof.
  unfold device_tokens. destruct (clean o) as [v|]; [|by intros ?%elem_of_nil]. destruct (is_bare_device_mapper v); [by intros ?%elem_of_nil|].
  intros ->%list_elem_of_singleton. eauto.
Qed.
Lemma gptid_tokens_elem o t : t ∈ gptid_tokens o → ∃ v, t = "gptid:" +:+ v.
Proof.
  unfold gptid_tokens. destruct (clean o) as [v|]; [|by intros ?%elem_of_nil]. destruct (is_bare_device_mapper v); [by intros ?%elem_of_nil|].
  intros ->%list_elem_of_singleton. eauto.
Qed.
(** The stable tokens of a record *)
Lemma logical_tokens_stable serial lun gptid names t : is_stable t = true →
  t ∈ logical_disk_identity_tokens serial lun gptid names ↔ t ∈ prefixed "serial:" (clean serial) ∨ t ∈ prefixed "lun:" (clean lun).
Proof.
  intros Hs. unfold logical_disk_identity_tokens. rewrite elem_of_frozenset, !elem_of_app. split; [|tauto].
  intros [?|[?|[(v & ->)%gptid_tokens_elem|(o & (v & ->)%device_tokens_elem & _)%list_elem_of_bind]]]; [tauto..|by cbv in Hs|by cbv in Hs].
Qed.
Lemma logical_tokens_serial serial lun gptid names t : is_serial t = true →
  t ∈ logical_disk_identity_tokens serial lun gptid names ↔ ∃ v, clean serial = Some v ∧ t = "serial:" +:+ v.
Proof.
  intros Ht. rewrite logical_tokens_stable by auto with py. rewrite !elem_of_prefixed. split; [|tauto].
  intros [?|(v & _ & ->)]; [done|by cbv in Ht].
Qed.
Lemma logical_tokens_lun serial lun gptid names t : is_lun t = true →
  t ∈ logical_disk_identity_tokens serial lun gptid names ↔ ∃ v, clean lun = Some v ∧ t = "lun:" +:+ v.
Proof.
  intros Ht. rewrite logical_tokens_stable by auto with py. rewrite !elem_of_prefixed. split; [|tauto].
  intros [(v & _ & ->)|?]; [by cbv in Ht|done].
Qed.
Lemma scoped_stable tokens scope t : is_stable t = true → t ∈ scope_node_local_tokens tokens scope ↔ t ∈ tokens.
Proof.
  intros Hs. destruct scope as [scope|]; [|done]. unfold scope_node_local_tokens. cbv zeta.
  generalize (py_drop 4 <$> List.filter (λ t, py_startswith t "dev:") tokens). intros dev. rewrite elem_of_frozenset, list_elem_of_fmap. split.
  - intros (t0 & -> & Ht0). revert Hs. destruct (_ || _); [|done]. intros Hs. by cbv in Hs.
  - intros Ht. exists t. split; [|done].
    destruct (py_startswith t "dev:") eqn:E1, (py_startswith t "gptid:") eqn:E2; cbn; [..|done];
      apply orb_true_iff in Hs as [?|?]; unfold is_serial, is_lun in *; prefix_clash.
Qed.

(** ** Shared LUN ids *)

Lemma elem_of_lun_serials tss lun serial : serial ∈ members (lun_serials tss) lun ↔
  ∃ ts, ts ∈ tss ∧ lun ∈ ts ∧ serial ∈ ts ∧ is_lun lun = true ∧ is_serial serial = true.
Proof.
  unfold lun_serials. rewrite elem_of_members, list_elem_of_bind. split.
  - intros (ts & (l & Hin & [Hl Hl']%elem_of_filter_list)%list_elem_of_bind & Hts). apply list_elem_of_fmap in Hin as (s & [= -> ->] & [Hs Hs']%elem_of_filter_list).
    by exists ts.
  - intros (ts & Hts & Hl & Hs & Hl' & Hs'). exists ts. split; [|done]. apply list_elem_of_bind. exists lun. split; [|by apply elem_of_filter_list].
    apply list_elem_of_fmap_2, elem_of_filter_list. done.
Qed.
Lemma shared_is_lun tss t : is_shared tss t = true → is_lun t = true.
Proof. unfold is_shared. intros (x & y & Hx & _)%several_spec. by apply elem_of_lun_serials in Hx as (? & ? & ? & ? & ? & ?). Qed.

(** [unshare] on one token set *)
Definition unshared (tss : list (list token)) (ts ts' : list token) : Prop :=
  ∀ t, t ∈ ts' ↔ t ∈ (λ t, if is_shared tss t then "shared-" +:+ t else t) <$> ts.
Definition unshare_one (tss : list (list token)) (ts : list token) : list token :=
  if existsb (λ ts, existsb (is_shared tss) ts) tss
  then frozenset ((λ t, if is_shared tss t then "shared-" +:+ t else t) <$> ts)%string else ts.
Lemma unshare_fmap tss : unshare tss = unshare_one tss <$> tss.
Proof. unfold unshare, unshare_one. destruct (existsb _ tss); [done|]. by rewrite list_fmap_id. Qed.
Lemma unshare_one_spec tss ts : ts ∈ tss → unshared tss ts (unshare_one tss ts).
Proof.
  intros Hts t. unfold unshare_one. destruct (existsb _ tss) eqn:E; [apply elem_of_frozenset|].
  assert (∀ t, t ∈ ts → is_shared tss t = false) as Hns.
  { intros x Hx. destruct (is_shared tss x) eqn:Ex; [|done]. rewrite <-E. symmetry. apply existsb_exists. exists ts.
    split; [by apply list_elem_of_In|]. apply existsb_exists. exists x. by rewrite <-list_elem_of_In. }
  rewrite list_elem_of_fmap. split; [intros Ht; exists t; by rewrite Hns|]. intros (x & -> & Hx). by rewrite Hns.
Qed.
Lemma unshared_stable tss ts ts' t : unshared tss ts ts' → is_stable t = true → t ∈ ts' ↔ t ∈ ts ∧ is_shared tss t = false.
Proof.
  intros H Hs. rewrite (H t), list_elem_of_fmap. split.
  - intros (x & -> & Hx). destruct (is_shared tss x) eqn:E; [by cbv in Hs|done].
  - intros [Ht E]. exists t. by rewrite E.
Qed.

(** Token sets that [_identity_classes] works on: at most one serial and one LUN id
    each, and a LUN id comes with one serial only. *)
Record coherent (tss : list (list token)) : Prop := {
  coherent_once : ∀ ts, ts ∈ tss → stable_once ts;
  coherent_lun : ∀ lun ts ts' s s', ts ∈ tss → ts' ∈ tss → is_lun lun = true → lun ∈ ts → lun ∈ ts' →
    is_serial s = true → is_serial s' = true → s ∈ ts → s' ∈ ts' → s = s';
}.
Lemma unshare_coherent tss : Forall stable_once tss → coherent (unshare tss).
Proof.
  intros Ho. rewrite Forall_forall in Ho.
  assert (∀ ts', ts' ∈ unshare tss → ∃ ts, ts ∈ tss ∧ unshared tss ts ts') as Hun.
  { intros ts'. rewrite unshare_fmap, list_elem_of_fmap. intros (ts & -> & Hts). exists ts. split; [done|by apply unshare_one_spec]. }
  split.
  - intros ts' (ts & Hts & Hu)%Hun. destruct (Ho ts Hts) as [H1 H2]. split; intros t t' Ht Ht' Hk Hk'; revert Ht Ht';
      rewrite !(unshared_stable tss ts ts') by auto with py; intros [??] [??]; auto.
  - intros lun ts1' ts2' s s' (ts1 & Hts1 & Hu1)%Hun (ts2 & Hts2 & Hu2)%Hun Hlun H1 H2 Hs Hs' Hs1 Hs2. revert H1 H2 Hs1 Hs2.
    rewrite !(unshared_stable tss ts1 ts1'), !(unshared_stable tss ts2 ts2') by auto with py. intros [H1 Hn] [H2 _] [Hs1 _] [Hs2 _].
    destruct (decide (s = s')) as [|Hne]; [done|]. enough (is_shared tss lun = true) by congruence. apply several_spec.
    exists s, s'. rewrite !elem_of_lun_serials. split_and!; [by exists ts1|by exists ts2|done].
Qed.
End accounting_proofs.

(** ** Classes *)

#[local] Hint Resolve is_serial_stable is_lun_stable : py.

Lemma root_of_linked tss ts a b : ts ∈ tss → a ∈ ts → b ∈ ts → root_of (unions tss) a = root_of (unions tss) b.
Proof. intros. apply find_connected, rtc_once. by exists ts. Qed.

Section classes_proofs.
Context (tss : list (list token)).
#[local] Notation component := (root_of (components tss)).
#[local] Notation stable_root := (root_of (stable tss)).

Lemma component_linked ts a b : ts ∈ tss → a ∈ ts → b ∈ ts → component a = component b.
Proof. apply root_of_linked. Qed.
Lemma stable_linked ts a b : ts ∈ tss → a ∈ ts → b ∈ ts → is_stable a = true → is_stable b = true → stable_root a = stable_root b.
Proof.
  intros. apply (root_of_linked _ (stable_tokens ts)); [by apply list_elem_of_fmap_2|by apply stable_elem..].
Qed.
Lemma stable_tokens_nil ts : stable_tokens ts = [] ↔ ∀ t, t ∈ ts → is_stable t = false.
Proof.
  split.
  - intros E t Ht. destruct (is_stable t) eqn:Es; [|done]. assert (t ∈ stable_tokens ts) as H by by apply stable_elem.
    rewrite E in H. by apply elem_of_nil in H.
  - intros H. apply filter_none, Forall_forall. exact H.
Qed.
Lemma in_conflict_of ts t : ts ∈ tss → t ∈ ts → in_conflict tss ts = conflicting tss (component t).
Proof.
  intros Hts Ht. destruct ts as [|t0 l]; [by apply elem_of_nil in Ht|]. cbn. f_equal.
  apply (component_linked (t0 :: l)); [done|left|done].
Qed.
Lemma identity_class_disk ts t : ts ∈ tss → t ∈ ts → conflicting tss (component t) = false →
  identity_class tss ts = Some ("disk:" +:+ component t)%string.
Proof.
  intros Hts Ht Hc. destruct ts as [|t0 l]; [by apply elem_of_nil in Ht|]. unfold identity_class.
  rewrite (component_linked (t0 :: l) t0 t) by (done || left). by rewrite Hc.
Qed.
Lemma identity_class_stable ts t : ts ∈ tss → t ∈ ts → is_stable t = true →
  identity_class tss ts = Some (if conflicting tss (component t) then "stable:" +:+ stable_root t else "disk:" +:+ component t)%string.
Proof.
  intros Hts Ht Hs. destruct (conflicting tss (component t)) eqn:Hc; [|by apply identity_class_disk].
  destruct (stable_tokens ts) as [|own os] eqn:Eo; [rewrite stable_tokens_nil in Eo; rewrite Eo in Hs; done|].
  assert (own ∈ stable_tokens ts) as [Ho Hos]%stable_elem by (rewrite Eo; left).
  destruct ts as [|t0 l]; [by apply elem_of_nil in Ht|]. unfold identity_class.
  rewrite (component_linked (t0 :: l) t0 t) by (done || left). rewrite Hc, Eo. cbn. do 2 f_equal. by apply (stable_linked (t0 :: l)).
Qed.
(** In a component without a conflict a class is the tokens connected with it. *)
Lemma identity_class_connected ts ts' t t' : ts ∈ tss → ts' ∈ tss → t ∈ ts → t' ∈ ts' → conflicting tss (component t) = false →
  identity_class tss ts = identity_class tss ts' ↔ connected tss t t'.
Proof.
  intros Hts Hts' Ht Ht' Hc. rewrite <-find_connected. fold (components tss). rewrite (identity_class_disk ts t) by done. split.
  - destruct (conflicting tss (component t')) eqn:Hc'.
    + destruct ts' as [|t0 l] eqn:E; [by apply elem_of_nil in Ht'|]. unfold identity_class.
      rewrite (component_linked (t0 :: l) t0 t') by (done || left). rewrite Hc'. cbn [negb].
      destruct (stable_tokens _); [|done]. by destruct (elements _) as [|? [|]].
    + rewrite (identity_class_disk ts' t') by done. by intros [= ?].
  - intros E. rewrite (identity_class_disk ts' t') by (done || by rewrite <-E). by rewrite E.
Qed.

(** A stable class holds one serial at most. *)
Lemma stable_connected_serial s t : coherent tss → is_serial s = true → connected (stable_tokens <$> tss) s t →
  t = s ∨ is_lun t = true ∧ ∃ ts, ts ∈ tss ∧ t ∈ ts ∧ s ∈ ts.
Proof.
  intros [Honce Hlun] Hs. revert t. refine (rtc_ind_r _ s _ _); [by left|].
  intros a b _ (ts' & (ts & -> & Hts)%list_elem_of_fmap & [Ha Has]%stable_elem & [Hb Hbs]%stable_elem) IH. destruct (Honce ts Hts) as [H1 H2].
  apply orb_true_iff in Hbs as [Hb'|Hb'].
  - left. destruct IH as [->|(Hal & ts0 & Hts0 & Ha0 & Hs0)]; [by apply H1|]. by apply (Hlun a ts ts0).
  - right. split; [done|]. destruct IH as [->|(Hal & ts0 & Hts0 & Ha0 & Hs0)]; [by exists ts|]. assert (b = a) as -> by by apply H2. by exists ts0.
Qed.
Lemma identity_class_serial ts ts' s s' : coherent tss → ts ∈ tss → ts' ∈ tss → s ∈ ts → s' ∈ ts' → is_serial s = true → is_serial s' = true →
  identity_class tss ts = identity_class tss ts' ↔ s = s'.
Proof.
  intros Hco Hts Hts' Hs Hs' Hk Hk'. rewrite (identity_class_stable ts s), (identity_class_stable ts' s') by auto with py.
  split; [|by intros ->]. intros E. destruct (decide (s = s')) as [|Hne]; [done|]. exfalso.
  assert (stable_root s ≠ stable_root s') as Hr.
  { intros Er%find_connected. destruct (stable_connected_serial s s' Hco Hk Er) as [->|[Hl _]]; [done|]. by apply (serial_not_lun s'). }
  assert (component s = component s' → conflicting tss (component s) = true) as Hc.
  { intros Ec. apply orb_true_iff. left. apply several_spec. exists (stable_root s), (stable_root s').
    split_and!; [| |done]; apply elem_of_members, list_elem_of_bind.
    - exists ts. split; [|done]. apply list_elem_of_fmap. exists s. split; [done|]. by apply elem_of_filter_list.
    - exists ts'. split; [|done]. apply list_elem_of_fmap. exists s'. split; [by rewrite Ec|]. by apply elem_of_filter_list. }
  destruct (conflicting tss (component s)) eqn:C1, (conflicting tss (component s')) eqn:C2; injection E as E; try done. by apply Hc in E.
Qed.
End classes_proofs.

(** ** Order *)

Definition same_tokens (ts ts' : list token) : Prop := ∀ t, t ∈ ts ↔ t ∈ ts'.
Definition covered (tss tss' : list (list token)) : Prop := ∀ ts, ts ∈ tss → ∃ ts', ts' ∈ tss' ∧ same_tokens ts ts'.
Definition same_sets (tss tss' : list (list token)) : Prop := covered tss tss' ∧ covered tss' tss.

Lemma same_tokens_refl ts : same_tokens ts ts.
Proof. done. Qed.
Lemma same_tokens_sym ts ts' : same_tokens ts ts' → same_tokens ts' ts.
Proof. intros H t. by rewrite (H t). Qed.
Lemma same_tokens_trans ts1 ts2 ts3 : same_tokens ts1 ts2 → same_tokens ts2 ts3 → same_tokens ts1 ts3.
Proof. intros H1 H2 t. by rewrite (H1 t), (H2 t). Qed.
Lemma same_sets_sym tss tss' : same_sets tss tss' → same_sets tss' tss.
Proof. intros [H1 H2]. by split. Qed.
Lemma perm_same_sets tss tss' : tss ≡ₚ tss' → same_sets tss tss'.
Proof. intros H. split; intros ts Hts; exists ts; (split; [|done]); [by rewrite <-H|by rewrite H]. Qed.

Lemma filter_same f ts ts' : same_tokens ts ts' → same_tokens (List.filter f ts) (List.filter f ts').
Proof. intros H t. by rewrite !elem_of_filter_list, (H t). Qed.
Lemma covered_connected tss tss' a b : covered tss tss' → connected tss a b → connected tss' a b.
Proof.
  intros H. apply rtc_subrel. intros x y (ts & Hts & Hx & Hy). destruct (H ts Hts) as (ts' & Hts' & Hs). exists ts'. by rewrite <-(Hs x), <-(Hs y).
Qed.
(** Union-find does not look at orders. *)
Lemma root_of_same tss tss' t : same_sets tss tss' → root_of (unions tss) t = root_of (unions tss') t.
Proof.
  intros [H1 H2]. destruct (find_least tss t) as [Hc Hl], (find_least tss' t) as [Hc' Hl'].
  apply str_leb_antisym; [by apply Hl, (covered_connected tss')|by apply Hl', (covered_connected tss)].
Qed.
Lemma stable_same tss tss' : same_sets tss tss' → same_sets (stable_tokens <$> tss) (stable_tokens <$> tss').
Proof.
  intros [H1 H2]. split; intros ? (ts & -> & Hts)%list_elem_of_fmap; [destruct (H1 ts Hts) as (ts' & ? & ?)|destruct (H2 ts Hts) as (ts' & ? & ?)];
    exists (stable_tokens ts'); (split; [by apply list_elem_of_fmap_2|by apply filter_same]).
Qed.
Lemma is_shared_same tss tss' t : same_sets tss tss' → is_shared tss t = is_shared tss' t.
Proof.
  intros [H1 H2]. apply several_ext. intros s. rewrite !elem_of_lun_serials. split; intros (ts & Hts & Ht & Hs & ? & ?);
    [destruct (H1 ts Hts) as (ts' & ? & E)|destruct (H2 ts Hts) as (ts' & ? & E)]; exists ts'; by rewrite <-(E t), <-(E s).
Qed.

Section order.
Context (tss tss' : list (list token)) (Hsame : same_sets tss tss').
#[local] Notation component := (root_of (components tss)).
#[local] Notation stable_root := (root_of (stable tss)).

Lemma component_same t : component t = root_of (components tss') t.
Proof. by apply root_of_same. Qed.
Lemma stable_root_same t : stable_root t = root_of (stable tss') t.
Proof. by apply root_of_same, stable_same. Qed.
Lemma elem_of_carriers kind c r uss : r ∈ members (carriers uss kind) c ↔
  ∃ ts t, ts ∈ uss ∧ t ∈ ts ∧ kind t = true ∧ c = root_of (components uss) t ∧ r = root_of (stable uss) t.
Proof.
  unfold carriers. rewrite elem_of_members, list_elem_of_bind. split.
  - intros (ts & (t & [= -> ->] & [Ht Hk]%elem_of_filter_list)%list_elem_of_fmap & Hts). by exists ts, t.
  - intros (ts & t & Hts & Ht & Hk & -> & ->). exists ts. split; [|done]. apply list_elem_of_fmap. exists t. split; [done|]. by apply elem_of_filter_list.
Qed.
Lemma conflicting_same c : conflicting tss c = conflicting tss' c.
Proof.
  destruct Hsame as [H1 H2]. unfold conflicting. f_equal; apply several_ext; intros r; rewrite !elem_of_carriers; split; intros (ts & t & Hts & Ht & Hk & -> & ->).
  all: try (destruct (H1 ts Hts) as (ts' & ? & E); exists ts', t; by rewrite <-(E t), component_same, stable_root_same).
  all: destruct (H2 ts Hts) as (ts' & ? & E); exists ts', t; by rewrite <-(E t), component_same, stable_root_same.
Qed.
End order.

Lemma stable_hd tss ts own os : stable_tokens ts = own :: os → ts ∈ tss →
  own ∈ ts ∧ is_stable own = true ∧ ∀ t, t ∈ ts → is_stable t = true → root_of (stable tss) own = root_of (stable tss) t.
Proof.
  intros E Hts. assert (own ∈ stable_tokens ts) as [Ho Hs]%stable_elem by (rewrite E; left). split_and!; [done..|].
  intros t Ht Hst. by apply (stable_linked tss ts).
Qed.
Lemma elem_of_attached_by_group tss g r : r ∈ members (attached_by_group tss) g ↔
  ∃ ts own t, ts ∈ tss ∧ in_conflict tss ts = true ∧ own ∈ ts ∧ is_stable own = true ∧ t ∈ ts ∧ is_stable t = false
    ∧ g = root_of (names tss) t ∧ r = root_of (stable tss) own.
Proof.
  unfold attached_by_group, attached. rewrite elem_of_members, list_elem_of_fmap. split.
  - intros ([t r'] & [= -> ->] & (ts & Hin & [Hts Hc]%elem_of_filter_list)%list_elem_of_bind).
    destruct (stable_tokens ts) as [|own os] eqn:E; [by apply elem_of_nil in Hin|]. apply list_elem_of_fmap in Hin as (t' & [= -> ->] & [Ht Hn]%elem_of_filter_list).
    destruct (stable_hd tss ts own os E Hts) as (? & ? & _). apply negb_true_iff in Hn. by exists ts, own, t'.
  - intros (ts & own & t & Hts & Hc & Ho & Hos & Ht & Hn & -> & ->). exists (t, root_of (stable tss) own). split; [done|].
    apply list_elem_of_bind. exists ts. split; [|by apply elem_of_filter_list].
    destruct (stable_tokens ts) as [|own' os] eqn:E; [rewrite stable_tokens_nil in E; by rewrite E in Hos|].
    destruct (stable_hd tss ts own' os E Hts) as (_ & _ & Hown). apply list_elem_of_fmap. exists t. split; [by rewrite <-(Hown own)|].
    apply elem_of_filter_list. by rewrite Hn.
Qed.
Lemma covered_filter f f' tss tss' : (∀ ts ts', ts ∈ tss → ts' ∈ tss' → same_tokens ts ts' → f ts = f' ts') → covered tss tss' →
  covered (List.filter f tss) (List.filter f' tss').
Proof.
  intros Hf H ts [Hts Hfts]%elem_of_filter_list. destruct (H ts Hts) as (ts' & Hts' & E). exists ts'. split; [|done].
  apply elem_of_filter_list. by rewrite <-(Hf ts ts').
Qed.
Lemma same_cons t l ts' : same_tokens (t :: l) ts' → t ∈ ts' ∧ ∃ t' l', ts' = t' :: l'.
Proof.
  intros H. assert (t ∈ ts') as Ht by (apply (H t); left). split; [done|]. destruct ts' as [|t' l']; [by apply elem_of_nil in Ht|eauto].
Qed.
Lemma same_nil ts' : same_tokens [] ts' → ts' = [].
Proof. destruct ts' as [|t l]; [done|]. intros H. assert (t ∈ []) as ?%elem_of_nil by (apply (H t); left). done. Qed.

Section order_classes.
Context (tss tss' : list (list token)) (Hsame : same_sets tss tss').

Lemma in_conflict_same ts ts' : ts ∈ tss → ts' ∈ tss' → same_tokens ts ts' → in_conflict tss ts = in_conflict tss' ts'.
Proof.
  intros Hts Hts' E. destruct ts as [|t l]; [by rewrite (same_nil ts' E)|]. destruct (same_cons t l ts' E) as [Ht _].
  rewrite (in_conflict_of tss (t :: l) t) by (done || left). rewrite (in_conflict_of tss' ts' t) by done.
  by rewrite (conflicting_same tss tss'), (component_same tss tss').
Qed.
Lemma nameless_same ts ts' : same_tokens ts ts' → nameless ts = nameless ts'.
Proof.
  intros E%(filter_same is_stable). fold (stable_tokens ts) (stable_tokens ts') in E. unfold nameless. destruct (stable_tokens ts) as [|t l].
  - by rewrite (same_nil _ E).
  - by destruct (same_cons _ _ _ E) as [_ (? & ? & ->)].
Qed.
Lemma names_covered : covered tss tss' →
  covered (List.filter (λ ts, in_conflict tss ts && nameless ts) tss) (List.filter (λ ts, in_conflict tss' ts && nameless ts) tss').
Proof. apply covered_filter. intros ts ts' Hts Hts' E. f_equal; [by apply in_conflict_same|by apply nameless_same]. Qed.
End order_classes.
Lemma names_same tss tss' t : same_sets tss tss' → root_of (names tss) t = root_of (names tss') t.
Proof. intros H. apply root_of_same. split; apply names_covered; [|apply H|by apply same_sets_sym|apply H]. done. Qed.
Lemma attached_sub tss tss' g r : same_sets tss tss' → r ∈ members (attached_by_group tss) g → r ∈ members (attached_by_group tss') g.
Proof.
  intros H. rewrite !elem_of_attached_by_group. intros (ts & own & t & Hts & Hc & Ho & Hos & Ht & Hn & -> & ->).
  destruct (proj1 H ts Hts) as (ts' & Hts' & E). exists ts', own, t.
  rewrite <-(E own), <-(E t), <-(in_conflict_same tss tss' H ts ts'), (names_same tss tss'), (stable_root_same tss tss') by done. done.
Qed.
Lemma attached_same tss tss' g : same_sets tss tss' → members (attached_by_group tss) g = members (attached_by_group tss') g.
Proof. intros H. apply set_eq. intros r. split; apply attached_sub; [done|by apply same_sets_sym]. Qed.

(** The class of a record depends on its set of tokens and on the sets of all records. *)
Lemma identity_class_same tss tss' ts ts' : same_sets tss tss' → ts ∈ tss → ts' ∈ tss' → same_tokens ts ts' →
  identity_class tss ts = identity_class tss' ts'.
Proof.
  intros H Hts Hts' E. destruct ts as [|t l] eqn:El; [by rewrite (same_nil ts' E)|]. rewrite <-El in *.
  assert (t ∈ ts) as Ht by (rewrite El; left). assert (t ∈ ts') as Ht' by by apply (E t).
  destruct (conflicting tss (root_of (components tss) t)) eqn:Hc.
  2: { rewrite (identity_class_disk tss ts t), (identity_class_disk tss' ts' t); try done; by rewrite <-?(conflicting_same tss tss'), <-(component_same tss tss'). }
  assert (conflicting tss' (root_of (components tss') t) = true) as Hc' by by rewrite <-(conflicting_same tss tss'), <-(component_same tss tss').
  destruct (stable_tokens ts) as [|own os] eqn:Eo.
  - assert (stable_tokens ts' = []) as Eo'.
    { apply same_nil. rewrite <-Eo. by apply filter_same. }
    destruct ts' as [|t' l']; [by apply elem_of_nil in Ht'|]. rewrite El in *. unfold identity_class.
    rewrite Hc, (component_linked tss' (t' :: l') t' t) by (done || left). rewrite Hc', Eo, Eo'. cbn [negb].
    assert (root_of (names tss') t' = root_of (names tss) t) as ->.
    { rewrite <-(names_same tss tss') by done. apply (root_of_linked _ (t :: l)); [|apply (E t'); left|left]. apply elem_of_filter_list.
      split; [done|]. unfold nameless. rewrite Eo, (in_conflict_of tss _ t) by done. by rewrite Hc. }
    by rewrite (attached_same tss tss').
  - destruct (stable_hd tss ts own os Eo Hts) as (Ho & Hos & _).
    rewrite (identity_class_stable tss ts own), (identity_class_stable tss' ts' own) by (done || by apply (E own)).
    by rewrite (conflicting_same tss tss'), (component_same tss tss'), (stable_root_same tss tss').
Qed.

(** ** The class of a record among all records *)

Definition class_of {SO : SetOrder} (tss : list (list token)) (ts : list token) : option string :=
  identity_class (unshare tss) (unshare_one tss ts).
Lemma identity_classes_fmap {SO : SetOrder} tss : identity_classes tss = class_of tss <$> tss.
Proof. unfold identity_classes, class_of. rewrite unshare_fmap at 2. by rewrite <-list_fmap_compose. Qed.
Lemma class_of_nil {SO : SetOrder} {SL : SetOrderLaws SO} tss : class_of tss [] = None.
Proof.
  unfold class_of, unshare_one. destruct (existsb _ tss); [|done].
  replace (frozenset _) with (@nil token); [done|]. symmetry. apply Permutation_nil. symmetry. apply set_order_perm.
Qed.
Lemma class_of_serial {SO : SetOrder} {SL : SetOrderLaws SO} tss ts ts' s s' : Forall stable_once tss → ts ∈ tss → ts' ∈ tss → s ∈ ts → s' ∈ ts' →
  is_serial s = true → is_serial s' = true → class_of tss ts = class_of tss ts' ↔ s = s'.
Proof.
  intros Ho Hts Hts' Hs Hs' Hk Hk'. unfold class_of.
  assert (∀ x, is_serial x = true → is_shared tss x = false) as Hns.
  { intros x Hx. destruct (is_shared tss x) eqn:E; [|done]. exfalso. by eapply serial_not_lun, shared_is_lun. }
  apply identity_class_serial; [by apply unshare_coherent|rewrite unshare_fmap; by apply list_elem_of_fmap_2..| | |done|done].
  - rewrite (unshared_stable tss ts) by auto using unshare_one_spec with py. auto.
  - rewrite (unshared_stable tss ts') by auto using unshare_one_spec with py. auto.
Qed.
Lemma class_of_some_serial {SO : SetOrder} {SL : SetOrderLaws SO} tss ts s : ts ∈ tss → s ∈ ts → is_serial s = true → is_Some (class_of tss ts).
Proof.
  intros Hts Hs Hk. unfold class_of. erewrite (identity_class_stable _ _ s); [by eexists|rewrite unshare_fmap; by apply list_elem_of_fmap_2| |by auto with py].
  rewrite (unshared_stable tss ts) by auto using unshare_one_spec with py. split; [done|].
  destruct (is_shared tss s) eqn:E; [|done]. exfalso. by eapply serial_not_lun, shared_is_lun.
Qed.

Section two_orders.
Context {SO SO' : SetOrder} {SL : SetOrderLaws SO} {SL' : SetOrderLaws SO'}.

Lemma frozenset_same (l l' : list token) : same_tokens l l' → same_tokens (@frozenset SO l) (@frozenset SO' l').
Proof. intros H t. by rewrite !elem_of_frozenset. Qed.
Lemma unshare_one_same tss tss' ts ts' : same_sets tss tss' → ts ∈ tss → ts' ∈ tss' → same_tokens ts ts' →
  same_tokens (@unshare_one SO tss ts) (@unshare_one SO' tss' ts').
Proof.
  intros H Hts Hts' E t. rewrite (unshare_one_spec tss ts Hts t), (unshare_one_spec tss' ts' Hts' t), !list_elem_of_fmap.
  split; intros (x & -> & Hx); exists x; (split; [by rewrite (is_shared_same tss tss')|by apply (E x)]).
Qed.
End two_orders.
Lemma unshare_covered (SO SO' : SetOrder) (SL : SetOrderLaws SO) (SL' : SetOrderLaws SO') tss tss' : same_sets tss tss' →
  covered (@unshare SO tss) (@unshare SO' tss').
Proof.
  intros H us. rewrite unshare_fmap, list_elem_of_fmap. intros (ts & -> & Hts). destruct (proj1 H ts Hts) as (ts' & Hts' & E).
  exists (unshare_one tss' ts'). split; [rewrite unshare_fmap; by apply list_elem_of_fmap_2|by apply unshare_one_same].
Qed.
Lemma class_of_same (SO SO' : SetOrder) (SL : SetOrderLaws SO) (SL' : SetOrderLaws SO') tss tss' ts ts' : same_sets tss tss' → ts ∈ tss → ts' ∈ tss' →
  same_tokens ts ts' → @class_of SO tss ts = @class_of SO' tss' ts'.
Proof.
  intros H Hts Hts' E. apply identity_class_same; [|rewrite unshare_fmap; by apply list_elem_of_fmap_2..|by apply unshare_one_same].
  split; apply unshare_covered; done || by apply same_sets_sym.
Qed.

(** ** Totals *)

Definition disk_tokens {SO : SetOrder} (ds : disk_record * option string) : list token :=
  scope_node_local_tokens (disk_record_identity_tokens ds.1) ds.2.
Definition view_tokens {SO : SetOrder} (ss : slot_view * option string) : list token :=
  scope_node_local_tokens (slot_identity_tokens ss.1) ss.2.
#[local] Notation disks_with_scope := (list (disk_record * option string)).
#[local] Notation slots_with_scope := (list (slot_view * option string)).
Definition token_sets {SO : SetOrder} (disks : disks_with_scope) (slots : slots_with_scope) : list (list token) :=
  source_tokens disks ++ rendered_tokens slots.
(** The classes that are rendered, one per view with a class *)
Definition view_classes {SO : SetOrder} (disks : disks_with_scope) (slots : slots_with_scope) : list string :=
  omap (λ ss, class_of (token_sets disks slots) (view_tokens ss)) slots.
Definition placed {SO : SetOrder} (disks : disks_with_scope) (slots : slots_with_scope) (ds : disk_record * option string) : bool :=
  is_placed (view_classes disks slots) (class_of (token_sets disks slots) (disk_tokens ds)).
Definition serials_shown (slots : slots_with_scope) : list string := omap (λ ss, clean (s_serial ss.1)) slots.
Definition bare {SO : SetOrder} (ds : disk_record * option string) : bool :=
  match disk_tokens ds with [] => has_bare_name ds.1 | _ => false end.

Lemma len_perm {A} (l l' : list A) : l ≡ₚ l' → len l = len l'.
Proof. intros H. unfold len. by rewrite H. Qed.
Lemma zip_fmaps {A B C} (f : A → B) (g : A → C) l : zip l (zip (f <$> l) (g <$> l)) = (λ x, (x, (f x, g x))) <$> l.
Proof. induction l as [|x l IH]; [done|]. by rewrite !fmap_cons, <-IH. Qed.
Lemma is_placed_same cs cs' i : (∀ c, c ∈ cs ↔ c ∈ cs') → is_placed cs i = is_placed cs' i.
Proof. intros H. destruct i as [c|]; [|done]. by apply bool_decide_ext. Qed.

Section totals.
Context {SO : SetOrder} {SL : SetOrderLaws SO}.
Context (disks : disks_with_scope) (slots : slots_with_scope).
#[local] Notation all := (token_sets disks slots).

Lemma rendered_classes_eq : omap id (drop (List.length (source_tokens disks)) (identity_classes all)) = view_classes disks slots.
Proof.
  unfold view_classes. rewrite identity_classes_fmap. pose proof (class_of_nil all) as Hf. revert Hf. generalize (class_of all). intros f Hf.
  unfold token_sets. rewrite fmap_app, drop_app_length' by by rewrite length_fmap. unfold rendered_tokens.
  change (λ ss : slot_view * option string, f (view_tokens ss)) with (f ∘ view_tokens). fold view_tokens.
  induction slots as [|ss l IH]; [done|]. rewrite fmap_cons. cbn [omap list_omap]. cbn [compose]. rewrite <-IH. fold (view_tokens ss).
  destruct (view_tokens ss) as [|t ts] eqn:E; cbn [List.filter]; [by rewrite Hf|]. rewrite fmap_cons. cbn [omap list_omap id]. done.
Qed.
Lemma source_classes_eq : take (List.length (source_tokens disks)) (identity_classes all) = (λ ds, class_of all (disk_tokens ds)) <$> disks.
Proof.
  rewrite identity_classes_fmap. generalize (class_of all). intros f. unfold token_sets. rewrite fmap_app, take_app_length' by by rewrite length_fmap.
  unfold source_tokens. by rewrite <-list_fmap_compose.
Qed.
Lemma account_eq : account disks slots =
  mkAccounting (len disks) (len (remove_dups (view_classes disks slots))) (len (view_classes disks slots) - len (remove_dups (view_classes disks slots)))
    (len (List.filter (λ ds, negb (placed disks slots ds)) disks)) (len (List.filter (λ ds, negb (placed disks slots ds) && bare ds) disks)).
Proof.
  unfold account. cbv zeta. fold all. rewrite rendered_classes_eq, source_classes_eq. unfold source_tokens at 1 2 3.
  change (λ ds : disk_record * option string, scope_node_local_tokens (disk_record_identity_tokens ds.1) ds.2) with disk_tokens.
  rewrite zip_fmaps, !filter_fmap. unfold len. rewrite !length_fmap, filter_filter. f_equal; do 2 f_equal; apply filter_ext_in'; intros ds _; cbn [fst snd].
  - unfold placed. f_equal. apply is_placed_same. intros c. by rewrite elem_of_remove_dups.
  - unfold placed. f_equal. f_equal. apply is_placed_same. intros c. by rewrite elem_of_remove_dups.
Qed.
End totals.

(** ** What the accounting promises *)

Lemma tokens_once {SO : SetOrder} {SL : SetOrderLaws SO} serial lun gptid names scope :
  stable_once (scope_node_local_tokens (logical_disk_identity_tokens serial lun gptid names) scope).
Proof.
  split; intros t t' Ht Ht' Hk Hk'; apply scoped_stable in Ht; auto using is_serial_stable, is_lun_stable; apply scoped_stable in Ht'; auto using is_serial_stable, is_lun_stable.
  - apply logical_tokens_serial in Ht as (v & Hv & ->); [|done]. apply logical_tokens_serial in Ht' as (v' & Hv' & ->); [|done]. congruence.
  - apply logical_tokens_lun in Ht as (v & Hv & ->); [|done]. apply logical_tokens_lun in Ht' as (v' & Hv' & ->); [|done]. congruence.
Qed.
Section promises.
Context {SO : SetOrder} {SL : SetOrderLaws SO}.

Lemma elem_of_rendered slots ts : ts ∈ rendered_tokens slots → ∃ ss, ss ∈ slots ∧ ts = view_tokens ss.
Proof. unfold rendered_tokens. intros [(ss & -> & Hss)%list_elem_of_fmap _]%elem_of_filter_list. by exists ss. Qed.
Lemma view_rendered slots ss t : ss ∈ slots → t ∈ view_tokens ss → view_tokens ss ∈ rendered_tokens slots.
Proof.
  intros Hss Ht. apply elem_of_filter_list. split; [by apply (list_elem_of_fmap_2 view_tokens)|].
  fold (view_tokens ss). destruct (view_tokens ss); [by apply elem_of_nil in Ht|done].
Qed.
Lemma token_sets_once disks slots : Forall stable_once (token_sets disks slots).
Proof.
  apply Forall_app. split; apply Forall_forall.
  - intros ? (ds & -> & _)%list_elem_of_fmap. apply tokens_once.
  - intros ? (ss & _ & ->)%elem_of_rendered. apply tokens_once.
Qed.
Lemma disk_serial ds s : clean (d_serial ds.1) = Some s → ("serial:" +:+ s)%string ∈ disk_tokens ds.
Proof. intros H. apply scoped_stable; [done|]. apply logical_tokens_serial; [done|]. eauto. Qed.
Lemma view_serial ss s : clean (s_serial ss.1) = Some s → ("serial:" +:+ s)%string ∈ view_tokens ss.
Proof. intros H. apply scoped_stable; [done|]. apply logical_tokens_serial; [done|]. eauto. Qed.

(** ** Serials *)

Lemma omap_filter {A B} (h : A → option B) (d : B) l : omap h l = (λ x, default d (h x)) <$> List.filter (λ x, bool_decide (is_Some (h x))) l.
Proof.
  induction l as [|x l IH]; [done|]. cbn. destruct (h x) as [y|] eqn:E.
  - rewrite bool_decide_true by eauto. cbn. by rewrite E, IH.
  - rewrite bool_decide_false by (by intros [? ?]). done.
Qed.
Lemma distinct_same {A B C} `{EqDecision B} `{EqDecision C} (f : A → B) (g : A → C) l : (∀ a b, a ∈ l → b ∈ l → f a = f b ↔ g a = g b) →
  List.length (remove_dups (f <$> l)) = List.length (remove_dups (g <$> l)).
Proof.
  induction l as [|x l IH]; [done|]. intros H. rewrite !fmap_cons. cbn [remove_dups].
  assert (f x ∈ f <$> l ↔ g x ∈ g <$> l) as Hx.
  { rewrite !list_elem_of_fmap. split; intros (y & E & Hy); exists y; (split; [|done]); apply H in E; try done; by left || right. }
  assert (∀ a b, a ∈ l → b ∈ l → f a = f b ↔ g a = g b) as H' by (intros a b Ha Hb; apply H; by right). specialize (IH H').
  do 2 case_decide; cbn; [done|tauto|tauto|by rewrite IH].
Qed.

Section serials.
Context (disks : disks_with_scope) (slots : slots_with_scope).
#[local] Notation all := (token_sets disks slots).
Context (Hdisks : ∀ ds, ds ∈ disks → is_Some (clean (d_serial ds.1))).
Context (Hslots : ∀ ss, ss ∈ slots → clean (s_serial ss.1) = None → slot_identity_tokens ss.1 = []).

Lemma view_class_some ss : ss ∈ slots → is_Some (class_of all (view_tokens ss)) ↔ is_Some (clean (s_serial ss.1)).
Proof.
  intros Hss. destruct (clean (s_serial ss.1)) as [s|] eqn:E.
  - split; [eauto|]. intros _. pose proof (view_serial ss s E) as Ht. eapply class_of_some_serial; [|exact Ht|done].
    apply elem_of_app. right. by eapply view_rendered.
  - replace (view_tokens ss) with (@nil token); [rewrite class_of_nil; by split; intros [? ?]|].
    unfold view_tokens, scope_node_local_tokens. rewrite (Hslots ss Hss E). destruct ss.2; [|done]. cbv zeta. cbn.
    symmetry. apply Permutation_nil. symmetry. apply set_order_perm.
Qed.
Lemma view_class_serial ss ts s s' : ss ∈ slots → ts ∈ all → clean (s_serial ss.1) = Some s → ("serial:" +:+ s')%string ∈ ts →
  class_of all ts = class_of all (view_tokens ss) ↔ s' = s.
Proof.
  intros Hss Hts Hs Hs'. rewrite (class_of_serial all ts (view_tokens ss) ("serial:" +:+ s') ("serial:" +:+ s));
    [split; [by intros [=]|by intros ->]|apply token_sets_once|done| |done|by apply view_serial|done|done].
  apply elem_of_app. right. eapply view_rendered; [done|by apply view_serial].
Qed.
Lemma views_with_class : List.filter (λ ss, bool_decide (is_Some (class_of all (view_tokens ss)))) slots
  = List.filter (λ ss, bool_decide (is_Some (clean (s_serial ss.1)))) slots.
Proof. apply filter_ext_in'. intros ss Hss. by apply bool_decide_ext, view_class_some. Qed.
Lemma length_view_classes : List.length (view_classes disks slots) = List.length (serials_shown slots).
Proof. unfold view_classes, serials_shown. rewrite !(omap_filter _ ""%string), views_with_class. by rewrite !length_fmap. Qed.
Lemma distinct_view_classes : List.length (remove_dups (view_classes disks slots)) = List.length (remove_dups (serials_shown slots)).
Proof.
  unfold view_classes, serials_shown. rewrite !(omap_filter _ ""%string), views_with_class. apply distinct_same.
  intros a b [Ha Ha']%elem_of_filter_list [Hb Hb']%elem_of_filter_list. apply bool_decide_eq_true in Ha', Hb'.
  destruct Ha' as [s Es], Hb' as [s' Es']. rewrite Es, Es'. cbn [default].
  assert (view_tokens a ∈ all) as Hall by (apply elem_of_app; right; eapply view_rendered; [done|by apply view_serial]).
  rewrite <-(view_class_serial b (view_tokens a) s' s Hb Hall Es' (view_serial a s Es)).
  assert (is_Some (class_of all (view_tokens a))) as [c ->] by (apply view_class_some; [done|by rewrite Es]).
  assert (is_Some (class_of all (view_tokens b))) as [c' ->] by (apply view_class_some; [done|by rewrite Es']). cbn. naive_solver.
Qed.
Lemma placed_serial ds s : ds ∈ disks → clean (d_serial ds.1) = Some s → placed disks slots ds = bool_decide (s ∈ serials_shown slots).
Proof.
  intros Hds Hs. assert (disk_tokens ds ∈ all) as Hall by (apply elem_of_app; left; by apply (list_elem_of_fmap_2 disk_tokens)).
  destruct (class_of_some_serial all (disk_tokens ds) _ Hall (disk_serial ds s Hs) eq_refl) as [c Hc].
  unfold placed. rewrite Hc. apply bool_decide_ext. unfold view_classes, serials_shown. rewrite !list_elem_of_omap. split.
  - intros (ss & Hss & Ec). exists ss. split; [done|]. assert (is_Some (clean (s_serial ss.1))) as [s' Es] by (apply view_class_some; eauto).
    rewrite Es. f_equal. symmetry. apply (view_class_serial ss (disk_tokens ds) s' s); [done..|by apply disk_serial|congruence].
  - intros (ss & Hss & Es). exists ss. split; [done|]. rewrite <-Hc. symmetry. apply (view_class_serial ss (disk_tokens ds) s s); [done..|by apply disk_serial|done].
Qed.
Lemma not_bare_serial ds : ds ∈ disks → bare ds = false.
Proof.
  intros Hds. destruct (Hdisks ds Hds) as [s Hs]. pose proof (disk_serial ds s Hs) as Ht. unfold bare.
  destruct (disk_tokens ds); [by apply elem_of_nil in Ht|done].
Qed.
End serials.
End promises.

(** ** The order of records, and of sets of tokens *)

Lemma scoped_same (SO SO' : SetOrder) (SL : SetOrderLaws SO) (SL' : SetOrderLaws SO') ts ts' scope : same_tokens ts ts' →
  same_tokens (@scope_node_local_tokens SO ts scope) (@scope_node_local_tokens SO' ts' scope).
Proof.
  intros E. destruct scope as [scope|]; [|done]. unfold scope_node_local_tokens. cbv zeta. apply frozenset_same.
  assert (∀ t, t ∈ py_drop 4 <$> List.filter (λ t, py_startswith t "dev:") ts ↔ t ∈ py_drop 4 <$> List.filter (λ t, py_startswith t "dev:") ts') as Hd.
  { intros t. rewrite !list_elem_of_fmap. split; intros (x & -> & Hx); exists x; (split; [done|]); by apply (filter_same _ _ _ E x). }
  intros t. rewrite !list_elem_of_fmap. split; intros (x & -> & Hx); exists x; (split; [|by apply (E x)]); by rewrite (bool_decide_ext _ _ (Hd (py_drop 6 x))).
Qed.
Section two_sites.
Context (SO SO' : SetOrder) (SL : SetOrderLaws SO) (SL' : SetOrderLaws SO').

Lemma disk_tokens_same ds : same_tokens (@disk_tokens SO ds) (@disk_tokens SO' ds).
Proof. apply scoped_same; [done..|]. by apply frozenset_same. Qed.
Lemma view_tokens_same ss : same_tokens (@view_tokens SO ss) (@view_tokens SO' ss).
Proof. apply scoped_same; [done..|]. by apply frozenset_same. Qed.
Lemma token_sets_covered disks disks' slots slots' : disks ≡ₚ disks' → slots ≡ₚ slots' →
  covered (@token_sets SO disks slots) (@token_sets SO' disks' slots').
Proof.
  intros Hd Hs ts [Hts|Hts]%elem_of_app.
  - apply list_elem_of_fmap in Hts as (ds & -> & Hds). exists (@disk_tokens SO' ds). split; [|apply disk_tokens_same].
    apply elem_of_app. left. apply (list_elem_of_fmap_2 (@disk_tokens SO')). by rewrite <-Hd.
  - apply elem_of_filter_list in Hts as [(ss & -> & Hss)%list_elem_of_fmap Hn]. fold (@view_tokens SO ss) in Hn |- *.
    exists (@view_tokens SO' ss). split; [|apply view_tokens_same]. apply elem_of_app. right.
    pose proof (view_tokens_same ss) as E. destruct (@view_tokens SO ss) as [|t l]; [done|].
    destruct (same_cons _ _ _ E) as [Ht _]. eapply view_rendered; [by rewrite <-Hs|done].
Qed.
End two_sites.
Section two_accounts.
Context (SO SO' : SetOrder) (SL : SetOrderLaws SO) (SL' : SetOrderLaws SO').
Context (disks disks' : disks_with_scope) (slots slots' : slots_with_scope) (Hd : disks ≡ₚ disks') (Hs : slots ≡ₚ slots').

Lemma token_sets_same : same_sets (@token_sets SO disks slots) (@token_sets SO' disks' slots').
Proof. split; by apply token_sets_covered. Qed.
Lemma view_class_same ss : ss ∈ slots →
  @class_of SO (@token_sets SO disks slots) (@view_tokens SO ss) = @class_of SO' (@token_sets SO' disks' slots') (@view_tokens SO' ss).
Proof.
  intros Hss. pose proof (view_tokens_same SO SO' SL SL' ss) as E. destruct (@view_tokens SO ss) as [|t l] eqn:Ev.
  - rewrite (same_nil _ E). by rewrite !class_of_nil.
  - rewrite <-Ev in *. destruct (same_cons t l (@view_tokens SO' ss)) as [Ht _]; [by rewrite <-Ev|].
    apply class_of_same; [done..|apply token_sets_same|apply elem_of_app; right; eapply view_rendered; [done|]|apply elem_of_app; right; eapply view_rendered; [by rewrite <-Hs|done]|done].
    rewrite Ev. left.
Qed.
Lemma disk_class_same ds : ds ∈ disks →
  @class_of SO (@token_sets SO disks slots) (@disk_tokens SO ds) = @class_of SO' (@token_sets SO' disks' slots') (@disk_tokens SO' ds).
Proof.
  intros Hds. apply class_of_same; [done..|apply token_sets_same| | |by apply disk_tokens_same]; apply elem_of_app; left;
    [by apply (list_elem_of_fmap_2 (@disk_tokens SO))|apply (list_elem_of_fmap_2 (@disk_tokens SO')); by rewrite <-Hd].
Qed.
Lemma view_classes_same : @view_classes SO disks slots ≡ₚ @view_classes SO' disks' slots'.
Proof.
  unfold view_classes. rewrite <-Hs. erewrite list_omap_ext; [reflexivity|]. apply Forall_Forall2_diag, Forall_forall. apply view_class_same.
Qed.
Lemma placed_same ds : ds ∈ disks → @placed SO disks slots ds = @placed SO' disks' slots' ds.
Proof. intros Hds. unfold placed. rewrite <-disk_class_same by done. apply is_placed_same. intros c. by rewrite view_classes_same. Qed.
Lemma bare_same ds : @bare SO ds = @bare SO' ds.
Proof.
  unfold bare. pose proof (disk_tokens_same SO SO' SL SL' ds) as E. destruct (@disk_tokens SO ds) as [|t l]; [by rewrite (same_nil _ E)|].
  by destruct (same_cons _ _ _ E) as [_ (? & ? & ->)].
Qed.
End two_accounts.

(** ** Theorems *)

(** [C32] On an inventory in which every disk record has a serial, and every slot that
    shows any identity shows a serial, the totals are what counting serials gives: the
    distinct serials shown, the views beyond the first of each, and the disks whose
    serial is shown nowhere. *)
Theorem serial_inventory_exact {SO : SetOrder} {SL : SetOrderLaws SO} disks slots :
  (∀ ds, ds ∈ disks → is_Some (clean (d_serial ds.1))) →
  (∀ ss, ss ∈ slots → clean (s_serial ss.1) = None → slot_identity_tokens ss.1 = []) →
  let shown := omap (λ ss : slot_view * option string, clean (s_serial ss.1)) slots in
  account disks slots = mkAccounting (len disks) (len (remove_dups shown)) (len shown - len (remove_dups shown))
    (len (List.filter (λ ds, match clean (d_serial ds.1) with Some s => negb (bool_decide (s ∈ shown)) | None => true end) disks)) 0.
Proof.
  intros Hd Hs shown. fold (serials_shown slots) in shown. rewrite account_eq. unfold len.
  rewrite (distinct_view_classes disks slots Hs), (length_view_classes disks slots Hs). f_equal.
  - f_equal. f_equal. apply filter_ext_in'. intros ds Hds. destruct (Hd ds Hds) as [s Es]. rewrite Es. f_equal. by apply placed_serial.
  - rewrite filter_none; [done|]. apply Forall_forall. intros ds Hds. rewrite (not_bare_serial disks Hd ds Hds). apply andb_false_r.
Qed.

(** Two records or views that carry a serial are the same disk exactly when they
    carry the same one, whatever names, LUN ids and GPT ids any record shares. *)
Theorem serial_decides_disk {SO : SetOrder} {SL : SetOrderLaws SO} disks slots i j ts ts' s s' :
  let all := source_tokens disks ++ rendered_tokens slots in
  all !! i = Some ts → all !! j = Some ts' → ("serial:" +:+ s)%string ∈ ts → ("serial:" +:+ s')%string ∈ ts' →
  ∃ c c', identity_classes all !! i = Some (Some c) ∧ identity_classes all !! j = Some (Some c') ∧ (c = c' ↔ s = s').
Proof.
  intros all Hi Hj Hs Hs'. fold (token_sets disks slots) in all. apply list_elem_of_lookup_2 in Hi as Hts, Hj as Hts'.
  rewrite identity_classes_fmap, !list_lookup_fmap, Hi, Hj. cbn.
  destruct (class_of_some_serial all ts _ Hts Hs eq_refl) as [c Hc], (class_of_some_serial all ts' _ Hts' Hs' eq_refl) as [c' Hc'].
  exists c, c'. rewrite Hc, Hc'. split_and!; [done..|].
  pose proof (class_of_serial all ts ts' _ _ (token_sets_once disks slots) Hts Hts' Hs Hs' eq_refl eq_refl) as H. rewrite Hc, Hc' in H.
  split; intros ->; [by injection (proj1 H eq_refl)|by injection (proj2 H eq_refl)].
Qed.

(** Where no two stable identities meet, records are one disk exactly when shared
    tokens connect them, directly or through other records. *)
Theorem names_decide_disk {SO : SetOrder} tss i j ts ts' t t' :
  unshare tss !! i = Some ts → unshare tss !! j = Some ts' → t ∈ ts → t' ∈ ts' →
  conflicting (unshare tss) (root_of (components (unshare tss)) t) = false →
  identity_classes tss !! i = identity_classes tss !! j ↔ connected (unshare tss) t t'.
Proof.
  intros Hi Hj Ht Ht' Hc. unfold identity_classes. cbv zeta. rewrite !list_lookup_fmap, Hi, Hj. cbn.
  rewrite <-(identity_class_connected (unshare tss) ts ts' t t') by (done || by eapply list_elem_of_lookup_2). split; [by intros [= ?]|by intros ->].
Qed.

(** The totals depend neither on the order in which sets of tokens are iterated
    over nor on the order of the disk records and of the slots. *)
Theorem accounting_order_irrelevant (SO SO' : SetOrder) (SL : SetOrderLaws SO) (SL' : SetOrderLaws SO') disks disks' slots slots' :
  disks ≡ₚ disks' → slots ≡ₚ slots' → @account SO disks slots = @account SO' disks' slots'.
Proof.
  intros Hd Hs. rewrite !account_eq. pose proof (view_classes_same SO SO' SL SL' disks disks' slots slots' Hd Hs) as Hv.
  assert (remove_dups (@view_classes SO disks slots) ≡ₚ remove_dups (@view_classes SO' disks' slots')) as Hv'.
  { apply NoDup_Permutation; [apply NoDup_remove_dups..|]. intros c. by rewrite !elem_of_remove_dups, Hv. }
  rewrite (len_perm _ _ Hv), (len_perm _ _ Hv'), (len_perm _ _ Hd).
  f_equal; (etrans; [|apply len_perm, filter_perm, Hd]); unfold len; do 2 f_equal; apply filter_ext_in'; intros ds Hds;
    by rewrite <-?(bare_same SO SO'), <-(placed_same SO SO' SL SL' disks disks' slots slots').
Qed.

(** The totals are consistent: the distinct disks and the views beyond their
    first make up the views that name a disk, nothing is negative, unplaced bare
    names are unplaced disks; and nothing is unplaced exactly when the class of every
    source disk is the class of a rendered view. *)
Theorem retention_accounting_exact {SO : SetOrder} {SL : SetOrderLaws SO} disks slots :
  let a := account disks slots in
  let classes := identity_classes (source_tokens disks ++ rendered_tokens slots) in
  let rendered := drop (List.length disks) classes in
  (source_disk_count a = len disks ∧ rendered_unique_disk_count a + duplicate_disk_view_count a = len (omap id rendered)
   ∧ 0 <= duplicate_disk_view_count a ∧ 0 <= bare_device_mapper_unplaced_count a <= unplaced_disk_count a
   ∧ unplaced_disk_count a <= source_disk_count a)%Z
  ∧ (unplaced_disk_count a = 0%Z ↔ ∀ c, c ∈ take (List.length disks) classes → is_Some c ∧ c ∈ rendered).
Proof.
  intros a classes rendered. subst a rendered classes. fold (token_sets disks slots).
  assert (List.length disks = List.length (source_tokens disks)) as Hl by (unfold source_tokens; by rewrite length_fmap).
  rewrite Hl, rendered_classes_eq, source_classes_eq, <-Hl, account_eq. cbn [source_disk_count rendered_unique_disk_count duplicate_disk_view_count bare_device_mapper_unplaced_count unplaced_disk_count].
  assert (∀ c, Some c ∈ drop (List.length disks) (identity_classes (token_sets disks slots)) ↔ c ∈ view_classes disks slots) as Hv.
  { intros c. rewrite <-rendered_classes_eq, <-Hl, list_elem_of_omap. split; [by exists (Some c)|]. by intros (o & Ho & [= ->]). }
  unfold len. split.
  - pose proof (length_remove_dups_le (view_classes disks slots)). pose proof (length_filter_le (λ ds, negb (placed disks slots ds)) disks).
    rewrite <-(filter_filter bare (λ ds, negb (placed disks slots ds))). pose proof (length_filter_le bare (List.filter (λ ds, negb (placed disks slots ds)) disks)). lia.
  - transitivity (List.filter (λ ds, negb (placed disks slots ds)) disks = []).
    { destruct (List.filter _ _); cbn; split; done || lia. }
    split.
    + intros E c (ds & -> & Hds)%list_elem_of_fmap. destruct (placed disks slots ds) eqn:Ep.
      * unfold placed in Ep. destruct (class_of _ _) as [c|]; [|done]. apply bool_decide_eq_true in Ep. split; [done|by apply Hv].
      * assert (ds ∈ List.filter (λ ds, negb (placed disks slots ds)) disks) as Hx by (apply elem_of_filter_list; by rewrite Ep).
        rewrite E in Hx. by apply elem_of_nil in Hx.
    + intros H. apply filter_none, Forall_forall. intros ds Hds. apply negb_false_iff. unfold placed.
      destruct (H (class_of (token_sets disks slots) (disk_tokens ds))) as [[c Hc] Hin]; [by apply (list_elem_of_fmap_2 (λ ds, class_of _ (disk_tokens ds)))|].
      rewrite Hc in *. by apply bool_decide_eq_true, Hv.
Qed.

(** The call itself: it fails exactly when a list of scopes has another length than
    what it is for, and accounts for the records and slots with their scopes otherwise. *)
Lemma zip_scopes_spec {A} (l : list A) scopes : zip_scopes l scopes =
  match scopes with
  | Some sc => if decide (List.length sc = List.length l) then Some (zip l sc) else None
  | None => Some ((λ x, (x, None)) <$> l)
  end.
Proof.
  unfold zip_scopes. destruct scopes as [sc|]; cbn [default]; unfold id.
  - destruct (decide _) as [E|E]; [by rewrite (proj2 (Nat.eqb_eq _ _) E)|by rewrite (proj2 (Nat.eqb_neq _ _) E)].
  - rewrite repeat_length, Nat.eqb_refl. f_equal. induction l as [|x l IH]; [done|]. cbn. by rewrite IH.
Qed.
Lemma build_refuses {SO : SetOrder} disks slots source_scopes slot_scopes :
  build_disk_retention_accounting disks slots source_scopes slot_scopes = None ↔
  (∃ sc, source_scopes = Some sc ∧ List.length sc ≠ List.length disks) ∨ (∃ sc, slot_scopes = Some sc ∧ List.length sc ≠ List.length slots).
Proof.
  unfold build_disk_retention_accounting. rewrite !zip_scopes_spec.
  destruct source_scopes as [sc|], slot_scopes as [sc'|]; repeat case_decide; naive_solver.
Qed.

(** ** Witnesses *)

Definition in_order : SetOrder := λ l, l.
Definition reversed : SetOrder := λ l, reverse l.
Lemma in_order_laws : @SetOrderLaws in_order.
Proof. intros l. done. Qed.
Lemma reversed_laws : @SetOrderLaws reversed.
Proof. intros l. apply reverse_Permutation. Qed.

(** Two nodes name their disks alike; one disk is seen through both, one bay shows a
    name only. *)
Definition disk_named (serial device : string) : disk_record := mkDisk (Some serial) None None (Some device) None None None [].
Definition view_of (serial device : option string) : slot_view := mkSlot serial None None device [] None.
Definition example_disks : disks_with_scope :=
  [(disk_named " S1 " "/dev/sda", Some "left"); (disk_named "s1" "sda", Some "right"); (disk_named "S2" "sdb", Some "left"); (disk_named "S3" "dm-7", None)]%string.
Definition example_slots : slots_with_scope :=
  [(view_of (Some "S1") (Some "sda"), Some "left"); (view_of (Some "s2") None, Some "left"); (view_of (Some "s1") None, None); (view_of None None, None)]%string.

Lemma serial_inventory_exact_witness :
  @account in_order example_disks example_slots = mkAccounting 4 2 1 1 0 ∧ @account in_order example_disks example_slots =
    mkAccounting 4 (len (remove_dups ["s1"; "s2"; "s1"])) 1 1 0.
Proof.
  split; [|vm_compute; reflexivity]. rewrite (@serial_inventory_exact in_order in_order_laws example_disks example_slots).
  - vm_compute. reflexivity.
  - intros ds Hds. repeat (apply elem_of_cons in Hds as [->|Hds]; [vm_compute; eauto|]). by apply elem_of_nil in Hds.
  - intros ss Hss. repeat (apply elem_of_cons in Hss as [->|Hss]; [vm_compute; congruence|]). by apply elem_of_nil in Hss.
Defined.
Lemma serial_decides_disk_witness : ∃ c c', @identity_classes in_order (@source_tokens in_order example_disks ++ @rendered_tokens in_order example_slots) !! 0 = Some (Some c) ∧
  @identity_classes in_order (@source_tokens in_order example_disks ++ @rendered_tokens in_order example_slots) !! 2 = Some (Some c') ∧ (c = c' ↔ "s1" = "s2")%string.
Proof.
  eapply (@serial_decides_disk in_order in_order_laws example_disks example_slots 0 2 ["serial:s1"; "node[left]/dev:sda"]%string ["serial:s2"; "node[left]/dev:sdb"]%string "s1"%string "s2"%string).
  - vm_compute. reflexivity.
  - vm_compute. reflexivity.
  - left.
  - left.
Defined.
Definition named_sets : list (list token) := [["dev:sda"; "gptid:gptid/a"]; ["gptid:gptid/a"; "dev:multipath/disk1"]; ["dev:multipath/disk1"; "serial:s"]]%string.
Lemma names_decide_disk_witness : @identity_classes in_order named_sets !! 0 = @identity_classes in_order named_sets !! 2
  ∧ connected (@unshare in_order named_sets) "dev:sda"%string "serial:s"%string.
Proof.
  assert (@identity_classes in_order named_sets !! 0 = @identity_classes in_order named_sets !! 2) as H by (vm_compute; reflexivity).
  split; [exact H|]. revert H. apply (@names_decide_disk in_order named_sets 0 2 ["dev:sda"; "gptid:gptid/a"]%string ["dev:multipath/disk1"; "serial:s"]%string).
  - vm_compute. reflexivity.
  - vm_compute. reflexivity.
  - left.
  - right. left.
  - vm_compute. reflexivity.
Defined.
Lemma accounting_order_irrelevant_witness : @account in_order example_disks example_slots = @account reversed (reverse example_disks) example_slots
  ∧ @account reversed (reverse example_disks) example_slots = mkAccounting 4 2 1 1 0.
Proof.
  split; [|vm_compute; reflexivity]. apply (accounting_order_irrelevant in_order reversed in_order_laws reversed_laws).
  - symmetry. apply reverse_Permutation.
  - reflexivity.
Defined.
Lemma retention_accounting_exact_witness : let a := @account in_order example_disks example_slots in
  a = mkAccounting 4 2 1 1 0 ∧ (rendered_unique_disk_count a + duplicate_disk_view_count a = 3)%Z.
Proof.
  split; [vm_compute; reflexivity|].
  destruct (@retention_accounting_exact in_order in_order_laws example_disks example_slots) as [(_ & H & _) _]. rewrite H. vm_compute. reflexivity.
Defined.
