(* ===== verification/Retention.v ===== *)
(** * Retention of the history database

    [HistoryStore.maintain_retention] of [src/history_service/store.py] and the
    methods it calls: expired samples are added to hourly and daily rollups and
    deleted, expired events and rollups are deleted, a batch at a time, each batch in
    a transaction of its own.

    Rows and tables are those of [ScopeHistory]; a statement is the function of the
    tables it denotes.  What SQLite computes on texts and numbers (the function
    [strftime], casts, sums and comparisons of [REAL]s, the order in which
    [GROUP BY] delivers groups) is the class [Sqlite]; other writers of the database,
    failing transactions and the caller's [should_continue] are the class
    [RetentionWorld]. *)

From S2P Require Import Prelude.
From S2P Require Import PyStr.
From S2P Require Import Calendar.
From S2P Require Import Json.
From S2P Require Import Journal.
From S2P Require Import ReadBounds.
From S2P Require Import ResponseSize.
From S2P Require Import ReadService.
From S2P Require Import ScopeHistory.
#[local] Open Scope Z_scope.
#[local] Open Scope list_scope.

(** ** Outside the code *)

(** The columns of a [GROUP BY]; a bucket is [NULL] when SQLite cannot read the time. *)
Record group_key := mkKey {
  k_bucket : option ustr; k_system : ustr; k_enclosure : ustr; k_slot : Z; k_metric : ustr; k_disk : ustr;
}.
#[export] Instance group_key_eq_dec : EqDecision group_key.
Proof. solve_decision. Defined.

Class Sqlite := {
  strftime : ustr → ustr → option ustr;
  cast_real : json → json;
  real_leb : json → json → bool;
  real_sum : list json → json;
  real_add : json → json → json;
  group_order : list group_key → list group_key;
}.

Inductive write_error := IntegrityError | WriteFailed (e : py_exn).
Class RetentionWorld := {
  write_fails : nat → option write_error;
  should_continue : nat → bool;
  other_writers : nat → database → database;
  pages_reclaimed : nat → Z;
}.

(** ** Expired rows *)

Definition col (k : string) (r : row) : json := field_or k JNull r.
Definition is_null (v : json) : bool := match v with JNull => true | _ => false end.
(** [ORDER BY observed_at, id] *)
Definition oldest_first (a b : row) : bool := newest_first b a.
Definition older (k : string) (cutoff : ustr) (r : row) : bool := negb (ustr_leb cutoff (text_col k r)).
(** [_expired_rows_subquery] *)
Definition expired_rows (cutoff : ustr) (batch_size : Z) (rows : list row) : list row :=
  take (Z.to_nat batch_size) (sort_by oldest_first (List.filter (older "observed_at" cutoff) rows)).
Definition expired_ids (cutoff : ustr) (batch_size : Z) (rows : list row) : list Z :=
  int_col "id" <$> expired_rows cutoff batch_size rows.
Definition has_id (ids : list Z) (r : row) : bool := bool_decide (int_col "id" r ∈ ids).
(** [_delete_expired_rows] *)
Definition delete_expired_rows (cutoff : option ustr) (batch_size : Z) (rows : list row) : list row * Z :=
  match cutoff with
  | None => (rows, 0)
  | Some cutoff =>
      let ids := expired_ids cutoff batch_size rows in
      (List.filter (λ r, negb (has_id ids r)) rows, ulen (List.filter (has_id ids) rows))
  end.
(** [_delete_rollup_batch]: a row id is the position of a row. *)
Definition of_bucket (bucket_seconds : Z) (cutoff : ustr) (r : row) : bool :=
  (int_col "bucket_seconds" r =? bucket_seconds) && older "bucket_start" cutoff r.
Definition oldest_bucket_first (a b : nat * row) : bool := ustr_leb (text_col "bucket_start" a.2) (text_col "bucket_start" b.2).
Definition delete_rollup_batch (bucket_seconds : Z) (cutoff : option ustr) (batch_size : Z) (rows : list row) : list row * Z :=
  match cutoff with
  | None => (rows, 0)
  | Some cutoff =>
      let rowids := zip (seq 0 (length rows)) rows in
      let picked := (take (Z.to_nat batch_size) (sort_by oldest_bucket_first (List.filter (λ ir, of_bucket bucket_seconds cutoff ir.2) rowids))).*1 in
      ((List.filter (λ ir : nat * row, negb (bool_decide (ir.1 ∈ picked))) rowids).*2, ulen picked)
  end.
(** [_retention_rows_exist], [_rollups_exist] *)
Definition retention_rows_exist (k : string) (cutoff : option ustr) (rows : list row) : bool :=
  match cutoff with None => false | Some cutoff => existsb (older k cutoff) rows end.
Definition rollups_exist (bucket_seconds : Z) (cutoff : option ustr) (rows : list row) : bool :=
  match cutoff with None => false | Some cutoff => existsb (of_bucket bucket_seconds cutoff) rows end.

(** [_retention_cutoff] *)
Definition retention_cutoff (now : datetime) (days : Z) : result py_exn (option ustr) :=
  if days <=? 0 then Ok None
  else raise: OverflowError when (999999999 <? days) || (dt_day now - days <? 1);
       Ok (Some (isoformat_utc (mkDatetime (dt_day now - days) (dt_micros now) (Some 0)))).

Section retention.
Context {SQ : Sqlite}.

(** ** Rolling up *)

Definition bucket_format (bucket_seconds : Z) : ustr :=
  if bucket_seconds =? 3600 then u "%Y-%m-%dT%H:00:00+00:00" else u "%Y-%m-%dT00:00:00+00:00".
(** [COALESCE(value_real, CAST(value_integer AS REAL))] *)
Definition value_of (r : row) : json :=
  match col "value_real" r with
  | JNull => match col "value_integer" r with JNull => JNull | v => cast_real v end
  | v => v
  end.
Definition has_value (r : row) : bool := negb (is_null (value_of r)).
(** [COALESCE(disk_identity_key, '')] *)
Definition disk_key (r : row) : ustr := match col "disk_identity_key" r with JStr s => s | _ => [] end.
Definition bucket_of (bucket_seconds : Z) (r : row) : option ustr := strftime (bucket_format bucket_seconds) (text_col "observed_at" r).
Definition key_of (bucket_seconds : Z) (r : row) : group_key :=
  mkKey (bucket_of bucket_seconds r) (text_col "system_id" r) (text_col "enclosure_key" r) (int_col "slot" r) (text_col "metric_name" r) (disk_key r).
Definition in_group (bucket_seconds : Z) (k : group_key) (r : row) : bool := bool_decide (key_of bucket_seconds r = k).

Definition real_min (a b : json) : json := if real_leb a b then a else b.
Definition real_max (a b : json) : json := if real_leb a b then b else a.
Definition aggregate (f : json → json → json) (l : list json) : json := match l with [] => JNull | v :: l => foldl f v l end.
(** [MAX] of a column of texts *)
Definition text_max (a b : json) : json :=
  match a, b with
  | JStr s, JStr t => if ustr_leb s t then b else a
  | JNull, _ => b
  | _, _ => a
  end.
Definition max_col (k : string) (rows : list row) : json := foldl text_max JNull (col k <$> rows).
Definition json_of_text (o : option ustr) : json := match o with Some s => JStr s | None => JNull end.

(** [last_value]: the value of the newest row of the partition, with or without value *)
Definition newest_value (partition : list row) : json :=
  match sort_by newest_first partition with r :: _ => value_of r | [] => JNull end.
(** The row a group makes *)
Definition rollup_row (bucket_seconds : Z) (selected : list row) (k : group_key) : row :=
  let partition := List.filter (in_group bucket_seconds k) selected in
  let rows := List.filter has_value partition in
  let values := value_of <$> rows in
  [(u "bucket_start", json_of_text (k_bucket k)); (u "bucket_seconds", JInt bucket_seconds); (u "system_id", JStr (k_system k));
   (u "system_label", max_col "system_label" rows); (u "enclosure_key", JStr (k_enclosure k)); (u "enclosure_id", max_col "enclosure_id" rows);
   (u "enclosure_label", max_col "enclosure_label" rows); (u "slot", JInt (k_slot k)); (u "slot_label", max_col "slot_label" rows);
   (u "metric_name", JStr (k_metric k)); (u "sample_count", JInt (ulen rows)); (u "value_sum", real_sum values);
   (u "value_min", aggregate real_min values); (u "value_max", aggregate real_max values); (u "last_value", newest_value partition);
   (u "last_observed_at", max_col "observed_at" rows); (u "device_name", max_col "device_name" rows); (u "serial", max_col "serial" rows);
   (u "model", max_col "model" rows); (u "state", max_col "state" rows); (u "gptid", max_col "gptid" rows);
   (u "persistent_id_label", max_col "persistent_id_label" rows); (u "disk_identity_key", JStr (k_disk k));
   (u "logical_unit_id", max_col "logical_unit_id" rows); (u "sas_address", max_col "sas_address" rows)].

(** Columns that are [NOT NULL] *)
Definition REQUIRED : list string :=
  ["bucket_start"; "bucket_seconds"; "system_id"; "enclosure_key"; "slot"; "slot_label"; "metric_name"; "sample_count";
   "value_sum"; "value_min"; "value_max"; "last_value"; "last_observed_at"; "disk_identity_key"]%string.
Definition constraint_ok (r : row) : bool := forallb (λ k, negb (is_null (col k r))) REQUIRED.

(** [ON CONFLICT ... DO UPDATE]: the columns of a row that is there already *)
Definition coalesce (a b : json) : json := if is_null a then b else a.
Definition merge_rollup (existing excluded : row) : row :=
  let newer := ustr_leb (text_col "last_observed_at" existing) (text_col "last_observed_at" excluded) in
  let kept k := (u k, coalesce (col k excluded) (col k existing)) in
  foldl (λ r kv, jset kv.1 kv.2 r) existing
    [kept "system_label"; kept "enclosure_id"; kept "enclosure_label"; (u "slot_label", col "slot_label" excluded);
     (u "sample_count", JInt (int_col "sample_count" existing + int_col "sample_count" excluded));
     (u "value_sum", real_add (col "value_sum" existing) (col "value_sum" excluded));
     (u "value_min", real_min (col "value_min" existing) (col "value_min" excluded));
     (u "value_max", real_max (col "value_max" existing) (col "value_max" excluded));
     (u "last_value", if newer then col "last_value" excluded else col "last_value" existing);
     (u "last_observed_at", if newer then col "last_observed_at" excluded else col "last_observed_at" existing);
     kept "device_name"; kept "serial"; kept "model"; kept "state"; kept "gptid"; kept "persistent_id_label";
     kept "logical_unit_id"; kept "sas_address"]%string.
(** The primary key *)
Definition rollup_key (r : row) : Z * group_key :=
  (int_col "bucket_seconds" r,
   mkKey (Some (text_col "bucket_start" r)) (text_col "system_id" r) (text_col "enclosure_key" r) (int_col "slot" r) (text_col "metric_name" r)
     (text_col "disk_identity_key" r)).
Fixpoint upsert (excluded : row) (rows : list row) : result write_error (list row) :=
  match rows with
  | [] => Ok [excluded]
  | r :: rows' =>
      if bool_decide (rollup_key r = rollup_key excluded) then
        let merged := merge_rollup r excluded in
        if constraint_ok merged then Ok (merged :: rows') else Err IntegrityError
      else rows'' ← upsert excluded rows'; Ok (r :: rows'')
  end.
Fixpoint insert_rollups (excluded : list row) (rows : list row) : result write_error (list row) :=
  match excluded with
  | [] => Ok rows
  | r :: excluded' =>
      raise: IntegrityError when negb (constraint_ok r);
      rows ← upsert r rows; insert_rollups excluded' rows
  end.
(** [_roll_up_metric_rows] *)
Definition roll_up_metric_rows (cutoff : ustr) (batch_size bucket_seconds : Z) (db : database) : result write_error database :=
  raise: WriteFailed ValueError when negb (bool_decide (bucket_seconds = 3600 ∨ bucket_seconds = 86400));
  let ids := expired_ids cutoff batch_size (metric_samples db) in
  let selected := List.filter (has_id ids) (metric_samples db) in
  let keys := group_order (remove_dups (key_of bucket_seconds <$> List.filter has_value selected)) in
  rollups ← insert_rollups (rollup_row bucket_seconds selected <$> keys) (metric_rollups db);
  Ok (mkDatabase (slot_events db) (metric_samples db) rollups).

(** ** A batch *)

Record cutoffs := mkCutoffs { c_metric : option ustr; c_event : option ustr; c_hourly : option ustr; c_daily : option ustr }.
Record removed := mkRemoved { metric_samples_removed : Z; events_removed : Z; hourly_rollups_removed : Z; daily_rollups_removed : Z }.

(** The samples of a batch: rolled up twice, then deleted *)
Definition retire_samples (cutoff : option ustr) (batch_size : Z) (db : database) : result write_error (database * Z) :=
  match cutoff with
  | None => Ok (db, 0)
  | Some t =>
      db ← roll_up_metric_rows t batch_size 3600 db;
      db ← roll_up_metric_rows t batch_size 86400 db;
      let '(samples, n) := delete_expired_rows cutoff batch_size (metric_samples db) in
      Ok (mkDatabase (slot_events db) samples (metric_rollups db), n)
  end.
(** [_maintain_retention_batch] *)
Definition batch_has_more (c : cutoffs) (db : database) : bool :=
  retention_rows_exist "observed_at" (c_metric c) (metric_samples db) || retention_rows_exist "observed_at" (c_event c) (slot_events db)
  || rollups_exist 3600 (c_hourly c) (metric_rollups db) || rollups_exist 86400 (c_daily c) (metric_rollups db).
Definition maintain_retention_batch (c : cutoffs) (batch_size : Z) (db : database) : result write_error (database * removed * bool) :=
  dn ← retire_samples (c_metric c) batch_size db;
  let '(db, samples_n) := dn in
  let '(events, events_n) := delete_expired_rows (c_event c) batch_size (slot_events db) in
  let '(rollups, hourly_n) := delete_rollup_batch 3600 (c_hourly c) batch_size (metric_rollups db) in
  let '(rollups, daily_n) := delete_rollup_batch 86400 (c_daily c) batch_size rollups in
  let db := mkDatabase events (metric_samples db) rollups in
  Ok (db, mkRemoved samples_n events_n hourly_n daily_n, batch_has_more c db).

(** ** The whole run *)

Record summary := mkSummary { s_removed : removed; batches_completed : Z; has_more : bool; interrupted : bool }.
Definition add_removed (a b : removed) : removed :=
  mkRemoved (metric_samples_removed a + metric_samples_removed b) (events_removed a + events_removed b)
    (hourly_rollups_removed a + hourly_rollups_removed b) (daily_rollups_removed a + daily_rollups_removed b).
(** [_retention_total_rows_removed] *)
Definition total_rows_removed (s : summary) : Z :=
  let r := s_removed s in metric_samples_removed r + events_removed r + hourly_rollups_removed r + daily_rollups_removed r.

(** The outcome: the summary with the pages reclaimed, or the exception with the
    summary attached to it. *)
Inductive outcome :=
| Refused (e : py_exn)
| Maintained (s : summary) (pages : Z)
| Failed (e : write_error) (s : summary).

Context {RW : RetentionWorld}.

(** The loop: round [i] of [rounds] left *)
Fixpoint retention_rounds (c : cutoffs) (batch_size : Z) (rounds i : nat) (db : database) (s : summary) : database * (summary + write_error * summary) :=
  match rounds with
  | O => (db, inl s)
  | S rounds =>
      if negb (should_continue i) then (db, inl (mkSummary (s_removed s) (batches_completed s) (has_more s) true))
      else
        let db := other_writers i db in
        match (match write_fails i with Some e => Err e | None => maintain_retention_batch c batch_size db end) with
        | Err e => (db, inr (e, mkSummary (s_removed s) (batches_completed s) true (interrupted s)))
        | Ok (db, batch, more) =>
            let s := mkSummary (add_removed (s_removed s) batch) (batches_completed s + 1) more (interrupted s) in
            if more then retention_rounds c batch_size rounds (S i) db s else (db, inl s)
        end
  end.
Definition new_summary : summary := mkSummary (mkRemoved 0 0 0 0) 0 false false.
(** [_reclaim_free_pages] *)
Definition reclaim_free_pages (s : summary) : Z :=
  if negb (total_rows_removed s =? 0) && negb (interrupted s) then pages_reclaimed (Z.to_nat (batches_completed s)) else 0.
Definition retention_cutoffs (now : datetime) (raw event hourly daily : Z) : result py_exn cutoffs :=
  now ← astimezone_utc now (default 0 (dt_offset now));
  m ← retention_cutoff now raw; e ← retention_cutoff now event; h ← retention_cutoff now hourly; d ← retention_cutoff now daily;
  Ok (mkCutoffs m e h d).
Definition maintain_retention (now : datetime) (raw event hourly daily batch_size max_batches : Z) (db : database) : database * outcome :=
  if existsb (λ days, days <? 0) [raw; event; hourly; daily] || (batch_size <? 1) || (max_batches <? 1) then (db, Refused ValueError)
  else match retention_cutoffs now raw event hourly daily with
       | Err e => (db, Refused e)
       | Ok c =>
           match retention_rounds c batch_size (Z.to_nat max_batches) 0 db new_summary with
           | (db, inl s) => (db, Maintained s (reclaim_free_pages s))
           | (db, inr (e, s)) => (db, Failed e s)
           end
       end.
End retention.
