(* ===== verification/RetentionProofs.v ===== *)
(** * What retention conserves

    For every bucket a database holds a [view]: how many values, their least and
    greatest, the newest one and its time, over the rollup of the bucket and the
    samples that are not rolled up yet.  A batch moves samples into rollups and
    leaves the view of every bucket as it was ([retention_conserves]), whatever its
    size; only buckets beyond their own retention go. *)

From S2P Require Import Prelude.
From S2P Require Import PyStr.
From S2P Require Import Json.
From S2P Require Import JsonProofs.
From S2P Require Import Journal.
From S2P Require Import ReadBounds.
From S2P Require Import ScopeHistory.
From S2P Require Import ScopeHistoryProofs.
From S2P Require Import Retention.
#[local] Open Scope Z_scope.
#[local] Open Scope list_scope.

(** [REAL]s that are stored are linearly ordered, [GROUP BY] delivers each group
    once. *)
Class SqliteLaws (SQ : Sqlite) (is_real : json → Prop) : Prop := {
  real_not_null : ¬ is_real JNull;
  real_total : ∀ a b, is_real a → is_real b → real_leb a b = true ∨ real_leb b a = true;
  real_trans : ∀ a b c, is_real a → is_real b → is_real c → real_leb a b = true → real_leb b c = true → real_leb a c = true;
  real_antisym : ∀ a b, is_real a → is_real b → real_leb a b = true → real_leb b a = true → a = b;
  group_order_perm : ∀ l, group_order l ≡ₚ l;
}.

(** ** Time and id *)

Lemma oldest_first_total a b : oldest_first a b = true ∨ oldest_first b a = true.
Proof. apply newest_first_total. Qed.
Lemma oldest_first_trans a b c : oldest_first a b = true → oldest_first b c = true → oldest_first a c = true.
Proof. unfold oldest_first. intros H1 H2. by eapply newest_first_trans. Qed.
Lemma newest_first_same a b : newest_first a b = true → newest_first b a = true → int_col "id" a = int_col "id" b.
Proof.
  unfold newest_first. rewrite !orb_true_iff, !andb_true_iff, !negb_true_iff, !bool_decide_eq_true, !Z.leb_le.
  intros [H1|[E1 H1]] [H2|[E2 H2]]; try lia.
  - destruct (ustr_leb_total (text_col "observed_at" a) (text_col "observed_at" b)); congruence.
  - rewrite E2 in H1. destruct (ustr_leb_total (text_col "observed_at" a) (text_col "observed_at" a)); congruence.
  - rewrite E1 in H2. destruct (ustr_leb_total (text_col "observed_at" b) (text_col "observed_at" b)); congruence.
Qed.
Lemma oldest_first_observed a b : oldest_first a b = true → ustr_leb (text_col "observed_at" a) (text_col "observed_at" b) = true.
Proof.
  unfold oldest_first, newest_first. rewrite orb_true_iff, andb_true_iff, negb_true_iff, bool_decide_eq_true. intros [H|[-> _]].
  - destruct (ustr_leb_total (text_col "observed_at" a) (text_col "observed_at" b)); [done|congruence].
  - by destruct (ustr_leb_total (text_col "observed_at" a) (text_col "observed_at" a)).
Qed.

(** Tables with ids of their own *)
Definition ids (rows : list row) : list Z := int_col "id" <$> rows.
Lemma id_unique rows a b : NoDup (ids rows) → a ∈ rows → b ∈ rows → int_col "id" a = int_col "id" b → a = b.
Proof.
  intros Hnd [i Hi]%list_elem_of_lookup [j Hj]%list_elem_of_lookup E.
  assert (i = j) as ->; [|congruence]. eapply NoDup_lookup; [exact Hnd| |]; unfold ids; rewrite list_lookup_fmap; [by rewrite Hi|by rewrite Hj; cbn; rewrite E].
Qed.
Lemma ids_filter f rows : NoDup (ids rows) → NoDup (ids (List.filter f rows)).
Proof.
  unfold ids. intros H. eapply sublist_NoDup; [exact H|]. clear H. induction rows as [|r rows IH]; [done|]. cbn. destruct (f r); cbn; by constructor.
Qed.
Lemma has_id_spec sub rows r : NoDup (ids rows) → r ∈ rows → (∀ x, x ∈ sub → x ∈ rows) → has_id (int_col "id" <$> sub) r = true ↔ r ∈ sub.
Proof.
  intros Hnd Hr Hsub. unfold has_id. rewrite bool_decide_eq_true, list_elem_of_fmap. split.
  - intros (x & E & Hx). by rewrite (id_unique rows r x Hnd Hr (Hsub x Hx) E).
  - intros H. by exists r.
Qed.
Lemma filter_split {A} (f : A → bool) l : l ≡ₚ List.filter f l ++ List.filter (λ x, negb (f x)) l.
Proof. induction l as [|x l IH]; [done|]. cbn. destruct (f x); cbn; [by constructor|]. rewrite IH at 1. apply Permutation_middle. Qed.

(** The rows of a batch and those that stay *)
Lemma expired_rows_elem cutoff n rows r : r ∈ expired_rows cutoff n rows → r ∈ rows ∧ older "observed_at" cutoff r = true.
Proof. intros H%elem_of_take. destruct H as (i & Hi & _). apply list_elem_of_lookup_2, elem_of_sort_by, elem_of_filter_list in Hi. done. Qed.
Lemma batch_below cutoff n rows a b : NoDup (ids rows) → a ∈ rows → b ∈ rows →
  has_id (expired_ids cutoff n rows) a = true → has_id (expired_ids cutoff n rows) b = false → oldest_first a b = true.
Proof.
  intros Hnd Ha Hb Hia Hib. assert (∀ x, x ∈ expired_rows cutoff n rows → x ∈ rows) as Hsub by (intros x Hx; by apply expired_rows_elem in Hx as [? _]).
  apply (has_id_spec _ rows) in Hia; [|done..].
  assert (b ∉ expired_rows cutoff n rows) as Hnb. { intros Hx. apply (has_id_spec _ rows) in Hx; [|done..]. unfold expired_ids in Hib. congruence. }
  destruct (older "observed_at" cutoff b) eqn:Eb.
  - destruct (take_sorted_chosen oldest_first (Z.to_nat n) (List.filter (older "observed_at" cutoff) rows) oldest_first_total oldest_first_trans) as [(rest & Hp & Hle) _ _].
    apply Hle; [exact Hia|]. assert (b ∈ List.filter (older "observed_at" cutoff) rows) as Hin by by apply elem_of_filter_list.
    rewrite Hp in Hin. apply elem_of_app in Hin as [?|?]; [done|done].
  - apply expired_rows_elem in Hia as [_ Hoa]. unfold older in *. to_prop. unfold oldest_first, newest_first.
    rewrite orb_true_iff, negb_true_iff. left. destruct (ustr_leb (text_col "observed_at" b) (text_col "observed_at" a)) eqn:E; [|done].
    by rewrite (ustr_leb_trans _ _ _ Eb E) in Hoa.
Qed.

(** ** Views *)

Record view := mkView { v_count : Z; v_min : json; v_max : json; v_last : json; v_at : ustr }.

Section views.
Context {SQ : Sqlite} {is_real : json → Prop} {SL : SqliteLaws SQ is_real}.

Definition merge_view (a b : view) : view :=
  let newer := ustr_leb (v_at a) (v_at b) in
  mkView (v_count a + v_count b) (real_min (v_min a) (v_min b)) (real_max (v_max a) (v_max b))
    (if newer then v_last b else v_last a) (if newer then v_at b else v_at a).
Definition good_view (v : view) : Prop := is_real (v_min v) ∧ is_real (v_max v).
Definition merge (a b : option view) : option view :=
  match a, b with None, _ => b | _, None => a | Some a, Some b => Some (merge_view a b) end.
Definition good (o : option view) : Prop := match o with Some v => good_view v | None => True end.

Lemma real_min_or a b : real_min a b = a ∨ real_min a b = b.
Proof. unfold real_min. destruct (real_leb a b); auto. Qed.
Lemma real_max_or a b : real_max a b = a ∨ real_max a b = b.
Proof. unfold real_max. destruct (real_leb a b); auto. Qed.
Lemma real_min_real a b : is_real a → is_real b → is_real (real_min a b).
Proof. destruct (real_min_or a b) as [->| ->]; auto. Qed.
Lemma real_max_real a b : is_real a → is_real b → is_real (real_max a b).
Proof. destruct (real_max_or a b) as [->| ->]; auto. Qed.
Lemma real_ltb a b : is_real a → is_real b → real_leb a b = false → real_leb b a = true.
Proof. intros Ha Hb H. destruct (real_total a b Ha Hb); congruence. Qed.
Lemma real_min_comm a b : is_real a → is_real b → real_min a b = real_min b a.
Proof.
  intros Ha Hb. unfold real_min. destruct (real_leb a b) eqn:E1, (real_leb b a) eqn:E2; try done.
  - by apply real_antisym.
  - by rewrite (real_ltb a b) in E2.
Qed.
Lemma real_max_comm a b : is_real a → is_real b → real_max a b = real_max b a.
Proof.
  intros Ha Hb. unfold real_max. destruct (real_leb a b) eqn:E1, (real_leb b a) eqn:E2; try done.
  - by apply real_antisym.
  - by rewrite (real_ltb a b) in E2.
Qed.
Lemma real_min_assoc a b c : is_real a → is_real b → is_real c → real_min a (real_min b c) = real_min (real_min a b) c.
Proof.
  intros Ha Hb Hc. unfold real_min. destruct (real_leb a b) eqn:E1, (real_leb b c) eqn:E2; rewrite ?E1, ?E2; try done.
  - by rewrite (real_trans a b c).
  - destruct (real_leb a c) eqn:E3; [|done]. apply real_ltb in E1; [|done..]. by rewrite (real_trans b a c) in E2.
Qed.
Lemma real_max_assoc a b c : is_real a → is_real b → is_real c → real_max a (real_max b c) = real_max (real_max a b) c.
Proof.
  intros Ha Hb Hc. unfold real_max. destruct (real_leb a b) eqn:E1, (real_leb b c) eqn:E2; rewrite ?E1, ?E2; try done.
  - by rewrite (real_trans a b c).
  - destruct (real_leb a c) eqn:E3; [|done]. apply real_ltb in E1; [|done..]. by rewrite (real_trans b a c) in E2.
Qed.
Lemma merge_view_good a b : good_view a → good_view b → good_view (merge_view a b).
Proof. intros [??] [??]. split; [by apply real_min_real|by apply real_max_real]. Qed.
Lemma merge_view_assoc a b c : good_view a → good_view b → good_view c → merge_view a (merge_view b c) = merge_view (merge_view a b) c.
Proof.
  intros [Ha Ha'] [Hb Hb'] [Hc Hc']. unfold merge_view. cbn [v_count v_min v_max v_last v_at]. f_equal.
  - lia.
  - by apply real_min_assoc.
  - by apply real_max_assoc.
  - destruct (ustr_leb (v_at a) (v_at b)) eqn:E1, (ustr_leb (v_at b) (v_at c)) eqn:E2; rewrite ?E1, ?E2; try done.
    + by rewrite (ustr_leb_trans _ _ _ E1 E2).
    + destruct (ustr_leb (v_at a) (v_at c)) eqn:E3; [|done]. destruct (ustr_leb_total (v_at b) (v_at a)) as [E|E]; [|congruence].
      by rewrite (ustr_leb_trans _ _ _ E E3) in E2.
  - destruct (ustr_leb (v_at a) (v_at b)) eqn:E1, (ustr_leb (v_at b) (v_at c)) eqn:E2; rewrite ?E1, ?E2; try done.
    + by rewrite (ustr_leb_trans _ _ _ E1 E2).
    + destruct (ustr_leb (v_at a) (v_at c)) eqn:E3; [|done]. destruct (ustr_leb_total (v_at b) (v_at a)) as [E|E]; [|congruence].
      by rewrite (ustr_leb_trans _ _ _ E E3) in E2.
Qed.
Lemma merge_good a b : good a → good b → good (merge a b).
Proof. destruct a, b; cbn; auto using merge_view_good. Qed.
Lemma merge_assoc a b c : good a → good b → good c → merge a (merge b c) = merge (merge a b) c.
Proof. destruct a, b, c; cbn; try done. intros. f_equal. by apply merge_view_assoc. Qed.
Lemma merge_none_r a : merge a None = a.
Proof. by destruct a. Qed.

(** The view of samples, oldest first *)
Definition sample_view (r : row) : view := mkView 1 (value_of r) (value_of r) (value_of r) (text_col "observed_at" r).
Definition views_of (rows : list row) : option view := foldr (λ r o, merge (Some (sample_view r)) o) None rows.
Definition real_value (r : row) : Prop := is_real (value_of r).
Lemma views_of_good rows : Forall real_value rows → good (views_of rows).
Proof. induction 1 as [|r rows Hr _ IH]; [done|]. cbn [views_of foldr]. by apply merge_good. Qed.
Lemma views_of_app l1 l2 : Forall real_value l1 → Forall real_value l2 → views_of (l1 ++ l2) = merge (views_of l1) (views_of l2).
Proof.
  intros H1 H2. induction H1 as [|r l1 Hr H1 IH]; [done|]. cbn [app]. change (views_of (r :: ?l)) with (merge (Some (sample_view r)) (views_of l)).
  rewrite IH. apply merge_assoc; [done|by apply views_of_good..].
Qed.

(** What they add up to *)
Lemma aggregate_snoc f l v : l ≠ [] → aggregate f (l ++ [v]) = f (aggregate f l) v.
Proof. destruct l as [|a l]; [done|]. intros _. cbn. by rewrite foldl_app. Qed.
Lemma aggregate_real (f : json → json → json) l : (∀ a b, is_real a → is_real b → is_real (f a b)) → Forall is_real l → l ≠ [] → is_real (aggregate f l).
Proof.
  intros Hf H Hl. destruct H as [|a l Ha H]; [done|]. cbn. clear Hl. revert a Ha. induction H as [|b l Hb _ IH]; intros a Ha; [done|]. cbn. by apply IH, Hf.
Qed.
Lemma aggregate_perm (f : json → json → json) l l' : (∀ a b, is_real a → is_real b → is_real (f a b)) → (∀ a b, is_real a → is_real b → f a b = f b a) →
  (∀ a b c, is_real a → is_real b → is_real c → f a (f b c) = f (f a b) c) → Forall is_real l → l ≡ₚ l' → aggregate f l = aggregate f l'.
Proof.
  intros Hf Hc Ha H Hp.
  assert (∀ l a b, Forall is_real l → is_real a → is_real b → foldl f (f a b) l = f a (foldl f b l)) as Hfold.
  { clear l l' H Hp. induction l as [|x l IH]; intros a b H Hra Hrb; [done|]. apply Forall_cons in H as [Hx H]. cbn. rewrite <-Ha by done. by apply IH; auto. }
  induction Hp as [|x l l' Hp IH|x y l|l1 l2 l3 Hp1 IH1 Hp2 IH2].
  - done.
  - apply Forall_cons in H as [Hx H]. specialize (IH H). destruct l as [|a l], l' as [|b l']; [done|by apply Permutation_nil in Hp|symmetry in Hp; by apply Permutation_nil in Hp|].
    cbn in *. assert (Forall is_real (b :: l')) as H' by by rewrite <-Hp. apply Forall_cons in H as [??], H' as [??].
    rewrite !Hfold by done. by rewrite IH.
  - apply Forall_cons in H as [Hx H]. apply Forall_cons in H as [Hy H]. cbn. by rewrite Hc.
  - rewrite IH1 by done. apply IH2. by rewrite <-Hp1.
Qed.
Lemma views_of_sorted l r : StronglySorted (le_of oldest_first) (l ++ [r]) → Forall real_value (l ++ [r]) →
  views_of (l ++ [r]) = Some (mkView (ulen (l ++ [r])) (aggregate real_min (value_of <$> l ++ [r])) (aggregate real_max (value_of <$> l ++ [r]))
    (value_of r) (text_col "observed_at" r)).
Proof.
  revert r. induction l as [|r' l IH] using rev_ind; intros r Hs Hr; [done|].
  apply Forall_app in Hr as [Hr1 Hr2]. rewrite views_of_app by done. rewrite IH; [|by apply StronglySorted_app_1_l in Hs|done].
  cbn [views_of foldr merge]. f_equal. unfold merge_view. cbn [v_count v_min v_max v_last v_at sample_view].
  assert (ustr_leb (text_col "observed_at" r') (text_col "observed_at" r) = true) as ->.
  { apply oldest_first_observed. apply (StronglySorted_app_1_elem_of _ _ _ _ _ Hs); [apply elem_of_app; right|]; by left. }
  rewrite !fmap_app. cbn [fmap list_fmap]. rewrite (aggregate_snoc real_min (_ ++ [_])), (aggregate_snoc real_max (_ ++ [_])) by by destruct l.
  f_equal. unfold ulen. rewrite !length_app. cbn. lia.
Qed.

(** The samples of a bucket *)
Definition valued_in (seconds : Z) (k : group_key) (r : row) : bool := has_value r && in_group seconds k r.
Definition raw_view (seconds : Z) (k : group_key) (rows : list row) : option view :=
  views_of (sort_by oldest_first (List.filter (valued_in seconds k) rows)).
(** What the constraints of a table of samples say of a row, and that its value is a
    number *)
Record sample_ok (r : row) : Prop := {
  sample_observed : col "observed_at" r = JStr (text_col "observed_at" r);
  sample_slot_label : col "slot_label" r = JStr (text_col "slot_label" r);
  sample_real : has_value r = true → real_value r;
}.
Record samples_ok (rows : list row) : Prop := {
  samples_ids : NoDup (ids rows);
  samples_rows : Forall sample_ok rows;
}.
Lemma samples_ok_filter f rows : samples_ok rows → samples_ok (List.filter f rows).
Proof.
  intros [H1 H2]. split; [by apply ids_filter|]. rewrite Forall_forall in *. intros r [Hr _]%elem_of_filter_list. by apply H2.
Qed.
Lemma valued_real seconds k rows : samples_ok rows → Forall real_value (List.filter (valued_in seconds k) rows).
Proof.
  intros [_ H]. rewrite Forall_forall in *. intros r [Hr Hv]%elem_of_filter_list. unfold valued_in in Hv. to_prop. by apply H.
Qed.
Lemma sort_real leb rows : Forall real_value rows → Forall real_value (sort_by leb rows).
Proof. by rewrite sort_by_perm. Qed.
Lemma raw_view_good seconds k rows : samples_ok rows → good (raw_view seconds k rows).
Proof. intros H. by apply views_of_good, sort_real, valued_real. Qed.
Lemma raw_view_split seconds k f rows : samples_ok rows → (∀ a b, a ∈ rows → b ∈ rows → f a = true → f b = false → oldest_first a b = true) →
  raw_view seconds k rows = merge (raw_view seconds k (List.filter f rows)) (raw_view seconds k (List.filter (λ r, negb (f r)) rows)).
Proof.
  intros H Hf. unfold raw_view.
  rewrite (sort_by_split oldest_first (List.filter (valued_in seconds k) rows) (List.filter (valued_in seconds k) (List.filter f rows))
    (List.filter (valued_in seconds k) (List.filter (λ r, negb (f r)) rows))).
  - apply views_of_app; apply sort_real, valued_real; by apply samples_ok_filter.
  - apply oldest_first_total.
  - apply oldest_first_trans.
  - intros x y [Hx _]%elem_of_filter_list [Hy _]%elem_of_filter_list H1 H2. apply (id_unique rows); [apply H|done|done|by apply newest_first_same].
  - rewrite (filter_split f rows) at 1. by rewrite List.filter_app.
  - intros x y [[Hx Hfx]%elem_of_filter_list _]%elem_of_filter_list [[Hy Hfy]%elem_of_filter_list _]%elem_of_filter_list. apply Hf; [done..|by apply negb_true_iff].
Qed.

(** ** Rollup rows *)

Definition row_view (r : row) : view :=
  mkView (int_col "sample_count" r) (col "value_min" r) (col "value_max" r) (col "last_value" r) (text_col "last_observed_at" r).

Lemma text_max_fold l t : (∀ v, v ∈ l → ∃ s, v = JStr s ∧ ustr_leb s t = true) → JStr t ∈ l → foldl text_max JNull l = JStr t.
Proof.
  intros H Ht.
  assert (∀ l a, (∀ v, v ∈ l → ∃ s, v = JStr s ∧ ustr_leb s t = true) → (a = JStr t ∨ (a = JNull ∨ ∃ s, a = JStr s ∧ ustr_leb s t = true) ∧ JStr t ∈ l) → foldl text_max a l = JStr t) as Hfold;
    [|by apply Hfold; auto].
  clear l H Ht. induction l as [|v l IH]; intros a H Ha; cbn.
  { destruct Ha as [->|[_ ?%elem_of_nil]]; done. }
  destruct (H v) as (s & -> & Hs); [by left|]. apply IH; [intros w Hw; apply H; by right|].
  destruct Ha as [->|[Ha [[= ->]|Hin]%elem_of_cons]].
  - left. cbn. destruct (ustr_leb t s) eqn:E; [|done]. f_equal. by apply ustr_leb_antisym.
  - left. destruct Ha as [->|(s0 & -> & Hs')]; [done|]. cbn. by rewrite Hs'.
  - right. split; [|done]. right. destruct Ha as [->|(s' & -> & Hs')]; [by exists s|]. cbn. destruct (ustr_leb s' s); eauto.
Qed.
Lemma snoc_cases {A} (l : list A) : l = [] ∨ ∃ l' x, l = l' ++ [x].
Proof. induction l as [|x l' _] using rev_ind; [by left|]. right. by exists l', x. Qed.

Lemma newest_of_partition seconds selected k r l : samples_ok selected → constraint_ok (rollup_row seconds selected k) = true →
  sort_by oldest_first (List.filter (valued_in seconds k) selected) = l ++ [r] → newest_value (List.filter (in_group seconds k) selected) = value_of r.
Proof.
  intros Hok Hc Hl. unfold constraint_ok in Hc. rewrite forallb_forall in Hc. specialize (Hc "last_value"%string).
  change (col "last_value" (rollup_row seconds selected k)) with (newest_value (List.filter (in_group seconds k) selected)) in Hc.
  unfold newest_value in *. pose proof (sort_by_sorted newest_first newest_first_total newest_first_trans (List.filter (in_group seconds k) selected)) as Hs.
  destruct (sort_by newest_first _) as [|h rest] eqn:E; [exfalso; cbn in Hc; assert (false = true) by (apply Hc; tauto); done|].
  assert (r ∈ sort_by oldest_first (List.filter (valued_in seconds k) selected)) as Hr by (rewrite Hl; apply elem_of_app; right; left).
  rewrite elem_of_sort_by, elem_of_filter_list in Hr. destruct Hr as [Hr Hv]. unfold valued_in in Hv. apply andb_true_iff in Hv as [Hvr Hg].
  assert (h ∈ sort_by newest_first (List.filter (in_group seconds k) selected)) as Hh by (rewrite E; left).
  rewrite elem_of_sort_by, elem_of_filter_list in Hh. destruct Hh as [Hh Hgh].
  assert (has_value h = true) as Hvh by (apply Hc; cbn; tauto).
  f_equal. apply (id_unique selected); [apply Hok|done|done|]. apply newest_first_same.
  - assert (r ∈ h :: rest) as Hin by (rewrite <-E, elem_of_sort_by; by apply elem_of_filter_list).
    apply elem_of_cons in Hin as [->|Hin]; [by destruct (newest_first_total h h)|].
    apply StronglySorted_inv in Hs as [_ Hs]. rewrite Forall_forall in Hs. by apply Hs.
  - assert (h ∈ l ++ [r]) as Hin by (rewrite <-Hl, elem_of_sort_by; apply elem_of_filter_list; unfold valued_in; by rewrite Hvh, Hgh).
    apply elem_of_app in Hin as [Hin| ->%list_elem_of_singleton]; [|by destruct (newest_first_total r r)].
    pose proof (sort_by_sorted oldest_first oldest_first_total oldest_first_trans (List.filter (valued_in seconds k) selected)) as Ho.
    rewrite Hl in Ho. apply (StronglySorted_app_1_elem_of _ _ _ _ _ Ho); [done|by left].
Qed.
Lemma filter_valued seconds k rows : List.filter has_value (List.filter (in_group seconds k) rows) = List.filter (valued_in seconds k) rows.
Proof. rewrite filter_filter. apply List.filter_ext. intros r. unfold valued_in. apply andb_comm. Qed.
Lemma rollup_row_columns seconds selected k (r := rollup_row seconds selected k) (rows := List.filter (valued_in seconds k) selected) :
  row_view r = mkView (ulen rows) (aggregate real_min (value_of <$> rows)) (aggregate real_max (value_of <$> rows))
    (newest_value (List.filter (in_group seconds k) selected)) (match max_col "observed_at" rows with JStr s => s | _ => [] end).
Proof. subst r rows. rewrite <-filter_valued. reflexivity. Qed.
Lemma max_observed rows l r : Forall sample_ok rows → rows ≡ₚ l ++ [r] → StronglySorted (le_of oldest_first) (l ++ [r]) →
  max_col "observed_at" rows = JStr (text_col "observed_at" r).
Proof.
  intros Hok Hp Hs. unfold max_col. rewrite Forall_forall in Hok. assert (r ∈ rows) as Hr by (rewrite Hp; apply elem_of_app; right; left).
  apply text_max_fold.
  - intros v (x & -> & Hx)%list_elem_of_fmap. exists (text_col "observed_at" x). split; [by apply Hok|]. apply oldest_first_observed.
    rewrite Hp in Hx. apply elem_of_app in Hx as [Hx| ->%list_elem_of_singleton]; [|by destruct (oldest_first_total r r)].
    apply (StronglySorted_app_1_elem_of _ _ _ _ _ Hs); [done|by left].
  - apply list_elem_of_fmap. exists r. split; [|done]. symmetry. by apply Hok.
Qed.
Lemma rollup_row_view seconds selected k : samples_ok selected → constraint_ok (rollup_row seconds selected k) = true →
  List.filter (valued_in seconds k) selected ≠ [] → raw_view seconds k selected = Some (row_view (rollup_row seconds selected k)).
Proof.
  intros Hok Hc Hne. unfold raw_view. pose proof (sort_by_perm oldest_first (List.filter (valued_in seconds k) selected)) as Hp.
  pose proof (sort_by_sorted oldest_first oldest_first_total oldest_first_trans (List.filter (valued_in seconds k) selected)) as Hs.
  pose proof (valued_real seconds k selected Hok) as Hreal.
  destruct (snoc_cases (sort_by oldest_first (List.filter (valued_in seconds k) selected))) as [E|(l & r & E)].
  { rewrite E in Hp. by apply Permutation_nil in Hp. }
  pose proof (newest_of_partition seconds selected k r l Hok Hc E) as Hlast. rewrite E in Hs, Hp |- *. rewrite views_of_sorted; [|done|by rewrite Hp].
  rewrite rollup_row_columns, Hlast. rewrite (max_observed _ l r); [|by apply samples_ok_filter|done|done].
  assert (Forall is_real (value_of <$> l ++ [r])) as Hv by (rewrite Hp; by apply Forall_fmap).
  f_equal. f_equal; [unfold ulen; by rewrite Hp|apply aggregate_perm|apply aggregate_perm]; auto using real_min_real, real_min_comm, real_min_assoc, real_max_real, real_max_comm, real_max_assoc;
    by rewrite Hp.
Qed.

(** ** Inserting rollups *)

Lemma jget_updates k upd (base : row) : NoDup upd.*1 →
  jget k (foldl (λ r kv, jset kv.1 kv.2 r) base upd) = match jget k upd with Some v => Some v | None => jget k base end.
Proof.
  revert base. induction upd as [|[k' v] upd IH]; intros base Hn; [done|]. apply NoDup_cons in Hn as [Hk Hn]. cbn [foldl fst snd jget].
  rewrite IH by done. rewrite jget_jset. destruct (decide (k = k')) as [->|]; [|done].
  destruct (jget k' upd) as [w|] eqn:E; [|done]. exfalso. apply Hk. apply list_elem_of_fmap. exists (k', w). split; [done|].
  by apply jget_elem.
Qed.
Definition rollup_updates (existing excluded : row) : list (ustr * json) :=
  let newer := ustr_leb (text_col "last_observed_at" existing) (text_col "last_observed_at" excluded) in
  let kept k := (u k, coalesce (col k excluded) (col k existing)) in
  [kept "system_label"; kept "enclosure_id"; kept "enclosure_label"; (u "slot_label", col "slot_label" excluded);
     (u "sample_count", JInt (int_col "sample_count" existing + int_col "sample_count" excluded));
     (u "value_sum", real_add (col "value_sum" existing) (col "value_sum" excluded));
     (u "value_min", real_min (col "value_min" existing) (col "value_min" excluded));
     (u "value_max", real_max (col "value_max" existing) (col "value_max" excluded));
     (u "last_value", if newer then col "last_value" excluded else col "last_value" existing);
     (u "last_observed_at", if newer then col "last_observed_at" excluded else col "last_observed_at" existing);
     kept "device_name"; kept "serial"; kept "model"; kept "state"; kept "gptid"; kept "persistent_id_label";
     kept "logical_unit_id"; kept "sas_address"]%string.
Lemma merged_field k existing excluded :
  jget k (merge_rollup existing excluded) = match jget k (rollup_updates existing excluded) with Some v => Some v | None => jget k existing end.
Proof. apply (jget_updates k (rollup_updates existing excluded)). unfold rollup_updates. cbn [fmap list_fmap fst]. by apply (bool_decide_unpack _). Qed.
Lemma merge_rollup_key existing excluded : rollup_key (merge_rollup existing excluded) = rollup_key existing.
Proof. unfold rollup_key, int_col, text_col, field. rewrite !merged_field. reflexivity. Qed.
Lemma text_of_col k r : match Some (col k r) with Some (JStr s) => s | _ => [] end = text_col k r.
Proof. unfold text_col, col, field_or. by destruct (field k r) as [[]|]. Qed.
Lemma merge_rollup_view existing excluded : row_view (merge_rollup existing excluded) = merge_view (row_view existing) (row_view excluded).
Proof.
  assert (∀ k, text_col k (merge_rollup existing excluded) = match jget (u k) (merge_rollup existing excluded) with Some (JStr s) => s | _ => [] end) as Ht by done.
  unfold row_view at 1. rewrite Ht. unfold int_col at 1, col at 1 2 3, field_or, field. rewrite !merged_field.
  unfold merge_view. cbn [v_count v_min v_max v_last v_at row_view]. f_equal.
  transitivity (match Some (if ustr_leb (text_col "last_observed_at" existing) (text_col "last_observed_at" excluded) then col "last_observed_at" excluded
    else col "last_observed_at" existing) with Some (JStr s) => s | _ => [] end); [reflexivity|]. destruct (ustr_leb _ _); apply text_of_col.
Qed.

Definition rollup_view (rows : list row) (key : Z * group_key) : option view :=
  row_view <$> head (List.filter (λ r, bool_decide (rollup_key r = key)) rows).
Definition rollup_keys (rows : list row) : list (Z * group_key) := rollup_key <$> rows.
Lemma rollup_view_cons r rows key : rollup_view (r :: rows) key = if bool_decide (rollup_key r = key) then Some (row_view r) else rollup_view rows key.
Proof. unfold rollup_view. cbn [List.filter]. by destruct (bool_decide _). Qed.
Lemma rollup_view_none rows key : key ∉ rollup_keys rows → rollup_view rows key = None.
Proof.
  intros H. unfold rollup_view. rewrite filter_none; [done|]. apply Forall_forall. intros r Hr. apply bool_decide_eq_false. intros <-.
  by apply H, list_elem_of_fmap_2.
Qed.
Record rollups_ok (rows : list row) : Prop := {
  rollups_keys : NoDup (rollup_keys rows);
  rollups_good : Forall (λ r, good_view (row_view r)) rows;
  rollups_constraint : Forall (λ r, constraint_ok r = true) rows;
}.
Lemma rollup_view_good rows key : rollups_ok rows → good (rollup_view rows key).
Proof.
  intros [_ H _]. induction rows as [|r rows IH]; [done|]. apply Forall_cons in H as [Hr H]. rewrite rollup_view_cons. destruct (bool_decide _); auto.
Qed.
Lemma upsert_spec x rows rows' : rollups_ok rows → good_view (row_view x) → constraint_ok x = true → upsert x rows = Ok rows' →
  rollups_ok rows' ∧ (∀ key, rollup_view rows' key = if bool_decide (rollup_key x = key) then merge (rollup_view rows key) (Some (row_view x)) else rollup_view rows key)
  ∧ (∀ key, key ∈ rollup_keys rows' ↔ key ∈ rollup_keys rows ∨ key = rollup_key x).
Proof.
  intros Hok Hx Hcx. revert rows'. induction rows as [|r rows IH]; intros rows'; cbn [upsert].
  - intros [= <-]. split_and!.
    + split; [apply NoDup_singleton|by apply Forall_singleton..].
    + intros key. rewrite rollup_view_cons. destruct (bool_decide _); done.
    + intros key. cbn. rewrite list_elem_of_singleton, elem_of_nil. naive_solver.
  - destruct Hok as [Hn Hg Hcs]. apply NoDup_cons in Hn as [Hr Hn]. apply Forall_cons in Hg as [Hgr Hg]. apply Forall_cons in Hcs as [Hcr Hcs].
    destruct (bool_decide (rollup_key r = rollup_key x)) eqn:E; to_prop.
    + cbv zeta. destruct (constraint_ok (merge_rollup r x)) eqn:Ec; [|done]. intros [= <-]. split_and!.
      * split; cbn [rollup_keys fmap list_fmap]; [rewrite merge_rollup_key; by apply NoDup_cons| |by apply Forall_cons]. apply Forall_cons. split; [|done].
        rewrite merge_rollup_view. by apply merge_view_good.
      * intros key. rewrite !rollup_view_cons, merge_rollup_key, E. destruct (bool_decide (rollup_key x = key)); [|done]. by rewrite merge_rollup_view.
      * intros key. cbn [rollup_keys fmap list_fmap]. rewrite merge_rollup_key, !elem_of_cons, E. tauto.
    + destruct (upsert x rows) as [rows''|] eqn:Eu; [|done]. cbn. intros [= <-]. destruct (IH (Build_rollups_ok _ Hn Hg Hcs) rows'' eq_refl) as (Hok' & Hv & Hk). split_and!.
      * destruct Hok' as [Hn' Hg' Hc']. split; [|by apply Forall_cons..]. apply NoDup_cons. split; [|done]. rewrite Hk. intros [?|?]; done.
      * intros key. rewrite !rollup_view_cons, Hv. destruct (bool_decide (rollup_key r = key)) eqn:E1, (bool_decide (rollup_key x = key)) eqn:E2; to_prop; congruence || done.
      * intros key. change (rollup_keys (r :: ?l)) with (rollup_key r :: rollup_keys l). rewrite !elem_of_cons, Hk. tauto.
Qed.
Lemma insert_rollups_spec xs rows rows' : rollups_ok rows → NoDup (rollup_keys xs) → Forall (λ r, good_view (row_view r)) xs → insert_rollups xs rows = Ok rows' →
  rollups_ok rows' ∧ Forall (λ r, constraint_ok r = true) xs ∧ ∀ key, rollup_view rows' key = merge (rollup_view rows key) (rollup_view xs key).
Proof.
  revert rows. induction xs as [|x xs IH]; intros rows Hok Hn Hg; cbn [insert_rollups].
  - intros [= <-]. split_and!; [done..|]. intros key. by rewrite merge_none_r.
  - apply NoDup_cons in Hn as [Hx Hn]. apply Forall_cons in Hg as [Hgx Hg]. destruct (constraint_ok x) eqn:Ec; [|done]. cbn [negb].
    destruct (upsert x rows) as [rows1|] eqn:Eu; [|done]. cbn. intros H. destruct (upsert_spec x rows rows1 Hok Hgx Ec Eu) as (Hok1 & Hv1 & _).
    destruct (IH rows1 Hok1 Hn Hg H) as (Hok' & Hc & Hv). split_and!; [done|by apply Forall_cons|]. intros key. rewrite Hv, Hv1, rollup_view_cons.
    destruct (bool_decide (rollup_key x = key)) eqn:E; to_prop; [|done]. subst key. by rewrite (rollup_view_none xs), merge_none_r.
Qed.

(** ** A roll-up *)

Lemma insert_rollups_constraint xs rows rows' : insert_rollups xs rows = Ok rows' → Forall (λ r, constraint_ok r = true) xs.
Proof.
  revert rows. induction xs as [|x xs IH]; intros rows; cbn [insert_rollups]; [constructor|]. destruct (constraint_ok x) eqn:E; [|done]. cbn [negb].
  destruct (upsert x rows); [|done]. cbn. intros H. constructor; [done|by eapply IH].
Qed.
Lemma rollup_row_key seconds selected k : constraint_ok (rollup_row seconds selected k) = true → rollup_key (rollup_row seconds selected k) = (seconds, k).
Proof.
  intros Hc. unfold constraint_ok in Hc. rewrite forallb_forall in Hc. specialize (Hc "bucket_start"%string).
  change (col "bucket_start" (rollup_row seconds selected k)) with (json_of_text (k_bucket k)) in Hc.
  change (rollup_key (rollup_row seconds selected k)) with
    (seconds, mkKey (Some (match json_of_text (k_bucket k) with JStr s => s | _ => [] end)) (k_system k) (k_enclosure k) (k_slot k) (k_metric k) (k_disk k)).
  destruct k as [[b|] ? ? ? ? ?]; [done|]. cbn in Hc. assert (false = true) by (apply Hc; tauto). done.
Qed.
Lemma rollup_view_images (f : group_key → row) seconds ks s k : (∀ k, k ∈ ks → rollup_key (f k) = (seconds, k)) →
  rollup_view (f <$> ks) (s, k) = if bool_decide (s = seconds ∧ k ∈ ks) then Some (row_view (f k)) else None.
Proof.
  intros H. induction ks as [|k' ks IH].
  - rewrite bool_decide_false; [done|]. by intros [_ ?%elem_of_nil].
  - rewrite fmap_cons, rollup_view_cons, IH, H by (try intros; try apply H; by (left || right)). destruct (decide (s = seconds ∧ k = k')) as [[-> ->]|Hne].
    + rewrite !bool_decide_true; [done|split; [done|left]|done].
    + rewrite bool_decide_false by naive_solver. erewrite bool_decide_ext; [done|]. rewrite elem_of_cons. naive_solver.
Qed.
Lemma group_keys_elem seconds rows k :
  k ∈ group_order (remove_dups (key_of seconds <$> List.filter has_value rows)) ↔ List.filter (valued_in seconds k) rows ≠ [].
Proof.
  rewrite (group_order_perm (is_real := is_real)), elem_of_remove_dups, list_elem_of_fmap. split.
  - intros (r & -> & [Hr Hv]%elem_of_filter_list) E. assert (r ∈ List.filter (valued_in seconds (key_of seconds r)) rows) as Hin.
    { apply elem_of_filter_list. unfold valued_in, in_group. by rewrite Hv, bool_decide_true. }
    rewrite E in Hin. by apply elem_of_nil in Hin.
  - intros H. destruct (List.filter _ rows) as [|r l] eqn:E; [done|]. assert (r ∈ List.filter (valued_in seconds k) rows) as [Hr Hv]%elem_of_filter_list by (rewrite E; left).
    unfold valued_in, in_group in Hv. to_prop. exists r. split; [done|]. by apply elem_of_filter_list.
Qed.
Lemma raw_view_empty seconds k rows : List.filter (valued_in seconds k) rows = [] → raw_view seconds k rows = None.
Proof. unfold raw_view. by intros ->. Qed.

Definition batch_samples (cutoff : ustr) (n : Z) (rows : list row) : list row := List.filter (has_id (expired_ids cutoff n rows)) rows.
Definition kept_samples (cutoff : ustr) (n : Z) (rows : list row) : list row := List.filter (λ r, negb (has_id (expired_ids cutoff n rows) r)) rows.
Lemma roll_up_spec cutoff n seconds db db' : samples_ok (metric_samples db) → rollups_ok (metric_rollups db) → roll_up_metric_rows cutoff n seconds db = Ok db' →
  slot_events db' = slot_events db ∧ metric_samples db' = metric_samples db ∧ rollups_ok (metric_rollups db')
  ∧ ∀ s k, rollup_view (metric_rollups db') (s, k) =
      merge (rollup_view (metric_rollups db) (s, k)) (if s =? seconds then raw_view seconds k (batch_samples cutoff n (metric_samples db)) else None).
Proof.
  intros Hs Hr. unfold roll_up_metric_rows. destruct (negb _); [done|]. fold (batch_samples cutoff n (metric_samples db)).
  pose proof (samples_ok_filter (has_id (expired_ids cutoff n (metric_samples db))) _ Hs) as Hsel. fold (batch_samples cutoff n (metric_samples db)) in Hsel.
  revert Hsel. generalize (batch_samples cutoff n (metric_samples db)). intros sel Hsel. cbv zeta.
  remember (group_order (remove_dups (key_of seconds <$> List.filter has_value sel))) as ks eqn:Eks.
  assert (∀ k, k ∈ ks ↔ List.filter (valued_in seconds k) sel ≠ []) as Hks by (intros k; rewrite Eks; apply group_keys_elem).
  destruct (insert_rollups _ _) as [rollups|] eqn:Ei; [|done]. cbn. intros [= <-]. cbn [slot_events metric_samples metric_rollups].
  pose proof (insert_rollups_constraint _ _ _ Ei) as Hc. rewrite Forall_fmap, Forall_forall in Hc.
  assert (∀ k, k ∈ ks → rollup_key (rollup_row seconds sel k) = (seconds, k)) as Hkey by (intros k Hk; by apply rollup_row_key, Hc).
  assert (∀ k, k ∈ ks → raw_view seconds k sel = Some (row_view (rollup_row seconds sel k))) as Hview by (intros k Hk; apply rollup_row_view; [done|by apply Hc|by apply Hks]).
  destruct (insert_rollups_spec (rollup_row seconds sel <$> ks) (metric_rollups db) rollups) as (Hok & _ & Hv); [done| | |done|].
  - unfold rollup_keys. rewrite <-list_fmap_compose. apply (NoDup_fmap_2_strong _ ks).
    + intros k k' Hk Hk'. cbn. rewrite !Hkey by done. congruence.
    + rewrite Eks, (group_order_perm (is_real := is_real)). apply NoDup_remove_dups.
  - apply Forall_fmap, Forall_forall. intros k Hk. cbn. pose proof (raw_view_good seconds k sel Hsel) as Hg. by rewrite Hview in Hg.
  - split_and!; [done..|]. intros s k. rewrite Hv, (rollup_view_images _ seconds) by done. f_equal.
    destruct (Z.eqb_spec s seconds) as [->|Hne].
    + destruct (decide (k ∈ ks)) as [Hk|Hk].
      * rewrite bool_decide_true by done. by rewrite Hview.
      * rewrite bool_decide_false by naive_solver. symmetry. apply raw_view_empty.
        destruct (List.filter (valued_in seconds k) sel) eqn:E; [done|]. destruct Hk. apply Hks. by rewrite E.
    + rewrite bool_decide_false by naive_solver. done.
Qed.

(** ** Deleting a batch *)

(** [rows'] are [rows] without [m] rows that satisfy [p]: [n] of them, or all *)
Definition deleted (p : row → bool) (n : Z) (rows rows' : list row) (m : Z) : Prop :=
  ∃ picked, rows ≡ₚ picked ++ rows' ∧ Forall (λ r, p r = true) picked ∧ m = ulen picked
    ∧ length picked = Nat.min (Z.to_nat n) (length (List.filter p rows)) ∧ sublist rows' rows.
Lemma sublist_filter_list {A} (f : A → bool) l : sublist (List.filter f l) l.
Proof. induction l as [|x l IH]; [done|]. cbn. destruct (f x); by constructor. Qed.
Lemma filter_sublist {A} (f : A → bool) l l' : sublist l l' → sublist (List.filter f l) (List.filter f l').
Proof. induction 1 as [|x l l' _ IH|x l l' _ IH]; cbn; [done|destruct (f x); [by constructor|done]|destruct (f x); [by constructor|done]]. Qed.
Lemma sublist_same_length {A} (l l' : list A) : sublist l l' → (length l' ≤ length l)%nat → l = l'.
Proof.
  induction 1 as [|x l l' H IH|x l l' H IH]; cbn; intros Hl; [done|by rewrite IH by lia|]. apply sublist_length in H. lia.
Qed.
Lemma deleted_none p n rows : List.filter p rows = [] → deleted p n rows rows 0.
Proof. intros E. exists []. rewrite E. split_and!; [done|done|done|by rewrite Nat.min_0_r|done]. Qed.
Lemma deleted_other p q n rows rows' m : deleted p n rows rows' m → (∀ r, r ∈ rows → p r = true → q r = false) → List.filter q rows' = List.filter q rows.
Proof.
  intros (picked & Hp & Hpick & _ & _ & Hs) Hq. apply sublist_same_length; [by apply filter_sublist|].
  rewrite Hp at 1. rewrite List.filter_app, length_app, (filter_none q picked); [done|]. rewrite Forall_forall in *.
  intros r Hr. apply Hq; [rewrite Hp; apply elem_of_app; by left|by apply Hpick].
Qed.
Lemma deleted_count p n rows rows' m : deleted p n rows rows' m →
  ulen rows = m + ulen rows' ∧ ulen (List.filter p rows) = m + ulen (List.filter p rows') ∧ m = Z.min (Z.max 0 n) (ulen (List.filter p rows)).
Proof.
  intros (picked & Hp & Hpick & -> & Hl & _). unfold ulen in *. split_and!.
  - apply Permutation_length in Hp. rewrite length_app in Hp. lia.
  - rewrite Hp at 1. rewrite List.filter_app, length_app, (filter_all p picked) by done. lia.
  - lia.
Qed.
Lemma deleted_elem p n rows rows' m r : deleted p n rows rows' m → r ∈ rows' → r ∈ rows.
Proof. intros (picked & Hp & _). rewrite Hp, elem_of_app. auto. Qed.
Lemma deleted_stays p n rows rows' m r : deleted p n rows rows' m → r ∈ rows → p r = false → r ∈ rows'.
Proof.
  intros (picked & Hp & Hpick & _) Hr Hn. rewrite Hp, elem_of_app in Hr. destruct Hr as [Hr|Hr]; [|done]. rewrite Forall_forall in Hpick. rewrite Hpick in Hn; done.
Qed.

Lemma delete_expired_spec cutoff n rows : NoDup (ids rows) →
  deleted (older "observed_at" cutoff) n rows (delete_expired_rows (Some cutoff) n rows).1 (delete_expired_rows (Some cutoff) n rows).2.
Proof.
  intros Hnd. cbn [delete_expired_rows fst snd]. exists (List.filter (has_id (expired_ids cutoff n rows)) rows).
  assert (∀ x, x ∈ expired_rows cutoff n rows → x ∈ rows) as Hsub by (intros x Hx; by apply expired_rows_elem in Hx as [? _]).
  assert (List.filter (has_id (expired_ids cutoff n rows)) rows ≡ₚ expired_rows cutoff n rows) as Hp.
  { apply NoDup_Permutation.
    - apply (NoDup_fmap_1 (int_col "id")). by apply ids_filter.
    - apply (NoDup_fmap_1 (int_col "id")). eapply sublist_NoDup; [|apply fmap_sublist, sublist_take].
      assert (sort_by oldest_first (List.filter (older "observed_at" cutoff) rows) ≡ₚ List.filter (older "observed_at" cutoff) rows) as Hs by apply sort_by_perm.
      rewrite Hs. by apply ids_filter.
    - intros r. rewrite elem_of_filter_list. split; [intros [Hr Hi]; by apply (has_id_spec _ rows) in Hi|].
      intros Hr. split; [by apply Hsub|]. apply (has_id_spec _ rows); auto. }
  split_and!; [apply filter_split| |done| |apply sublist_filter_list].
  - rewrite Hp. apply Forall_forall. intros r Hr. by apply expired_rows_elem in Hr as [_ ?].
  - rewrite Hp. unfold expired_rows. by rewrite length_take, length_sort_by.
Qed.
Lemma zip_seq_elem {A} (l : list A) i n a b : (i, a) ∈ zip (seq n (length l)) l → (i, b) ∈ zip (seq n (length l)) l → a = b.
Proof.
  revert n. induction l as [|x l IH]; intros n; cbn; [by intros ?%elem_of_nil|]. rewrite !elem_of_cons.
  assert (∀ c, (i, c) ∈ zip (seq (S n) (length l)) l → (S n ≤ i)%nat) as Hlt.
  { intros c Hc. apply elem_of_zip_l, elem_of_seq in Hc. lia. }
  intros [Ha|Ha] [Hb|Hb]; [congruence| | |by eapply IH]; [injection Ha as -> ->; apply Hlt in Hb; lia|injection Hb as -> ->; apply Hlt in Ha; lia].
Qed.
Lemma zip_seq_NoDup {A} (l : list A) n : NoDup (zip (seq n (length l)) l).*1.
Proof. rewrite fst_zip by by rewrite length_seq. apply NoDup_seq. Qed.
Lemma filter_snd {A} (f : A → bool) n (l : list A) : (List.filter (λ ir : nat * A, f ir.2) (zip (seq n (length l)) l)).*2 = List.filter f l.
Proof. revert n. induction l as [|x l IH]; intros n; [done|]. cbn. destruct (f x); cbn; by rewrite IH. Qed.
Lemma delete_rollup_spec seconds cutoff n rows :
  deleted (of_bucket seconds cutoff) n rows (delete_rollup_batch seconds (Some cutoff) n rows).1 (delete_rollup_batch seconds (Some cutoff) n rows).2.
Proof.
  cbn [delete_rollup_batch fst snd]. cbv zeta. pose (z := zip (seq 0 (length rows)) rows). fold z.
  pose (picked := take (Z.to_nat n) (sort_by oldest_bucket_first (List.filter (λ ir : nat * row, of_bucket seconds cutoff ir.2) z))). fold picked.
  assert (∀ ir, ir ∈ picked → ir ∈ z ∧ of_bucket seconds cutoff ir.2 = true) as Hpick.
  { intros ir (i & Hi & _)%elem_of_take. apply list_elem_of_lookup_2, elem_of_sort_by, elem_of_filter_list in Hi. done. }
  assert (List.filter (λ ir : nat * row, bool_decide (ir.1 ∈ picked.*1)) z ≡ₚ picked) as Hp.
  { apply NoDup_Permutation.
    - eapply sublist_NoDup; [apply (NoDup_fmap_1 fst), zip_seq_NoDup|apply sublist_filter_list].
    - eapply sublist_NoDup; [|apply sublist_take]. rewrite sort_by_perm. eapply sublist_NoDup; [apply (NoDup_fmap_1 fst), zip_seq_NoDup|apply sublist_filter_list].
    - intros ir. rewrite elem_of_filter_list, bool_decide_eq_true, list_elem_of_fmap. split.
      + intros [Hir ([i r] & E & Hin)]. destruct ir as [j r']. cbn in E. subst j. destruct (Hpick _ Hin) as [Hz _]. by rewrite (zip_seq_elem rows i 0 r' r Hir Hz).
      + intros Hir. split; [by apply Hpick|]. by exists ir. }
  assert (z.*2 = rows) as Hz by (unfold z; by rewrite snd_zip by by rewrite length_seq).
  exists (picked.*2). split_and!.
  - rewrite <-Hz at 1. rewrite (filter_split (λ ir : nat * row, bool_decide (ir.1 ∈ picked.*1)) z) at 1. rewrite fmap_app. by rewrite Hp.
  - apply Forall_fmap, Forall_forall. intros ir Hir. by apply Hpick.
  - unfold ulen. by rewrite !length_fmap.
  - unfold picked. rewrite length_fmap, length_take, length_sort_by. f_equal. rewrite <-(filter_snd (of_bucket seconds cutoff) 0 rows). by rewrite length_fmap.
  - etrans; [apply fmap_sublist, sublist_filter_list|]. by rewrite Hz.
Qed.

(** ** Views after deleting *)

Lemma rollup_view_perm rows rows' key : NoDup (rollup_keys rows) → rows ≡ₚ rows' → rollup_view rows key = rollup_view rows' key.
Proof.
  intros Hn Hp. induction Hp as [|r rows rows' Hp IH|r r' rows|rows1 rows2 rows3 Hp1 IH1 Hp2 IH2].
  - done.
  - apply NoDup_cons in Hn as [_ Hn]. by rewrite !rollup_view_cons, IH.
  - rewrite !rollup_view_cons. apply NoDup_cons in Hn as [Hn _]. destruct (bool_decide (rollup_key r = key)) eqn:E1, (bool_decide (rollup_key r' = key)) eqn:E2; try done.
    to_prop. destruct Hn. cbn. rewrite E2, <-E1. left.
  - rewrite IH1 by done. apply IH2. unfold rollup_keys in *. by rewrite <-Hp1.
Qed.
Lemma rollup_view_app rows rows' key : key ∉ rollup_keys rows → rollup_view (rows ++ rows') key = rollup_view rows' key.
Proof.
  induction rows as [|r rows IH]; [done|]. change (rollup_keys (r :: rows)) with (rollup_key r :: rollup_keys rows). intros [Hne Hni]%not_elem_of_cons. cbn [app].
  rewrite rollup_view_cons, bool_decide_false by done. by apply IH.
Qed.
Lemma deleted_rollups_ok p n rows rows' m : deleted p n rows rows' m → rollups_ok rows → rollups_ok rows'.
Proof.
  intros (picked & Hp & _ & _ & _ & Hs) [H1 H2 H3]. split; [eapply sublist_NoDup; [exact H1|]; by apply fmap_sublist|..].
  all: rewrite Forall_forall in *; intros r Hr; (apply H2 || apply H3); rewrite Hp, elem_of_app; by right.
Qed.
Lemma deleted_view seconds cutoff n rows rows' m s k : deleted (of_bucket seconds cutoff) n rows rows' m → rollups_ok rows →
  (s = seconds → ∀ b, k_bucket k = Some b → ustr_leb cutoff b = true) → rollup_view rows' (s, k) = rollup_view rows (s, k).
Proof.
  intros (picked & Hp & Hpick & _) [Hn _ _] Hk. rewrite (rollup_view_perm rows (picked ++ rows')) by done. symmetry. apply rollup_view_app.
  intros (r & E & Hr)%list_elem_of_fmap. rewrite Forall_forall in Hpick. specialize (Hpick r Hr). unfold of_bucket, older in Hpick. to_prop.
  unfold rollup_key in E. injection E as -> ->. rewrite Hk in *; [done|done|done].
Qed.

(** ** A batch *)

Record db_ok (db : database) : Prop := {
  db_samples : samples_ok (metric_samples db);
  db_events : NoDup (ids (slot_events db));
  db_rollups : rollups_ok (metric_rollups db);
}.
Definition view_of (db : database) (seconds : Z) (k : group_key) : option view :=
  merge (rollup_view (metric_rollups db) (seconds, k)) (raw_view seconds k (metric_samples db)).
Definition deleted_if (p : ustr → row → bool) (cutoff : option ustr) (n : Z) (rows rows' : list row) (m : Z) : Prop :=
  match cutoff with Some t => deleted (p t) n rows rows' m | None => rows' = rows ∧ m = 0 end.
Definition bucket_cutoff (c : cutoffs) (seconds : Z) : option ustr := if seconds =? 3600 then c_hourly c else c_daily c.
(** The bucket of a key is within its own retention. *)
Definition bucket_kept (c : cutoffs) (seconds : Z) (k : group_key) : Prop :=
  ∀ t b, bucket_cutoff c seconds = Some t → k_bucket k = Some b → ustr_leb t b = true.

Lemma samples_ok_deleted p n rows rows' m : deleted p n rows rows' m → samples_ok rows → samples_ok rows'.
Proof.
  intros (picked & Hp & _ & _ & _ & Hs) [H1 H2]. split.
  - eapply sublist_NoDup; [exact H1|]. by apply fmap_sublist.
  - rewrite Forall_forall in *. intros r Hr. apply H2. rewrite Hp, elem_of_app. by right.
Qed.
Lemma delete_expired_if cutoff n rows : NoDup (ids rows) →
  deleted_if (older "observed_at") cutoff n rows (delete_expired_rows cutoff n rows).1 (delete_expired_rows cutoff n rows).2.
Proof. intros H. destruct cutoff; [by apply delete_expired_spec|done]. Qed.
Lemma delete_rollup_if seconds cutoff n rows :
  deleted_if (of_bucket seconds) cutoff n rows (delete_rollup_batch seconds cutoff n rows).1 (delete_rollup_batch seconds cutoff n rows).2.
Proof. destruct cutoff; [apply delete_rollup_spec|done]. Qed.
Lemma deleted_if_rollups seconds c n rows rows' m s k : deleted_if (of_bucket seconds) (bucket_cutoff c seconds) n rows rows' m → rollups_ok rows →
  rollups_ok rows' ∧ (bucket_kept c s k → rollup_view rows' (s, k) = rollup_view rows (s, k)).
Proof.
  intros H Hok. unfold deleted_if in H. destruct (bucket_cutoff c seconds) as [t|] eqn:E; [|by destruct H as [-> _]].
  split; [by eapply deleted_rollups_ok|]. intros Hk. eapply deleted_view; [done|done|]. intros -> b. by apply Hk.
Qed.

Lemma retire_samples_spec cutoff n db db' m : db_ok db → retire_samples cutoff n db = Ok (db', m) →
  db_ok db' ∧ slot_events db' = slot_events db ∧ deleted_if (older "observed_at") cutoff n (metric_samples db) (metric_samples db') m
  ∧ ∀ s k, s = 3600 ∨ s = 86400 → view_of db' s k = view_of db s k.
Proof.
  intros [Hs He Hr]. destruct cutoff as [t|]; cbn [retire_samples]; [|by intros [= <- <-]].
  destruct (roll_up_metric_rows t n 3600 db) as [db1|] eqn:E1; [|done]. cbn [mbind result_bind].
  destruct (roll_up_spec _ _ _ _ _ Hs Hr E1) as (He1 & Hs1 & Hr1 & Hv1).
  destruct (roll_up_metric_rows t n 86400 db1) as [db2|] eqn:E2; [|done]. cbn [mbind result_bind].
  assert (samples_ok (metric_samples db1)) as Hso1 by by rewrite Hs1.
  destruct (roll_up_spec _ _ _ _ _ Hso1 Hr1 E2) as (He2 & Hs2 & Hr2 & Hv2).
  pose proof (delete_expired_spec t n (metric_samples db2)) as Hd. rewrite Hs2, Hs1 in Hd |- *. specialize (Hd (samples_ids _ Hs)).
  assert (delete_expired_rows (Some t) n (metric_samples db) = (kept_samples t n (metric_samples db), (delete_expired_rows (Some t) n (metric_samples db)).2)) as Ed by done.
  rewrite Ed in Hd |- *. cbn [fst snd] in Hd. intros [= <- <-]. cbn [slot_events metric_samples metric_rollups].
  pose proof (samples_ok_deleted _ _ _ _ _ Hd Hs) as Hs'. split_and!.
  - split; [done|by rewrite He2, He1|done].
  - by rewrite He2, He1.
  - exact Hd.
  - intros s k Hsk. unfold view_of. cbn [metric_rollups metric_samples]. rewrite Hv2, Hv1, Hs1.
    rewrite (raw_view_split s k (has_id (expired_ids t n (metric_samples db))) (metric_samples db)); [|done|intros a b; apply batch_below, Hs].
    fold (batch_samples t n (metric_samples db)) (kept_samples t n (metric_samples db)).
    assert (good (raw_view s k (batch_samples t n (metric_samples db)))) as Hg by by apply raw_view_good, samples_ok_filter.
    destruct Hsk as [->| ->]; cbn [Z.eqb Pos.eqb]; rewrite merge_none_r; rewrite merge_assoc; try done; try (by apply rollup_view_good); by apply raw_view_good.
Qed.
End views.

(** A batch, all at once *)
Lemma batch_conserves {SQ : Sqlite} {is_real : json → Prop} {SL : SqliteLaws SQ is_real} c n db db' rm more :
  db_ok (is_real := is_real) db → maintain_retention_batch c n db = Ok (db', rm, more) →
  db_ok (is_real := is_real) db'
  ∧ (∀ seconds k, seconds = 3600 ∨ seconds = 86400 → bucket_kept c seconds k → view_of db' seconds k = view_of db seconds k)
  ∧ deleted_if (older "observed_at") (c_metric c) n (metric_samples db) (metric_samples db') (metric_samples_removed rm)
  ∧ deleted_if (older "observed_at") (c_event c) n (slot_events db) (slot_events db') (events_removed rm)
  ∧ more = batch_has_more c db'.
Proof.
  intros Hok. unfold maintain_retention_batch. destruct (retire_samples _ _ _) as [[db1 m]|] eqn:E1; [|done]. cbn [mbind result_bind].
  destruct (retire_samples_spec _ _ _ _ _ Hok E1) as ([Hs1 He1 Hr1] & Hev & Hd & Hv).
  pose proof (delete_expired_if (c_event c) n (slot_events db1) He1) as Hde. destruct (delete_expired_rows (c_event c) n (slot_events db1)) as [events me].
  pose proof (delete_rollup_if 3600 (c_hourly c) n (metric_rollups db1)) as Hdh. destruct (delete_rollup_batch 3600 _ _ _) as [rollups mh].
  pose proof (delete_rollup_if 86400 (c_daily c) n rollups) as Hdd. destruct (delete_rollup_batch 86400 _ _ _) as [rollups' md]. cbn [fst snd] in *.
  intros [= <- <- <-]. cbn [slot_events metric_samples metric_rollups metric_samples_removed events_removed]. rewrite Hev in Hde.
  assert (rollups_ok (is_real := is_real) rollups) as Hr2 by (eapply (deleted_if_rollups 3600 c n _ _ _ 0 (mkKey None [] [] 0 [] [])); [exact Hdh|done]).
  split_and!; [|intros s k Hsk Hk|done..].
  - split; [done| |eapply (deleted_if_rollups 86400 c n _ _ _ 0 (mkKey None [] [] 0 [] [])); [exact Hdd|done]].
    destruct (c_event c); cbn in Hde; [|destruct Hde as [-> _]; by rewrite <-Hev]. destruct Hde as (? & _ & _ & _ & _ & Hsub).
    eapply sublist_NoDup; [|by apply fmap_sublist]. by rewrite <-Hev.
  - rewrite <-Hv by done. unfold view_of. cbn [metric_rollups metric_samples].
    rewrite (proj2 (deleted_if_rollups 86400 c n rollups rollups' md s k Hdd Hr2) Hk).
    by rewrite (proj2 (deleted_if_rollups 3600 c n (metric_rollups db1) rollups mh s k Hdh Hr1) Hk).
Qed.

(** [C18] A batch of any size conserves what every bucket says: the count, the least,
    the greatest and the newest value over its rollup and its samples are what they
    were, unless the bucket is past its own retention.  Samples and events that go are
    the oldest that have expired, as many as the batch holds. *)
Theorem retention_conserves {SQ : Sqlite} {is_real : json → Prop} {SL : SqliteLaws SQ is_real} c n db db' rm more :
  db_ok (is_real := is_real) db → maintain_retention_batch c n db = Ok (db', rm, more) →
  db_ok (is_real := is_real) db'
  ∧ (∀ seconds k, seconds = 3600 ∨ seconds = 86400 → bucket_kept c seconds k → view_of db' seconds k = view_of db seconds k)
  ∧ deleted_if (older "observed_at") (c_metric c) n (metric_samples db) (metric_samples db') (metric_samples_removed rm)
  ∧ deleted_if (older "observed_at") (c_event c) n (slot_events db) (slot_events db') (events_removed rm)
  ∧ more = batch_has_more c db'.
Proof. apply batch_conserves. Qed.
