(* ===== verification/RetentionRuns.v ===== *)
(** * Runs of retention

    When a batch fails ([retention_batch_fails]), that a run with enough batches
    finishes ([retention_completes]), and that no reader of recent history notices
    ([retention_keeps_recent]). *)

From S2P Require Import Prelude.
From S2P Require Import PyStr.
From S2P Require Import Json.
From S2P Require Import JsonProofs.
From S2P Require Import Journal.
From S2P Require Import ReadBounds.
From S2P Require Import ScopeHistory.
From S2P Require Import ScopeHistoryProofs.
From S2P Require Import Retention.
From S2P Require Import RetentionProofs.
#[local] Open Scope Z_scope.
#[local] Open Scope list_scope.

(** The sums of the values at hand are numbers (the sum of infinities of both signs,
    say, is none and stored as [NULL]). *)
Class SqliteSums (SQ : Sqlite) (is_real : json → Prop) : Prop := {
  real_sum_number : ∀ l, l ≠ [] → Forall is_real l → real_sum l ≠ JNull;
  real_add_number : ∀ a b, a ≠ JNull → b ≠ JNull → real_add a b ≠ JNull;
}.
Lemma is_null_false v : is_null v = false ↔ v ≠ JNull.
Proof. by destruct v. Qed.

Section runs.
Context {SQ : Sqlite} {is_real : json → Prop} {SL : SqliteLaws SQ is_real} {SS : SqliteSums SQ is_real}.
#[local] Notation samples_ok := (samples_ok (is_real := is_real)).
#[local] Notation rollups_ok := (rollups_ok (is_real := is_real)).
#[local] Notation db_ok := (db_ok (is_real := is_real)).

(** ** Constraints *)

Lemma max_col_text k rows : rows ≠ [] → (∀ r, r ∈ rows → ∃ s, col k r = JStr s) → max_col k rows ≠ JNull.
Proof.
  intros Hne H. unfold max_col. destruct rows as [|r rows]; [done|]. clear Hne.
  assert (∀ l a, (∃ s, a = JStr s) → (∀ v, v ∈ l → ∃ s, v = JStr s) → foldl text_max a l ≠ JNull) as Hf.
  { induction l as [|v l IH]; intros a (s & ->) Hl; [done|]. cbn. destruct (Hl v) as (t & ->); [by left|]. apply IH; [|intros w Hw; apply Hl; by right].
    cbn. destruct (ustr_leb s t); eauto. }
  cbn. destruct (H r) as (s & ->); [by left|]. apply Hf; [by exists s|]. intros v (x & -> & Hx)%list_elem_of_fmap. apply H. by right.
Qed.
Lemma rollup_row_constraint seconds sel k : samples_ok sel → List.filter (valued_in seconds k) sel ≠ [] →
  constraint_ok (rollup_row seconds sel k) = negb (is_null (json_of_text (k_bucket k))) && negb (is_null (newest_value (List.filter (in_group seconds k) sel))).
Proof.
  intros Hok Hne. pose (rows := List.filter has_value (List.filter (in_group seconds k) sel)).
  assert (rows = List.filter (valued_in seconds k) sel) as Erows by apply filter_valued.
  assert (∀ r, r ∈ rows → sample_ok (is_real := is_real) r) as Hrows.
  { intros r. rewrite Erows. intros [Hr _]%elem_of_filter_list. pose proof (samples_rows _ Hok) as H. rewrite Forall_forall in H. by apply H. }
  assert (Forall is_real (value_of <$> rows)) as Hreal by (rewrite Erows; apply Forall_fmap; by apply valued_real).
  assert (value_of <$> rows ≠ []) as Hvne by (rewrite Erows; by destruct (List.filter _ sel)).
  assert (rows ≠ []) as Hrne by by rewrite Erows.
  change (constraint_ok (rollup_row seconds sel k)) with
    (negb (is_null (json_of_text (k_bucket k))) && (negb (is_null (max_col "slot_label" rows)) && (negb (is_null (real_sum (value_of <$> rows)))
      && (negb (is_null (aggregate real_min (value_of <$> rows))) && (negb (is_null (aggregate real_max (value_of <$> rows)))
      && (negb (is_null (newest_value (List.filter (in_group seconds k) sel))) && (negb (is_null (max_col "observed_at" rows)) && true))))))).
  assert (∀ v, is_real v → v ≠ JNull) as Hnn by (intros v Hv ->; by apply (real_not_null (is_real := is_real))).
  rewrite (proj2 (is_null_false (max_col "slot_label" rows))) by (apply max_col_text; [done|intros r Hr; eexists; by apply Hrows]).
  rewrite (proj2 (is_null_false (max_col "observed_at" rows))) by (apply max_col_text; [done|intros r Hr; eexists; by apply Hrows]).
  rewrite (proj2 (is_null_false (real_sum _))) by by apply real_sum_number.
  rewrite (proj2 (is_null_false (aggregate real_min _))) by (apply Hnn, aggregate_real; [apply real_min_real|done|done]).
  rewrite (proj2 (is_null_false (aggregate real_max _))) by (apply Hnn, aggregate_real; [apply real_max_real|done|done]).
  by rewrite !andb_true_l, !andb_true_r.
Qed.

Definition required k := existsb (String.eqb k) REQUIRED.
Lemma constraint_ok_iff r : constraint_ok r = true ↔ ∀ k, k ∈ REQUIRED → col k r ≠ JNull.
Proof.
  unfold constraint_ok. rewrite forallb_forall. split; intros H k Hk.
  - specialize (H k). rewrite list_elem_of_In in Hk. apply H in Hk. apply negb_true_iff in Hk. by apply is_null_false.
  - apply negb_true_iff, is_null_false, H. by rewrite list_elem_of_In.
Qed.
Lemma merge_constraint existing excluded : good_view (is_real := is_real) (row_view existing) → good_view (is_real := is_real) (row_view excluded) →
  constraint_ok existing = true → constraint_ok excluded = true → constraint_ok (merge_rollup existing excluded) = true.
Proof.
  intros [Hmin Hmax] [Hmin' Hmax'] H1 H2. rewrite constraint_ok_iff in *. intros k Hk. pose proof (H1 k Hk) as Hk1. pose proof (H2 k Hk) as Hk2.
  unfold col, field_or, field. rewrite merged_field.
  assert (∀ v, is_real v → v ≠ JNull) as Hnn by (intros v Hv ->; by apply (real_not_null (is_real := is_real))).
  unfold REQUIRED in Hk. repeat (apply elem_of_cons in Hk as [->|Hk]); [..|by apply elem_of_nil in Hk]; try exact Hk1; try exact Hk2; try done.
  - change (real_add (col "value_sum" existing) (col "value_sum" excluded) ≠ JNull). by apply real_add_number.
  - change (real_min (col "value_min" existing) (col "value_min" excluded) ≠ JNull). by apply Hnn, real_min_real.
  - change (real_max (col "value_max" existing) (col "value_max" excluded) ≠ JNull). by apply Hnn, real_max_real.
  - change ((if ustr_leb (text_col "last_observed_at" existing) (text_col "last_observed_at" excluded) then col "last_value" excluded else col "last_value" existing) ≠ JNull).
    by destruct (ustr_leb _ _).
  - change ((if ustr_leb (text_col "last_observed_at" existing) (text_col "last_observed_at" excluded) then col "last_observed_at" excluded else col "last_observed_at" existing) ≠ JNull).
    by destruct (ustr_leb _ _).
Qed.
Lemma upsert_total x rows : rollups_ok rows → good_view (is_real := is_real) (row_view x) → constraint_ok x = true → ∃ rows', upsert x rows = Ok rows'.
Proof.
  intros [Hn Hg Hc] Hx Hcx. induction rows as [|r rows IH]; cbn [upsert]; [eauto|]. apply NoDup_cons in Hn as [_ Hn]. apply Forall_cons in Hg as [Hgr Hg]. apply Forall_cons in Hc as [Hcr Hc].
  destruct (bool_decide _).
  - cbv zeta. rewrite merge_constraint by done. eauto.
  - destruct IH as (rows' & ->); [done..|]. cbn. eauto.
Qed.
Lemma insert_rollups_fails xs rows : rollups_ok rows → Forall (λ r, good_view (is_real := is_real) (row_view r)) xs →
  match insert_rollups xs rows with
  | Ok _ => Forall (λ r, constraint_ok r = true) xs
  | Err e => e = IntegrityError ∧ ∃ r, r ∈ xs ∧ constraint_ok r = false
  end.
Proof.
  revert rows. induction xs as [|x xs IH]; intros rows Hok Hg; cbn [insert_rollups]; [constructor|]. apply Forall_cons in Hg as [Hx Hg].
  destruct (constraint_ok x) eqn:Ec; cbn [negb]; [|split; [done|]; exists x; split; [by left|done]].
  destruct (upsert_total x rows Hok Hx Ec) as (rows1 & E1). rewrite E1. cbn [mbind result_bind].
  destruct (upsert_spec x rows rows1 Hok Hx Ec E1) as (Hok1 & _). specialize (IH rows1 Hok1 Hg). destruct (insert_rollups xs rows1).
  - by apply Forall_cons.
  - destruct IH as [-> (r & Hr & Hcr)]. split; [done|]. exists r. split; [by right|done].
Qed.

(** ** When a batch fails *)

Lemma rollup_row_good seconds sel k : samples_ok sel → List.filter (valued_in seconds k) sel ≠ [] → good_view (is_real := is_real) (row_view (rollup_row seconds sel k)).
Proof.
  intros Hok Hne. rewrite rollup_row_columns. assert (Forall is_real (value_of <$> List.filter (valued_in seconds k) sel)) as Hreal by (apply Forall_fmap; by apply valued_real).
  assert (value_of <$> List.filter (valued_in seconds k) sel ≠ []) as Hv by by destruct (List.filter _ sel).
  split; (apply aggregate_real; [apply real_min_real || apply real_max_real|done|done]).
Qed.
(** A sample with a value in a group that cannot become a row: SQLite cannot read its
    time, or the newest sample of the group has no value. *)
Definition unfit (seconds : Z) (batch : list row) (r : row) : Prop :=
  r ∈ batch ∧ has_value r = true
  ∧ (bucket_of seconds r = None ∨ newest_value (List.filter (in_group seconds (key_of seconds r)) batch) = JNull).
Lemma roll_up_fails t n seconds db : samples_ok (metric_samples db) → rollups_ok (metric_rollups db) → seconds = 3600 ∨ seconds = 86400 →
  match roll_up_metric_rows t n seconds db with
  | Ok _ => ∀ r, ¬ unfit seconds (batch_samples t n (metric_samples db)) r
  | Err e => e = IntegrityError ∧ ∃ r, unfit seconds (batch_samples t n (metric_samples db)) r
  end.
Proof.
  intros Hs Hr Hsec. unfold roll_up_metric_rows. rewrite (bool_decide_true _ Hsec). cbn [negb]. fold (batch_samples t n (metric_samples db)).
  pose proof (samples_ok_filter (is_real := is_real) (has_id (expired_ids t n (metric_samples db))) _ Hs) as Hsel. fold (batch_samples t n (metric_samples db)) in Hsel.
  revert Hsel. generalize (batch_samples t n (metric_samples db)). intros sel Hsel. cbv zeta.
  pose proof (λ k, group_keys_elem (is_real := is_real) seconds sel k) as Hks. revert Hks. generalize (group_order (remove_dups (key_of seconds <$> List.filter has_value sel))). intros ks Hks.
  assert (∀ k, k ∈ ks → constraint_ok (rollup_row seconds sel k) = negb (is_null (json_of_text (k_bucket k))) && negb (is_null (newest_value (List.filter (in_group seconds k) sel)))) as Hc
    by (intros k Hk; apply rollup_row_constraint; [done|by apply Hks]).
  assert (Forall (λ r, good_view (is_real := is_real) (row_view r)) (rollup_row seconds sel <$> ks)) as Hg.
  { apply Forall_fmap, Forall_forall. intros k Hk. apply rollup_row_good; [done|by apply Hks]. }
  pose proof (insert_rollups_fails _ (metric_rollups db) Hr Hg) as Hi. destruct (insert_rollups _ _) as [rollups|e]; cbn [mbind result_bind].
  - rewrite Forall_fmap, Forall_forall in Hi. intros r (Hr' & Hv & Hbad). assert (key_of seconds r ∈ ks) as Hk.
    { apply Hks. intros E. assert (r ∈ List.filter (valued_in seconds (key_of seconds r)) sel) as Hin.
      { apply elem_of_filter_list. unfold valued_in, in_group. by rewrite Hv, bool_decide_true. }
      rewrite E in Hin. by apply elem_of_nil in Hin. }
    specialize (Hi _ Hk). change (constraint_ok (rollup_row seconds sel (key_of seconds r)) = true) in Hi. rewrite Hc in Hi by done. apply andb_true_iff in Hi as [H1 H2]. destruct Hbad as [Hb|Hb].
    + change (k_bucket (key_of seconds r)) with (bucket_of seconds r) in H1. by rewrite Hb in H1.
    + by rewrite Hb in H2.
  - destruct Hi as [-> (x & (k & -> & Hk)%list_elem_of_fmap & Hx)]. split; [done|]. rewrite Hc in Hx by done.
    pose proof (proj1 (Hks k) Hk) as Hne. destruct (List.filter (valued_in seconds k) sel) as [|r l] eqn:E; [done|].
    assert (r ∈ List.filter (valued_in seconds k) sel) as [Hr' Hv]%elem_of_filter_list by (rewrite E; left). unfold valued_in, in_group in Hv. to_prop.
    exists r. split_and!; [done|done|]. subst k. apply andb_false_iff in Hx as [Hx|Hx]; apply negb_false_iff in Hx.
    + left. change (k_bucket (key_of seconds r)) with (bucket_of seconds r) in Hx. by destruct (bucket_of seconds r).
    + right. by destruct (newest_value _).
Qed.
Lemma batch_fails c n db : db_ok db →
  match maintain_retention_batch c n db with
  | Ok _ => ∀ t seconds r, c_metric c = Some t → seconds = 3600 ∨ seconds = 86400 → ¬ unfit seconds (batch_samples t n (metric_samples db)) r
  | Err e => e = IntegrityError ∧ ∃ t seconds r, c_metric c = Some t ∧ (seconds = 3600 ∨ seconds = 86400) ∧ unfit seconds (batch_samples t n (metric_samples db)) r
  end.
Proof.
  intros [Hs He Hr]. unfold maintain_retention_batch, retire_samples. destruct (c_metric c) as [t|] eqn:Et.
  2: { cbn [mbind result_bind]. destruct (delete_expired_rows _ _ _), (delete_rollup_batch 3600 _ _ _). by destruct (delete_rollup_batch 86400 _ _ _). }
  pose proof (roll_up_fails t n 3600 db Hs Hr (or_introl eq_refl)) as H1. destruct (roll_up_metric_rows t n 3600 db) as [db1|e] eqn:E1; cbn [mbind result_bind].
  2: { destruct H1 as [-> [r H1]]. split; [done|]. exists t, 3600, r. auto. }
  destruct (roll_up_spec _ _ _ _ _ Hs Hr E1) as (He1 & Hs1 & Hr1 & _).
  pose proof (roll_up_fails t n 86400 db1) as H2. rewrite Hs1 in H2. specialize (H2 Hs Hr1 (or_intror eq_refl)).
  destruct (roll_up_metric_rows t n 86400 db1) as [db2|e] eqn:E2; cbn [mbind result_bind].
  2: { destruct H2 as [-> [r H2]]. split; [done|]. exists t, 86400, r. auto. }
  destruct (delete_expired_rows (Some t) n (metric_samples db2)). cbn [mbind result_bind].
  destruct (delete_expired_rows _ _ _), (delete_rollup_batch 3600 _ _ _). destruct (delete_rollup_batch 86400 _ _ _).
  intros t' seconds r [= <-] [->| ->]; auto.
Qed.
End runs.

(** ** Progress *)

(** A sample that can be rolled up *)
Definition sample_fits {SQ : Sqlite} (r : row) : Prop :=
  has_value r = true ∧ ∀ seconds, seconds = 3600 ∨ seconds = 86400 → is_Some (bucket_of seconds r).
Definition expired_count (p : ustr → row → bool) (cutoff : option ustr) (rows : list row) : Z :=
  match cutoff with Some t => ulen (List.filter (p t) rows) | None => 0 end.
(** What there is left to do: a sample counts for itself and for the two rollups it may
    become. *)
Definition work (c : cutoffs) (db : database) : Z :=
  3 * expired_count (older "observed_at") (c_metric c) (metric_samples db) + expired_count (older "observed_at") (c_event c) (slot_events db)
  + expired_count (of_bucket 3600) (c_hourly c) (metric_rollups db) + expired_count (of_bucket 86400) (c_daily c) (metric_rollups db).
Definition unexpired (cutoff : option ustr) (r : row) : bool :=
  match cutoff with Some t => negb (older "observed_at" t r) | None => true end.

Lemma expired_count_nonneg p cutoff rows : 0 <= expired_count p cutoff rows.
Proof. destruct cutoff; cbn; unfold ulen; lia. Qed.
Lemma existsb_count {A} (f : A → bool) l : existsb f l = (0 <? ulen (List.filter f l)).
Proof.
  induction l as [|x l IH]; [done|]. cbn [existsb List.filter]. destruct (f x); cbn [orb]; [|done].
  symmetry. apply Z.ltb_lt. unfold ulen. cbn. lia.
Qed.
Lemma has_more_work c db : batch_has_more c db = (0 <? work c db).
Proof.
  assert (∀ k cutoff rows, retention_rows_exist k cutoff rows = (0 <? expired_count (older k) cutoff rows)) as H1 by (intros k [t|] rows; cbn; [apply existsb_count|done]).
  assert (∀ s cutoff rows, rollups_exist s cutoff rows = (0 <? expired_count (of_bucket s) cutoff rows)) as H2 by (intros k [t|] rows; cbn; [apply existsb_count|done]).
  unfold batch_has_more, work. rewrite !H1, !H2.
  pose proof (expired_count_nonneg (older "observed_at") (c_metric c) (metric_samples db)). pose proof (expired_count_nonneg (older "observed_at") (c_event c) (slot_events db)).
  pose proof (expired_count_nonneg (of_bucket 3600) (c_hourly c) (metric_rollups db)). pose proof (expired_count_nonneg (of_bucket 86400) (c_daily c) (metric_rollups db)).
  apply Bool.eq_true_iff_eq. rewrite !orb_true_iff, !Z.ltb_lt. lia.
Qed.
Lemma deleted_if_count p cutoff n rows rows' m : deleted_if p cutoff n rows rows' m →
  ulen rows = m + ulen rows' ∧ expired_count p cutoff rows = m + expired_count p cutoff rows' ∧ m = Z.min (Z.max 0 n) (expired_count p cutoff rows).
Proof. destruct cutoff; cbn; [apply deleted_count|]. intros [-> ->]. lia. Qed.
Lemma deleted_if_other_count p q cutoff c n rows rows' m : deleted_if p cutoff n rows rows' m → expired_count q c rows' <= expired_count q c rows.
Proof.
  intros H. destruct c as [t|]; cbn; [|done]. destruct cutoff as [b|]; cbn in H; [|by destruct H as [-> _]]. destruct H as (_ & _ & _ & _ & _ & Hs).
  unfold ulen. apply inj_le, sublist_length. by apply filter_sublist.
Qed.
Lemma deleted_if_unexpired cutoff n rows rows' m : deleted_if (older "observed_at") cutoff n rows rows' m →
  List.filter (unexpired cutoff) rows' = List.filter (unexpired cutoff) rows.
Proof.
  destruct cutoff as [t|]; cbn; [|by intros [-> _]]. intros H. apply (deleted_other _ _ _ _ _ _ H). intros r _ Ho. unfold unexpired. by rewrite Ho.
Qed.
Lemma unexpired_all cutoff rows : expired_count (older "observed_at") cutoff rows = 0 → List.filter (unexpired cutoff) rows = rows.
Proof.
  intros H. apply filter_all, Forall_forall. intros r Hr. destruct cutoff as [t|]; [|done]. cbn in *. destruct (older "observed_at" t r) eqn:E; [|done].
  assert (r ∈ List.filter (older "observed_at" t) rows) as Hin by by apply elem_of_filter_list.
  destruct (List.filter _ rows); [by apply elem_of_nil in Hin|]. unfold ulen in H. cbn in H. lia.
Qed.

Section progress.
Context {SQ : Sqlite} {is_real : json → Prop} {SL : SqliteLaws SQ is_real} {SS : SqliteSums SQ is_real}.
#[local] Notation samples_ok := (samples_ok (is_real := is_real)).
#[local] Notation rollups_ok := (rollups_ok (is_real := is_real)).
#[local] Notation db_ok := (db_ok (is_real := is_real)).

Lemma batch_total c n db : db_ok db → Forall sample_fits (metric_samples db) → ∃ res, maintain_retention_batch c n db = Ok res.
Proof.
  intros Hok Hf. pose proof (batch_fails c n db Hok) as H. destruct (maintain_retention_batch c n db) as [res|e]; [by exists res|].
  exfalso. destruct H as [_ (t & seconds & r & _ & Hsec & Hr & Hv & Hbad)]. rewrite Forall_forall in Hf.
  assert (∀ x, x ∈ batch_samples t n (metric_samples db) → sample_fits x) as Hfit by (intros x [Hx _]%elem_of_filter_list; by apply Hf).
  destruct Hbad as [Hb|Hb]; [destruct (proj2 (Hfit r Hr) seconds Hsec); congruence|]. unfold newest_value in Hb.
  destruct (sort_by newest_first _) as [|h l] eqn:E.
  - assert (r ∈ sort_by newest_first (List.filter (in_group seconds (key_of seconds r)) (batch_samples t n (metric_samples db)))) as Hin.
    { apply elem_of_sort_by, elem_of_filter_list. split; [done|]. by apply bool_decide_true. }
    rewrite E in Hin. by apply elem_of_nil in Hin.
  - assert (h ∈ sort_by newest_first (List.filter (in_group seconds (key_of seconds r)) (batch_samples t n (metric_samples db)))) as Hin by (rewrite E; left).
    apply elem_of_sort_by, elem_of_filter_list in Hin as [Hh _]. destruct (Hfit h Hh) as [Hvh _]. unfold has_value in Hvh. by rewrite Hb in Hvh.
Qed.

(** A roll-up adds a row per sample at most. *)
Definition of_key (p : row → bool) : Prop := ∀ a b, rollup_key a = rollup_key b → p a = p b.
Lemma of_bucket_key seconds t : of_key (of_bucket seconds t).
Proof. intros a b E. unfold rollup_key in E. injection E as E1 E2 _ _ _ _ _. unfold of_bucket, older. by rewrite E1, E2. Qed.
Lemma upsert_count p x rows rows' : of_key p → upsert x rows = Ok rows' → ulen (List.filter p rows') <= ulen (List.filter p rows) + (if p x then 1 else 0).
Proof.
  intros Hp. revert rows'. induction rows as [|r rows IH]; intros rows'; cbn [upsert].
  - intros [= <-]. cbn. destruct (p x); unfold ulen; cbn; lia.
  - destruct (bool_decide _).
    + cbv zeta. destruct (constraint_ok _); [|done]. intros [= <-]. cbn [List.filter]. rewrite (Hp (merge_rollup r x) r) by apply merge_rollup_key.
      destruct (p r), (p x); unfold ulen; cbn [length]; lia.
    + destruct (upsert x rows) as [rows1|]; [|done]. cbn. intros [= <-]. specialize (IH rows1 eq_refl). cbn [List.filter].
      destruct (p r), (p x); unfold ulen in *; cbn [length]; lia.
Qed.
Lemma insert_rollups_count p xs rows rows' : of_key p → insert_rollups xs rows = Ok rows' →
  ulen (List.filter p rows') <= ulen (List.filter p rows) + ulen (List.filter p xs).
Proof.
  intros Hp. revert rows. induction xs as [|x xs IH]; intros rows; cbn [insert_rollups]; [intros [= <-]; unfold ulen; cbn; lia|].
  destruct (negb _); [done|]. destruct (upsert x rows) as [rows1|] eqn:E; [|done]. cbn [mbind result_bind]. intros H.
  apply IH in H. pose proof (upsert_count p x rows rows1 Hp E). cbn [List.filter]. destruct (p x); unfold ulen in *; cbn [length]; lia.
Qed.
Lemma roll_up_count seconds b t n s db db' : roll_up_metric_rows t n s db = Ok db' →
  ulen (List.filter (of_bucket seconds b) (metric_rollups db')) <=
    ulen (List.filter (of_bucket seconds b) (metric_rollups db)) + (if s =? seconds then ulen (batch_samples t n (metric_samples db)) else 0).
Proof.
  unfold roll_up_metric_rows. destruct (negb _); [done|]. fold (batch_samples t n (metric_samples db)). cbv zeta.
  destruct (insert_rollups _ _) as [rollups|] eqn:E; [|done]. cbn. intros [= <-]. cbn [metric_rollups].
  apply (insert_rollups_count (of_bucket seconds b)) in E; [|apply of_bucket_key]. revert E. generalize (batch_samples t n (metric_samples db)). intros sel.
  pose proof (length_remove_dups_le (key_of s <$> List.filter has_value sel)) as Hl. rewrite length_fmap in Hl. pose proof (length_filter_le has_value sel).
  pose proof (Permutation_length (group_order_perm (is_real := is_real) (remove_dups (key_of s <$> List.filter has_value sel)))) as Hg. revert Hl Hg.
  generalize (remove_dups (key_of s <$> List.filter has_value sel)). intros ks0. generalize (group_order ks0). intros ks Hl Hg E. destruct (Z.eqb_spec s seconds) as [->|Hne].
  - pose proof (length_filter_le (of_bucket seconds b) (rollup_row seconds sel <$> ks)) as H1. rewrite length_fmap in H1. unfold ulen in *. lia.
  - rewrite (filter_none (of_bucket seconds b) (rollup_row s sel <$> ks)) in E; [unfold ulen in *; cbn in E; lia|].
    apply Forall_fmap, Forall_forall. intros k _. change ((s =? seconds) && older "bucket_start" b (rollup_row s sel k) = false).
    apply andb_false_iff. left. by apply Z.eqb_neq.
Qed.
Lemma retire_count c seconds cutoff n db db' m : db_ok db → retire_samples cutoff n db = Ok (db', m) → seconds = 3600 ∨ seconds = 86400 →
  expired_count (of_bucket seconds) c (metric_rollups db') <= expired_count (of_bucket seconds) c (metric_rollups db) + m.
Proof.
  intros [Hs He Hr]. destruct cutoff as [t|]; cbn [retire_samples]; [|intros [= <- <-] _; lia].
  destruct (roll_up_metric_rows t n 3600 db) as [db1|] eqn:E1; [|done]. cbn [mbind result_bind].
  destruct (roll_up_metric_rows t n 86400 db1) as [db2|] eqn:E2; [|done]. cbn [mbind result_bind].
  destruct (roll_up_spec _ _ _ _ _ Hs Hr E1) as (_ & Hs1 & Hr1 & _). assert (samples_ok (metric_samples db1)) as Hso1 by by rewrite Hs1.
  destruct (roll_up_spec _ _ _ _ _ Hso1 Hr1 E2) as (_ & Hs2 & _ & _). rewrite Hs2, Hs1.
  assert ((delete_expired_rows (Some t) n (metric_samples db)).2 = ulen (batch_samples t n (metric_samples db))) as Em by done.
  destruct (delete_expired_rows (Some t) n (metric_samples db)) as [kept m']. cbn [snd] in Em. intros [= <- <-] Hsec. cbn [metric_rollups].
  destruct c as [b|]; cbn [expired_count]; [|unfold ulen in *; lia].
  apply (roll_up_count seconds b) in E1, E2. rewrite Hs1 in E2. destruct Hsec as [->| ->]; cbn [Z.eqb Pos.eqb] in E1, E2; lia.
Qed.
Lemma batch_work c n db db' rm more : db_ok db → 1 <= n → maintain_retention_batch c n db = Ok (db', rm, more) → work c db' <= Z.max 0 (work c db - 1).
Proof.
  intros Hok Hn. pose proof Hok as [Hs He Hr]. unfold maintain_retention_batch. destruct (retire_samples _ _ _) as [[db1 m]|] eqn:E1; [|done]. cbn [mbind result_bind].
  destruct (retire_samples_spec _ _ _ _ _ Hok E1) as ([Hs1 He1 Hr1] & Hev & Hd & _).
  pose proof (retire_count (c_hourly c) 3600 _ _ _ _ _ Hok E1 (or_introl eq_refl)) as Hh. pose proof (retire_count (c_daily c) 86400 _ _ _ _ _ Hok E1 (or_intror eq_refl)) as Hdy.
  pose proof (delete_expired_if (c_event c) n (slot_events db1) He1) as Hde. destruct (delete_expired_rows (c_event c) n (slot_events db1)) as [events me].
  pose proof (delete_rollup_if 3600 (c_hourly c) n (metric_rollups db1)) as Hdh. destruct (delete_rollup_batch 3600 _ _ _) as [rollups mh].
  pose proof (delete_rollup_if 86400 (c_daily c) n rollups) as Hdd. destruct (delete_rollup_batch 86400 _ _ _) as [rollups' md]. cbn [fst snd] in *.
  intros [= <- _ _]. unfold work. cbn [slot_events metric_samples metric_rollups]. rewrite Hev in Hde.
  assert (expired_count (of_bucket 86400) (c_daily c) rollups <= expired_count (of_bucket 86400) (c_daily c) (metric_rollups db1)) as H1 by by eapply deleted_if_other_count.
  assert (expired_count (of_bucket 3600) (c_hourly c) rollups' <= expired_count (of_bucket 3600) (c_hourly c) rollups) as H2 by by eapply deleted_if_other_count.
  apply deleted_if_count in Hd as (_ & Hd1 & Hd2), Hde as (_ & He2 & He3), Hdh as (_ & Hh1 & Hh2), Hdd as (_ & Hd3 & Hd4).
  repeat match goal with |- context [expired_count ?p ?q ?l] => pose proof (expired_count_nonneg p q l); generalize dependent (expired_count p q l); intros end.
  lia.
Qed.
(** ** Whole runs *)

(** What a run leaves of a database, and what it says it removed *)
Record maintained (c : cutoffs) (db : database) (s : summary) (db' : database) (s' : summary) : Prop := {
  m_ok : db_ok db';
  m_fits : Forall sample_fits (metric_samples db');
  m_views : ∀ seconds k, seconds = 3600 ∨ seconds = 86400 → bucket_kept c seconds k → view_of db' seconds k = view_of db seconds k;
  m_samples : List.filter (unexpired (c_metric c)) (metric_samples db') = List.filter (unexpired (c_metric c)) (metric_samples db);
  m_events : List.filter (unexpired (c_event c)) (slot_events db') = List.filter (unexpired (c_event c)) (slot_events db);
  m_samples_removed : metric_samples_removed (s_removed s') = metric_samples_removed (s_removed s) + (ulen (metric_samples db) - ulen (metric_samples db'));
  m_events_removed : events_removed (s_removed s') = events_removed (s_removed s) + (ulen (slot_events db) - ulen (slot_events db'));
}.
Lemma maintained_trans c db1 s1 db2 s2 db3 s3 : maintained c db1 s1 db2 s2 → maintained c db2 s2 db3 s3 → maintained c db1 s1 db3 s3.
Proof.
  intros [H1 H2 H3 H4 H5 H6 H7] [J1 J2 J3 J4 J5 J6 J7]. split; [done..| | | | |].
  - intros seconds k Hs Hk. by rewrite J3, H3.
  - by rewrite J4, H4.
  - by rewrite J5, H5.
  - lia.
  - lia.
Qed.
Lemma batch_maintained c n db s db' rm more : db_ok db → Forall sample_fits (metric_samples db) → maintain_retention_batch c n db = Ok (db', rm, more) →
  maintained c db s db' (mkSummary (add_removed (s_removed s) rm) (batches_completed s + 1) more (interrupted s)).
Proof.
  intros Hok Hf E. destruct (batch_conserves c n db db' rm more Hok E) as (Hok' & Hv & Hd & He & _). split.
  - done.
  - rewrite Forall_forall in *. intros r Hr. apply Hf. destruct (c_metric c); cbn in Hd; [by eapply deleted_elem|]. by destruct Hd as [<- _].
  - done.
  - by eapply deleted_if_unexpired.
  - by eapply deleted_if_unexpired.
  - apply deleted_if_count in Hd as (H & _). cbn. lia.
  - apply deleted_if_count in He as (H & _). cbn. lia.
Qed.

Context {RW : RetentionWorld}.
Record quiet_world : Prop := {
  quiet_writes : ∀ i, write_fails i = None;
  quiet_continue : ∀ i, should_continue i = true;
  quiet_others : ∀ i db, other_writers i db = db;
}.
Lemma rounds_complete c n rounds i db s : quiet_world → 1 <= n → db_ok db → Forall sample_fits (metric_samples db) →
  (0 < rounds)%nat → work c db <= Z.of_nat rounds →
  ∃ db' s', retention_rounds c n rounds i db s = (db', inl s') ∧ maintained c db s db' s'
    ∧ has_more s' = false ∧ batch_has_more c db' = false ∧ interrupted s' = interrupted s.
Proof.
  intros Hq Hn. revert i db s. induction rounds as [|rounds IH]; intros i db s Hok Hf Hr Hw; [lia|]. cbn [retention_rounds].
  rewrite (quiet_continue Hq), (quiet_others Hq), (quiet_writes Hq). cbn [negb].
  destruct (batch_total c n db Hok Hf) as ([[db1 rm] more] & E). rewrite E.
  pose proof (batch_maintained c n db s db1 rm more Hok Hf E) as Hm. pose proof (batch_work c n db db1 rm more Hok Hn E) as Hw1.
  destruct (batch_conserves c n db db1 rm more Hok E) as (Hok1 & _ & _ & _ & Hmore). cbv zeta. destruct more.
  - rewrite has_more_work in Hmore. symmetry in Hmore. apply Z.ltb_lt in Hmore.
    destruct (IH (S i) db1 (mkSummary (add_removed (s_removed s) rm) (batches_completed s + 1) true (interrupted s)) Hok1 (m_fits _ _ _ _ _ Hm)) as (db' & s' & Er & Hm' & Hh & Hb & Hi); [lia|lia|].
    exists db', s'. split_and!; [done|by eapply maintained_trans|done|done|done].
  - eexists db1, _. split_and!; [done|exact Hm|done|done|done].
Qed.
End progress.

(** [C20] Undisturbed, on samples that can be rolled up, a run with enough batches
    finishes: exactly the samples and events within their retention are left, no rollup
    past its own is, every other bucket says what it said, and the summary counts what
    was removed.  The batch size makes no difference to any of this. *)
Theorem retention_completes {SQ : Sqlite} {is_real : json → Prop} {SL : SqliteLaws SQ is_real} {SS : SqliteSums SQ is_real} {RW : RetentionWorld}
    now raw event hourly daily batch_size max_batches c db :
  quiet_world → db_ok (is_real := is_real) db → Forall sample_fits (metric_samples db) →
  Forall (λ days, 0 <= days) [raw; event; hourly; daily] → 1 <= batch_size → 1 <= max_batches →
  retention_cutoffs now raw event hourly daily = Ok c → work c db <= max_batches →
  ∃ db' s pages, maintain_retention now raw event hourly daily batch_size max_batches db = (db', Maintained s pages)
    ∧ has_more s = false ∧ interrupted s = false
    ∧ metric_samples db' = List.filter (unexpired (c_metric c)) (metric_samples db)
    ∧ slot_events db' = List.filter (unexpired (c_event c)) (slot_events db)
    ∧ rollups_exist 3600 (c_hourly c) (metric_rollups db') = false ∧ rollups_exist 86400 (c_daily c) (metric_rollups db') = false
    ∧ (∀ seconds k, seconds = 3600 ∨ seconds = 86400 → bucket_kept c seconds k → view_of db' seconds k = view_of db seconds k)
    ∧ metric_samples_removed (s_removed s) = ulen (metric_samples db) - ulen (metric_samples db')
    ∧ events_removed (s_removed s) = ulen (slot_events db) - ulen (slot_events db').
Proof.
  intros Hq Hok Hf Hdays Hb Hmax Ec Hw. unfold maintain_retention.
  rewrite (proj2 (orb_false_iff _ _)); [|split; [apply orb_false_iff; split; [|by apply Z.ltb_ge]|by apply Z.ltb_ge]].
  2: { apply not_true_iff_false. intros (x & Hx & Hlt)%existsb_exists. rewrite Forall_forall in Hdays. apply list_elem_of_In, Hdays in Hx. apply Z.ltb_lt in Hlt. lia. }
  rewrite Ec. destruct (rounds_complete c batch_size (Z.to_nat max_batches) 0 db new_summary) as (db' & s' & -> & Hm & Hh & Hbh & Hi); [done|done|done|done|lia|lia|].
  exists db', s', (reclaim_free_pages s'). rewrite has_more_work in Hbh. apply Z.ltb_ge in Hbh. pose proof Hm as [_ _ Hv Hsm Hev Hsr Her].
  pose proof (expired_count_nonneg (older "observed_at") (c_metric c) (metric_samples db')). pose proof (expired_count_nonneg (older "observed_at") (c_event c) (slot_events db')).
  pose proof (expired_count_nonneg (of_bucket 3600) (c_hourly c) (metric_rollups db')). pose proof (expired_count_nonneg (of_bucket 86400) (c_daily c) (metric_rollups db')).
  unfold work in Hbh. split_and!; [done|done|by rewrite Hi| | | | |done|cbn in Hsr; lia|cbn in Her; lia].
  - rewrite <-Hsm. symmetry. apply unexpired_all. lia.
  - rewrite <-Hev. symmetry. apply unexpired_all. lia.
  - destruct (c_hourly c) as [t|]; [|done]. cbn [rollups_exist]. rewrite existsb_count. apply Z.ltb_ge. cbn in *. lia.
  - destruct (c_daily c) as [t|]; [|done]. cbn [rollups_exist]. rewrite existsb_count. apply Z.ltb_ge. cbn in *. lia.
Qed.

(** [C38] A batch fails, with an [IntegrityError], exactly when one of its samples has a
    value and belongs to a group that cannot become a row: SQLite cannot read its time,
    or the newest sample of the group has no value. *)
Theorem retention_batch_fails {SQ : Sqlite} {is_real : json → Prop} {SL : SqliteLaws SQ is_real} {SS : SqliteSums SQ is_real} c n db :
  db_ok (is_real := is_real) db →
  (∀ e, maintain_retention_batch c n db = Err e → e = IntegrityError)
  ∧ (maintain_retention_batch c n db = Err IntegrityError ↔
     ∃ t seconds r, let batch := List.filter (has_id (expired_ids t n (metric_samples db))) (metric_samples db) in
       c_metric c = Some t ∧ (seconds = 3600 ∨ seconds = 86400) ∧ r ∈ batch ∧ has_value r = true
       ∧ (bucket_of seconds r = None ∨ newest_value (List.filter (in_group seconds (key_of seconds r)) batch) = JNull)).
Proof.
  intros Hok. pose proof (batch_fails c n db Hok) as H. destruct (maintain_retention_batch c n db) as [x|e].
  - split; [done|]. split; [done|]. intros (t & seconds & r & Ht & Hsec & Hr & Hv & Hbad). destruct (H t seconds r Ht Hsec). by split_and!.
  - destruct H as [-> (t & seconds & r & Ht & Hsec & Hr & Hv & Hbad)]. split; [by intros ? [= <-]|]. split; [|done]. intros _. by exists t, seconds, r.
Qed.

(** ** Readers of recent history *)

(** The rows of two databases that a query from [since] on can see *)
Definition since_col (k : string) (since : ustr) (r : row) : bool := ustr_leb since (text_col k r).
Record recent_same (since : ustr) (db db' : database) : Prop := {
  recent_samples : List.filter (since_col "observed_at" since) (metric_samples db') = List.filter (since_col "observed_at" since) (metric_samples db);
  recent_events : List.filter (since_col "observed_at" since) (slot_events db') = List.filter (since_col "observed_at" since) (slot_events db);
  recent_rollups : List.filter (since_col "bucket_start" since) (metric_rollups db') = List.filter (since_col "bucket_start" since) (metric_rollups db);
}.
Lemma recent_same_refl since db : recent_same since db db.
Proof. done. Qed.
Lemma recent_same_trans since db1 db2 db3 : recent_same since db1 db2 → recent_same since db2 db3 → recent_same since db1 db3.
Proof. intros [H1 H2 H3] [J1 J2 J3]. split; by etrans. Qed.

Lemma filter_implied {A} (p q : A → bool) l : (∀ x, q x = true → p x = true) → List.filter q l = List.filter q (List.filter p l).
Proof.
  intros H. rewrite filter_filter. apply List.filter_ext. intros x. destruct (q x) eqn:E; [by rewrite (H x E)|by rewrite andb_false_r].
Qed.
Lemma existsb_implied {A} (p q : A → bool) l : (∀ x, q x = true → p x = true) → existsb q l = existsb q (List.filter p l).
Proof. intros H. rewrite !existsb_count. by rewrite (filter_implied p q) by done. Qed.

Section recent_reads.
Context {RT : Runtime} {SW : StoreWorld} (db db' : database) (q : query) (Hsame : recent_same (q_since q) db db').

Lemma raw_samples_same metric : raw_samples db' q metric = raw_samples db q metric.
Proof.
  unfold raw_samples. assert (∀ r, where_metric q metric r = true → since_col "observed_at" (q_since q) r = true) as H by (intros r Hr; unfold where_metric in Hr; by to_prop).
  rewrite (filter_implied _ _ _ H), (recent_samples _ _ _ Hsame). symmetry. by apply filter_implied.
Qed.
Lemma matching_events_same : matching_events db' q = matching_events db q.
Proof.
  unfold matching_events. assert (∀ r, where_event q r = true → since_col "observed_at" (q_since q) r = true) as H by (intros r Hr; unfold where_event in Hr; by to_prop).
  rewrite (filter_implied _ _ _ H), (recent_events _ _ _ Hsame). symmetry. by apply filter_implied.
Qed.
Lemma append_rollups_same metric limit seconds samples : append_rollups db' q metric limit seconds samples = append_rollups db q metric limit seconds samples.
Proof.
  unfold append_rollups. cbv zeta. destruct (_ <=? 0); [done|]. do 5 f_equal.
  assert (∀ r, where_rollup q metric seconds (boundary_of seconds samples) r = true → since_col "bucket_start" (q_since q) r = true) as H by (intros r Hr; unfold where_rollup in Hr; by to_prop).
  rewrite (filter_implied _ _ _ H), (recent_rollups _ _ _ Hsame). by rewrite <-(filter_implied _ _ _ H).
Qed.
Lemma slot_metric_same metric limit : slot_metric db' q metric limit = slot_metric db q metric limit.
Proof. unfold slot_metric. by rewrite !append_rollups_same, raw_samples_same. Qed.
Lemma metric_coverage_same metric limit : metric_coverage db' q metric limit = metric_coverage db q metric limit.
Proof.
  unfold metric_coverage. rewrite raw_samples_same. destruct (_ <? _); [done|].
  assert (∀ r, where_scope q r && ustr_leb (q_since q) (text_col "bucket_start" r) && bool_decide (text_col "metric_name" r = metric) = true → since_col "bucket_start" (q_since q) r = true) as H
    by (intros r Hr; by to_prop).
  rewrite (existsb_implied _ _ _ H), (recent_rollups _ _ _ Hsame). by rewrite <-(existsb_implied _ _ _ H).
Qed.
Lemma slot_payload_same event_limit limits : slot_payload db' q event_limit limits = slot_payload db q event_limit limits.
Proof.
  unfold slot_payload, slot_event_rows, event_coverage. rewrite matching_events_same. cbv zeta.
  assert (∀ A (f g : ustr * Z → A), (∀ ml, f ml = g ml) → f <$> limits = g <$> limits) as Hext by (intros A f g H; by apply list_fmap_ext; intros).
  rewrite (Hext _ (λ ml, (ml.1, JList (JObj <$> slot_metric db' q ml.1 ml.2))) (λ ml, (ml.1, JList (JObj <$> slot_metric db q ml.1 ml.2)))) by (intros ml; by rewrite slot_metric_same).
  rewrite (Hext _ (λ ml, (ml.1, JInt (ulen (slot_metric db' q ml.1 ml.2)))) (λ ml, (ml.1, JInt (ulen (slot_metric db q ml.1 ml.2))))) by (intros ml; by rewrite slot_metric_same).
  rewrite (Hext _ (λ ml, (ml.1, coverage_text (metric_coverage db' q ml.1 ml.2))) (λ ml, (ml.1, coverage_text (metric_coverage db q ml.1 ml.2)))) by (intros ml; by rewrite metric_coverage_same).
  rewrite (Hext _ (λ ml, (ml.1, match slot_metric db' q ml.1 ml.2 with item :: _ => field_or "value" JNull item | [] => JNull end))
    (λ ml, (ml.1, match slot_metric db q ml.1 ml.2 with item :: _ => field_or "value" JNull item | [] => JNull end))) by (intros ml; by rewrite slot_metric_same).
  done.
Qed.
End recent_reads.

Section recent.
Context {SQ : Sqlite}.

(** Buckets start at or before the times they hold. *)
Definition bucket_before (r : row) : Prop := ∀ seconds b, bucket_of seconds r = Some b → ustr_leb b (text_col "observed_at" r) = true.

Lemma upsert_other p x rows rows' : of_key p → p x = false → upsert x rows = Ok rows' → List.filter p rows' = List.filter p rows.
Proof.
  intros Hp Hx. revert rows'. induction rows as [|r rows IH]; intros rows'; cbn [upsert].
  - intros [= <-]. cbn. by rewrite Hx.
  - destruct (bool_decide (rollup_key r = rollup_key x)) eqn:E; to_prop.
    + cbv zeta. destruct (constraint_ok _); [|done]. intros [= <-]. cbn [List.filter]. rewrite (Hp (merge_rollup r x) x), (Hp r x), Hx; [done|done|by rewrite merge_rollup_key].
    + destruct (upsert x rows) as [rows1|]; [|done]. cbn. intros [= <-]. cbn [List.filter]. by rewrite (IH rows1).
Qed.
Lemma insert_rollups_other p xs rows rows' : of_key p → Forall (λ x, p x = false) xs → insert_rollups xs rows = Ok rows' → List.filter p rows' = List.filter p rows.
Proof.
  intros Hp. revert rows. induction xs as [|x xs IH]; intros rows Hx; cbn [insert_rollups]; [by intros [= <-]|]. apply Forall_cons in Hx as [Hx Hxs].
  destruct (negb _); [done|]. destruct (upsert x rows) as [rows1|] eqn:E; [|done]. cbn [mbind result_bind]. intros H.
  rewrite (IH rows1 Hxs H). by apply (upsert_other p x).
Qed.
Lemma since_key since : of_key (since_col "bucket_start" since).
Proof. intros a b E. unfold rollup_key in E. injection E as _ E _ _ _ _ _. unfold since_col. by rewrite E. Qed.
Lemma older_not_since k t since r : ustr_leb t since = true → older k t r = true → since_col k since r = false.
Proof.
  unfold older, since_col. intros Ht Ho. to_prop. destruct (ustr_leb since (text_col k r)) eqn:E; [|done]. by rewrite (ustr_leb_trans _ _ _ Ht E) in Ho.
Qed.
Context {is_real : json → Prop} {SL : SqliteLaws SQ is_real}.

Lemma roll_up_recent t n seconds since db db' : ustr_leb t since = true → NoDup (ids (metric_samples db)) → Forall bucket_before (metric_samples db) → roll_up_metric_rows t n seconds db = Ok db' → recent_same since db db'.
Proof.
  intros Ht Hnd Hb. unfold roll_up_metric_rows. destruct (negb _); [done|]. fold (batch_samples t n (metric_samples db)). cbv zeta.
  destruct (insert_rollups _ _) as [rollups|] eqn:E; [|done]. cbn. intros [= <-]. split; [done|done|]. cbn [metric_rollups].
  eapply insert_rollups_other; [apply since_key| |exact E]. pose proof (insert_rollups_constraint _ _ _ E) as Hc. rewrite Forall_fmap, Forall_forall in Hc.
  apply Forall_fmap, Forall_forall. intros k Hk. specialize (Hc k Hk). apply rollup_row_key in Hc.
  apply (group_keys_elem (is_real := is_real)) in Hk. destruct (List.filter _ _) as [|r l] eqn:Er in Hk; [done|].
  assert (r ∈ List.filter (valued_in seconds k) (batch_samples t n (metric_samples db))) as [Hr Hv]%elem_of_filter_list by (rewrite Er; left).
  apply elem_of_filter_list in Hr as [Hr Hid]. unfold valued_in, in_group in Hv. to_prop.
  unfold rollup_key in Hc. injection Hc as Hc. unfold since_col, compose.
  assert (k_bucket k = Some (text_col "bucket_start" (rollup_row seconds (batch_samples t n (metric_samples db)) k))) as Hkb by by rewrite <-Hc.
  destruct (ustr_leb since _) eqn:Es; [|done]. exfalso.
  assert (bucket_of seconds r = k_bucket k) as Hbk by (subst k; done). rewrite Hkb in Hbk. rewrite Forall_forall in Hb. pose proof (Hb r Hr seconds _ Hbk) as Hle.
  assert (∀ x, x ∈ expired_rows t n (metric_samples db) → x ∈ metric_samples db) as Hsub by (intros x Hx; by apply expired_rows_elem in Hx as [? _]).
  apply (has_id_spec _ (metric_samples db)), expired_rows_elem in Hid as [_ Ho]; [|done..]. unfold older in Ho. to_prop.
  by rewrite (ustr_leb_trans _ _ _ Ht (ustr_leb_trans _ _ _ Es Hle)) in Ho.
Qed.
Lemma deleted_if_recent p k cutoff n since rows rows' m : (∀ t r, cutoff = Some t → p t r = true → since_col k since r = false) →
  deleted_if p cutoff n rows rows' m → List.filter (since_col k since) rows' = List.filter (since_col k since) rows.
Proof.
  intros Hp. destruct cutoff as [t|]; cbn; [|by intros [-> _]]. intros H. apply (deleted_other _ _ _ _ _ _ H). intros r _. by apply Hp.
Qed.
(** No retention reaches beyond [since]. *)
Record cutoffs_before (c : cutoffs) (since : ustr) : Prop := {
  before_metric : ∀ t, c_metric c = Some t → ustr_leb t since = true;
  before_event : ∀ t, c_event c = Some t → ustr_leb t since = true;
  before_hourly : ∀ t, c_hourly c = Some t → ustr_leb t since = true;
  before_daily : ∀ t, c_daily c = Some t → ustr_leb t since = true;
}.
Lemma of_bucket_not_since s t since r : ustr_leb t since = true → of_bucket s t r = true → since_col "bucket_start" since r = false.
Proof. intros Ht Ho. unfold of_bucket in Ho. apply andb_true_iff in Ho as [_ Ho]. by eapply older_not_since. Qed.
Lemma retire_recent cutoff n since db db' m : (∀ t, cutoff = Some t → ustr_leb t since = true) → db_ok (is_real := is_real) db → Forall bucket_before (metric_samples db) →
  retire_samples cutoff n db = Ok (db', m) → recent_same since db db'.
Proof.
  intros Hc Hok Hb E1. pose proof Hok as [Hs He Hr]. destruct (retire_samples_spec _ _ _ _ _ Hok E1) as (_ & Hev & Hd & _).
  destruct cutoff as [t|]; cbn [retire_samples] in E1; [|by injection E1 as <- _]. specialize (Hc t eq_refl).
  destruct (roll_up_metric_rows t n 3600 db) as [db2|] eqn:E2; [|done]. cbn [mbind result_bind] in E1.
  destruct (roll_up_metric_rows t n 86400 db2) as [db3|] eqn:E3; [|done]. cbn [mbind result_bind] in E1.
  destruct (roll_up_spec _ _ _ _ _ Hs Hr E2) as (_ & Hs2 & _). pose proof (roll_up_recent t n 3600 since db db2 Hc (samples_ids _ Hs) Hb E2) as H2.
  assert (recent_same since db2 db3) as H3 by (apply (roll_up_recent t n 86400); [done|rewrite Hs2; apply Hs|by rewrite Hs2|done]).
  pose proof (recent_same_trans _ _ _ _ H2 H3) as [_ _ H].
  destruct (delete_expired_rows (Some t) n (metric_samples db3)) as [kept m']. injection E1 as <- <-. split; cbn [metric_samples slot_events metric_rollups] in *.
  - eapply deleted_if_recent; [|exact Hd]. intros t' r [= <-]. by apply older_not_since.
  - by rewrite Hev.
  - exact H.
Qed.
Lemma batch_recent c n since db db' rm more : cutoffs_before c since → db_ok (is_real := is_real) db → Forall bucket_before (metric_samples db) →
  maintain_retention_batch c n db = Ok (db', rm, more) → recent_same since db db'.
Proof.
  intros Hc Hok Hb. unfold maintain_retention_batch. destruct (retire_samples _ _ _) as [[db1 m]|] eqn:E1; [|done]. cbn [mbind result_bind].
  pose proof (retire_recent _ _ _ _ _ _ (before_metric _ _ Hc) Hok Hb E1) as [H1 H2 H3]. destruct (retire_samples_spec _ _ _ _ _ Hok E1) as ([_ He1 _] & _).
  pose proof (delete_expired_if (c_event c) n (slot_events db1) He1) as Hde. destruct (delete_expired_rows (c_event c) n (slot_events db1)) as [events me].
  pose proof (delete_rollup_if 3600 (c_hourly c) n (metric_rollups db1)) as Hdh. destruct (delete_rollup_batch 3600 _ _ _) as [rollups mh].
  pose proof (delete_rollup_if 86400 (c_daily c) n rollups) as Hdd. destruct (delete_rollup_batch 86400 _ _ _) as [rollups' md]. cbn [fst snd] in *.
  intros [= <- _ _]. split; cbn [metric_samples slot_events metric_rollups].
  - done.
  - rewrite <-H2. eapply deleted_if_recent; [|exact Hde]. intros t r E. apply older_not_since, (before_event _ _ Hc t E).
  - rewrite <-H3. etrans; [eapply deleted_if_recent; [|exact Hdd]|eapply deleted_if_recent; [|exact Hdh]].
    + intros t r E. apply of_bucket_not_since, (before_daily _ _ Hc t E).
    + intros t r E. apply of_bucket_not_since, (before_hourly _ _ Hc t E).
Qed.
Lemma rounds_recent {RW : RetentionWorld} c n since rounds i db s db' r : (∀ i db, other_writers i db = db) → cutoffs_before c since →
  db_ok (is_real := is_real) db → Forall bucket_before (metric_samples db) → retention_rounds c n rounds i db s = (db', r) → recent_same since db db'.
Proof.
  intros Ho Hc. revert i db s. induction rounds as [|rounds IH]; intros i db s Hok Hb; cbn [retention_rounds]; [by intros [= <- _]|].
  destruct (negb _); [by intros [= <- _]|]. rewrite Ho. destruct (write_fails i); [by intros [= <- _]|].
  destruct (maintain_retention_batch c n db) as [[[db1 rm] more]|e] eqn:E; [|by intros [= <- _]]. cbv zeta.
  pose proof (batch_recent _ _ _ _ _ _ _ Hc Hok Hb E) as H1. destruct more; [|by intros [= <- _]]. intros H.
  destruct (batch_conserves c n db db1 rm true Hok E) as (Hok1 & _ & Hd & _). eapply recent_same_trans; [exact H1|]. eapply IH; [done| |exact H].
  rewrite Forall_forall in *. intros x Hx. apply Hb. destruct (c_metric c); cbn in Hd; [by eapply deleted_elem|]. by destruct Hd as [<- _].
Qed.
End recent.

(** [C19] Retention is invisible to readers of recent history: when nothing else writes
    to the tables during a run, whatever its outcome, a scope history from a time that
    no retention reaches is answered as before. *)
Theorem retention_keeps_recent {SQ : Sqlite} {is_real : json → Prop} {SL : SqliteLaws SQ is_real} {RW : RetentionWorld} {RT : Runtime} {SW : StoreWorld}
    now raw event hourly daily batch_size max_batches c db q event_limit limits :
  (∀ i db, other_writers i db = db) → db_ok (is_real := is_real) db → Forall bucket_before (metric_samples db) →
  retention_cutoffs now raw event hourly daily = Ok c → cutoffs_before c (q_since q) →
  slot_payload (maintain_retention now raw event hourly daily batch_size max_batches db).1 q event_limit limits = slot_payload db q event_limit limits.
Proof.
  intros Ho Hok Hb Ec Hc. apply slot_payload_same. unfold maintain_retention. destruct (_ || _ || _); [done|]. rewrite Ec.
  destruct (retention_rounds c batch_size (Z.to_nat max_batches) 0 db new_summary) as [db' [s|[e s]]] eqn:E; by eapply rounds_recent.
Qed.
