(* ===== verification/RetentionExample.v ===== *)
(** * Retention of canonical times, and an example

    The times the collector writes are [isoformat] in UTC; on those SQLite's
    [strftime] truncates ([StrftimeLaws]), so every such sample can be rolled up
    and its buckets start before it.  A small SQLite on integers shows that the laws
    can be met, and runs the theorems. *)

From S2P Require Import Prelude.
From S2P Require Import PyStr.
From S2P Require Import Calendar.
From S2P Require Import Json.
From S2P Require Import JsonProofs.
From S2P Require Import Journal.
From S2P Require Import JournalLines.
From S2P Require Import JournalExample.
From S2P Require Import ReadBounds.
From S2P Require Import ScopeHistory.
From S2P Require Import ScopeHistoryProofs.
From S2P Require Import Retention.
From S2P Require Import RetentionProofs.
From S2P Require Import RetentionRuns.
#[local] Open Scope Z_scope.
#[local] Open Scope list_scope.

Definition truncated_to (micros : Z) (d : datetime) : datetime := mkDatetime (dt_day d) (dt_micros d - dt_micros d mod micros) (Some 0).
Definition bucket_micros (seconds : Z) : Z := if seconds =? 3600 then 3600000000 else 86400000000.
Class StrftimeLaws (SQ : Sqlite) : Prop :=
  strftime_truncates : ∀ seconds d, is_utc d →
    strftime (bucket_format seconds) (isoformat_utc d) = Some (isoformat_utc (truncated_to (bucket_micros seconds) d)).

(** ** Truncated times come first *)

Lemma ustr_leb_app p a b : ustr_leb (p ++ a) (p ++ b) = ustr_leb a b.
Proof. induction p as [|c p IH]; [done|]. cbn. by rewrite Z.ltb_irrefl, Z.eqb_refl. Qed.
Lemma pad_two_checked : forall_from (λ m, bool_decide (pad 2 m = [48 + m / 10; 48 + m mod 10])) 100 0 = true.
Proof. vm_compute. reflexivity. Qed.
Lemma pad_two m : 0 <= m < 100 → pad 2 m = [48 + m / 10; 48 + m mod 10].
Proof. intros Hm. pose proof (forall_from_spec _ _ _ pad_two_checked m ltac:(lia)) as H. by apply bool_decide_eq_true in H. Qed.
Lemma pad_two_leb m r r' : 0 <= m < 100 → ustr_leb r r' = true → ustr_leb (pad 2 0 ++ r) (pad 2 m ++ r') = true.
Proof.
  intros Hm Hr. rewrite !pad_two by lia. change (48 + 0 / 10) with 48. change (48 + 0 mod 10) with 48. cbn [app ustr_leb].
  destruct (Z.ltb_spec 48 (48 + m / 10)); [done|]. replace (48 + m / 10) with 48 by (Z.div_mod_to_equations; lia). cbn.
  destruct (Z.ltb_spec 48 (48 + m mod 10)); [done|]. replace (48 + m mod 10) with 48 by (Z.div_mod_to_equations; lia). by cbn.
Qed.

(** The text of a time: the day, then hour, minute and second, then the rest *)
Definition clock_text (h m s : Z) (rest : ustr) : ustr := pad 2 h ++ [58] ++ pad 2 m ++ [58] ++ pad 2 s ++ rest.
Lemma isoformat_clock d : ∃ day, ∀ micros,
  isoformat_utc (mkDatetime (dt_day d) micros (dt_offset d)) =
    day ++ clock_text (micros / 1000000 / 3600) (micros / 1000000 / 60 mod 60) (micros / 1000000 mod 60)
      ((if micros mod 1000000 =? 0 then [] else [46] ++ pad 6 (micros mod 1000000)) ++ UTC_OFFSET).
Proof.
  destruct (ord2ymd (dt_day d)) as [[y mo] dd] eqn:E. exists (pad 4 y ++ [45] ++ pad 2 mo ++ [45] ++ pad 2 dd ++ [84]).
  intros micros. unfold isoformat_utc, iso_body, clock_text. cbn [dt_day dt_micros]. rewrite E. by rewrite !app_assoc_reverse.
Qed.
Lemma fraction_leb micros : ustr_leb UTC_OFFSET ((if micros =? 0 then [] else [46] ++ pad 6 micros) ++ UTC_OFFSET) = true.
Proof. by destruct (micros =? 0). Qed.
Lemma truncated_leb seconds d : is_utc d → ustr_leb (isoformat_utc (truncated_to (bucket_micros seconds) d)) (isoformat_utc d) = true.
Proof.
  intros [Hv Ho]. apply valid_datetime_spec in Hv as [_ Hm]. unfold DAY_MICROS in Hm. destruct (isoformat_clock d) as (day & Ed). destruct d as [dd micros off]. cbn in Ho, Hm. subst off.
  cbn [dt_day dt_offset] in Ed. rewrite (Ed micros). unfold truncated_to. cbn [dt_day dt_micros]. rewrite Ed, ustr_leb_app. unfold clock_text.
  set (s := micros / 1000000). assert (0 <= s < 86400) as Hs by (unfold s; Z.div_mod_to_equations; lia).
  pose proof (fraction_leb (micros mod 1000000)) as Hf.
  assert (0 <= s / 60 mod 60 < 100 ∧ 0 <= s mod 60 < 100 ∧ 0 <= s / 3600 < 100) as (H1 & H2 & H3) by (Z.div_mod_to_equations; lia).
  unfold bucket_micros. destruct (seconds =? 3600).
  - assert ((micros - micros mod 3600000000) / 1000000 = 3600 * (s / 3600)) as -> by (unfold s; Z.div_mod_to_equations; lia).
    assert ((micros - micros mod 3600000000) mod 1000000 = 0) as -> by (Z.div_mod_to_equations; lia).
    assert (3600 * (s / 3600) / 3600 = s / 3600) as -> by (Z.div_mod_to_equations; lia).
    assert (3600 * (s / 3600) / 60 mod 60 = 0) as -> by (Z.div_mod_to_equations; lia).
    assert (3600 * (s / 3600) mod 60 = 0) as -> by (Z.div_mod_to_equations; lia).
    rewrite ustr_leb_app. cbn [app ustr_leb]. change (ustr_leb (pad 2 0 ++ [58] ++ pad 2 0 ++ UTC_OFFSET) (pad 2 (s / 60 mod 60) ++ [58] ++ pad 2 (s mod 60) ++
      (if micros mod 1000000 =? 0 then [] else [46] ++ pad 6 (micros mod 1000000)) ++ UTC_OFFSET) = true).
    apply pad_two_leb; [done|]. change (ustr_leb ([58] ++ ?a) ([58] ++ ?b)) with (ustr_leb a b). by apply pad_two_leb.
  - assert (micros - micros mod 86400000000 = 0) as -> by (rewrite Z.mod_small; lia).
    change (0 / 1000000 / 3600) with 0. change (0 / 1000000 / 60 mod 60) with 0. change (0 / 1000000 mod 60) with 0. change (0 mod 1000000 =? 0) with true.
    apply pad_two_leb; [done|]. change (ustr_leb ([58] ++ ?a) ([58] ++ ?b)) with (ustr_leb a b). apply pad_two_leb; [done|].
    change (ustr_leb ([58] ++ ?a) ([58] ++ ?b)) with (ustr_leb a b). by apply pad_two_leb.
Qed.
(** Samples as the collector writes them *)
Lemma canonical_sample {SQ : Sqlite} {TL : StrftimeLaws SQ} d r : is_utc d → text_col "observed_at" r = isoformat_utc d → has_value r = true →
  sample_fits r ∧ bucket_before r.
Proof.
  intros Hd Ho Hv. split; [split; [done|]|]; intros seconds; unfold bucket_of; rewrite Ho, strftime_truncates by done.
  - eauto.
  - intros b [= <-]. by apply truncated_leb.
Qed.

(** ** A small SQLite *)

Definition int_leb (a b : json) : bool := match a, b with JInt x, JInt y => x <=? y | _, _ => false end.
Definition int_add (a b : json) : json := match a, b with JInt x, JInt y => JInt (x + y) | _, _ => a end.
Definition int_sum (l : list json) : json := foldl int_add (JInt 0) l.
Definition int_value (v : json) : Prop := match v with JInt _ => True | _ => False end.
Definition hourly_format : ustr := u "%Y-%m-%dT%H:00:00+00:00".
Definition small_strftime (format t : ustr) : option ustr :=
  match read_iso t with
  | Some d => Some (isoformat_utc (truncated_to (if bool_decide (format = hourly_format) then 3600000000 else 86400000000) d))
  | None => None
  end.
Definition small_sqlite : Sqlite := {|
  strftime := small_strftime; cast_real := id; real_leb := int_leb; real_sum := int_sum; real_add := int_add; group_order := λ l, l |}.
Lemma small_sqlite_laws : SqliteLaws small_sqlite int_value.
Proof.
  split; cbn.
  - intros [].
  - intros [] []; try done. cbn. rewrite !Z.leb_le. lia.
  - intros [] [] []; try done. cbn. rewrite !Z.leb_le. lia.
  - intros [] []; try done. cbn. rewrite !Z.leb_le. intros _ _ H1 H2. f_equal. lia.
  - done.
Qed.
Lemma small_sqlite_sums : SqliteSums small_sqlite int_value.
Proof.
  split; cbn.
  - intros l _ H. unfold int_sum. assert (∀ a, int_value a → foldl int_add a l ≠ JNull) as Hf; [|by apply Hf].
    induction H as [|v l Hv _ IH]; intros a Ha; [by destruct a|]. cbn. apply IH. by destruct a, v.
  - intros [] []; done.
Qed.
Lemma small_strftime_laws : StrftimeLaws small_sqlite.
Proof.
  intros seconds d Hd. cbn. unfold small_strftime. rewrite read_isoformat by done. unfold bucket_format, bucket_micros, hourly_format.
  destruct (seconds =? 3600); [by rewrite bool_decide_true|by rewrite bool_decide_false].
Qed.

(** ** An example *)

Definition at_minute (day minutes : Z) : datetime := mkDatetime day (60000000 * minutes) (Some 0).
Definition reading (id day minutes value : Z) (device : string) : row :=
  [(u "id", JInt id); (u "observed_at", JStr (isoformat_utc (at_minute day minutes))); (u "system_id", JStr (u "nas")); (u "enclosure_key", JStr []);
   (u "slot", JInt 0); (u "slot_label", JStr (u "00")); (u "metric_name", JStr (u "temperature_c")); (u "value_integer", JInt value);
   (u "value_real", JNull); (u "device_name", JStr (u device))]%string.
Definition old_day : Z := example_day - 40.
Definition example_history : database := {|
  slot_events := [an_event 1 0 (example_day - 50); an_event 2 0 (example_day - 3)];
  metric_samples := [reading 1 old_day 605 31 "sda"; reading 2 old_day 640 35 "sdb"; reading 3 old_day 665 33 "sdb"; reading 4 (example_day - 2) 60 30 "sdb"];
  metric_rollups := [] |}.
Definition quiet : RetentionWorld := {|
  write_fails := λ _, None; should_continue := λ _, true; other_writers := λ _ db, db; pages_reclaimed := λ _, 1 |}.
Definition run_at (batch_size max_batches : Z) : database * outcome :=
  let _ := small_sqlite in let _ := quiet in maintain_retention (mkDatetime example_day 0 (Some 0)) 30 30 0 20 batch_size max_batches example_history.
Definition example_cutoffs : cutoffs :=
  match retention_cutoffs (mkDatetime example_day 0 (Some 0)) 30 30 0 20 with Ok c => c | Err _ => mkCutoffs None None None None end.
Definition summary_of (o : outcome) : option (Z * Z * Z * bool) :=
  match o with Maintained s _ => Some (metric_samples_removed (s_removed s), events_removed (s_removed s), batches_completed s, has_more s) | _ => None end.

(** Three samples of two hours and a day, one at a time or at once *)
Example example_runs : summary_of (run_at 1 9).2 = Some (3, 1, 3, false) ∧ summary_of (run_at 10 9).2 = Some (3, 1, 1, false)
  ∧ (λ r, (col "bucket_start" r, col "sample_count" r, col "value_max" r, col "last_value" r)) <$> metric_rollups (run_at 1 9).1
    = (λ r, (col "bucket_start" r, col "sample_count" r, col "value_max" r, col "last_value" r)) <$> metric_rollups (run_at 10 9).1
  ∧ int_col "sample_count" <$> metric_rollups (run_at 1 9).1 = [2; 1].
Proof. split_and!; vm_compute; reflexivity. Qed.

Lemma reading_ok id day minutes value device : @sample_ok small_sqlite int_value (reading id day minutes value device).
Proof. by split. Qed.
Lemma example_ok : @db_ok small_sqlite int_value example_history.
Proof.
  split; [split| |split]; try by apply (bool_decide_unpack _); vm_compute.
  all: repeat constructor; apply reading_ok.
Qed.
Lemma at_minute_utc day minutes : 1 <= day <= max_ordinal → 0 <= minutes < 1440 → is_utc (at_minute day minutes).
Proof. intros Hd Hm. split; [|done]. apply valid_datetime_spec. cbn. unfold DAY_MICROS. lia. Qed.
Lemma reading_canonical id day minutes value device : 1 <= day <= max_ordinal → 0 <= minutes < 1440 →
  @sample_fits small_sqlite (reading id day minutes value device) ∧ @bucket_before small_sqlite (reading id day minutes value device).
Proof. intros Hd Hm. apply (@canonical_sample small_sqlite small_strftime_laws (at_minute day minutes)); [by apply at_minute_utc|reflexivity|reflexivity]. Qed.
Lemma example_canonical : Forall (λ r, @sample_fits small_sqlite r ∧ @bucket_before small_sqlite r) (metric_samples example_history).
Proof. repeat constructor; try (by apply reading_canonical). Qed.

Lemma retention_completes_witness : let _ := small_sqlite in let _ := quiet in
  ∃ db' s pages, run_at 1 20 = (db', Maintained s pages) ∧ has_more s = false ∧ List.length (metric_samples db') = 1%nat.
Proof.
  intros SQ RW.
  destruct (@retention_completes small_sqlite int_value small_sqlite_laws small_sqlite_sums quiet (mkDatetime example_day 0 (Some 0)) 30 30 0 20 1 20 example_cutoffs example_history)
    as (db' & s & pages & E & Hm & _ & Hs & _).
  - split; reflexivity.
  - exact example_ok.
  - exact (Forall_impl _ _ _ example_canonical (λ r H, proj1 H)).
  - repeat constructor; lia.
  - lia.
  - lia.
  - vm_compute. reflexivity.
  - vm_compute. discriminate.
  - exists db', s, pages. split_and!; [exact E|exact Hm|]. rewrite Hs. vm_compute. reflexivity.
Defined.
Lemma retention_keeps_recent_witness : let _ := small_sqlite in let _ := quiet in let _ := example_runtime in let _ := example_store in
  let q := mkQuery (u "nas") [] 0 (example_since 480) in
  slot_payload (run_at 1 9).1 q 5 [(u "temperature_c", 5)] = slot_payload example_history q 5 [(u "temperature_c", 5)]
  ∧ List.length (metric_samples (run_at 1 9).1) = 1%nat.
Proof.
  intros SQ RW RT SW q. split; [|vm_compute; reflexivity].
  apply (@retention_keeps_recent small_sqlite int_value small_sqlite_laws quiet RT SW (mkDatetime example_day 0 (Some 0)) 30 30 0 20 1 9 example_cutoffs).
  - reflexivity.
  - exact example_ok.
  - exact (Forall_impl _ _ _ example_canonical (λ r H, proj2 H)).
  - vm_compute. reflexivity.
  - split; intros t E; vm_compute in E; (discriminate E || (injection E as <-; vm_compute; reflexivity)).
Defined.
Definition batch_of (n : Z) (db : database) : database * removed :=
  match @maintain_retention_batch small_sqlite example_cutoffs n db with Ok (db', rm, _) => (db', rm) | Err _ => (db, mkRemoved 0 0 0 0) end.
Lemma retention_conserves_witness : let _ := small_sqlite in
  ∃ db' rm, maintain_retention_batch example_cutoffs 2 example_history = Ok (db', rm, true)
    ∧ view_of db' 3600 (key_of 3600 (reading 0 old_day 600 0 "")) = view_of example_history 3600 (key_of 3600 (reading 0 old_day 600 0 "")).
Proof.
  intros SQ. exists (batch_of 2 example_history).1, (batch_of 2 example_history).2.
  assert (maintain_retention_batch example_cutoffs 2 example_history = Ok ((batch_of 2 example_history).1, (batch_of 2 example_history).2, true)) as E
    by (vm_compute; reflexivity).
  split; [exact E|].
  destruct (@retention_conserves small_sqlite int_value small_sqlite_laws example_cutoffs 2 example_history _ _ true example_ok E) as (_ & Hv & _).
  apply Hv; [by left|]. intros t b Et. vm_compute in Et. discriminate Et.
Defined.

(** A sample without a value, newer than one with a value in its hour *)
Definition valueless (id day minutes : Z) : row := jset (u "value_integer") JNull (reading id day minutes 0 "sda").
Definition stuck_history : database := {|
  slot_events := []; metric_samples := [reading 1 old_day 605 31 "sda"; valueless 2 old_day 640]; metric_rollups := [] |}.
Lemma stuck_ok : @db_ok small_sqlite int_value stuck_history.
Proof.
  split; [split| |split]; try by apply (bool_decide_unpack _); vm_compute.
  - apply Forall_cons. split; [apply reading_ok|]. apply Forall_singleton. split; [reflexivity|reflexivity|]. intros H. vm_compute in H. discriminate H.
  - constructor.
Qed.
Lemma retention_batch_fails_witness : let _ := small_sqlite in
  maintain_retention_batch example_cutoffs 2 stuck_history = Err IntegrityError
  ∧ maintain_retention_batch example_cutoffs 1 stuck_history = Ok ((batch_of 1 stuck_history).1, (batch_of 1 stuck_history).2, true).
Proof.
  intros SQ. split; [|vm_compute; reflexivity].
  apply (proj2 (@retention_batch_fails small_sqlite int_value small_sqlite_laws small_sqlite_sums example_cutoffs 2 stuck_history stuck_ok)).
  exists (isoformat_utc (mkDatetime (example_day - 30) 0 (Some 0))), 3600, (reading 1 old_day 605 31 "sda"). split_and!.
  - vm_compute. reflexivity.
  - by left.
  - vm_compute. left.
  - reflexivity.
  - right. vm_compute. reflexivity.
Defined.
