(* ===== verification/SlotRecords.v ===== *)
(** * Slot records and events

    [history_service/domain.py]: what an inventory says of a slot becomes a
    [SlotStateRecord], and two records of a slot become the [SlotEvent]s that
    tell them apart.  The payloads are JSON documents; texts are code points.

    [PyText] is what Python knows of characters beyond ASCII and of floats:
    case folding, digits, which characters [repr] escapes.  A numeral has at
    most 4300 digits, so [str] of an integer does not raise. *)

From S2P Require Import Prelude PyStr Json JsonProofs JsonHook Dict Journal.
#[local] Open Scope Z_scope.
#[local] Open Scope list_scope.

Inductive slot_exn := SlotValueError | SlotTypeError | SlotOverflowError | SlotAttributeError | SlotStoreError.
#[export] Instance slot_exn_eq_dec : EqDecision slot_exn.
Proof. solve_decision. Defined.

(** ** Python's texts *)

Class PyText := {
  pt_floats :: Floats;
  float_str : ustr → ustr;                        (* [str(x)] of a float *)
  float_to_int : ustr → result slot_exn Z;        (* [int(x)]: NaN and infinity raise *)
  casefold_wide : Z → ustr;                       (* beyond ASCII *)
  upper_wide : Z → ustr;
  isdigit_wide : Z → bool;
  decimal_wide : Z → option Z;                    (* the value of a decimal digit *)
  isprintable_wide : Z → bool;
}.

Section text.
Context {PT : PyText}.

Definition is_ascii (c : Z) : bool := c <? 128.
Definition lower_ascii (c : Z) : Z := if between 65 90 c then c + 32 else c.
Definition upper_ascii (c : Z) : Z := if between 97 122 c then c - 32 else c.
Definition casefold (s : ustr) : ustr := s ≫= λ c, if is_ascii c then [lower_ascii c] else casefold_wide c.
Definition upper (s : ustr) : ustr := s ≫= λ c, if is_ascii c then [upper_ascii c] else upper_wide c.
Definition isdigit (c : Z) : bool := if is_ascii c then is_dig c else isdigit_wide c.
Definition decimal (c : Z) : option Z :=
  if is_ascii c then (if is_dig c then Some (c - 48) else None) else decimal_wide c.

Fixpoint join_with (sep : ustr) (l : list ustr) : ustr :=
match l with [] => [] | [x] => x | x :: l' => x ++ sep ++ join_with sep l' end.

(** [repr] of a text: single quotes unless only they occur *)
Definition repr_char (q c : Z) : ustr :=
  if (c =? q) || (c =? 92) then [92; c]
  else if c =? 9 then [92; 116]
  else if c =? 10 then [92; 110]
  else if c =? 13 then [92; 114]
  else if (if is_ascii c then between 32 126 c else isprintable_wide c) then [c]
  else if c <? 256 then [92; 120; hex_char (c / 16); hex_char (c mod 16)]
  else if c <? 65536 then u4 c
  else [92; 85; 48; 48; hex_char (c / 1048576); hex_char (c / 65536 mod 16); hex_char (c / 4096 mod 16);
        hex_char (c / 256 mod 16); hex_char (c / 16 mod 16); hex_char (c mod 16)].
Definition repr_text (s : ustr) : ustr :=
  let q := if bool_decide (39 ∈ s) && negb (bool_decide (34 ∈ s)) then 34 else 39 in
  [q] ++ (s ≫= repr_char q) ++ [q].
Fixpoint repr (v : json) : ustr :=
match v with
| JNull => u "None"
| JBool b => if b then u "True" else u "False"
| JInt z => print_int z
| JFloat lit => float_str lit
| JStr s => repr_text s
| JList l => [91] ++ join_with [44; 32] (repr <$> l) ++ [93]
| JObj d => [123] ++ join_with [44; 32] ((λ kv, repr_text kv.1 ++ [58; 32] ++ repr kv.2) <$> d) ++ [125]
end.
Definition str (v : json) : ustr := match v with JStr s => s | _ => repr v end.

Definition truthy (v : json) : bool :=
match v with
| JNull => false
| JBool b => b
| JInt z => negb (z =? 0)
| JFloat lit => float_true lit
| JStr s => non_empty s
| JList l => non_empty l
| JObj d => non_empty d
end.
Definition por (v w : json) : json := if truthy v then v else w.
Definition get (k : ustr) (d : jdict) : json := default JNull (jget k d).

(** [int(s)]: the spaces it skips are not quite those of [strip], and digits may
    have single underscores between them. *)
Definition int_space (c : Z) : bool := is_uspace c && negb (between 28 31 c).
Fixpoint int_digits (s : ustr) (may_split : bool) : option (list Z) :=
match s with
| [] => if may_split then Some [] else None
| c :: s' =>
    match decimal c with
    | Some x => (x ::.) <$> int_digits s' true
    | None => if (c =? 95) && may_split then int_digits s' false else None
    end
end.
Definition int_text (s : ustr) : result slot_exn Z :=
let t := rev (drop_while int_space (rev (drop_while int_space s))) in
let '(negative, body) := match t with
                         | c :: t' => if c =? 45 then (true, t') else if c =? 43 then (false, t') else (false, t)
                         | [] => (false, t)
                         end in
match int_digits body false with
| Some ds =>
    raise: SlotValueError when Nat.ltb int_max_str_digits (length ds);
    let z := fold_left (λ a x, 10 * a + x) ds 0 in Ok (if negative : bool then - z else z)
| None => Err SlotValueError
end.
Definition int_of (v : json) : result slot_exn Z :=
match v with
| JInt z => Ok z
| JBool b => Ok (if b then 1 else 0)
| JFloat lit => float_to_int lit
| JStr s => int_text s
| JNull | JList _ | JObj _ => Err SlotTypeError
end.
(** [f"{n:02d}"] *)
Definition two_digits (n : Z) : ustr := let t := print_int n in if Nat.ltb (length t) 2 then 48 :: t else t.

(** ** Normalized fields *)

Definition normalize_text (value : json) : option ustr :=
match value with
| JNull => None
| _ => match ustrip (str value) with [] => None | text => Some text end
end.
Definition bare_hex (s : ustr) : ustr := match strip_prefix (u "0x") s with Some h => h | None => s end.
Definition normalize_sas_address (value : json) : option ustr :=
match normalize_text value with
| None => None
| Some text =>
    let normalized := casefold text in
    let hex_digits := bare_hex normalized in
    if non_empty hex_digits && forallb (λ c, c =? 48) hex_digits then None else Some normalized
end.
(** No other character has one of these letters as its lower case. *)
Definition as_bool (value : json) : bool :=
match value with
| JBool b => b
| JInt z => negb (z =? 0)
| JFloat lit => float_true lit
| JStr s => bool_decide ((lower_ascii <$> ustrip s) ∈ [u "1"; u "true"; u "yes"; u "on"])
| _ => false
end.
Definition unique_join (values : list json) : option ustr :=
match fromkeys (omap normalize_text values) with [] => None | parts => Some (join_with [44; 32] parts) end.
Definition build_disk_identity_key (serial persistent_id_label persistent_id_value : json) : option ustr :=
match normalize_text serial, normalize_text persistent_id_value with
| Some serial, Some value =>
    Some (casefold serial ++ [124] ++ casefold (default (u "unknown") (normalize_text persistent_id_label))
          ++ [124] ++ casefold value)
| _, _ => None
end.

Inductive member_state := active | passive | failed | other.
#[export] Instance member_state_eq_dec : EqDecision member_state.
Proof. solve_decision. Defined.
Definition classify_multipath_member_state (value : json) : member_state :=
match normalize_text value with
| None => other
| Some state_name =>
    let s := upper state_name in
    if bool_decide (s = u "ACTIVE") then active
    else if bool_decide (s = u "PASSIVE") then passive
    else if bool_decide (s ∈ [u "FAIL"; u "FAILED"; u "FAULT"; u "OFFLINE"; u "LOST"]) then failed
    else other
end.
End text.

(** ** Records *)

Record SlotStateRecord := mkSlot {
  system_id : ustr; system_label : option ustr;
  enclosure_key : ustr; enclosure_id : option ustr; enclosure_label : option ustr;
  slot : Z; slot_label : ustr; present : bool; state : option ustr; identify_active : bool;
  device_name : option ustr; serial : option ustr; model : option ustr; gptid : option ustr;
  pool_name : option ustr; vdev_name : option ustr; health : option ustr;
  persistent_id_label : option ustr; disk_identity_key : option ustr; logical_unit_id : option ustr;
  sas_address : option ustr; topology_label : option ustr;
  multipath_device : option ustr; multipath_mode : option ustr; multipath_state : option ustr;
  multipath_lunid : option ustr; multipath_primary_path : option ustr; multipath_alternate_path : option ustr;
  multipath_active_paths : option ustr; multipath_passive_paths : option ustr; multipath_failed_paths : option ustr;
  multipath_other_paths : option ustr; multipath_active_controllers : option ustr;
  multipath_passive_controllers : option ustr; multipath_failed_controllers : option ustr;
}.
#[export] Instance SlotStateRecord_eq_dec : EqDecision SlotStateRecord.
Proof. solve_decision. Defined.

Definition jopt (v : option ustr) : json := match v with Some s => JStr s | None => JNull end.
Definition attributes (r : SlotStateRecord) : jdict :=
  [(u "system_id", JStr (system_id r)); (u "system_label", jopt (system_label r));
   (u "enclosure_key", JStr (enclosure_key r)); (u "enclosure_id", jopt (enclosure_id r));
   (u "enclosure_label", jopt (enclosure_label r)); (u "slot", JInt (slot r)); (u "slot_label", JStr (slot_label r));
   (u "present", JBool (present r)); (u "state", jopt (state r)); (u "identify_active", JBool (identify_active r));
   (u "device_name", jopt (device_name r)); (u "serial", jopt (serial r)); (u "model", jopt (model r));
   (u "gptid", jopt (gptid r)); (u "pool_name", jopt (pool_name r)); (u "vdev_name", jopt (vdev_name r));
   (u "health", jopt (health r)); (u "persistent_id_label", jopt (persistent_id_label r));
   (u "disk_identity_key", jopt (disk_identity_key r)); (u "logical_unit_id", jopt (logical_unit_id r));
   (u "sas_address", jopt (sas_address r)); (u "topology_label", jopt (topology_label r));
   (u "multipath_device", jopt (multipath_device r)); (u "multipath_mode", jopt (multipath_mode r));
   (u "multipath_state", jopt (multipath_state r)); (u "multipath_lunid", jopt (multipath_lunid r));
   (u "multipath_primary_path", jopt (multipath_primary_path r));
   (u "multipath_alternate_path", jopt (multipath_alternate_path r));
   (u "multipath_active_paths", jopt (multipath_active_paths r));
   (u "multipath_passive_paths", jopt (multipath_passive_paths r));
   (u "multipath_failed_paths", jopt (multipath_failed_paths r));
   (u "multipath_other_paths", jopt (multipath_other_paths r));
   (u "multipath_active_controllers", jopt (multipath_active_controllers r));
   (u "multipath_passive_controllers", jopt (multipath_passive_controllers r));
   (u "multipath_failed_controllers", jopt (multipath_failed_controllers r))].
(** [getattr(record, name)] *)
Definition getattr (r : SlotStateRecord) (name : ustr) : json := default JNull (jget name (attributes r)).
#[global] Arguments getattr : simpl never.

Section records.
Context {PT : PyText}.

(** [__post_init__], of every record that is made: a missing identity key is filled in. *)
Definition with_identity_key (k : option ustr) (r : SlotStateRecord) : SlotStateRecord :=
  mkSlot (system_id r) (system_label r) (enclosure_key r) (enclosure_id r) (enclosure_label r) (slot r) (slot_label r)
    (present r) (state r) (identify_active r) (device_name r) (serial r) (model r) (gptid r) (pool_name r) (vdev_name r)
    (health r) (persistent_id_label r) k (logical_unit_id r) (sas_address r) (topology_label r) (multipath_device r)
    (multipath_mode r) (multipath_state r) (multipath_lunid r) (multipath_primary_path r) (multipath_alternate_path r)
    (multipath_active_paths r) (multipath_passive_paths r) (multipath_failed_paths r) (multipath_other_paths r)
    (multipath_active_controllers r) (multipath_passive_controllers r) (multipath_failed_controllers r).
Definition post_init (r : SlotStateRecord) : SlotStateRecord :=
match disk_identity_key r with
| Some _ => r
| None => with_identity_key
            (build_disk_identity_key (jopt (serial r)) (jopt (persistent_id_label r)) (jopt (gptid r))) r
end.

(** The members of a multipath payload: what is not a dict is skipped. *)
Definition members_of (multipath : json) : result slot_exn (list jdict) :=
match multipath with
| JObj d =>
    match por (get (u "members") d) (JList []) with
    | JList l => Ok (omap (λ v, match v with JObj m => Some m | _ => None end) l)
    | JStr _ | JObj _ => Ok []
    | _ => Err SlotTypeError
    end
| _ => Ok []
end.
Definition bucket_of (member : jdict) : member_state :=
  classify_multipath_member_state (por (get (u "state") member) (get (u "mode") member)).
(** The [name] of the members in a bucket, in their order *)
Definition in_bucket (b : member_state) (name : ustr) (ms : list jdict) : list json :=
  get name <$> List.filter (λ m, bool_decide (bucket_of m = b)) ms.
Definition of_multipath (name : ustr) (multipath : json) : json :=
  match multipath with JObj d => get name d | _ => JNull end.

Definition oor (a b : option ustr) : option ustr := match a with Some _ => a | None => b end.
Definition from_snapshot_slot (snapshot slot_payload : jdict) : result slot_exn SlotStateRecord :=
let text name := normalize_text (get name slot_payload) in
let e := normalize_text (por (get (u "enclosure_id") slot_payload) (get (u "selected_enclosure_id") snapshot)) in
let e_label := normalize_text (por (get (u "enclosure_label") slot_payload) (get (u "selected_enclosure_label") snapshot)) in
n ← int_of (por (get (u "slot") slot_payload) (JInt 0));
let multipath := get (u "multipath") slot_payload in
ms ← members_of multipath;
let mtext name := normalize_text (of_multipath name multipath) in
let joined b name := unique_join (in_bucket b name ms) in
Ok (post_init {|
  system_id := default (u "default") (normalize_text (get (u "selected_system_id") snapshot));
  system_label := normalize_text (get (u "selected_system_label") snapshot);
  enclosure_key := default [] e; enclosure_id := e; enclosure_label := e_label;
  slot := n; slot_label := default (two_digits n) (text (u "slot_label"));
  present := as_bool (get (u "present") slot_payload); state := text (u "state");
  identify_active := as_bool (get (u "identify_active") slot_payload);
  device_name := text (u "device_name"); serial := text (u "serial"); model := text (u "model");
  gptid := text (u "gptid"); pool_name := text (u "pool_name"); vdev_name := text (u "vdev_name");
  health := text (u "health"); persistent_id_label := text (u "persistent_id_label");
  disk_identity_key := build_disk_identity_key (get (u "serial") slot_payload)
                         (get (u "persistent_id_label") slot_payload) (get (u "gptid") slot_payload);
  logical_unit_id := oor (text (u "logical_unit_id")) (mtext (u "lunid"));
  sas_address := normalize_sas_address (get (u "sas_address") slot_payload);
  topology_label := text (u "topology_label");
  multipath_device := mtext (u "device_name"); multipath_mode := mtext (u "mode");
  multipath_state := normalize_text (por (of_multipath (u "state") multipath) (of_multipath (u "provider_state") multipath));
  multipath_lunid := mtext (u "lunid"); multipath_primary_path := mtext (u "path_device_name");
  multipath_alternate_path := mtext (u "alternate_path_device");
  multipath_active_paths := joined active (u "device_name"); multipath_passive_paths := joined passive (u "device_name");
  multipath_failed_paths := joined failed (u "device_name"); multipath_other_paths := joined other (u "device_name");
  multipath_active_controllers := joined active (u "controller_label");
  multipath_passive_controllers := joined passive (u "controller_label");
  multipath_failed_controllers := joined failed (u "controller_label");
|}).

(** ** Differences *)

Definition FIELD_LABELS : list (ustr * ustr) :=
  [(u "present", u "Present"); (u "state", u "State"); (u "identify_active", u "Identify Active"); (u "health", u "Health");
   (u "device_name", u "Device"); (u "serial", u "Serial"); (u "model", u "Model"); (u "gptid", u "Persistent ID");
   (u "persistent_id_label", u "Persistent ID Type"); (u "logical_unit_id", u "Logical Unit ID");
   (u "sas_address", u "SAS Address"); (u "pool_name", u "Pool"); (u "vdev_name", u "Vdev"); (u "topology_label", u "Topology");
   (u "multipath_device", u "Multipath Device"); (u "multipath_mode", u "Multipath Mode");
   (u "multipath_state", u "Multipath State"); (u "multipath_lunid", u "LUN ID");
   (u "multipath_primary_path", u "Primary Path"); (u "multipath_alternate_path", u "Alternate Path");
   (u "multipath_active_paths", u "Active Paths"); (u "multipath_passive_paths", u "Passive Paths");
   (u "multipath_failed_paths", u "Failed Paths"); (u "multipath_other_paths", u "Other Paths");
   (u "multipath_active_controllers", u "Active Controllers"); (u "multipath_passive_controllers", u "Passive Controllers");
   (u "multipath_failed_controllers", u "Failed Controllers")].
Definition STATE_CHANGED : ustr := u "slot_state_changed".
Definition IDENTITY_CHANGED : ustr := u "slot_identity_changed".
Definition TOPOLOGY_CHANGED : ustr := u "slot_topology_changed".
Definition MULTIPATH_CHANGED : ustr := u "slot_multipath_changed".
Definition EVENT_GROUPS : list (ustr * list ustr) :=
  [(STATE_CHANGED, [u "present"; u "state"; u "identify_active"; u "health"]);
   (IDENTITY_CHANGED, [u "device_name"; u "serial"; u "model"; u "gptid"; u "logical_unit_id"; u "sas_address"]);
   (TOPOLOGY_CHANGED, [u "pool_name"; u "vdev_name"; u "topology_label"]);
   (MULTIPATH_CHANGED,
    [u "multipath_device"; u "multipath_mode"; u "multipath_state"; u "multipath_lunid"; u "multipath_primary_path";
     u "multipath_alternate_path"; u "multipath_active_paths"; u "multipath_passive_paths"; u "multipath_failed_paths";
     u "multipath_other_paths"; u "multipath_active_controllers"; u "multipath_passive_controllers";
     u "multipath_failed_controllers"])].

Definition has_text (v : option ustr) : bool := match v with Some (_ :: _) => true | _ => false end.

Definition stable_disk_identity (previous current : SlotStateRecord) : bool :=
  let fields := [u "serial"; u "gptid"; u "logical_unit_id"] in
  if existsb (λ f, negb (bool_decide (getattr previous f = getattr current f))) fields then false
  else if existsb (λ f, truthy (getattr previous f)) fields then true
  else has_text (disk_identity_key previous) && bool_decide (disk_identity_key previous = disk_identity_key current).

Definition sas_dual_path_addresses_equivalent (old_value new_value : option ustr) : result slot_exn bool :=
match old_value, new_value with
| Some ((_ :: _) as old), Some ((_ :: _) as new) =>
    let '(old_hex, new_hex) := (bare_hex old, bare_hex new) in
    if negb (Nat.eqb (length old_hex) (length new_hex)) || Nat.ltb (length old_hex) 2 then Ok false
    else if negb (bool_decide (take (length old_hex - 1) old_hex = take (length new_hex - 1) new_hex)) then Ok false
    else
      match List.last old_hex 0, List.last new_hex 0 with
      | old_port, new_port =>
          if negb (isdigit old_port && isdigit new_port) then Ok false
          else match decimal old_port, decimal new_port with
               | Some x, Some y => Ok (Z.abs (x - y) <=? 3)
               | _, _ => Err SlotValueError
               end
      end
| _, _ => Ok false
end.

Definition field_values_equal (previous current : SlotStateRecord) (field_name : ustr) : result slot_exn bool :=
if negb (bool_decide (field_name = u "sas_address")) then Ok (bool_decide (getattr previous field_name = getattr current field_name))
else
  let old_value := normalize_sas_address (jopt (sas_address previous)) in
  let new_value := normalize_sas_address (jopt (sas_address current)) in
  if bool_decide (old_value = new_value) then Ok true
  else if stable_disk_identity previous current then sas_dual_path_addresses_equivalent old_value new_value
  else Ok false.

(** ** Events *)

(** [json.dumps(changes, sort_keys=True)] with its default separators: the
    values of [changes] are texts, booleans and [None], two levels deep. *)
Fixpoint join_spaced (l : list ustr) : ustr :=
match l with [] => [] | [x] => x | x :: l' => x ++ [44; 32] ++ join_spaced l' end.
Definition member_spaced (kv : ustr * ustr) : ustr := quote kv.1 ++ [58; 32] ++ kv.2.
Fixpoint dumps_spaced (v : json) : ustr :=
match v with
| JNull => u "null"
| JBool b => if b then u "true" else u "false"
| JInt z => print_int z
| JFloat lit => lit
| JStr s => quote s
| JList l => [91] ++ join_spaced (dumps_spaced <$> l) ++ [93]
| JObj m => [123] ++ join_spaced (member_spaced <$> sort_by key_leb ((λ kv, (kv.1, dumps_spaced kv.2)) <$> m)) ++ [125]
end.

Record SlotEvent := mkSlotEvent {
  ev_observed_at : ustr; ev_system_id : ustr; ev_system_label : option ustr; ev_enclosure_key : ustr;
  ev_enclosure_id : option ustr; ev_enclosure_label : option ustr; ev_slot : Z; ev_slot_label : ustr;
  event_type : ustr; previous_value : option ustr; current_value : option ustr;
  ev_device_name : option ustr; ev_serial : option ustr; details_json : ustr; ev_gptid : option ustr;
  ev_persistent_id_label : option ustr; ev_disk_identity_key : option ustr; ev_logical_unit_id : option ustr;
  ev_sas_address : option ustr;
}.

(** [a or b] of texts, and [x / y] of those that are there *)
Definition tor (a : option ustr) (b : ustr) : ustr := match a with Some ((_ :: _) as s) => s | _ => b end.
Definition SLASH : ustr := u " / ".
Definition summarize_record (r : SlotStateRecord) (kind : ustr) : ustr :=
  if bool_decide (kind = STATE_CHANGED) then
    tor (state r) (if present r then u "present" else u "empty") ++ SLASH
    ++ (if identify_active r then u "identify" else u "steady")
  else if bool_decide (kind = IDENTITY_CHANGED) then
    tor (serial r) (tor (device_name r) (tor (gptid r) (u "unknown disk")))
  else if bool_decide (kind = TOPOLOGY_CHANGED) then
    tor (topology_label r)
      (match join_with SLASH (omap (λ part, if has_text part then part else None) [pool_name r; vdev_name r]) with
       | [] => u "unassigned" | s => s end)
  else if bool_decide (kind = MULTIPATH_CHANGED) then
    let head := if has_text (multipath_device r) then Some (tor (multipath_device r) [])
                else if has_text (multipath_primary_path r) || has_text (multipath_alternate_path r)
                then Some (u "direct path set") else None in
    match head with
    | None => u "no multipath"
    | Some head =>
        let part (o : option ustr) (p : ustr) := match o with Some ((_ :: _) as s) => [p ++ s] | _ => [] end in
        join_with SLASH
          ([head] ++ part (multipath_state r) []
           ++ (if has_text (multipath_active_paths r) then part (multipath_active_paths r) (u "active ")
               else part (multipath_primary_path r) (u "primary "))
           ++ part (multipath_failed_paths r) (u "failed "))
    end
  else tor (serial r) (tor (device_name r) (slot_label r)).

Definition change_entry (previous current : SlotStateRecord) (field_name : ustr) : ustr * json :=
  (field_name, JObj [(u "label", JStr (default field_name (jget field_name FIELD_LABELS)));
                     (u "previous", getattr previous field_name); (u "current", getattr current field_name)]).
Fixpoint group_changes (previous current : SlotStateRecord) (field_names : list ustr) : result slot_exn jdict :=
match field_names with
| [] => Ok []
| f :: rest =>
    same ← field_values_equal previous current f;
    changes ← group_changes previous current rest;
    Ok (if same : bool then changes else change_entry previous current f :: changes)
end.
(** [SlotEvent(...)] of the current record; its key is that of the record unless
    that is [None]. *)
Definition make_event (previous current : SlotStateRecord) (observed_at kind : ustr) (changes : jdict) : SlotEvent := {|
  ev_observed_at := observed_at; ev_system_id := system_id current; ev_system_label := system_label current;
  ev_enclosure_key := enclosure_key current; ev_enclosure_id := enclosure_id current;
  ev_enclosure_label := enclosure_label current; ev_slot := slot current; ev_slot_label := slot_label current;
  event_type := kind; previous_value := Some (summarize_record previous kind);
  current_value := Some (summarize_record current kind); ev_device_name := device_name current;
  ev_serial := serial current; details_json := dumps_spaced (JObj changes); ev_gptid := gptid current;
  ev_persistent_id_label := persistent_id_label current;
  ev_disk_identity_key :=
    oor (disk_identity_key current)
      (build_disk_identity_key (jopt (serial current)) (jopt (persistent_id_label current)) (jopt (gptid current)));
  ev_logical_unit_id := logical_unit_id current; ev_sas_address := sas_address current;
|}.
Fixpoint events_of_groups (previous current : SlotStateRecord) (observed_at : ustr) (groups : list (ustr * list ustr)) :
  result slot_exn (list SlotEvent) :=
match groups with
| [] => Ok []
| (kind, field_names) :: rest =>
    if negb (bool_decide (kind = STATE_CHANGED)) && negb (Bool.eqb (present previous) (present current)) then
      events_of_groups previous current observed_at rest
    else
      changes ← group_changes previous current field_names;
      events ← events_of_groups previous current observed_at rest;
      Ok (match changes with [] => events | _ => make_event previous current observed_at kind changes :: events end)
end.
Definition build_slot_events (previous : option SlotStateRecord) (current : SlotStateRecord) (observed_at : ustr) :
  result slot_exn (list SlotEvent) :=
match previous with
| None => Ok []
| Some previous => events_of_groups previous current observed_at EVENT_GROUPS
end.
End records.
