(* ===== verification/SlotChanges.v ===== *)
(** * Slot changes

    How [history_service/collector.py] turns inventories into history
    ([_record_slot_changes] and what it calls), over the tables of
    [history_service/store.py] that it reads and writes.  A topology change of a
    disk that stayed the same is held back until it is seen twice in a row
    ([_pending_topology_changes]), and when many slots lose topology detail at
    once none of them is believed.  [slot_step] are the calls that touch this
    state, a restart included. *)

From S2P Require Import Prelude PyStr Json JsonProofs JsonHook Dict Journal SlotRecords.
#[local] Open Scope Z_scope.
#[local] Open Scope list_scope.

Definition EXTENDED_STATE_FIELDS : list ustr :=
  [u "persistent_id_label"; u "logical_unit_id"; u "sas_address"; u "topology_label"; u "multipath_device";
   u "multipath_mode"; u "multipath_state"; u "multipath_lunid"; u "multipath_primary_path"; u "multipath_alternate_path";
   u "multipath_active_paths"; u "multipath_passive_paths"; u "multipath_failed_paths"; u "multipath_other_paths";
   u "multipath_active_controllers"; u "multipath_passive_controllers"; u "multipath_failed_controllers"].
Definition TOPOLOGY_FIELDS : list ustr := [u "pool_name"; u "vdev_name"; u "topology_label"].
Definition TOPOLOGY_CHANGE_CONFIRMATION_COUNT : Z := 2.
Definition MASS_TOPOLOGY_DEGRADATION_MIN_SLOTS : nat := 4.
Definition STORAGE_VIEW_SCOPE_PREFIX : ustr := u "storage-view:".

(** ** Tables *)

Definition SlotKey : Type := ustr * ustr * Z.
Record HistoryTables := mkTables {
  slot_state_current : gmap SlotKey (SlotStateRecord * ustr);    (* and last_seen_at *)
  slot_events : list SlotEvent;                                  (* oldest first *)
}.
Record SlotStateUpdate := mkUpdate { up_record : SlotStateRecord; up_observed_at : ustr; up_events : list SlotEvent }.

(** [enclosure_id or ""] *)
Definition scope_of (e : option ustr) : ustr := match e with Some s => s | None => [] end.
Definition row_key (r : SlotStateRecord) : SlotKey := (system_id r, enclosure_key r, slot r).

(** A topology, and what is held back per slot: a topology and how often it was seen *)
Definition Topology : Type := option ustr * option ustr * option ustr.
Abbreviation Pending := (gmap SlotKey (Topology * Z)).

Section changes.
Context {PT : PyText}.

Definition get_slot_states (t : HistoryTables) (s : ustr) (e : option ustr) (n : Z) : option SlotStateRecord :=
  (λ row, post_init row.1) <$> slot_state_current t !! (s, scope_of e, n).
(** One transaction: the events of an update, then its row *)
Definition apply_update (t : HistoryTables) (up : SlotStateUpdate) : HistoryTables :=
  mkTables (<[row_key (up_record up) := (up_record up, up_observed_at up)]> (slot_state_current t))
    (slot_events t ++ up_events up).
Definition record_slot_updates (updates : list SlotStateUpdate) (t : HistoryTables) : HistoryTables :=
  fold_left apply_update updates t.

(** ** Topology *)

Definition NO_TOPOLOGY : Topology := (None, None, None).
Definition topology_signature (r : SlotStateRecord) : Topology := (pool_name r, vdev_name r, topology_label r).
Definition slot_state_key (r : SlotStateRecord) : SlotKey := (system_id r, scope_of (enclosure_id r), slot r).
Definition topology_changed (previous current : SlotStateRecord) : bool :=
  existsb (λ f, negb (bool_decide (getattr previous f = getattr current f))) TOPOLOGY_FIELDS.
Fixpoint split_on (c : Z) (s : ustr) : list ustr :=
match s with
| [] => [[]]
| x :: s' => match split_on c s' with
             | part :: parts => if x =? c then [] :: part :: parts else (x :: part) :: parts
             | [] => []
             end
end.
Definition topology_detail_score (r : SlotStateRecord) : Z :=
  (if has_text (pool_name r) then 1 else 0) + (if has_text (vdev_name r) then 4 else 0)
  + match topology_label r with
    | Some ((_ :: _) as label) => Z.of_nat (length (List.filter (λ part, non_empty (ustrip part)) (split_on 62 label)))
    | _ => 0
    end.
Definition has_stable_disk_identity (previous current : SlotStateRecord) : bool :=
  Bool.eqb (present previous) (present current)
  && forallb (λ f, bool_decide (getattr previous f = getattr current f))
       [u "serial"; u "model"; u "gptid"; u "logical_unit_id"; u "disk_identity_key"].
Definition is_topology_degradation (previous current : SlotStateRecord) : bool :=
  topology_changed previous current && has_stable_disk_identity previous current
  && bool_decide (pool_name previous = pool_name current)
  && (topology_detail_score current <? topology_detail_score previous).
Definition with_topology (t : Topology) (r : SlotStateRecord) : SlotStateRecord :=
  mkSlot (system_id r) (system_label r) (enclosure_key r) (enclosure_id r) (enclosure_label r) (slot r) (slot_label r)
    (present r) (state r) (identify_active r) (device_name r) (serial r) (model r) (gptid r) t.1.1 t.1.2
    (health r) (persistent_id_label r) (disk_identity_key r) (logical_unit_id r) (sas_address r) t.2 (multipath_device r)
    (multipath_mode r) (multipath_state r) (multipath_lunid r) (multipath_primary_path r) (multipath_alternate_path r)
    (multipath_active_paths r) (multipath_passive_paths r) (multipath_failed_paths r) (multipath_other_paths r)
    (multipath_active_controllers r) (multipath_passive_controllers r) (multipath_failed_controllers r).
(** [replace] runs [__post_init__] too. *)
Definition with_previous_topology (previous current : SlotStateRecord) : SlotStateRecord :=
  post_init (with_topology (topology_signature previous) current).
(** At least a quarter of the slots: the quotient of two lengths is compared
    with 0.25, a float that divides exactly. *)
Definition is_mass_topology_degradation (degraded_slots total_slots : nat) : bool :=
  Nat.ltb 0 total_slots && Nat.leb MASS_TOPOLOGY_DEGRADATION_MIN_SLOTS degraded_slots
  && Nat.leb total_slots (4 * degraded_slots).
Definition should_backfill_extended_state (previous : option SlotStateRecord) (current : SlotStateRecord) : bool :=
match previous with
| None => false
| Some previous =>
    let set r := existsb (λ f, negb (bool_decide (getattr r f = JNull))) EXTENDED_STATE_FIELDS in
    negb (set previous) && set current
    && forallb (λ f, bool_decide (getattr previous f = getattr current f))
         [u "present"; u "state"; u "identify_active"; u "device_name"; u "serial"; u "model"; u "gptid"; u "pool_name";
          u "vdev_name"; u "health"]
end.

(** ** A pass over the slots of a scope *)

(** The record to write, whether its topology degraded, whether it is held *)
Definition prepare_slot_record_for_history (suppress_topology_degradation : bool) (previous : option SlotStateRecord)
  (current : SlotStateRecord) (pending : Pending) : Pending * (SlotStateRecord * bool * bool) :=
match previous with
| None => (pending, (current, false, false))
| Some previous =>
    let key := slot_state_key current in
    let topology_degraded := is_topology_degradation previous current in
    if topology_degraded && suppress_topology_degradation then
      (pending, (with_previous_topology previous current, true, false))
    else if negb (topology_changed previous current) then (delete key pending, (current, false, false))
    else if negb (has_stable_disk_identity previous current) then (delete key pending, (current, false, false))
    else
      let signature := topology_signature current in
      let '(pending_signature, pending_count) := default (NO_TOPOLOGY, 0) (pending !! key) in
      let pending_count := if bool_decide (pending_signature = signature) then pending_count + 1 else 1 in
      if pending_count <? TOPOLOGY_CHANGE_CONFIRMATION_COUNT then
        (<[key := (signature, pending_count)]> pending, (with_previous_topology previous current, topology_degraded, true))
      else (delete key pending, (current, false, false))
end.

(** The rows of a scope are read once for all its records. *)
Definition read_previous (t : HistoryTables)
  (acc : list (ustr * ustr * (Z → option SlotStateRecord)) * list (option SlotStateRecord)) (r : SlotStateRecord) :
  list (ustr * ustr * (Z → option SlotStateRecord)) * list (option SlotStateRecord) :=
let '(by_scope, previous) := acc in
let scope_key := (system_id r, enclosure_key r) in
let by_scope := match dget scope_key by_scope with
                | Some _ => by_scope
                | None => dset scope_key (get_slot_states t (system_id r) (enclosure_id r)) by_scope
                end in
(by_scope, previous ++ [match dget scope_key by_scope with Some states => states (slot r) | None => None end]).
Definition previous_records (t : HistoryTables) (records : list SlotStateRecord) : list (option SlotStateRecord) :=
  (fold_left (read_previous t) records ([], [])).2.

Definition is_degraded_pair (pair : option SlotStateRecord * SlotStateRecord) : bool :=
  match pair.1 with Some previous => is_topology_degradation previous pair.2 | None => false end.
(** What is written of a record *)
Definition slot_update (mass : bool) (observed_at : ustr) (previous : option SlotStateRecord) (record : SlotStateRecord)
  (pending : Pending) : Pending * result slot_exn SlotStateUpdate :=
if should_backfill_extended_state previous record then (pending, Ok (mkUpdate record observed_at []))
else
  let '(pending, (record, _, _)) := prepare_slot_record_for_history mass previous record pending in
  (pending, mkUpdate record observed_at <$> build_slot_events previous record observed_at).
(** The loop over the records: it may raise, with [pending] as it is by then. *)
Fixpoint slot_updates (mass : bool) (observed_at : ustr) (pairs : list (option SlotStateRecord * SlotStateRecord))
  (pending : Pending) : Pending * result slot_exn (list SlotStateUpdate) :=
match pairs with
| [] => (pending, Ok [])
| (previous, record) :: rest =>
    match slot_update mass observed_at previous record pending with
    | (pending, Err e) => (pending, Err e)
    | (pending, Ok update) =>
        let '(pending, updates) := slot_updates mass observed_at rest pending in
        (pending, (update ::.) <$> updates)
    end
end.
(** [store_fails]: the transaction of the updates is rolled back and raises. *)
Definition record_slot_changes (store_fails : bool) (slot_records : list SlotStateRecord) (observed_at : ustr)
  (pending : Pending) (t : HistoryTables) : Pending * HistoryTables * result slot_exn unit :=
let pairs := zip (previous_records t slot_records) slot_records in
let degraded_pairs := List.filter is_degraded_pair pairs in
let mass := is_mass_topology_degradation (length degraded_pairs) (length slot_records) in
let pending := if mass then fold_left (λ p pair, delete (slot_state_key pair.2) p) degraded_pairs pending else pending in
match slot_updates mass observed_at pairs pending with
| (pending, Err e) => (pending, t, Err e)
| (pending, Ok updates) =>
    if store_fails && non_empty updates then (pending, t, Err SlotStoreError)
    else (pending, record_slot_updates updates t, Ok tt)
end.

(** ** Scopes that are not believed *)

Definition clear_pending (p : SlotKey → bool) (pending : Pending) : Pending := filter (λ kv, p kv.1 = false) pending.
Definition clear_pending_for_scope (s : ustr) (e : option ustr) : Pending → Pending :=
  clear_pending (λ k, bool_decide (k.1 = (s, scope_of e))).
Definition clear_pending_for_system (s : ustr) : Pending → Pending := clear_pending (λ k, bool_decide (k.1.1 = s)).
Definition clear_pending_for_storage_views (s : ustr) : Pending → Pending :=
  clear_pending (λ k, bool_decide (k.1.1 = s)
                      && match strip_prefix STORAGE_VIEW_SCOPE_PREFIX k.1.2 with Some _ => true | None => false end).

Inductive skip_reason := api_untrusted | ssh_required_failed | bmc_untrusted | topology_incomplete.
Definition source_named (name : ustr) (snapshot : jdict) : option jdict :=
match get (u "sources") snapshot with
| JObj sources => match get name sources with JObj source => Some source | _ => None end
| _ => None
end.
Definition enabled_not_ok (source : jdict) : bool := truthy (get (u "enabled") source) && negb (truthy (get (u "ok") source)).
Definition over_ssh (platform : option ustr) : bool :=
  bool_decide (platform = Some (u "linux")) || bool_decide (platform = Some (u "esxi")).
Definition scope_skip_reason (snapshot : jdict) : option skip_reason :=
let is_untrusted name := match source_named name snapshot with Some source => enabled_not_ok source | None => false end in
let platform := normalize_text (get (u "selected_system_platform") snapshot) in
if is_untrusted (u "api") then Some api_untrusted
else if over_ssh platform
     && match source_named (u "ssh") snapshot with
        | Some source => enabled_not_ok source
                         && negb (match get (u "required_ok") source with JBool b => b | _ => false end)
        | None => false
        end then Some ssh_required_failed
else if bool_decide (platform = Some (u "ipmi")) && is_untrusted (u "bmc") then Some bmc_untrusted
else if bool_decide (platform = Some (u "quantastor"))
     && match get (u "platform_context") snapshot with
        | JObj context => match get (u "topology_complete") context with JBool b => negb b | _ => false end
        | _ => false
        end then Some topology_incomplete
else None.

Definition IDENTITY_FIELDS : list ustr := [u "serial"; u "model"; u "gptid"; u "logical_unit_id"; u "disk_identity_key"].
(** Whether the new record loses the slot [old] or contradicts what is known of its disk *)
Definition contradicts (old : SlotStateRecord) (new : option SlotStateRecord) : bool :=
match new with
| None => present old
| Some new =>
    if negb (Bool.eqb (present old) (present new)) then true
    else if negb (present old) then false
    else
      let known := existsb (λ f, truthy (getattr old f)) [u "serial"; u "gptid"; u "logical_unit_id"; u "disk_identity_key"] in
      existsb (λ f, truthy (getattr old f) && negb (bool_decide (getattr old f = getattr new f)))
        (if known then IDENTITY_FIELDS else IDENTITY_FIELDS ++ [u "device_name"; u "sas_address"])
end.
(** The records of a snapshot; a slot that is not a dict has no [get]. *)
Definition snapshot_records (snapshot : jdict) : result slot_exn (list SlotStateRecord) :=
match get (u "slots") snapshot with
| JList l => res_mapM (λ v, match v with JObj d => from_snapshot_slot snapshot d | _ => Err SlotAttributeError end) l
| JObj [] | JStr [] => Ok []
| JObj _ | JStr _ => Err SlotAttributeError
| JNull => match jget (u "slots") snapshot with None => Ok [] | Some _ => Err SlotTypeError end
| _ => Err SlotTypeError
end.
(** [{record.slot: record for record in records}.get(n)]: the last one counts. *)
Definition record_of_slot (records : list SlotStateRecord) (n : Z) : option SlotStateRecord :=
  dget n (dupdate [] ((λ r, (slot r, r)) <$> records)).
Definition stored_slots (t : HistoryTables) (s : ustr) (e : option ustr) : list (Z * SlotStateRecord) :=
  omap (λ kr : SlotKey * (SlotStateRecord * ustr),
          if bool_decide (kr.1.1 = (s, scope_of e)) then Some (kr.1.2, post_init kr.2.1) else None)
    (map_to_list (slot_state_current t)).
Definition scope_history_skip_reason (t : HistoryTables) (s : ustr) (e : option ustr) (snapshot : jdict) :
  result slot_exn (option skip_reason) :=
match scope_skip_reason snapshot with
| Some reason => Ok (Some reason)
| None =>
    if negb (over_ssh (normalize_text (get (u "selected_system_platform") snapshot))) then Ok None
    else match source_named (u "ssh") snapshot with
         | None => Ok None
         | Some ssh =>
             if negb (enabled_not_ok ssh) then Ok None
             else
               records ← snapshot_records snapshot;
               Ok (if existsb (λ nr, contradicts nr.2 (record_of_slot records nr.1)) (stored_slots t s e)
                   then Some ssh_required_failed else None)
         end
end.

(** ** The collector as a state machine *)

Inductive slot_call :=
| RecordScope (records : list SlotStateRecord) (observed_at : ustr) (store_fails : bool)
| ClearScope (s : ustr) (e : option ustr)
| ClearSystem (s : ustr)
| ClearStorageViews (s : ustr)
| Restart.
Definition collector : Type := Pending * HistoryTables.
Definition slot_step (c : collector) (call : slot_call) : collector :=
match call with
| RecordScope records observed_at store_fails =>
    let '(pending, t, _) := record_slot_changes store_fails records observed_at c.1 c.2 in (pending, t)
| ClearScope s e => (clear_pending_for_scope s e c.1, c.2)
| ClearSystem s => (clear_pending_for_system s c.1, c.2)
| ClearStorageViews s => (clear_pending_for_storage_views s c.1, c.2)
| Restart => (∅, c.2)
end.
Definition slot_run (calls : list slot_call) (c : collector) : collector := fold_left slot_step calls c.
End changes.
