(* ===== verification/SlotDetails.v ===== *)
(** * Slot events: their details

    [details_json] is read back as the changes it was made from
    ([decode_details]), so an event says what every field it mentions became
    ([said]); [replay_field] applies the events to a value. *)

From S2P Require Import Prelude PyStr Json JsonProofs JsonHook Dict Journal SlotRecords.
#[local] Open Scope Z_scope.
#[local] Open Scope list_scope.

(** ** Reading what was printed *)

(** Texts, booleans, [None] and objects of them, at most [d] deep *)
Fixpoint detail_ok (d : nat) (v : json) {struct v} : bool :=
  match v with
  | JNull | JBool _ => true
  | JStr s => scalars s
  | JObj m => match d with
              | O => false
              | S d' => bool_decide (NoDup m.*1) && forallb (λ kv, scalars kv.1 && detail_ok d' kv.2) m
              end
  | _ => false
  end.

Lemma skip_space (s : ustr) : skip (32 :: s) = skip s.
Proof. done. Qed.
Lemma members_spaced_reads d (kvs : list (ustr * json)) ts acc f r :
  kvs ≠ [] →
  Forall2 (λ kv t, scalars kv.1 = true ∧ ∃ s, t = member_spaced (kv.1, s) ∧ reads d s kv.2) kvs ts →
  (2 * length (join_spaced ts ++ 125%Z :: r) + 2 <= f)%nat →
  members f d acc (join_spaced ts ++ 125 :: r)
  = Some (JObj (fold_left (λ a kv, jset kv.1 kv.2 a) kvs acc), r).
Proof.
  intros Hne H. revert acc f Hne.
  induction H as [|[k v] t kvs ts (Hk & s & -> & [Hs Hr]) Hts IH]; intros acc f Hne Hf; [done|].
  destruct f as [|f]; [lia|]. cbn [fst snd] in *.
  assert (∃ x more, (x = 44 ∨ x = 125) ∧ join_spaced (member_spaced (k, s) :: ts) ++ 125 :: r = member_spaced (k, s) ++ x :: more
    ∧ (x = 125 → ts = [] ∧ more = r) ∧ (x = 44 → ts ≠ [] ∧ more = 32 :: join_spaced ts ++ 125 :: r)) as (x & more & Hx & E & Hnil & Hcons).
  { destruct ts as [|t' ts].
    - exists 125, r. split_and!; auto. done.
    - exists 44, (32 :: join_spaced (t' :: ts) ++ 125 :: r). split_and!; auto; [|done].
      cbn [join_spaced]. by rewrite <-!app_assoc. }
  rewrite E in Hf |- *. unfold member_spaced in Hf |- *. cbn [fst snd] in Hf |- *. rewrite <-!app_assoc in Hf |- *.
  rewrite quote_cons in Hf |- *. cbn [app] in Hf |- *. cbn [members].
  change (34 =? 34) with true. cbv iota. rewrite scan_quote by done. cbn [skip drop_while].
  change (is_ws 58) with false. cbv iota. change (58 =? 58) with true. cbv iota.
  change (drop_while is_ws ?x) with (skip x).
  rewrite skip_space, (skip_value _ _ Hs). cbn [length] in Hf. rewrite length_app in Hf. cbn [length] in Hf.
  rewrite Hr; [|apply ends_comma; tauto|lia].
  destruct Hx as [-> | ->].
  - destruct (Hcons eq_refl) as [Hts' ->]. cbn. change (drop_while is_ws ?x) with (skip x).
    destruct kvs as [|kv kvs]; [by inversion Hts; subst|].
    assert (starts_value (join_spaced ts)) as Hj.
    { inversion Hts as [|?? ? ? (_ & ? & -> & _)]; subst. unfold member_spaced. by destruct l'. }
    rewrite (skip_value _ _ Hj). apply IH; [done|]. rewrite length_app in Hf. cbn [length] in Hf. lia.
  - destruct (Hnil eq_refl) as [-> ->]. inversion Hts; subst. done.
Qed.
Lemma obj_spaced_reads d (kvs : list (ustr * json)) ts : NoDup kvs.*1 →
  Forall2 (λ kv t, scalars kv.1 = true ∧ ∃ s, t = member_spaced (kv.1, s) ∧ reads d s kv.2) kvs ts →
  reads (S d) ([123] ++ join_spaced ts ++ [125]) (JObj kvs).
Proof.
  intros Hnd H. split; [done|]. intros f r _ Hf. rewrite <-!app_assoc in Hf |- *. cbn [app length] in Hf |- *.
  destruct f as [|f]; [lia|]. cbn [scan]. change (123 =? 34) with false.
  change (123 =? 123) with true. cbv iota. destruct H as [|kv t kvs ts Ht Hts]; [done|].
  assert (starts_value (join_spaced (t :: ts)) ∧ ∃ j, join_spaced (t :: ts) = 34 :: j) as [Hs (j & E)].
  { destruct Ht as (_ & s & -> & _). unfold member_spaced. rewrite quote_cons.
    destruct ts; split; try done; by eexists. }
  rewrite (skip_value _ _ Hs), E. rewrite E in Hf. cbn [app]. change (34 =? 125) with false. cbv iota.
  pose proof (members_spaced_reads d (kv :: kvs) (t :: ts) [] f r) as He. rewrite E in He. cbn [app length] in He.
  rewrite fold_jset in He by done. apply He; [done|by constructor|]. cbn [app length] in Hf. lia.
Qed.
Lemma dumps_spaced_reads v d : detail_ok d v = true → reads d (dumps_spaced v) (normal v).
Proof.
  revert d. induction v as [|b|z|l|t|l IH|m IH] using json_ind'; intros d H; cbn [detail_ok] in H; try done.
  - by apply atom_reads.
  - destruct b; by apply atom_reads.
  - by apply quote_reads.
  - destruct d as [|d]; [done|]. to_prop. cbn [dumps_spaced normal].
    rewrite (sort_by_fmap (A := ustr * json) key_leb key_leb (λ kv, (kv.1, normal kv.2))) by done.
    rewrite (sort_by_fmap (A := ustr * json) key_leb key_leb (λ kv, (kv.1, dumps_spaced kv.2))) by done.
    apply obj_spaced_reads.
    { rewrite <-list_fmap_compose. rewrite (list_fmap_ext _ fst); [|done]. apply sorted_obj_keys.
      by match goal with H : bool_decide (NoDup _) = true |- _ => apply bool_decide_eq_true in H end || done. }
    assert (Forall (λ kv, reads d (dumps_spaced kv.2) (normal kv.2) ∧ scalars kv.1 = true) (sort_by key_leb m)) as Hall.
    { rewrite sort_by_perm, Forall_forall. intros kv Hkv. rewrite Forall_forall in IH.
      match goal with H : forallb _ m = true |- _ => apply (forallb_elem _ _ _ H) in Hkv as Hs end. to_prop. auto. }
    induction Hall as [|kv kvs [Hr Hk] _ IHl]; [constructor|]. cbn. constructor; [|done].
    split; [done|]. exists (dumps_spaced kv.2). done.
Qed.
Lemma decode_spaced d v : detail_ok d v = true → decode d (dumps_spaced v) = Some (normal v).
Proof.
  intros H. destruct (dumps_spaced_reads _ _ H) as [Hs Hr]. unfold decode. rewrite skip_nil_end by done.
  pose proof (Hr (scan_fuel (dumps_spaced v)) []) as E. rewrite app_nil_r in E. rewrite E; [done|done|].
  unfold scan_fuel. lia.
Qed.

(** ** What events say *)

Definition decode_details (e : SlotEvent) : jdict :=
  match decode 3 (details_json e) with Some (JObj d) => d | _ => [] end.
(** The value that an event gives to a field *)
Definition said (e : SlotEvent) (f : ustr) : option json :=
  match jget f (decode_details e) with Some (JObj change) => jget (u "current") change | _ => None end.
(** A value after the events *)
Definition replay_field (f : ustr) (events : list SlotEvent) (v : json) : json :=
  fold_left (λ v e, default v (said e f)) events v.
Lemma replay_app f es es' v : replay_field f (es ++ es') v = replay_field f es' (replay_field f es v).
Proof. apply fold_left_app. Qed.
Lemma replay_silent f es v : (∀ e, e ∈ es → said e f = None) → replay_field f es v = v.
Proof.
  revert v; induction es as [|e es IH]; intros v H; [done|]. cbn. rewrite (H e) by (by left). cbn.
  apply IH. intros e' He'. apply H. by right.
Qed.

Definition tracked_fields : list ustr := EVENT_GROUPS.*2 ≫= id.
(** The texts that events mention can be encoded. *)
Definition plain_record (r : SlotStateRecord) : Prop := ∀ f, f ∈ tracked_fields → detail_ok 0 (getattr r f) = true.
#[export] Instance plain_record_dec r : Decision (plain_record r).
Proof.
  refine (cast_if (decide (Forall (λ f, detail_ok 0 (getattr r f) = true) tracked_fields)));
    abstract (unfold plain_record; by rewrite <-Forall_forall).
Defined.
Lemma detail_ok_mono d v : detail_ok 0 v = true → detail_ok d v = true ∧ normal v = v.
Proof. by destruct v, d. Qed.

Lemma tracked_elem kind fs f : (kind, fs) ∈ EVENT_GROUPS → f ∈ fs → f ∈ tracked_fields.
Proof.
  intros Hg Hf. unfold tracked_fields. apply list_elem_of_bind. exists fs. split; [done|].
  apply list_elem_of_fmap. by exists (kind, fs).
Qed.
Lemma groups_disjoint k1 k2 fs1 fs2 f : (k1, fs1) ∈ EVENT_GROUPS → (k2, fs2) ∈ EVENT_GROUPS → f ∈ fs1 → f ∈ fs2 →
  k1 = k2 ∧ fs1 = fs2.
Proof.
  assert (forallb (λ g1, forallb (λ g2, bool_decide (g1 = g2) || forallb (λ f, negb (bool_decide (f ∈ g2.2))) g1.2)
    EVENT_GROUPS) EVENT_GROUPS = true) as H by by vm_compute.
  intros H1 H2 Hf1 Hf2. pose proof (forallb_elem _ _ _ (forallb_elem _ _ _ H H1) H2) as E. cbn [fst snd] in E.
  clear H H1 H2.
  apply orb_true_iff in E as [E|E]; [apply bool_decide_eq_true in E; by injection E|].
  pose proof (forallb_elem _ _ _ E Hf1) as E'. apply negb_true_iff, bool_decide_eq_false in E'. by destruct E'.
Qed.
Lemma event_groups_NoDup : Forall (λ g, NoDup g.2) EVENT_GROUPS ∧ NoDup EVENT_GROUPS.*1.
Proof.
  assert (forallb (λ g, bool_decide (NoDup g.2)) EVENT_GROUPS && bool_decide (NoDup EVENT_GROUPS.*1) = true) as H
    by by vm_compute.
  apply andb_true_iff in H as [H1 H2]. split; [|by apply bool_decide_eq_true in H2].
  apply Forall_forall. intros g Hg. pose proof (forallb_elem _ _ _ H1 Hg) as E. by apply bool_decide_eq_true in E.
Qed.
Lemma labels_plain : forallb (λ f, scalars f && scalars (default f (jget f FIELD_LABELS))) tracked_fields = true.
Proof. by vm_compute. Qed.

Section events.
Context {PT : PyText}.

Definition differs (previous current : SlotStateRecord) (f : ustr) : bool :=
  match field_values_equal previous current f with Ok same => negb same | Err _ => false end.
Lemma group_changes_Ok p c fs ch : group_changes p c fs = Ok ch →
  Forall (λ f, is_ok (field_values_equal p c f) = true) fs ∧ ch = change_entry p c <$> List.filter (differs p c) fs.
Proof.
  revert ch; induction fs as [|f fs IH]; intros ch H; cbn [group_changes] in H; [by injection H as <-|].
  destruct (field_values_equal p c f) as [same|] eqn:E; [|done].
  assert (differs p c f = negb same) as Ed by (unfold differs; by rewrite E).
  cbn [mbind result_bind] in H. destruct (group_changes p c fs) as [rest|]; [|done]. cbn [mbind result_bind] in H.
  injection H as <-. destruct (IH _ eq_refl) as [Hf ->]. split; [constructor; [by rewrite E|done]|].
  cbn [List.filter]. rewrite Ed. by destruct same.
Qed.

(** The groups that are compared *)
Definition compared (p c : SlotStateRecord) (kind : ustr) : Prop := kind = STATE_CHANGED ∨ present p = present c.
#[export] Instance compared_dec p c kind : Decision (compared p c kind) := _.
Definition event_of (p c : SlotStateRecord) (at_ : ustr) (g : ustr * list ustr) : option SlotEvent :=
  if decide (compared p c g.1) then
    match List.filter (differs p c) g.2 with
    | [] => None
    | fs => Some (make_event p c at_ g.1 (change_entry p c <$> fs))
    end
  else None.
Lemma events_of_groups_Ok p c at_ gs es : events_of_groups p c at_ gs = Ok es →
  es = omap (event_of p c at_) gs
  ∧ ∀ g, g ∈ gs → compared p c g.1 → Forall (λ f, is_ok (field_values_equal p c f) = true) g.2.
Proof.
  revert es; induction gs as [|[kind fs] gs IH]; intros es H; cbn [events_of_groups] in H.
  { injection H as <-. split; [done|]. by intros g ?%not_elem_of_nil. }
  cbn [omap list_omap].
  destruct (negb (bool_decide (kind = STATE_CHANGED)) && negb (Bool.eqb (present p) (present c))) eqn:Hskip.
  - destruct (IH _ H) as [-> HF]. apply andb_true_iff in Hskip as [H1 H2].
    apply negb_true_iff, bool_decide_eq_false in H1. apply negb_true_iff, eqb_false_iff in H2.
    assert (¬ compared p c kind) as Hc by (by intros [?|?]).
    assert (event_of p c at_ (kind, fs) = None) as -> by (unfold event_of; by rewrite decide_False).
    split; [done|]. intros g [-> |Hg]%elem_of_cons Hg'; [done|by apply HF].
  - destruct (group_changes p c fs) as [ch|] eqn:E; [|done]. cbn [mbind result_bind] in H.
    destruct (events_of_groups p c at_ gs) as [rest|] eqn:E'; [|done]. cbn [mbind result_bind] in H. injection H as <-.
    destruct (IH _ eq_refl) as [-> HF]. destruct (group_changes_Ok _ _ _ _ E) as [Hok ->].
    assert (compared p c kind) as Hc.
    { apply andb_false_iff in Hskip as [Hs|Hs]; apply negb_false_iff in Hs;
        [left; by apply bool_decide_eq_true in Hs|right; by apply eqb_prop]. }
    assert (event_of p c at_ (kind, fs) = match List.filter (differs p c) fs with [] => None
      | fs' => Some (make_event p c at_ kind (change_entry p c <$> fs')) end) as ->
      by (unfold event_of; by rewrite decide_True).
    split; [by destruct (List.filter (differs p c) fs)|].
    intros g [-> |Hg]%elem_of_cons Hg'; [done|by apply HF].
Qed.

(** ** What the event of a group says *)

Lemma fst_tag {A B} (g : A → B) l : ((λ x, (x, g x)) <$> l).*1 = l.
Proof. induction l as [|x l IH]; [done|]. rewrite !fmap_cons. by rewrite IH. Qed.
Lemma decode_make p c at_ kind fs : plain_record p → plain_record c → NoDup fs → (∀ f, f ∈ fs → f ∈ tracked_fields) →
  decode_details (make_event p c at_ kind (change_entry p c <$> fs))
  = sort_by key_leb ((λ f, (f, normal (change_entry p c f).2)) <$> fs).
Proof.
  intros Hp Hc Hnd Hfs. unfold decode_details. cbn [details_json make_event].
  rewrite (decode_spaced 3).
  - cbn [normal]. by rewrite <-list_fmap_compose.
  - cbn [detail_ok]. apply andb_true_iff. split.
    { apply bool_decide_eq_true. unfold change_entry. by rewrite fst_tag. }
    apply forallb_forall. intros kv [f [<- Hf%list_elem_of_In]]%in_map_iff. cbn [fst snd change_entry].
    pose proof (forallb_elem _ _ _ labels_plain (Hfs _ Hf)) as Hl. cbv beta in Hl. apply andb_true_iff in Hl as [Hl1 Hl2].
    apply andb_true_iff. split; [done|]. cbn [detail_ok forallb fst snd].
    rewrite (proj1 (detail_ok_mono 1 _ (Hp _ (Hfs _ Hf)))), (proj1 (detail_ok_mono 1 _ (Hc _ (Hfs _ Hf)))).
    rewrite Hl2. by vm_compute.
Qed.
Lemma said_make p c at_ kind fs f : plain_record p → plain_record c → NoDup fs → (∀ f, f ∈ fs → f ∈ tracked_fields) →
  said (make_event p c at_ kind (change_entry p c <$> fs)) f = if decide (f ∈ fs) then Some (getattr c f) else None.
Proof.
  intros Hp Hc Hnd Hfs. unfold said. rewrite (decode_make _ _ _ _ _ Hp Hc Hnd Hfs).
  assert (NoDup (sort_by key_leb ((λ f, (f, normal (change_entry p c f).2)) <$> fs)).*1) as Hk.
  { apply sorted_obj_keys. by rewrite fst_tag. }
  destruct (decide (f ∈ fs)) as [Hf|Hf].
  - rewrite (proj2 (jget_elem f (normal (change_entry p c f).2) _ Hk)).
    2: { rewrite sort_by_perm. apply list_elem_of_fmap. by exists f. }
    pose proof (proj2 (detail_ok_mono 0 _ (Hp _ (Hfs _ Hf)))) as Ep. pose proof (proj2 (detail_ok_mono 0 _ (Hc _ (Hfs _ Hf)))) as Ec.
    revert Ep Ec. unfold change_entry. cbn [snd normal fmap list_fmap fst]. generalize (getattr p f), (getattr c f).
    intros x y -> ->. by vm_compute.
  - destruct (jget f _) as [v|] eqn:E; [|done]. exfalso. apply jget_elem in E; [|done]. rewrite sort_by_perm in E.
    apply list_elem_of_fmap in E as (f' & [= -> _] & ?). done.
Qed.

Lemma said_group p c at_ g f e : plain_record p → plain_record c → g ∈ EVENT_GROUPS → event_of p c at_ g = Some e →
  said e f = if decide (f ∈ g.2 ∧ differs p c f = true) then Some (getattr c f) else None.
Proof.
  intros Hp Hc Hg H. unfold event_of in H. destruct (decide _) as [_|]; [|done].
  assert (e = make_event p c at_ g.1 (change_entry p c <$> List.filter (differs p c) g.2)) as ->
    by (destruct (List.filter _ _); congruence).
  rewrite (said_make p c at_ g.1 (List.filter (differs p c) g.2) f Hp Hc).
  - destruct (decide (f ∈ _)) as [Hf|Hf]; rewrite elem_of_filter_list in Hf; [by rewrite decide_True|by rewrite decide_False].
  - apply NoDup_ListNoDup, List.NoDup_filter, NoDup_ListNoDup.
    exact (proj1 (Forall_forall _ _) (proj1 event_groups_NoDup) g Hg).
  - intros f' [Hf' _]%elem_of_filter_list. destruct g as [kind gs]. by eapply tracked_elem.
Qed.
(** Replaying the events of a pair of records gives a field that was compared
    and differs its new value and leaves every other field alone. *)
Lemma replay_groups p c at_ kind fs f v gs : plain_record p → plain_record c →
  (kind, fs) ∈ EVENT_GROUPS → f ∈ fs → (∀ g, g ∈ gs → g ∈ EVENT_GROUPS) →
  replay_field f (omap (event_of p c at_) gs) v
  = if decide ((kind, fs) ∈ gs ∧ compared p c kind ∧ differs p c f = true) then getattr c f else v.
Proof.
  intros Hp Hc Hg Hf. revert v. induction gs as [|g gs IH]; intros v Hgs.
  { rewrite decide_False; [done|]. by intros [?%not_elem_of_nil _]. }
  assert (∀ v, replay_field f (omap (event_of p c at_) (g :: gs)) v
    = replay_field f (omap (event_of p c at_) gs)
        (if decide (g = (kind, fs) ∧ compared p c kind ∧ differs p c f = true) then getattr c f else v)) as Hhead.
  { intros w. cbn [omap list_omap]. destruct (event_of p c at_ g) as [e|] eqn:E.
    - cbn [replay_field fold_left]. f_equal. rewrite (said_group p c at_ g f e Hp Hc (Hgs g ltac:(by left)) E).
      assert (compared p c g.1) as Hcmp by (unfold event_of in E; destruct (decide (compared p c g.1)); [done|discriminate]).
      destruct (decide (f ∈ g.2 ∧ _)) as [[Hfg Hd]|Hn]; cbn.
      + destruct g as [k' fs']. destruct (groups_disjoint k' kind fs' fs f (Hgs _ ltac:(by left)) Hg Hfg Hf) as [-> ->].
        by rewrite decide_True.
      + rewrite decide_False; [done|]. intros (-> & _ & Hd). by destruct Hn.
    - rewrite decide_False; [done|]. intros (-> & Hcmp & Hd). unfold event_of in E. cbn [fst snd] in E.
      rewrite decide_True in E by done. assert (f ∈ List.filter (differs p c) fs) as Hin by by apply elem_of_filter_list.
      destruct (List.filter _ _); [by apply not_elem_of_nil in Hin|done]. }
  rewrite Hhead, IH by (intros g' ?; apply Hgs; by right).
  destruct (decide (g = (kind, fs) ∧ _)) as [(-> & ? & ?)|Hn].
  - rewrite (decide_True (P := (kind, fs) ∈ (kind, fs) :: gs ∧ _)) by (split; [by left|done]). by destruct (decide _).
  - destruct (decide ((kind, fs) ∈ gs ∧ _)) as [(? & ?)|Hn'].
    + rewrite decide_True; [done|]. split; [by right|done].
    + rewrite decide_False; [done|]. intros ([<- |?]%elem_of_cons & ?); [by apply Hn|by apply Hn'].
Qed.
Lemma replay_events p c at_ es kind fs f v : plain_record p → plain_record c →
  build_slot_events (Some p) c at_ = Ok es → (kind, fs) ∈ EVENT_GROUPS → f ∈ fs →
  replay_field f es v = if decide (compared p c kind ∧ differs p c f = true) then getattr c f else v.
Proof.
  intros Hp Hc H Hg Hf. destruct (events_of_groups_Ok _ _ _ _ _ H) as [-> _].
  rewrite (replay_groups p c at_ kind fs f v EVENT_GROUPS Hp Hc Hg Hf (λ _ H, H)).
  destruct (decide (compared p c kind ∧ _)) as [?|Hn]; [by rewrite decide_True|]. rewrite decide_False; [done|].
  by intros [_ ?].
Qed.
Lemma differs_not p c f : f ≠ u "sas_address" → differs p c f = true ↔ getattr p f ≠ getattr c f.
Proof.
  intros Hf. unfold differs, field_values_equal. rewrite (bool_decide_eq_false_2 _ Hf). cbn [negb].
  rewrite negb_true_iff. apply bool_decide_eq_false.
Qed.

(** [C30] The details of the events of a slot are a difference of its records:
    read back from the JSON text and applied to the previous record they give
    every compared field its current value, a SAS address excepted that names
    another port of the same disk; and they mention nothing that is the same. *)
Theorem event_details_roundtrip (p c : SlotStateRecord) (at_ : ustr) (es : list SlotEvent)
    (Hp : plain_record p) (Hc : plain_record c) (H : build_slot_events (Some p) c at_ = Ok es) :
  (∀ kind fs f, (kind, fs) ∈ EVENT_GROUPS → f ∈ fs → kind = STATE_CHANGED ∨ present p = present c →
     replay_field f es (getattr p f) = getattr c f
     ∨ f = u "sas_address" ∧ field_values_equal p c f = Ok true ∧ replay_field f es (getattr p f) = getattr p f)
  ∧ (∀ e f v, e ∈ es → f ∈ tracked_fields → said e f = Some v → v = getattr c f ∧ field_values_equal p c f = Ok false).
Proof.
  destruct (events_of_groups_Ok _ _ _ _ _ H) as [Hes Hok]. split.
  - intros kind fs f Hg Hf Hcmp. rewrite (replay_events _ _ _ _ _ _ _ _ Hp Hc H Hg Hf).
    destruct (decide _) as [_|Hn]; [by left|]. destruct (decide (f = u "sas_address")) as [Ef|Ef].
    + right. split; [done|]. split; [|done]. pose proof (Hok _ Hg Hcmp) as Ho. rewrite Forall_forall in Ho.
      specialize (Ho f Hf). unfold differs in Hn. destruct (field_values_equal p c f) as [[]|]; [done| |done].
      by destruct Hn.
    + left. destruct (decide (getattr p f = getattr c f)) as [|Hne]; [done|]. destruct Hn. split; [done|].
      by apply differs_not.
  - intros e f v He _ Hv. rewrite Hes in He. apply list_elem_of_omap in He as (g & Hg & Eg).
    rewrite (said_group _ _ _ _ f _ Hp Hc Hg Eg) in Hv. destruct (decide _) as [[_ Hd]|]; [|done].
    injection Hv as <-. split; [done|]. unfold differs in Hd. by destruct (field_values_equal p c f) as [[]|].
Qed.
End events.
