(* ===== verification/SlotPasses.v ===== *)
(** * Slot changes: what a pass writes

    A pass over records of distinct slots writes every record by itself: the
    rows it compares with are those stored before the pass
    ([previous_records_stored]), what is held back for one slot does not depend
    on the others ([slot_updates_each]), and each row and its events are stored
    under the slot of the record ([record_pass]). *)

From S2P Require Import Prelude PyStr Json JsonProofs JsonHook Dict Journal SlotRecords SlotChanges SlotDetails.
#[local] Open Scope Z_scope.
#[local] Open Scope list_scope.

(** The scope that a record is stored under is the one it is looked up in. *)
Definition well_keyed (r : SlotStateRecord) : Prop := enclosure_key r = scope_of (enclosure_id r).
Lemma slot_state_key_row r : well_keyed r → slot_state_key r = row_key r.
Proof. unfold well_keyed, slot_state_key, row_key. by intros ->. Qed.


Section passes.
Context {PT : PyText}.

Lemma from_snapshot_well_keyed snapshot payload r : from_snapshot_slot snapshot payload = Ok r → well_keyed r.
Proof.
  unfold from_snapshot_slot. cbv zeta. intros H. destruct (int_of _) as [n|]; [|done]. cbn [mbind result_bind] in H.
  destruct (members_of _) as [ms|]; [|done]. cbn [mbind result_bind] in H. injection H as <-.
  unfold well_keyed, post_init. cbn [disk_identity_key]. by destruct (build_disk_identity_key _ _ _), (normalize_text _).
Qed.

(** Every record has been through [__post_init__]. *)
Definition constructed (r : SlotStateRecord) : Prop := post_init r = r.
Lemma post_init_twice r : constructed (post_init r).
Proof.
  unfold constructed. destruct r. unfold post_init. cbn. destruct disk_identity_key as [k|]; [done|]. cbn.
  by destruct (build_disk_identity_key _ _ _) eqn:E; cbn; rewrite ?E.
Qed.
Lemma from_snapshot_constructed snapshot payload r : from_snapshot_slot snapshot payload = Ok r → constructed r.
Proof.
  unfold from_snapshot_slot. cbv zeta. intros H. destruct (int_of _) as [n|]; [|done]. cbn [mbind result_bind] in H.
  destruct (members_of _) as [ms|]; [|done]. cbn [mbind result_bind] in H. injection H as <-. apply post_init_twice.
Qed.

(** ** The rows that a pass compares with *)

Definition stored_at (t : HistoryTables) (k : SlotKey) : option SlotStateRecord :=
  (λ row, post_init row.1) <$> slot_state_current t !! k.
Definition stored (t : HistoryTables) (r : SlotStateRecord) : option SlotStateRecord := stored_at t (row_key r).

Lemma read_previous_stored t records by_scope ps :
  Forall well_keyed records →
  (∀ k states, dget k by_scope = Some states → ∀ n, states n = stored_at t (k, n)) →
  (fold_left (read_previous t) records (by_scope, ps)).2 = ps ++ (stored t <$> records).
Proof.
  intros Hk. revert by_scope ps. induction Hk as [|r records Hr _ IH]; intros by_scope ps Hs; [by rewrite app_nil_r|].
  cbn [fold_left fmap list_fmap]. unfold read_previous at 2. cbv zeta.
  set (bs := match dget (system_id r, enclosure_key r) by_scope with Some _ => by_scope | None => _ end).
  assert (∀ k states, dget k bs = Some states → ∀ n, states n = stored_at t (k, n)) as Hs'.
  { intros k states. subst bs. destruct (dget (system_id r, enclosure_key r) by_scope) eqn:E; [apply Hs|].
    rewrite dget_dset. destruct (decide _) as [->|]; [|apply Hs]. intros [= <-] n. unfold get_slot_states, stored_at.
    by rewrite <-Hr. }
  rewrite (IH bs _ Hs'), <-app_assoc. f_equal. cbn [app]. f_equal.
  destruct (dget (system_id r, enclosure_key r) bs) as [states|] eqn:E; [by rewrite (Hs' _ _ E)|].
  exfalso. subst bs. destruct (dget (system_id r, enclosure_key r) by_scope) eqn:E'; [congruence|].
  by rewrite dget_dset, decide_True in E.
Qed.
Lemma previous_records_stored t records : Forall well_keyed records → previous_records t records = stored t <$> records.
Proof. intros H. unfold previous_records. by rewrite (read_previous_stored t records [] []). Qed.
Lemma zip_fmap_l {A B} (g : A → B) l : zip (g <$> l) l = (λ x, (g x, x)) <$> l.
Proof. induction l as [|x l IH]; [done|]. cbn. by rewrite IH. Qed.

(** ** One record *)

(** What is held back for other slots does not matter. *)
Lemma prepare_local mass prev r p q : p !! slot_state_key r = q !! slot_state_key r →
  (prepare_slot_record_for_history mass prev r p).2 = (prepare_slot_record_for_history mass prev r q).2
  ∧ (prepare_slot_record_for_history mass prev r p).1 !! slot_state_key r
    = (prepare_slot_record_for_history mass prev r q).1 !! slot_state_key r.
Proof.
  intros E. unfold prepare_slot_record_for_history. destruct prev as [prev|]; [|done]. cbv zeta. rewrite E.
  destruct (_ && mass); [done|]. destruct (negb (topology_changed _ _)); [cbn [fst snd]; by rewrite !lookup_delete_eq|].
  destruct (negb (has_stable_disk_identity _ _)); [cbn [fst snd]; by rewrite !lookup_delete_eq|].
  destruct (default _ (q !! _)) as [sig n]. destruct (_ <? _); cbn; [by rewrite !lookup_insert_eq|by rewrite !lookup_delete_eq].
Qed.
Lemma prepare_elsewhere mass prev r p k : k ≠ slot_state_key r →
  (prepare_slot_record_for_history mass prev r p).1 !! k = p !! k.
Proof.
  intros Hk. unfold prepare_slot_record_for_history. destruct prev as [prev|]; [|done]. cbv zeta.
  destruct (_ && mass); [done|]. destruct (negb (topology_changed _ _)); [cbn [fst snd]; by rewrite lookup_delete_ne|].
  destruct (negb (has_stable_disk_identity _ _)); [cbn [fst snd]; by rewrite lookup_delete_ne|].
  destruct (default _ (p !! _)) as [sig n]. destruct (_ <? _); cbn; [by rewrite lookup_insert_ne|by rewrite lookup_delete_ne].
Qed.
Lemma slot_update_local mass at_ prev r p q : p !! slot_state_key r = q !! slot_state_key r →
  (slot_update mass at_ prev r p).2 = (slot_update mass at_ prev r q).2
  ∧ (slot_update mass at_ prev r p).1 !! slot_state_key r = (slot_update mass at_ prev r q).1 !! slot_state_key r.
Proof.
  intros E. unfold slot_update. destruct (should_backfill_extended_state _ _); [done|].
  destruct (prepare_local mass prev r p q E) as [H1 H2].
  destruct (prepare_slot_record_for_history mass prev r p) as [p' [[r1 d1] h1]],
    (prepare_slot_record_for_history mass prev r q) as [q' [[r2 d2] h2]]. cbn in *. by injection H1 as -> -> ->.
Qed.
Lemma slot_update_elsewhere mass at_ prev r p k : k ≠ slot_state_key r → (slot_update mass at_ prev r p).1 !! k = p !! k.
Proof.
  intros Hk. unfold slot_update. destruct (should_backfill_extended_state _ _); [done|].
  pose proof (prepare_elsewhere mass prev r p k Hk) as H. by destruct (prepare_slot_record_for_history _ _ _ _) as [? [[? ?] ?]].
Qed.

(** ** All records *)

Lemma slot_updates_each mass at_ pairs p p' ups : NoDup (slot_state_key <$> pairs.*2) →
  slot_updates mass at_ pairs p = (p', Ok ups) →
  Forall2 (λ pair up, (slot_update mass at_ pair.1 pair.2 p).2 = Ok up
                      ∧ p' !! slot_state_key pair.2 = (slot_update mass at_ pair.1 pair.2 p).1 !! slot_state_key pair.2) pairs ups
  ∧ ∀ k, k ∉ (slot_state_key <$> pairs.*2) → p' !! k = p !! k.
Proof.
  revert p ups. induction pairs as [|[prev r] pairs IH]; intros p ups Hnd H; cbn [slot_updates] in H.
  { injection H as <- <-. by split; [constructor|]. }
  cbn in Hnd. apply NoDup_cons in Hnd as [Hr Hnd].
  pose proof (slot_update_elsewhere mass at_ prev r p) as Helse.
  destruct (slot_update mass at_ prev r p) as [p1 [up|]] eqn:E; [|done]. cbn [fst] in Helse.
  destruct (slot_updates mass at_ pairs p1) as [p2 [ups'|]] eqn:E'; [|done]. cbn in H. injection H as <- <-.
  destruct (IH _ _ Hnd E') as [HF Hk]. split.
  - constructor.
    + cbn [fst snd]. rewrite E. split; [done|]. by apply Hk.
    + eapply Forall2_impl_in; [|exact HF]. clear HF. intros [prev' r'] up' Hin [H1 H2]. cbn [fst snd] in *.
      assert (slot_state_key r' ≠ slot_state_key r) as Hne.
      { intros Eq. apply Hr. rewrite <-Eq. apply list_elem_of_fmap. exists r'. split; [done|].
        apply list_elem_of_fmap. by exists (prev', r'). }
      destruct (slot_update_local mass at_ prev' r' p p1) as [L1 L2]; [symmetry; by apply Helse|].
      rewrite L1, L2. done.
  - intros k [Hk1 Hk2]%not_elem_of_cons. rewrite Hk by done. by apply Helse.
Qed.

(** ** What is stored *)

Definition event_key (e : SlotEvent) : SlotKey := (ev_system_id e, ev_enclosure_key e, ev_slot e).
(** The events of a slot *)
Definition slot_log (t : HistoryTables) (k : SlotKey) : list SlotEvent :=
  List.filter (λ e, bool_decide (event_key e = k)) (slot_events t).

Lemma events_key prev c at_ es e : build_slot_events prev c at_ = Ok es → e ∈ es → event_key e = row_key c.
Proof.
  destruct prev as [p|]; cbn [build_slot_events]; [|intros [= <-] H; by apply not_elem_of_nil in H].
  intros [-> _]%events_of_groups_Ok (g & _ & Hg)%list_elem_of_omap. unfold event_of in Hg.
  destruct (decide (compared p c g.1)); [|done]. destruct (List.filter _ _); [done|]. by injection Hg as <-.
Qed.
Lemma post_init_key r : row_key (post_init r) = row_key r.
Proof. unfold post_init. by destruct (disk_identity_key r). Qed.
Lemma held_key prev r : row_key (with_previous_topology prev r) = row_key r.
Proof. apply (post_init_key (with_topology (topology_signature prev) r)). Qed.
Lemma prepare_key mass prev r p : row_key (prepare_slot_record_for_history mass prev r p).2.1.1 = row_key r.
Proof.
  unfold prepare_slot_record_for_history. destruct prev as [prev|]; [|done]. cbv zeta.
  destruct (_ && mass); [cbn [fst snd]; apply held_key|]. destruct (negb (topology_changed _ _)); [done|].
  destruct (negb (has_stable_disk_identity _ _)); [done|]. destruct (default _ _) as [sig n].
  destruct (_ <? _); cbn [fst snd]; [apply held_key|done].
Qed.
Lemma slot_update_key mass at_ prev r p up : (slot_update mass at_ prev r p).2 = Ok up →
  row_key (up_record up) = row_key r ∧ ∀ e, e ∈ up_events up → event_key e = row_key r.
Proof.
  unfold slot_update. destruct (should_backfill_extended_state _ _).
  { intros [= <-]. split; [done|]. by intros e ?%not_elem_of_nil. }
  pose proof (prepare_key mass prev r p) as Hk. destruct (prepare_slot_record_for_history _ _ _ _) as [? [[r' ?] ?]].
  cbn [fst snd] in *. destruct (build_slot_events prev r' at_) as [es|] eqn:E; [|done]. intros [= <-]. split; [done|].
  intros e He. cbn in He. rewrite <-Hk. by eapply events_key.
Qed.

Definition updated_key (up : SlotStateUpdate) : SlotKey := row_key (up_record up).
Definition own_events (up : SlotStateUpdate) : Prop := ∀ e, e ∈ up_events up → event_key e = updated_key up.
Lemma log_app t es k rows : slot_log (mkTables rows (slot_events t ++ es)) k
  = slot_log t k ++ List.filter (λ e, bool_decide (event_key e = k)) es.
Proof. apply List.filter_app. Qed.
Lemma own_log up k : own_events up →
  List.filter (λ e, bool_decide (event_key e = k)) (up_events up) = if decide (updated_key up = k) then up_events up else [].
Proof.
  intros H. destruct (decide _) as [<-|Hne].
  - apply filter_all, Forall_forall. intros e He. by rewrite (H e He), bool_decide_eq_true_2.
  - apply filter_none, Forall_forall. intros e He. apply bool_decide_eq_false_2. by rewrite (H e He).
Qed.
Lemma record_updates_elsewhere ups t k : Forall own_events ups → k ∉ (updated_key <$> ups) →
  slot_state_current (record_slot_updates ups t) !! k = slot_state_current t !! k
  ∧ slot_log (record_slot_updates ups t) k = slot_log t k.
Proof.
  intros H. revert t. induction H as [|up ups Hup _ IH]; intros t Hk; [done|].
  cbn in Hk. apply not_elem_of_cons in Hk as [Hne%not_eq_sym Hk].
  change (record_slot_updates (up :: ups) t) with (record_slot_updates ups (apply_update t up)).
  destruct (IH (apply_update t up) Hk) as [-> ->]. unfold apply_update. rewrite log_app, (own_log up k Hup).
  cbn [slot_state_current]. rewrite lookup_insert_ne by done. by rewrite decide_False, app_nil_r by done.
Qed.
Lemma record_updates_at ups t up : Forall own_events ups → NoDup (updated_key <$> ups) → up ∈ ups →
  slot_state_current (record_slot_updates ups t) !! updated_key up = Some (up_record up, up_observed_at up)
  ∧ slot_log (record_slot_updates ups t) (updated_key up) = slot_log t (updated_key up) ++ up_events up.
Proof.
  intros H. revert t. induction H as [|up0 ups Hup Hups IH]; intros t Hnd Hin; [by apply not_elem_of_nil in Hin|].
  cbn in Hnd. apply NoDup_cons in Hnd as [Hk Hnd].
  change (record_slot_updates (up0 :: ups) t) with (record_slot_updates ups (apply_update t up0)).
  apply elem_of_cons in Hin as [->|Hin].
  - destruct (record_updates_elsewhere ups (apply_update t up0) _ Hups Hk) as [-> ->].
    unfold apply_update. rewrite log_app, (own_log up0 _ Hup), decide_True by done. cbn [slot_state_current].
    by rewrite lookup_insert_eq.
  - destruct (IH (apply_update t up0) Hnd Hin) as [-> ->]. split; [done|]. f_equal.
    unfold apply_update. rewrite log_app, (own_log up0 _ Hup), decide_False, app_nil_r; [done|].
    intros E. apply Hk. rewrite E. apply list_elem_of_fmap. by exists up.
Qed.

(** ** A pass *)

Definition degraded (t : HistoryTables) (r : SlotStateRecord) : bool :=
  match stored t r with Some previous => is_topology_degradation previous r | None => false end.
Definition mass_in (t : HistoryTables) (records : list SlotStateRecord) : bool :=
  is_mass_topology_degradation (length (List.filter (degraded t) records)) (length records).
Definition cleared (t : HistoryTables) (records : list SlotStateRecord) (p : Pending) : Pending :=
  if mass_in t records then fold_left (λ p r, delete (slot_state_key r) p) (List.filter (degraded t) records) p else p.
Definition update_of (t : HistoryTables) (records : list SlotStateRecord) (at_ : ustr) (p : Pending) (r : SlotStateRecord) :
  Pending * result slot_exn SlotStateUpdate := slot_update (mass_in t records) at_ (stored t r) r (cleared t records p).

(** Records of distinct slots, as the inventory of a scope has them *)
Definition pass_ok (records : list SlotStateRecord) : Prop := Forall well_keyed records ∧ NoDup (row_key <$> records).
Record pass (records : list SlotStateRecord) (at_ : ustr) (p p' : Pending) (t : HistoryTables) (ups : list SlotStateUpdate) : Prop := {
  pass_each : Forall2 (λ r up, (update_of t records at_ p r).2 = Ok up
                               ∧ p' !! row_key r = (update_of t records at_ p r).1 !! row_key r) records ups;
  pass_others : ∀ k, k ∉ (row_key <$> records) → p' !! k = cleared t records p !! k;
}.

Lemma keys_row records : Forall well_keyed records → slot_state_key <$> records = row_key <$> records.
Proof. induction 1 as [|r records Hr _ IH]; [done|]. cbn. by rewrite IH, (slot_state_key_row _ Hr). Qed.
Lemma snd_tag {A B} (g : A → B) l : ((λ x, (g x, x)) <$> l).*2 = l.
Proof. induction l as [|x l IH]; [done|]. rewrite !fmap_cons. by rewrite IH. Qed.
Lemma degraded_pairs t records :
  List.filter is_degraded_pair ((λ r, (stored t r, r)) <$> records) = (λ r, (stored t r, r)) <$> List.filter (degraded t) records.
Proof. by rewrite filter_fmap. Qed.
Lemma cleared_pairs (t : HistoryTables) (records : list SlotStateRecord) (p : Pending) :
  (if mass_in t records then fold_left (λ p pair, delete (slot_state_key pair.2) p)
     ((λ r, (stored t r, r)) <$> List.filter (degraded t) records) p else p) = cleared t records p.
Proof. unfold cleared. destruct (mass_in t records); [apply fold_left_fmap|done]. Qed.
Lemma record_pass fails records at_ p t p' t' res : pass_ok records →
  record_slot_changes fails records at_ p t = (p', t', res) →
  (∃ ups, pass records at_ p p' t ups
     ∧ (res = Ok tt ∧ t' = record_slot_updates ups t ∨ res = Err SlotStoreError ∧ fails = true ∧ t' = t))
  ∨ t' = t ∧ ∃ e r, res = Err e ∧ r ∈ records ∧ is_ok (update_of t records at_ p r).2 = false.
Proof.
  intros [Hw Hnd] H. unfold record_slot_changes in H. cbv zeta in H.
  rewrite (previous_records_stored _ _ Hw), zip_fmap_l, degraded_pairs, length_fmap in H. fold (mass_in t records) in H.
  rewrite cleared_pairs in H. rewrite <-(keys_row _ Hw) in Hnd.
  destruct (slot_updates _ _ _ _) as [p1 [ups|e]] eqn:E.
  - left. exists ups. assert (p1 = p') as -> by (destruct (fails && _); congruence).
    apply slot_updates_each in E as [HF Hk]; [|by rewrite snd_tag]. rewrite snd_tag in Hk. split.
    + split.
      * apply Forall2_fmap_l in HF. rewrite Forall_forall in Hw. eapply Forall2_impl_in; [|exact HF].
        intros r up Hr [H1 H2]. cbn in *. by rewrite <-(slot_state_key_row _ (Hw r Hr)).
      * intros k Hk'. apply Hk. by rewrite (keys_row _ Hw).
    + destruct fails; [|left; by inversion H]. cbn in H. destruct ups as [|up ups]; [left; by inversion H|].
      right. by inversion H.
  - right. injection H as <- <- <-. split; [done|]. exists e. unfold update_of.
    revert E Hnd. generalize (cleared t records p), (mass_in t records). intros q mass. clear Hw p.
    set (l := records) at 1 2. assert (∀ r, r ∈ l → r ∈ records) as Hl by done. clearbody l.
    assert (∀ r, r ∈ l → q !! slot_state_key r = q !! slot_state_key r) as Hq by done. revert Hq.
    generalize q at 1 3. intros q' Hq E Hnd. revert q' Hq E. induction l as [|r l IH]; intros q' Hq E; [done|].
    cbn in E, Hnd. apply NoDup_cons in Hnd as [Hr Hnd].
    pose proof (slot_update_elsewhere mass at_ (stored t r) r q') as Helse.
    destruct (slot_update_local mass at_ (stored t r) r q' q (Hq r ltac:(by left))) as [L _].
    destruct (slot_update mass at_ (stored t r) r q') as [q1 [up|e']] eqn:Eu.
    + destruct (slot_updates _ _ _ q1) as [q2 [ups|]] eqn:E2; [done|]. injection E as <- <-.
      apply (IH (λ r H, Hl r ltac:(by right)) Hnd q1); [|done]. intros r' Hr'.
      cbn [fst] in Helse. rewrite Helse; [apply Hq; by right|]. intros Ek. apply Hr. rewrite <-Ek.
      apply list_elem_of_fmap. by exists r'.
    + exists r. injection E as <- ->. split; [done|]. split; [apply Hl; by left|]. by rewrite <-L.
Qed.
End passes.
