(* ===== verification/SlotHistory.v ===== *)
(** * Slot changes: the history is what the events say

    The fields that a pass may change in a record ([held_attributes]), and that
    the events of a slot, replayed on a stored row, give the state of the row
    that is stored later ([slot_state_replayed]). *)

From S2P Require Import Prelude PyStr Json JsonProofs JsonHook Dict Journal SlotRecords SlotChanges SlotDetails SlotPasses.
#[local] Open Scope Z_scope.
#[local] Open Scope list_scope.

(** ** Attributes *)

Ltac each_field := repeat (apply Forall_cons; split; [vm_compute; reflexivity|]); apply Forall_nil; exact I.

Section history.
Context {PT : PyText}.

Lemma identity_key_attributes k r : Forall (λ f, getattr (with_identity_key k r) f = getattr r f) tracked_fields.
Proof. let l := eval vm_compute in tracked_fields in change tracked_fields with l. destruct r. each_field. Qed.
Lemma post_init_attribute r f : f ∈ tracked_fields → getattr (post_init r) f = getattr r f.
Proof.
  intros Hf. unfold post_init. destruct (disk_identity_key r); [done|].
  exact (forall_list _ _ _ (identity_key_attributes _ r) Hf).
Qed.
Definition other_fields : list ustr := List.filter (λ f, negb (bool_decide (f ∈ TOPOLOGY_FIELDS))) tracked_fields.
Lemma topology_attributes t r : Forall (λ f, getattr (with_topology t r) f = getattr r f) other_fields.
Proof. let l := eval vm_compute in other_fields in change other_fields with l. destruct r. each_field. Qed.
Lemma topology_fields_of t r r' : Forall (λ f, getattr (with_topology t r) f = getattr (with_topology t r') f) TOPOLOGY_FIELDS.
Proof. let l := eval vm_compute in TOPOLOGY_FIELDS in change TOPOLOGY_FIELDS with l. destruct r, r'. each_field. Qed.
Lemma with_own_topology r : with_topology (topology_signature r) r = r.
Proof. by destruct r. Qed.
(** A record with the topology that was stored before *)
Lemma held_attribute p r f : f ∈ tracked_fields →
  getattr (with_previous_topology p r) f = if decide (f ∈ TOPOLOGY_FIELDS) then getattr p f else getattr r f.
Proof.
  intros Hf. unfold with_previous_topology. rewrite post_init_attribute by done. destruct (decide _) as [Ht|Ht].
  - rewrite (forall_list _ _ _ (topology_fields_of (topology_signature p) r p) Ht). by rewrite with_own_topology.
  - apply (forall_list _ _ _ (topology_attributes (topology_signature p) r)). apply elem_of_filter_list. split; [done|].
    by apply negb_true_iff, bool_decide_eq_false.
Qed.
Definition STATE_FIELDS : list ustr := [u "present"; u "state"; u "identify_active"; u "health"].
Lemma state_group : (STATE_CHANGED, STATE_FIELDS) ∈ EVENT_GROUPS.
Proof. by left. Qed.
Lemma state_fields_checked : forallb (λ f, bool_decide (f ∈ tracked_fields) && negb (bool_decide (f ∈ TOPOLOGY_FIELDS))
  && negb (bool_decide (f = u "sas_address"))) STATE_FIELDS = true.
Proof. by vm_compute. Qed.
Lemma state_field f : f ∈ STATE_FIELDS → f ∈ tracked_fields ∧ f ∉ TOPOLOGY_FIELDS ∧ f ≠ u "sas_address".
Proof.
  intros Hf. pose proof (forallb_elem _ _ _ state_fields_checked Hf) as H. cbv beta in H.
  apply andb_true_iff in H as [H H3]. apply andb_true_iff in H as [H1 H2]. apply bool_decide_eq_true in H1.
  apply negb_true_iff, bool_decide_eq_false in H2. by apply negb_true_iff, bool_decide_eq_false in H3.
Qed.

Lemma plain_post_init r : plain_record r → plain_record (post_init r).
Proof. intros H f Hf. rewrite post_init_attribute by exact Hf. exact (H f Hf). Qed.
Lemma plain_held p r : plain_record p → plain_record r → plain_record (with_previous_topology p r).
Proof.
  intros Hp Hr f Hf. rewrite held_attribute by exact Hf. destruct (decide _); [exact (Hp f Hf)|exact (Hr f Hf)].
Qed.

(** ** What an update is *)

Inductive update_shape (prev : option SlotStateRecord) (r : SlotStateRecord) (at_ : ustr) (up : SlotStateUpdate) : Prop :=
| update_backfill p : prev = Some p → should_backfill_extended_state prev r = true → up = mkUpdate r at_ [] → update_shape prev r at_ up
| update_new es : build_slot_events prev r at_ = Ok es → should_backfill_extended_state prev r = false →
    up = mkUpdate r at_ es → update_shape prev r at_ up
| update_held p es : prev = Some p → build_slot_events prev (with_previous_topology p r) at_ = Ok es →
    should_backfill_extended_state prev r = false → up = mkUpdate (with_previous_topology p r) at_ es → update_shape prev r at_ up.
Lemma prepare_cases mass prev r p : let res := prepare_slot_record_for_history mass prev r p in
  res.2.1.1 = r ∨ ∃ q, prev = Some q ∧ res.2.1.1 = with_previous_topology q r.
Proof.
  cbv zeta. unfold prepare_slot_record_for_history. destruct prev as [q|]; [|by left]. cbv zeta.
  destruct (_ && mass); [by right; exists q|]. destruct (negb (topology_changed _ _)); [by left|].
  destruct (negb (has_stable_disk_identity _ _)); [by left|]. destruct (default _ _) as [sig n].
  destruct (_ <? _); [by right; exists q|by left].
Qed.
Lemma slot_update_shape mass at_ prev r p up : (slot_update mass at_ prev r p).2 = Ok up → update_shape prev r at_ up.
Proof.
  unfold slot_update. destruct (should_backfill_extended_state prev r) eqn:Eb.
  { intros [= <-]. destruct prev as [q|]; [|done]. by eapply update_backfill. }
  pose proof (prepare_cases mass prev r p) as Hc. cbv zeta in Hc.
  destruct (prepare_slot_record_for_history _ _ _ _) as [p' [[r' d] h]]. cbn [fst snd] in *.
  destruct (build_slot_events prev r' at_) as [es|] eqn:E; [|done]. intros [= <-].
  destruct Hc as [->|(q & -> & ->)]; [by eapply update_new|by eapply update_held].
Qed.
Lemma update_record_plain prev r at_ up : update_shape prev r at_ up → plain_record r →
  (∀ p, prev = Some p → plain_record p) → plain_record (up_record up).
Proof.
  intros [p _ _ ->|es _ _ ->|p es Hp _ _ ->] Hr Hq; [exact Hr|exact Hr|]. apply plain_held; [by apply Hq|exact Hr].
Qed.

(** The fields of a group that is compared, replayed on the previous record *)
Lemma replay_current p c at_ es kind fs f : plain_record p → plain_record c → build_slot_events (Some p) c at_ = Ok es →
  (kind, fs) ∈ EVENT_GROUPS → f ∈ fs → compared p c kind → f ≠ u "sas_address" →
  replay_field f es (getattr p f) = getattr c f.
Proof.
  intros Hp Hc H Hg Hf Hcmp Hne. rewrite (replay_events _ _ _ _ _ _ _ _ Hp Hc H Hg Hf). destruct (decide _) as [_|Hn]; [done|].
  destruct (decide (getattr p f = getattr c f)) as [|Hd]; [done|]. destruct Hn. split; [exact Hcmp|].
  by apply differs_not.
Qed.
Lemma backfill_state p r f : should_backfill_extended_state (Some p) r = true → f ∈ STATE_FIELDS → getattr p f = getattr r f.
Proof.
  intros H Hf. unfold should_backfill_extended_state in H. cbv zeta in H. apply andb_true_iff in H as [_ H].
  assert (f ∈ [u "present"; u "state"; u "identify_active"; u "device_name"; u "serial"; u "model"; u "gptid"; u "pool_name";
          u "vdev_name"; u "health"]) as Hin.
  { unfold STATE_FIELDS in Hf. rewrite !elem_of_cons in Hf. rewrite !elem_of_cons. clear -Hf. pose proof (not_elem_of_nil f). tauto. }
  pose proof (forallb_elem _ _ _ H Hin) as E. cbv beta in E. by apply bool_decide_eq_true in E.
Qed.
Lemma update_replays p r at_ up f : update_shape (Some p) r at_ up → plain_record p → plain_record r → f ∈ STATE_FIELDS →
  getattr (up_record up) f = replay_field f (up_events up) (getattr p f).
Proof.
  intros H Hp Hr Hf. destruct (state_field f Hf) as (Ht & Hn & Hs). symmetry.
  destruct H as [q [= <-] Hb ->|es He _ ->|q es [= <-] He _ ->]; cbn [up_record up_events].
  - by apply backfill_state.
  - by apply (replay_current p r at_ es STATE_CHANGED STATE_FIELDS f Hp Hr He state_group Hf (or_introl eq_refl) Hs).
  - by apply (replay_current p _ at_ es STATE_CHANGED STATE_FIELDS f Hp (plain_held _ _ Hp Hr) He state_group Hf (or_introl eq_refl) Hs).
Qed.

(** ** Calls *)

Definition record_ok (r : SlotStateRecord) : Prop := well_keyed r ∧ constructed r ∧ plain_record r.
Definition tables_ok (t : HistoryTables) : Prop :=
  ∀ k row, slot_state_current t !! k = Some row → row_key row.1 = k ∧ plain_record row.1.
Definition call_ok (call : slot_call) : Prop :=
match call with
| RecordScope records _ _ => pass_ok records ∧ Forall record_ok records
| _ => True
end.


(** What a pass does to a slot: its record is written, or it is not in the pass. *)
Lemma pass_tables records at_ p p' t ups : pass_ok records → pass records at_ p p' t ups →
  (∀ r, r ∈ records → ∃ up, (update_of t records at_ p r).2 = Ok up ∧ p' !! row_key r = (update_of t records at_ p r).1 !! row_key r
     ∧ update_shape (stored t r) r at_ up ∧ row_key (up_record up) = row_key r
     ∧ slot_state_current (record_slot_updates ups t) !! row_key r = Some (up_record up, up_observed_at up)
     ∧ slot_log (record_slot_updates ups t) (row_key r) = slot_log t (row_key r) ++ up_events up)
  ∧ (∀ k, k ∉ (row_key <$> records) → slot_state_current (record_slot_updates ups t) !! k = slot_state_current t !! k
       ∧ slot_log (record_slot_updates ups t) k = slot_log t k).
Proof.
  intros [Hw Hnd] [HF _].
  assert (Forall own_events ups) as Hown.
  { apply Forall_forall. intros up Hup. destruct (Forall2_in_r _ _ _ _ HF Hup) as (r & _ & Hr & _).
    apply slot_update_key in Hr as [Hk He]. intros e Hin. unfold updated_key. rewrite Hk. by apply He. }
  assert (updated_key <$> ups = row_key <$> records) as Hkeys.
  { clear -HF. induction HF as [|r up rs ups [Hr _] _ IH]; [done|]. rewrite !fmap_cons. f_equal; [|exact IH].
    by apply slot_update_key in Hr as [Hk _]. }
  split.
  - intros r Hr. destruct (Forall2_in_l _ _ _ _ HF Hr) as (up & Hup & H1 & H2). exists up.
    destruct (slot_update_key _ _ _ _ _ _ H1) as [Hk _].
    destruct (record_updates_at ups t up Hown) as [E1 E2]; [by rewrite Hkeys|done|].
    unfold updated_key in E1, E2. rewrite Hk in E1, E2. split_and!; try done. by eapply slot_update_shape.
  - intros k Hk. apply record_updates_elsewhere; [done|by rewrite Hkeys].
Qed.

Definition replays (t t' : HistoryTables) : Prop :=
  ∀ k row, slot_state_current t !! k = Some row →
  ∃ row' es, slot_state_current t' !! k = Some row' ∧ slot_log t' k = slot_log t k ++ es
    ∧ ∀ f, f ∈ STATE_FIELDS → getattr row'.1 f = replay_field f es (getattr row.1 f).
#[export] Instance replays_preorder : PreOrder replays.
Proof.
  split.
  - intros t k row H. exists row, []. split_and!; [done|by rewrite app_nil_r|]. by intros f _.
  - intros t1 t2 t3 H1 H2 k row H. destruct (H1 k row H) as (row' & es & H' & E & HR).
    destruct (H2 k row' H') as (row'' & es' & H'' & E' & HR'). exists row'', (es ++ es'). split_and!; [done| |].
    + by rewrite E', E, (assoc_L (++)).
    + intros f Hf. rewrite (HR' f Hf), (HR f Hf). by rewrite replay_app.
Qed.

Lemma stored_row t r row : slot_state_current t !! row_key r = Some row → stored t r = Some (post_init row.1).
Proof. intros H. unfold stored, stored_at. by rewrite H. Qed.
Lemma stored_plain t r p : tables_ok t → stored t r = Some p → plain_record p.
Proof.
  intros Ht. unfold stored, stored_at. destruct (_ !! _) as [row|] eqn:E; [|done]. intros [= <-].
  apply plain_post_init, (Ht _ _ E).
Qed.
Lemma pass_replays records at_ p p' t ups : pass_ok records → Forall record_ok records → tables_ok t →
  pass records at_ p p' t ups → tables_ok (record_slot_updates ups t) ∧ replays t (record_slot_updates ups t).
Proof.
  intros Hok Hr Ht Hp. destruct (pass_tables _ _ _ _ _ _ Hok Hp) as [Hin Hout].
  assert (∀ r, r ∈ records → plain_record r) as Hplain by (intros r ?; by apply (forall_list _ _ _ Hr)).
  split; intros k row Hrow; destruct (decide (k ∈ (row_key <$> records))) as [Hk|Hk].
  - apply list_elem_of_fmap in Hk as (r & -> & Hk). destruct (Hin r Hk) as (up & _ & _ & Hs & Hkey & Hcur & _).
    rewrite Hcur in Hrow. injection Hrow as <-. split; [done|]. cbn [fst].
    apply (update_record_plain _ _ _ _ Hs (Hplain r Hk)). intros q. by apply stored_plain.
  - rewrite (proj1 (Hout k Hk)) in Hrow. by apply Ht.
  - apply list_elem_of_fmap in Hk as (r & -> & Hk). destruct (Hin r Hk) as (up & _ & _ & Hs & Hkey & Hcur & Hlog).
    exists (up_record up, up_observed_at up), (up_events up). split_and!; [done|done|]. intros f Hf. cbn [fst].
    rewrite (stored_row _ _ _ Hrow) in Hs. rewrite (update_replays _ _ _ _ f Hs (plain_post_init _ (proj2 (Ht _ _ Hrow))) (Hplain r Hk) Hf).
    rewrite (post_init_attribute _ _ (proj1 (state_field f Hf))). reflexivity.
  - destruct (Hout k Hk) as [E1 E2]. exists row, []. split_and!; [by rewrite E1|by rewrite E2, app_nil_r|]. by intros f _.
Qed.
Lemma slot_step_tables c call : tables_ok c.2 → call_ok call → tables_ok (slot_step c call).2 ∧ replays c.2 (slot_step c call).2.
Proof.
  intros Ht Hc. destruct call as [records at_ fails|s e|s|s|]; try (split; [exact Ht|reflexivity]).
  destruct Hc as [Hok Hr]. cbn [slot_step].
  destruct (record_slot_changes fails records at_ c.1 c.2) as [[p' t'] res] eqn:E. cbn [snd].
  apply record_pass in E as [(ups & Hp & [(_ & ->)|(_ & _ & ->)])|(-> & _)]; [|split; [exact Ht|reflexivity]..|exact Hok].
  by eapply pass_replays.
Qed.

(** [C5] The event log is the state table's history: between any two moments,
    whatever is recorded, held back, cleared, fails or restarts in between, a
    stored slot stays stored, and its presence, state, health and identify
    light are what they were, changed as the details of its new events say. *)
Theorem slot_state_replayed (c : collector) (calls : list slot_call)
    (Ht : tables_ok c.2) (Hcalls : Forall call_ok calls) : replays c.2 (slot_run calls c).2.
Proof.
  revert c Ht. induction Hcalls as [|call calls Hc _ IH]; intros c Ht; [reflexivity|].
  destruct (slot_step_tables c call Ht Hc) as [Ht' HR]. etrans; [exact HR|]. by apply IH.
Qed.
End history.
