(* ===== verification/SlotTopology.v ===== *)
(** * Slot changes: topology

    With addresses in ASCII no pass raises ([slot_update_ok]).  Every call keeps
    the state [sound]: a topology is held back after one sighting.  [prepared] are
    the three ways a pass treats a slot that is stored. *)

From S2P Require Import Prelude PyStr Json JsonProofs JsonHook Dict Journal SlotRecords SlotChanges SlotDetails SlotPasses SlotHistory.
#[local] Open Scope Z_scope.
#[local] Open Scope list_scope.

Section topology.
Context {PT : PyText}.

(** ** Passes do not raise *)

Definition ascii (s : ustr) : Prop := Forall (λ c, is_ascii c = true) s.
Definition addressed (r : SlotStateRecord) : Prop := ∀ s, sas_address r = Some s → ascii s.

Lemma ustrip_ascii s : ascii s → ascii (ustrip s).
Proof.
  assert (∀ l : ustr, ascii l → ascii (drop_while is_uspace l)) as H.
  { intros l Hl. destruct (drop_while_suffix is_uspace l) as [k E]. rewrite E in Hl. by apply Forall_app in Hl as [_ ?]. }
  intros Hs. unfold ustrip. apply Forall_rev, H, Forall_rev, H, Hs.
Qed.
Lemma casefold_ascii s : ascii s → ascii (casefold s).
Proof.
  induction 1 as [|c s Hc _ IH]; [constructor|].
  change (casefold (c :: s)) with ((if is_ascii c then [lower_ascii c] else casefold_wide c) ++ casefold s). rewrite Hc.
  apply Forall_app. split; [|exact IH]. apply Forall_singleton. unfold is_ascii, lower_ascii in *.
  destruct (between 65 90 c) eqn:E; [|done]. apply between_true in E. lia.
Qed.
Lemma normalized_ascii r s : addressed r → normalize_sas_address (jopt (sas_address r)) = Some s → ascii s.
Proof.
  intros Hr. unfold normalize_sas_address. destruct (sas_address r) as [a|] eqn:Ea; [|done]. cbn [jopt normalize_text str].
  pose proof (casefold_ascii _ (ustrip_ascii _ (Hr _ Ea))) as Hs. destruct (ustrip a) as [|x t]; [done|]. cbv zeta.
  destruct (_ && _); [done|]. congruence.
Qed.
Lemma bare_ascii s : ascii s → ascii (bare_hex s).
Proof.
  intros H. unfold bare_hex. destruct (strip_prefix (u "0x") s) as [h|] eqn:E; [|done]. apply strip_prefix_Some in E.
  rewrite E in H. by apply Forall_app in H as [_ ?].
Qed.
Lemma decimal_ascii c : is_ascii c = true → isdigit c = true → is_Some (decimal c).
Proof. intros Hc. unfold isdigit, decimal. rewrite Hc. intros ->. by eexists. Qed.
Lemma last_ascii s : ascii s → is_ascii (List.last s 0) = true.
Proof. induction 1 as [|c s Hc Hs IH]; [done|]. cbn. by destruct s. Qed.
Lemma dual_path_ok o n : (∀ s, o = Some s → ascii s) → (∀ s, n = Some s → ascii s) →
  is_ok (sas_dual_path_addresses_equivalent o n) = true.
Proof.
  intros Ho Hn. destruct o as [[|x o]|], n as [[|y n]|]; try done. unfold sas_dual_path_addresses_equivalent. cbv zeta.
  destruct (_ || _); [done|]. destruct (negb (bool_decide _)); [done|].
  destruct (isdigit (List.last (bare_hex (x :: o)) 0)) eqn:E1; [|done].
  destruct (isdigit (List.last (bare_hex (y :: n)) 0)) eqn:E2; [|done]. cbn [negb andb].
  destruct (decimal_ascii _ (last_ascii _ (bare_ascii _ (Ho _ eq_refl))) E1) as [a ->].
  by destruct (decimal_ascii _ (last_ascii _ (bare_ascii _ (Hn _ eq_refl))) E2) as [b ->].
Qed.
Lemma field_ok p c f : addressed p → addressed c → is_ok (field_values_equal p c f) = true.
Proof.
  intros Hp Hc. unfold field_values_equal. destruct (negb (bool_decide (f = _))); [done|]. cbv zeta.
  destruct (bool_decide (_ = _)); [done|]. destruct (stable_disk_identity p c); [|done].
  apply dual_path_ok; intros s; [by apply normalized_ascii|by apply normalized_ascii].
Qed.
Lemma group_ok p c fs : addressed p → addressed c → is_ok (group_changes p c fs) = true.
Proof.
  intros Hp Hc. induction fs as [|f fs IH]; [done|]. cbn [group_changes]. pose proof (field_ok p c f Hp Hc) as Hf.
  destruct (field_values_equal p c f); [|done]. by destruct (group_changes p c fs).
Qed.
Lemma build_ok prev c at_ : (∀ p, prev = Some p → addressed p) → addressed c → is_ok (build_slot_events prev c at_) = true.
Proof.
  intros Hp Hc. destruct prev as [p|]; [|done]. unfold build_slot_events. generalize EVENT_GROUPS.
  intros gs. induction gs as [|[kind fs] gs IH]; [done|]. cbn [events_of_groups]. destruct (negb _ && negb _); [exact IH|].
  pose proof (group_ok p c fs (Hp _ eq_refl) Hc) as Hg. destruct (group_changes p c fs); [|done].
  by destruct (events_of_groups p c at_ gs).
Qed.
Lemma post_init_address r : sas_address (post_init r) = sas_address r.
Proof. unfold post_init. by destruct (disk_identity_key r). Qed.
Lemma held_address p r : sas_address (with_previous_topology p r) = sas_address r.
Proof. apply (post_init_address (with_topology (topology_signature p) r)). Qed.
Lemma slot_update_ok mass at_ prev r p : (∀ q, prev = Some q → addressed q) → addressed r →
  is_ok (slot_update mass at_ prev r p).2 = true.
Proof.
  intros Hp Hr. unfold slot_update. destruct (should_backfill_extended_state prev r); [done|].
  pose proof (prepare_cases mass prev r p) as Hc. cbv zeta in Hc.
  destruct (prepare_slot_record_for_history _ _ _ _) as [p' [[r' d] h]]. cbn [fst snd] in *.
  assert (addressed r') as Hr'.
  { destruct Hc as [->|(q & _ & ->)]; [exact Hr|]. unfold addressed. rewrite held_address. exact Hr. }
  pose proof (build_ok prev r' at_ Hp Hr') as Hb. by destruct (build_slot_events prev r' at_).
Qed.

(** ** Sound states *)

Record sound (c : collector) : Prop := {
  sound_tables : tables_ok c.2;
  sound_addresses : ∀ k row, slot_state_current c.2 !! k = Some row → addressed row.1;
  sound_counts : ∀ k e, c.1 !! k = Some e → e.2 = 1;
}.
Definition call_sound (call : slot_call) : Prop :=
match call with
| RecordScope records _ _ => pass_ok records ∧ Forall record_ok records ∧ Forall addressed records
| _ => True
end.
Lemma call_sound_ok call : call_sound call → call_ok call.
Proof. destruct call; [|done..]. intros (? & ? & ?). by split. Qed.
Lemma sound_start t : tables_ok t → (∀ k row, slot_state_current t !! k = Some row → addressed row.1) → sound (∅, t).
Proof. intros Ht Ha. split; [done|done|]. intros k e He. cbn [fst] in He. by apply lookup_empty_Some in He. Qed.
Lemma sound_stored c r p : sound c → stored c.2 r = Some p → addressed p.
Proof.
  intros Hs. unfold stored, stored_at. destruct (_ !! _) as [row|] eqn:E; [|done]. intros [= <-].
  unfold addressed. rewrite post_init_address. by eapply (sound_addresses _ Hs).
Qed.

Lemma topology_changed_signature p r : topology_changed p r = negb (bool_decide (topology_signature p = topology_signature r)).
Proof.
  assert (∀ x : SlotStateRecord, getattr x (u "pool_name") = jopt (pool_name x) ∧ getattr x (u "vdev_name") = jopt (vdev_name x)
    ∧ getattr x (u "topology_label") = jopt (topology_label x)) as H by (intros []; vm_compute; auto).
  destruct (H p) as (P1 & P2 & P3), (H r) as (R1 & R2 & R3). unfold topology_changed, TOPOLOGY_FIELDS. cbn [existsb].
  rewrite P1, P2, P3, R1, R2, R3. unfold topology_signature. clear.
  assert (∀ x y, bool_decide (jopt x = jopt y) = bool_decide (x = y)) as Hj.
  { intros x y. apply bool_decide_ext. split; [|by intros ->]. destruct x, y; cbn; congruence. }
  rewrite !Hj. destruct (decide (pool_name p = pool_name r)), (decide (vdev_name p = vdev_name r)),
    (decide (topology_label p = topology_label r)); repeat case_bool_decide; cbn; congruence.
Qed.
Lemma post_init_signature r : topology_signature (post_init r) = topology_signature r.
Proof. unfold post_init. by destruct (disk_identity_key r). Qed.
Lemma held_signature p r : topology_signature (with_previous_topology p r) = topology_signature p.
Proof. unfold with_previous_topology. rewrite post_init_signature. by destruct p. Qed.

(** The three ways a record is prepared when there is a previous one *)
Inductive prepared (mass : bool) (q r : SlotStateRecord) (p : Pending) : Pending → SlotStateRecord → Prop :=
| prepared_suppressed : is_topology_degradation q r = true → mass = true → prepared mass q r p p (with_previous_topology q r)
| prepared_written p' : is_topology_degradation q r && mass = false →
    topology_signature q = topology_signature r ∨ has_stable_disk_identity q r = false
    ∨ p !! slot_state_key r = Some (topology_signature r, 1) →
    p' !! slot_state_key r = None → prepared mass q r p p' r
| prepared_held p' : is_topology_degradation q r && mass = false → topology_signature q ≠ topology_signature r →
    has_stable_disk_identity q r = true → p !! slot_state_key r ≠ Some (topology_signature r, 1) →
    p' !! slot_state_key r = Some (topology_signature r, 1) → prepared mass q r p p' (with_previous_topology q r).
Lemma prepare_spec (mass : bool) (q r : SlotStateRecord) (p : Pending) : (∀ e, p !! slot_state_key r = Some e → e.2 = 1) →
  let res := prepare_slot_record_for_history mass (Some q) r p in prepared mass q r p res.1 res.2.1.1.
Proof.
  intros Hp. cbv zeta. unfold prepare_slot_record_for_history. cbv zeta. rewrite topology_changed_signature, negb_involutive.
  destruct (is_topology_degradation q r && mass) eqn:Ed.
  { apply andb_true_iff in Ed as [? ?]. by apply prepared_suppressed. }
  destruct (bool_decide (topology_signature q = topology_signature r)) eqn:Es.
  { apply bool_decide_eq_true in Es. apply prepared_written; [done|by left|]. cbn [fst]. by rewrite lookup_delete_eq. }
  apply bool_decide_eq_false in Es. destruct (has_stable_disk_identity q r) eqn:Eh; cbn [negb].
  2: { apply prepared_written; [done|by right; left|]. cbn [fst]. by rewrite lookup_delete_eq. }
  destruct (p !! slot_state_key r) as [[sig n]|] eqn:Ep.
  - specialize (Hp _ eq_refl). cbn in Hp. subst n. cbn [default from_option id]. case_bool_decide as Hsig.
    + change (1 + 1 <? TOPOLOGY_CHANGE_CONFIRMATION_COUNT) with false. cbn [fst snd]. subst sig. apply prepared_written; [done|by right; right|]. by rewrite lookup_delete_eq.
    + change (1 <? TOPOLOGY_CHANGE_CONFIRMATION_COUNT) with true. cbn [fst snd]. apply prepared_held; try done; [|by rewrite lookup_insert_eq]. rewrite Ep. congruence.
  - cbn [default from_option id]. assert ((if bool_decide (NO_TOPOLOGY = topology_signature r) then 0 + 1 else 1) = 1) as ->
      by by destruct (bool_decide _).
    change (1 <? TOPOLOGY_CHANGE_CONFIRMATION_COUNT) with true. cbn [fst snd]. apply prepared_held; try done; [|by rewrite lookup_insert_eq]. by rewrite Ep.
Qed.

(** ** Passes over sound states *)

Lemma cleared_some (t : HistoryTables) (records : list SlotStateRecord) (p : Pending) k e : cleared t records p !! k = Some e → p !! k = Some e.
Proof.
  unfold cleared. destruct (mass_in t records); [|done]. generalize (List.filter (degraded t) records). intros l.
  revert p. induction l as [|r l IH]; intros p; [done|]. cbn. intros H%IH. by apply lookup_delete_Some in H as [_ ?].
Qed.
Lemma cleared_kept (t : HistoryTables) (records : list SlotStateRecord) (p : Pending) (r : SlotStateRecord) : pass_ok records → r ∈ records → mass_in t records && degraded t r = false →
  cleared t records p !! slot_state_key r = p !! slot_state_key r.
Proof.
  intros [Hw Hnd] Hr Hd. unfold cleared. destruct (mass_in t records); [|done]. cbn in Hd.
  assert (∀ r', r' ∈ List.filter (degraded t) records → slot_state_key r' ≠ slot_state_key r) as Hne.
  { intros r' [Hin Hd']%elem_of_filter_list E. assert (r' = r) as ->; [|congruence].
    rewrite (slot_state_key_row r'), (slot_state_key_row r) in E by by apply (forall_list _ _ _ Hw).
    apply list_elem_of_lookup in Hin as [i Hi], Hr as [j Hj].
    assert (i = j) as ->; [|congruence]. apply (NoDup_lookup _ _ _ (row_key r) Hnd); rewrite list_lookup_fmap; [by rewrite Hi, <-E|by rewrite Hj]. }
  revert p Hne. generalize (List.filter (degraded t) records). intros l. induction l as [|r' l IH]; intros p Hne; [done|].
  cbn. rewrite IH by (intros r'' ?; apply Hne; by right). apply lookup_delete_ne, Hne. by left.
Qed.

(** What a pass without a failure does *)
Definition pass_runs (c : collector) (records : list SlotStateRecord) (at_ : ustr) (fails : bool) (c' : collector) : Prop :=
  ∃ ups, pass records at_ c.1 c'.1 c.2 ups ∧ (c'.2 = record_slot_updates ups c.2 ∨ fails = true ∧ c'.2 = c.2).
Lemma sound_pass c records at_ fails : sound c → call_sound (RecordScope records at_ fails) →
  pass_runs c records at_ fails (slot_step c (RecordScope records at_ fails)).
Proof.
  intros Hs (Hok & _ & Ha). cbn [slot_step].
  destruct (record_slot_changes fails records at_ c.1 c.2) as [[p' t'] res] eqn:E.
  apply record_pass in E as [(ups & Hp & Hres)|(_ & e & r & _ & Hr & Herr)]; [| |exact Hok].
  - exists ups. split; [done|]. destruct Hres as [(_ & ->)|(_ & -> & ->)]; [by left|by right].
  - exfalso. unfold update_of in Herr. rewrite slot_update_ok in Herr; [done| |by apply (forall_list _ _ _ Ha)].
    intros q. by apply sound_stored.
Qed.
Lemma update_count c records at_ r : sound c → (∀ e, (update_of c.2 records at_ c.1 r).1 !! slot_state_key r = Some e → e.2 = 1).
Proof.
  intros Hs e. assert (∀ e, cleared c.2 records c.1 !! slot_state_key r = Some e → e.2 = 1) as Hcl.
  { intros e' He. apply (sound_counts _ Hs (slot_state_key r)). by apply cleared_some in He. }
  unfold update_of, slot_update. destruct (should_backfill_extended_state _ _); [apply Hcl|].
  destruct (stored c.2 r) as [q|]; [|apply Hcl].
  pose proof (prepare_spec (mass_in c.2 records) q r _ Hcl) as H. cbv zeta in H.
  destruct (prepare_slot_record_for_history _ _ _ _) as [p' [[r' d] h]]. cbn [fst snd] in *.
  inversion H as [| |]; subst; [apply Hcl|congruence|]. intros He. by assert (e = (topology_signature r, 1)) as -> by congruence.
Qed.
Lemma clear_pending_some (p : SlotKey → bool) (q : Pending) k e : clear_pending p q !! k = Some e ↔ q !! k = Some e ∧ p k = false.
Proof. unfold clear_pending. by rewrite map_lookup_filter_Some. Qed.
Lemma sound_step c call : sound c → call_sound call → sound (slot_step c call).
Proof.
  intros Hs Hc. destruct call as [records at_ fails|s e|s|s|]; cbn [slot_step].
  2-4: split; [apply Hs|apply Hs|intros k x [Hx _]%clear_pending_some; by apply (sound_counts _ Hs k)].
  2: split; [apply Hs|apply Hs|intros k x Hx; cbn [fst] in Hx; by apply lookup_empty_Some in Hx].
  destruct (slot_step_tables c _ (sound_tables _ Hs) (call_sound_ok _ Hc)) as [Ht _].
  destruct (sound_pass _ _ _ _ Hs Hc) as (ups & Hp & Hres). cbn [slot_step] in *.
  destruct (record_slot_changes fails records at_ c.1 c.2) as [[p' t'] res]. cbn [fst snd] in *. destruct Hc as (Hok & _ & Ha).
  destruct (pass_tables _ _ _ _ _ _ Hok Hp) as [Hin Hout]. split; [exact Ht| |]; cbn [fst snd].
  - intros k row Hrow. destruct Hres as [->|[_ ->]]; [|by apply (sound_addresses _ Hs k)].
    destruct (decide (k ∈ (row_key <$> records))) as [Hk|Hk].
    2: { rewrite (proj1 (Hout k Hk)) in Hrow. by apply (sound_addresses _ Hs k). }
    apply list_elem_of_fmap in Hk as (r & -> & Hk). destruct (Hin r Hk) as (up & _ & _ & Hshape & _ & Hcur & _).
    rewrite Hcur in Hrow. injection Hrow as <-. cbn [fst]. pose proof (forall_list _ _ _ Ha Hk) as Hr.
    destruct Hshape as [q _ _ ->|es _ _ ->|q es _ _ _ ->]; [exact Hr|exact Hr|]. unfold addressed. cbn [up_record].
    rewrite held_address. exact Hr.
  - intros k x Hx. destruct (decide (k ∈ (row_key <$> records))) as [Hk|Hk].
    + apply list_elem_of_fmap in Hk as (r & -> & Hk). destruct (Hin r Hk) as (up & _ & E & _). rewrite E in Hx.
      rewrite <-(slot_state_key_row r) in Hx by by apply (forall_list _ _ _ (proj1 Hok)).
      by eapply update_count.
    + rewrite (pass_others _ _ _ _ _ _ Hp k Hk) in Hx. apply cleared_some in Hx. by apply (sound_counts _ Hs k).
Qed.
Lemma sound_run c calls : sound c → Forall call_sound calls → sound (slot_run calls c).
Proof. intros Hs H. revert c Hs. induction H as [|call calls Hc _ IH]; intros c Hs; [done|]. apply IH. by apply sound_step. Qed.
End topology.
