(* ===== verification/SlotConfirmed.v ===== *)
(** * Slot changes: a topology change is seen twice

    [watch_step] notes beside the collector the topology that each slot was
    last compared with.  What is held back is always that topology
    ([watched_run]), so a stored topology is replaced only by one that was also
    seen the time before ([topology_change_confirmed]); and one that is seen
    twice in a row is stored ([topology_change_recorded]). *)

From S2P Require Import Prelude PyStr Json JsonProofs JsonHook Dict Journal SlotRecords SlotChanges SlotDetails SlotPasses SlotHistory SlotTopology.
#[local] Open Scope Z_scope.
#[local] Open Scope list_scope.

Section confirmed.
Context {PT : PyText}.

(** ** What a pass does to a slot *)

Lemma step_slot c records at_ fails r : sound c → call_sound (RecordScope records at_ fails) → r ∈ records →
  ∃ up, (update_of c.2 records at_ c.1 r).2 = Ok up
    ∧ (slot_step c (RecordScope records at_ fails)).1 !! row_key r = (update_of c.2 records at_ c.1 r).1 !! row_key r
    ∧ (slot_state_current (slot_step c (RecordScope records at_ fails)).2 !! row_key r = Some (up_record up, up_observed_at up)
       ∨ fails = true ∧ (slot_step c (RecordScope records at_ fails)).2 = c.2).
Proof.
  intros Hs Hc Hr. destruct (sound_pass _ _ _ _ Hs Hc) as (ups & Hp & Hres). destruct Hc as (Hok & _ & _).
  destruct (pass_tables _ _ _ _ _ _ Hok Hp) as [Hin _]. destruct (Hin r Hr) as (up & Hup & Hk & _ & _ & Hcur & _).
  exists up. split_and!; [done|done|]. destruct Hres as [->|[-> ->]]; [by left|by right].
Qed.
Lemma update_new t records at_ p r up : (update_of t records at_ p r).2 = Ok up → stored t r = None → up_record up = r.
Proof.
  unfold update_of, slot_update. intros H E. rewrite E in H. cbn in H. by injection H as <-.
Qed.
Lemma update_backfilled t records at_ p r up : (update_of t records at_ p r).2 = Ok up →
  should_backfill_extended_state (stored t r) r = true →
  up_record up = r ∧ (update_of t records at_ p r).1 = cleared t records p.
Proof. unfold update_of, slot_update. intros H E. rewrite E in H |- *. by injection H as <-. Qed.
Lemma update_prepared c records at_ r q up : sound c → stored c.2 r = Some q →
  should_backfill_extended_state (Some q) r = false → (update_of c.2 records at_ c.1 r).2 = Ok up →
  prepared (mass_in c.2 records) q r (cleared c.2 records c.1) (update_of c.2 records at_ c.1 r).1 (up_record up).
Proof.
  intros Hs Eq Eb H. unfold update_of, slot_update in H |- *. rewrite Eq, Eb in H |- *.
  assert (∀ e, cleared c.2 records c.1 !! slot_state_key r = Some e → e.2 = 1) as Hcl.
  { intros e He. apply (sound_counts _ Hs (slot_state_key r)). by apply cleared_some in He. }
  pose proof (prepare_spec (mass_in c.2 records) q r _ Hcl) as HP. cbv zeta in HP.
  destruct (prepare_slot_record_for_history _ _ _ _) as [p' [[r' d] h]]. cbn [fst snd] in *.
  destruct (build_slot_events (Some q) r' at_) as [es|]; [|done]. by injection H as <-.
Qed.

(** ** The topologies a slot was compared with *)

Definition watch : Type := collector * gmap SlotKey Topology.
(** A record that is backfilled is not compared; of one whose degradation is
    suppressed nothing is kept. *)
Definition see (t : HistoryTables) (records : list SlotStateRecord) (seen : gmap SlotKey Topology) (r : SlotStateRecord) :
  gmap SlotKey Topology :=
  if should_backfill_extended_state (stored t r) r then seen
  else if mass_in t records && degraded t r then delete (row_key r) seen
  else <[row_key r := topology_signature r]> seen.
Definition watch_step (w : watch) (call : slot_call) : watch :=
  (slot_step w.1 call,
   match call with
   | RecordScope records _ _ => fold_left (see w.1.2 records) records w.2
   | ClearScope s e => filter (λ kv, kv.1.1 ≠ (s, scope_of e)) w.2
   | Restart => ∅
   | _ => w.2
   end).
Definition watch_run (calls : list slot_call) (w : watch) : watch := fold_left watch_step calls w.

Lemma see_elsewhere t all records seen k : k ∉ (row_key <$> records) → fold_left (see t all) records seen !! k = seen !! k.
Proof.
  revert seen. induction records as [|r records IH]; intros seen Hk; [done|]. cbn in Hk. apply not_elem_of_cons in Hk as [Hne Hk].
  cbn [fold_left]. rewrite IH by done. unfold see. destruct (should_backfill_extended_state _ _); [done|].
  destruct (_ && _); [by rewrite lookup_delete_ne|by rewrite lookup_insert_ne].
Qed.
Lemma see_at t all records seen r : NoDup (row_key <$> records) → r ∈ records →
  fold_left (see t all) records seen !! row_key r = see t all seen r !! row_key r.
Proof.
  revert seen. induction records as [|r0 records IH]; intros seen Hnd Hr; [by apply not_elem_of_nil in Hr|].
  cbn in Hnd. apply NoDup_cons in Hnd as [Hk Hnd]. cbn [fold_left]. apply elem_of_cons in Hr as [->|Hr].
  - by apply see_elsewhere.
  - rewrite IH by done. assert (row_key r0 ≠ row_key r) as Hne.
    { intros E. apply Hk. rewrite E. apply list_elem_of_fmap. by exists r. }
    unfold see. destruct (should_backfill_extended_state (stored t r) r).
    + destruct (should_backfill_extended_state _ _); [done|].
      destruct (_ && _); [by rewrite lookup_delete_ne|by rewrite lookup_insert_ne].
    + destruct (_ && degraded t r); [by rewrite !lookup_delete_eq|by rewrite !lookup_insert_eq].
Qed.

(** What is held back is for a stored slot, and was seen last. *)
Definition backed (w : watch) (k : SlotKey) : Prop :=
  ∀ e, w.1.1 !! k = Some e → is_Some (slot_state_current w.1.2 !! k) ∧ w.2 !! k = Some e.1.
Definition watched (w : watch) : Prop := sound w.1 ∧ ∀ k, backed w k.
Lemma watched_start t : sound (∅, t) → watched ((∅, t), ∅).
Proof. intros Hs. split; [done|]. intros k e He. cbn [fst] in He. by apply lookup_empty_Some in He. Qed.

Lemma not_suppressed (t : HistoryTables) (records : list SlotStateRecord) (r q : SlotStateRecord) :
  stored t r = Some q → mass_in t records && degraded t r = is_topology_degradation q r && mass_in t records.
Proof. intros E. unfold degraded. rewrite E. apply andb_comm. Qed.
Lemma dropped_stays (l : list SlotStateRecord) (p : Pending) (k : SlotKey) : p !! k = None →
  fold_left (λ p r, delete (slot_state_key r) p) l p !! k = None.
Proof. revert p. induction l as [|r l IH]; intros p Hp; [done|]. apply IH. apply lookup_delete_None. by right. Qed.
Lemma cleared_suppressed (t : HistoryTables) (records : list SlotStateRecord) (p : Pending) (r : SlotStateRecord) :
  r ∈ records → mass_in t records && degraded t r = true → cleared t records p !! slot_state_key r = None.
Proof.
  intros Hr [Hm Hd]%andb_true_iff. unfold cleared. rewrite Hm.
  assert (r ∈ List.filter (degraded t) records) as Hin by by apply elem_of_filter_list. revert p Hin.
  generalize (List.filter (degraded t) records). intros l. induction l as [|r' l IH]; intros p; [by intros ?%not_elem_of_nil|].
  intros [<-|Hin]%elem_of_cons; [|by apply IH]. cbn [fold_left]. apply dropped_stays. by rewrite lookup_delete_eq.
Qed.
Lemma stored_some t r : is_Some (slot_state_current t !! row_key r) ↔ is_Some (stored t r).
Proof. unfold stored, stored_at. by rewrite fmap_is_Some. Qed.

(** A pass, for the slot of one of its records *)
Lemma pass_backed w records at_ fails r : watched w → call_sound (RecordScope records at_ fails) → r ∈ records →
  backed (watch_step w (RecordScope records at_ fails)) (row_key r).
Proof.
  intros [Hs Hw] Hc Hr e. pose proof Hc as ([Hk Hnd] & _ & _).
  destruct (step_slot _ _ at_ fails r Hs Hc Hr) as (up & Hup & Hpend & Hcur). cbn [watch_step fst snd].
  rewrite Hpend, (see_at _ _ _ _ _ Hnd Hr). clear Hpend. intros He.
  assert (is_Some (stored w.1.2 r) ∧ see w.1.2 records w.2 r !! row_key r = Some e.1) as [Hst Hsee].
  { assert (slot_state_key r = row_key r) as Ek by by apply slot_state_key_row, (forall_list _ _ _ Hk).
    assert (cleared w.1.2 records w.1.1 !! row_key r = Some e →
      is_Some (stored w.1.2 r) ∧ w.2 !! row_key r = Some e.1) as Hold by (intros H%cleared_some%Hw; by rewrite <-stored_some).
    unfold see. destruct (should_backfill_extended_state (stored w.1.2 r) r) eqn:Eb.
    { rewrite (proj2 (update_backfilled _ _ _ _ _ _ Hup Eb)) in He. by apply Hold. }
    destruct (stored w.1.2 r) as [q|] eqn:Eq.
    2: { unfold update_of, slot_update in He. rewrite Eq in He. cbn in He. apply Hold in He as [[? ?] _]. done. }
    split; [by eexists|]. pose proof (update_prepared _ _ at_ _ _ _ Hs Eq Eb Hup) as HP. rewrite (not_suppressed _ _ _ _ Eq).
    revert HP He. generalize (update_of w.1.2 records at_ w.1.1 r).1, (up_record up). intros p1 r1 HP He.
    destruct HP as [Hd Hm|p' Hd _ Hn|p' Hd _ _ _ Hp'].
    - rewrite <-Ek, cleared_suppressed in He; [done|done|]. by rewrite (not_suppressed _ _ _ _ Eq), Hd, Hm.
    - by rewrite <-Ek, Hn in He.
    - rewrite <-Ek, Hp' in He. injection He as <-. by rewrite Hd, lookup_insert_eq. }
  split; [|done]. cbn [fst]. destruct Hcur as [->|[_ ->]]; [by eexists|]. by apply stored_some.
Qed.
Lemma watched_step w call : watched w → call_sound call → watched (watch_step w call).
Proof.
  intros [Hs Hw] Hc. split; [by apply sound_step|]. intros k. destruct call as [records at_ fails|s e'|s|s|].
  - destruct (decide (k ∈ (row_key <$> records))) as [Hk|Hk].
    { apply list_elem_of_fmap in Hk as (r & -> & Hr). by apply pass_backed. }
    intros e. cbn [watch_step fst snd]. rewrite (see_elsewhere _ _ _ _ _ Hk).
    destruct (sound_pass _ _ _ _ Hs Hc) as (ups & Hp & Hres). rewrite (pass_others _ _ _ _ _ _ Hp k Hk).
    intros He%cleared_some%Hw. destruct Hc as (Hok & _ & _). destruct (pass_tables _ _ _ _ _ _ Hok Hp) as [_ Hout].
    destruct Hres as [->|[_ ->]]; [by rewrite (proj1 (Hout k Hk))|done].
  - intros e. cbn [watch_step fst snd slot_step]. intros [Hk Hne]%clear_pending_some. destruct (Hw k e Hk) as [? ?].
    split; [done|]. apply map_lookup_filter_Some. split; [done|]. cbn. by apply bool_decide_eq_false in Hne.
  - intros e. cbn [watch_step fst snd slot_step]. intros [Hk _]%clear_pending_some. by apply Hw.
  - intros e. cbn [watch_step fst snd slot_step]. intros [Hk _]%clear_pending_some. by apply Hw.
  - intros e He. cbn [watch_step fst snd slot_step] in He. by apply lookup_empty_Some in He.
Qed.
Lemma watched_run calls w : watched w → Forall call_sound calls → watched (watch_run calls w).
Proof. intros Hw H. revert w Hw. induction H as [|call calls Hc _ IH]; intros w Hw; [done|]. apply IH. by apply watched_step. Qed.
Lemma watch_collector calls w : (watch_run calls w).1 = slot_run calls w.1.
Proof. revert w. induction calls as [|call calls IH]; intros w; [done|]. apply IH. Qed.

(** ** Changes *)

(** [C12] A pass that compares a slot does not replace its stored topology on one
    sighting.  After any calls on a collector that starts with sound tables, take
    a pass that sees a disk which kept its identity and does not backfill its row.
    (A pass that backfills - the stored row has no extended state and the basic
    fields agree - stores what it sees, topology included, at once.)  It changes
    the stored topology only to the one it now sees, only when the last pass that
    compared the slot before saw that topology too, and not while many slots lose
    detail at once; whatever was cleared, failed or restarted in between.
    Passes that backfilled the row in between do not count as comparing it. *)
Theorem topology_change_confirmed (t : HistoryTables) (calls : list slot_call) (records : list SlotStateRecord)
    (observed_at : ustr) (fails : bool) (r q : SlotStateRecord) (w : watch)
    (Ht : sound (∅, t)) (Hcalls : Forall call_sound calls) (Hw : w = watch_run calls ((∅, t), ∅))
    (Hpass : call_sound (RecordScope records observed_at fails)) (Hr : r ∈ records) (Hq : stored w.1.2 r = Some q)
    (Hid : has_stable_disk_identity q r = true) (Hb : should_backfill_extended_state (Some q) r = false) :
  ∃ row, slot_state_current (slot_step w.1 (RecordScope records observed_at fails)).2 !! row_key r = Some row
    ∧ (topology_signature row.1 = topology_signature q
       ∨ topology_signature row.1 = topology_signature r ∧ w.2 !! row_key r = Some (topology_signature r)
         ∧ mass_in w.1.2 records && degraded w.1.2 r = false).
Proof.
  assert (watched w) as [Hs Hwatch] by (subst w; apply watched_run; [by apply watched_start|done]).
  destruct (step_slot _ _ observed_at fails r Hs Hpass Hr) as (up & Hup & _ & Hcur).
  destruct Hcur as [Hcur|[_ ->]].
  2: { destruct (proj2 (stored_some w.1.2 r) ltac:(by eexists)) as [row Hrow]. exists row. split; [done|left].
       rewrite (stored_row _ _ _ Hrow) in Hq. injection Hq as <-. by rewrite post_init_signature. }
  exists (up_record up, up_observed_at up). split; [done|]. cbn [fst].
  pose proof (update_prepared _ _ observed_at _ _ _ Hs Hq Hb Hup) as HP.
  assert (slot_state_key r = row_key r) as Ek by by apply slot_state_key_row, (forall_list _ _ _ (proj1 (proj1 Hpass))).
  rewrite (not_suppressed _ _ _ _ Hq). clear Hcur. revert HP. clear Hup.
  generalize (update_of w.1.2 records observed_at w.1.1 r).1, (up_record up). intros p1 r1 HP.
  destruct HP as [Hd Hm|p' Hd Hwhy _|p' Hd _ _ _ _].
  - left. apply held_signature.
  - destruct Hwhy as [Hsame|[Hne|Hseen]]; [left; congruence|congruence|right]. split; [congruence|]. split; [|done].
    rewrite Ek in Hseen. apply cleared_some, Hwatch in Hseen as [_ Hseen]. exact Hseen.
  - left. apply held_signature.
Qed.

(** [C23] A topology change that lasts is stored, unless it is suppressed: when two
    passes in a row see the same topology of a slot, neither of them suppresses
    the slot as one of many that lose detail at once (a mass degradation is never
    stored, however often it is seen), and both store their updates, the row has
    that topology after the second (the first may store it already, or hold it
    back). *)
Theorem topology_change_recorded (c : collector) (records1 records2 : list SlotStateRecord) (at1 at2 : ustr)
    (r1 r2 : SlotStateRecord) (Hs : sound c)
    (H1 : call_sound (RecordScope records1 at1 false)) (H2 : call_sound (RecordScope records2 at2 false))
    (Hr1 : r1 ∈ records1) (Hr2 : r2 ∈ records2) (Hkey : row_key r1 = row_key r2)
    (Hsig : topology_signature r1 = topology_signature r2)
    (Hm1 : mass_in c.2 records1 && degraded c.2 r1 = false)
    (Hm2 : let t := (slot_step c (RecordScope records1 at1 false)).2 in mass_in t records2 && degraded t r2 = false) :
  ∃ row, slot_state_current (slot_run [RecordScope records1 at1 false; RecordScope records2 at2 false] c).2 !! row_key r2 = Some row
    ∧ topology_signature row.1 = topology_signature r2.
Proof.
  set (c1 := slot_step c (RecordScope records1 at1 false)) in *. cbv zeta in Hm2.
  assert (sound c1) as Hs1 by by apply sound_step.
  destruct (step_slot _ _ at1 false r1 Hs H1 Hr1) as (up1 & Hup1 & Hpend1 & [Hcur1|[? _]]); [|done].
  destruct (step_slot _ _ at2 false r2 Hs1 H2 Hr2) as (up2 & Hup2 & _ & [Hcur2|[? _]]); [|done].
  fold c1 in Hpend1, Hcur1. exists (up_record up2, up_observed_at up2). split; [exact Hcur2|]. cbn [fst].
  assert (∀ r records at_ fails, call_sound (RecordScope records at_ fails) → r ∈ records → slot_state_key r = row_key r) as Ek.
  { intros r records at_ fails ((? & ?) & _) ?. by apply slot_state_key_row, (forall_list _ _ _ H). }
  rewrite Hkey in Hcur1, Hpend1. pose proof (stored_row c1.2 r2 _ Hcur1) as Hq2. cbn [fst] in Hq2.
  destruct (should_backfill_extended_state (stored c1.2 r2) r2) eqn:Eb2.
  { by rewrite (proj1 (update_backfilled _ _ _ _ _ _ Hup2 Eb2)). }
  rewrite Hq2 in Eb2. pose proof (update_prepared _ _ at2 _ _ _ Hs1 Hq2 Eb2 Hup2) as HP2.
  pose proof (cleared_kept _ _ c1.1 r2 (proj1 H2) Hr2 Hm2) as Hkept. rewrite (not_suppressed _ _ _ _ Hq2) in Hm2. clear Hcur2.
  revert HP2. generalize (update_of c1.2 records2 at2 c1.1 r2).1, (up_record up2). intros p2 r2' HP2.
  destruct HP2 as [Hd Hm|p2 _ _ _|p2 _ Hne _ Hpend2 _]; [by rewrite Hd, Hm in Hm2|done|].
  exfalso. rewrite post_init_signature in Hne. apply Hpend2. rewrite Hkept, (Ek _ _ _ _ H2 Hr2), Hpend1, <-Hkey, <-Hsig.
  rewrite <-Hsig in Hne. destruct (stored c.2 r1) as [q|] eqn:Eq; [|by rewrite (update_new _ _ _ _ _ _ Hup1 Eq) in Hne].
  destruct (should_backfill_extended_state (Some q) r1) eqn:Eb.
  { rewrite <-Eq in Eb. by rewrite (proj1 (update_backfilled _ _ _ _ _ _ Hup1 Eb)) in Hne. }
  pose proof (update_prepared _ _ at1 _ _ _ Hs Eq Eb Hup1) as HP1. rewrite (not_suppressed _ _ _ _ Eq) in Hm1.
  rewrite <-(Ek _ _ _ _ H1 Hr1). clear -HP1 Hm1 Hne. revert HP1 Hne.
  generalize (update_of c.2 records1 at1 c.1 r1).1, (up_record up1). intros p1 r1' HP1 Hne.
  destruct HP1 as [Hd Hm|p1 _ _ _|p1 _ _ _ _ Hp1]; [by rewrite Hd, Hm in Hm1|done|done].
Qed.
End confirmed.
