(* ===== verification/SlotSteady.v ===== *)
(** * Slot changes: an inventory that stays the same

    After two passes over the same records each row is its record, or has the
    topology it had before while too many slots lost theirs ([settled]); from
    then on the same inventory adds no event ([steady_inventory_is_silent]). *)

From S2P Require Import Prelude PyStr Json JsonProofs JsonHook Dict Journal SlotRecords SlotChanges SlotDetails SlotPasses SlotHistory SlotTopology SlotConfirmed.
#[local] Open Scope Z_scope.
#[local] Open Scope list_scope.

Section steady.
Context {PT : PyText}.

(** ** Records that differ in their topology *)

Lemma held_topology q r : constructed r → with_previous_topology q r = with_topology (topology_signature q) r.
Proof.
  unfold constructed, with_previous_topology, post_init. destruct r; cbn. destruct disk_identity_key; [done|].
  destruct (build_disk_identity_key _ _ _); [by intros [=]|done].
Qed.
Lemma topology_of s r : topology_signature (with_topology s r) = s.
Proof. by destruct s as [[] ?]. Qed.
Definition DISK_FIELDS : list ustr := [u "serial"; u "model"; u "gptid"; u "logical_unit_id"; u "disk_identity_key"].
Lemma topology_disk s r : Forall (λ f, getattr (with_topology s r) f = getattr r f) DISK_FIELDS.
Proof. destruct r. each_field. Qed.
Lemma stable_topology s r : has_stable_disk_identity (with_topology s r) r = true.
Proof.
  unfold has_stable_disk_identity. apply andb_true_iff. split; [destruct r; apply eqb_reflx|].
  apply forallb_forall. intros f Hf%list_elem_of_In. apply bool_decide_eq_true. exact (forall_list _ _ _ (topology_disk s r) Hf).
Qed.
Lemma degradation_signature q q' r : topology_signature q = topology_signature q' → has_stable_disk_identity q r = true →
  has_stable_disk_identity q' r = true → is_topology_degradation q r = is_topology_degradation q' r.
Proof.
  intros E H H'. unfold is_topology_degradation. rewrite !topology_changed_signature, H, H', E.
  unfold topology_detail_score. unfold topology_signature in E. by injection E as -> -> ->.
Qed.
Lemma degraded_itself r : is_topology_degradation r r = false.
Proof. unfold is_topology_degradation. by rewrite topology_changed_signature, bool_decide_eq_true_2. Qed.
(** A row that is backfilled has no topology label to lose. *)
Lemma backfill_not_degraded q r : should_backfill_extended_state (Some q) r = true → is_topology_degradation q r = false.
Proof.
  intros H. unfold should_backfill_extended_state in H. cbv zeta in H. apply andb_true_iff in H as [[H _]%andb_true_iff Hf].
  assert (topology_label q = None) as Hq.
  { apply negb_true_iff, not_true_iff_false in H. destruct (topology_label q) as [l|] eqn:E; [|done]. destruct H.
    apply existsb_exists. exists (u "topology_label"). split; [right; right; right; by left|].
    apply negb_true_iff, bool_decide_eq_false. destruct q. cbn in E. subst. by vm_compute. }
  assert (∀ f, f ∈ [u "pool_name"; u "vdev_name"] → getattr q f = getattr r f) as Hsame.
  { intros f Hin. rewrite forallb_forall in Hf. specialize (Hf f). rewrite <-list_elem_of_In, bool_decide_eq_true in Hf. apply Hf.
    rewrite !elem_of_cons in Hin. rewrite !elem_of_cons. clear -Hin. pose proof (not_elem_of_nil f). tauto. }
  assert (∀ x : SlotStateRecord, getattr x (u "pool_name") = jopt (pool_name x) ∧ getattr x (u "vdev_name") = jopt (vdev_name x)) as Hg
    by (intros []; vm_compute; auto).
  assert (∀ x y, jopt x = jopt y → x = y) as Hj by (intros [] []; cbn; congruence).
  pose proof (Hsame (u "pool_name") ltac:(by left)) as Hp. pose proof (Hsame (u "vdev_name") ltac:(right; by left)) as Hv.
  rewrite (proj1 (Hg q)), (proj1 (Hg r)) in Hp. rewrite (proj2 (Hg q)), (proj2 (Hg r)) in Hv. apply Hj in Hp, Hv.
  unfold is_topology_degradation, topology_detail_score. rewrite Hq, Hp, Hv. apply andb_false_iff. right. apply Z.ltb_ge.
  destruct (topology_label r) as [[|]|]; lia.
Qed.

(** ** No difference, no event *)

Lemma no_difference r fs : group_changes r r fs = Ok [].
Proof.
  induction fs as [|f fs IH]; [done|]. cbn [group_changes]. unfold field_values_equal.
  destruct (negb _); cbn [mbind result_bind]; rewrite ?bool_decide_eq_true_2 by done; by rewrite IH.
Qed.
Lemma no_events r at_ : build_slot_events (Some r) r at_ = Ok [].
Proof.
  unfold build_slot_events. generalize EVENT_GROUPS. intros gs. induction gs as [|[kind fs] gs IH]; [done|].
  cbn [events_of_groups]. destruct (negb _ && negb _); [done|]. rewrite no_difference. cbn. by rewrite IH.
Qed.

(** ** A pass, and what is stored after it *)

Definition suppressed (t : HistoryTables) (records : list SlotStateRecord) (r : SlotStateRecord) : bool :=
  mass_in t records && degraded t r.
(** The row is the record, or the record with the topology [q] had, which was
    suppressed or is held back. *)
Inductive left_by (c c' : collector) (records : list SlotStateRecord) (r : SlotStateRecord) : Prop :=
| left_written : stored c'.2 r = Some r → suppressed c.2 records r = false → left_by c c' records r
| left_held q : stored c.2 r = Some q → has_stable_disk_identity q r = true → topology_signature q ≠ topology_signature r →
    stored c'.2 r = Some (with_topology (topology_signature q) r) →
    suppressed c.2 records r = true
    ∨ suppressed c.2 records r = false ∧ c.1 !! slot_state_key r ≠ Some (topology_signature r, 1)
      ∧ c'.1 !! slot_state_key r = Some (topology_signature r, 1) → left_by c c' records r.
Lemma pass_left c records at_ r : sound c → call_sound (RecordScope records at_ false) → r ∈ records →
  left_by c (slot_step c (RecordScope records at_ false)) records r.
Proof.
  intros Hs Hc Hr. destruct (step_slot _ _ at_ false r Hs Hc Hr) as (up & Hup & Hpend & [Hcur|[? _]]); [|done].
  pose proof Hc as (Hok & Hrec & _). destruct (forall_list _ _ _ Hrec Hr) as (Hk & Hcon & _).
  set (c' := slot_step c _) in *. assert (stored c'.2 r = Some (post_init (up_record up))) as Hst by by apply (stored_row _ _ _ Hcur).
  destruct (stored c.2 r) as [q|] eqn:Eq.
  2: { rewrite (update_new _ _ _ _ _ _ Hup Eq), Hcon in Hst. apply left_written; [done|].
       unfold suppressed, degraded. by rewrite Eq, andb_false_r. }
  pose proof (not_suppressed c.2 records r q Eq) as Hsup.
  destruct (should_backfill_extended_state (Some q) r) eqn:Eb.
  { pose proof (backfill_not_degraded _ _ Eb) as Hd. rewrite <-Eq in Eb.
    rewrite (proj1 (update_backfilled _ _ _ _ _ _ Hup Eb)), Hcon in Hst. apply left_written; [done|].
    unfold suppressed. by rewrite Hsup, Hd. }
  pose proof (update_prepared _ _ at_ _ _ _ Hs Eq Eb Hup) as HP. rewrite <-(slot_state_key_row r Hk) in Hpend. revert HP Hst Hpend.
  pose proof (cleared_kept c.2 records c.1 r Hok Hr) as Hkept. rewrite Hsup in Hkept.
  generalize (update_of c.2 records at_ c.1 r).1, (up_record up). intros p' r' HP Hst Hpend.
  assert (post_init (with_previous_topology q r) = with_topology (topology_signature q) r) as Hheld.
  { rewrite <-held_topology by done. apply post_init_twice. }
  destruct HP as [Hd Hm|p' Hd _ _|p' Hd Hne Hid Hnot Hp'].
  - rewrite Hheld in Hst. pose proof Hd as Hd'. unfold is_topology_degradation in Hd'.
    apply andb_true_iff in Hd' as [[[Hch Hid]%andb_true_iff _]%andb_true_iff _].
    rewrite topology_changed_signature in Hch. apply negb_true_iff, bool_decide_eq_false in Hch.
    eapply left_held; try done. left. unfold suppressed. by rewrite Hsup, Hd, Hm.
  - rewrite Hcon in Hst. apply left_written; [done|]. unfold suppressed. by rewrite Hsup.
  - rewrite Hheld in Hst. eapply left_held; try done. right. unfold suppressed. rewrite Hsup. split_and!; [done| |].
    + by rewrite <-Hkept.
    + by rewrite Hpend.
Qed.

(** What is suppressed stays suppressed while the inventory is the same. *)
Lemma still_suppressed c c' records : (∀ r, r ∈ records → left_by c c' records r) →
  ∀ r, r ∈ records → suppressed c.2 records r = true → suppressed c'.2 records r = true.
Proof.
  intros Hl r Hr Hsup. unfold suppressed in Hsup. apply andb_true_iff in Hsup as [Hm Hd].
  assert (∀ r, r ∈ records → degraded c'.2 r = degraded c.2 r) as Heq.
  { intros r' Hr'. destruct (Hl r' Hr') as [Hst Hsup|q Hq Hid Hne Hst _]; unfold degraded at 1; rewrite Hst.
    - rewrite degraded_itself. unfold suppressed in Hsup. by rewrite Hm in Hsup.
    - unfold degraded. rewrite Hq. apply degradation_signature; [by rewrite topology_of|apply stable_topology|done]. }
  unfold suppressed. rewrite (Heq r Hr), Hd, andb_true_r. unfold mass_in in Hm |- *.
  rewrite (List.filter_ext_in _ (degraded c.2)); [done|]. intros r' Hr'%list_elem_of_In. by apply Heq.
Qed.

Definition settled (t : HistoryTables) (records : list SlotStateRecord) : Prop := ∀ r, r ∈ records →
  stored t r = Some r ∨ suppressed t records r = true ∧ ∃ s, stored t r = Some (with_topology s r).
Lemma settled_after_two c records at1 at2 : sound c → call_sound (RecordScope records at1 false) →
  settled (slot_run [RecordScope records at1 false; RecordScope records at2 false] c).2 records.
Proof.
  intros Hs Hc r Hr. pose proof (λ r, pass_left c records at1 r Hs Hc) as H1.
  set (c1 := slot_step c _) in *. assert (sound c1) as Hs1 by by apply sound_step.
  pose proof (λ r, pass_left c1 records at2 r Hs1 Hc) as H2. cbn [slot_run fold_left]. fold c1.
  set (c2 := slot_step c1 _) in *. pose proof (still_suppressed _ _ _ H1 r Hr) as M1. pose proof (still_suppressed _ _ _ H2 r Hr) as M2.
  destruct (H2 r Hr) as [Hst _|q Hq _ Hne Hst [Hsup|(Hsup & Hnot & _)]]; [by left| |].
  { right. split; [by apply M2|by eexists]. }
  exfalso. destruct (H1 r Hr) as [Hst1 _|q1 _ _ _ Hst1 [Hsup1|(_ & _ & Hp1)]].
  - rewrite Hst1 in Hq. congruence.
  - by rewrite (M1 Hsup1) in Hsup.
  - by apply Hnot.
Qed.

(** A pass over a settled inventory *)
Lemma same_record q r at_ up : update_shape (Some q) r at_ up → up_record up = q → up_events up = [].
Proof.
  intros [p _ _ ->|es He _ ->|p es [= <-] He _ ->] Hq; cbn [up_record up_events] in *; [done| |]; rewrite Hq, no_events in He; congruence.
Qed.
Lemma silent_update c records at_ r up : sound c → call_sound (RecordScope records at_ false) → r ∈ records →
  (update_of c.2 records at_ c.1 r).2 = Ok up → settled c.2 records → up_events up = [].
Proof.
  intros Hs Hc Hr Hup Hset. pose proof (slot_update_shape _ _ _ _ _ _ Hup) as Hshape. destruct Hc as (_ & Hrec & _).
  destruct (forall_list _ _ _ Hrec Hr) as (Hk & Hcon & _). destruct (Hset r Hr) as [Hst|(Hsup & s & Hst)]; rewrite Hst in Hshape.
  - apply (same_record _ _ _ _ Hshape). destruct Hshape as [p _ _ ->|es _ _ ->|p es [= <-] _ _ ->]; [done..|].
    cbn [up_record]. by rewrite held_topology, with_own_topology.
  - destruct (should_backfill_extended_state (stored c.2 r) r) eqn:Eb.
    { destruct Hshape as [p _ _ ->|es _ Eb' _|p es _ _ Eb' _]; [done|congruence..]. }
    apply (same_record _ _ _ _ Hshape). rewrite Hst in Eb. pose proof (update_prepared _ _ at_ _ _ _ Hs Hst Eb Hup) as HP.
    unfold suppressed in Hsup. rewrite (not_suppressed _ _ _ _ Hst) in Hsup. revert HP.
    generalize (update_of c.2 records at_ c.1 r).1, (up_record up). intros p' r' HP.
    destruct HP as [_ _|p' Hd _ _|p' Hd _ _ _ _]; [|congruence..]. by rewrite held_topology, topology_of.
Qed.
Lemma no_new_events ups t : Forall (λ up, up_events up = []) ups → slot_events (record_slot_updates ups t) = slot_events t.
Proof.
  intros H. revert t. induction H as [|up ups Hup _ IH]; intros t; [done|].
  change (record_slot_updates (up :: ups) t) with (record_slot_updates ups (apply_update t up)). rewrite IH.
  unfold apply_update. cbn [slot_events]. by rewrite Hup, app_nil_r.
Qed.
Lemma settled_stored c records at_ : sound c → call_sound (RecordScope records at_ false) → settled c.2 records →
  settled (slot_step c (RecordScope records at_ false)).2 records
  ∧ slot_events (slot_step c (RecordScope records at_ false)).2 = slot_events c.2.
Proof.
  intros Hs Hc Hset. pose proof (λ r, pass_left c records at_ r Hs Hc) as Hl. split.
  - intros r Hr. destruct (Hl r Hr) as [Hst _|q Hq _ Hne Hst Hwhy]; [by left|]. right. split; [|by eexists].
    apply (still_suppressed _ _ _ Hl r Hr). destruct (Hset r Hr) as [Hst'|[Hsup _]]; [congruence|done].
  - destruct (sound_pass _ _ _ _ Hs Hc) as (ups & [HF _] & [->|[? _]]); [|done]. apply no_new_events, Forall_forall. intros up Hup.
    destruct (Forall2_in_r _ _ _ _ HF Hup) as (r & Hr & Hr' & _). by eapply silent_update.
Qed.
Lemma failed_pass c records at_ : (slot_step c (RecordScope records at_ true)).2 = c.2
  ∨ slot_step c (RecordScope records at_ true) = slot_step c (RecordScope records at_ false).
Proof.
  cbn [slot_step]. unfold record_slot_changes. cbv zeta. destruct (slot_updates _ _ _ _) as [p [ups|e]]; [|by right].
  destruct ups as [|up ups]; [by right|by left].
Qed.
Lemma settled_step c records at_ fails : sound c → call_sound (RecordScope records at_ fails) → settled c.2 records →
  settled (slot_step c (RecordScope records at_ fails)).2 records
  ∧ slot_events (slot_step c (RecordScope records at_ fails)).2 = slot_events c.2.
Proof.
  intros Hs Hc Hset. destruct fails; [|by apply settled_stored]. destruct (failed_pass c records at_) as [->| ->]; [done|].
  by apply settled_stored.
Qed.

(** [C22] An inventory that stays the same falls silent: after two passes over
    the same records, from whatever was stored or held back before, every
    further pass over them (at any times, storing or failing to) adds no event,
    because each row is by then the record itself, or the record with the
    topology that too many slots lost at once. *)
Theorem steady_inventory_is_silent (c : collector) (records : list SlotStateRecord) (at1 at2 : ustr) (later : list (ustr * bool))
    (Hs : sound c) (Hpass : call_sound (RecordScope records at1 false)) :
  let c2 := slot_run [RecordScope records at1 false; RecordScope records at2 false] c in
  slot_events (slot_run ((λ p, RecordScope records p.1 p.2) <$> later) c2).2 = slot_events c2.2.
Proof.
  cbv zeta. pose proof (settled_after_two c records at1 at2 Hs Hpass) as Hset.
  assert (sound (slot_run [RecordScope records at1 false; RecordScope records at2 false] c)) as Hs2
    by (apply sound_run; [done|]; by apply Forall_cons; split; [|apply Forall_singleton]).
  revert Hset Hs2. generalize (slot_run [RecordScope records at1 false; RecordScope records at2 false] c).
  induction later as [|[at_ fails] later IH]; intros c' Hset Hs'; [done|].
  destruct (settled_step c' records at_ fails Hs' Hpass Hset) as [Hset' <-]. apply IH; [done|]. by apply sound_step.
Qed.
End steady.
