(* ===== verification/SlotScans.v ===== *)
(** * Slot changes: scans that are not believed

    The slots of a collection ([_run_once_unlocked] in [history_service/collector.py]):
    every scope is judged before anything is written, then the trusted ones are
    recorded one after the other.  A Linux or ESXi host whose SSH source failed
    keeps, of every stored slot, its presence and the identifiers known of its
    disk ([degraded_scan_keeps_disks]). *)

From S2P Require Import Prelude PyStr Json JsonProofs JsonHook Dict Journal SlotRecords SlotChanges SlotDetails SlotPasses SlotHistory SlotTopology SlotConfirmed SlotSteady.
#[local] Open Scope Z_scope.
#[local] Open Scope list_scope.

Record ScopeSnapshot := mkScope {
  sc_system_id : ustr; sc_system_label : option ustr; sc_enclosure_id : option ustr; sc_enclosure_label : option ustr;
  sc_snapshot : jdict;
}.
Definition scope_key (sc : ScopeSnapshot) : ustr * ustr := (sc_system_id sc, scope_of (sc_enclosure_id sc)).
(** What becomes of a scope: its pass runs, the store raises in it, or the
    collection ends before it (it is stopped, or the scope before raised in
    its metrics). *)
Inductive scope_ending := Runs | StoreRaises | Ends.
#[export] Instance scope_ending_eq_dec : EqDecision scope_ending.
Proof. solve_decision. Defined.
Inductive collect_exn := SlotError (e : slot_exn) | HistorySourceError | CollectionEnded.

Section scans.
Context {PT : PyText}.

Fixpoint record_scopes (scopes : list (ScopeSnapshot * option skip_reason * scope_ending)) (observed_at : ustr) (c : collector) :
  collector * result collect_exn unit :=
match scopes with
| [] => (c, Ok tt)
| (_, _, Ends) :: _ => (c, Err CollectionEnded)
| (_, Some _, _) :: rest => record_scopes rest observed_at c
| (sc, None, ending) :: rest =>
    match snapshot_records (sc_snapshot sc) with
    | Err e => (c, Err (SlotError e))
    | Ok slot_records =>
        let store_fails := match ending with StoreRaises => true | _ => false end in
        match record_slot_changes store_fails slot_records observed_at c.1 c.2 with
        | (pending, t, Ok _) => record_scopes rest observed_at (pending, t)
        | (pending, t, Err e) => ((pending, t), Err (SlotError e))
        end
    end
end.
(** [incomplete]: scopes could not be enumerated, in a collection that wants all. *)
Definition collect_scopes (scopes : list (ScopeSnapshot * scope_ending)) (incomplete : bool) (observed_at : ustr) (c : collector) :
  collector * result collect_exn unit :=
match res_mapM (λ sc, scope_history_skip_reason c.2 (sc_system_id sc.1) (sc_enclosure_id sc.1) (sc_snapshot sc.1)) scopes with
| Err e => (c, Err (SlotError e))
| Ok skip_reasons =>
    let judged := zip_with (λ sc reason, (sc.1, reason, sc.2)) scopes skip_reasons in
    let untrusted := List.filter (λ j : ScopeSnapshot * option skip_reason * scope_ending,
                                    match j.1.2 with Some _ => true | None => false end) judged in
    let pending := fold_left (λ p j, clear_pending_for_scope (sc_system_id j.1.1) (sc_enclosure_id j.1.1) p) untrusted c.1 in
    if (non_empty untrusted || incomplete) && Nat.eqb (length untrusted) (length scopes)
    then ((pending, c.2), Err HistorySourceError)
    else record_scopes judged observed_at (pending, c.2)
end.

(** ** The records of a snapshot *)

Lemma snapshot_records_made snapshot records : snapshot_records snapshot = Ok records →
  Forall (λ r, well_keyed r ∧ constructed r) records.
Proof.
  unfold snapshot_records. destruct (get (u "slots") snapshot) as [| | | |s|l|d].
  1: { destruct (jget _ _); [done|]. intros [= <-]. constructor. }
  1-3: done.
  - destruct s; [intros [= <-]; constructor|done].
  - intros H%res_mapM_Ok. induction H as [|v r l rs Hv _ IH]; constructor; [|done]. destruct v; try done.
    split; [by eapply from_snapshot_well_keyed|by eapply from_snapshot_constructed].
  - destruct d; [intros [= <-]; constructor|done].
Qed.
(** The slots of a scope are distinct and its own, their texts are scalars and
    their addresses ASCII. *)
Definition scope_fits (sc : ScopeSnapshot) : Prop := ∀ records, snapshot_records (sc_snapshot sc) = Ok records →
  Forall (λ r, (system_id r, enclosure_key r) = scope_key sc ∧ plain_record r ∧ addressed r) records ∧ NoDup (slot <$> records).
Lemma scope_rows sc records : Forall (λ r, (system_id r, enclosure_key r) = scope_key sc ∧ plain_record r ∧ addressed r) records →
  row_key <$> records = (λ n, (scope_key sc, n)) <$> (slot <$> records).
Proof.
  induction 1 as [|r records [E _] _ IH]; [done|]. rewrite !fmap_cons, IH. f_equal. unfold row_key. congruence.
Qed.
Lemma scope_sound sc records at_ fails : scope_fits sc → snapshot_records (sc_snapshot sc) = Ok records →
  call_sound (RecordScope records at_ fails).
Proof.
  intros Hf Hr. destruct (Hf _ Hr) as [Hall Hnd]. pose proof (snapshot_records_made _ _ Hr) as Hmade. split_and!; [split|..].
  - eapply Forall_impl; [exact Hmade|]. by intros r [? _].
  - rewrite (scope_rows _ _ Hall). apply NoDup_fmap_2; [|done]. intros x y [=]. done.
  - apply Forall_forall. intros r Hin. destruct (forall_list _ _ _ Hmade Hin) as [? ?].
    destruct (forall_list _ _ _ Hall Hin) as (_ & ? & _). by split_and!.
  - eapply Forall_impl; [exact Hall|]. by intros r (_ & _ & ?).
Qed.
Lemma record_of_slot_spec records n : NoDup (slot <$> records) →
  match record_of_slot records n with Some r => r ∈ records ∧ slot r = n | None => n ∉ (slot <$> records) end.
Proof.
  intros Hnd. unfold record_of_slot. assert (((λ r, (slot r, r)) <$> records).*1 = slot <$> records) as Hkeys
    by (rewrite <-list_fmap_compose; done).
  rewrite dget_dupdate by by rewrite Hkeys. destruct (dget n ((λ r, (slot r, r)) <$> records)) as [r|] eqn:E.
  - apply dget_in, list_elem_of_fmap in E as (r' & [= -> ->] & Hr). done.
  - apply dget_None in E. by rewrite Hkeys in E.
Qed.
Lemma elem_of_stored_slots t s e n old : (n, old) ∈ stored_slots t s e ↔ stored_at t (s, scope_of e, n) = Some old.
Proof.
  unfold stored_slots, stored_at. rewrite list_elem_of_omap. split.
  - intros ([[k m] row] & Hin & H). apply elem_of_map_to_list in Hin. cbn in H. case_bool_decide as Ek; [|done].
    injection H as <- <-. subst k. by rewrite Hin.
  - destruct (slot_state_current t !! _) as [row|] eqn:E; [|done]. intros [= <-]. exists ((s, scope_of e, n), row).
    split; [by apply elem_of_map_to_list|]. cbn. by rewrite bool_decide_eq_true_2.
Qed.

(** ** What a record keeps of a disk *)

(** Nothing but the device name or the SAS address is known of the disk. *)
Definition unidentified (r : SlotStateRecord) : Prop :=
  ∀ f, f ∈ [u "serial"; u "gptid"; u "logical_unit_id"; u "disk_identity_key"] → truthy (getattr r f) = false.
(** The same presence and, of a disk that was there, every identifier that was
    known: serial, model, gptid, logical unit and identity key, and, of a disk
    without such identifiers, its device name and SAS address. *)
Definition keeps (old new : SlotStateRecord) : Prop := present new = present old
  ∧ (present old = true →
     ∀ f, f ∈ [u "serial"; u "model"; u "gptid"; u "logical_unit_id"; u "disk_identity_key"]
       ∨ unidentified old ∧ f ∈ [u "device_name"; u "sas_address"] →
     truthy (getattr old f) = true → getattr new f = getattr old f).
Lemma keeps_itself r : keeps r r.
Proof. by split. Qed.
Lemma not_contradicted old r : contradicts old (Some r) = false → keeps old r.
Proof.
  unfold contradicts. destruct (Bool.eqb (present old) (present r)) eqn:Ep; [|done]. apply eqb_prop in Ep. cbn [negb].
  destruct (present old) eqn:Eo; cbn [negb].
  2: { intros _. split; [rewrite Eo; symmetry; exact Ep|]. rewrite Eo. intros [=]. }
  cbv zeta. intros H. split; [rewrite Eo; symmetry; exact Ep|].
  intros _ f Hf Ht. apply not_true_iff_false in H. destruct (decide (getattr old f = getattr r f)) as [E|Hne]; [symmetry; exact E|].
  destruct H. apply existsb_exists. exists f. split; [|rewrite Ht, bool_decide_eq_false_2; [reflexivity|exact Hne]].
  apply list_elem_of_In. destruct (existsb _ _) eqn:Ek; destruct Hf as [Hf|[Hu Hf]].
  - exact Hf.
  - exfalso. apply existsb_exists in Ek as (g & Hg%list_elem_of_In & Hgt). specialize (Hu g Hg). congruence.
  - apply elem_of_app. left. exact Hf.
  - apply elem_of_app. right. exact Hf.
Qed.
Lemma topology_device s r : Forall (λ f, getattr (with_topology s r) f = getattr r f) [u "device_name"; u "sas_address"].
Proof. destruct r. each_field. Qed.
Lemma held_keeps old q r : constructed r → keeps old r → keeps old (with_previous_topology q r).
Proof.
  intros Hc [Hp Hf]. rewrite held_topology by done. split; [by destruct r|]. intros Ho f Hin Ht. rewrite <-(Hf Ho f Hin Ht).
  destruct Hin as [Hin|[_ Hin]].
  - exact (forall_list _ _ _ (topology_disk (topology_signature q) r) Hin).
  - exact (forall_list _ _ _ (topology_device (topology_signature q) r) Hin).
Qed.
Lemma pass_keeps c records at_ fails r old : sound c → call_sound (RecordScope records at_ fails) → r ∈ records →
  stored c.2 r = Some old → contradicts old (Some r) = false →
  ∃ new, stored (slot_step c (RecordScope records at_ fails)).2 r = Some new ∧ keeps old new.
Proof.
  intros Hs Hc Hr Ho Hcon. destruct (step_slot _ _ at_ fails r Hs Hc Hr) as (up & Hup & _ & Hcur).
  destruct Hcur as [Hcur|[_ ->]]; [|exists old; by split; [|apply keeps_itself]].
  exists (post_init (up_record up)). split; [by apply (stored_row _ _ _ Hcur)|].
  destruct Hc as (_ & Hrec & _). destruct (forall_list _ _ _ Hrec Hr) as (_ & Hmade & _).
  apply not_contradicted in Hcon. apply slot_update_shape in Hup as [q _ _ ->|es _ _ ->|q es _ _ _ ->]; cbn [up_record].
  - by rewrite Hmade.
  - by rewrite Hmade.
  - unfold with_previous_topology. rewrite post_init_twice. by apply held_keeps.
Qed.
Lemma pass_elsewhere c records at_ fails k : sound c → call_sound (RecordScope records at_ fails) → k ∉ (row_key <$> records) →
  stored_at (slot_step c (RecordScope records at_ fails)).2 k = stored_at c.2 k.
Proof.
  intros Hs Hc Hk. destruct (sound_pass _ _ _ _ Hs Hc) as (ups & Hp & [->|[_ ->]]); [|done]. destruct Hc as (Hok & _ & _).
  destruct (pass_tables _ _ _ _ _ _ Hok Hp) as [_ Hout]. unfold stored_at. by rewrite (proj1 (Hout k Hk)).
Qed.

(** ** A collection *)

Lemma record_scopes_skip sc reason ending rest at_ c : ending ≠ Ends →
  record_scopes ((sc, Some reason, ending) :: rest) at_ c = record_scopes rest at_ c.
Proof. by destruct ending. Qed.
Lemma record_scopes_bad sc ending rest at_ c e : snapshot_records (sc_snapshot sc) = Err e →
  (record_scopes ((sc, None, ending) :: rest) at_ c).1 = c.
Proof. intros Er. destruct ending; [| |done]; cbn [record_scopes]; by rewrite Er. Qed.
Lemma record_scopes_pass sc ending rest at_ c records : ending ≠ Ends → snapshot_records (sc_snapshot sc) = Ok records →
  ∃ fails, let c' := slot_step c (RecordScope records at_ fails) in
    (record_scopes ((sc, None, ending) :: rest) at_ c).1 = c'
    ∨ record_scopes ((sc, None, ending) :: rest) at_ c = record_scopes rest at_ c'.
Proof.
  intros He Hr. exists (match ending with StoreRaises => true | _ => false end). cbv zeta. cbn [slot_step].
  destruct ending; [| |done]; cbn [record_scopes]; rewrite Hr;
    destruct (record_slot_changes _ records at_ c.1 c.2) as [[p t] [x|x]]; first [by left|by right].
Qed.

(** The pass of a scope, for the slots of other scopes and for its own *)
Lemma other_pass sc records at_ fails c k n : sound c → scope_fits sc → snapshot_records (sc_snapshot sc) = Ok records →
  k ≠ scope_key sc → stored_at (slot_step c (RecordScope records at_ fails)).2 (k, n) = stored_at c.2 (k, n).
Proof.
  intros Hs Hf Hr Hk. apply pass_elsewhere; [done|by eapply scope_sound|]. destruct (Hf _ Hr) as [Hall _].
  rewrite (scope_rows _ _ Hall). by intros (m & [= -> _] & _)%list_elem_of_fmap.
Qed.
Lemma own_pass sc records at_ fails c n old : sound c → scope_fits sc → snapshot_records (sc_snapshot sc) = Ok records →
  stored_at c.2 (scope_key sc, n) = Some old → contradicts old (record_of_slot records n) = false →
  ∃ new, stored_at (slot_step c (RecordScope records at_ fails)).2 (scope_key sc, n) = Some new ∧ keeps old new.
Proof.
  intros Hs Hf Hr Ho Hcon. pose proof (scope_sound _ _ at_ fails Hf Hr) as Hc. destruct (Hf _ Hr) as [Hall Hnd].
  pose proof (record_of_slot_spec records n Hnd) as Hrec. destruct (record_of_slot records n) as [r|].
  - destruct Hrec as [Hin <-]. destruct (forall_list _ _ _ Hall Hin) as (E & _).
    assert (row_key r = (scope_key sc, slot r)) as Ek by (unfold row_key; congruence). rewrite <-Ek in Ho |- *.
    by eapply pass_keeps.
  - exists old. split; [|apply keeps_itself]. rewrite <-Ho. apply pass_elsewhere; [done..|]. rewrite (scope_rows _ _ Hall).
    by intros (m & [= ->] & ?)%list_elem_of_fmap.
Qed.
Lemma collect_elsewhere (l : list (ScopeSnapshot * option skip_reason * scope_ending)) at_ c k n : sound c →
  Forall (λ j, scope_fits j.1.1) l → k ∉ ((λ j, scope_key j.1.1) <$> l) →
  stored_at (record_scopes l at_ c).1.2 (k, n) = stored_at c.2 (k, n).
Proof.
  intros Hs Hf. revert c Hs. induction Hf as [|[[sc reason] ending] rest Hsc _ IH]; intros c Hs Hk; [done|].
  rewrite fmap_cons in Hk. apply not_elem_of_cons in Hk as [Hne Hk]. cbn [fst] in Hsc, Hne.
  destruct (decide (ending = Ends)) as [->|He]; [by destruct reason|].
  destruct reason as [reason|]; [rewrite record_scopes_skip by done; by apply IH|].
  destruct (snapshot_records (sc_snapshot sc)) as [records|e] eqn:Er; [|by rewrite (record_scopes_bad _ _ _ _ _ _ Er)].
  destruct (record_scopes_pass sc ending rest at_ c records He Er) as [fails Hpass]. cbv zeta in Hpass.
  rewrite <-(other_pass sc records at_ fails c k n Hs Hsc Er Hne). destruct Hpass as [->| ->]; [done|].
  apply IH; [|done]. apply sound_step; [done|]. by eapply scope_sound.
Qed.
Lemma collect_keeps (l : list (ScopeSnapshot * option skip_reason * scope_ending)) at_ c j n old : sound c →
  Forall (λ j, scope_fits j.1.1) l → NoDup ((λ j, scope_key j.1.1) <$> l) → j ∈ l →
  stored_at c.2 (scope_key j.1.1, n) = Some old →
  (j.1.2 = None → ∀ records, snapshot_records (sc_snapshot j.1.1) = Ok records → contradicts old (record_of_slot records n) = false) →
  ∃ new, stored_at (record_scopes l at_ c).1.2 (scope_key j.1.1, n) = Some new ∧ keeps old new.
Proof.
  intros Hs Hf Hnd Hj Ho Hb. revert c Hs Ho.
  induction l as [|[[sc reason] ending] rest IH]; intros c Hs Ho; [by apply not_elem_of_nil in Hj|].
  apply Forall_cons in Hf as [Hsc Hf]. rewrite fmap_cons in Hnd. apply NoDup_cons in Hnd as [Hk Hnd]. cbn [fst] in Hsc, Hk.
  assert (∀ c' : collector, c' = c → ∃ new, stored_at c'.2 (scope_key j.1.1, n) = Some new ∧ keeps old new) as Hsame.
  { intros c' ->. exists old. by split; [|apply keeps_itself]. }
  destruct (decide (ending = Ends)) as [->|He]; [apply Hsame; by destruct reason|].
  destruct reason as [reason|].
  { rewrite record_scopes_skip by done. apply elem_of_cons in Hj as [->|Hj]; [|by apply IH].
    exists old. split; [|apply keeps_itself]. cbn [fst]. by rewrite collect_elsewhere. }
  destruct (snapshot_records (sc_snapshot sc)) as [records|e] eqn:Er; [|by apply Hsame, (record_scopes_bad _ _ _ _ _ e)].
  destruct (record_scopes_pass sc ending rest at_ c records He Er) as [fails Hpass]. cbv zeta in Hpass.
  assert (sound (slot_step c (RecordScope records at_ fails))) as Hs' by (apply sound_step; [done|]; by eapply scope_sound).
  apply elem_of_cons in Hj as [->|Hj]; cbn [fst snd] in *.
  - destruct (own_pass sc records at_ fails c n old Hs Hsc Er Ho (Hb eq_refl _ Er)) as (new & Hnew & Hkeeps).
    exists new. split; [|done]. destruct Hpass as [->| ->]; [done|]. by rewrite collect_elsewhere.
  - assert (scope_key j.1.1 ≠ scope_key sc) as Hne.
    { intros E. apply Hk. rewrite <-E. apply list_elem_of_fmap. by exists j. }
    rewrite <-(other_pass sc records at_ fails c _ n Hs Hsc Er Hne) in Ho.
    destruct Hpass as [->| ->]; [exists old; by split; [|apply keeps_itself]|by apply IH].
Qed.

(** ** A failed SSH source *)

(** The snapshot of a host whose inventory comes over SSH, with that source failed *)
Definition ssh_failed (snapshot : jdict) : bool :=
  over_ssh (normalize_text (get (u "selected_system_platform") snapshot))
  && match source_named (u "ssh") snapshot with Some ssh => enabled_not_ok ssh | None => false end.
Lemma believed_scan t s e snapshot n old : ssh_failed snapshot = true → scope_history_skip_reason t s e snapshot = Ok None →
  stored_at t (s, scope_of e, n) = Some old → ∀ records, snapshot_records snapshot = Ok records →
  contradicts old (record_of_slot records n) = false.
Proof.
  unfold ssh_failed. intros [Hover Hssh]%andb_true_iff H Ho records Hr. unfold scope_history_skip_reason in H.
  destruct (scope_skip_reason snapshot); [done|]. rewrite Hover in H. cbn [negb] in H.
  destruct (source_named _ _) as [ssh|]; [|done]. rewrite Hssh, Hr in H. cbn [negb mbind result_bind] in H.
  destruct (existsb _ _) eqn:Ex; [done|]. apply not_true_iff_false in Ex. apply not_true_iff_false. intros Hcon. apply Ex.
  apply existsb_exists. exists (n, old). split; [|exact Hcon]. by apply list_elem_of_In, elem_of_stored_slots.
Qed.

(** [C8] A scan of a Linux or ESXi host over a failed SSH source never loses a
    disk.  Whatever a collection over distinct scopes does (believes its scopes or
    not, stops, fails to store), every stored slot of such a scope is still stored
    after it, as present as before.  A disk that was there has the serial, model,
    gptid, logical unit id and identity key that were known of it; when none of
    them but the model was known, it has the device name and SAS address that
    were.  (Other fields may change, and other platforms do not take their
    inventory from SSH.) *)
Theorem degraded_scan_keeps_disks (c : collector) (scopes : list (ScopeSnapshot * scope_ending)) (incomplete : bool)
    (observed_at : ustr) (sc : ScopeSnapshot * scope_ending) (n : Z) (old : SlotStateRecord)
    (Hs : sound c) (Hfits : Forall (λ sc, scope_fits sc.1) scopes) (Hnd : NoDup ((λ sc, scope_key sc.1) <$> scopes))
    (Hsc : sc ∈ scopes) (Hssh : ssh_failed (sc_snapshot sc.1) = true) (Hold : stored_at c.2 (scope_key sc.1, n) = Some old) :
  ∃ new, stored_at (collect_scopes scopes incomplete observed_at c).1.2 (scope_key sc.1, n) = Some new ∧ keeps old new.
Proof.
  unfold collect_scopes. destruct (res_mapM _ _) as [reasons|e] eqn:E; [|exists old; by split; [|apply keeps_itself]].
  cbv zeta. destruct (_ && _); [exists old; by split; [|apply keeps_itself]|]. apply res_mapM_Ok in E.
  set (untrusted := List.filter _ _). set (c' := (_, c.2)).
  assert (sound c') as Hs'.
  { subst c'. destruct c as [p t]. cbn [fst snd] in *. revert p Hs. induction untrusted as [|x l IH]; intros p Hs; [done|].
    cbn [fold_left]. apply IH. by apply (sound_step (p, t) (ClearScope (sc_system_id x.1.1) (sc_enclosure_id x.1.1))). }
  clearbody untrusted.
  assert (∃ reason, (sc.1, reason, sc.2) ∈ zip_with (λ sc reason, (sc.1, reason, sc.2)) scopes reasons
    ∧ scope_history_skip_reason c.2 (sc_system_id sc.1) (sc_enclosure_id sc.1) (sc_snapshot sc.1) = Ok reason) as (reason & Hin & Hreason).
  { clear -E Hsc. induction E as [|x r xs rs Hx _ IH]; [by apply not_elem_of_nil in Hsc|].
    apply elem_of_cons in Hsc as [->|Hsc]; [exists r; by split; [left|]|].
    destruct (IH Hsc) as (reason & ? & ?). exists reason. by split; [right|]. }
  assert ((λ j, j.1.1) <$> zip_with (λ sc reason, (sc.1, reason, sc.2)) scopes reasons = fst <$> scopes) as Hscopes.
  { clear -E. induction E as [|x r xs rs _ _ IH]; [done|]. cbn. by rewrite IH. }
  apply (collect_keeps _ observed_at c' (sc.1, reason, sc.2)); cbn [fst snd]; try done.
  - apply Forall_forall. intros j Hj. assert (j.1.1 ∈ scopes.*1) as Hj' by by (rewrite <-Hscopes; apply list_elem_of_fmap; by exists j).
    apply list_elem_of_fmap in Hj' as (x & -> & Hx). exact (forall_list _ _ _ Hfits Hx).
  - rewrite (list_fmap_compose (λ j : ScopeSnapshot * option skip_reason * scope_ending, j.1.1) scope_key), Hscopes.
    by rewrite <-list_fmap_compose.
  - intros -> records Hr. by eapply believed_scan.
Qed.
End scans.
