(* ===== verification/SlotExample.v ===== *)
(** * Slot changes: examples

    A shelf of five slots: topologies that change, degrade together and are
    scanned while the SSH source fails. *)

From S2P Require Import Prelude PyStr Json JsonProofs JsonHook Dict Journal SlotRecords SlotChanges SlotDetails SlotPasses SlotHistory SlotTopology SlotConfirmed SlotSteady SlotScans.
#[local] Open Scope Z_scope.
#[local] Open Scope list_scope.

(** Beyond ASCII there is only the digit that is no decimal, the superscript two. *)
#[local] Instance example_text : PyText := {|
  pt_floats := {| float_repr := Some; float_true := λ _, true |};
  float_str := id;
  float_to_int := λ _, Err SlotValueError;
  casefold_wide := λ c, [c];
  upper_wide := λ c, [c];
  isdigit_wide := λ c, c =? 178;
  decimal_wide := λ _, None;
  isprintable_wide := λ _, true;
|}.

(** A slot with a vdev, or with the pool only *)
Definition payload (vdev : option ustr) (address : ustr) (n : Z) : json :=
  JObj ([(u "slot", JInt n); (u "present", JBool true); (u "state", JStr (u "healthy")); (u "device_name", JStr (u "sda"));
         (u "serial", JStr (u "S" ++ print_int n)); (u "sas_address", JStr address); (u "pool_name", JStr (u "tank"))]
        ++ match vdev with
           | Some v => [(u "vdev_name", JStr v); (u "topology_label", JStr (u "tank > " ++ v))]
           | None => []
           end).
Definition address : ustr := u "0x5000C500A1B2C3D1".
Definition snapshot_of (ssh_ok : bool) (slots : list json) : jdict :=
  [(u "selected_system_platform", JStr (u "linux")); (u "selected_system_id", JStr (u "nas"));
   (u "selected_enclosure_id", JStr (u "shelf"));
   (u "sources", JObj [(u "ssh", JObj [(u "enabled", JBool true); (u "ok", JBool ssh_ok); (u "required_ok", JBool true)])]);
   (u "slots", JList slots)].
Definition records_of (snapshot : jdict) : list SlotStateRecord :=
  match snapshot_records snapshot with Ok records => records | Err _ => [] end.
Definition shelf (vdev : option ustr) : list SlotStateRecord :=
  records_of (snapshot_of true (payload vdev address <$> [0; 1; 2; 3; 4])).
Definition on_mirror : list SlotStateRecord := shelf (Some (u "mirror-0")).
Definition on_raidz : list SlotStateRecord := shelf (Some (u "raidz1-0")).
Definition poolless : list SlotStateRecord := shelf None.
Definition noon : ustr := u "2024-06-01T12:00:00Z".
Definition seen (records : list SlotStateRecord) : slot_call := RecordScope records noon false.

Definition record_check (r : SlotStateRecord) : bool :=
  bool_decide (enclosure_key r = scope_of (enclosure_id r)) && bool_decide (post_init r = r) && bool_decide (plain_record r)
  && match sas_address r with Some s => forallb is_ascii s | None => true end.
Definition call_check (records : list SlotStateRecord) : bool :=
  forallb record_check records && bool_decide (NoDup (row_key <$> records)).
Lemma address_checked r : match sas_address r with Some s => forallb is_ascii s | None => true end = true → addressed r.
Proof. intros H s E. rewrite E in H. apply Forall_forall. intros c Hc. by apply (forallb_elem _ _ _ H). Qed.
Lemma record_checked r : record_check r = true → record_ok r ∧ addressed r.
Proof.
  intros H. apply andb_true_iff in H as [H Ha]. apply andb_true_iff in H as [H Hp]. apply andb_true_iff in H as [Hk Hc].
  apply bool_decide_eq_true in Hk, Hc, Hp. split; [split; [exact Hk|split; [exact Hc|exact Hp]]|by apply address_checked].
Qed.
Lemma call_checked records at_ fails : call_check records = true → call_sound (RecordScope records at_ fails).
Proof.
  intros H. apply andb_true_iff in H as [H Hnd]. apply bool_decide_eq_true in Hnd.
  assert (Forall (λ r, record_ok r ∧ addressed r) records) as Hr.
  { apply Forall_forall. intros r Hr. apply record_checked. by apply (forallb_elem _ _ _ H). }
  split_and!; [split; [|done]|..]; (eapply Forall_impl; [exact Hr|]).
  - by intros r [[? _] _].
  - by intros r [? _].
  - by intros r [_ ?].
Qed.
Lemma shelf_checked : forallb call_check [on_mirror; on_raidz; poolless] = true.
Proof. vm_compute. reflexivity. Qed.
Lemma shelf_sound records at_ fails : records ∈ [on_mirror; on_raidz; poolless] → call_sound (RecordScope records at_ fails).
Proof. intros H. apply call_checked. exact (forallb_elem _ _ _ shelf_checked H). Qed.
Lemma mirror_sound at_ fails : call_sound (RecordScope on_mirror at_ fails).
Proof. apply shelf_sound. left. Qed.
Lemma raidz_sound at_ fails : call_sound (RecordScope on_raidz at_ fails).
Proof. apply shelf_sound. right. left. Qed.
Lemma poolless_sound at_ fails : call_sound (RecordScope poolless at_ fails).
Proof. apply shelf_sound. right. right. left. Qed.

Definition empty : HistoryTables := mkTables ∅ [].
Lemma empty_sound : sound (∅, empty).
Proof. apply sound_start; intros k row H; cbn in H; by apply lookup_empty_Some in H. Qed.

(** Slot 2 *)
Definition third (records : list SlotStateRecord) : SlotStateRecord :=
  default (mkSlot [] None [] None None 0 [] false None false None None None None None None None None None None None None
    None None None None None None None None None None None None None) (records !! 2%nat).
Definition stored_vdev (c : collector) : option ustr := stored_at c.2 (u "nas", u "shelf", 2) ≫= vdev_name.
Definition event_types (c : collector) : list ustr := event_type <$> slot_log c.2 (u "nas", u "shelf", 2).

Example confirmed_change :
  let runs n := slot_run (seen on_mirror :: repeat (seen on_raidz) n) (∅, empty) in
  (stored_vdev (runs 1%nat), event_types (runs 1%nat)) = (Some (u "mirror-0"), [])
  ∧ (stored_vdev (runs 2%nat), event_types (runs 2%nat)) = (Some (u "raidz1-0"), [TOPOLOGY_CHANGED]).
Proof. vm_compute. split; reflexivity. Qed.
Example mass_degradation :
  let run := slot_run (seen on_mirror :: repeat (seen poolless) 3) (∅, empty) in
  (stored_vdev run, event_types run) = (Some (u "mirror-0"), []).
Proof. vm_compute. reflexivity. Qed.

(** ** Events and the state they say *)

Lemma third_in records : records !! 2%nat = Some (third records) → third records ∈ records.
Proof. apply list_elem_of_lookup_2. Qed.
Lemma mirror_third : third on_mirror ∈ on_mirror.
Proof. apply third_in. vm_compute. reflexivity. Qed.
Lemma raidz_third : third on_raidz ∈ on_raidz.
Proof. apply third_in. vm_compute. reflexivity. Qed.
Lemma third_plain records at_ fails : call_sound (RecordScope records at_ fails) → third records ∈ records → plain_record (third records).
Proof. intros (_ & H & _) Hin. by apply (forall_list _ _ _ H). Qed.
Definition vdev_events : list SlotEvent :=
  match build_slot_events (Some (third on_mirror)) (third on_raidz) noon with Ok es => es | Err _ => [] end.
Example vdev_event : replay_field (u "vdev_name") vdev_events (JStr (u "mirror-0")) = JStr (u "raidz1-0").
Proof. vm_compute. reflexivity. Qed.
Lemma vdev_built : build_slot_events (Some (third on_mirror)) (third on_raidz) noon = Ok vdev_events.
Proof. vm_compute. reflexivity. Qed.
Lemma event_details_roundtrip_witness :
  length vdev_events = 1%nat ∧
  ∀ e f v, e ∈ vdev_events → f ∈ tracked_fields → said e f = Some v →
    v = getattr (third on_raidz) f ∧ field_values_equal (third on_mirror) (third on_raidz) f = Ok false.
Proof.
  split; [vm_compute; reflexivity|].
  exact (proj2 (event_details_roundtrip (third on_mirror) (third on_raidz) noon vdev_events
    (third_plain on_mirror noon false (mirror_sound noon false) mirror_third)
    (third_plain on_raidz noon false (raidz_sound noon false) raidz_third) vdev_built)).
Defined.

(** A shelf whose slot 2 is empty *)
Definition pulled : list SlotStateRecord :=
  records_of (snapshot_of true ((payload (Some (u "mirror-0")) address <$> [0; 1])
    ++ [JObj [(u "slot", JInt 2)]] ++ (payload (Some (u "mirror-0")) address <$> [3; 4]))).
Lemma pulled_sound at_ fails : call_sound (RecordScope pulled at_ fails).
Proof. apply call_checked. vm_compute. reflexivity. Qed.
Definition mirrored : collector := slot_step (∅, empty) (seen on_mirror).
Lemma mirrored_sound : sound mirrored.
Proof. apply sound_step; [exact empty_sound|exact (mirror_sound noon false)]. Qed.
Lemma slot_state_replayed_witness :
  let c := slot_run [seen on_raidz; Restart; seen pulled] mirrored in
  event_types c = [STATE_CHANGED] ∧ replays mirrored.2 c.2.
Proof.
  split; [vm_compute; reflexivity|]. apply slot_state_replayed.
  - exact (sound_tables _ mirrored_sound).
  - apply Forall_cons. split; [exact (call_sound_ok _ (raidz_sound noon false))|].
    apply Forall_cons. split; [exact I|]. apply Forall_cons.
    split; [exact (call_sound_ok _ (pulled_sound noon false))|apply Forall_nil; exact I].
Defined.

(** ** Topologies *)

Definition raidz_once : watch := watch_run [seen on_mirror; seen on_raidz] ((∅, empty), ∅).
Definition held_third : SlotStateRecord := default (third on_mirror) (stored raidz_once.1.2 (third on_raidz)).
Lemma topology_change_confirmed_witness :
  vdev_name held_third = Some (u "mirror-0") ∧
  ∃ row, slot_state_current (slot_step raidz_once.1 (seen on_raidz)).2 !! row_key (third on_raidz) = Some row
    ∧ (topology_signature row.1 = topology_signature held_third
       ∨ topology_signature row.1 = topology_signature (third on_raidz)
         ∧ raidz_once.2 !! row_key (third on_raidz) = Some (topology_signature (third on_raidz))
         ∧ mass_in raidz_once.1.2 on_raidz && degraded raidz_once.1.2 (third on_raidz) = false).
Proof.
  split; [vm_compute; reflexivity|].
  apply (topology_change_confirmed empty [seen on_mirror; seen on_raidz] on_raidz noon false (third on_raidz) held_third raidz_once).
  - exact empty_sound.
  - apply Forall_cons. split; [exact (mirror_sound noon false)|]. apply Forall_singleton. exact (raidz_sound noon false).
  - reflexivity.
  - exact (raidz_sound noon false).
  - exact raidz_third.
  - vm_compute. reflexivity.
  - vm_compute. reflexivity.
  - vm_compute. reflexivity.
Defined.
Lemma topology_change_recorded_witness :
  stored_vdev mirrored = Some (u "mirror-0") ∧
  ∃ row, slot_state_current (slot_run [seen on_raidz; seen on_raidz] mirrored).2 !! row_key (third on_raidz) = Some row
    ∧ topology_signature row.1 = topology_signature (third on_raidz).
Proof.
  split; [vm_compute; reflexivity|].
  apply (topology_change_recorded mirrored on_raidz on_raidz noon noon (third on_raidz) (third on_raidz)).
  - exact mirrored_sound.
  - exact (raidz_sound noon false).
  - exact (raidz_sound noon false).
  - exact raidz_third.
  - exact raidz_third.
  - reflexivity.
  - reflexivity.
  - vm_compute. reflexivity.
  - vm_compute. reflexivity.
Defined.
Lemma steady_inventory_is_silent_witness :
  let c2 := slot_run [RecordScope on_raidz noon false; RecordScope on_raidz noon false] mirrored in
  length (slot_events c2.2) = 5%nat ∧
  slot_events (slot_run ((λ p, RecordScope on_raidz p.1 p.2) <$> [(noon, false); (noon, true)]) c2).2 = slot_events c2.2.
Proof.
  split; [vm_compute; reflexivity|]. apply (steady_inventory_is_silent mirrored on_raidz noon noon [(noon, false); (noon, true)]).
  - exact mirrored_sound.
  - exact (raidz_sound noon false).
Defined.

(** ** A failed SSH source *)

(** A scan that misses slot 2 is not believed, one that contradicts nothing is. *)
Definition failed_scan (ns : list Z) : ScopeSnapshot :=
  mkScope (u "nas") None (Some (u "shelf")) None (snapshot_of false (payload (Some (u "mirror-0")) address <$> ns)).
Definition fits_check (sc : ScopeSnapshot) : bool :=
  match snapshot_records (sc_snapshot sc) with
  | Ok records => forallb (λ r, bool_decide ((system_id r, enclosure_key r) = scope_key sc) && record_check r) records
                  && bool_decide (NoDup (slot <$> records))
  | Err _ => true
  end.
Lemma fits_checked sc : fits_check sc = true → scope_fits sc.
Proof.
  intros H records E. unfold fits_check in H. rewrite E in H. apply andb_true_iff in H as [H Hnd].
  apply bool_decide_eq_true in Hnd. split; [|exact Hnd]. apply Forall_forall. intros r Hr.
  pose proof (forallb_elem _ _ _ H Hr) as Hc. cbv beta in Hc. apply andb_true_iff in Hc as [Hk Hc].
  apply bool_decide_eq_true in Hk. destruct (record_checked r Hc) as [(_ & _ & Hp) Ha]. split; [exact Hk|]. by split.
Qed.
Example failed_scans :
  (collect_scopes [(failed_scan [0; 1; 3; 4], Runs)] false noon mirrored).2 = Err HistorySourceError
  ∧ (collect_scopes [(failed_scan [0; 1; 2; 3; 4; 5], Runs)] false noon mirrored).2 = Ok tt.
Proof. vm_compute. split; reflexivity. Qed.
Definition known_third : SlotStateRecord := default (third on_mirror) (stored_at mirrored.2 (u "nas", u "shelf", 2)).
Lemma degraded_scan_keeps_disks_witness :
  serial known_third = Some (u "S2") ∧
  ∃ new, stored_at (collect_scopes [(failed_scan [0; 1; 2; 3; 4; 5], Runs)] false noon mirrored).1.2
      (scope_key (failed_scan [0; 1; 2; 3; 4; 5]), 2) = Some new ∧ keeps known_third new.
Proof.
  split; [vm_compute; reflexivity|].
  apply (degraded_scan_keeps_disks mirrored [(failed_scan [0; 1; 2; 3; 4; 5], Runs)] false noon (failed_scan [0; 1; 2; 3; 4; 5], Runs) 2 known_third).
  - exact mirrored_sound.
  - apply Forall_singleton. apply fits_checked. vm_compute. reflexivity.
  - apply NoDup_singleton.
  - left.
  - vm_compute. reflexivity.
  - vm_compute. reflexivity.
Defined.

(** ** Corners *)

Definition one_slot (p : json) : slot_call := seen (records_of (snapshot_of true [p])).
(** A digit that [isdigit] knows and [int] does not, at the end of the address
    of a disk that stayed: the pass raises and records no slot at all. *)
Definition superscript : ustr := removelast address ++ [178].
Theorem superscript_address_raises :
  let c := slot_step (∅, empty) (seen on_mirror) in
  let records := records_of (snapshot_of true ((payload (Some (u "mirror-0")) address <$> [0; 1])
                   ++ [payload (Some (u "mirror-0")) superscript 2])) in
  (record_slot_changes false records noon c.1 c.2).2 = Err SlotValueError.
Proof. vm_compute. reflexivity. Qed.
(** A pass that backfills the row of a slot saw the old topology of it, and what
    is held back is counted on as if there had been no pass. *)
Definition plain_payload (vdev : ustr) (address : json) : json :=
  JObj [(u "slot", JInt 2); (u "present", JBool true); (u "serial", JStr (u "S2")); (u "pool_name", JStr (u "tank"));
        (u "vdev_name", JStr vdev); (u "sas_address", address)].
Theorem backfill_between_confirms :
  let sightings := [plain_payload (u "mirror-0") JNull; plain_payload (u "mirror-1") JNull;
                    plain_payload (u "mirror-0") (JStr address); plain_payload (u "mirror-1") (JStr address)] in
  let run n := slot_run (one_slot <$> take n sightings) (∅, empty) in
  (stored_vdev (run 3%nat), event_types (run 3%nat)) = (Some (u "mirror-0"), [])
  ∧ (stored_vdev (run 4%nat), event_types (run 4%nat)) = (Some (u "mirror-1"), [TOPOLOGY_CHANGED]).
Proof. vm_compute. split; reflexivity. Qed.
